(* ===== verification/_CoqProject ===== *)
-Q . S2P
Prelude.v
GoLib.v
Dfs.v
Bytes.v
StateMachine.v
Tx.v
TxRecords.v
Storage.v
StorageProps.v
StateServer.v
Pool.v
WalletCache.v
Node.v
Pin.v
PinProps.v
PinSync.v
Confirmation.v
Weights.v
Dag.v
DagProps.v
DagSteps.v
DagInit.v
Visualize.v
Traverse.v
TopoSort.v
Graph.v
GraphProps.v
Shutdown.v
ShutdownProps.v
Sync.v
PinGaps.v
SyncProps.v
SyncLoops.v
SyncSnapshot.v
SyncInv.v
Search.v
SearchProps.v
Diffusion.v
DiffusionProps.v
Services.v
ServicesProps.v
PeerSteps.v
EthRpc.v
EthRpcProps.v
Rest.v
RestProps.v
Events.v
EventsProps.v
Keys.v
KeysProps.v
Listeners.v
Discovery.v
DiscoveryProps.v
Startup.v
StartupProps.v
Trader.v
TraderProps.v
Stats.v
PubQueue.v
PubQueueProps.v
LockFree.v
LockFreeProps.v
LockFreeProgress.v
Queues.v
TxGen.v
TxGenProps.v
Handshake.v
Topics.v
Teardown.v
NatMappings.v
ProcTool.v
VmContext.v
Host.v
