(* ===== verification/Prelude.v ===== *)
(** * A verification of the Grape-Dag peer

    Grape-Dag is a peer of a distributed ledger.  Transactions are the vertices
    of a directed acyclic graph, the dag; a new vertex approves two tips, and a
    vertex that was approved twice is confirmed.  From time to time the leader
    closes a slice of confirmed vertices with a pin: a record of the vertices,
    of the balances of their wallets and of the smart contract transactions
    executed with them.  Pins form a chain that other peers receive, check and
    replay.  Contracts run in a separate virtual machine that reads and writes
    accounts and storage through a state store kept by the peer.

    ** How the parts interact

    A client sends a transaction to one of the front ends ([Rest], [EthRpc], the
    gRPC service of [Services] and [Trader]).  [SendRawTransaction] ([Services])
    checks it and puts a contract transaction into the pool ([Pool]) and a
    payment into the publish queue ([LockFree], [PubQueue]).  The publisher
    ([Diffusion]) wraps it in a node ([Node]), adds it to the dag and sends it
    to the other peers, whose subscribers insert it.  [AddTxDag] ([Dag]) selects
    two tips ([Weights]), links the node to them, checks and moves the balances
    in the wallet cache ([WalletCache], and the pins behind it, [Pin]) and
    counts the approvals ([Confirmation]).  Nodes of other peers enter through
    [InsertTxDag], which keeps links to unknown targets aside until they
    arrive.  Every change of the dag is reported to a watcher that keeps a
    reverse graph ([Graph]).  [genPinTx] collects the confirmed nodes of a
    slice; [NodeTxPin_add] ([Pin]) forms the pin, runs the pooled contract
    transactions on the state store ([Storage]) and removes the pinned wallets
    from the cache; the logs of the contracts go to the subscribers of events
    ([Events]).  Peers exchange pins, nodes and balances by messages ([Sync],
    over the state machines of [StateMachine] and the queue of [Queues]); a
    peer that receives pins puts them in chain order ([insertIfNotFound]) and
    replays their contracts ([runSmartContractStageFullNode]).  Searches read
    the pins, the pool and the dag ([Search]).

    ** Files

    - [Prelude]: outcomes of functions that may panic, machine integers, the
      automation and the generic lemmas.
    - [GoLib]: interfaces, with laws, of the libraries the code calls
      (goterators, golang-collections, uuid) and of the iteration order of a
      map; an executable instance of each.  [Dfs]: depth-first search with a
      visited set, for the traversals of the dag and of the graph.
    - [Bytes]: [crypto/wallet.go], [types/hex.go], [crypto/eth/address.go].
    - [StateMachine]: [statemachine/] and [dag/syncstates.go].
    - [Tx]: [tx/txvX.go], [tx/wrappers.go], [crypto/dsa.go], the sequence
      numbers of [tx/grapetx.go].
    - [TxRecords]: [tx/ids.go], [tx/edge.go], [tx/vertex.go], [tx/sync.go],
      [tx/grapetx.go] with their protobuf conversions.
    - [Storage], [StorageProps], [StateServer]: the state store and its gRPC
      service, [vm/server.go].  [VmContext]: the calls of the VM, [vm/coms.go],
      with the requests that are served during them and their receipts.
    - [Pool]: [smc/pool.go], [smc/store.go].
    - [WalletCache]: [dag/slice.go].
    - [Node]: [dag/node.go]; nodes are shared by pointer and live on a heap.
    - [Pin], [PinProps], [PinSync]: [dag/pin.go], [tx/pb/txpin.go].
    - [Confirmation]: [dag/confirmation.go], [dag/site.go].
    - [Weights]: [dag/weights.go] and the tip tests of [dag/dag.go].
    - [Dag], [DagProps], [DagSteps], [DagInit]: [dag/dag.go], [dag/add.go],
      [dag/insert.go], [dag/generate.go].  [Visualize]: [dag/visualize.go].
    - [Traverse]: [dag/traverse.go].  [TopoSort]: the topological sort of
      [dag/utils.go].
    - [Graph], [GraphProps]: [graph/] and the watcher of [dag/sync.go].
    - [Shutdown], [ShutdownProps]: [Terminate] of [dag/dag.go], [Stop] and the
      watched publication of [dag/syncmngr.go], the loops they end.
    - [Sync], [PinGaps], [SyncProps], [SyncSnapshot], [SyncInv]: the messages of
      [dag/sync.go], [dag/syncmngr.go], [dag/synchandle.go], [dag/syncpin.go]
      and [dag/syncsite.go].  [SyncLoops]: the loops that start it.
    - [Topics]: joining the topics, [NewDagSyncSub] and [DagSync] of
      [dag/sync.go], [subEvHndlr] of [dag/syncmngr.go], [Diffusion] of
      [diffusion/diffusion.go].
    - [Search], [SearchProps]: [dag/search.go].
    - [Diffusion], [DiffusionProps]: [diffusion/].
    - [Services], [ServicesProps]: [services/transactions.go],
      [services/accounts.go], paging and sorting.  [PeerSteps]: the steps of a
      peer together.
    - [EthRpc], [EthRpcProps]: [services/eth/rpc/api.go].
    - [Rest], [RestProps]: [services/rest/handlers.go], [abi.go] and
      [mapper/mapper.go].
    - [Events], [EventsProps]: [services/ws/events.go], [vm/events.go].
    - [Keys], [KeysProps]: [utils/pk.go], [utils/wpk.go], [utils/hashing.go].
    - [Listeners]: the connection listeners of [discovery/discovery.go] and
      [waitForConnection] of [dag/sync.go].  [Discovery], [DiscoveryProps]:
      [discovery/dht.go], [discovery/handler.go], [discovery/mesh.go].
      [Handshake]: [stream/handshake.go].  [NatMappings]: the port mappings of
      [network/network.go].  [Host]: the host of [peer/peer.go] and its relay,
      [peer/reservation.go].
    - [Teardown]: [Terminate] of [app/app.go] and of [peer/peer.go], the services
      of the hash table and the event bus monitor that they stop.  [ProcTool]:
      the process tool [tools/proc/mng.go] and [run/misc.go].
    - [Startup], [StartupProps]: [run/activation.go] with [cmd/secret/main.go],
      [run/gearup.go], [config/config.go], the relays of [peer/peer.go].
    - [Trader], [TraderProps]: [services/grpcpublish.go],
      [tools/txgen/generator.go], [wallet/wallet.go].  [TxGen], [TxGenProps]:
      the command line client, [cmd/txgen/main.go], [tools/txgen/].
    - [Stats]: [stats/stats.go].
    - [PubQueue], [PubQueueProps]: [queues/txqueue.go].
    - [LockFree], [LockFreeProps], [LockFreeProgress]: [queues/lfqueue.go], its
      callers interleaved access by access.
    - [Queues]: [queues/basicqueue.go], [queues/syncqueue.go].

    Operations keep the names of the Go functions; a method [m] of a type [T]
    is [T_m] where [m] alone would clash.  A struct is a record with the
    fields of the source, a map a [gmap], a slice a list, an integer a [Z]
    that is wrapped where the source converts or where it can overflow.  Code
    that shares objects is modelled on a heap of locations; code whose answer
    depends on the order of a map takes that order from [MapRange].  A panic is
    the outcome [Panic]; a call that waits, or a loop that need not end, is an
    [option].

    ** What is shown

    - Balances.  A payment changes exactly the two wallets by the amount or
      nothing at all, and keeps the total ([node_payment_refines_ledger],
      [node_payment_conserves_total]); forming a pin preserves every balance
      that its contracts do not change ([pin_preserves_balances]); the balance
      queries over the chain of pins give the latest balance
      ([GetPinnedBalances_latest], [GetBalances_reads_ledger]).
    - State store.  [checkpoint], [commit] and [revert] refine a stack of
      snapshots ([revert_restores_checkpoint]); the state server panics exactly at
      a call of the VM that closes a transaction that is not open, or reads a
      sub-message that is absent, or saves logs while no transaction is executed,
      and answers every other call ([state_server_panics_iff]); the collected
      account differences cover the accounts that changed
      ([account_diffs_cover]).  Calls of the VM that follow one another lose no
      log and store each with the hash of its own transaction
      ([calls_attribute_logs]), so the receipt of a call holds exactly the logs
      saved during it ([receipt_holds_saved_logs]), which fails for Ethereum
      transactions ([eth_receipt_has_no_logs]).
    - Pins.  A node that receives one pin of a chain and then its neighbours, in
      any interleaving and with repetitions, ends with the chain
      ([pins_rebuild_chain]); a full node that replays the leader's contracts
      by its own clock accepts the leader's pin, if the VM answers Ethereum
      transactions the same at both times ([replay_accepts_leader]).
    - Dag.  As long as no missing target is relinked, every reachable dag is
      acyclic, its maps and links agree with its nodes, and the confirmation
      counter knows nodes of the dag only
      ([peer_stays_well_formed], [messages_keep_dag]); adding a payment is
      described on every branch ([AddTxDag_payment]) and so is the life of a
      vertex in the counter ([confirmation_cycle]); tip selection terminates
      and gives tips ([weightedMcmc_selects_tips]), and the random walk ends and
      panics only where a vertex or an approver is missing
      ([weightedRandomWalk_terminates]); a traversal adds the links to the edges
      and visits exactly what its roots reach ([traverseDagSlice_reaches]); the sort puts nodes after what
      they approve ([topologicalSort_sorts]); the reverse graph mirrors the dag
      ([graph_mirrors_dag]).
    - Exchange.  A payment that one peer publishes is in the dag of the peer that
      receives it, with the same transaction and approvals
      ([payment_diffuses]); peers with gaps in their pins converge
      ([missing_pins_converge]); a snapshot transfers the ledger
      ([snapshot_transfers_ledger]); a peer is ready only when it is in sync
      ([syncUpPeer_waits]).
    - Connections.  The bootstrap ends within its retries ([bootstrap_ends]) and
      a search of a topic dials exactly the peers that are not connected
      ([discovery_dials_unconnected]); waiting for a connection deadlocks
      exactly from three events on ([waitForConnection_deadlock]).  Both sides of
      a handshake end with the id and the acknowledgement in every interleaving
      ([handshake_agrees]); the handles of a topic are released but for the relay
      ([NewDagSyncSub_handles]) and the counter of its peers is exact
      ([topic_counter_exact]); the table of port mappings is that of the gateways
      in every order of their goroutines ([nat_table_exact]), and a gateway whose
      mappings are kept alive has none of their rules at the end
      ([keep_alive_cleans]); a peer reserves at the first relay that takes it
      ([reservation_first]).
    - Shutdown.  A peer that synchronises from pins can stop unless its publisher
      is blocked, one that does from snapshots cannot ([stop_needs_pin_sync]); closing the channel of
      transactions panics ([closing_transactions_panics]).  The services of the
      hash table always stop ([dht_stops]); the monitor of the event bus may leave
      its stopper blocked ([monitor_stop]); [Terminate] panics exactly when the
      local discovery failed to start ([Terminate_panics_iff]); a host closes
      exactly the services that it started ([host_lifecycle]).
    - Processes.  The tool stops the node that it started and a restart replaces
      it ([start_stop], [restart_replaces]); the file of the process id is exact
      unless a longer one was there ([pid_file_exact]).
    - Services.  Exactly the funded and signed transactions of the network are
      accepted ([SendRawTransaction_admits]); searches find what is stored
      ([SearchTxs_finds]); the Ethereum front end returns what was sent and the
      blocks ([sent_transaction_is_returned], [block_by_number]); a REST request
      is answered unless it panics with a text ([rest_always_answers]), the pages of logs
      are complete ([GetLogs_pages]), the faucet pays a client once a day
      ([faucet_once_a_day]); events reach the subscriptions they match
      ([events_delivered]); a client's payment is published when it is covered
      ([make_payment_publishes]), and the load generator keeps to its limits
      ([generate_queues]), as the trader of the command line does
      ([trader_run]).
    - Start and drawings.  A leader that starts has the initial offering and no
      other wallet has coins ([Init_returns]); the files of a drawing are pages
      that together show the whole dag ([McmcPlusPlus_pages]).
    - Queues.  The lock-free queue refines a first-in first-out queue with
      atomic operations under every interleaving of its callers
      ([lock_free_queue_linearizable]), and a call that runs alone ends
      ([call_alone_ends]); the synchronised queue keeps the order and its tokens
      count the values ([SyncQueue_order_and_tokens]); the priority queue
      refines an abstract one ([publish_queue_priorities]).
    - Records and keys.  Encoding and decoding are inverse where the code means
      them to be, and signatures verify; the key of a peer is stable
      ([peer_key_is_stable]); an activation file activates the leader it was
      made for ([activation_roundtrip]).
    - Theorems of kind error state where the code does less than its
      documentation or its callers expect.

    ** Parameters

    Hashing, ed25519, secp256k1, RLP, base58 and the protobuf wire format
    ([CryptoLib], [HashLib], [EthLib], [ProtoLib], [ProtoPinLib],
    [ProtoGrapeLib], [PeerKeyLib]; marshalling is a function, although the Go
    library may order the entries of the balance map of a pin differently each
    time), timestamps ([TimestampLib]), [math.Exp] and
    the statistics package ([MathLib], no laws), the contract VM ([RunCall],
    [EstimateGas], [RunCode], no laws), the clock, the random draws and whether
    a call of the operating system, a dial or a write to a connection works
    (arguments); identifiers and addresses of libp2p ([PeerLib]).  What other
    goroutines do while one waits is an argument too, and so is the integer that
    the machine makes of an infinity ([requested_tick]).
    [ReverseSlice] sorts with a comparison of positions, whose result the sort
    package does not define; it is an argument that permutes its input.  JSON
    is taken decoded.

    ** Fuel

    A function whose loop need not end takes fuel and returns an [option];
    [walk_fuel] is four steps per link and one more, and
    [weightedRandomWalk_terminates] shows that it suffices; [slice_fuel] is two
    steps per vertex of the dag and three more, and
    [traverseDagSlice_reaches] shows that it suffices; [graph_fuel] counts the
    vertices and edges of the graph, and [GetTipVertices_tips] shows that it
    suffices.  The fuel of [AddTxDag] is used only by the selection algorithm
    that draws until it gets another number; the theorems on [AddTxDag] hold
    for every fuel.  The topological sort needs a depth above the ranks of its
    nodes ([topologicalSort_sorts]) and no depth is enough on a circle
    ([topologicalSort_cycle]).

    ** What is not modelled

    The hash table, the transports and the pub/sub of libp2p, reading and writing of
    streams, data bases, logging, the parsing of flags and of the configuration,
    the wiring of the process and the graph library that draws are input and
    output around the operations above; generated code is
    represented by its records.  In [dag/search.go] and [dag/synchandle.go] the
    traversals and handlers that nothing calls are left out, in [dag/generate.go]
    the generators of test dags.  Locks are left out where an operation holds
    one lock for its whole body; where that is not so ([waitForSM],
    [Pool_RemoveAll], the queues, the statistics, the listeners, the shutdown)
    the steps between are modelled.  [TriggerSubscriptions] takes two locks one
    after the other; it is one step here. *)
From stdpp Require Export base gmap strings list sets fin_maps sorting.
From Stdlib Require Export ZArith Lia.
From Stdlib Require Export HexString.
#[global] Open Scope Z_scope.
#[global] Open Scope list_scope.

(** ** Automation *)

Create HintDb grape.
Create Rewrite HintDb grape.

(** Rewrite with the laws of the library interfaces. *)
Ltac go_laws := autorewrite with grape in *.

(** Case on every [match] and [if] of the goal, keeping the equations. *)
Ltac go_cases := repeat (case_match; simplify_eq/=; try done).

(** ** Results of Go functions

    A function that may panic returns an [outcome]. *)
Inductive outcome (A : Type) :=
| Return (a : A)
| Panic.
Arguments Return {A} _.
Arguments Panic {A}.

Declare Scope go_scope.
Delimit Scope go_scope with go.
#[global] Open Scope go_scope.

Definition outcome_bind {A B} (m : outcome A) (k : A -> outcome B) : outcome B :=
  match m with Return a => k a | Panic => Panic end.

Notation "'let!' x ':=' m 'in' k" := (outcome_bind m (fun x => k))
  (at level 10, x pattern, m at level 100, k at level 200) : go_scope.

(** ** Machine integers *)
Definition wrap (w z : Z) : Z := z mod 2 ^ w.
Definition to_uint8 : Z -> Z := wrap 8.
Definition to_uint32 : Z -> Z := wrap 32.
Definition to_uint64 : Z -> Z := wrap 64.
(** Conversion to a signed integer of width [w]. *)
Definition swrap (w z : Z) : Z := (z + 2 ^ (w - 1)) mod 2 ^ w - 2 ^ (w - 1).
Definition to_int32 : Z -> Z := swrap 32.
Definition to_int64 : Z -> Z := swrap 64.

Lemma wrap_range w z : 0 <= w -> 0 <= wrap w z < 2 ^ w.
Proof. intros. apply Z.mod_pos_bound. apply Z.pow_pos_nonneg; lia. Qed.

Lemma wrap_small w z : 0 <= z < 2 ^ w -> wrap w z = z.
Proof. apply Z.mod_small. Qed.

Lemma swrap_small w z : 0 < w -> - 2 ^ (w - 1) <= z < 2 ^ (w - 1) -> swrap w z = z.
Proof.
  intros Hw Hz. unfold swrap. assert (2 ^ w = 2 * 2 ^ (w - 1)) as Hp.
  { rewrite <- Z.pow_succ_r by lia. f_equal. lia. }
  rewrite Z.mod_small; lia.
Qed.

(** ** Lists *)

(** [append(l[:i], append([x], l[i:]...)...)]: [x] becomes the element at [i]. *)
Definition insert_at {A} (i : nat) (x : A) (l : list A) : list A :=
  take i l ++ x :: drop i l.

Lemma insert_at_length {A} i (x : A) l :
  (i <= length l)%nat -> length (insert_at i x l) = S (length l).
Proof. intros. unfold insert_at. rewrite length_app, length_take; simpl. rewrite length_drop. lia. Qed.

#[export] Instance filterb_perm {A} (f : A -> bool) : Proper (Permutation ==> Permutation) (List.filter f).
Proof.
  intros l l' Hp. induction Hp; simpl; [done| | |by etrans]; repeat case_match; try done; by constructor.
Qed.
