(* ===== verification/GoLib.v ===== *)
(** Interfaces of the libraries the Go sources call and whose code is not part
    of the repository: [goterators] (list combinators), [golang-collections]
    (queue, stack, set), [google/uuid], and the iteration order of a Go map,
    which the language leaves unspecified.  Each interface is a type class whose
    laws are the documented behaviour; every client takes it as an argument.  A
    concrete instance of each class closes the file: it shows that the laws can
    hold and lets the witnesses of the development compute. *)
From S2P Require Import Prelude.

(** ** goterators *)

(** First element of a list that satisfies a test, with its index. *)
Fixpoint find_first {A} (p : A -> bool) (l : list A) : option (A * nat) :=
  match l with
  | [] => None
  | x :: l' =>
      if p x then Some (x, 0%nat)
      else match find_first p l' with
           | Some (y, i) => Some (y, S i)
           | None => None
           end
  end.

Class Goterators := {
  gt_Find : forall {A : Type}, (A -> bool) -> list A -> option (A * nat);
  gt_Filter : forall {A : Type}, (A -> bool) -> list A -> list A;
  gt_Map : forall {A B : Type}, (A -> B) -> list A -> list B;
  gt_ForEach : forall {A St : Type}, (St -> A -> St) -> list A -> St -> St;
  gt_Reduce : forall {A B : Type}, (B -> A -> B) -> list A -> B -> B;
  gt_Find_spec : forall {A} (p : A -> bool) l, gt_Find p l = find_first p l;
  gt_Filter_spec : forall {A} (p : A -> bool) l, gt_Filter p l = List.filter p l;
  gt_Map_spec : forall {A B} (f : A -> B) l, gt_Map f l = map f l;
  gt_ForEach_spec : forall {A St} (f : St -> A -> St) l s,
      gt_ForEach f l s = fold_left f l s;
  gt_Reduce_spec : forall {A B} (f : B -> A -> B) l b,
      gt_Reduce f l b = fold_left f l b
}.

#[export] Hint Rewrite @gt_Find_spec @gt_Filter_spec @gt_Map_spec
  @gt_ForEach_spec @gt_Reduce_spec : grape.

#[export] Instance goterators_lists : Goterators := {
  gt_Find := @find_first;
  gt_Filter := @List.filter;
  gt_Map := @map;
  gt_ForEach A St f l s := fold_left f l s;
  gt_Reduce A B f l b := fold_left f l b;
  gt_Find_spec _ _ _ := eq_refl;
  gt_Filter_spec _ _ _ := eq_refl;
  gt_Map_spec _ _ _ _ := eq_refl;
  gt_ForEach_spec _ _ _ _ _ := eq_refl;
  gt_Reduce_spec _ _ _ _ _ := eq_refl
}.

Lemma find_first_Some {A} (p : A -> bool) l x i :
  find_first p l = Some (x, i) ->
  l !! i = Some x /\ p x = true /\ Forall (fun y => p y = false) (take i l).
Proof.
  revert i; induction l as [|y l IH]; intros i; simpl; [done|].
  destruct (p y) eqn:E.
  - intros [= <- <-]; simpl; auto.
  - destruct (find_first p l) as [[z j]|] eqn:E'; [|done].
    intros [= <- <-]. destruct (IH j eq_refl) as (? & ? & ?). simpl.
    auto.
Qed.

Lemma find_first_None {A} (p : A -> bool) l :
  find_first p l = None <-> Forall (fun y => p y = false) l.
Proof.
  induction l as [|y l IH]; simpl; [by split|].
  destruct (p y) eqn:E.
  - split; [done|]. intros [? _]%Forall_cons_1. congruence.
  - destruct (find_first p l) as [[z j]|].
    + split; [done|]. intros [_ H]%Forall_cons_1. apply IH in H. done.
    + split; [|done]. intros _. constructor; [done|by apply IH].
Qed.

(** ** golang-collections: queue, stack and set *)

Class CollQueue := {
  cq : Type -> Type;
  cq_New : forall {A}, cq A;
  cq_Enqueue : forall {A}, cq A -> A -> cq A;
  cq_Dequeue : forall {A}, cq A -> option A * cq A;
  cq_Len : forall {A}, cq A -> Z;
  cq_elems : forall {A}, cq A -> list A;
  cq_New_spec : forall {A}, cq_elems (@cq_New A) = [];
  cq_Enqueue_spec : forall {A} (q : cq A) x, cq_elems (cq_Enqueue q x) = cq_elems q ++ [x];
  cq_Dequeue_fst : forall {A} (q : cq A), fst (cq_Dequeue q) = head (cq_elems q);
  cq_Dequeue_snd : forall {A} (q : cq A), cq_elems (snd (cq_Dequeue q)) = tail (cq_elems q);
  cq_Len_spec : forall {A} (q : cq A), cq_Len q = Z.of_nat (length (cq_elems q))
}.

#[export] Hint Rewrite @cq_New_spec @cq_Enqueue_spec @cq_Dequeue_fst
  @cq_Dequeue_snd @cq_Len_spec : grape.

#[export] Instance coll_queue_list : CollQueue := {
  cq A := list A;
  cq_New A := [];
  cq_Enqueue A q x := q ++ [x];
  cq_Dequeue A q := (head q, tail q);
  cq_Len A q := Z.of_nat (length q);
  cq_elems A q := q;
  cq_New_spec _ := eq_refl;
  cq_Enqueue_spec _ _ _ := eq_refl;
  cq_Dequeue_fst _ _ := eq_refl;
  cq_Dequeue_snd _ _ := eq_refl;
  cq_Len_spec _ _ := eq_refl
}.

(** A stack is presented by the list of its elements, top first. *)
Class CollStack := {
  cst : Type -> Type;
  cst_New : forall {A}, cst A;
  cst_Push : forall {A}, cst A -> A -> cst A;
  cst_Pop : forall {A}, cst A -> option A * cst A;
  cst_Peek : forall {A}, cst A -> option A;
  cst_Len : forall {A}, cst A -> Z;
  cst_elems : forall {A}, cst A -> list A;
  cst_New_spec : forall {A}, cst_elems (@cst_New A) = [];
  cst_Push_spec : forall {A} (s : cst A) x, cst_elems (cst_Push s x) = x :: cst_elems s;
  cst_Pop_fst : forall {A} (s : cst A), fst (cst_Pop s) = head (cst_elems s);
  cst_Pop_snd : forall {A} (s : cst A), cst_elems (snd (cst_Pop s)) = tail (cst_elems s);
  cst_Peek_spec : forall {A} (s : cst A), cst_Peek s = head (cst_elems s);
  cst_Len_spec : forall {A} (s : cst A), cst_Len s = Z.of_nat (length (cst_elems s))
}.

#[export] Hint Rewrite @cst_New_spec @cst_Push_spec @cst_Pop_fst @cst_Pop_snd
  @cst_Peek_spec @cst_Len_spec : grape.

#[export] Instance coll_stack_list : CollStack := {
  cst A := list A;
  cst_New A := [];
  cst_Push A s x := x :: s;
  cst_Pop A s := (head s, tail s);
  cst_Peek A s := head s;
  cst_Len A s := Z.of_nat (length s);
  cst_elems A s := s;
  cst_New_spec _ := eq_refl;
  cst_Push_spec _ _ _ := eq_refl;
  cst_Pop_fst _ _ := eq_refl;
  cst_Pop_snd _ _ := eq_refl;
  cst_Peek_spec _ _ := eq_refl;
  cst_Len_spec _ _ := eq_refl
}.

(** A set of keys; [cls_list] is the order in which [Do] visits it. *)
Class CollSet (K : Type) `{Countable K} := {
  cls : Type;
  cls_New : cls;
  cls_Insert : cls -> K -> cls;
  cls_Has : cls -> K -> bool;
  cls_list : cls -> list K;
  cls_elems : cls -> gset K;
  cls_New_spec : cls_elems cls_New = ∅;
  cls_Insert_spec : forall s x, cls_elems (cls_Insert s x) = {[x]} ∪ cls_elems s;
  cls_Has_spec : forall s x, cls_Has s x = bool_decide (x ∈ cls_elems s);
  cls_list_spec : forall s, cls_list s ≡ₚ elements (cls_elems s)
}.

#[export] Hint Rewrite @cls_New_spec @cls_Insert_spec @cls_Has_spec : grape.

#[export] Instance coll_set_gset K `{Countable K} : CollSet K := {
  cls := gset K;
  cls_New := ∅;
  cls_Insert s x := {[x]} ∪ s;
  cls_Has s x := bool_decide (x ∈ s);
  cls_list s := elements s;
  cls_elems s := s;
  cls_New_spec := eq_refl;
  cls_Insert_spec _ _ := eq_refl;
  cls_Has_spec _ _ := eq_refl;
  cls_list_spec _ := Permutation_refl _
}.

(** ** Iteration over a Go map

    [for k, v := range m] visits every entry once, in an order the language
    does not specify. *)
Class MapRange := {
  map_range : forall {K V : Type} `{Countable K}, gmap K V -> list (K * V);
  map_range_perm : forall {K V : Type} `{Countable K} (m : gmap K V),
      map_range m ≡ₚ map_to_list m
}.

#[export] Instance map_range_list : MapRange := {
  map_range K V _ _ m := map_to_list m;
  map_range_perm K V _ _ m := Permutation_refl _
}.

Lemma elem_of_map_range `{MapRange} {K V} `{Countable K} (m : gmap K V) k v :
  (k, v) ∈ map_range m <-> m !! k = Some v.
Proof. rewrite map_range_perm. apply elem_of_map_to_list. Qed.

Lemma map_range_NoDup `{MapRange} {K V} `{Countable K} (m : gmap K V) :
  NoDup (map_range m).*1.
Proof. rewrite map_range_perm. apply NoDup_fst_map_to_list. Qed.

(** ** google/uuid

    A [uuid.UUID] is an array of 16 bytes, read here as a number below
    [2 ^ 128]; [uuid.Nil] is zero.  [String] prints it and [Parse] reads the
    print back. *)
Abbreviation uuid := N (only parsing).
Definition uuid_Nil : uuid := 0%N.

Class UuidLib := {
  uuid_String : uuid -> string;
  uuid_Parse : string -> option uuid;
  uuid_Parse_String : forall id, uuid_Parse (uuid_String id) = Some id
}.

Lemma uuid_String_inj `{UuidLib} (a b : uuid) : uuid_String a = uuid_String b -> a = b.
Proof.
  intros E. enough (Some a = Some b) as [= ->] by done.
  by rewrite <- (uuid_Parse_String a), <- (uuid_Parse_String b), E.
Qed.

#[export] Instance uuid_lib_hex : UuidLib := {
  uuid_String n := HexString.of_N n;
  uuid_Parse s := Some (HexString.to_N s);
  uuid_Parse_String n := f_equal Some (HexString.to_N_of_N n)
}.
