(* ===== verification/Dfs.v ===== *)
(** Depth-first search with a visited set and a shared stack: what the
    traversals of [dag/traverse.go] and [graph/dgraph.go] have in common.

    A search goes from a visited set [V] and a stack [W] to a visited set [V'];
    it follows [edges] through the vertices that are [open].  Every popped
    vertex is skipped ([visits_skip]) or visited ([visits_open]). *)
From S2P Require Import Prelude GoLib.

(** ** Fuel

    One unit per stacked vertex, and for every vertex not yet visited one and
    one per edge. *)

Section Fuel.
Context {K : Type} `{Countable K}.
Variable edges : K -> list K.

Definition unvisited (V : gset K) (ks : list K) : nat :=
  sum_list_with (fun k => if bool_decide (k ∈ V) then 0%nat else S (length (edges k))) ks.

Lemma unvisited_mono V V' ks : V ⊆ V' -> (unvisited V' ks <= unvisited V ks)%nat.
Proof.
  intros HV. unfold unvisited. induction ks as [|k ks IH]; simpl; [lia|].
  repeat case_bool_decide; set_solver by lia || lia.
Qed.

Lemma unvisited_step V ks x :
  x ∈ ks -> x ∉ V ->
  (unvisited ({[x]} ∪ V) ks + S (length (edges x)) <= unvisited V ks)%nat.
Proof.
  intros Hx HV. apply list_elem_of_split in Hx as (l1 & l2 & ->).
  assert (forall l, unvisited ({[x]} ∪ V) l <= unvisited V l)%nat as Hle
    by (intros; apply unvisited_mono; set_solver).
  pose proof (Hle l1). pose proof (Hle l2). unfold unvisited in *.
  rewrite !sum_list_with_app. cbn [sum_list_with].
  rewrite (bool_decide_true (x ∈ {[x]} ∪ V)), (bool_decide_false (x ∈ V)) by set_solver. lia.
Qed.

Lemma edges_bound ks x : x ∈ ks -> (length (edges x) <= unvisited ∅ ks)%nat.
Proof.
  intros Hx. pose proof (unvisited_step ∅ ks x Hx ltac:(set_solver)). lia.
Qed.

End Fuel.

Section Dfs.
Context {K : Type} `{Countable K}.
Variable edges : K -> list K.
Variable open : K -> Prop.

Inductive leads (roots : list K) : K -> Prop :=
| leads_root x : x ∈ roots -> leads roots x
| leads_edge x y : leads roots x -> open x -> y ∈ edges x -> open y -> leads roots y.

(** ** What a search computes *)

(** Every open successor of an open vertex of [V] is in [V] or in [W]. *)
Definition closed_upto (V : gset K) (W : list K) : Prop :=
  forall x y, x ∈ V -> open x -> y ∈ edges x -> open y -> y ∈ V \/ y ∈ W.

(** A property of vertices that follows the edges. *)
Definition follows (P : K -> Prop) : Prop :=
  forall x y, P x -> open x -> y ∈ edges x -> open y -> P y.

(** From the visited set [V] and the stack [W] to the visited set [V']. *)
Record visits (V : gset K) (W : list K) (V' : gset K) : Prop := {
  visits_keep : V ⊆ V';
  visits_stack : forall w, w ∈ W -> open w -> w ∈ V';
  visits_closed : closed_upto V W -> closed_upto V' [];
  visits_only : forall P, follows P -> (forall x, x ∈ V -> P x) -> (forall w, w ∈ W -> open w -> P w) ->
                forall x, x ∈ V' -> P x
}.

Lemma visits_skip V W V' x : (open x -> x ∈ V) -> visits V W V' -> visits V (x :: W) V'.
Proof.
  intros Hx [K1 S C O]. split; [done| | |].
  - intros w [->|Hw]%elem_of_cons Hop; [by apply K1, Hx|by apply S].
  - intros HC. apply C. intros a b Ha Hoa Hb Hob. destruct (HC a b Ha Hoa Hb Hob) as [|[->|]%elem_of_cons];
      [by left|left; by apply Hx|by right].
  - intros P HP HV HW. apply O; [done|done|]. intros w Hw. apply HW. by right.
Qed.

(** Visiting an open vertex: its edges go onto the stack. *)
Lemma visits_open V W V' x :
  open x -> visits ({[x]} ∪ V) (rev (edges x) ++ W) V' -> visits V (x :: W) V'.
Proof.
  intros Hx [K1 S C O].
  assert (forall y, y ∈ rev (edges x) <-> y ∈ edges x) as Hrev.
  { intros y. by rewrite !list_elem_of_In, <- in_rev. }
  split; [set_solver| | |].
  - intros w [->|Hw]%elem_of_cons Hop; [set_solver|]. apply S; [|done]. apply elem_of_app. by right.
  - intros HC. apply C. intros a b [->%elem_of_singleton|Ha]%elem_of_union Hoa Hb Hob.
    + right. apply elem_of_app. left. by apply Hrev.
    + destruct (HC a b Ha Hoa Hb Hob) as [|[->|]%elem_of_cons]; [set_solver|set_solver|].
      right. apply elem_of_app. by right.
  - intros P HP HV HW. assert (P x) as HPx by (apply HW; [left|done]). apply O; [done| |].
    + intros y [->%elem_of_singleton|Hy]%elem_of_union; [done|by apply HV].
    + intros w [Hw%Hrev|Hw]%elem_of_app Hop; [by apply (HP x w)|apply HW; [by right|done]].
Qed.

Lemma visits_trans V W V1 V2 : visits V W V1 -> visits V1 [] V2 -> visits V W V2.
Proof.
  intros [K1 S C O] [K2 S2 C2 O2]. split; [set_solver| | |].
  - intros w Hw Hop. by apply K2, S.
  - intros HC. by apply C2, C.
  - intros P HP HV HW. apply O2; [done|by apply O|]. intros w ?%not_elem_of_nil. done.
Qed.

Lemma visits_done V : visits V [] V.
Proof.
  split; [done| |done|intros P _ HV _; exact HV]. intros w ?%not_elem_of_nil. done.
Qed.

(** A search that starts with nothing visited finds the reachable vertices. *)
Lemma visits_leads roots V :
  Forall open roots -> visits ∅ roots V -> forall x, x ∈ V <-> leads roots x.
Proof.
  intros Hr [_ R C O] x. rewrite Forall_forall in Hr. split.
  - apply (O (leads roots)); [|set_solver|by intros; apply leads_root].
    intros a b Ha Hoa Hb Hob. by apply (leads_edge roots a b).
  - induction 1 as [x Hx|x y _ IH Hox Hy Hoy]; [apply R; [done|]; by apply Hr|].
    destruct (C ltac:(intros ? ? Ha; set_solver) x y IH Hox Hy Hoy) as [|?%not_elem_of_nil]; done.
Qed.
End Dfs.

(** Pushing the edges of a vertex. *)
Section Push.
Context {K : Type} `{Goterators} `{CollStack}.

Definition push_all (ws : cst K) (ids : list K) : cst K :=
  gt_ForEach (fun ws id => cst_Push ws id) ids ws.

Lemma push_all_elems ws ids : cst_elems (push_all ws ids) = rev ids ++ cst_elems ws.
Proof.
  unfold push_all. rewrite gt_ForEach_spec. revert ws.
  induction ids as [|i ids IH]; intros ws; simpl; [done|]. by rewrite IH, cst_Push_spec, <- app_assoc.
Qed.

(** The loop test and the pop on a stack with a first element. *)
Lemma stack_empty (ws : cst K) : cst_elems ws = [] -> (0 <? cst_Len ws) = false.
Proof. intros E. by rewrite cst_Len_spec, E. Qed.

Lemma stack_pop (ws : cst K) x W :
  cst_elems ws = x :: W ->
  (0 <? cst_Len ws) = true /\ exists ws1, cst_Pop ws = (Some x, ws1) /\ cst_elems ws1 = W.
Proof.
  intros E. split; [rewrite cst_Len_spec, E; apply Z.ltb_lt; simpl; lia|].
  destruct (cst_Pop ws) as [o ws1] eqn:Ep. exists ws1.
  pose proof (cst_Pop_fst ws) as H1. pose proof (cst_Pop_snd ws) as H2. rewrite Ep, E in H1, H2.
  simpl in H1, H2. by subst.
Qed.
End Push.
