(* ===== verification/Bytes.v ===== *)
(** Byte strings and their texts: Go's [encoding/hex], [strings.TrimPrefix],
    the big-endian bytes of a [big.Int], and the address helpers of
    [crypto/wallet.go], [types/hex.go] and [crypto/eth/address.go].

    A [[]byte] is a list of bytes and a Go string a [string]; a [big.Int] is a
    [Z].  A helper that panics returns an [outcome]. *)
From Stdlib Require Export Strings.Ascii Strings.Byte.
From S2P Require Import Prelude GoLib.

Abbreviation bytes := (list byte).

#[export] Instance byte_eq_dec : EqDecision byte := Byte.byte_eq_dec.
#[export] Program Instance byte_countable : Countable byte :=
  inj_countable Byte.to_N Byte.of_N _.
Next Obligation. apply Byte.of_to_N. Qed.

Definition byte_of_N (n : N) : byte := default x00 (Byte.of_N n).
Definition byte_to_Z (b : byte) : Z := Z.of_N (Byte.to_N b).
Definition byte_of_Z (z : Z) : byte := byte_of_N (Z.to_N (z mod 256)).

Lemma byte_to_Z_range b : 0 <= byte_to_Z b < 256.
Proof. unfold byte_to_Z. pose proof (Byte.to_N_bounded b). lia. Qed.

Lemma byte_of_to_N b : byte_of_N (Byte.to_N b) = b.
Proof. unfold byte_of_N. by rewrite Byte.of_to_N. Qed.

Lemma byte_of_to_Z b : byte_of_Z (byte_to_Z b) = b.
Proof.
  unfold byte_of_Z. rewrite Z.mod_small by apply byte_to_Z_range.
  unfold byte_to_Z. rewrite N2Z.id. apply byte_of_to_N.
Qed.

Lemma byte_to_of_Z z : byte_to_Z (byte_of_Z z) = z mod 256.
Proof.
  unfold byte_of_Z, byte_to_Z, byte_of_N.
  pose proof (Z.mod_pos_bound z 256 ltac:(lia)).
  destruct (Byte.of_N (Z.to_N (z mod 256))) as [b|] eqn:E; simpl.
  - apply Byte.to_of_N in E. rewrite E. lia.
  - apply Byte.of_N_None_iff in E. lia.
Qed.

(** ** encoding/hex *)

Definition hex_digit (n : N) : ascii :=
  Ascii.ascii_of_N (if (n <? 10)%N then n + 48 else n + 87).

(** Value of a hex digit of either case. *)
Definition hex_val (c : ascii) : option N :=
  let n := Ascii.N_of_ascii c in
  if ((48 <=? n) && (n <=? 57))%N then Some (n - 48)%N
  else if ((97 <=? n) && (n <=? 102))%N then Some (n - 87)%N
  else if ((65 <=? n) && (n <=? 70))%N then Some (n - 55)%N
  else None.

Fixpoint hex_EncodeToString (b : bytes) : string :=
  match b with
  | [] => EmptyString
  | x :: b' =>
      let n := Byte.to_N x in
      String (hex_digit (n / 16)) (String (hex_digit (n mod 16)) (hex_EncodeToString b'))
  end.

(** [hex.DecodeString]: the bytes decoded before the first error, and whether
    there was none. *)
Fixpoint hex_DecodeString (s : string) : bytes * bool :=
  match s with
  | EmptyString => ([], true)
  | String _ EmptyString => ([], false)
  | String p (String q s') =>
      match hex_val p, hex_val q with
      | Some a, Some b =>
          let '(r, ok) := hex_DecodeString s' in
          (byte_of_N (16 * a + b) :: r, ok)
      | _, _ => ([], false)
      end
  end.

(** A table of the sixteen digits is checked by evaluation. *)
Lemma digits_checked (P : N -> bool) n :
  forallb P (map N.of_nat (seq 0 16)) = true -> (n < 16)%N -> P n = true.
Proof.
  rewrite forallb_forall. intros Hall Hn. apply Hall, in_map_iff. exists (N.to_nat n).
  rewrite N2Nat.id. split; [done|]. apply in_seq. lia.
Qed.

Lemma hex_val_digit n : (n < 16)%N -> hex_val (hex_digit n) = Some n.
Proof.
  intros Hn. eapply bool_decide_eq_true_1.
  apply (digits_checked (fun k => bool_decide (hex_val (hex_digit k) = Some k)) n); [|done].
  vm_compute. reflexivity.
Qed.

(** What [hex.EncodeToString] prints, [hex.DecodeString] reads back. *)
Lemma hex_Decode_Encode b : hex_DecodeString (hex_EncodeToString b) = (b, true).
Proof.
  induction b as [|x b IH]; [done|]. cbn [hex_EncodeToString hex_DecodeString].
  pose proof (Byte.to_N_bounded x).
  rewrite !hex_val_digit; [|apply N.mod_lt; lia|apply N.Div0.div_lt_upper_bound; lia].
  rewrite IH. do 2 f_equal. rewrite <- N.Div0.div_mod. apply byte_of_to_N.
Qed.

Lemma hex_EncodeToString_inj a b : hex_EncodeToString a = hex_EncodeToString b -> a = b.
Proof.
  intros E. enough ((a, true) = (b, true)) as [= ->] by done.
  by rewrite <- !hex_Decode_Encode, E.
Qed.

Lemma hex_EncodeToString_length b :
  String.length (hex_EncodeToString b) = (2 * length b)%nat.
Proof. induction b; simpl in *; lia. Qed.

#[export] Hint Rewrite hex_Decode_Encode hex_EncodeToString_length : grape.

(** ** strings.TrimPrefix *)

Definition HasPrefix (s pre : string) : bool := String.prefix pre s.

Definition TrimPrefix (s pre : string) : string :=
  if HasPrefix s pre
  then String.substring (String.length pre) (String.length s - String.length pre) s
  else s.

Lemma substring_0_length s : String.substring 0 (String.length s) s = s.
Proof. induction s; simpl; by f_equal. Qed.

Lemma TrimPrefix_0x s : TrimPrefix ("0x" ++ s) "0x" = s.
Proof.
  unfold TrimPrefix, HasPrefix. cbv [String.append]. simpl.
  destruct s; rewrite ?Nat.sub_0_r; simpl; [done|]. by rewrite substring_0_length.
Qed.

#[export] Hint Rewrite TrimPrefix_0x : grape.

(** ** big.Int as bytes *)

Fixpoint SetBytes_acc (acc : Z) (b : bytes) : Z :=
  match b with
  | [] => acc
  | x :: b' => SetBytes_acc (acc * 256 + byte_to_Z x) b'
  end.

(** [big.NewInt(0).SetBytes(b)]: [b] read as a big-endian number. *)
Definition SetBytes (b : bytes) : Z := SetBytes_acc 0 b.

(** Little-endian digits in base 256; [fuel] bounds their number. *)
Fixpoint le_bytes (fuel : nat) (z : Z) : bytes :=
  match fuel with
  | O => []
  | S fuel' => if z =? 0 then [] else byte_of_Z z :: le_bytes fuel' (z / 256)
  end.

(** [z.Bytes()]: the absolute value, big-endian, without leading zeros. *)
Definition Bytes (z : Z) : bytes :=
  rev (le_bytes (Z.to_nat (Z.log2 (Z.abs z) + 1)) (Z.abs z)).

Lemma SetBytes_acc_app a b acc :
  SetBytes_acc acc (a ++ b) = SetBytes_acc (SetBytes_acc acc a) b.
Proof. revert acc; induction a; intros; simpl; auto. Qed.

Lemma SetBytes_snoc b x : SetBytes (b ++ [x]) = SetBytes b * 256 + byte_to_Z x.
Proof. unfold SetBytes. by rewrite SetBytes_acc_app. Qed.

Lemma SetBytes_nonneg b : 0 <= SetBytes b.
Proof.
  induction b as [|x b IH] using rev_ind; [done|].
  rewrite SetBytes_snoc. pose proof (byte_to_Z_range x). lia.
Qed.

Lemma SetBytes_le_bytes fuel z :
  0 <= z < 2 ^ Z.of_nat fuel -> SetBytes (rev (le_bytes fuel z)) = z.
Proof.
  revert z; induction fuel as [|fuel IH]; intros z Hz; simpl le_bytes.
  - simpl in Hz. assert (z = 0) as -> by lia. done.
  - destruct (Z.eqb_spec z 0) as [->|Hne]; [done|]. simpl rev.
    rewrite SetBytes_snoc, IH, byte_to_of_Z.
    + pose proof (Z_div_mod_eq_full z 256). lia.
    + rewrite Nat2Z.inj_succ, Z.pow_succ_r in Hz by lia.
      split; [apply Z.div_pos; lia|]. apply Z.div_lt_upper_bound; lia.
Qed.

(** Reading the bytes of a number back gives its absolute value. *)
Lemma SetBytes_Bytes z : SetBytes (Bytes z) = Z.abs z.
Proof.
  unfold Bytes. apply SetBytes_le_bytes. split; [lia|].
  destruct (decide (z = 0)) as [->|]; [done|].
  pose proof (Z.log2_nonneg (Z.abs z)). rewrite Z2Nat.id by lia.
  apply Z.log2_spec. lia.
Qed.

#[export] Hint Rewrite SetBytes_Bytes : grape.

Lemma Bytes_inj_nonneg a b : 0 <= a -> 0 <= b -> Bytes a = Bytes b -> a = b.
Proof.
  intros Ha Hb E. rewrite <- (Z.abs_eq a Ha), <- (Z.abs_eq b Hb).
  by rewrite <- !SetBytes_Bytes, E.
Qed.

Lemma SetBytes_zeros n b : SetBytes (replicate n x00 ++ b) = SetBytes b.
Proof.
  unfold SetBytes. rewrite SetBytes_acc_app. f_equal.
  induction n as [|n IH]; [done|]. simpl. exact IH.
Qed.

(** ** crypto/wallet.go: addresses *)

Definition AddressToBytes (address : string) : outcome bytes :=
  let address := TrimPrefix address "0x" in
  if (String.length address =? 0)%nat then Return (replicate 20 x00)
  else match hex_DecodeString address with
       | (b, true) => Return b
       | (_, false) => Panic
       end.

Definition HexToBytes (h : string) : outcome bytes :=
  let th := TrimPrefix h "0x" in
  if (String.length th =? 0)%nat then Return []
  else
    let th := if negb (String.length th mod 2 =? 0)%nat then ("0" ++ th)%string else th in
    match hex_DecodeString th with
    | (b, true) => Return b
    | (_, false) => Panic
    end.

(** A nil slice is [None]. *)
Definition HexToBytesNil (h : string) : outcome (option bytes) :=
  let th := TrimPrefix h "0x" in
  if (String.length th =? 0)%nat then Return None
  else
    let th := if negb (String.length th mod 2 =? 0)%nat then ("0" ++ th)%string else th in
    match hex_DecodeString th with
    | (b, true) => Return (Some b)
    | (_, false) => Panic
    end.

Definition BytesToAddress (address : bytes) : outcome string :=
  if negb (length address =? 20)%nat then Panic
  else Return ("0x" ++ hex_EncodeToString address)%string.

Definition ZeroBytesToAddress (address : bytes) : outcome string :=
  if (length address =? 0)%nat then Return "0x"%string else BytesToAddress address.

Definition ZeroHex (n : nat) : string :=
  Nat.iter n (fun res => (res ++ "00")%string) "0x"%string.

Definition LeftPadTo (n : Z) (arr : bytes) : bytes :=
  if n <=? Z.of_nat (length arr) then arr
  else replicate (Z.to_nat (n - Z.of_nat (length arr))) x00 ++ arr.

(** ** types/hex.go *)

(** A [Hex] value is a slice that may be nil. *)
Definition Hex_String (h : option bytes) : string :=
  match h with
  | None => "0x"%string
  | Some b => ("0x" ++ hex_EncodeToString b)%string
  end.

Definition Hex_Cmp (h another : option bytes) : comparison :=
  String.compare (Hex_String h) (Hex_String another).

Definition Hex_Equal (h another : option bytes) : bool :=
  match Hex_Cmp h another with Eq => true | _ => false end.

Definition Hex_Empty (h : option bytes) : bool := (length (default [] h) =? 0)%nat.

Definition DecodeHexString (hexString : string) : bytes * bool :=
  hex_DecodeString (TrimPrefix hexString "0x").

(** ** crypto/eth/address.go *)

Definition EthAddress_Hex (a : bytes) : string := ("0x" ++ hex_EncodeToString a)%string.

Inductive EthAddressError := ErrHexDecode | ErrAddressLength (got : nat).

Definition ParseEthAddress (addressString : string) : bytes + EthAddressError :=
  match hex_DecodeString (TrimPrefix addressString "0x") with
  | (_, false) => inr ErrHexDecode
  | (b, true) =>
      if negb (length b =? 20)%nat then inr (ErrAddressLength (length b)) else inl b
  end.

(** The loop of [leftPad32]: [res[i] = bytes[j]; i++]. *)
Fixpoint leftPad32_loop (res : bytes) (i : nat) (b : bytes) : bytes :=
  match b with
  | [] => res
  | x :: b' => leftPad32_loop (<[i := x]> res) (S i) b'
  end.

Definition leftPad32 (b : bytes) : option bytes :=
  if (32 <? length b)%nat then None
  else Some (leftPad32_loop (replicate 32 x00) (32 - length b) b).

(** ** The 16 bytes of a uuid

    [id[:]] and [MarshalBinary]; [uuid.FromBytes] accepts 16 bytes only.  A
    number that is not below [2 ^ 128] is no uuid; the map is injective all the
    same. *)
Definition uuid_ok (id : uuid) : Prop := (id < 2 ^ 128)%N.

Definition uuid_bytes (id : uuid) : bytes := LeftPadTo 16 (Bytes (Z.of_N id)).

Definition uuid_FromBytes (b : bytes) : option uuid :=
  if (length b =? 16)%nat then Some (Z.to_N (SetBytes b)) else None.

(** ** Properties *)

Lemma SetBytes_LeftPadTo n b : SetBytes (LeftPadTo n b) = SetBytes b.
Proof. unfold LeftPadTo. destruct (_ <=? _); [done|]. apply SetBytes_zeros. Qed.

#[export] Hint Rewrite SetBytes_LeftPadTo : grape.

Lemma SetBytes_uuid_bytes id : SetBytes (uuid_bytes id) = Z.of_N id.
Proof. unfold uuid_bytes. go_laws. lia. Qed.

Lemma uuid_bytes_inj a b : uuid_bytes a = uuid_bytes b -> a = b.
Proof. intros E. apply N2Z.inj. by rewrite <- !SetBytes_uuid_bytes, E. Qed.

Lemma le_bytes_length fuel z n : 0 <= z < 256 ^ Z.of_nat n -> (length (le_bytes fuel z) <= n)%nat.
Proof.
  revert z n; induction fuel as [|fuel IH]; intros z n Hz; simpl; [lia|].
  destruct (Z.eqb_spec z 0) as [->|Hne]; simpl; [lia|].
  destruct n as [|n]; [simpl in Hz; lia|]. apply le_n_S, IH.
  rewrite Nat2Z.inj_succ, Z.pow_succ_r in Hz by lia.
  split; [apply Z.div_pos; lia|apply Z.div_lt_upper_bound; lia].
Qed.

Lemma Bytes_length z n : Z.abs z < 256 ^ Z.of_nat n -> (length (Bytes z) <= n)%nat.
Proof. intros. unfold Bytes. rewrite length_rev. apply le_bytes_length. lia. Qed.

Lemma LeftPadTo_length n arr :
  length (LeftPadTo n arr) = Nat.max (Z.to_nat n) (length arr).
Proof.
  unfold LeftPadTo. destruct (Z.leb_spec n (Z.of_nat (length arr))); [lia|].
  rewrite length_app, length_replicate. lia.
Qed.

(** A number of at most [n] bytes is padded to exactly [n]. *)
Lemma LeftPadTo_Bytes_length (n : nat) z :
  Z.abs z < 256 ^ Z.of_nat n -> length (LeftPadTo (Z.of_nat n) (Bytes z)) = n.
Proof. intros Hz%Bytes_length. rewrite LeftPadTo_length. lia. Qed.

Lemma uuid_FromBytes_bytes id : uuid_ok id -> uuid_FromBytes (uuid_bytes id) = Some id.
Proof.
  intros Hok. unfold uuid_ok in Hok. unfold uuid_FromBytes.
  assert (length (uuid_bytes id) = 16%nat) as ->.
  { apply (LeftPadTo_Bytes_length 16). change (256 ^ Z.of_nat 16) with (2 ^ 128). lia. }
  simpl. rewrite SetBytes_uuid_bytes. f_equal. lia.
Qed.

Lemma leftPad32_loop_app b : forall pre suf,
  length suf = length b -> leftPad32_loop (pre ++ suf) (length pre) b = pre ++ b.
Proof.
  induction b as [|x b IH]; intros pre suf Hl; simpl.
  - destruct suf; done.
  - destruct suf as [|y suf]; [done|]. injection Hl as Hl.
    rewrite insert_app_r_alt, Nat.sub_diag by lia. simpl.
    specialize (IH (pre ++ [x]) suf Hl).
    rewrite length_app in IH. simpl in IH. rewrite Nat.add_1_r, <- !app_assoc in IH.
    exact IH.
Qed.

Lemma leftPad32_LeftPadTo b :
  (length b <= 32)%nat -> leftPad32 b = Some (LeftPadTo 32 b).
Proof.
  intros Hl. unfold leftPad32, LeftPadTo.
  destruct (Nat.ltb_spec 32 (length b)); [lia|]. f_equal.
  replace 32%nat with ((32 - length b) + length b)%nat at 1 by lia.
  rewrite replicate_add.
  rewrite <- (length_replicate (32 - length b) x00) at 2.
  rewrite leftPad32_loop_app by apply length_replicate.
  destruct (Z.leb_spec 32 (Z.of_nat (length b))).
  - replace (32 - length b)%nat with 0%nat by lia. done.
  - do 2 f_equal. lia.
Qed.

Lemma BytesToAddress_Return a s :
  BytesToAddress a = Return s -> length a = 20%nat /\ s = ("0x" ++ hex_EncodeToString a)%string.
Proof.
  unfold BytesToAddress. destruct (Nat.eqb_spec (length a) 20); simpl; [|done].
  by intros [= <-].
Qed.

Lemma BytesToAddress_20 a :
  length a = 20%nat -> BytesToAddress a = Return ("0x" ++ hex_EncodeToString a)%string.
Proof. intros E. unfold BytesToAddress. by rewrite E. Qed.

Lemma string_app_inj_l (p a b : string) : (p ++ a)%string = (p ++ b)%string -> a = b.
Proof. induction p; simpl; [done|]. intros [=]. auto. Qed.

Lemma BytesToAddress_inj a b s :
  BytesToAddress a = Return s -> BytesToAddress b = Return s -> a = b.
Proof.
  intros [_ ->]%BytesToAddress_Return [_ E]%BytesToAddress_Return.
  apply string_app_inj_l in E. by apply hex_EncodeToString_inj.
Qed.

Lemma AddressToBytes_BytesToAddress a s :
  BytesToAddress a = Return s -> AddressToBytes s = Return a.
Proof.
  intros [Hl ->]%BytesToAddress_Return. unfold AddressToBytes.
  rewrite TrimPrefix_0x, hex_EncodeToString_length, Hl. simpl Nat.eqb. cbv iota.
  by rewrite hex_Decode_Encode.
Qed.

Lemma ParseEthAddress_Hex a :
  ParseEthAddress (EthAddress_Hex a)
  = if (length a =? 20)%nat then inl a else inr (ErrAddressLength (length a)).
Proof.
  unfold ParseEthAddress, EthAddress_Hex. rewrite TrimPrefix_0x, hex_Decode_Encode.
  by destruct (length a =? 20)%nat.
Qed.

(** Wallet addresses round trip: for the 20 bytes of an address,
    [BytesToAddress] returns a text that [AddressToBytes] and
    [ParseEthAddress] read back to the same bytes; on any other length it
    panics. *)
Theorem address_roundtrip (a : bytes) :
  (length a = 20%nat ->
     exists s, BytesToAddress a = Return s /\ AddressToBytes s = Return a
               /\ ParseEthAddress s = inl a)
  /\ (length a <> 20%nat -> BytesToAddress a = Panic).
Proof.
  split; intros Hl.
  - eexists. split; [by apply BytesToAddress_20|]. split.
    + by apply AddressToBytes_BytesToAddress, BytesToAddress_20.
    + change ("0x" ++ hex_EncodeToString a)%string with (EthAddress_Hex a).
      by rewrite ParseEthAddress_Hex, Hl.
  - unfold BytesToAddress. by apply Nat.eqb_neq in Hl as ->.
Qed.

(** Padding keeps the number: [LeftPadTo n] gives a slice of at least [n]
    bytes that [SetBytes] reads as before, and the loop of [leftPad32] is
    [LeftPadTo 32] on slices of at most 32 bytes and an error on longer ones. *)
Theorem padding_keeps_value (n : Z) (b : bytes) :
  SetBytes (LeftPadTo n b) = SetBytes b
  /\ length (LeftPadTo n b) = Nat.max (Z.to_nat n) (length b)
  /\ leftPad32 b = (if decide (length b <= 32)%nat then Some (LeftPadTo 32 b) else None).
Proof.
  split_and!.
  - apply SetBytes_LeftPadTo.
  - apply LeftPadTo_length.
  - case_decide as Hl; [by apply leftPad32_LeftPadTo|].
    unfold leftPad32. destruct (Nat.ltb_spec 32 (length b)); [done|lia].
Qed.
