(* ===== verification/StateMachine.v ===== *)
(** The synchronisation state machines: [statemachine/states.go],
    [statemachine/statemachine.go] and their registry [dag/syncstates.go].

    A [StateChanges] value is a map of maps; a [StateMachine] checks every
    change against it.  The registry [SyncSM] keeps one machine per tracking id
    behind a mutex; its operations are modelled on the protected map, and the
    one operation that sleeps with the mutex held, [waitForSM], by a step
    relation in which other goroutines run between its two halves. *)
From S2P Require Import Prelude GoLib.

(** ** states.go *)

Inductive State :=
| SYNC_ZERO_STATE
| SYNC_DISPATCH_BEGIN
| SYNC_DISPATCH_END
| SYNC_QUERY_BEGIN
| SYNC_QUERY_END
| SYNC_HANDLE_BEGIN
| SYNC_HANDLE_END
| SYNC_CANCEL_STATE.

#[export] Instance State_eq_dec : EqDecision State.
Proof. solve_decision. Defined.

Definition State_to_nat (s : State) : nat :=
  match s with
  | SYNC_ZERO_STATE => 0 | SYNC_DISPATCH_BEGIN => 1 | SYNC_DISPATCH_END => 2
  | SYNC_QUERY_BEGIN => 3 | SYNC_QUERY_END => 4 | SYNC_HANDLE_BEGIN => 5
  | SYNC_HANDLE_END => 6 | SYNC_CANCEL_STATE => 7
  end.

Definition State_of_nat (n : nat) : option State :=
  [SYNC_ZERO_STATE; SYNC_DISPATCH_BEGIN; SYNC_DISPATCH_END; SYNC_QUERY_BEGIN;
   SYNC_QUERY_END; SYNC_HANDLE_BEGIN; SYNC_HANDLE_END; SYNC_CANCEL_STATE] !! n.

#[export] Program Instance State_countable : Countable State :=
  inj_countable State_to_nat State_of_nat _.
Next Obligation. by intros []. Qed.

Definition State_String (s : State) : string :=
  match s with
  | SYNC_ZERO_STATE => "SYNC_ZERO_STATE"
  | SYNC_DISPATCH_BEGIN => "SYNC_DISPATCH_BEGIN"
  | SYNC_DISPATCH_END => "SYNC_DISPATCH_END"
  | SYNC_QUERY_BEGIN => "SYNC_QUERY_BEGIN"
  | SYNC_QUERY_END => "SYNC_QUERY_END"
  | SYNC_HANDLE_BEGIN => "SYNC_HANDLE_BEGIN"
  | SYNC_HANDLE_END => "SYNC_HANDLE_END"
  | SYNC_CANCEL_STATE => "SYNC_CANCEL_STATE"
  end.

(** FromState -> set of ToStates. *)
Abbreviation StateChanges := (gmap State (gset State)).

Definition NewStateChanges : StateChanges := ∅.

Definition AddStateChange (sc : StateChanges) (fromState toState : State) : StateChanges :=
  let newState := default ∅ (sc !! fromState) in
  <[fromState := {[toState]} ∪ newState]> sc.

(** The builders hold a reference to the map they extend; here each carries the
    map as it is after the extension. *)
Record StateChangeFrom := { scf_sc : StateChanges; scf_fromState : State }.
Record StateChangeTo := { sct_sc : StateChanges; sct_fromState : State }.

Definition AddStateChangeFrom (sc : StateChanges) (state : State) : StateChangeFrom :=
  {| scf_sc := sc; scf_fromState := state |}.

Definition To (f : StateChangeFrom) (state : State) : StateChangeTo :=
  {| sct_sc := AddStateChange (scf_sc f) (scf_fromState f) state;
     sct_fromState := state |}.

Definition ThenTo (i : StateChangeTo) (state : State) : StateChangeTo :=
  {| sct_sc := AddStateChange (sct_sc i) (sct_fromState i) state;
     sct_fromState := state |}.

Definition CanChangeState (sc : StateChanges) (fromState toState : State) : bool :=
  match sc !! fromState with
  | None => false
  | Some tsc => bool_decide (toState ∈ tsc)
  end.

Lemma CanChangeState_AddStateChange sc f t a b :
  CanChangeState (AddStateChange sc f t) a b
  = bool_decide (f = a /\ t = b) || CanChangeState sc a b.
Proof.
  unfold CanChangeState, AddStateChange. destruct (decide (f = a)) as [->|Hf].
  - rewrite lookup_insert_eq. apply Bool.eq_iff_eq_true.
    rewrite orb_true_iff. destruct (sc !! a) as [s|]; simpl;
      rewrite !bool_decide_eq_true; set_solver.
  - rewrite lookup_insert_ne by done. rewrite bool_decide_false by naive_solver. done.
Qed.

(** ** statemachine.go *)

(** [ch] is the buffered channel of capacity one. *)
Record StateMachine := {
  stateChanges : StateChanges;
  currentState : State;
  ch : list State
}.

Definition NewStateMachine (scs : StateChanges) (initial : State) : StateMachine :=
  {| stateChanges := scs; currentState := initial; ch := [] |}.

Definition Current (sm : StateMachine) : State := currentState sm.

Definition ResetTo (sm : StateMachine) (state : State) : StateMachine :=
  {| stateChanges := stateChanges sm; currentState := state; ch := ch sm |}.

Definition canChangeTo (sm : StateMachine) (newState : State) : bool :=
  CanChangeState (stateChanges sm) (currentState sm) newState.

(** Outcome of [SyncChangeTo]: the change, [ErrStateChange] with the machine as
    it was, or a goroutine blocked on the full channel (the state has changed
    and the mutex is held). *)
Inductive ChangeResult :=
| Changed (sm : StateMachine)
| ErrStateChange
| BlocksOnSignal (sm : StateMachine).

Definition SyncChangeTo (sm : StateMachine) (newState : State) (signal : bool) : ChangeResult :=
  if negb (canChangeTo sm newState) then ErrStateChange
  else
    let sm' := ResetTo sm newState in
    if signal then
      match ch sm with
      | [] => Changed {| stateChanges := stateChanges sm'; currentState := newState;
                         ch := [newState] |}
      | _ :: _ => BlocksOnSignal sm'
      end
    else Changed sm'.

(** [WaitForState] looks at the machine when it is called and, if the state is
    not the wanted one, again after its timer; [after] is the machine at that
    second look. *)
Definition WaitForState (sm after : StateMachine) (waitState : State) : State * bool :=
  if decide (currentState sm = waitState) then (currentState sm, true)
  else if decide (currentState after = waitState) then (currentState after, true)
  else (currentState after, false).

(** ** dag/syncstates.go *)

Definition sync_sc : StateChanges :=
  let sc := NewStateChanges in
  let sc := sct_sc (To (AddStateChangeFrom sc SYNC_ZERO_STATE) SYNC_DISPATCH_BEGIN) in
  let sc := sct_sc (To (AddStateChangeFrom sc SYNC_ZERO_STATE) SYNC_QUERY_BEGIN) in
  let sc := sct_sc (ThenTo (To (AddStateChangeFrom sc SYNC_DISPATCH_BEGIN)
                              SYNC_DISPATCH_END) SYNC_DISPATCH_BEGIN) in
  let sc := sct_sc (To (AddStateChangeFrom sc SYNC_DISPATCH_BEGIN) SYNC_CANCEL_STATE) in
  let sc := sct_sc (ThenTo (ThenTo (ThenTo (To (AddStateChangeFrom sc SYNC_QUERY_BEGIN)
                              SYNC_HANDLE_BEGIN) SYNC_HANDLE_END) SYNC_QUERY_END)
                              SYNC_QUERY_BEGIN) in
  let sc := sct_sc (To (AddStateChangeFrom sc SYNC_QUERY_BEGIN) SYNC_CANCEL_STATE) in
  let sc := sct_sc (ThenTo (To (AddStateChangeFrom sc SYNC_HANDLE_BEGIN)
                              SYNC_HANDLE_END) SYNC_HANDLE_BEGIN) in
  let sc := sct_sc (To (AddStateChangeFrom sc SYNC_HANDLE_BEGIN) SYNC_CANCEL_STATE) in
  sc.

Definition NewSyncStateMachine : StateMachine := NewStateMachine sync_sc SYNC_ZERO_STATE.

Lemma NewSyncStateMachine_table : stateChanges NewSyncStateMachine = sync_sc.
Proof. unfold NewSyncStateMachine, NewStateMachine. cbn [stateChanges]. reflexivity. Qed.

(** The registry: the machines of a [SyncSM], keyed by tracking id. *)
Abbreviation machines := (gmap uuid StateMachine).

Definition resetSM (sm : machines) (id : uuid) : machines :=
  <[id := NewSyncStateMachine]> (delete id sm).

Definition deleteSM (sm : machines) (id : uuid) : machines := delete id sm.

Definition changeToSM (s : machines) (id : uuid) (sc : State) : machines :=
  match s !! id with
  | Some m =>
      match SyncChangeTo m sc false with
      | Changed m' | BlocksOnSignal m' => <[id := m']> s
      | ErrStateChange => s
      end
  | None => s
  end.

Definition currentSM (s : machines) (id : uuid) : State :=
  match s !! id with Some v => Current v | None => SYNC_ZERO_STATE end.

Definition existsSM (s : machines) (id : uuid) : bool := bool_decide (is_Some (s !! id)).

(** [waitForSM] keeps the registry's mutex while [WaitForState] sleeps; [after]
    is the machine it waits for as it is when the timer fires. *)
Definition waitForSM (s : machines) (after : StateMachine) (id : uuid) (state : State)
  : State * bool :=
  match s !! id with
  | Some v => WaitForState v after state
  | None => (SYNC_ZERO_STATE, false)
  end.

(** [waitForSMInLoop] polls [waitForSM] at each tick until it succeeds or its
    timer fires; [ticks] are the registries the polls start from, each with the
    machine its second look finds. *)
Fixpoint waitForSMInLoop (ticks : list (machines * StateMachine)) (id : uuid) (state : State)
  : State * bool :=
  match ticks with
  | [] => (SYNC_ZERO_STATE, false)
  | (s, after) :: rest =>
      match waitForSM s after id state with
      | (st, true) => (st, true)
      | (st, false) => waitForSMInLoop rest id state
      end
  end.

(** ** The transition graph of the synchronisation machine *)

Inductive edge : State -> State -> Prop :=
| e_zero_dispatch : edge SYNC_ZERO_STATE SYNC_DISPATCH_BEGIN
| e_zero_query : edge SYNC_ZERO_STATE SYNC_QUERY_BEGIN
| e_dispatch_end : edge SYNC_DISPATCH_BEGIN SYNC_DISPATCH_END
| e_dispatch_again : edge SYNC_DISPATCH_END SYNC_DISPATCH_BEGIN
| e_dispatch_cancel : edge SYNC_DISPATCH_BEGIN SYNC_CANCEL_STATE
| e_query_handle : edge SYNC_QUERY_BEGIN SYNC_HANDLE_BEGIN
| e_handle_end : edge SYNC_HANDLE_BEGIN SYNC_HANDLE_END
| e_handle_query_end : edge SYNC_HANDLE_END SYNC_QUERY_END
| e_query_again : edge SYNC_QUERY_END SYNC_QUERY_BEGIN
| e_query_cancel : edge SYNC_QUERY_BEGIN SYNC_CANCEL_STATE
| e_handle_again : edge SYNC_HANDLE_END SYNC_HANDLE_BEGIN
| e_handle_cancel : edge SYNC_HANDLE_BEGIN SYNC_CANCEL_STATE.

#[export] Hint Constructors edge : grape.

Lemma edge_CanChangeState a b : CanChangeState sync_sc a b = true <-> edge a b.
Proof.
  split.
  - destruct a, b; intros H; first [constructor | vm_compute in H; discriminate].
  - by destruct 1.
Qed.

(** A machine in use: its table is the synchronisation table and it has moved
    from [a] to its current state along edges. *)
Definition follows (a : State) (m : StateMachine) : Prop :=
  stateChanges m = sync_sc /\ rtc edge a (currentState m).

Lemma SyncChangeTo_follows a m s m' :
  follows a m ->
  SyncChangeTo m s false = Changed m' ->
  follows a m' /\ currentState m' = s.
Proof.
  intros [Ht Hr]. unfold SyncChangeTo, canChangeTo. rewrite Ht.
  destruct (CanChangeState sync_sc (currentState m) s) eqn:E; simpl; intros [= <-].
  apply edge_CanChangeState in E.
  repeat split; simpl; [done|]. eapply rtc_r; eauto.
Qed.

Definition dispatch_side (s : State) : bool :=
  bool_decide (s = SYNC_DISPATCH_BEGIN \/ s = SYNC_DISPATCH_END \/ s = SYNC_CANCEL_STATE).

Lemma rtc_dispatch_side a b :
  rtc edge a b -> dispatch_side a = true -> dispatch_side b = true.
Proof. induction 1 as [|x y z Hxy _ IH]; [done|]. intros Hx. apply IH. by destruct Hxy. Qed.

(** The changes of state a sequence of [changeToSM] calls makes to one id. *)
Definition changes (s : machines) (id : uuid) (l : list State) : machines :=
  fold_left (fun s st => changeToSM s id st) l s.

Lemma changeToSM_lookup s id st :
  changeToSM s id st !! id
  = match s !! id with
    | Some m => match SyncChangeTo m st false with
                | Changed m' => Some m'
                | _ => Some m
                end
    | None => None
    end.
Proof.
  unfold changeToSM. destruct (s !! id) as [m|] eqn:E; [|done].
  destruct (SyncChangeTo m st false) eqn:E'; simpl; rewrite ?lookup_insert_eq; try done.
  unfold SyncChangeTo in E'. destruct (negb _); discriminate.
Qed.

Lemma changes_follows a l : forall s id m,
  s !! id = Some m -> follows a m ->
  exists m', changes s id l !! id = Some m' /\ follows a m'.
Proof.
  induction l as [|st l IH]; intros s id m Hm Hf; simpl; [eauto|].
  pose proof (changeToSM_lookup s id st) as Hl. rewrite Hm in Hl.
  destruct (SyncChangeTo m st false) eqn:E; [|eauto|eauto].
  eapply IH; [exact Hl|]. by eapply SyncChangeTo_follows.
Qed.

(** ** Interleaving: who may run while [waitForSM] sleeps

    The state of the registry is its map and, when a goroutine sleeps inside
    [waitForSM], what that goroutine waits for.  The sleeping goroutine owns the
    mutex, so the other operations have no step until it leaves. *)
Record registry := {
  reg : machines;
  waiter : option (machines * uuid * State)
}.

Inductive event :=
| EvReset (id : uuid)
| EvDelete (id : uuid)
| EvChange (id : uuid) (s : State)
| EvSleep (id : uuid) (s : State)
| EvWaited (id : uuid) (s : State) (res : State * bool).

Inductive step : registry -> event -> registry -> Prop :=
| step_reset s id :
    step {| reg := s; waiter := None |} (EvReset id) {| reg := resetSM s id; waiter := None |}
| step_delete s id :
    step {| reg := s; waiter := None |} (EvDelete id) {| reg := deleteSM s id; waiter := None |}
| step_change s id st :
    step {| reg := s; waiter := None |} (EvChange id st)
         {| reg := changeToSM s id st; waiter := None |}
| step_sleep s id st m :
    s !! id = Some m -> currentState m <> st ->
    step {| reg := s; waiter := None |} (EvSleep id st) {| reg := s; waiter := Some (s, id, st) |}
| step_wake s s0 id st after :
    s !! id = Some after ->
    step {| reg := s; waiter := Some (s0, id, st) |}
         (EvWaited id st (waitForSM s0 after id st)) {| reg := s; waiter := None |}
| step_at_once s id st m :
    s !! id = Some m -> currentState m = st ->
    step {| reg := s; waiter := None |} (EvWaited id st (waitForSM s m id st))
         {| reg := s; waiter := None |}
| step_unknown s id st m :
    s !! id = None ->
    step {| reg := s; waiter := None |} (EvWaited id st (waitForSM s m id st))
         {| reg := s; waiter := None |}.

Inductive steps : registry -> list event -> registry -> Prop :=
| steps_nil r : steps r [] r
| steps_snoc r r' r'' tr e : steps r tr r' -> step r' e r'' -> steps r (tr ++ [e]) r''.

(** While a goroutine sleeps in [waitForSM] the registry is the one it saw. *)
Definition sleeper_sees (r : registry) : Prop :=
  match waiter r with
  | Some (s0, id, st) => s0 = reg r /\ currentSM s0 id <> st /\ existsSM s0 id = true
  | None => True
  end.

Lemma steps_sleeper_sees r tr r' :
  waiter r = None -> steps r tr r' -> sleeper_sees r'.
Proof.
  intros H0 H. induction H as [r|r r1 r2 tr e H IH Hs].
  - unfold sleeper_sees. by rewrite H0.
  - destruct Hs; try done. unfold sleeper_sees, currentSM, existsSM, Current; simpl.
    rewrite H1. split_and!; [done|done|]. apply bool_decide_true. by eexists.
Qed.

Lemma waitForSM_same s id st m :
  s !! id = Some m -> waitForSM s m id st = (currentState m, bool_decide (currentState m = st)).
Proof.
  intros E. unfold waitForSM, WaitForState. rewrite E. by do 2 case_decide.
Qed.

(** ** Properties *)

(** The table built by [NewSyncStateMachine] allows exactly the edges of
    the transition graph, and [SyncChangeTo] moves along them and only them:
    the change succeeds to the new state if there is an edge, and otherwise it
    is [ErrStateChange]. *)
Theorem sync_machine_transitions (m : StateMachine) (s : State) :
  stateChanges m = sync_sc ->
  SyncChangeTo m s false
  = (if decide (CanChangeState sync_sc (currentState m) s = true)
     then Changed (ResetTo m s) else ErrStateChange)
  /\ (CanChangeState sync_sc (currentState m) s = true <-> edge (currentState m) s).
Proof.
  intros Ht. split; [|apply edge_CanChangeState].
  unfold SyncChangeTo, canChangeTo. rewrite Ht. clear Ht.
  generalize (CanChangeState sync_sc (currentState m) s) as b. by intros [].
Qed.

Lemma sync_machine_transitions_witness :
  stateChanges NewSyncStateMachine = sync_sc
  /\ SyncChangeTo NewSyncStateMachine SYNC_QUERY_BEGIN false
     = Changed (ResetTo NewSyncStateMachine SYNC_QUERY_BEGIN).
Proof.
  split; [exact NewSyncStateMachine_table|].
  destruct (sync_machine_transitions NewSyncStateMachine SYNC_QUERY_BEGIN
              NewSyncStateMachine_table) as [E _].
  rewrite E. rewrite decide_True by (vm_compute; reflexivity). reflexivity.
Defined.

(** A machine that has begun to dispatch stays on the dispatch side: after
    any sequence of requested changes its state is DISPATCH_BEGIN,
    DISPATCH_END or CANCEL, so a wait for HANDLE_END on it cannot succeed. *)
Theorem dispatch_never_handles (s : machines) (id : uuid) (m : StateMachine) (l : list State) :
  s !! id = Some m -> stateChanges m = sync_sc -> dispatch_side (currentState m) = true ->
  exists m', changes s id l !! id = Some m'
  /\ dispatch_side (currentState m') = true
  /\ waitForSM (changes s id l) m' id SYNC_HANDLE_END = (currentState m', false).
Proof.
  intros Hm Ht Hd.
  destruct (changes_follows (currentState m) l s id m Hm) as (m' & E & _ & Hr);
    [by split|].
  exists m'. pose proof (rtc_dispatch_side _ _ Hr Hd) as Hd'. split_and!; try done.
  rewrite (waitForSM_same _ _ _ _ E). f_equal. apply bool_decide_false.
  intros E'. by rewrite E' in Hd'.
Qed.

Lemma dispatch_never_handles_witness :
  exists m', changes (changeToSM (resetSM ∅ 7%N) 7%N SYNC_DISPATCH_BEGIN) 7%N
               [SYNC_HANDLE_BEGIN; SYNC_DISPATCH_END; SYNC_HANDLE_END] !! 7%N = Some m'
  /\ currentState m' = SYNC_DISPATCH_END.
Proof.
  destruct (dispatch_never_handles (changeToSM (resetSM ∅ 7%N) 7%N SYNC_DISPATCH_BEGIN) 7%N
    (ResetTo NewSyncStateMachine SYNC_DISPATCH_BEGIN)
    [SYNC_HANDLE_BEGIN; SYNC_DISPATCH_END; SYNC_HANDLE_END]) as (m' & E & _ & _);
    [vm_compute; reflexivity|exact NewSyncStateMachine_table|reflexivity|].
  exists m'. split; [exact E|].
  vm_compute in E. injection E as <-. reflexivity.
Defined.

(** [waitForSM] sleeps with the registry locked, so it never sees a
    change: in every execution, if a goroutine that went to sleep in
    [waitForSM] wakes up, the registry is the one it found and the wait fails
    with the state it started from. *)
Theorem waitForSM_observes_no_change (s : machines) (tr : list event) (r r' : registry)
    (id : uuid) (st : State) (res : State * bool) :
  steps {| reg := s; waiter := None |} tr r -> waiter r <> None ->
  step r (EvWaited id st res) r' ->
  res = (currentSM (reg r) id, false) /\ reg r' = reg r.
Proof.
  intros Hs Hw Hst. assert (Hp : sleeper_sees r) by (by eapply steps_sleeper_sees; [|exact Hs]).
  inversion Hst as [| | | |s1 s0 ? ? after Ha|?|?]; subst; simpl in *; try done.
  destruct Hp as (-> & Hne & Hex); simpl in *. split; [|done].
  rewrite (waitForSM_same _ _ _ after) by done.
  unfold currentSM, Current in *. rewrite Ha in *. by rewrite bool_decide_false.
Qed.

Lemma waitForSM_observes_no_change_witness :
  let s := changeToSM (resetSM ∅ 7%N) 7%N SYNC_QUERY_BEGIN in
  steps {| reg := s; waiter := None |} [EvSleep 7%N SYNC_HANDLE_END]
        {| reg := s; waiter := Some (s, 7%N, SYNC_HANDLE_END) |}
  /\ waitForSM s (ResetTo NewSyncStateMachine SYNC_QUERY_BEGIN) 7%N SYNC_HANDLE_END
     = (SYNC_QUERY_BEGIN, false).
Proof.
  intros s.
  assert (Hs : steps {| reg := s; waiter := None |} [EvSleep 7%N SYNC_HANDLE_END]
        {| reg := s; waiter := Some (s, 7%N, SYNC_HANDLE_END) |}).
  { eapply (steps_snoc _ _ _ []); [apply steps_nil|].
    apply (step_sleep _ _ _ (ResetTo NewSyncStateMachine SYNC_QUERY_BEGIN));
      [vm_compute; reflexivity|done]. }
  split; [exact Hs|].
  destruct (waitForSM_observes_no_change s _ _ {| reg := s; waiter := None |} 7%N
    SYNC_HANDLE_END (waitForSM s (ResetTo NewSyncStateMachine SYNC_QUERY_BEGIN) 7%N
    SYNC_HANDLE_END) Hs) as [E _]; [done| |].
  - apply step_wake. vm_compute. reflexivity.
  - rewrite E. vm_compute. reflexivity.
Defined.
