(* ===== verification/Tx.v ===== *)
(** Transactions: [tx/txvX.go], [tx/wrappers.go], the signatures of
    [crypto/dsa.go], and the sequence numbers of [tx/grapetx.go].

    A Grape transaction is a [Txv1]; an Ethereum one wraps the library's
    [eth.Transaction], of which the model keeps what its accessors return.
    [Transaction] is the Go interface with its two implementations.  Hashing,
    ed25519, secp256k1, RLP and the protobuf wire format are libraries: they
    are the classes [CryptoLib], [EthLib] and [ProtoLib]. *)
From S2P Require Import Prelude GoLib Bytes.

(** ** Libraries *)

Class CryptoLib := {
  sha256 : bytes -> bytes;
  keccak256 : bytes -> bytes;
  ed25519_Public : bytes -> bytes;
  ed25519_Sign : bytes -> bytes -> bytes;
  ed25519_Verify : bytes -> bytes -> bytes -> bool;
  sha256_length : forall b, length (sha256 b) = 32%nat;
  keccak256_length : forall b, length (keccak256 b) = 32%nat;
  ed25519_Public_length : forall k, length (ed25519_Public k) = 32%nat;
  ed25519_Sign_length : forall k m, length (ed25519_Sign k m) = 64%nat;
  ed25519_Verify_Sign : forall k m, ed25519_Verify (ed25519_Public k) m (ed25519_Sign k m) = true
}.

(** A [timestamppb.Timestamp] message; [New] and [AsTime] convert it from and to
    an instant, here a number of nanoseconds since 1970. *)
Record Timestamp := { Seconds : Z; Nanos : Z }.
Class TimestampLib := {
  ts_New : Z -> Timestamp;
  ts_AsTime : Timestamp -> Z;
  ts_AsTime_New : forall t, ts_AsTime (ts_New t) = t
}.

(** [GetTimestamp().AsTime()]: a missing message is the epoch. *)
Definition AsTime `{TimestampLib} (o : option Timestamp) : Z :=
  match o with Some t => ts_AsTime t | None => 0 end.

#[export] Hint Rewrite @sha256_length @keccak256_length @ed25519_Public_length
  @ed25519_Sign_length @ed25519_Verify_Sign @ts_AsTime_New : grape.

(** The message [pb.Txv1].  A field of type [bytes] does not tell nil from
    empty; [Data] and [RlpEthTx] are compared with nil by the code. *)
Record pb_Txv1 := {
  pb_TxType : Z; pb_ChainType : Z; pb_SenderPubk : bytes; pb_Sender : bytes;
  pb_Recepient : bytes; pb_Amount : bytes; pb_Nonce : Z;
  pb_Timestamp : option Timestamp; pb_FuelLimit : bytes; pb_FuelPrice : bytes;
  pb_Data : option bytes; pb_Signature : bytes; pb_RlpEthTx : option bytes
}.

Class ProtoLib := {
  proto_Marshal_Txv1 : pb_Txv1 -> option bytes;
  proto_Unmarshal_Txv1 : bytes -> option pb_Txv1
}.

(** What the accessors of an [eth.Transaction] return; [eth_other] stands for
    the fields the code never reads. *)
Record eth_Transaction := {
  eth_To : option bytes; eth_Data : bytes; eth_ChainId : Z; eth_Nonce : Z;
  eth_Value : Z; eth_Gas : Z; eth_GasPrice : Z;
  eth_V : Z; eth_R : Z; eth_S : Z; eth_other : bytes
}.

Class EthLib := {
  eth_Hash : eth_Transaction -> bytes;
  eth_SigningHash : Z -> eth_Transaction -> bytes;
  eth_SenderOf : Z -> eth_Transaction -> option bytes;
  eth_Ecrecover : bytes -> bytes -> option bytes;
  eth_VerifySignature : bytes -> bytes -> bytes -> bool;
  rlp_Encode : eth_Transaction -> option bytes;
  rlp_Decode : bytes -> option eth_Transaction;
  rlp_Decode_Encode : forall t b, rlp_Encode t = Some b -> rlp_Decode b = Some t
}.

(** ** crypto/dsa.go *)

Section Dsa.
Context `{CryptoLib}.

(** [ed25519.NewKeyFromSeed] panics on a seed that is not 32 bytes long. *)
Definition DSA_Sign (key message : bytes) : outcome bytes :=
  if (length key =? 32)%nat then Return (ed25519_Sign key message) else Panic.

(** [ed25519.Verify] panics on a public key that is not 32 bytes long. *)
Definition DSA_Verify (key signature message : bytes) : outcome bool :=
  if (length key =? 0)%nat then Return false
  else if (length signature =? 0)%nat then Return false
  else if (length message =? 0)%nat then Return false
  else if (length key =? 32)%nat then Return (ed25519_Verify key message signature)
  else Panic.

Definition ParsePrivateKey (hexstr : string) : option bytes :=
  match hex_DecodeString hexstr with (b, true) => Some b | _ => None end.

Definition ParsePublicKey (hexstr : string) : option bytes :=
  match hex_DecodeString hexstr with (b, true) => Some b | _ => None end.

(** *** crypto/wallet.go: the wallet of a key pair *)
Record Wallet := { privateKey : bytes; publicKey : bytes; walletAddress : string }.

Definition AddressFromPulicKey (pubKey : bytes) : string :=
  ("0x" ++ hex_EncodeToString (drop 12 (keccak256 pubKey)))%string.

Definition creatWallet (pubKey privKey : bytes) : Wallet :=
  {| privateKey := privKey; publicKey := pubKey;
     walletAddress := AddressFromPulicKey pubKey |}.

Definition LoadWallet (pubKey privKey : string) : outcome Wallet :=
  match ParsePublicKey pubKey with
  | None => Panic
  | Some pub => match ParsePrivateKey privKey with
                | None => Panic
                | Some priv => Return (creatWallet pub priv)
                end
  end.

Definition Wallet_PrivateKeyStr (w : Wallet) : string := hex_EncodeToString (privateKey w).
Definition Wallet_PublicKeyStr (w : Wallet) : string := hex_EncodeToString (publicKey w).
End Dsa.

(** ** Enumerations *)

Definition PAYMENT := 0.
Definition PUBLISH_CONTRACT := 1.
Definition CALL_CONTRACT := 2.
Definition SERVICE_GENESIS := 3.
Definition SERVICE := 4.
Definition SERVICE_PIN := 5.

Definition TransactionType_Name (t : Z) : outcome string :=
  match ["PAYMENT"; "PUBLISH_CONTRACT"; "CALL_CONTRACT"; "SERVICE_GENESIS"; "SERVICE";
         "SERVICE_PIN"]%string !! Z.to_nat t with
  | Some s => Return s
  | None => Panic
  end.

Definition MAINNET := 0.
Definition PUBLIC_TESTNET := 1.
Definition PRIVATE_TESTNET := 2.

(** ** Txv1 *)

Record Txv1 := {
  Tx_Type : Z; Chain_Type : Z; Sender_Pubk : bytes; Sender : bytes;
  Recepient : bytes; Amount : bytes; Nonce : Z; TimestampOf : Z;
  Fuel_Limit : bytes; Fuel_Price : bytes; Data : option bytes; Signature : bytes
}.

(** The uint8 and uint64 fields are in range. *)
Definition Txv1_ok (t : Txv1) : Prop :=
  0 <= Tx_Type t < 256 /\ 0 <= Chain_Type t < 256 /\ 0 <= Nonce t < 2 ^ 64.

Definition set_Signature (t : Txv1) (s : bytes) : Txv1 :=
  {| Tx_Type := Tx_Type t; Chain_Type := Chain_Type t; Sender_Pubk := Sender_Pubk t;
     Sender := Sender t; Recepient := Recepient t; Amount := Amount t; Nonce := Nonce t;
     TimestampOf := TimestampOf t; Fuel_Limit := Fuel_Limit t; Fuel_Price := Fuel_Price t;
     Data := Data t; Signature := s |}.

(** The zero [time.Time]: January 1 of the year 1. *)
Definition zero_time : Z := -62135596800 * 1000000000.

Definition NewTxv1 (ct : Z) : Txv1 :=
  {| Tx_Type := 0; Chain_Type := ct; Sender_Pubk := []; Sender := []; Recepient := [];
     Amount := []; Nonce := 0; TimestampOf := zero_time; Fuel_Limit := []; Fuel_Price := [];
     Data := None; Signature := [] |}.

(** A transaction from a wallet to itself: the common body of the service,
    genesis and pin constructors. *)
Definition wallet_Txv1 (ty ct : Z) (data : option bytes) (w : Wallet) : outcome Txv1 :=
  let! a := AddressToBytes (walletAddress w) in
  Return {| Tx_Type := ty; Chain_Type := ct; Sender_Pubk := publicKey w; Sender := a;
            Recepient := a; Amount := []; Nonce := 0; TimestampOf := zero_time; Fuel_Limit := [];
            Fuel_Price := []; Data := data; Signature := [] |}.

Definition NewServiceTxv1 (ct : Z) (payload : bytes) (w : Wallet) : outcome Txv1 :=
  wallet_Txv1 SERVICE ct (Some payload) w.
Definition NewGenesisTxv1 (ct : Z) (w : Wallet) : outcome Txv1 :=
  wallet_Txv1 SERVICE_GENESIS ct None w.
Definition NewPinTxv1 (ct : Z) (w : Wallet) : outcome Txv1 :=
  wallet_Txv1 SERVICE_PIN ct None w.

(** [copy(dst, src)] writes over the first bytes of [dst], whose length stays. *)
Definition go_copy {A} (dst src : list A) : list A :=
  take (length dst) src ++ drop (length src) dst.

Definition Txv1_SetAmount (t : Txv1) (amount : Z) : Txv1 :=
  {| Tx_Type := Tx_Type t; Chain_Type := Chain_Type t; Sender_Pubk := Sender_Pubk t;
     Sender := Sender t; Recepient := Recepient t; Amount := go_copy (Amount t) (Bytes amount);
     Nonce := Nonce t; TimestampOf := TimestampOf t; Fuel_Limit := Fuel_Limit t;
     Fuel_Price := Fuel_Price t; Data := Data t; Signature := Signature t |}.

Definition Txv1_GetAmount (t : Txv1) : Z := SetBytes (Amount t).
Definition Txv1_GetFuelLimit (t : Txv1) : Z := SetBytes (Fuel_Limit t).
Definition Txv1_GetFuelPrice (t : Txv1) : Z := SetBytes (Fuel_Price t).
(** [UnixMilli] of the instant, as a uint64. *)
Definition Txv1_GetTimestamp (t : Txv1) : Z := to_uint64 (to_int64 (TimestampOf t / 1000000)).

Definition Txv1_IsService (t : Txv1) : bool := Tx_Type t =? SERVICE.
Definition Txv1_IsPayload (t : Txv1) (payload : bytes) : bool :=
  match Data t with Some d => bool_decide (d = payload) | None => false end.
(** [same] says whether the two pointers are the same. *)
Definition Txv1_Equal (same : bool) (thisTx thatTx : Txv1) : bool :=
  same || bool_decide (Signature thisTx = Signature thatTx).

Section Txv1.
Context `{CryptoLib} `{ProtoLib} `{TimestampLib}.

Definition Txv1_MarshalBinary (t : Txv1) : pb_Txv1 :=
  {| pb_TxType := Tx_Type t; pb_ChainType := Chain_Type t; pb_SenderPubk := Sender_Pubk t;
     pb_Sender := Sender t; pb_Recepient := Recepient t; pb_Amount := Amount t;
     pb_Nonce := Nonce t; pb_Timestamp := Some (ts_New (TimestampOf t));
     pb_FuelLimit := Fuel_Limit t; pb_FuelPrice := Fuel_Price t; pb_Data := Data t;
     pb_Signature := Signature t; pb_RlpEthTx := None |}.

Definition Txv1_UnmarshalBinary (tpb : pb_Txv1) : Txv1 :=
  {| Tx_Type := to_uint8 (pb_TxType tpb); Chain_Type := to_uint8 (pb_ChainType tpb);
     Sender_Pubk := pb_SenderPubk tpb; Sender := pb_Sender tpb;
     Recepient := pb_Recepient tpb; Amount := pb_Amount tpb; Nonce := pb_Nonce tpb;
     TimestampOf := AsTime (pb_Timestamp tpb);
     Fuel_Limit := pb_FuelLimit tpb; Fuel_Price := pb_FuelPrice tpb; Data := pb_Data tpb;
     Signature := pb_Signature tpb |}.

Definition Txv1_Hash (t : Txv1) : option bytes :=
  match proto_Marshal_Txv1 (Txv1_MarshalBinary t) with
  | None => None
  | Some buf => Some (sha256 buf)
  end.

Definition Txv1_GetHash (t : Txv1) : outcome bytes :=
  match Txv1_Hash t with None => Panic | Some h => Return h end.

Definition Txv1_DefaultStringHash (t : Txv1) : outcome string :=
  let! h := Txv1_GetHash t in Return ("0x" ++ hex_EncodeToString h)%string.

(** Returns the transaction, whose signature it also sets, and the signature;
    [None] is nil. *)
Definition Txv1_generateSignature (t : Txv1) (pk : bytes) : outcome (Txv1 * option bytes) :=
  match Txv1_Hash t with
  | None => Return (t, None)
  | Some payload =>
      let! s := DSA_Sign pk payload in Return (set_Signature t s, Some s)
  end.

Definition Txv1_Sign (t : Txv1) (pk : bytes) : outcome Txv1 :=
  let! r := Txv1_generateSignature (set_Signature t []) pk in
  Return (set_Signature (fst r) (default [] (snd r))).

(** The structure [MarshalJSON] hands to the JSON encoder. *)
Record Txv1_json := {
  j_tx_type : Z; j_chain_type : Z; j_depth : Z; j_sender_pubk : string; j_sender : string;
  j_recepient : string; j_amount : Z; j_nonce : Z; j_timestamp : Z; j_fuel_limit : Z;
  j_fuel_price : Z; j_data : option bytes
}.

Definition Txv1_MarshalJSON (t : Txv1) : outcome Txv1_json :=
  let! s := BytesToAddress (Sender t) in
  let! r := ZeroBytesToAddress (Recepient t) in
  Return {| j_tx_type := Tx_Type t; j_chain_type := Chain_Type t; j_depth := 0;
            j_sender_pubk := hex_EncodeToString (Sender_Pubk t); j_sender := s;
            j_recepient := r; j_amount := to_uint64 (SetBytes (Amount t));
            j_nonce := Nonce t; j_timestamp := TimestampOf t;
            j_fuel_limit := to_uint64 (SetBytes (Fuel_Limit t));
            j_fuel_price := to_uint64 (SetBytes (Fuel_Price t)); j_data := Data t |}.

(** [String] marshals the transaction to JSON, which panics on an address that is
    not of 20 bytes. *)
Definition Txv1_String (t : Txv1) : outcome unit := let! _ := Txv1_MarshalJSON t in Return tt.

Inductive VerifyError := ErrSignatureLength (sz : nat) | ErrCannotVerify.

(** The transaction after the call and the error.  The signature is emptied
    while the hash is computed; a hash that fails leaves it empty and reports
    no error.  The error of a wrong signature prints the transaction. *)
Definition Txv1_Verify (t : Txv1) : outcome (Txv1 * option VerifyError) :=
  let sz := length (Signature t) in
  if (sz <? 64)%nat then Return (t, Some (ErrSignatureLength sz))
  else
    let sigbuf := Signature t in
    let t := set_Signature t [] in
    match Txv1_Hash t with
    | None => Return (t, None)
    | Some payload =>
        let t := set_Signature t sigbuf in
        let! valid := DSA_Verify (Sender_Pubk t) (Signature t) payload in
        if valid then Return (t, None)
        else let! _ := Txv1_String t in Return (t, Some ErrCannotVerify)
    end.

(** [GeneratePayment]: [tx] carries the keys, addresses and amount of a wallet
    transaction; [nonce] and [now] are what the random source and the clock
    return. *)
Record WalletTransaction := {
  senderPrivateKey : bytes; senderPublicKey : bytes; senderAddress : string;
  receiverAddress : string; wt_amount : Z
}.

Definition Txv1_GeneratePayment (t : Txv1) (tx : WalletTransaction) (chaintype : Z)
    (random now : Z) : outcome Txv1 :=
  let! snd_ := AddressToBytes (senderAddress tx) in
  let! rcv := AddressToBytes (receiverAddress tx) in
  Txv1_Sign {| Tx_Type := PAYMENT; Chain_Type := to_uint8 chaintype;
               Sender_Pubk := senderPublicKey tx; Sender := snd_; Recepient := rcv;
               Amount := Bytes (wt_amount tx); Nonce := random mod 200000;
               TimestampOf := now; Fuel_Limit := Bytes 0; Fuel_Price := Bytes 0;
               Data := Data t; Signature := Signature t |} (senderPrivateKey tx).

(** [[]byte(s)] of a Go string. *)
Definition string_bytes (s : string) : bytes := map Ascii.byte_of_ascii (String.list_ascii_of_string s).

(** [UnmarshalJSON] on a document with all its fields; [t] keeps its signature. *)
Definition Txv1_UnmarshalJSON (t : Txv1) (j : Txv1_json) : outcome Txv1 :=
  let! s := AddressToBytes (j_sender j) in
  let! r := AddressToBytes (j_recepient j) in
  Return {| Tx_Type := j_tx_type j; Chain_Type := j_chain_type j;
            Sender_Pubk := string_bytes (j_sender_pubk j); Sender := s; Recepient := r;
            Amount := Bytes (j_amount j); Nonce := j_nonce j; TimestampOf := j_timestamp j;
            Fuel_Limit := Bytes (j_fuel_limit j); Fuel_Price := Bytes (j_fuel_limit j);
            Data := j_data j; Signature := Signature t |}.
End Txv1.

(** ** EthTx *)

Abbreviation EthTx := eth_Transaction (only parsing).

Definition EthTx_GetTransactionType (tx : EthTx) : Z :=
  match eth_To tx with
  | None => PUBLISH_CONTRACT
  | Some _ => if (0 <? length (eth_Data tx))%nat then CALL_CONTRACT else PAYMENT
  end.

Definition EthTx_GetChainType (tx : EthTx) : outcome Z :=
  if eth_ChainId tx =? 1 then Return MAINNET
  else if eth_ChainId tx =? 2 then Return PUBLIC_TESTNET
  else if eth_ChainId tx =? 3 then Return PRIVATE_TESTNET
  else Panic.

Definition EthTx_GetRecipient (tx : EthTx) : bytes := default [] (eth_To tx).

(** [big.Int.Uint64]: the low 64 bits of the absolute value. *)
Definition big_Uint64 (z : Z) : Z := to_uint64 (Z.abs z).
(** [big.Int.Int64]: the same bits, signed. *)
Definition big_Int64 (z : Z) : Z :=
  to_int64 (if z <? 0 then - to_uint64 (Z.abs z) else to_uint64 z).

(** [copy(sig[n-len(x):n], x)]; a slice bound below zero panics. *)
Definition put_right (sig : bytes) (n : nat) (x : bytes) : outcome bytes :=
  if (n <? length x)%nat then Panic
  else Return (take (n - length x) sig ++ x ++ drop n sig).

Definition encodeSignature (tx : EthTx) : outcome bytes :=
  let v := to_uint8 (to_uint64 (big_Uint64 (eth_V tx) - 27)) in
  let v := if negb (eth_ChainId tx =? 0) then
             to_uint8 (to_uint8 (to_uint8 (big_Uint64 (eth_V tx)) - 35)
                       - to_uint8 (2 * to_uint8 (big_Int64 (eth_ChainId tx))))
           else v in
  let sig := replicate 65 x00 in
  let! sig := put_right sig 32 (Bytes (eth_R tx)) in
  let! sig := put_right sig 64 (Bytes (eth_S tx)) in
  Return (<[64%nat := byte_of_Z v]> sig).

(** The scan of [DecodeSignature]: the bytes after the first non-zero one. *)
Fixpoint skip_to_nonzero (r : bytes) : option bytes :=
  match r with
  | [] => None
  | b :: r' => if decide (b = x00) then skip_to_nonzero r' else Some r'
  end.

(** Slicing below 64 bytes panics. *)
Definition DecodeSignature (sig : bytes) (chainId : Z) : outcome (bytes * bytes * bytes) :=
  if (length sig <? 64)%nat then Panic
  else
    let r := take 32 sig in
    let r := default r (skip_to_nonzero r) in
    let s := take 32 (drop 32 sig) in
    let s := default s (skip_to_nonzero s) in
    Return (r, s, [byte_of_Z (35 + (chainId + 1) * 2)]).

Section EthTx.
Context `{EthLib} `{TimestampLib}.

Definition EthTx_GetSenderPubKey (tx : EthTx) : outcome bytes :=
  let! sig := encodeSignature tx in
  match eth_Ecrecover (eth_SigningHash (eth_ChainId tx) tx) sig with
  | None => Panic
  | Some k => Return k
  end.

Definition EthTx_GetSender (tx : EthTx) : outcome bytes :=
  match eth_SenderOf (eth_ChainId tx) tx with None => Panic | Some s => Return s end.

Inductive EthVerifyError := ErrRecover | ErrEthVerify.

Definition EthTx_VerifySignature (tx : EthTx) : outcome (option EthVerifyError) :=
  let! sig := encodeSignature tx in
  let h := eth_SigningHash (eth_ChainId tx) tx in
  match eth_Ecrecover h sig with
  | None => Return (Some ErrRecover)
  | Some pubKey =>
      if negb (eth_VerifySignature pubKey h (take 64 sig)) then Return (Some ErrEthVerify)
      else Return None
  end.

Definition EthTx_GetFuelLimit (tx : EthTx) : Z := to_int64 (eth_Gas tx).

(** [now] is the clock in nanoseconds; the message carries it in milliseconds. *)
Definition EthTx_MarshalBinary (tx : EthTx) (now : Z) : outcome pb_Txv1 :=
  let! ct := EthTx_GetChainType tx in
  let! pk := EthTx_GetSenderPubKey tx in
  let! snd_ := EthTx_GetSender tx in
  let! sig := encodeSignature tx in
  match rlp_Encode tx with
  | None => Panic
  | Some b =>
      Return {| pb_TxType := EthTx_GetTransactionType tx; pb_ChainType := ct;
                pb_SenderPubk := pk; pb_Sender := snd_;
                pb_Recepient := EthTx_GetRecipient tx; pb_Amount := Bytes (eth_Value tx);
                pb_Nonce := eth_Nonce tx;
                pb_Timestamp := Some (ts_New (now / 1000000 * 1000000));
                pb_FuelLimit := Bytes (EthTx_GetFuelLimit tx);
                pb_FuelPrice := Bytes (eth_GasPrice tx); pb_Data := Some (eth_Data tx);
                pb_Signature := sig; pb_RlpEthTx := Some b |}
  end.

Definition EthTx_UnmarshalBinary (txPb : pb_Txv1) : outcome EthTx :=
  match pb_RlpEthTx txPb with
  | None => Panic
  | Some b => match rlp_Decode b with None => Panic | Some t => Return t end
  end.
End EthTx.

(** ** The interface Transaction *)

Inductive Transaction :=
| ATxv1 (t : Txv1)
| AnEthTx (t : EthTx).

Section Transaction.
Context `{CryptoLib} `{ProtoLib} `{TimestampLib} `{EthLib}.

Definition GetTransactionType (tx : Transaction) : Z :=
  match tx with ATxv1 t => Tx_Type t | AnEthTx t => EthTx_GetTransactionType t end.
Definition GetChainType (tx : Transaction) : outcome Z :=
  match tx with ATxv1 t => Return (Chain_Type t) | AnEthTx t => EthTx_GetChainType t end.
Definition GetAmount (tx : Transaction) : Z :=
  match tx with ATxv1 t => Txv1_GetAmount t | AnEthTx t => eth_Value t end.
Definition GetFuelLimit (tx : Transaction) : Z :=
  match tx with ATxv1 t => Txv1_GetFuelLimit t | AnEthTx t => EthTx_GetFuelLimit t end.
Definition GetFuelPrice (tx : Transaction) : Z :=
  match tx with ATxv1 t => Txv1_GetFuelPrice t | AnEthTx t => eth_GasPrice t end.
Definition GetSender (tx : Transaction) : outcome bytes :=
  match tx with ATxv1 t => Return (Sender t) | AnEthTx t => EthTx_GetSender t end.
Definition GetRecipient (tx : Transaction) : bytes :=
  match tx with ATxv1 t => Recepient t | AnEthTx t => EthTx_GetRecipient t end.
Definition GetNonce (tx : Transaction) : Z :=
  match tx with ATxv1 t => Nonce t | AnEthTx t => eth_Nonce t end.
Definition GetData (tx : Transaction) : option bytes :=
  match tx with ATxv1 t => Data t | AnEthTx t => Some (eth_Data t) end.
Definition GetHash (tx : Transaction) : outcome bytes :=
  match tx with ATxv1 t => Txv1_GetHash t | AnEthTx t => Return (eth_Hash t) end.
Definition IsService (tx : Transaction) : bool :=
  match tx with ATxv1 t => Txv1_IsService t | AnEthTx _ => false end.
Definition IsPayload (tx : Transaction) (payload : bytes) : bool :=
  match tx with
  | ATxv1 t => Txv1_IsPayload t payload
  | AnEthTx t => if (0 <? length (eth_Data t))%nat then bool_decide (eth_Data t = payload)
                 else false
  end.
Definition GetType (tx : Transaction) : Z :=
  match tx with ATxv1 _ => 0 | AnEthTx _ => 1 end.
Definition MarshalBinary (tx : Transaction) (now : Z) : outcome pb_Txv1 :=
  match tx with
  | ATxv1 t => Return (Txv1_MarshalBinary t)
  | AnEthTx t => EthTx_MarshalBinary t now
  end.

(** [String]. *)
Definition print_tx (t : Transaction) : outcome unit :=
  match t with ATxv1 t => Txv1_String t | AnEthTx _ => Return tt end.

Definition UnmarshalBinary (txPb : pb_Txv1) : outcome Transaction :=
  match pb_RlpEthTx txPb with
  | Some _ => let! t := EthTx_UnmarshalBinary txPb in Return (AnEthTx t)
  | None => Return (ATxv1 (Txv1_UnmarshalBinary txPb))
  end.

(** [None] is the error of bytes that are neither RLP nor protobuf. *)
Definition ParseTransaction (txBytes : bytes) : option Transaction :=
  match rlp_Decode txBytes with
  | Some t => Some (AnEthTx t)
  | None => match proto_Unmarshal_Txv1 txBytes with
            | None => None
            | Some p => Some (ATxv1 (Txv1_UnmarshalBinary p))
            end
  end.
End Transaction.

(** ** wrappers.go *)

Inductive Status := Failed | Successful.

Record ConfirmedTx := {
  c_tx : Transaction; UsedFuel : Z; StatusMessage : string; c_Status : Status;
  PinTxNumber : Z; PinTxHash : string; TxIndex : Z; CumulativeGasUsed : Z
}.

(** A [UnifiedTx] holds a confirmed or an unconfirmed transaction (or none). *)
Record UnifiedTx := { confirmed : option ConfirmedTx; unconfirmed : option Transaction }.

Definition GetRawTx (tx : UnifiedTx) : outcome Transaction :=
  match confirmed tx, unconfirmed tx with
  | Some c, _ => Return (c_tx c)
  | None, Some u => Return u
  | None, None => Panic
  end.
Definition GetUnconfirmed (tx : UnifiedTx) : outcome Transaction :=
  match unconfirmed tx with Some u => Return u | None => Panic end.
Definition GetConfirmed (tx : UnifiedTx) : outcome ConfirmedTx :=
  match confirmed tx with Some c => Return c | None => Panic end.
Definition IsConfirmed (tx : UnifiedTx) : bool := bool_decide (is_Some (confirmed tx)).
Definition NewUnifiedConfirmedTx (c : ConfirmedTx) : UnifiedTx :=
  {| confirmed := Some c; unconfirmed := None |}.
Definition NewUnifiedUnconfirmedTx (t : Transaction) : UnifiedTx :=
  {| confirmed := None; unconfirmed := Some t |}.
Definition NewUnifiedConfirmedTxRaw (t : Transaction) (pinTxNumber : Z) (pinTxHash : string)
    (txIndex usedGas : Z) : UnifiedTx :=
  NewUnifiedConfirmedTx
    {| c_tx := t; UsedFuel := usedGas; StatusMessage := "Executed"; c_Status := Successful;
       PinTxNumber := pinTxNumber; PinTxHash := pinTxHash; TxIndex := txIndex;
       CumulativeGasUsed := 0 |}.
Definition NewPaymentConfirmedTx (t : Transaction) (pinTxNumber : Z) (pinTxHash : string)
    (txIndex : Z) : option ConfirmedTx :=
  if negb (GetTransactionType t =? PAYMENT) then None
  else Some {| c_tx := t; UsedFuel := 0; StatusMessage := "Executed"; c_Status := Successful;
               PinTxNumber := pinTxNumber; PinTxHash := pinTxHash; TxIndex := txIndex;
               CumulativeGasUsed := 0 |}.
Definition IdentifiableTx_Id `{CryptoLib} `{ProtoLib} `{TimestampLib} `{EthLib}
    (t : Transaction) : outcome string :=
  let! h := GetHash t in Return (Hex_String (Some h)).

(** ** grapetx.go: sequence numbers *)

(** The new [lastTimestamp], which is also the result; [clock] is [UnixNano]. *)
Definition TimestampSeq (lastTimestamp clock : Z) : Z :=
  let now := to_uint64 clock in
  if now <=? lastTimestamp then to_uint64 (lastTimestamp + 1) else now.

(** The results of a run of calls, one per clock reading. *)
Fixpoint TimestampSeqs (lastTimestamp : Z) (clocks : list Z) : list Z :=
  match clocks with
  | [] => []
  | c :: rest => let n := TimestampSeq lastTimestamp c in n :: TimestampSeqs n rest
  end.

(** ** Concrete libraries *)

Definition pad_to (n : nat) (b : bytes) : bytes := take n (b ++ replicate n x00).

Lemma pad_to_length n b : length (pad_to n b) = n.
Proof. unfold pad_to. rewrite length_take, length_app, length_replicate. lia. Qed.

(** A library whose hashes cut and pad and whose signatures are the key and the
    message: it satisfies the laws and computes. *)
#[export] Program Instance crypto_pad : CryptoLib := {
  sha256 := pad_to 32;
  keccak256 := pad_to 32;
  ed25519_Public := pad_to 32;
  ed25519_Sign k m := pad_to 32 k ++ pad_to 32 m;
  ed25519_Verify p m s := bool_decide (s = p ++ pad_to 32 m)
}.
Next Obligation. apply pad_to_length. Qed.
Next Obligation. apply pad_to_length. Qed.
Next Obligation. apply pad_to_length. Qed.
Next Obligation. intros. cbv beta. by rewrite List.length_app, !pad_to_length. Qed.
Next Obligation. intros. by apply bool_decide_true. Qed.

#[export] Program Instance timestamp_nanos : TimestampLib := {
  ts_New t := {| Seconds := t / 1000000000; Nanos := t mod 1000000000 |};
  ts_AsTime t := Seconds t * 1000000000 + Nanos t
}.
Next Obligation. intros. simpl. pose proof (Z_div_mod_eq_full t 1000000000). lia. Qed.

#[export] Instance proto_fields : ProtoLib := {
  proto_Marshal_Txv1 m :=
    Some (Bytes (pb_Nonce m) ++ pb_Sender m ++ pb_Recepient m ++ pb_Amount m);
  proto_Unmarshal_Txv1 _ := None
}.

(** A library that knows one Ethereum transaction, a call of a contract. *)
Definition known_eth : eth_Transaction :=
  {| eth_To := Some (replicate 20 x07); eth_Data := [xa1; xa2]; eth_ChainId := 1; eth_Nonce := 3; eth_Value := 5;
     eth_Gas := 21000; eth_GasPrice := 2; eth_V := 37; eth_R := 300; eth_S := 400; eth_other := [] |}.

#[export] Instance eth_Transaction_eq_dec : EqDecision eth_Transaction.
Proof. solve_decision. Defined.

#[export] Program Instance eth_one : EthLib := {
  eth_Hash t := pad_to 32 (eth_Data t);
  eth_SigningHash _ t := pad_to 32 (eth_Data t);
  eth_SenderOf _ t := Some (pad_to 20 (eth_Data t));
  eth_Ecrecover h _ := Some h;
  eth_VerifySignature _ _ _ := true;
  rlp_Encode t := if decide (t = known_eth) then Some [xf8] else None;
  rlp_Decode b := if decide (b = [xf8]) then Some known_eth else None
}.
Next Obligation. intros t b. simpl. case_decide as E; [|done]. intros [= <-]. by rewrite E. Qed.

(** ** Lemmas *)

Section Lemmas.
Context `{CryptoLib} `{ProtoLib} `{TimestampLib} `{EthLib}.

Lemma Txv1_Unmarshal_Marshal t : Txv1_ok t -> Txv1_UnmarshalBinary (Txv1_MarshalBinary t) = t.
Proof.
  intros (Ht & Hc & _). destruct t; unfold Txv1_UnmarshalBinary, Txv1_MarshalBinary, to_uint8; simpl in *.
  by rewrite !wrap_small, ts_AsTime_New by (simpl; lia).
Qed.

Lemma EthTx_Unmarshal_Marshal t now m :
  EthTx_MarshalBinary t now = Return m -> EthTx_UnmarshalBinary m = Return t.
Proof.
  unfold EthTx_MarshalBinary, EthTx_UnmarshalBinary.
  destruct (EthTx_GetChainType t), (EthTx_GetSenderPubKey t), (EthTx_GetSender t),
    (encodeSignature t); simpl; try done.
  destruct (rlp_Encode t) as [b|] eqn:E; [|done]. intros [= <-]. simpl.
  by rewrite (rlp_Decode_Encode _ _ E).
Qed.

Lemma EthTx_Marshal_rlp t now m :
  EthTx_MarshalBinary t now = Return m -> is_Some (pb_RlpEthTx m).
Proof.
  unfold EthTx_MarshalBinary.
  destruct (EthTx_GetChainType t), (EthTx_GetSenderPubKey t), (EthTx_GetSender t),
    (encodeSignature t), (rlp_Encode t); simpl; try done. intros [= <-]. by eexists.
Qed.

Lemma Txv1_Hash_32 t h : Txv1_Hash t = Some h -> length h = 32%nat.
Proof. unfold Txv1_Hash. case_match; [|done]. intros [= <-]. apply sha256_length. Qed.

Lemma DSA_Verify_Sign k m s :
  (length m <> 0)%nat -> DSA_Sign k m = Return s -> DSA_Verify (ed25519_Public k) s m = Return true.
Proof.
  intros Hm. unfold DSA_Sign, DSA_Verify. case_match; [|done]. intros [= <-].
  rewrite ed25519_Public_length, ed25519_Sign_length. simpl.
  destruct (Nat.eqb_spec (length m) 0); [done|]. by rewrite ed25519_Verify_Sign.
Qed.

(** The public key of a long enough signature is handed to the library, which
    panics on another length than 32. *)
Definition key_panics (t : Txv1) : bool :=
  (64 <=? length (Signature t))%nat && negb (length (Sender_Pubk t) =? 0)%nat
  && negb (length (Sender_Pubk t) =? 32)%nat && bool_decide (is_Some (Txv1_Hash (set_Signature t []))).

Lemma Txv1_Verify_panics t : Txv1_String t = Return tt ->
  if key_panics t then Txv1_Verify t = Panic else exists e, Txv1_Verify t = Return e.
Proof.
  intros Hs. unfold key_panics, Txv1_Verify. rewrite Nat.leb_antisym.
  destruct (Nat.ltb_spec (length (Signature t)) 64) as [|Hl]; simpl; [by eexists|].
  destruct (Txv1_Hash (set_Signature t [])) as [h|] eqn:Eh.
  2:{ rewrite (bool_decide_eq_false_2 (is_Some None)) by (by intros []). rewrite andb_false_r. by eexists. }
  rewrite (bool_decide_eq_true_2 (is_Some (Some h))), andb_true_r by done.
  assert (set_Signature (set_Signature t []) (Signature t) = t) as -> by (by destruct t).
  unfold DSA_Verify. rewrite (Txv1_Hash_32 _ _ Eh).
  destruct (Nat.eqb_spec (length (Sender_Pubk t)) 0); simpl; [rewrite Hs; by eexists|].
  destruct (Nat.eqb_spec (length (Signature t)) 0); [lia|]. simpl.
  destruct (Nat.eqb_spec (length (Sender_Pubk t)) 32); simpl; [|done].
  case_match; [by eexists|]. rewrite Hs. by eexists.
Qed.

(** Signing with a 32-byte seed signs the hash of the unsigned transaction. *)
(** A transaction with well-formed addresses can be printed. *)
Lemma print_tx_addressed t sb :
  GetSender t = Return sb -> length sb = 20%nat ->
  length (GetRecipient t) = 20%nat \/ length (GetRecipient t) = 0%nat -> print_tx t = Return tt.
Proof using Type.
  destruct t as [x|x]; [|done]. intros [= <-] Hs Hr.
  unfold print_tx, Txv1_String, Txv1_MarshalJSON, ZeroBytesToAddress, BytesToAddress.
  cbn in Hr. rewrite Hs. by destruct Hr as [-> | ->].
Qed.

Lemma Txv1_Sign_signature t k h :
  length k = 32%nat -> Txv1_Hash (set_Signature t []) = Some h ->
  Txv1_Sign t k = Return (set_Signature t (ed25519_Sign k h)).
Proof.
  intros Hk Hh. unfold Txv1_Sign, Txv1_generateSignature. rewrite Hh.
  unfold DSA_Sign. rewrite Hk. done.
Qed.
End Lemmas.

Lemma put_right_pad a c x :
  (length x <= 32)%nat ->
  put_right (a ++ replicate 32 x00 ++ c) (length a + 32) x = Return (a ++ LeftPadTo 32 x ++ c).
Proof.
  intros Hx. unfold put_right. destruct (Nat.ltb_spec (length a + 32) (length x)); [lia|].
  f_equal. rewrite take_app_ge by lia. rewrite take_app_le by (rewrite length_replicate; lia).
  rewrite take_replicate, Nat.min_l by lia.
  rewrite (app_assoc a), drop_app_length' by (rewrite length_app, length_replicate; lia).
  rewrite <- app_assoc. f_equal. rewrite app_assoc. f_equal.
  unfold LeftPadTo. destruct (Z.leb_spec 32 (Z.of_nat (length x))).
  - by replace (length a + 32 - length x - length a)%nat with 0%nat by lia.
  - do 2 f_equal. lia.
Qed.

(** R and S below [2 ^ 256], the two halves of an encoded signature are R and S
    padded to 32 bytes. *)
Lemma encodeSignature_eq tx :
  Z.abs (eth_R tx) < 2 ^ 256 -> Z.abs (eth_S tx) < 2 ^ 256 ->
  exists v, encodeSignature tx
  = Return (LeftPadTo 32 (Bytes (eth_R tx)) ++ LeftPadTo 32 (Bytes (eth_S tx)) ++ [v]).
Proof.
  intros HR HS.
  assert (length (Bytes (eth_R tx)) <= 32)%nat as LR by by apply Bytes_length.
  assert (length (Bytes (eth_S tx)) <= 32)%nat as LS by by apply Bytes_length.
  pose proof (LeftPadTo_length 32 (Bytes (eth_R tx))) as PR.
  pose proof (LeftPadTo_length 32 (Bytes (eth_S tx))) as PS.
  unfold encodeSignature. set (v := byte_of_Z _). exists v. clearbody v.
  change (replicate 65 x00) with ([] ++ replicate 32 x00 ++ replicate 32 x00 ++ [x00]).
  pose proof (put_right_pad [] (replicate 32 x00 ++ [x00]) (Bytes (eth_R tx)) LR) as E1.
  pose proof (put_right_pad (LeftPadTo 32 (Bytes (eth_R tx))) [x00] (Bytes (eth_S tx)) LS) as E2.
  rewrite PR in E2. replace (Z.to_nat 32 `max` _ + 32)%nat with 64%nat in E2 by lia.
  change (length [] + 32)%nat with 32%nat in E1.
  rewrite E1, app_nil_l. cbv beta iota delta [outcome_bind]. rewrite E2. f_equal.
  rewrite app_assoc, insert_app_r_alt by (rewrite !length_app; simpl; lia).
  rewrite !length_app, <- app_assoc. simpl length. do 2 f_equal.
  by replace (64 - _)%nat with 0%nat by lia.
Qed.

Lemma SetBytes_cons x b :
  SetBytes (x :: b) = byte_to_Z x * 256 ^ Z.of_nat (length b) + SetBytes b.
Proof.
  induction b as [|y b IH] using rev_ind; [unfold SetBytes; simpl; lia|].
  rewrite app_comm_cons, !SetBytes_snoc, IH, length_app. simpl length.
  rewrite Nat.add_1_r, Nat2Z.inj_succ, Z.pow_succ_r by lia. lia.
Qed.

(** The scan skips the zeros and the first non-zero byte with them. *)
Lemma skip_to_nonzero_lt b :
  SetBytes b <> 0 -> exists r, skip_to_nonzero b = Some r /\ SetBytes r < SetBytes b.
Proof.
  induction b as [|x b IH]; [done|]. intros Hne. simpl.
  rewrite SetBytes_cons in *. case_decide as Hx.
  - subst x. change (byte_to_Z x00) with 0 in *.
    destruct IH as (r & -> & Hr); [lia|]. exists r. split; [done|lia].
  - exists b. split; [done|].
    assert (byte_to_Z x <> 0).
    { intros E. apply Hx. by rewrite <- (byte_of_to_Z x), E. }
    pose proof (byte_to_Z_range x). assert (0 < 256 ^ Z.of_nat (length b)) by lia. nia.
Qed.

Lemma TimestampSeq_next last clock :
  0 <= last < 2 ^ 64 - 1 -> last < TimestampSeq last clock < 2 ^ 64.
Proof.
  intros Hl. unfold TimestampSeq, to_uint64. pose proof (wrap_range 64 clock ltac:(lia)).
  destruct (Z.leb_spec (wrap 64 clock) last); [|lia]. rewrite wrap_small; lia.
Qed.

(** What [MarshalBinary] builds, [UnmarshalBinary] reads back. *)
Lemma Unmarshal_MarshalBinary `{CryptoLib} `{ProtoLib} `{TimestampLib} `{EthLib}
    (tx : Transaction) (now : Z) (m : pb_Txv1) :
  match tx with ATxv1 t => Txv1_ok t | AnEthTx _ => True end ->
  MarshalBinary tx now = Return m -> UnmarshalBinary m = Return tx.
Proof.
  destruct tx as [t|t]; simpl.
  - intros Hok [= <-]. unfold UnmarshalBinary. simpl. by rewrite Txv1_Unmarshal_Marshal.
  - intros _ Hm. destruct (EthTx_Marshal_rlp _ _ _ Hm) as [b Hb].
    unfold UnmarshalBinary. rewrite Hb. by rewrite (EthTx_Unmarshal_Marshal _ _ _ Hm).
Qed.

(** The message shows what the accessors of the transaction return. *)
Record message_of `{CryptoLib} `{ProtoLib} `{TimestampLib} `{EthLib} (tx : Transaction) (m : pb_Txv1) : Prop := {
  mo_type : pb_TxType m = GetTransactionType tx;
  mo_chain : GetChainType tx = Return (pb_ChainType m);
  mo_sender : GetSender tx = Return (pb_Sender m);
  mo_recipient : pb_Recepient m = GetRecipient tx;
  mo_amount : SetBytes (pb_Amount m) = Z.abs (GetAmount tx);
  mo_fuel_limit : SetBytes (pb_FuelLimit m) = Z.abs (GetFuelLimit tx);
  mo_fuel_price : SetBytes (pb_FuelPrice m) = Z.abs (GetFuelPrice tx);
  mo_nonce : pb_Nonce m = GetNonce tx;
  mo_data : pb_Data m = GetData tx
}.

Lemma MarshalBinary_message `{CryptoLib} `{ProtoLib} `{TimestampLib} `{EthLib} tx now m :
  MarshalBinary tx now = Return m -> message_of tx m.
Proof.
  destruct tx as [t|t]; simpl.
  - intros [= <-]. unfold Txv1_MarshalBinary. split; simpl; try done; by rewrite Z.abs_eq by apply SetBytes_nonneg.
  - unfold EthTx_MarshalBinary. destruct (EthTx_GetChainType t) as [ct|] eqn:Ec; [|done].
    destruct (EthTx_GetSenderPubKey t) as [pk|]; [|done]. destruct (EthTx_GetSender t) as [snd_|] eqn:Es; [|done].
    destruct (encodeSignature t) as [sig|]; [|done]. simpl. destruct (rlp_Encode t) as [b|]; [|done].
    intros [= <-]. split; simpl; try done; apply SetBytes_Bytes.
Qed.

(** ** Properties *)

(** C32: a transaction survives the wire message. Whatever [MarshalBinary]
    builds for a native transaction whose type, network and nonce fit their
    widths, or for an Ethereum transaction that the RLP library encodes, shows
    the type, network, sender, recipient, amount, fuel, nonce and data that the
    transaction has (amounts without their sign), and [UnmarshalBinary] reads
    back the same transaction, of the same kind. *)
Theorem transaction_roundtrip `{CryptoLib} `{ProtoLib} `{TimestampLib} `{EthLib}
    (tx : Transaction) (now : Z) (m : pb_Txv1) :
  match tx with ATxv1 t => Txv1_ok t | AnEthTx _ => True end ->
  MarshalBinary tx now = Return m ->
  UnmarshalBinary m = Return tx /\ message_of tx m.
Proof. intros Hok Hm. split; [by eapply Unmarshal_MarshalBinary|by eapply MarshalBinary_message]. Qed.

Lemma transaction_roundtrip_witness :
  UnmarshalBinary (Txv1_MarshalBinary (NewTxv1 PRIVATE_TESTNET))
  = Return (ATxv1 (NewTxv1 PRIVATE_TESTNET))
  /\ exists m, MarshalBinary (AnEthTx known_eth) 0 = Return m /\ UnmarshalBinary m = Return (AnEthTx known_eth)
     /\ pb_Recepient m = replicate 20 x07 /\ SetBytes (pb_Amount m) = 5.
Proof.
  split.
  - apply (transaction_roundtrip (ATxv1 (NewTxv1 PRIVATE_TESTNET)) 0); [|reflexivity].
    repeat split; vm_compute; congruence.
  - destruct (MarshalBinary (AnEthTx known_eth) 0) as [m|] eqn:E; [|vm_compute in E; discriminate E].
    exists m. split; [done|].
    destruct (transaction_roundtrip (AnEthTx known_eth) 0 m I E) as [Hu [_ _ _ Hr Ha _ _ _ _]].
    by rewrite Hu, Hr, Ha.
Defined.

(** A transaction signed with a wallet's 32-byte seed and carrying the
    matching public key verifies, and verifying leaves it as it was; a
    transaction whose signature is shorter than 64 bytes is refused. *)
Theorem sign_then_verify `{CryptoLib} `{ProtoLib} `{TimestampLib}
    (t : Txv1) (k h : bytes) :
  length k = 32%nat -> Sender_Pubk t = ed25519_Public k ->
  Txv1_Hash (set_Signature t []) = Some h ->
  exists t', Txv1_Sign t k = Return t' /\ Txv1_Verify t' = Return (t', None)
  /\ (forall s, (length s < 64)%nat ->
        Txv1_Verify (set_Signature t s) = Return (set_Signature t s, Some (ErrSignatureLength (length s)))).
Proof.
  intros Hk Hp Hh. exists (set_Signature t (ed25519_Sign k h)).
  split; [by apply Txv1_Sign_signature|]. split.
  - unfold Txv1_Verify. simpl. rewrite ed25519_Sign_length. simpl.
    change (set_Signature (set_Signature t (ed25519_Sign k h)) []) with (set_Signature t []).
    rewrite Hh. simpl. rewrite Hp, (DSA_Verify_Sign k h); [done| |by unfold DSA_Sign; rewrite Hk].
    by rewrite (Txv1_Hash_32 _ _ Hh).
  - intros s Hs. unfold Txv1_Verify. simpl. by apply Nat.ltb_lt in Hs as ->.
Qed.

Lemma sign_then_verify_witness :
  exists t', Txv1_Sign {| Tx_Type := PAYMENT; Chain_Type := PRIVATE_TESTNET;
    Sender_Pubk := replicate 32 x01; Sender := replicate 20 x02; Recepient := replicate 20 x03;
    Amount := [x05]; Nonce := 9; TimestampOf := 0; Fuel_Limit := []; Fuel_Price := [];
    Data := None; Signature := [] |} (replicate 32 x01) = Return t'
  /\ Txv1_Verify t' = Return (t', None).
Proof.
  edestruct (sign_then_verify {| Tx_Type := PAYMENT; Chain_Type := PRIVATE_TESTNET;
    Sender_Pubk := replicate 32 x01; Sender := replicate 20 x02; Recepient := replicate 20 x03;
    Amount := [x05]; Nonce := 9; TimestampOf := 0; Fuel_Limit := []; Fuel_Price := [];
    Data := None; Signature := [] |} (replicate 32 x01)) as (t' & E & V & _);
    [reflexivity|reflexivity|reflexivity|].
  exists t'. split; [exact E|exact V].
Defined.

(** Sequence numbers strictly increase whatever the clock does: while the
    last number is below the maximum, every call returns a larger number, a
    uint64, which is the new last one. *)
Theorem TimestampSeq_increasing (last : Z) (clocks : list Z) :
  0 <= last -> last + Z.of_nat (length clocks) < 2 ^ 64 ->
  Forall (fun c => 0 <= c /\ c + Z.of_nat (length clocks) < 2 ^ 64) clocks ->
  Sorted Z.lt (last :: TimestampSeqs last clocks)
  /\ Forall (fun n => 0 <= n < 2 ^ 64) (TimestampSeqs last clocks).
Proof.
  revert last. induction clocks as [|c cs IH]; intros last H0 Hl Hc; simpl.
  - split; [by repeat constructor|constructor].
  - apply Forall_cons in Hc as [[Hc1 Hc2] Hc]. simpl length in *.
    pose proof (TimestampSeq_next last c ltac:(lia)) as Hn.
    assert (Hb : TimestampSeq last c + Z.of_nat (length cs) < 2 ^ 64).
    { unfold TimestampSeq, to_uint64. rewrite (wrap_small 64 c) by lia.
      case_match; rewrite ?wrap_small; lia. }
    destruct (IH (TimestampSeq last c)) as [Hs Hr]; [lia|done| |].
    + eapply Forall_impl; [exact Hc|]. simpl. lia.
    + split; constructor; auto; [|lia]. constructor. lia.
Qed.

Lemma TimestampSeq_increasing_witness :
  Sorted Z.lt (5 :: TimestampSeqs 5 [3; 9; 9; 2]) /\ TimestampSeqs 5 [3; 9; 9; 2] = [6; 9; 10; 11].
Proof.
  split; [|reflexivity].
  apply (TimestampSeq_increasing 5 [3; 9; 9; 2]); [lia|simpl; lia|].
  repeat constructor; simpl; lia.
Defined.

(** [DecodeSignature] does not undo [encodeSignature]: for R and S other
    than zero and below [2 ^ 256], the r and s it returns are smaller than R
    and S, since it drops the first non-zero byte of each half. *)
Theorem DecodeSignature_drops_a_byte (tx : EthTx) (chainId : Z) :
  0 < eth_R tx < 2 ^ 256 -> 0 < eth_S tx < 2 ^ 256 ->
  exists sig r s v, encodeSignature tx = Return sig
  /\ DecodeSignature sig chainId = Return (r, s, v)
  /\ SetBytes r < eth_R tx /\ SetBytes s < eth_S tx.
Proof.
  intros HR HS. destruct (encodeSignature_eq tx) as [v E]; [lia|lia|].
  set (R := LeftPadTo 32 (Bytes (eth_R tx))) in *.
  set (S_ := LeftPadTo 32 (Bytes (eth_S tx))) in *.
  assert (VR : SetBytes R = eth_R tx) by (unfold R; go_laws; lia).
  assert (VS : SetBytes S_ = eth_S tx) by (unfold S_; go_laws; lia).
  assert (LR : length R = 32%nat) by (apply (LeftPadTo_Bytes_length 32); simpl; lia).
  assert (LS : length S_ = 32%nat) by (apply (LeftPadTo_Bytes_length 32); simpl; lia).
  destruct (skip_to_nonzero_lt R) as (r & Er & Hr); [lia|].
  destruct (skip_to_nonzero_lt S_) as (s & Es & Hs); [lia|].
  eexists _, r, s, _. split; [exact E|]. split; [|lia].
  unfold DecodeSignature. rewrite !length_app, LR, LS. simpl.
  rewrite take_app_length', drop_app_length', take_app_length' by done.
  by rewrite Er, Es.
Qed.

Lemma DecodeSignature_drops_a_byte_witness :
  exists sig r s v, encodeSignature {| eth_To := None; eth_Data := []; eth_ChainId := 3;
    eth_Nonce := 0; eth_Value := 0; eth_Gas := 0; eth_GasPrice := 0; eth_V := 41;
    eth_R := 77; eth_S := 300; eth_other := [] |} = Return sig
  /\ DecodeSignature sig 3 = Return (r, s, v) /\ SetBytes r < 77 /\ SetBytes s < 300.
Proof.
  apply (DecodeSignature_drops_a_byte {| eth_To := None; eth_Data := []; eth_ChainId := 3;
    eth_Nonce := 0; eth_Value := 0; eth_Gas := 0; eth_GasPrice := 0; eth_V := 41;
    eth_R := 77; eth_S := 300; eth_other := [] |} 3); simpl; lia.
Defined.
