(* ===== verification/TxRecords.v ===== *)
(** The records peers exchange: [tx/ids.go], [tx/edge.go], [tx/vertex.go],
    [tx/sync.go] and the envelope record of [tx/grapetx.go], each with its
    conversion to and from its protobuf message. *)
From Stdlib Require Export Floats.SpecFloat.
From S2P Require Import Prelude GoLib Bytes Tx.

Abbreviation float64 := spec_float (only parsing).

(** [u.UnmarshalBinary(b)] keeps [u] when [b] is not 16 bytes long. *)
Definition uuid_UnmarshalBinary (u : uuid) (b : bytes) : uuid := default u (uuid_FromBytes b).

(** ** ids.go *)

Record UuidSlice := { Is_empty : bool; us_Id : uuid }.
Record Ids := { IDs : list UuidSlice; Signatures : gmap string bytes }.
Record pb_UuidSlice := { pb_IsEmpty : bool; pb_Uuid : bytes }.
Record pb_Ids := { pb_Ids_ : list pb_UuidSlice; pb_Signatures : gmap string bytes }.

(** ** edge.go *)

Record Edge := { e_Vertex : uuid; e_Edges : list uuid }.
Record pb_Edge := { pb_e_Tx : bytes; pb_e_Edges : list bytes }.

Section IdsEdge.
Context `{Goterators}.

Definition Ids_MarshalBinary (ids : Ids) : pb_Ids :=
  gt_ForEach (fun p slice =>
      {| pb_Ids_ := pb_Ids_ p ++ [{| pb_IsEmpty := Is_empty slice;
                                     pb_Uuid := uuid_bytes (us_Id slice) |}];
         pb_Signatures := pb_Signatures p |})
    (IDs ids) {| pb_Ids_ := []; pb_Signatures := Signatures ids |}.

Definition Ids_UnmarshalBinary (ids : Ids) (p : pb_Ids) : Ids :=
  gt_ForEach (fun ids pbid =>
      let slice :=
        if negb (pb_IsEmpty pbid) then
          match uuid_FromBytes (pb_Uuid pbid) with
          | Some id => {| Is_empty := false; us_Id := id |}
          | None => {| Is_empty := true; us_Id := uuid_Nil |}
          end
        else {| Is_empty := true; us_Id := uuid_Nil |} in
      {| IDs := IDs ids ++ [slice]; Signatures := Signatures ids |})
    (pb_Ids_ p) {| IDs := IDs ids; Signatures := pb_Signatures p |}.

Definition Edge_MarshalBinary (edge : Edge) : pb_Edge :=
  gt_ForEach (fun p id => {| pb_e_Tx := pb_e_Tx p; pb_e_Edges := pb_e_Edges p ++ [uuid_bytes id] |})
    (e_Edges edge) {| pb_e_Tx := uuid_bytes (e_Vertex edge); pb_e_Edges := [] |}.

(** [id, _ := uuid.FromBytes(e)]: an edge that is not a uuid becomes [uuid.Nil]. *)
Definition Edge_UnmarshalBinary (edge : Edge) (p : pb_Edge) : Edge :=
  gt_ForEach (fun edge e =>
      {| e_Vertex := e_Vertex edge;
         e_Edges := e_Edges edge ++ [default uuid_Nil (uuid_FromBytes e)] |})
    (pb_e_Edges p)
    {| e_Vertex := uuid_UnmarshalBinary (e_Vertex edge) (pb_e_Tx p); e_Edges := e_Edges edge |}.
End IdsEdge.

(** ** vertex.go *)

Record VertexId := { v_Id : uuid; v_Address : string; v_IdMajor : Z; v_IdMinor : Z }.
Record pb_VertexId :=
  { pb_v_Id : bytes; pb_v_Address : string; pb_v_IdMajor : Z; pb_v_IdMinor : Z }.

Definition VertexId_MarshalBinary (v : VertexId) : pb_VertexId :=
  {| pb_v_Id := uuid_bytes (v_Id v); pb_v_Address := v_Address v;
     pb_v_IdMajor := v_IdMajor v; pb_v_IdMinor := v_IdMinor v |}.

Definition VertexId_UnmarshalBinary (p : pb_VertexId) : VertexId :=
  {| v_Id := default uuid_Nil (uuid_FromBytes (pb_v_Id p)); v_Address := pb_v_Address p;
     v_IdMajor := pb_v_IdMajor p; v_IdMinor := pb_v_IdMinor p |}.

Record Vertex := {
  v_VertexId : VertexId; v_CumWeight : float64; v_TxWeight : float64;
  v_Timestamp : Z; v_Tx : Transaction
}.
Record pb_Vertex := {
  pb_v_VertexId : pb_VertexId; pb_v_CumWeight : float64; pb_v_TxWeight : float64;
  pb_v_Timestamp : option Timestamp; pb_v_Tx : pb_Txv1
}.

Section VertexCodec.
Context `{CryptoLib} `{ProtoLib} `{TimestampLib} `{EthLib}.

Definition Vertex_MarshalBinary (v : Vertex) (now : Z) : outcome pb_Vertex :=
  let! t := MarshalBinary (v_Tx v) now in
  Return {| pb_v_VertexId := VertexId_MarshalBinary (v_VertexId v);
            pb_v_CumWeight := v_CumWeight v; pb_v_TxWeight := v_TxWeight v;
            pb_v_Timestamp := None; pb_v_Tx := t |}.

(** The transaction already in the vertex decides how the message is read. *)
Definition Vertex_UnmarshalBinary (v : Vertex) (p : pb_Vertex) : outcome Vertex :=
  let! t := match v_Tx v with
            | ATxv1 _ => Return (ATxv1 (Txv1_UnmarshalBinary (pb_v_Tx p)))
            | AnEthTx _ => let! e := EthTx_UnmarshalBinary (pb_v_Tx p) in Return (AnEthTx e)
            end in
  Return {| v_VertexId := VertexId_UnmarshalBinary (pb_v_VertexId p);
            v_CumWeight := pb_v_CumWeight p; v_TxWeight := pb_v_TxWeight p;
            v_Timestamp := v_Timestamp v; v_Tx := t |}.
End VertexCodec.

(** ** sync.go *)

Definition INITIAL := 0.
Definition SITE := 1.
Definition CURRENT := 2.
Definition GENESIS := 3.
Definition ALL := 4.
Definition LATEST := 5.
Definition MISSING := 6.

Definition STX_REQUEST := 0.
Definition STX_RESPONSE := 1.
Definition STX_VOTE_REQUEST := 2.
Definition STX_VOTE_RESPONSE := 3.
Definition STX_ANNOUNCE := 4.
Definition STX_UPDATE := 5.
Definition STX_STOP := 6.
Definition STX_PIN_REQUEST := 7.
Definition STX_PIN_RESPONSE := 8.
Definition STX_SITE_REQUEST := 9.
Definition STX_SITE_RESPONSE := 10.
Definition STX_SNAPSHOT_BALANCE_REQUEST := 11.
Definition STX_SNAPSHOT_BALANCE_RESPONSE := 12.
Definition STX_PIN_DOWNLOAD_REQUEST := 13.
Definition STX_PIN_DOWNLOAD_RESPONSE := 14.

Definition SyncType_String (e : Z) : outcome string :=
  match ["INITIAL"; "SITE"; "CURRENT"; "GENESIS"; "ALL"; "LATEST"; "MISSING"]%string
          !! Z.to_nat e with
  | Some s => Return s | None => Panic end.

Definition SyncMsgType_String (e : Z) : outcome string :=
  match ["STX_REQUEST"; "STX_RESPONSE"; "STX_VOTE_REQUEST"; "STX_VOTE_RESPONSE";
         "STX_ANNOUNCE"; "STX_UPDATE"; "STX_STOP"; "STX_PIN_REQUEST"; "STX_PIN_RESPONSE";
         "STX_SITE_REQUEST"; "STX_SITE_RESPONSE"; "STX_SNAPSHOT_BALANCE_REQUEST";
         "STX_SNAPSHOT_BALANCE_RESPONSE"; "STX_PIN_DOWNLOAD_REQUEST";
         "STX_PIN_DOWNLOAD_RESPONSE"]%string !! Z.to_nat e with
  | Some s => Return s | None => Panic end.

(** A message of any type, as [anypb.Any] carries it. *)
Record Any := { TypeUrl : string; Value : bytes }.

Record Syncv1 := {
  Ver_type : Z; Sync_Type : Z; Msg_Type : Z; Tracking_Id : uuid; s_Sender_Pubk : bytes;
  s_Timestamp : Z; s_Data : option bytes; Details : list Any; SyncHash : bytes;
  s_Signature : bytes
}.
Record pb_Syncv1 := {
  pb_Ver : Z; pb_SyncType : Z; pb_MsgType : Z; pb_TrackingId : bytes; pb_s_SenderPubk : bytes;
  pb_s_Timestamp : option Timestamp; pb_s_Data : option bytes; pb_Details : list Any;
  pb_SyncHash : bytes; pb_s_Signature : bytes
}.

Definition Syncv1_ok (t : Syncv1) : Prop :=
  0 <= Ver_type t < 256 /\ 0 <= Sync_Type t < 256 /\ 0 <= Msg_Type t < 256
  /\ uuid_ok (Tracking_Id t).

(** [id] and [now] are what [uuid.New] and [time.Now] return. *)
Definition NewSyncv1 (id : uuid) (now : Z) : Syncv1 :=
  {| Ver_type := 0; Sync_Type := 0; Msg_Type := 0; Tracking_Id := id; s_Sender_Pubk := [];
     s_Timestamp := now; s_Data := None; Details := []; SyncHash := []; s_Signature := [] |}.

Definition NewSyncv1Stop (id : uuid) (now : Z) : Syncv1 :=
  {| Ver_type := 0; Sync_Type := 0; Msg_Type := STX_STOP; Tracking_Id := id;
     s_Sender_Pubk := []; s_Timestamp := now; s_Data := None; Details := []; SyncHash := [];
     s_Signature := [] |}.

Section SyncCodec.
Context `{TimestampLib}.

Definition Syncv1_MarshalBinary (t : Syncv1) : pb_Syncv1 :=
  {| pb_Ver := Ver_type t; pb_SyncType := Sync_Type t; pb_MsgType := Msg_Type t;
     pb_TrackingId := uuid_bytes (Tracking_Id t); pb_s_SenderPubk := s_Sender_Pubk t;
     pb_s_Timestamp := Some (ts_New (s_Timestamp t)); pb_s_Data := s_Data t;
     pb_Details := Details t; pb_SyncHash := SyncHash t; pb_s_Signature := s_Signature t |}.

Definition Syncv1_UnmarshalBinary (p : pb_Syncv1) : Syncv1 :=
  {| Ver_type := to_uint8 (pb_Ver p); Sync_Type := to_uint8 (pb_SyncType p);
     Msg_Type := to_uint8 (pb_MsgType p);
     Tracking_Id := uuid_UnmarshalBinary uuid_Nil (pb_TrackingId p);
     s_Sender_Pubk := pb_s_SenderPubk p; s_Timestamp := AsTime (pb_s_Timestamp p);
     s_Data := pb_s_Data p; Details := pb_Details p; SyncHash := pb_SyncHash p;
     s_Signature := pb_s_Signature p |}.

Definition Syncv1_ToProtobuf (r : Syncv1) : pb_Syncv1 :=
  {| pb_Ver := Ver_type r; pb_SyncType := Sync_Type r; pb_MsgType := Msg_Type r;
     pb_TrackingId := uuid_bytes (Tracking_Id r); pb_s_SenderPubk := s_Sender_Pubk r;
     pb_s_Timestamp := Some (ts_New (s_Timestamp r)); pb_s_Data := s_Data r;
     pb_Details := Details r; pb_SyncHash := []; pb_s_Signature := s_Signature r |}.

Definition Syncv1FromProtobuf (msg : pb_Syncv1) : Syncv1 :=
  {| Ver_type := to_uint8 (pb_Ver msg); Sync_Type := to_uint8 (pb_SyncType msg);
     Msg_Type := to_uint8 (pb_MsgType msg);
     Tracking_Id := uuid_UnmarshalBinary uuid_Nil (pb_TrackingId msg);
     s_Sender_Pubk := pb_s_SenderPubk msg; s_Timestamp := AsTime (pb_s_Timestamp msg);
     s_Data := pb_s_Data msg; Details := pb_Details msg; SyncHash := [];
     s_Signature := pb_s_Signature msg |}.
End SyncCodec.

(** The libp2p keys of the peers. *)
Class PeerKeys := {
  pk_Sign : bytes -> bytes -> option bytes;
  pk_Verify : bytes -> bytes -> bytes -> option bool
}.

(** The signature covers the data only. *)
Definition Syncv1_GenerateSignature `{CryptoLib} `{PeerKeys} (t : Syncv1) (pk : bytes)
  : Syncv1 * option bytes :=
  let sig := pk_Sign pk (sha256 (default [] (s_Data t))) in
  ({| Ver_type := Ver_type t; Sync_Type := Sync_Type t; Msg_Type := Msg_Type t;
      Tracking_Id := Tracking_Id t; s_Sender_Pubk := s_Sender_Pubk t;
      s_Timestamp := s_Timestamp t; s_Data := s_Data t; Details := Details t;
      SyncHash := SyncHash t; s_Signature := default [] sig |}, sig).

(** [None] is the error. *)
Definition Syncv1_VerifySignature `{CryptoLib} `{PeerKeys} (t : Syncv1) (pk : bytes)
  : option bool :=
  pk_Verify pk (sha256 (default [] (s_Data t))) (s_Signature t).

(** ** grapetx.go *)

Class PeerLib := {
  peer_MarshalBinary : string -> option bytes;
  peer_UnmarshalText : bytes -> option string;
  base58_Encode : bytes -> string;
  base58_Decode : string -> option bytes;
  ma_NewMultiaddrBytes : bytes -> option bytes;
  base58_roundtrip : forall b, base58_Decode (base58_Encode b) = Some b
}.

Record GrapeTx := {
  PeerID : string; Seq : Z; g_Tx : bytes; Addrs : list bytes; Version : Z; g_Ids : Ids;
  g_Transaction : option Transaction; TxIdMajor : Z; TxIdMinor : Z; TxIdId : uuid
}.
Record pb_GrapeTxRecord := {
  pb_PeerId : bytes; pb_Seq : Z; pb_g_Tx : string; pb_Addresses : list bytes; pb_Version : Z;
  pb_g_Ids : pb_Ids; pb_g_Transaction : pb_Txv1; pb_Txidmajor : Z; pb_Txidminor : Z;
  pb_Txidid : bytes
}.
Definition TVX1 := 1.

Section GrapeTx.
Context `{Goterators} `{CryptoLib} `{ProtoLib} `{TimestampLib} `{EthLib} `{PeerLib}.

Fixpoint addrsFromProtobuf (addrs : list bytes) : list bytes :=
  match addrs with
  | [] => []
  | a :: rest => match ma_NewMultiaddrBytes a with
                 | None => addrsFromProtobuf rest
                 | Some x => x :: addrsFromProtobuf rest
                 end
  end.

(** [None] is the error of a peer id that cannot be marshalled; a record
    without a transaction panics. *)
Definition GrapeTx_ToProtobuf (r : GrapeTx) (now : Z) : outcome (option pb_GrapeTxRecord) :=
  match peer_MarshalBinary (PeerID r) with
  | None => Return None
  | Some idBytes =>
      match g_Transaction r with
      | None => Panic
      | Some t =>
          let! m := MarshalBinary t now in
          Return (Some {| pb_PeerId := idBytes; pb_Seq := Seq r;
                          pb_g_Tx := base58_Encode (g_Tx r); pb_Addresses := Addrs r;
                          pb_Version := Version r; pb_g_Ids := Ids_MarshalBinary (g_Ids r);
                          pb_g_Transaction := m; pb_Txidmajor := TxIdMajor r;
                          pb_Txidminor := TxIdMinor r; pb_Txidid := uuid_bytes (TxIdId r) |})
      end
  end.

Definition GrapeTxFromProtobuf (msg : pb_GrapeTxRecord) : outcome GrapeTx :=
  let version := to_uint8 (pb_Version msg) in
  let! t := if version =? TVX1 then
              let! t := UnmarshalBinary (pb_g_Transaction msg) in Return (Some t)
            else Return None in
  Return {| PeerID := default ""%string (peer_UnmarshalText (pb_PeerId msg));
            Seq := pb_Seq msg;
            g_Tx := default [] (base58_Decode (pb_g_Tx msg));
            Addrs := addrsFromProtobuf (pb_Addresses msg); Version := version;
            g_Ids := Ids_UnmarshalBinary {| IDs := []; Signatures := ∅ |} (pb_g_Ids msg);
            g_Transaction := t; TxIdMajor := pb_Txidmajor msg; TxIdMinor := pb_Txidminor msg;
            TxIdId := uuid_UnmarshalBinary uuid_Nil (pb_Txidid msg) |}.
End GrapeTx.

(** [Equal] compares the peer, the sequence number and the addresses only. *)
Definition GrapeTx_Equal (r other : option GrapeTx) : outcome bool :=
  match other with
  | None => Return (bool_decide (r = None))
  | Some o =>
      match r with
      | None => Panic
      | Some r =>
          if negb (bool_decide (PeerID r = PeerID o)) then Return false
          else if negb (Seq r =? Seq o) then Return false
          else if negb (length (Addrs r) =? length (Addrs o))%nat then Return false
          else Return (forallb (fun p => bool_decide (fst p = snd p)) (combine (Addrs r) (Addrs o)))
      end
  end.

(** ** Round trips *)

Lemma uuid_UnmarshalBinary_bytes u id : uuid_ok id -> uuid_UnmarshalBinary u (uuid_bytes id) = id.
Proof. intros Hok. unfold uuid_UnmarshalBinary. by rewrite uuid_FromBytes_bytes. Qed.

(** An empty slice carries [uuid.Nil], as the code that builds them does. *)
Definition UuidSlice_ok (s : UuidSlice) : Prop :=
  uuid_ok (us_Id s) /\ (Is_empty s = true -> us_Id s = uuid_Nil).

Section Roundtrips.
Context `{Goterators}.

Lemma Ids_MarshalBinary_eq ids :
  Ids_MarshalBinary ids
  = {| pb_Ids_ := map (fun s => {| pb_IsEmpty := Is_empty s; pb_Uuid := uuid_bytes (us_Id s) |})
                    (IDs ids);
       pb_Signatures := Signatures ids |}.
Proof.
  unfold Ids_MarshalBinary. go_laws. destruct ids as [l sg]; simpl.
  match goal with |- fold_left ?f _ _ = _ =>
    enough (E : forall acc, fold_left f l {| pb_Ids_ := acc; pb_Signatures := sg |}
      = {| pb_Ids_ := acc ++ map (fun s => {| pb_IsEmpty := Is_empty s;
                                              pb_Uuid := uuid_bytes (us_Id s) |}) l;
           pb_Signatures := sg |}) by apply (E []) end.
  induction l as [|s l IH]; intros acc; simpl; [by rewrite app_nil_r|].
  rewrite IH. simpl. by rewrite <- app_assoc.
Qed.

Lemma Ids_UnmarshalBinary_acc l : forall acc sg,
  Forall UuidSlice_ok l ->
  Ids_UnmarshalBinary {| IDs := acc; Signatures := sg |}
    {| pb_Ids_ := map (fun s => {| pb_IsEmpty := Is_empty s; pb_Uuid := uuid_bytes (us_Id s) |}) l;
       pb_Signatures := sg |}
  = {| IDs := acc ++ l; Signatures := sg |}.
Proof.
  unfold Ids_UnmarshalBinary. intros acc sg Hl. go_laws. simpl.
  revert acc; induction Hl as [|s l [Hok He] Hl IH]; intros acc; simpl; [by rewrite app_nil_r|].
  assert ((if negb (Is_empty s) then _ else _) = s) as ->.
  { destruct s as [[] id]; simpl in *; [by rewrite He|].
    by rewrite uuid_FromBytes_bytes. }
  rewrite IH, <- app_assoc. done.
Qed.

Lemma Ids_roundtrip ids :
  Forall UuidSlice_ok (IDs ids) ->
  Ids_UnmarshalBinary {| IDs := []; Signatures := ∅ |} (Ids_MarshalBinary ids) = ids.
Proof.
  intros Hok. rewrite Ids_MarshalBinary_eq.
  pose proof (Ids_UnmarshalBinary_acc (IDs ids) [] (Signatures ids) Hok) as E.
  destruct ids; exact E.
Qed.

Lemma Edge_MarshalBinary_eq e :
  Edge_MarshalBinary e
  = {| pb_e_Tx := uuid_bytes (e_Vertex e); pb_e_Edges := map uuid_bytes (e_Edges e) |}.
Proof.
  unfold Edge_MarshalBinary. go_laws. destruct e as [v l]; simpl.
  match goal with |- fold_left ?f _ _ = _ =>
    enough (E : forall acc, fold_left f l {| pb_e_Tx := uuid_bytes v; pb_e_Edges := acc |}
      = {| pb_e_Tx := uuid_bytes v; pb_e_Edges := acc ++ map uuid_bytes l |}) by apply (E []) end.
  induction l as [|s l IH]; intros acc; simpl; [by rewrite app_nil_r|].
  rewrite IH. simpl. by rewrite <- app_assoc.
Qed.

Lemma Edge_UnmarshalBinary_eq e p :
  Edge_UnmarshalBinary e p
  = {| e_Vertex := uuid_UnmarshalBinary (e_Vertex e) (pb_e_Tx p);
       e_Edges := e_Edges e ++ map (fun b => default uuid_Nil (uuid_FromBytes b)) (pb_e_Edges p) |}.
Proof.
  unfold Edge_UnmarshalBinary. go_laws. destruct e as [v acc], p as [t l]; simpl.
  generalize (uuid_UnmarshalBinary v t) as u. revert acc.
  induction l as [|s l IH]; intros acc u; simpl; [by rewrite app_nil_r|].
  rewrite IH, <- app_assoc. done.
Qed.
End Roundtrips.

(** ** Properties *)

(** An edge record survives its message: for uuids of 16 bytes,
    unmarshalling into a fresh record what [MarshalBinary] built gives the
    vertex and all its edges in order. *)
Theorem edge_roundtrip `{Goterators} (v : uuid) (edges : list uuid) :
  uuid_ok v -> Forall uuid_ok edges ->
  Edge_UnmarshalBinary {| e_Vertex := uuid_Nil; e_Edges := [] |}
    (Edge_MarshalBinary {| e_Vertex := v; e_Edges := edges |})
  = {| e_Vertex := v; e_Edges := edges |}.
Proof.
  intros Hv He. rewrite Edge_UnmarshalBinary_eq, Edge_MarshalBinary_eq. simpl.
  rewrite uuid_UnmarshalBinary_bytes by done. f_equal.
  induction He as [|x l Hx He IH]; simpl; [done|].
  rewrite IH. by rewrite uuid_FromBytes_bytes.
Qed.

Lemma edge_roundtrip_witness :
  Edge_UnmarshalBinary {| e_Vertex := uuid_Nil; e_Edges := [] |}
    (Edge_MarshalBinary {| e_Vertex := 5%N; e_Edges := [7%N; 9%N] |})
  = {| e_Vertex := 5%N; e_Edges := [7%N; 9%N] |}.
Proof. apply (edge_roundtrip 5%N [7%N; 9%N]); repeat constructor. Defined.

(** A sync message survives [MarshalBinary]/[UnmarshalBinary] whole, but
    the record conversion peers use, [ToProtobuf]/[Syncv1FromProtobuf], loses
    the [SyncHash] and nothing else. *)
Theorem syncv1_roundtrip `{TimestampLib} (t : Syncv1) :
  Syncv1_ok t ->
  Syncv1_UnmarshalBinary (Syncv1_MarshalBinary t) = t
  /\ Syncv1FromProtobuf (Syncv1_ToProtobuf t)
     = {| Ver_type := Ver_type t; Sync_Type := Sync_Type t; Msg_Type := Msg_Type t;
          Tracking_Id := Tracking_Id t; s_Sender_Pubk := s_Sender_Pubk t;
          s_Timestamp := s_Timestamp t; s_Data := s_Data t; Details := Details t;
          SyncHash := []; s_Signature := s_Signature t |}.
Proof.
  intros (Hv & Hs & Hm & Hid). destruct t; simpl in *.
  unfold Syncv1_UnmarshalBinary, Syncv1FromProtobuf, to_uint8; simpl.
  by rewrite !wrap_small, ts_AsTime_New, uuid_UnmarshalBinary_bytes by (simpl; lia || done).
Qed.

Lemma syncv1_roundtrip_witness :
  Syncv1_UnmarshalBinary (Syncv1_MarshalBinary (NewSyncv1Stop 3%N 17)) = NewSyncv1Stop 3%N 17.
Proof. apply (syncv1_roundtrip (NewSyncv1Stop 3%N 17)). repeat split; vm_compute; congruence. Defined.

(** A [GrapeTx] record of the supported version survives its protobuf
    form: the sequence number, payload, version, ids, transaction and
    transaction ids come back as they were.  (The peer id and the addresses go
    through the peer library.) *)
Theorem grapetx_roundtrip `{Goterators} `{CryptoLib} `{ProtoLib} `{TimestampLib} `{EthLib}
    `{PeerLib} (r : GrapeTx) (t : Txv1) (now : Z) (m : pb_GrapeTxRecord) :
  Version r = TVX1 -> g_Transaction r = Some (ATxv1 t) -> Txv1_ok t ->
  Forall UuidSlice_ok (IDs (g_Ids r)) -> uuid_ok (TxIdId r) ->
  GrapeTx_ToProtobuf r now = Return (Some m) ->
  exists r', GrapeTxFromProtobuf m = Return r'
  /\ Seq r' = Seq r /\ g_Tx r' = g_Tx r /\ Version r' = Version r /\ g_Ids r' = g_Ids r
  /\ g_Transaction r' = g_Transaction r /\ TxIdMajor r' = TxIdMajor r
  /\ TxIdMinor r' = TxIdMinor r /\ TxIdId r' = TxIdId r.
Proof.
  intros Hv Ht Hok Hids Hid. unfold GrapeTx_ToProtobuf, GrapeTxFromProtobuf.
  destruct (peer_MarshalBinary (PeerID r)); [|done]. rewrite Ht. simpl. intros [= <-]. simpl.
  rewrite Hv. simpl. unfold UnmarshalBinary; simpl. rewrite Txv1_Unmarshal_Marshal by done.
  eexists. split; [reflexivity|]. simpl.
  rewrite base58_roundtrip, Ids_roundtrip, uuid_UnmarshalBinary_bytes by done. done.
Qed.

#[export] Program Instance peer_lib_plain : PeerLib := {
  peer_MarshalBinary s := Some (string_bytes s);
  peer_UnmarshalText _ := None;
  base58_Encode := hex_EncodeToString;
  base58_Decode s := Some (fst (hex_DecodeString s));
  ma_NewMultiaddrBytes b := Some b
}.
Next Obligation. intros b. simpl. by rewrite hex_Decode_Encode. Qed.

Lemma grapetx_roundtrip_witness :
  exists m r', GrapeTx_ToProtobuf {| PeerID := "p"; Seq := 4; g_Tx := [x07]; Addrs := [];
    Version := TVX1; g_Ids := {| IDs := [{| Is_empty := false; us_Id := 8%N |}]; Signatures := ∅ |};
    g_Transaction := Some (ATxv1 (NewTxv1 MAINNET)); TxIdMajor := 1; TxIdMinor := 2;
    TxIdId := 11%N |} 0 = Return (Some m)
  /\ GrapeTxFromProtobuf m = Return r' /\ TxIdId r' = 11%N.
Proof.
  eexists. edestruct (grapetx_roundtrip {| PeerID := "p"; Seq := 4; g_Tx := [x07]; Addrs := [];
    Version := TVX1; g_Ids := {| IDs := [{| Is_empty := false; us_Id := 8%N |}]; Signatures := ∅ |};
    g_Transaction := Some (ATxv1 (NewTxv1 MAINNET)); TxIdMajor := 1; TxIdMinor := 2;
    TxIdId := 11%N |} (NewTxv1 MAINNET) 0) as (r' & E & H); try reflexivity.
  - repeat split; vm_compute; congruence.
  - repeat constructor; done.
  - exists r'. split; [reflexivity|]. split; [exact E|apply H].
Defined.
