(* ===== verification/Storage.v ===== *)
(** The state store of the smart contract VM: [vm/server.go].

    [Storage] keeps accounts, contract storage and logs, an undo log with a
    stack of checkpoints, and the differences collected while a pin is built.
    The gRPC handlers and the package functions hold one mutex for their whole
    body, so each is a function on the store.  A handler that returns an error
    leaves the store as it was; one that panics returns [Panic]. *)
From Stdlib Require Import Numbers.DecimalString Numbers.DecimalZ.
From S2P Require Import Prelude GoLib Bytes Tx.

(** ** Decimal numbers: [big.Int] and [strconv] *)

Definition dec_String (z : Z) : string := NilZero.string_of_int (Z.to_int z).

(** [SetString(s, 10)] and [ParseInt(s, 10, _)]: an optional sign and digits. *)
Definition dec_Parse (s : string) : option Z :=
  match s with
  | EmptyString => None
  | String "+" r => match NilZero.uint_of_string r with
                    | Some d => Some (Z.of_uint d)
                    | None => None
                    end
  | _ => match NilZero.int_of_string s with
         | Some d => Some (Z.of_int d)
         | None => None
         end
  end.

Definition ParseInt64 (s : string) : option Z :=
  match dec_Parse s with
  | Some z => if (- 2 ^ 63 <=? z) && (z <? 2 ^ 63) then Some z else None
  | None => None
  end.

(** ** Data *)

Definition emptyArray : bytes := replicate 32 x00.
Definition keccak256NullHash : string :=
  "c5d2460186f7233c927e7db2dcc703c0e500b653ca82273b7bfad8045d85a470".

Record Log := {
  ContractAddress : bytes; Topics : list bytes; l_Data : bytes; l_PinTxNumber : Z;
  TransactionHash : bytes
}.
(** A sub-message of a protobuf message may be absent: [None]. *)
Record pb_Log := {
  pb_ContractAddress : option bytes; pb_Topics : list bytes; pb_l_Data : bytes; pb_Block : Z
}.

Record StoredAccount := {
  sa_Address : string; sa_PublicKey : string; sa_Balance : string; sa_Nonce : string;
  sa_CodeHash : string; sa_Code : string; sa_Created : Z
}.

Record Mapping := { m_Address : bytes; m_Key : bytes; m_Value : bytes }.

(** An account or a mapping. *)
Inductive Diff := DAccount (a : StoredAccount) | DMapping (m : Mapping).

Record Diffs := { accountDiffs : gmap string StoredAccount; mappingDiffs : gmap string Mapping }.

Inductive Modification :=
| ModMapping (address key : string) (value : bytes)
| ModAccount (accountState : StoredAccount).

Record Storage := {
  mappings : gmap string (gmap string bytes);
  accounts : gmap string StoredAccount;
  logs : gmap string (list Log);
  checkPoints : list nat;
  modifications : list Modification;
  collectDiffs : bool;
  diffs : Diffs
}.

(** ** Field updates *)

Definition with_mappings s x :=
  {| mappings := x; accounts := accounts s; logs := logs s; checkPoints := checkPoints s;
     modifications := modifications s; collectDiffs := collectDiffs s; diffs := diffs s |}.
Definition with_accounts s x :=
  {| mappings := mappings s; accounts := x; logs := logs s; checkPoints := checkPoints s;
     modifications := modifications s; collectDiffs := collectDiffs s; diffs := diffs s |}.
Definition with_logs s x :=
  {| mappings := mappings s; accounts := accounts s; logs := x; checkPoints := checkPoints s;
     modifications := modifications s; collectDiffs := collectDiffs s; diffs := diffs s |}.
Definition with_checkPoints s x :=
  {| mappings := mappings s; accounts := accounts s; logs := logs s; checkPoints := x;
     modifications := modifications s; collectDiffs := collectDiffs s; diffs := diffs s |}.
Definition with_modifications s x :=
  {| mappings := mappings s; accounts := accounts s; logs := logs s;
     checkPoints := checkPoints s; modifications := x; collectDiffs := collectDiffs s;
     diffs := diffs s |}.
Definition with_diffs s c x :=
  {| mappings := mappings s; accounts := accounts s; logs := logs s;
     checkPoints := checkPoints s; modifications := modifications s; collectDiffs := c;
     diffs := x |}.

(** ** Diffs *)

Definition Diffs_reset (d : Diffs) : Diffs := {| accountDiffs := ∅; mappingDiffs := ∅ |}.

Definition Diffs_size (d : Diffs) : nat :=
  (size (accountDiffs d) + size (mappingDiffs d))%nat.

Definition Diffs_toDiffSlice `{MapRange} (d : Diffs) : list Diff :=
  map (fun p => DAccount (snd p)) (map_range (accountDiffs d))
  ++ map (fun p => DMapping (snd p)) (map_range (mappingDiffs d)).

Definition Diffs_putAccount (d : Diffs) (s : StoredAccount) : Diffs :=
  {| accountDiffs := <[sa_Address s := s]> (accountDiffs d); mappingDiffs := mappingDiffs d |}.

Definition Diffs_removeAccount (d : Diffs) (s : StoredAccount) : Diffs :=
  {| accountDiffs := delete (sa_Address s) (accountDiffs d); mappingDiffs := mappingDiffs d |}.

Definition mappingKey (address key : bytes) : string :=
  (hex_EncodeToString address ++ ":" ++ hex_EncodeToString key)%string.

Definition Diffs_removeMapping (d : Diffs) (address key : bytes) : Diffs :=
  {| accountDiffs := accountDiffs d;
     mappingDiffs := delete (mappingKey address key) (mappingDiffs d) |}.

Definition Diffs_putMapping (d : Diffs) (address key value : bytes) : Diffs :=
  {| accountDiffs := accountDiffs d;
     mappingDiffs := <[mappingKey address key :=
                        {| m_Address := address; m_Key := key; m_Value := value |}]>
                     (mappingDiffs d) |}.

(** ** Storage *)

Definition NewStorage : Storage :=
  {| mappings := ∅; accounts := ∅; logs := ∅; checkPoints := []; modifications := [];
     collectDiffs := false; diffs := {| accountDiffs := ∅; mappingDiffs := ∅ |} |}.

Definition StoredAccount_IsEmpty (sa : StoredAccount) : bool :=
  bool_decide (sa_Nonce sa = ""%string).

Definition StoredAccount_AddressBytes (sa : StoredAccount) : outcome bytes :=
  match hex_DecodeString (sa_Address sa) with (b, true) => Return b | _ => Panic end.

Definition getAccount (s : Storage) (address : bytes) : option StoredAccount :=
  accounts s !! hex_EncodeToString address.

Definition getValue (s : Storage) (address key : bytes) : bytes * bool :=
  match accounts s !! hex_EncodeToString address with
  | None => (emptyArray, false)
  | Some account =>
      match mappings s !! sa_Address account with
      | None => (emptyArray, false)
      | Some accountStore =>
          match accountStore !! hex_EncodeToString key with
          | None => (emptyArray, false)
          | Some value => (value, true)
          end
      end
  end.

Definition set_sa_Address (a : StoredAccount) (x : string) : StoredAccount :=
  {| sa_Address := x; sa_PublicKey := sa_PublicKey a; sa_Balance := sa_Balance a;
     sa_Nonce := sa_Nonce a; sa_CodeHash := sa_CodeHash a; sa_Code := sa_Code a;
     sa_Created := sa_Created a |}.
Definition set_sa_Balance (a : StoredAccount) (x : string) : StoredAccount :=
  {| sa_Address := sa_Address a; sa_PublicKey := sa_PublicKey a; sa_Balance := x;
     sa_Nonce := sa_Nonce a; sa_CodeHash := sa_CodeHash a; sa_Code := sa_Code a;
     sa_Created := sa_Created a |}.
Definition set_sa_Nonce (a : StoredAccount) (x : string) : StoredAccount :=
  {| sa_Address := sa_Address a; sa_PublicKey := sa_PublicKey a; sa_Balance := sa_Balance a;
     sa_Nonce := x; sa_CodeHash := sa_CodeHash a; sa_Code := sa_Code a;
     sa_Created := sa_Created a |}.
Definition set_sa_Code (a : StoredAccount) (hash code : string) : StoredAccount :=
  {| sa_Address := sa_Address a; sa_PublicKey := sa_PublicKey a; sa_Balance := sa_Balance a;
     sa_Nonce := sa_Nonce a; sa_CodeHash := hash; sa_Code := code;
     sa_Created := sa_Created a |}.
Definition set_sa_PublicKey (a : StoredAccount) (x : string) : StoredAccount :=
  {| sa_Address := sa_Address a; sa_PublicKey := x; sa_Balance := sa_Balance a;
     sa_Nonce := sa_Nonce a; sa_CodeHash := sa_CodeHash a; sa_Code := sa_Code a;
     sa_Created := sa_Created a |}.

(** An account with an address and nothing else; [zero_time] is the zero time. *)
Definition bare_account (address : string) : StoredAccount :=
  {| sa_Address := address; sa_PublicKey := ""; sa_Balance := ""; sa_Nonce := "";
     sa_CodeHash := ""; sa_Code := ""; sa_Created := zero_time |}.

Definition putAccount (s : Storage) (account : StoredAccount) : Storage :=
  let account := set_sa_Address account (TrimPrefix (sa_Address account) "0x") in
  let modification :=
    match accounts s !! sa_Address account with
    | Some existing => ModAccount existing
    | None => ModAccount (bare_account (sa_Address account))
    end in
  let s := with_accounts s (<[sa_Address account := account]> (accounts s)) in
  let s := if collectDiffs s then with_diffs s true (Diffs_putAccount (diffs s) account) else s in
  let s := with_modifications s (modification :: modifications s) in
  match mappings s !! sa_Address account with
  | Some _ => s
  | None =>
      let s := with_mappings s (<[sa_Address account := ∅]> (mappings s)) in
      with_logs s (<[sa_Address account := []]> (logs s))
  end.

Definition putValue (s : Storage) (address key value : bytes) : Storage :=
  let hexAddress := hex_EncodeToString address in
  let keyHex := hex_EncodeToString key in
  let s := match accounts s !! hexAddress with
           | Some _ => s
           | None =>
               putAccount s {| sa_Address := hexAddress; sa_PublicKey := ""; sa_Balance := "0";
                               sa_Nonce := "0"; sa_CodeHash := ""; sa_Code := "";
                               sa_Created := zero_time |}
           end in
  let accountStore := default ∅ (mappings s !! hexAddress) in
  let preValue := default emptyArray (accountStore !! keyHex) in
  let s := with_modifications s (ModMapping hexAddress keyHex preValue :: modifications s) in
  let s := with_mappings s (<[hexAddress := <[keyHex := value]> accountStore]> (mappings s)) in
  if collectDiffs s then with_diffs s true (Diffs_putMapping (diffs s) address key value) else s.

(** [putAccountPb]: the code of the account is not kept. *)
Definition putAccountPb (s : Storage) (address : bytes) (balance : string) (nonce : Z)
    (codeHash : string) : Storage :=
  putAccount s {| sa_Address := hex_EncodeToString address; sa_PublicKey := "";
                  sa_Balance := balance; sa_Nonce := dec_String nonce; sa_CodeHash := codeHash;
                  sa_Code := ""; sa_Created := zero_time |}.

(** A field of a sub-message that may be absent. *)
Definition deref_pb {A} (o : option A) : outcome A :=
  match o with None => Panic | Some a => Return a end.

Section Logs.
Context `{CryptoLib} `{ProtoLib} `{TimestampLib}.

(** [exec] is the transaction the VM executes; without one, or without an
    address, the call panics. *)
Definition Log_fromPb (exec : option Txv1) (l : pb_Log) : outcome Log :=
  match exec with
  | None => Panic
  | Some t =>
      let! a := deref_pb (pb_ContractAddress l) in
      Return {| ContractAddress := a; Topics := pb_Topics l;
                l_Data := pb_l_Data l; l_PinTxNumber := pb_Block l;
                TransactionHash := default [] (Txv1_Hash t) |}
  end.

Inductive LogError := ErrNoLogs | ErrNoAccount (address : string).

(** The loop over the logs stops at the first log of an unknown account; the
    logs stored before it stay.  A log without an address is dereferenced. *)
Fixpoint putLogs_loop (exec : option Txv1) (s : Storage) (stored : list Log) (l : list pb_Log)
  : outcome (Storage * (list Log + LogError)) :=
  match l with
  | [] => Return (s, inl stored)
  | x :: rest =>
      let! b := deref_pb (pb_ContractAddress x) in
      let a := hex_EncodeToString b in
      match accounts s !! a with
      | None => Return (s, inr (ErrNoAccount a))
      | Some _ =>
          let! log := Log_fromPb exec x in
          putLogs_loop exec
            (with_logs s (<[a := default [] (logs s !! a) ++ [log]]> (logs s)))
            (stored ++ [log]) rest
      end
  end.

(** The store and the logs handed to the subscribers, or the error. *)
Definition putLogs (exec : option Txv1) (s : Storage) (l : list pb_Log)
  : outcome (Storage * (list Log + LogError)) :=
  match l with
  | [] => Return (s, inr ErrNoLogs)
  | _ => putLogs_loop exec s [] l
  end.
End Logs.

Definition checkpoint (s : Storage) : Storage :=
  with_checkPoints s (length (modifications s) :: checkPoints s).

(** One step of the loop of [revert]; writing into a missing mapping panics. *)
Definition revert_one (s : Storage) (m : Modification) : outcome Storage :=
  match m with
  | ModMapping address key value =>
      match mappings s !! address with
      | None => Panic
      | Some st =>
          let s := with_mappings s (<[address := <[key := value]> st]> (mappings s)) in
          Return (if collectDiffs s then
                    let addressBytes := fst (hex_DecodeString address) in
                    let keyBytes := fst (hex_DecodeString key) in
                    if bool_decide (emptyArray = value)
                    then with_diffs s true (Diffs_removeMapping (diffs s) addressBytes keyBytes)
                    else with_diffs s true (Diffs_putMapping (diffs s) addressBytes keyBytes value)
                  else s)
      end
  | ModAccount acc =>
      if StoredAccount_IsEmpty acc then
        let s := with_accounts s (delete (sa_Address acc) (accounts s)) in
        Return (if collectDiffs s then with_diffs s true (Diffs_removeAccount (diffs s) acc) else s)
      else
        let s := with_accounts s (<[sa_Address acc := acc]> (accounts s)) in
        Return (if collectDiffs s then with_diffs s true (Diffs_putAccount (diffs s) acc) else s)
  end.

Fixpoint revert_loop (s : Storage) (ms : list Modification) : outcome Storage :=
  match ms with
  | [] => Return s
  | m :: rest => let! s := revert_one s m in revert_loop s rest
  end.

Definition revert (s : Storage) : outcome Storage :=
  match checkPoints s with
  | [] => Panic
  | c :: cps =>
      if (length (modifications s) <? c)%nat then Panic
      else
        let n := (length (modifications s) - c)%nat in
        let! s' := revert_loop s (take n (modifications s)) in
        Return (with_checkPoints (with_modifications s' (drop n (modifications s))) cps)
  end.

Definition commit (s : Storage) : outcome Storage :=
  match checkPoints s with
  | [] => Panic
  | _ :: cps => Return (with_checkPoints s cps)
  end.

(** ** The gRPC handlers

    The error value is [None]; [now] is the clock. *)

Record pb_Account := {
  pa_Address : bytes; pa_Balance : string; pa_Nonce : Z; pa_CodeHash : string
}.

Definition Server_GetAccount (s : Storage) (addr : bytes) : outcome (option pb_Account) :=
  match getAccount s addr with
  | None => Return None
  | Some a =>
      match ParseInt64 (sa_Nonce a) with
      | None => Panic
      | Some n =>
          let! b := StoredAccount_AddressBytes a in
          Return (Some {| pa_Address := b; pa_Balance := sa_Balance a; pa_Nonce := n;
                          pa_CodeHash := sa_CodeHash a |})
      end
  end.

(** A new account with a balance and a nonce. *)
Definition new_account (address balance nonce : string) (now : Z) : StoredAccount :=
  {| sa_Address := address; sa_PublicKey := ""; sa_Balance := balance; sa_Nonce := nonce;
     sa_CodeHash := ""; sa_Code := ""; sa_Created := now |}.

Definition Server_CreateAccount (s : Storage) (now : Z) (addr : bytes) : Storage :=
  putAccount s (new_account (hex_EncodeToString addr) "0" "0" now).

(** The hasher is not fed the code: its digest is that of no input. *)
Definition Server_PutContractCode `{CryptoLib} (s : Storage) (addr code : option bytes)
  : outcome (option Storage) :=
  let! addr := deref_pb addr in
  match getAccount s addr with
  | None => Return None
  | Some a =>
      let! code := deref_pb code in
      Return (Some (putAccount s (set_sa_Code a (hex_EncodeToString (keccak256 []))
                                    (hex_EncodeToString code))))
  end.

Section Balances.
(** What a [big.Int] holds after [SetString] failed on a text: the library
    leaves it undefined. *)
Variable undef : string -> Z.

Definition big_SetString (s : string) : Z :=
  match dec_Parse s with Some z => z | None => undef s end.

Definition Server_AddBalance (s : Storage) (addr : option bytes) (amount : string)
  : outcome (option Storage) :=
  let! addr := deref_pb addr in
  match getAccount s addr with
  | None => Return None
  | Some a =>
      let sum := big_SetString (sa_Balance a) + big_SetString amount in
      Return (Some (putAccount s (set_sa_Balance a (dec_String sum))))
  end.

Definition Server_SubBalance (s : Storage) (addr : option bytes) (amount : string)
  : outcome (option Storage) :=
  let! addr := deref_pb addr in
  match getAccount s addr with
  | None => Return None
  | Some a =>
      let sum := big_SetString (sa_Balance a) - big_SetString amount in
      Return (Some (putAccount s (set_sa_Balance a (dec_String sum))))
  end.

Inductive SubBalanceError := ErrNoSuchAccount | ErrNotEnoughFunds.

Definition SubBalance `{CryptoLib} (s : Storage) (pubKey : bytes) (amount : Z)
  : outcome (Storage + SubBalanceError) :=
  let! a := AddressToBytes (AddressFromPulicKey pubKey) in
  match getAccount s a with
  | None => Return (inr ErrNoSuchAccount)
  | Some acc =>
      let balance := big_SetString (sa_Balance acc) in
      if balance <? amount then Return (inr ErrNotEnoughFunds)
      else
        let acc := set_sa_PublicKey acc (hex_EncodeToString pubKey) in
        Return (inl (putAccount s (set_sa_Balance acc (dec_String (balance - amount)))))
  end.

Definition IncrementNonce (s : Storage) (address : string) : outcome (option Storage) :=
  let! a := AddressToBytes address in
  match getAccount s a with
  | None => Return None
  | Some acc =>
      Return (Some (putAccount s
        (set_sa_Nonce acc (dec_String (big_SetString (sa_Nonce acc) + 1)))))
  end.

Record LnAccount := {
  ln_Id : string; ln_Balance : Z; ln_Created : Z; ln_Nonce : Z; ln_PublicKey : string
}.

Definition mapToLnAccount (acc : StoredAccount) : LnAccount :=
  {| ln_Id := sa_Address acc; ln_Balance := big_SetString (sa_Balance acc);
     ln_Created := sa_Created acc; ln_Nonce := big_SetString (sa_Nonce acc);
     ln_PublicKey := sa_PublicKey acc |}.

Definition SearchAccount (s : Storage) (address : string) : outcome (option LnAccount) :=
  let! a := AddressToBytes address in
  Return (match getAccount s a with None => None | Some acc => Some (mapToLnAccount acc) end).

(** [sort.SliceStable] by creation time is an insertion sort's result: the
    order is stable.  [le x y] tells that [y] may not come before [x]. *)
Fixpoint insert_stable {A} (less : A -> A -> bool) (x : A) (l : list A) : list A :=
  match l with
  | [] => [x]
  | y :: l' => if less x y then x :: l else y :: insert_stable less x l'
  end.

Definition SliceStable {A} (less : A -> A -> bool) (l : list A) : list A :=
  fold_left (fun acc x => insert_stable less x acc) l [].

(** [l[offset:]] cut to [limit]; a negative bound panics. *)
Definition paginate {A} (limit offset : Z) (l : list A) : outcome (list A) :=
  if Z.of_nat (length l) <=? offset then Return []
  else if offset <? 0 then Panic
  else
    let l := drop (Z.to_nat offset) l in
    if Z.of_nat (length l) <? limit then Return l
    else if limit <? 0 then Panic else Return (take (Z.to_nat limit) l).

Definition SearchAccounts `{MapRange} (s : Storage) (limit offset : Z) (ascSort : bool)
  : outcome (list LnAccount) :=
  let accsArray := map (fun p => mapToLnAccount (snd p)) (map_range (accounts s)) in
  let less (i j : LnAccount) :=
    if negb ascSort then ln_Created j <? ln_Created i else ln_Created i <? ln_Created j in
  paginate limit offset (SliceStable less accsArray).
End Balances.

Definition Server_GetContractCode (s : Storage) (addr : bytes) : option bytes :=
  match getAccount s addr with
  | None => None
  | Some a => Some (fst (hex_DecodeString (sa_Code a)))
  end.

Definition Server_GetContractCodeStorage (s : Storage) (addr key : option bytes) : outcome bytes :=
  let! addr := deref_pb addr in
  let! key := deref_pb key in
  Return (fst (getValue s addr key)).

Definition Server_PutContractStorage (s : Storage) (addr key value : option bytes) : outcome Storage :=
  let! addr := deref_pb addr in
  let! key := deref_pb key in
  let! value := deref_pb value in
  Return (putValue s addr key value).

Definition Server_SetNonce (s : Storage) (addr : option bytes) (nonce : Z) : outcome (option Storage) :=
  let! addr := deref_pb addr in
  match getAccount s addr with
  | None => Return None
  | Some a => Return (Some (putAccount s (set_sa_Nonce a (dec_String nonce))))
  end.

(** ** Package functions *)

Definition CaptureStateStoreDiffs (s : Storage) : outcome Storage :=
  if collectDiffs s then Panic else Return (with_diffs s true (diffs s)).

(** [None] of [SetString] is nil: adding to it panics. *)
Definition NonceIncr (s : Storage) (now : Z) (account : bytes) : outcome Storage :=
  match getAccount s account with
  | None => Return (putAccount s (new_account (hex_EncodeToString account) "0" "1" now))
  | Some acc =>
      match dec_Parse (sa_Nonce acc) with
      | None => Panic
      | Some n => Return (putAccount s (set_sa_Nonce acc (dec_String (n + 1))))
      end
  end.

Definition GetStateStoreDiffs `{MapRange} (s : Storage) : outcome (list Diff) :=
  if negb (collectDiffs s) then Panic else Return (Diffs_toDiffSlice (diffs s)).

Definition ResetCaptureStateStoreDiffs (s : Storage) : Storage :=
  with_diffs s false (Diffs_reset (diffs s)).

Definition GetCodeHash (s : Storage) (address : string) : outcome string :=
  let! a := AddressToBytes address in
  Return (match getAccount s a with None => keccak256NullHash | Some acc => sa_CodeHash acc end).

Definition GetContractCode (s : Storage) (address : string) : outcome string :=
  let! a := AddressToBytes address in
  Return (match getAccount s a with None => ""%string | Some acc => sa_Code acc end).

Definition GetStorageAt (s : Storage) (address key : string) : outcome string :=
  let! a := AddressToBytes address in
  let! k := AddressToBytes key in
  Return (match getValue s a (LeftPadTo 32 k) with
          | (_, false) => ZeroHex 32
          | (value, true) => ("0x" ++ hex_EncodeToString value)%string
          end).

Definition GetLogsForTx `{MapRange} (s : Storage) (hash : bytes) : list Log :=
  List.filter (fun l => bool_decide (TransactionHash l = hash))
    (concat (map snd (map_range (logs s)))).

Record SearchLogRequest := {
  r_Address : string; r_Topics : list string; r_Limit : Z; r_Offset : Z; r_PinFrom : Z;
  r_PinTo : Z
}.

(** The inner loop of [SearchLogs]: the log's topics meet the requested ones;
    "null" accepts any topic, also a missing one. *)
Fixpoint topics_match (requested : list string) (topics : list bytes) : bool :=
  match requested with
  | [] => true
  | t :: rest =>
      if bool_decide (t = "null"%string) then topics_match rest (tail topics)
      else match topics with
           | [] => false
           | x :: xs =>
               if bool_decide (TrimPrefix t "0x" = hex_EncodeToString x)
               then topics_match rest xs else false
           end
  end.

(** The outer loop, from the last log to the first. *)
Fixpoint search_loop (r : SearchLogRequest) (from_last : list Log) (result : list Log) : list Log :=
  match from_last with
  | [] => result
  | log :: rest =>
      if (r_PinTo r <? l_PinTxNumber log) || (l_PinTxNumber log <? r_PinFrom r)
      then search_loop r rest result
      else if topics_match (r_Topics r) (Topics log)
      then search_loop r rest (result ++ [log])
      else search_loop r rest result
  end.

Definition SearchLogs (s : Storage) (r : SearchLogRequest) : outcome (list Log) :=
  match logs s !! TrimPrefix (r_Address r) "0x" with
  | None => Return []
  | Some l => paginate (r_Limit r) (r_Offset r) (search_loop r (rev l) [])
  end.

(** One round of the loop of [SyncBalances]. *)
Definition SyncBalance (now : Z) (s : Storage) (key : string) (value : bytes) : outcome Storage :=
  let! address := AddressToBytes key in
  let newBalance := dec_String (SetBytes value) in
  Return (match getAccount s address with
          | None => putAccount s (new_account key newBalance "0" now)
          | Some account => putAccount s (set_sa_Balance account newBalance)
          end).

Fixpoint SyncBalances_loop (now : Z) (s : Storage) (l : list (string * bytes)) : outcome Storage :=
  match l with
  | [] => Return s
  | (key, value) :: rest =>
      let! s := SyncBalance now s key value in SyncBalances_loop now s rest
  end.

Definition SyncBalances `{MapRange} (now : Z) (s : Storage) (balances : gmap string bytes)
  : outcome Storage :=
  SyncBalances_loop now s (map_range balances).

Definition DumpMappingDiffs (s : Storage) (address key value : bytes) : outcome Storage :=
  match mappings s !! hex_EncodeToString address with
  | None => Panic
  | Some st =>
      Return (with_mappings s
        (<[hex_EncodeToString address := <[hex_EncodeToString key := value]> st]> (mappings s)))
  end.

Definition IsSCAccount (s : Storage) (walletId : string) : outcome bool :=
  match hex_DecodeString (TrimPrefix walletId "0x") with
  | (_, false) => Panic
  | (idBytes, true) =>
      Return (match getAccount s idBytes with
              | None => false
              | Some acc => negb (bool_decide (sa_CodeHash acc = ""%string))
              end)
  end.
