(* ===== verification/StorageProps.v ===== *)
(** What the state store guarantees: its invariant, lookups after updates, the
    nested transactions of [checkpoint], [commit] and [revert], the collected
    differences, balance synchronisation and log search. *)
From Stdlib Require Import Numbers.DecimalString Numbers.DecimalZ.
From S2P Require Import Prelude GoLib Bytes Tx Storage.

(** ** Decimal texts *)

Lemma dec_String_nonempty z : dec_String z <> ""%string.
Proof.
  unfold dec_String. destruct (Z.to_int z) as [u|u]; simpl; [|done].
  unfold NilZero.string_of_uint. destruct u; simpl; congruence.
Qed.

Lemma Z_to_int_nonnil z : Z.to_int z <> Decimal.Pos Decimal.Nil /\ Z.to_int z <> Decimal.Neg Decimal.Nil.
Proof.
  destruct z as [|p|p]; simpl; split; try done; intros [= H];
    by apply (DecimalPos.Unsigned.to_uint_nonnil p).
Qed.

(** What [String] prints, [SetString] reads. *)
Lemma dec_Parse_String z : dec_Parse (dec_String z) = Some z.
Proof.
  unfold dec_String. destruct (Z_to_int_nonnil z) as [H1 H2].
  pose proof (NilZero.isi _ H1 H2) as E. pose proof (DecimalZ.of_to z) as Ez.
  set (d := Z.to_int z) in *. clearbody d.
  assert (Hs : NilZero.string_of_int d <> ""%string
               /\ forall r, NilZero.string_of_int d <> String "+" r).
  { destruct d as [u|u]; simpl; [|done]. destruct u; simpl; done. }
  unfold dec_Parse. destruct (NilZero.string_of_int d) as [|c r] eqn:Es; [by destruct Hs|].
  assert (c <> "+"%char) by (intros ->; by destruct Hs as [_ Hs]; apply (Hs r)).
  rewrite E, Ez. destruct c as [[] [] [] [] [] [] [] []]; done.
Qed.

#[export] Hint Rewrite dec_Parse_String : grape.

(** ** Equivalence of stores

    Two stores are the same to every reader when they have the same accounts
    and every storage cell reads the same; a cell that was never written reads
    as 32 zero bytes. *)
Definition val (s : Storage) (a k : string) : bytes :=
  default emptyArray (default ∅ (mappings s !! a) !! k).

Definition same_state (s t : Storage) : Prop :=
  accounts s = accounts t /\ forall a k, val s a k = val t a k.

#[export] Instance same_state_equivalence : Equivalence same_state.
Proof.
  split.
  - by split.
  - intros s t [H1 H2]. split; [done|]. intros. by rewrite H2.
  - intros s t u [H1 H2] [H3 H4]. split; [congruence|]. intros. by rewrite H2, H4.
Qed.

#[export] Instance getAccount_proper : Proper (same_state ==> eq ==> eq) getAccount.
Proof. intros s t [H _] a ? <-. unfold getAccount. by rewrite H. Qed.

(** The value read from a cell. *)
Lemma getValue_val s a k acc :
  getAccount s a = Some acc -> fst (getValue s a k) = val s (sa_Address acc) (hex_EncodeToString k).
Proof.
  unfold getAccount, getValue, val. intros ->.
  destruct (mappings s !! sa_Address acc) as [st|]; simpl; [|by rewrite lookup_empty].
  by destruct (st !! hex_EncodeToString k).
Qed.

#[export] Instance Server_GetContractCodeStorage_proper :
  Proper (same_state ==> eq ==> eq ==> eq) Server_GetContractCodeStorage.
Proof.
  intros s t Hst [a|] ? <- [k|] ? <-; try done. unfold Server_GetContractCodeStorage. simpl. f_equal.
  pose proof (getAccount_proper s t Hst a a eq_refl) as E.
  destruct (getAccount s a) as [acc|] eqn:Es.
  - rewrite (getValue_val s _ _ acc), (getValue_val t _ _ acc) by congruence. apply Hst.
  - unfold getValue. unfold getAccount in E, Es. by rewrite Es, <- E.
Qed.

(** ** Undoing modifications *)

Definition undo_account (m : Modification) (acc : gmap string StoredAccount) :=
  match m with
  | ModMapping _ _ _ => acc
  | ModAccount a => if StoredAccount_IsEmpty a then delete (sa_Address a) acc
                    else <[sa_Address a := a]> acc
  end.

Definition undo_val (m : Modification) (a k : string) (v : bytes) : bytes :=
  match m with
  | ModMapping a' k' v' => if decide (a' = a /\ k' = k) then v' else v
  | ModAccount _ => v
  end.

Definition undo_accounts (ms : list Modification) acc :=
  fold_left (fun acc m => undo_account m acc) ms acc.
Definition undo_vals (ms : list Modification) (a k : string) (v : bytes) :=
  fold_left (fun v m => undo_val m a k v) ms v.

Definition mod_address (m : Modification) : string :=
  match m with ModMapping a _ _ => a | ModAccount a => sa_Address a end.

(** [revert] writes into mappings that exist. *)
Definition mod_ok (s : Storage) (m : Modification) : Prop :=
  is_Some (mappings s !! mod_address m).

(** What [revert_one] keeps. *)
Definition same_frame (s t : Storage) : Prop :=
  logs s = logs t /\ checkPoints s = checkPoints t /\ modifications s = modifications t
  /\ dom (mappings s) = dom (mappings t) /\ collectDiffs s = collectDiffs t.

Lemma same_frame_trans s t u : same_frame s t -> same_frame t u -> same_frame s u.
Proof. intros (?&?&?&?&?) (?&?&?&?&?). repeat split; congruence. Qed.

Lemma mod_ok_frame s t m : same_frame s t -> mod_ok s m -> mod_ok t m.
Proof.
  intros (_ & _ & _ & Hd & _). unfold mod_ok. rewrite <- !elem_of_dom. by rewrite Hd.
Qed.

Lemma val_insert_mapping s a k v st :
  mappings s !! a = Some st -> forall a' k',
  val (with_mappings s (<[a := <[k := v]> st]> (mappings s))) a' k'
  = undo_val (ModMapping a k v) a' k' (val s a' k').
Proof.
  intros Hst a' k'. unfold val, undo_val. simpl.
  destruct (decide (a = a')) as [<-|Ha].
  - rewrite lookup_insert_eq, Hst. simpl. destruct (decide (k = k')) as [<-|Hk].
    + by rewrite lookup_insert_eq, decide_True.
    + rewrite lookup_insert_ne by done. by rewrite decide_False by naive_solver.
  - rewrite lookup_insert_ne by done. by rewrite decide_False by naive_solver.
Qed.

Lemma revert_one_spec s m :
  mod_ok s m ->
  exists s', revert_one s m = Return s' /\ same_frame s s'
  /\ accounts s' = undo_account m (accounts s)
  /\ forall a k, val s' a k = undo_val m a k (val s a k).
Proof.
  unfold mod_ok. destruct m as [a k v|acc]; simpl.
  - intros [st Hst]. rewrite Hst. eexists. split; [reflexivity|].
    assert (Hd : dom (mappings s) = dom (<[a:=<[k:=v]> st]> (mappings s))).
    { rewrite dom_insert_L. apply elem_of_dom_2 in Hst. set_solver. }
    pose proof (val_insert_mapping s a k v st Hst) as Hv.
    destruct (collectDiffs s) eqn:E; [case_match|]; repeat split; simpl; try done; apply Hv.
  - intros _. destruct (StoredAccount_IsEmpty acc); eexists; (split; [reflexivity|]);
      simpl; destruct (collectDiffs s) eqn:E; repeat split; try done.
Qed.

Lemma revert_loop_spec ms : forall s,
  Forall (mod_ok s) ms ->
  exists s', revert_loop s ms = Return s' /\ same_frame s s'
  /\ accounts s' = undo_accounts ms (accounts s)
  /\ forall a k, val s' a k = undo_vals ms a k (val s a k).
Proof.
  induction ms as [|m ms IH]; intros s Hok; simpl; [by exists s|].
  apply Forall_cons in Hok as [Hm Hok].
  destruct (revert_one_spec s m Hm) as (s1 & E & Hf & Ha & Hv). rewrite E. simpl.
  destruct (IH s1) as (s2 & E2 & Hf2 & Ha2 & Hv2).
  { eapply Forall_impl; [exact Hok|]. intros. by eapply mod_ok_frame. }
  exists s2. rewrite Ha2, Ha. split_and!; try done; [by eapply same_frame_trans|].
  intros. by rewrite Hv2, Hv.
Qed.

(** [pre] is what was logged since [s0], and undoing it gives [s0] back. *)
Definition undoes (s0 s : Storage) (pre : list Modification) : Prop :=
  modifications s = pre ++ modifications s0
  /\ undo_accounts pre (accounts s) = accounts s0
  /\ forall a k, undo_vals pre a k (val s a k) = val s0 a k.

Lemma undoes_refl s : undoes s s [].
Proof. by split_and!. Qed.

Lemma undoes_trans s0 s1 s2 p q : undoes s0 s1 p -> undoes s1 s2 q -> undoes s0 s2 (q ++ p).
Proof.
  intros (M1 & A1 & V1) (M2 & A2 & V2). split_and!.
  - by rewrite M2, M1, app_assoc.
  - unfold undo_accounts in *. by rewrite fold_left_app, A2, A1.
  - intros a k. unfold undo_vals in *. by rewrite fold_left_app, V2, V1.
Qed.

(** ** The invariant *)

Record storage_inv (s : Storage) : Prop := {
  inv_accounts : forall k a, accounts s !! k = Some a ->
    sa_Address a = k /\ sa_Nonce a <> ""%string /\ is_Some (mappings s !! k);
  inv_mods : Forall (mod_ok s) (modifications s);
  inv_cps : Forall (fun c => (c <= length (modifications s))%nat) (checkPoints s);
  inv_sorted : Sorted ge (checkPoints s)
}.

Lemma storage_inv_new : storage_inv NewStorage.
Proof. split; [|by constructor..]. intros k a. simpl. by rewrite lookup_empty. Qed.

Lemma putAccount_mappings_eq s a :
  mappings (putAccount s a)
  = match mappings s !! TrimPrefix (sa_Address a) "0x" with
    | Some _ => mappings s
    | None => <[TrimPrefix (sa_Address a) "0x" := ∅]> (mappings s)
    end.
Proof. unfold putAccount. simpl. destruct (collectDiffs s); simpl; by case_match. Qed.

Lemma putAccount_mappings s a k :
  is_Some (mappings s !! k) \/ k = TrimPrefix (sa_Address a) "0x" ->
  is_Some (mappings (putAccount s a) !! k).
Proof.
  rewrite putAccount_mappings_eq. set (key := TrimPrefix _ _). intros Hk.
  destruct (mappings s !! key) eqn:E; [destruct Hk as [| ->]; eauto|].
  rewrite lookup_insert_is_Some. destruct Hk as [| ->]; [|by left].
  destruct (decide (key = k)); auto.
Qed.

Lemma putAccount_accounts s a :
  accounts (putAccount s a)
  = <[TrimPrefix (sa_Address a) "0x" := set_sa_Address a (TrimPrefix (sa_Address a) "0x")]>
      (accounts s).
Proof. unfold putAccount. simpl. by do 2 case_match. Qed.

Lemma putAccount_modifications s a :
  modifications (putAccount s a)
  = match accounts s !! TrimPrefix (sa_Address a) "0x" with
    | Some e => ModAccount e
    | None => ModAccount (bare_account (TrimPrefix (sa_Address a) "0x"))
    end :: modifications s.
Proof. unfold putAccount. simpl. by do 3 case_match. Qed.

Lemma putAccount_val s a a' k : val (putAccount s a) a' k = val s a' k.
Proof.
  unfold val. rewrite putAccount_mappings_eq. set (key := TrimPrefix _ _).
  destruct (mappings s !! key) eqn:E; [done|].
  destruct (decide (key = a')) as [<-|]; [|by rewrite lookup_insert_ne].
  by rewrite lookup_insert_eq, E.
Qed.

Lemma putAccount_checkPoints s a : checkPoints (putAccount s a) = checkPoints s.
Proof. unfold putAccount. simpl. by do 2 case_match. Qed.

(** Storing an account is undone by its log entry. *)
Lemma putAccount_undoes s a :
  storage_inv s -> exists m, undoes s (putAccount s a) [m].
Proof.
  intros Hinv. set (key := TrimPrefix (sa_Address a) "0x").
  pose proof (putAccount_modifications s a) as Hm. fold key in Hm.
  destruct (accounts s !! key) as [e|] eqn:E;
    (eexists; split_and!; [exact Hm| |intros; apply putAccount_val]);
    rewrite putAccount_accounts; fold key; simpl.
  - destruct (inv_accounts _ Hinv _ _ E) as (Hk & Hn & _).
    unfold StoredAccount_IsEmpty. rewrite bool_decide_false by done.
    by rewrite Hk, insert_insert_eq, insert_id.
  - by apply delete_insert_id.
Qed.

Lemma putAccount_inv s a :
  storage_inv s -> sa_Nonce a <> ""%string -> storage_inv (putAccount s a).
Proof.
  intros Hinv Hn. split.
  - intros k b. rewrite putAccount_accounts. intros [[<- <-]|[Hne Hb]]%lookup_insert_Some.
    + split_and!; try done. apply putAccount_mappings. by right.
    + destruct (inv_accounts _ Hinv _ _ Hb) as (? & ? & ?). split_and!; try done.
      apply putAccount_mappings. by left.
  - rewrite putAccount_modifications. constructor.
    + apply putAccount_mappings. right. case_match eqn:E; [|done]. simpl.
      by apply (inv_accounts _ Hinv) in E as (? & _).
    + eapply Forall_impl; [apply (inv_mods _ Hinv)|]. intros m Hok.
      apply putAccount_mappings. by left.
  - rewrite putAccount_modifications, putAccount_checkPoints.
    eapply Forall_impl; [apply (inv_cps _ Hinv)|]. simpl. lia.
  - rewrite putAccount_checkPoints. apply (inv_sorted _ Hinv).
Qed.

(** ** Storage cells *)

Lemma hex_digit_not_x n : (n < 16)%N -> hex_digit n <> "x"%char.
Proof. intros H%hex_val_digit E. rewrite E in H. done. Qed.

Lemma TrimPrefix_hex b : TrimPrefix (hex_EncodeToString b) "0x" = hex_EncodeToString b.
Proof.
  unfold TrimPrefix, HasPrefix. destruct b as [|x b]; [done|].
  cbn [hex_EncodeToString]. pose proof (Byte.to_N_bounded x).
  assert (hex_digit (Byte.to_N x mod 16) <> "x"%char).
  { apply hex_digit_not_x. apply N.mod_lt. lia. }
  cbn [String.prefix]. repeat (destruct (ascii_dec _ _); try congruence).
Qed.

(** [putValue] first makes sure that the account exists. *)
Definition ensured (s : Storage) (address : bytes) : Storage :=
  match accounts s !! hex_EncodeToString address with
  | Some _ => s
  | None => putAccount s {| sa_Address := hex_EncodeToString address; sa_PublicKey := "";
                            sa_Balance := "0"; sa_Nonce := "0"; sa_CodeHash := "";
                            sa_Code := ""; sa_Created := zero_time |}
  end.

Lemma ensured_spec s a :
  storage_inv s ->
  storage_inv (ensured s a) /\ is_Some (accounts (ensured s a) !! hex_EncodeToString a)
  /\ is_Some (mappings (ensured s a) !! hex_EncodeToString a)
  /\ (forall a' k, val (ensured s a) a' k = val s a' k)
  /\ checkPoints (ensured s a) = checkPoints s
  /\ exists pre, undoes s (ensured s a) pre.
Proof.
  intros Hinv. unfold ensured.
  destruct (accounts s !! hex_EncodeToString a) as [e|] eqn:E.
  - split_and!; try done; [|exists []; apply undoes_refl].
    by apply (inv_accounts _ Hinv) in E as (_ & _ & ?).
  - set (acc := {| sa_Address := _ |}).
    assert (Hi : storage_inv (putAccount s acc)) by by apply putAccount_inv.
    assert (Ha : is_Some (accounts (putAccount s acc) !! hex_EncodeToString a)).
    { rewrite putAccount_accounts. simpl. rewrite TrimPrefix_hex, lookup_insert_eq. by eexists. }
    split_and!; try done.
    + destruct Ha as [e' He']. by apply (inv_accounts _ Hi) in He' as (_ & _ & ?).
    + intros. apply putAccount_val.
    + apply putAccount_checkPoints.
    + destruct (putAccount_undoes s acc Hinv) as (m & Hm). by eexists.
Qed.

(** [putValue] is [ensured] followed by one write. *)
Lemma putValue_spec s a k v :
  storage_inv s ->
  let s1 := ensured s a in
  let s' := putValue s a k v in
  accounts s' = accounts s1 /\ checkPoints s' = checkPoints s1
  /\ modifications s' = ModMapping (hex_EncodeToString a) (hex_EncodeToString k)
       (val s1 (hex_EncodeToString a) (hex_EncodeToString k)) :: modifications s1
  /\ dom (mappings s') = dom (mappings s1)
  /\ forall a' k', val s' a' k'
     = undo_val (ModMapping (hex_EncodeToString a) (hex_EncodeToString k) v) a' k' (val s1 a' k').
Proof.
  intros Hinv s1 s'. destruct (ensured_spec s a Hinv) as (Hi & _ & [st Hst] & _).
  fold s1 in Hi, Hst. subst s'. unfold putValue. fold (ensured s a). fold s1.
  rewrite Hst. simpl.
  pose proof (val_insert_mapping s1 (hex_EncodeToString a) (hex_EncodeToString k) v st Hst) as Hv.
  assert (Hd : dom (<[hex_EncodeToString a:=<[hex_EncodeToString k:=v]> st]> (mappings s1))
               = dom (mappings s1)).
  { rewrite dom_insert_L. apply elem_of_dom_2 in Hst. set_solver. }
  destruct (collectDiffs s1); simpl; split_and!; try done; try apply Hv;
    unfold val; by rewrite Hst.
Qed.

Lemma undo_val_twice a k v w a' k' :
  undo_val (ModMapping a k (w a k)) a' k' (undo_val (ModMapping a k v) a' k' (w a' k')) = w a' k'.
Proof. simpl. case_decide as E; [destruct E; congruence|]. done. Qed.

Lemma putValue_undoes s a k v :
  storage_inv s -> exists pre, undoes s (putValue s a k v) pre.
Proof.
  intros Hinv. destruct (ensured_spec s a Hinv) as (Hi & _ & _ & _ & _ & pre & Hp).
  destruct (putValue_spec s a k v Hinv) as (Ha & _ & Hm & _ & Hv).
  eexists. eapply undoes_trans; [exact Hp|].
  instantiate (1 := [ModMapping (hex_EncodeToString a) (hex_EncodeToString k)
       (val (ensured s a) (hex_EncodeToString a) (hex_EncodeToString k))]).
  split_and!; simpl; try done. intros a' k'. rewrite Hv.
  apply (undo_val_twice _ _ _ (val (ensured s a))).
Qed.

Lemma putValue_inv s a k v : storage_inv s -> storage_inv (putValue s a k v).
Proof.
  intros Hinv. destruct (ensured_spec s a Hinv) as (Hi & _ & Hst & _).
  destruct (putValue_spec s a k v Hinv) as (Ha & Hc & Hm & Hd & _).
  assert (Hdom : forall x, is_Some (mappings (putValue s a k v) !! x)
                           <-> is_Some (mappings (ensured s a) !! x)).
  { intros x. by rewrite <- !elem_of_dom, Hd. }
  split.
  - intros x b. rewrite Ha. intros Hb. rewrite Hdom. by apply (inv_accounts _ Hi).
  - rewrite Hm. constructor; [by apply Hdom|].
    eapply Forall_impl; [apply (inv_mods _ Hi)|]. intros m Hok. by apply Hdom.
  - rewrite Hm, Hc. eapply Forall_impl; [apply (inv_cps _ Hi)|]. simpl. lia.
  - rewrite Hc. apply (inv_sorted _ Hi).
Qed.

Lemma checkpoint_inv s : storage_inv s -> storage_inv (checkpoint s).
Proof.
  intros [Ha Hm Hc Hs]. split; try done; simpl.
  - constructor; [lia|done].
  - constructor; [done|]. destruct (checkPoints s) as [|c l]; constructor.
    apply Forall_cons in Hc as [Hc _]. unfold ge. lia.
Qed.

Lemma commit_inv s s' : storage_inv s -> commit s = Return s' -> storage_inv s'.
Proof.
  intros [Ha Hm Hc Hs]. unfold commit. destruct (checkPoints s) as [|c l] eqn:E; [done|].
  intros [= <-]. split; try done; simpl; rewrite ?E in *.
  - by apply Forall_cons in Hc as [_ ?].
  - by apply Sorted_inv in Hs as [? _].
Qed.

(** ** Nested transactions *)

Lemma undo_accounts_inv (P : string -> StoredAccount -> Prop) ms : forall acc,
  Forall (fun m => match m with
                   | ModAccount a => StoredAccount_IsEmpty a = false -> P (sa_Address a) a
                   | _ => True end) ms ->
  (forall k a, acc !! k = Some a -> P k a) ->
  forall k a, undo_accounts ms acc !! k = Some a -> P k a.
Proof.
  induction ms as [|m ms IH]; intros acc Hm Hacc; simpl; [done|].
  apply Forall_cons in Hm as [Hm Hms]. apply IH; [done|]. intros k a.
  destruct m as [|b]; simpl; [apply Hacc|].
  destruct (StoredAccount_IsEmpty b) eqn:E.
  - intros [_ H]%lookup_delete_Some. by apply Hacc.
  - intros [[<- <-]|[_ H]]%lookup_insert_Some; auto.
Qed.

Lemma revert_spec s c cps :
  storage_inv s -> checkPoints s = c :: cps ->
  let n := (length (modifications s) - c)%nat in
  exists s', revert s = Return s' /\ storage_inv s'
  /\ modifications s' = drop n (modifications s) /\ checkPoints s' = cps
  /\ accounts s' = undo_accounts (take n (modifications s)) (accounts s)
  /\ forall a k, val s' a k = undo_vals (take n (modifications s)) a k (val s a k).
Proof.
  intros [Ha Hm Hcp Hs] Hc n. rewrite Hc in Hcp, Hs.
  apply Forall_cons in Hcp as [Hle Hcp]. apply Sorted_StronglySorted in Hs; [|intros ???; unfold ge; lia].
  apply StronglySorted_inv in Hs as [Hs Hge]. apply Forall_take with (n := n) in Hm as Hmt.
  destruct (revert_loop_spec _ s Hmt) as (s1 & E & Hf & Hacc & Hv).
  exists (with_checkPoints (with_modifications s1 (drop n (modifications s))) cps).
  unfold revert. rewrite Hc. destruct (Nat.ltb_spec (length (modifications s)) c); [lia|].
  fold n. rewrite E. split; [done|]. split; [|split_and!; try done; apply Hv].
  assert (Hmap : forall x, is_Some (mappings s !! x) -> is_Some (mappings s1 !! x)).
  { intros x. rewrite <- !elem_of_dom. destruct Hf as (_ & _ & _ & -> & _). done. }
  split; simpl.
  - rewrite Hacc. apply (undo_accounts_inv (fun k a => sa_Address a = k
      /\ sa_Nonce a <> ""%string /\ is_Some (mappings s1 !! k))).
    + eapply Forall_impl; [exact Hmt|]. intros [|b] Hok; [done|]. intros Hb.
      apply bool_decide_eq_false in Hb. split_and!; try done. by apply Hmap.
    + intros k a Hk. destruct (Ha k a Hk) as (? & ? & ?). auto.
  - apply Forall_drop with (n := n) in Hm. eapply Forall_impl; [exact Hm|].
    intros m Hok. by apply Hmap.
  - rewrite length_drop. eapply Forall_impl; [exact Hge|]. simpl. unfold ge, n. lia.
  - by apply StronglySorted_Sorted.
Qed.

(** The operations of a transaction; [op_depth] is the number of nested
    checkpoints an operation adds. *)
Inductive op :=
| OPutAccount (a : StoredAccount)
| OPutValue (address key value : bytes)
| OCheckpoint
| OCommit
| ORevert.

Definition run_op (s : Storage) (o : op) : outcome Storage :=
  match o with
  | OPutAccount a => Return (putAccount s a)
  | OPutValue a k v => Return (putValue s a k v)
  | OCheckpoint => Return (checkpoint s)
  | OCommit => commit s
  | ORevert => revert s
  end.

Fixpoint run_ops (s : Storage) (l : list op) : outcome Storage :=
  match l with
  | [] => Return s
  | o :: rest => let! s := run_op s o in run_ops s rest
  end.

(** Depth after the operations, [None] if they close a checkpoint they did not
    open. *)
Fixpoint depth (d : nat) (l : list op) : option nat :=
  match l with
  | [] => Some d
  | OCheckpoint :: rest => depth (S d) rest
  | (OCommit | ORevert) :: rest => match d with O => None | S d' => depth d' rest end
  | _ :: rest => depth d rest
  end.

Definition op_ok (o : op) : Prop :=
  match o with OPutAccount a => sa_Nonce a <> ""%string | _ => True end.

(** Inside the transaction opened at [s0]: [inner] are the checkpoints opened
    since, above those of [s0]. *)
Definition inside (s0 s : Storage) (d : nat) : Prop :=
  storage_inv s /\ exists pre inner,
    undoes s0 s pre /\ checkPoints s = inner ++ checkPoints s0 /\ length inner = d
    /\ Forall (fun c => (length (modifications s0) <= c)%nat) inner.

Lemma inside_step s0 s s' d pre :
  inside s0 s d -> undoes s s' pre -> storage_inv s' -> checkPoints s' = checkPoints s ->
  inside s0 s' d.
Proof.
  intros [Hi (p & inner & Hp & Hc & Hl & Hf)] Hu Hi' Hc'. split; [done|].
  exists (pre ++ p), inner. split_and!; try done; [by eapply undoes_trans|congruence].
Qed.

Lemma inside_checkpoint s0 s d : inside s0 s d -> inside s0 (checkpoint s) (S d).
Proof.
  intros [Hi (p & inner & Hp & Hc & Hl & Hf)]. split; [by apply checkpoint_inv|].
  exists p, (length (modifications s) :: inner). split_and!; try done; simpl; [by rewrite Hc|lia|].
  constructor; [|done]. destruct Hp as (-> & _). rewrite length_app. lia.
Qed.

Lemma inside_commit s0 s d :
  inside s0 s (S d) -> exists s', commit s = Return s' /\ inside s0 s' d.
Proof.
  intros [Hi (p & [|c inner] & Hp & Hc & Hl & Hf)]; [done|]. unfold commit. rewrite Hc. simpl.
  eexists. split; [reflexivity|]. split.
  - eapply commit_inv; [exact Hi|]. unfold commit. by rewrite Hc.
  - exists p, inner. apply Forall_cons in Hf as [_ Hf]. by injection Hl.
Qed.

(** Reverting the whole log since a state gives the state. *)
Lemma undoes_split s0 s pre n :
  undoes s0 s pre -> (n <= length pre)%nat ->
  take n (modifications s) = take n pre /\ drop n (modifications s) = drop n pre ++ modifications s0.
Proof.
  intros (-> & _) Hn. by rewrite take_app_le, drop_app_le by done.
Qed.

Lemma undoes_undone s0 s s' pre n :
  undoes s0 s pre -> (n <= length pre)%nat ->
  modifications s' = drop n (modifications s) ->
  accounts s' = undo_accounts (take n (modifications s)) (accounts s) ->
  (forall a k, val s' a k = undo_vals (take n (modifications s)) a k (val s a k)) ->
  undoes s0 s' (drop n pre).
Proof.
  intros Hu Hn Hm Ha Hv. destruct (undoes_split _ _ _ _ Hu Hn) as [Ht Hd].
  destruct Hu as (Hm0 & Ha0 & Hv0). rewrite Ht in Ha, Hv. split_and!; [congruence| |].
  - rewrite <- Ha0, Ha. unfold undo_accounts. by rewrite <- fold_left_app, take_drop.
  - intros a k. rewrite <- Hv0, Hv. unfold undo_vals. by rewrite <- fold_left_app, take_drop.
Qed.

Lemma inside_revert s0 s d :
  inside s0 s (S d) -> exists s', revert s = Return s' /\ inside s0 s' d.
Proof.
  intros [Hi (p & [|c inner] & Hp & Hc & Hl & Hf)]; [done|].
  destruct (revert_spec s c _ Hi Hc) as (s' & E & Hi' & Hm & Hc' & Ha & Hv).
  exists s'. split; [done|]. split; [done|]. apply Forall_cons in Hf as [Hcm Hf].
  eexists (drop (length (modifications s) - c) p), inner.
  split_and!; try done; [|by injection Hl].
  eapply undoes_undone; try done. destruct Hp as (-> & _). rewrite length_app. lia.
Qed.

Lemma inside_run_op s0 s d o l e :
  inside s0 s d -> op_ok o -> depth d (o :: l) = Some e ->
  exists s' d', run_op s o = Return s' /\ inside s0 s' d' /\ depth d' l = Some e.
Proof.
  intros Hin Hok Hd. pose proof (proj1 Hin) as Hinv. destruct o; simpl in *.
  - destruct (putAccount_undoes s a Hinv) as [m Hm]. eexists _, d. split_and!; try done.
    eapply inside_step; try done; [by apply putAccount_inv|apply putAccount_checkPoints].
  - destruct (putValue_undoes s address key value Hinv) as [pre Hp].
    eexists _, d. split_and!; try done. eapply inside_step; try done; [by apply putValue_inv|].
    destruct (putValue_spec s address key value Hinv) as (_ & -> & _).
    by destruct (ensured_spec s address Hinv) as (_ & _ & _ & _ & -> & _).
  - eexists _, (S d). split_and!; try done. by apply inside_checkpoint.
  - destruct d as [|d]; [done|]. destruct (inside_commit _ _ _ Hin) as (s' & E & H). eauto.
  - destruct d as [|d]; [done|]. destruct (inside_revert _ _ _ Hin) as (s' & E & H). eauto.
Qed.

Lemma inside_run_ops s0 l : forall s d e,
  inside s0 s d -> Forall op_ok l -> depth d l = Some e ->
  exists s', run_ops s l = Return s' /\ inside s0 s' e.
Proof.
  induction l as [|o l IH]; intros s d e Hin Hok Hd.
  - simpl in Hd. injection Hd as <-. by exists s.
  - apply Forall_cons in Hok as [Ho Hok].
    destruct (inside_run_op _ _ _ _ _ _ Hin Ho Hd) as (s' & d' & E & Hin' & Hd').
    cbn [run_ops]. rewrite E. simpl. by eapply IH.
Qed.

Lemma inside_refl s : storage_inv s -> inside s s 0.
Proof. intros Hi. split; [done|]. exists [], []. by split_and!. Qed.

(** ** Collected differences *)

(** While differences are collected, an account difference is the account as
    it is stored, and every account that is not as it was when the collection
    began ([acc0]) has one. *)
Definition account_diffs_ok (acc0 : gmap string StoredAccount) (s : Storage) : Prop :=
  collectDiffs s = true
  /\ (forall k a, accountDiffs (diffs s) !! k = Some a -> accounts s !! k = Some a)
  /\ (forall k, accountDiffs (diffs s) !! k = None ->
        accounts s !! k = acc0 !! k).

Lemma putAccount_diffs s a :
  collectDiffs s = true ->
  collectDiffs (putAccount s a) = true
  /\ accountDiffs (diffs (putAccount s a))
     = <[TrimPrefix (sa_Address a) "0x" := set_sa_Address a (TrimPrefix (sa_Address a) "0x")]>
         (accountDiffs (diffs s)).
Proof. intros Hc. unfold putAccount. simpl. rewrite Hc. simpl. by case_match. Qed.

Lemma putAccount_diffs_ok acc0 s a :
  account_diffs_ok acc0 s -> account_diffs_ok acc0 (putAccount s a).
Proof.
  intros (Hc & Hs & Hn). destruct (putAccount_diffs s a Hc) as [Hc' Hd].
  split; [done|]. rewrite Hd, putAccount_accounts. split.
  - intros k b [[<- <-]|[Hne Hb]]%lookup_insert_Some.
    + by rewrite lookup_insert_eq.
    + rewrite lookup_insert_ne by done. by apply Hs.
  - intros k [Hk Hne]%lookup_insert_None. rewrite lookup_insert_ne by done. by apply Hn.
Qed.

Lemma putValue_diffs_ok acc0 s a k v :
  account_diffs_ok acc0 s -> account_diffs_ok acc0 (putValue s a k v).
Proof.
  intros H. assert (He : account_diffs_ok acc0 (ensured s a)).
  { unfold ensured. case_match; [done|]. by apply putAccount_diffs_ok. }
  unfold putValue. fold (ensured s a). destruct He as (Hc & Hs & Hn). simpl.
  rewrite Hc. by split_and!.
Qed.

(** A logged creation concerns an account that did not exist in [acc0]. *)
Definition creates_new (acc0 : gmap string StoredAccount) (m : Modification) : Prop :=
  match m with
  | ModAccount b => StoredAccount_IsEmpty b = true -> acc0 !! sa_Address b = None
  | ModMapping _ _ _ => True
  end.

Lemma revert_one_diffs_ok acc0 s m s' :
  account_diffs_ok acc0 s -> creates_new acc0 m -> revert_one s m = Return s' ->
  account_diffs_ok acc0 s'.
Proof.
  intros (Hc & Hs & Hn) Hm. destruct m as [a k v|b]; simpl in *.
  - destruct (mappings s !! a); [|done]. rewrite Hc. intros [= <-].
    destruct (bool_decide _); by split_and!.
  - rewrite Hc. destruct (StoredAccount_IsEmpty b); intros [= <-]; (split; [done|]); simpl; split.
    + intros k a [Hne Ha]%lookup_delete_Some. rewrite lookup_delete_ne by done. by apply Hs.
    + intros k Hk. destruct (decide (sa_Address b = k)) as [<-|Hne].
      * by rewrite lookup_delete_eq, Hm.
      * rewrite lookup_delete_ne in * by done. by apply Hn.
    + intros k a [[<- <-]|[Hne Ha]]%lookup_insert_Some; [by rewrite lookup_insert_eq|].
      rewrite lookup_insert_ne by done. by apply Hs.
    + intros k [Hk Hne]%lookup_insert_None. rewrite lookup_insert_ne by done. by apply Hn.
Qed.

Lemma revert_loop_diffs_ok acc0 ms : forall s s',
  account_diffs_ok acc0 s -> Forall (creates_new acc0) ms -> revert_loop s ms = Return s' ->
  account_diffs_ok acc0 s'.
Proof.
  induction ms as [|m ms IH]; intros s s' Hok Hms; simpl; [by intros [= <-]|].
  apply Forall_cons in Hms as [Hm Hms]. destruct (revert_one s m) eqn:E; simpl; [|done].
  apply IH; [|done]. by eapply revert_one_diffs_ok.
Qed.

Lemma undo_accounts_keeps acc0 k ms : forall acc,
  Forall (creates_new acc0) ms -> is_Some (acc0 !! k) -> is_Some (acc !! k) ->
  is_Some (undo_accounts ms acc !! k).
Proof.
  induction ms as [|m ms IH]; intros acc Hms H0 Hk; simpl; [done|].
  apply Forall_cons in Hms as [Hm Hms]. apply IH; [done|done|].
  destruct m as [|b]; simpl in *; [done|]. destruct (StoredAccount_IsEmpty b).
  - rewrite lookup_delete_ne; [done|]. intros <-. rewrite Hm in H0 by done. by destruct H0.
  - apply lookup_insert_is_Some'. auto.
Qed.

(** The collection is exact and no account of [s0] has been removed. *)
Definition collecting (s0 s : Storage) (d : nat) : Prop :=
  inside s0 s d /\ account_diffs_ok (accounts s0) s
  /\ (forall k, is_Some (accounts s0 !! k) -> is_Some (accounts s !! k))
  /\ forall pre, modifications s = pre ++ modifications s0 -> Forall (creates_new (accounts s0)) pre.

Lemma putAccount_collecting s0 s d a :
  sa_Nonce a <> ""%string -> collecting s0 s d -> collecting s0 (putAccount s a) d.
Proof.
  intros Hn (Hin & Hd & Hk & Hp). pose proof (proj1 Hin) as Hi. split_and!.
  - destruct (putAccount_undoes s a Hi) as [m Hm].
    eapply inside_step; try done; [by apply putAccount_inv|apply putAccount_checkPoints].
  - by apply putAccount_diffs_ok.
  - intros k Hs. rewrite putAccount_accounts. apply lookup_insert_is_Some'. auto.
  - intros pre. rewrite putAccount_modifications.
    destruct Hin as [_ (p & inner & (Hm & _) & _)]. rewrite Hm, app_comm_cons.
    intros <-%app_inv_tail. constructor; [|by apply Hp].
    destruct (accounts s !! TrimPrefix (sa_Address a) "0x") as [e|] eqn:E; simpl.
    + intros He. apply (inv_accounts _ Hi) in E as (_ & Hne & _).
      apply bool_decide_eq_true in He. done.
    + intros _. destruct (accounts s0 !! _) eqn:E0; [|done].
      destruct (Hk _ ltac:(by eexists)) as [? Hk']. congruence.
Qed.

Lemma ensured_collecting s0 s d a : collecting s0 s d -> collecting s0 (ensured s a) d.
Proof. intros H. unfold ensured. case_match; [done|]. by apply putAccount_collecting. Qed.

Lemma putValue_collecting s0 s d a k v : collecting s0 s d -> collecting s0 (putValue s a k v) d.
Proof.
  intros H. pose proof (ensured_collecting _ _ _ a H) as (Hin1 & Hd1 & Hk1 & Hp1).
  destruct H as (Hin & Hd & _). pose proof (proj1 Hin) as Hi.
  destruct (putValue_spec s a k v Hi) as (Ha & Hc & Hm & _). split_and!.
  - destruct (putValue_undoes s a k v Hi) as [pre Hpre]. eapply (inside_step s0 s); try done.
    + by apply putValue_inv.
    + rewrite Hc. by destruct (ensured_spec s a Hi) as (_ & _ & _ & _ & -> & _).
  - by apply putValue_diffs_ok.
  - by rewrite Ha.
  - intros pre. rewrite Hm. destruct Hin1 as [_ (p & inner & (Hm1 & _) & _)].
    rewrite Hm1, app_comm_cons. intros <-%app_inv_tail. constructor; [done|]. by apply Hp1.
Qed.

Lemma revert_collecting s0 s d :
  collecting s0 s (S d) -> exists s', revert s = Return s' /\ collecting s0 s' d.
Proof.
  intros (Hin & Hd & Hk & Hp). destruct (inside_revert _ _ _ Hin) as (s' & E & Hin').
  exists s'. split; [done|]. destruct Hin as [Hi (p & [|c inner] & Hu & Hc & Hl & Hf)]; [done|].
  apply Forall_cons in Hf as [Hcm _]. pose proof (Hp p (proj1 Hu)) as Hpre.
  destruct (revert_spec s c _ Hi Hc) as (s1 & E1 & _ & Hm1 & _ & Ha1 & _).
  rewrite E in E1. injection E1 as <-. set (n := (length (modifications s) - c)%nat) in *.
  assert (Hn : (n <= length p)%nat).
  { destruct Hu as (Hm & _). unfold n. rewrite Hm, length_app. lia. }
  destruct (undoes_split _ _ _ n Hu Hn) as [Ht Hdr].
  unfold revert in E. rewrite Hc in E. simpl in E.
  destruct (length (modifications s) <? c)%nat; [done|]. fold n in E.
  destruct (revert_loop s (take n (modifications s))) as [s1|] eqn:El; simpl in E; [|done].
  injection E as <-. split_and!; try done.
  - eapply revert_loop_diffs_ok in El; [exact El|done|]. rewrite Ht. by apply Forall_take.
  - intros k Hsome. rewrite Ha1, Ht. apply (undo_accounts_keeps (accounts s0)); auto.
    by apply Forall_take.
  - rewrite Hm1, Hdr. intros pre <-%app_inv_tail. by apply Forall_drop.
Qed.

Lemma collecting_run_ops s0 l : forall s d e,
  collecting s0 s d -> Forall op_ok l -> depth d l = Some e ->
  exists s', run_ops s l = Return s' /\ collecting s0 s' e.
Proof.
  induction l as [|o l IH]; intros s d e Hin Hok Hd.
  - simpl in Hd. injection Hd as <-. by exists s.
  - apply Forall_cons in Hok as [Ho Hok].
    enough (exists s' d', run_op s o = Return s' /\ collecting s0 s' d' /\ depth d' l = Some e)
      as (s' & d' & E & Hin' & Hd') by (cbn [run_ops]; rewrite E; simpl; by eapply IH).
    destruct o; simpl in *.
    + eexists _, d. split_and!; try done. by apply putAccount_collecting.
    + eexists _, d. split_and!; try done. by apply putValue_collecting.
    + eexists _, (S d). split_and!; try done. destruct Hin as (Hin & ? & ? & ?).
      split_and!; try done. by apply inside_checkpoint.
    + destruct d as [|d]; [done|]. destruct Hin as (Hin & ? & ? & ?).
      destruct (inside_commit _ _ _ Hin) as (s' & E & H'). exists s', d. split_and!; try done.
      unfold commit in E. destruct (checkPoints s); [done|]. injection E as <-. by split_and!.
    + destruct d as [|d]; [done|]. destruct (revert_collecting _ _ _ Hin) as (s' & E & H). eauto.
Qed.

(** ** Properties *)

(** No sequence of account writes, storage writes and properly nested
    checkpoints, commits and reverts makes the store panic: it runs to the end
    and keeps the store's invariant (accounts filed under their address with a
    nonce and a storage map, an undo log [revert] can replay, checkpoints in
    order within the log). *)
Theorem storage_runs_safely (s : Storage) (l : list op) (e : nat) :
  storage_inv s -> Forall op_ok l -> depth 0 l = Some e ->
  exists s', run_ops s l = Return s' /\ storage_inv s'
  /\ length (checkPoints s') = (e + length (checkPoints s))%nat.
Proof.
  intros Hi Hok Hd. destruct (inside_run_ops s l s 0 e (inside_refl s Hi) Hok Hd) as (s' & E & H).
  exists s'. split; [done|]. destruct H as [Hi' (pre & inner & _ & Hc & Hl & _)].
  split; [done|]. rewrite Hc, length_app. lia.
Qed.

Definition sample_account : StoredAccount := new_account "0xab" "12" "3" 0.
Definition sample_ops : list op :=
  [OPutAccount sample_account; OCheckpoint; OPutValue [xab] [x01] [x07]; ORevert;
   OPutValue [xcd] [x02] [x09]; OCheckpoint; OCommit].

Lemma storage_runs_safely_witness :
  exists s', run_ops NewStorage sample_ops = Return s' /\ storage_inv s'.
Proof.
  destruct (storage_runs_safely NewStorage sample_ops 0) as (s' & E & H & _);
    [exact storage_inv_new|repeat constructor; discriminate|reflexivity|].
  exists s'. split; [exact E|exact H].
Defined.

(** C3: [revert] undoes everything done since the matching [checkpoint]: after
    any properly nested sequence of writes, checkpoints, commits and reverts,
    reverting gives back the accounts and the contents of every storage cell,
    the undo log and the checkpoints of the moment of the checkpoint. *)
Theorem revert_restores_checkpoint (s : Storage) (l : list op) :
  storage_inv s -> Forall op_ok l -> depth 0 l = Some 0%nat ->
  exists s1 s2, run_ops (checkpoint s) l = Return s1 /\ revert s1 = Return s2
  /\ same_state s2 s /\ modifications s2 = modifications s /\ checkPoints s2 = checkPoints s
  /\ storage_inv s2.
Proof.
  intros Hi Hok Hd.
  destruct (inside_run_ops (checkpoint s) l (checkpoint s) 0 0) as (s1 & E & H); try done.
  { by apply inside_refl, checkpoint_inv. }
  destruct H as [Hi1 (pre & [|] & Hu & Hc & Hl & _)]; [|done]. simpl in Hc.
  destruct (revert_spec s1 _ _ Hi1 Hc) as (s2 & E2 & Hi2 & Hm & Hc2 & Ha & Hv).
  exists s1, s2. split; [done|]. split; [done|].
  assert (Hn : (length (modifications s1) - length (modifications s))%nat = length pre).
  { destruct Hu as (-> & _). rewrite length_app. simpl. lia. }
  rewrite Hn in Hm, Ha, Hv.
  destruct (undoes_undone _ _ s2 _ (length pre) Hu) as (Hm' & Ha' & Hv'); try done.
  rewrite drop_all in *. simpl in *. by split_and!.
Qed.

Lemma revert_restores_checkpoint_witness :
  exists s1 s2, run_ops (checkpoint (putValue NewStorage [xab] [x01] [x05])) sample_ops = Return s1
  /\ revert s1 = Return s2 /\ fst (getValue s2 [xab] [x01]) = [x05].
Proof.
  destruct (revert_restores_checkpoint (putValue NewStorage [xab] [x01] [x05]) sample_ops)
    as (s1 & s2 & E1 & E2 & Hs & _);
    [apply putValue_inv, storage_inv_new|repeat constructor; discriminate|reflexivity|].
  exists s1, s2. split; [exact E1|]. split; [exact E2|].
  assert (Server_GetContractCodeStorage s2 (Some [xab]) (Some [x01]) = Return [x05]) as Hv
    by (rewrite Hs; reflexivity).
  injection Hv as Hv. exact Hv.
Defined.

(** Contract storage is a map: after [putValue] the cell reads as the
    value, any other cell of any account reads as before, and the account
    exists. *)
Theorem putValue_getValue (s : Storage) (a k v a' k' : bytes) :
  storage_inv s ->
  getValue (putValue s a k v) a k = (v, true)
  /\ ((a', k') <> (a, k) -> is_Some (getAccount s a') ->
        fst (getValue (putValue s a k v) a' k') = fst (getValue s a' k')).
Proof.
  intros Hi. destruct (ensured_spec s a Hi) as (Hi1 & [acc Hacc] & [st Hst] & Hv1 & _).
  destruct (putValue_spec s a k v Hi) as (Ha & _ & _ & _ & Hv). split.
  - destruct (inv_accounts _ Hi1 _ _ Hacc) as (Hk & _).
    unfold getValue. rewrite Ha, Hacc, Hk. unfold putValue. fold (ensured s a). rewrite Hst. simpl.
    destruct (collectDiffs (ensured s a)); simpl; by rewrite !lookup_insert_eq.
  - intros Hne [acc' Hacc'].
    assert (E' : getAccount (putValue s a k v) a' = Some acc').
    { unfold getAccount in *. rewrite Ha. unfold ensured. case_match; [done|].
      rewrite putAccount_accounts. simpl. rewrite TrimPrefix_hex, lookup_insert_ne; congruence. }
    rewrite (getValue_val _ _ _ _ E'), (getValue_val _ _ _ _ Hacc'), Hv, Hv1. simpl.
    destruct (inv_accounts _ Hi _ _ Hacc') as (Hk & _). rewrite Hk.
    rewrite decide_False; [done|].
    intros [<-%hex_EncodeToString_inj <-%hex_EncodeToString_inj]. done.
Qed.

Lemma putValue_getValue_witness :
  getValue (putValue NewStorage [xab] [x01] [x05]) [xab] [x01] = ([x05], true).
Proof. apply (putValue_getValue NewStorage [xab] [x01] [x05] [] []), storage_inv_new. Defined.

(** C14: the differences collected for a pin cover every account that changed:
    after any properly nested sequence of writes, checkpoints, commits and
    reverts made while collecting, started with no difference collected, every
    collected account is the stored one, and every account without a difference
    is as it was at the start.  (Not every collected account changed: a write
    that is reverted leaves the difference of an account that is as before.) *)
Theorem account_diffs_cover (s s0 : Storage) (l : list op) (e : nat) :
  storage_inv s -> diffs s = Diffs_reset (diffs s) -> CaptureStateStoreDiffs s = Return s0 ->
  Forall op_ok l -> depth 0 l = Some e ->
  exists s', run_ops s0 l = Return s' /\ account_diffs_ok (accounts s) s'.
Proof.
  intros Hi Hd Hcap Hok Hdep. unfold CaptureStateStoreDiffs in Hcap.
  destruct (collectDiffs s); [done|]. injection Hcap as <-.
  set (s0 := with_diffs s true (diffs s)).
  assert (Hi0 : storage_inv s0) by by destruct Hi.
  destruct (collecting_run_ops s0 l s0 0 e) as (s' & E & _ & Hres & _); try done; [|by exists s'].
  split_and!; [by apply inside_refl| |done|].
  - split_and!; try done; simpl; rewrite Hd; simpl; intros k a; by rewrite lookup_empty.
  - intros pre Hpre. replace pre with (@nil Modification); [constructor|].
    apply (app_inv_tail (modifications s0)). by rewrite <- Hpre.
Qed.

Lemma account_diffs_cover_witness :
  exists s0 s', CaptureStateStoreDiffs (putAccount NewStorage sample_account) = Return s0
  /\ run_ops s0 sample_ops = Return s'
  /\ account_diffs_ok (accounts (putAccount NewStorage sample_account)) s'.
Proof.
  set (s := putAccount NewStorage sample_account).
  destruct (account_diffs_cover s (with_diffs s true (diffs s)) sample_ops 0)
    as (s' & E & H); [apply putAccount_inv; [exact storage_inv_new|discriminate]
    |reflexivity|reflexivity|repeat constructor; discriminate|reflexivity|].
  exists (with_diffs s true (diffs s)), s'. split; [reflexivity|]. split; [exact E|exact H].
Defined.

(** Storage differences are not exact: a cell that held 5 and is set to
    zero while collecting loses its difference when a later write to it is
    reverted, although it no longer holds 5. *)
Theorem mapping_diff_lost_by_revert :
  let s := putValue NewStorage [xab] [x01] [x05] in
  match CaptureStateStoreDiffs s with
  | Return s0 =>
      match run_ops s0 [OPutValue [xab] [x01] emptyArray] with
      | Return s1 =>
          Diffs_size (diffs s1) = 1%nat
          /\ match run_ops s1 [OCheckpoint; OPutValue [xab] [x01] [x07]; ORevert] with
             | Return s2 =>
                 fst (getValue s [xab] [x01]) = [x05]
                 /\ fst (getValue s2 [xab] [x01]) = emptyArray
                 /\ Diffs_size (diffs s2) = 0%nat
             | Panic => False
             end
      | Panic => False
      end
  | Panic => False
  end.
Proof. vm_compute. auto. Qed.

(** ** Synchronising balances *)

(** The text of a 20-byte address, as the pins key their balances. *)
Definition address_text (a : bytes) : string := ("0x" ++ hex_EncodeToString a)%string.

Definition canonical (k : string) : Prop := exists a, length a = 20%nat /\ k = address_text a.

Lemma address_text_inj a b : address_text a = address_text b -> a = b.
Proof. intros E%string_app_inj_l. by apply hex_EncodeToString_inj. Qed.

(** The account has the balance [v] and otherwise is the old one, or is new. *)
Definition synced (v : bytes) (old : option StoredAccount) (acc : StoredAccount) : Prop :=
  dec_Parse (sa_Balance acc) = Some (SetBytes v)
  /\ sa_Nonce acc = match old with Some o => sa_Nonce o | None => "0"%string end
  /\ sa_Code acc = match old with Some o => sa_Code o | None => ""%string end.

Lemma getAccount_putAccount s acc b :
  getAccount (putAccount s acc) b
  = if decide (TrimPrefix (sa_Address acc) "0x" = hex_EncodeToString b)
    then Some (set_sa_Address acc (TrimPrefix (sa_Address acc) "0x")) else getAccount s b.
Proof.
  unfold getAccount. rewrite putAccount_accounts. case_decide as E.
  - by rewrite E, lookup_insert_eq.
  - by rewrite lookup_insert_ne.
Qed.

Lemma SyncBalance_spec now s a v :
  storage_inv s -> length a = 20%nat ->
  exists s' acc, SyncBalance now s (address_text a) v = Return s' /\ storage_inv s'
  /\ getAccount s' a = Some acc /\ synced v (getAccount s a) acc
  /\ forall b, b <> a -> getAccount s' b = getAccount s b.
Proof.
  intros Hi Ha. unfold SyncBalance.
  rewrite (AddressToBytes_BytesToAddress a) by by apply BytesToAddress_20. simpl.
  destruct (getAccount s a) as [o|] eqn:E.
  - destruct (inv_accounts _ Hi _ _ E) as (Hk & Hn & _).
    eexists _, _. split; [reflexivity|]. split; [by apply putAccount_inv|].
    setoid_rewrite getAccount_putAccount. simpl. rewrite Hk, TrimPrefix_hex.
    rewrite decide_True by done. split; [reflexivity|]. split.
    + split; simpl; [by rewrite dec_Parse_String|done].
    + intros b Hb. rewrite decide_False; [done|].
      intros E'%hex_EncodeToString_inj. congruence.
  - eexists _, _. split; [reflexivity|]. split; [by apply putAccount_inv|].
    setoid_rewrite getAccount_putAccount. simpl. unfold address_text. rewrite TrimPrefix_0x.
    rewrite decide_True by done. split; [reflexivity|]. split.
    + split; simpl; [by rewrite dec_Parse_String|done].
    + intros b Hb. rewrite decide_False; [done|].
      intros E'%hex_EncodeToString_inj. congruence.
Qed.

Lemma SyncBalances_loop_spec now l : forall s,
  storage_inv s -> NoDup l.*1 -> Forall (fun p => canonical (fst p)) l ->
  exists s', SyncBalances_loop now s l = Return s' /\ storage_inv s'
  /\ (forall a v, (address_text a, v) ∈ l ->
         exists acc, getAccount s' a = Some acc /\ synced v (getAccount s a) acc)
  /\ (forall a, address_text a ∉ l.*1 -> getAccount s' a = getAccount s a).
Proof.
  induction l as [|[k v] l IH]; intros s Hi Hnd Hc; cbn [SyncBalances_loop].
  - exists s. split_and!; try done. intros a v []%not_elem_of_nil.
  - apply NoDup_cons in Hnd as [Hk Hnd]. apply Forall_cons in Hc as [(a & Ha & Hka) Hc].
    simpl in Hka. subst k.
    destruct (SyncBalance_spec now s a v Hi Ha) as (s1 & acc & E1 & Hi1 & Hg1 & Hs1 & Ho1).
    rewrite E1. simpl. destruct (IH s1 Hi1 Hnd Hc) as (s2 & E2 & Hi2 & Hin2 & Hout2).
    exists s2. split_and!; try done.
    + intros b w [E|Hb]%elem_of_cons.
      * apply pair_equal_spec in E as [E ->]. apply address_text_inj in E as ->. exists acc. by rewrite Hout2.
      * destruct (Hin2 b w Hb) as (acc' & Hg & Hs). exists acc'. split; [done|].
        assert (b <> a).
        { intros ->. apply Hk. apply list_elem_of_fmap. by exists (address_text a, w). }
        by rewrite <- (Ho1 b).
    + intros b [Hb1 Hb2]%not_elem_of_cons. rewrite Hout2 by done. apply Ho1. congruence.
Qed.

(** [SyncBalances] makes the store agree with a pin: whatever the order in
    which the map is visited, every address of the pin has an account whose
    balance reads as the pin's (its nonce and code kept, or a new account with
    nonce 0), and no other account changes. *)
Theorem SyncBalances_agrees `{MapRange} (now : Z) (s : Storage) (balances : gmap string bytes) :
  storage_inv s -> (forall k, is_Some (balances !! k) -> canonical k) ->
  exists s', SyncBalances now s balances = Return s' /\ storage_inv s'
  /\ (forall a v, balances !! address_text a = Some v ->
         exists acc, getAccount s' a = Some acc /\ synced v (getAccount s a) acc)
  /\ (forall a, balances !! address_text a = None -> getAccount s' a = getAccount s a).
Proof.
  intros Hi Hc. destruct (SyncBalances_loop_spec now (map_range balances) s) as
    (s' & E & Hi' & Hin & Hout); [done|apply map_range_NoDup| |].
  - apply Forall_forall. intros [k v] Hk%elem_of_map_range. apply Hc. by eexists.
  - exists s'. split_and!; try done.
    + intros a v Hv. apply Hin. by apply elem_of_map_range.
    + intros a Hn. apply Hout. intros [[k v] [E' Hv]]%list_elem_of_fmap.
      apply elem_of_map_range in Hv. cbn [fst] in E'. congruence.
Qed.

Lemma SyncBalances_agrees_witness :
  exists s', SyncBalances 0 NewStorage {[address_text (replicate 20 x07) := [x01; x00]]} = Return s'
  /\ exists acc, getAccount s' (replicate 20 x07) = Some acc
                 /\ dec_Parse (sa_Balance acc) = Some 256.
Proof.
  destruct (SyncBalances_agrees 0 NewStorage {[address_text (replicate 20 x07) := [x01; x00]]})
    as (s' & E & _ & Hin & _); [exact storage_inv_new| |].
  - intros k [v [<- _]%lookup_singleton_Some]. exists (replicate 20 x07). split; reflexivity.
  - exists s'. split; [exact E|].
    destruct (Hin (replicate 20 x07) [x01; x00]) as (acc & Hg & Hb & _);
      [apply lookup_singleton_eq|].
    exists acc. split; [exact Hg|exact Hb].
Defined.

(** ** Searching logs *)

Definition log_matches (r : SearchLogRequest) (l : Log) : bool :=
  (r_PinFrom r <=? l_PinTxNumber l) && (l_PinTxNumber l <=? r_PinTo r)
  && topics_match (r_Topics r) (Topics l).

Lemma search_loop_filter r l acc : search_loop r l acc = acc ++ List.filter (log_matches r) l.
Proof.
  revert acc. induction l as [|x l IH]; intros acc; simpl; [by rewrite app_nil_r|].
  unfold log_matches at 1.
  destruct (Z.ltb_spec (r_PinTo r) (l_PinTxNumber x)), (Z.ltb_spec (l_PinTxNumber x) (r_PinFrom r)),
    (Z.leb_spec (r_PinFrom r) (l_PinTxNumber x)), (Z.leb_spec (l_PinTxNumber x) (r_PinTo r));
    simpl; try lia; try apply IH.
  destruct (topics_match (r_Topics r) (Topics x)); rewrite IH; [|done]. by rewrite <- app_assoc.
Qed.

Lemma paginate_spec {A} limit offset (l : list A) :
  0 <= limit -> 0 <= offset ->
  paginate limit offset l = Return (take (Z.to_nat limit) (drop (Z.to_nat offset) l)).
Proof.
  intros Hl Ho. unfold paginate. destruct (Z.leb_spec (Z.of_nat (length l)) offset).
  - rewrite drop_ge by lia. by rewrite take_nil.
  - destruct (Z.ltb_spec offset 0); [lia|]. destruct (Z.ltb_spec (Z.of_nat (length (drop (Z.to_nat offset) l))) limit).
    + rewrite take_ge by lia. done.
    + destruct (Z.ltb_spec limit 0); [lia|]. done.
Qed.

(** [SearchLogs] returns one page of the matching logs, newest first: the
    logs of the contract within the pin range whose topics match, in reverse
    order of storage, without the first [Offset] and at most [Limit]; an
    unknown contract has none. *)
Theorem SearchLogs_pages (s : Storage) (r : SearchLogRequest) :
  0 <= r_Limit r -> 0 <= r_Offset r ->
  SearchLogs s r
  = Return (take (Z.to_nat (r_Limit r)) (drop (Z.to_nat (r_Offset r))
      (List.filter (log_matches r) (rev (default [] (logs s !! TrimPrefix (r_Address r) "0x")))))).
Proof.
  intros Hl Ho. unfold SearchLogs. destruct (logs s !! _) as [l|]; simpl.
  - by rewrite search_loop_filter, paginate_spec.
  - by rewrite drop_nil, take_nil.
Qed.

Lemma SearchLogs_pages_witness :
  SearchLogs (with_logs NewStorage {["ab"%string := [Build_Log [xab] [[x01]] [] 1 []; Build_Log [xab] [[x02]] [] 2 []]]})
    {| r_Address := "0xab"; r_Topics := ["0x02"%string]; r_Limit := 5; r_Offset := 0;
       r_PinFrom := 0; r_PinTo := 9 |}
  = Return [Build_Log [xab] [[x02]] [] 2 []].
Proof.
  rewrite (SearchLogs_pages (with_logs NewStorage _)); [vm_compute; reflexivity|simpl; lia|simpl; lia].
Defined.
