(* ===== verification/StateServer.v ===== *)
(** The state server of the contract VM: the gRPC service of [vm/server.go]
    that the VM calls while it executes a contract.

    The handlers of accounts, code and storage are with the store; here are
    those that open and close transactions and save logs, the service as a
    whole, and when a sequence of calls makes it panic. *)
From S2P Require Import Prelude GoLib Bytes Tx Storage StorageProps.

Section Server.
Context `{CryptoLib} `{ProtoLib} `{TimestampLib}.
Variable undef : string -> Z.
Variable exec : option Txv1.      (** the transaction that the VM executes *)
Variable now : Z.

Definition Server_StateCheckpoint (s : Storage) : Storage := checkpoint s.
Definition Server_StateCommit (s : Storage) : outcome Storage := commit s.
Definition Server_StateRevert (s : Storage) : outcome Storage := revert s.

(** The store afterwards and whether there was no error. *)
Definition Server_SaveLogs (s : Storage) (l : list pb_Log) : outcome (Storage * bool) :=
  let! r := putLogs exec s l in
  Return (fst r, match snd r with inl _ => true | inr _ => false end).

(** ** The service *)

(** Addresses, keys, values and codes are messages of their own; one inside
    another message may be absent. *)
Inductive request :=
| GetAccount (address : bytes)
| CreateAccount (address : bytes)
| PutContractCode (address code : option bytes)
| GetContractCode (address : bytes)
| AddBalance (address : option bytes) (amount : string)
| SubBalance_ (address : option bytes) (amount : string)
| GetContractCodeStorage (address key : option bytes)
| PutContractStorage (address key value : option bytes)
| StateCheckpoint
| StateCommit
| StateRevert
| SetNonce (address : option bytes) (nonce : Z)
| SaveLogs (logs : list pb_Log).

Inductive response := OpResult | Error | AccountResult (a : pb_Account) | BytesResult (b : bytes).

Definition answered (s : Storage) (r : outcome (option Storage)) : outcome (Storage * response) :=
  let! o := r in
  Return (match o with None => (s, Error) | Some s' => (s', OpResult) end).

Definition serve (s : Storage) (r : request) : outcome (Storage * response) :=
  match r with
  | GetAccount a =>
      let! o := Server_GetAccount s a in
      Return (s, match o with None => Error | Some x => AccountResult x end)
  | CreateAccount a => Return (Server_CreateAccount s now a, OpResult)
  | PutContractCode a code => answered s (Server_PutContractCode s a code)
  | GetContractCode a =>
      Return (s, match Server_GetContractCode s a with None => Error | Some b => BytesResult b end)
  | AddBalance a amount => answered s (Server_AddBalance undef s a amount)
  | SubBalance_ a amount => answered s (Server_SubBalance undef s a amount)
  | GetContractCodeStorage a k =>
      let! b := Server_GetContractCodeStorage s a k in Return (s, BytesResult b)
  | PutContractStorage a k v =>
      let! s := Server_PutContractStorage s a k v in Return (s, OpResult)
  | StateCheckpoint => Return (Server_StateCheckpoint s, OpResult)
  | StateCommit => let! s := Server_StateCommit s in Return (s, OpResult)
  | StateRevert => let! s := Server_StateRevert s in Return (s, OpResult)
  | SetNonce a n => answered s (Server_SetNonce s a n)
  | SaveLogs l => let! x := Server_SaveLogs s l in Return (fst x, if snd x then OpResult else Error)
  end.

Fixpoint serve_all (s : Storage) (l : list request) : outcome (Storage * list response) :=
  match l with
  | [] => Return (s, [])
  | r :: rest =>
      let! x := serve s r in
      let! y := serve_all (fst x) rest in
      Return (fst y, snd x :: snd y)
  end.

(** Open transactions after the calls; [None] when one is closed that is not open. *)
Fixpoint nesting (d : nat) (l : list request) : option nat :=
  match l with
  | [] => Some d
  | StateCheckpoint :: rest => nesting (S d) rest
  | (StateCommit | StateRevert) :: rest => match d with O => None | S d' => nesting d' rest end
  | _ :: rest => nesting d rest
  end.

(** Nonces are 64 bits wide. *)
Definition request_ok (r : request) : Prop :=
  match r with SetNonce _ n => - 2 ^ 63 <= n < 2 ^ 63 | _ => True end.

(** Logs that cannot be saved: the loop comes to one without an address, or to
    one of an account of the store while no transaction is executed, before it
    comes to one of an unknown account. *)
Fixpoint logs_fatal (s : Storage) (l : list pb_Log) : bool :=
  match l with
  | [] => false
  | x :: rest =>
      match pb_ContractAddress x with
      | None => true
      | Some a =>
          match getAccount s a, exec with
          | None, _ => false
          | Some _, None => true
          | Some _, Some _ => logs_fatal s rest
          end
      end
  end.

Definition absent {A} (o : option A) : bool := match o with None => true | Some _ => false end.

(** The requests that end the process: a transaction is closed that is not open,
    or a sub-message is read that is absent. The code of a contract is read only
    when its account exists. *)
Definition fatal (s : Storage) (r : request) : bool :=
  match r with
  | PutContractCode None _ => true
  | PutContractCode (Some a) code => match getAccount s a with None => false | Some _ => absent code end
  | AddBalance a _ | SubBalance_ a _ | SetNonce a _ => absent a
  | GetContractCodeStorage a k => absent a || absent k
  | PutContractStorage a k v => absent a || absent k || absent v
  | StateCommit | StateRevert => match checkPoints s with [] => true | _ => false end
  | SaveLogs l => logs_fatal s l
  | GetAccount _ | CreateAccount _ | GetContractCode _ | StateCheckpoint => false
  end.

(** A request none of whose sub-messages is absent. *)
Definition complete (r : request) : bool :=
  negb match r with
       | PutContractCode a b | GetContractCodeStorage a b => absent a || absent b
       | AddBalance a _ | SubBalance_ a _ | SetNonce a _ => absent a
       | PutContractStorage a k v => absent a || absent k || absent v
       | SaveLogs l => existsb (fun x => absent (pb_ContractAddress x)) l
       | _ => false
       end.

(** ** The invariant *)

(** An account that [GetAccount] can read. *)
Definition readable (a : StoredAccount) : Prop :=
  is_Some (ParseInt64 (sa_Nonce a)) /\ exists b, sa_Address a = hex_EncodeToString b.

Definition logged_readable (m : Modification) : Prop :=
  match m with ModAccount a => StoredAccount_IsEmpty a = false -> readable a | ModMapping _ _ _ => True end.

Record server_inv (s : Storage) : Prop := {
  server_store : storage_inv s;
  server_accounts : forall k a, accounts s !! k = Some a -> readable a;
  server_log : Forall logged_readable (modifications s)
}.

Lemma server_inv_new : server_inv NewStorage.
Proof using Type. split; [apply storage_inv_new| |by constructor]. intros k a. simpl. by rewrite lookup_empty. Qed.

Lemma ParseInt64_String z : - 2 ^ 63 <= z < 2 ^ 63 -> ParseInt64 (dec_String z) = Some z.
Proof using Type.
  intros Hz. unfold ParseInt64. rewrite dec_Parse_String.
  destruct (Z.leb_spec (- 2 ^ 63) z); [|lia]. destruct (Z.ltb_spec z (2 ^ 63)); [done|lia].
Qed.

Lemma readable_nonce a : readable a -> sa_Nonce a <> ""%string.
Proof using Type. intros [[z Hz] _] E. rewrite E in Hz. vm_compute in Hz. discriminate Hz. Qed.

Lemma putAccount_server s a : server_inv s -> readable a -> server_inv (putAccount s a).
Proof using Type.
  intros [Hs Ha Hl] Hr. pose proof Hr as [Hn [b Hb]]. split.
  - by apply putAccount_inv, readable_nonce.
  - intros k a'. rewrite putAccount_accounts. intros [[_ <-]|[_ H']]%lookup_insert_Some; [|by eapply Ha].
    split; [done|]. exists b. simpl. by rewrite Hb, TrimPrefix_hex.
  - rewrite putAccount_modifications. constructor; [|done].
    case_match eqn:E; simpl; [intros _; by eapply Ha|done].
Qed.

Lemma putValue_server s a k v : server_inv s -> server_inv (putValue s a k v).
Proof using Type.
  intros Hi. assert (server_inv (ensured s a)) as [_ Ha Hl].
  { unfold ensured. case_match; [done|]. apply putAccount_server; [done|]. split; [by eexists|by exists a]. }
  destruct (putValue_spec s a k v (server_store _ Hi)) as (Ea & _ & Em & _). split.
  - apply putValue_inv, Hi.
  - intros x b. rewrite Ea. apply Ha.
  - rewrite Em. by constructor.
Qed.

Lemma revert_server s c cps :
  server_inv s -> checkPoints s = c :: cps ->
  exists s', revert s = Return s' /\ server_inv s' /\ checkPoints s' = cps.
Proof using Type.
  intros [Hs Ha Hl] Hc. destruct (revert_spec s c cps Hs Hc) as (s' & E & Hi & Hm & Hcp & Hacc & _).
  exists s'. split; [done|]. split; [|done]. split; [done| |].
  - rewrite Hacc. apply (undo_accounts_inv (fun _ a => readable a)); [|done].
    eapply Forall_impl; [by apply Forall_take|]. by intros [|b].
  - rewrite Hm. by apply Forall_drop.
Qed.

(** Logs leave accounts, storage and transactions alone. *)
Definition same_store (s t : Storage) : Prop :=
  accounts t = accounts s /\ mappings t = mappings s /\ modifications t = modifications s /\ checkPoints t = checkPoints s.

Lemma same_store_inv s t : same_store s t -> server_inv s -> server_inv t.
Proof using Type.
  intros (Ea & Em & Eo & Ec) [[I1 I2 I3 I4] Ha Hl].
  split; [split|..]; unfold mod_ok; rewrite ?Ea, ?Em, ?Eo, ?Ec; done.
Qed.

Lemma logs_fatal_logs s m l : logs_fatal (with_logs s m) l = logs_fatal s l.
Proof using Type. induction l as [|y l IH]; simpl; [done|]. by rewrite IH. Qed.

Lemma putLogs_loop_store l : forall s stored,
  if logs_fatal s l then putLogs_loop exec s stored l = Panic
  else exists t r, putLogs_loop exec s stored l = Return (t, r) /\ same_store s t.
Proof using Type.
  induction l as [|x l IH]; intros s stored; simpl; [by do 2 eexists|].
  destruct (pb_ContractAddress x) as [a|] eqn:Ea; [|done]. simpl. unfold getAccount.
  destruct (accounts s !! hex_EncodeToString a); simpl; [|by do 2 eexists].
  unfold Log_fromPb. destruct exec as [t|] eqn:Hx; [|done]. rewrite Ea. simpl.
  match goal with |- context [putLogs_loop _ ?s1 ?st l] => specialize (IH s1 st) end.
  rewrite logs_fatal_logs in IH. destruct (logs_fatal s l); [done|]. destruct IH as (t' & r & E & Hs).
  exists t', r. split; [exact E|]. exact Hs.
Qed.

(** ** One call *)

Definition opens (r : request) : bool := match r with StateCheckpoint => true | _ => false end.
Definition closes (r : request) : bool := match r with StateCommit | StateRevert => true | _ => false end.

(** Open transactions after an answered request. *)
Definition depth_after (r : request) (d : nat) : nat :=
  if opens r then S d else if closes r then pred d else d.

(** A handler that rewrites an account of the store. *)
Lemma rewritten_account s a (f : StoredAccount -> StoredAccount) :
  server_inv s -> (forall x, readable x -> readable (f x)) ->
  exists t r, answered s (match getAccount s a with None => Return None | Some x => Return (Some (putAccount s (f x))) end)
    = Return (t, r) /\ server_inv t /\ length (checkPoints t) = length (checkPoints s).
Proof using Type.
  intros Hi Hf. destruct (getAccount s a) as [x|] eqn:E; simpl; do 2 eexists; (split; [done|]); [|done].
  split; [|by rewrite putAccount_checkPoints]. apply putAccount_server; [done|]. apply Hf. by eapply (server_accounts _ Hi).
Qed.

Lemma serve_closes s r :
  server_inv s -> closes r = true ->
  match checkPoints s with
  | [] => serve s r = Panic
  | _ :: cps => exists t, serve s r = Return (t, OpResult) /\ server_inv t /\ checkPoints t = cps
  end.
Proof using Type.
  intros Hi Hr. destruct (checkPoints s) as [|c cps] eqn:E; destruct r; try done; simpl.
  - unfold Server_StateCommit, commit. by rewrite E.
  - unfold Server_StateRevert, revert. by rewrite E.
  - destruct (commit s) as [t|] eqn:Ec; [|unfold commit in Ec; by rewrite E in Ec].
    exists t. unfold Server_StateCommit. rewrite Ec. split; [done|].
    pose proof (commit_inv s t (server_store _ Hi) Ec) as Ht. unfold commit in Ec. rewrite E in Ec. injection Ec as <-.
    split; [|done]. destruct Hi as [Hs Ha Hl]. by split.
  - destruct (revert_server s c cps Hi E) as (t & Et & It & Ct). exists t. unfold Server_StateRevert. by rewrite Et.
Qed.

(** A fatal request panics, any other is answered. *)
Lemma serve_outcome s r :
  server_inv s -> request_ok r ->
  if fatal s r then serve s r = Panic
  else exists t x, serve s r = Return (t, x) /\ server_inv t
       /\ length (checkPoints t) = depth_after r (length (checkPoints s)).
Proof using Type.
  intros Hi Hok. destruct (closes r) eqn:Hc.
  { pose proof (serve_closes s r Hi Hc) as Hs. destruct r; try done; unfold fatal;
      (destruct (checkPoints s) as [|c cps]; [done|]); destruct Hs as (t & E & It & Ct); exists t, OpResult; by rewrite Ct. }
  destruct r; simpl in *; try done; try (destruct address as [address|]; [|done]); simpl.
  - unfold Server_GetAccount. destruct (getAccount s address) as [a|] eqn:E; [|by do 2 eexists].
    destruct (server_accounts _ Hi _ _ E) as [[n Hn] [b Hb]]. rewrite Hn. unfold StoredAccount_AddressBytes.
    rewrite Hb, hex_Decode_Encode. by do 2 eexists.
  - do 2 eexists. split; [done|]. unfold Server_CreateAccount. split; [|by rewrite putAccount_checkPoints].
    apply putAccount_server; [done|]. split; [by eexists|by exists address].
  - unfold Server_PutContractCode. simpl. destruct code as [code|]; simpl.
    + pose proof (rewritten_account s address (fun a => set_sa_Code a (hex_EncodeToString (keccak256 [])) (hex_EncodeToString code)) Hi) as Hr.
      destruct (getAccount s address); by apply Hr.
    + destruct (getAccount s address); [done|]. by do 2 eexists.
  - by do 2 eexists.
  - apply (rewritten_account s address (fun a => set_sa_Balance a (dec_String (big_SetString undef (sa_Balance a) + big_SetString undef amount))) Hi). done.
  - apply (rewritten_account s address (fun a => set_sa_Balance a (dec_String (big_SetString undef (sa_Balance a) - big_SetString undef amount))) Hi). done.
  - destruct key; [|done]. by do 2 eexists.
  - destruct key as [key|]; [|done]. destruct value as [value|]; [|done].
    do 2 eexists. split; [done|]. split; [by apply putValue_server|].
    destruct (putValue_spec s address key value (server_store _ Hi)) as (_ & -> & _).
    destruct (ensured_spec s address (server_store _ Hi)) as (_ & _ & _ & _ & -> & _). done.
  - do 2 eexists. split; [done|]. split; [|done]. destruct Hi as [Hs Ha Hl]. split; [by apply checkpoint_inv|done..].
  - apply (rewritten_account s address (fun a => set_sa_Nonce a (dec_String nonce)) Hi).
    intros x [_ Hx]. split; [|done]. simpl. rewrite ParseInt64_String by done. by eexists.
  - unfold Server_SaveLogs, putLogs. destruct logs as [|l0 logs]; [by do 2 eexists|].
    pose proof (putLogs_loop_store (l0 :: logs) s []) as Hl. destruct (logs_fatal s (l0 :: logs)); [by rewrite Hl|].
    destruct Hl as (t & x & -> & Hs). simpl.
    do 2 eexists. split; [done|]. split; [by eapply same_store_inv|]. by destruct Hs as (_ & _ & _ & ->).
Qed.

Lemma nesting_cons d r l :
  nesting d (r :: l) = if closes r && (d =? 0)%nat then None else nesting (depth_after r d) l.
Proof using Type. by destruct r, d. Qed.

Lemma fatal_closes s r : closes r = true -> fatal s r = (length (checkPoints s) =? 0)%nat.
Proof using Type. destruct r; try done; intros _; unfold fatal; by destruct (checkPoints s). Qed.

(** A complete request ends the process only by closing what is not open. *)
Lemma complete_fatal s r : exec <> None -> complete r = true -> closes r = false -> fatal s r = false.
Proof using Type.
  intros Hx Hc Hcl. destruct r; try done; simpl in *; clear Hcl.
  - destruct address, code; try done. by case_match.
  - by destruct address.
  - by destruct address.
  - by destruct address, key.
  - by destruct address, key, value.
  - by destruct address.
  - apply negb_true_iff in Hc. revert Hc. intros Hl. induction logs as [|y l IH]; simpl in *; [done|]. apply orb_false_iff in Hl as [Hy Hl].
    destruct (pb_ContractAddress y); [|done]. case_match; [|done]. destruct exec; [|done]. auto.
Qed.

Definition stops_at (s : Storage) (l : list request) : Prop :=
  exists l1 r l2 s1 rs1, l = l1 ++ r :: l2 /\ serve_all s l1 = Return (s1, rs1) /\ server_inv s1 /\ fatal s1 r = true.

Lemma stops_at_cons s r l t x : serve s r = Return (t, x) -> stops_at t l -> stops_at s (r :: l).
Proof using Type.
  intros E (l1 & r' & l2 & s1 & rs1 & -> & E1 & I1 & F1). exists (r :: l1), r', l2, s1, (x :: rs1).
  simpl. by rewrite E; simpl; rewrite E1.
Qed.

Lemma serve_all_outcome l : forall s,
  server_inv s -> Forall request_ok l ->
  match serve_all s l with
  | Return (s', rs) => length rs = length l /\ server_inv s' /\ nesting (length (checkPoints s)) l = Some (length (checkPoints s'))
  | Panic => stops_at s l
  end.
Proof using Type.
  induction l as [|r l IH]; intros s Hi Hok; [done|]. apply Forall_cons in Hok as [Hr Hl].
  pose proof (serve_outcome s r Hi Hr) as Hs. destruct (fatal s r) eqn:Ef.
  { simpl. rewrite Hs. exists [], r, l, s, []. by split_and!. }
  destruct Hs as (t & x & E & It & Ct). specialize (IH t It Hl). cbn [serve_all]. rewrite E. cbn [outcome_bind fst snd].
  destruct (serve_all t l) as [[s' rs]|] eqn:Es; cbn [outcome_bind fst snd]; [|by eapply stops_at_cons].
  destruct IH as (Hlen & Hi' & Hn). split; [cbn; by rewrite Hlen|]. split; [done|].
  rewrite nesting_cons, <- Ct. destruct (closes r) eqn:Ec; [|done]. cbn [andb]. by rewrite <- (fatal_closes s r Ec), Ef.
Qed.

Lemma serve_all_stops s l : Forall request_ok l -> stops_at s l -> serve_all s l = Panic.
Proof using Type.
  intros Hok (l1 & r & l2 & s1 & rs1 & -> & E1 & I1 & F1).
  apply Forall_app in Hok as [_ [Hr _]%Forall_cons].
  revert s rs1 E1. induction l1 as [|q l1 IH]; intros s rs1; simpl.
  - intros [= -> <-]. pose proof (serve_outcome s1 r I1 Hr) as Hs. rewrite F1 in Hs. by rewrite Hs.
  - destruct (serve s q) as [[t x]|]; [|done]. simpl.
    destruct (serve_all t l1) as [[u rs]|] eqn:Eu; [|done]. simpl. intros [= <- <-]. by rewrite (IH t rs Eu).
Qed.

Lemma nesting_app l1 : forall d l2, nesting d (l1 ++ l2) = match nesting d l1 with Some e => nesting e l2 | None => None end.
Proof using Type. induction l1 as [|r l1 IH]; intros d l2; [done|]. destruct r; simpl; try apply IH; destruct d; try done; apply IH. Qed.

(** Complete requests while a transaction is executed. *)
Lemma serve_all_complete l s :
  server_inv s -> Forall request_ok l -> exec <> None -> Forall (fun r => complete r = true) l ->
  match nesting (length (checkPoints s)) l with
  | Some e => exists s' rs, serve_all s l = Return (s', rs) /\ length rs = length l /\
                server_inv s' /\ length (checkPoints s') = e
  | None => serve_all s l = Panic
  end.
Proof using Type.
  intros Hi Hok Hx Hc. pose proof (serve_all_outcome l s Hi Hok) as Ho.
  destruct (serve_all s l) as [[s' rs]|].
  { destruct Ho as (Hl & Hi' & ->). by exists s', rs. }
  destruct Ho as (l1 & r & l2 & s1 & rs1 & -> & E1 & I1 & F1).
  apply Forall_app in Hok as [Hok _]. apply Forall_app in Hc as [_ [Hr _]%Forall_cons].
  pose proof (serve_all_outcome l1 s Hi Hok) as Ho. rewrite E1 in Ho. destruct Ho as (_ & _ & Hn).
  rewrite nesting_app, Hn, nesting_cons. destruct (closes r) eqn:Ec.
  - rewrite fatal_closes in F1 by done. by rewrite F1.
  - by rewrite complete_fatal in F1.
Qed.

(** C4: When the state server ends the process. The VM makes any requests, in any
    order. The server panics exactly when it comes to a fatal one after it has
    answered those before: a commit or revert without an open checkpoint, a
    request whose absent sub-message (address, key, value or code) is read, or
    logs of which one without an address is reached, or one of a known account
    while no transaction is executed. Otherwise every request is answered, the
    invariant of the store holds after them and the open checkpoints are those
    not yet closed. In particular, complete requests made while a transaction is
    executed panic exactly when they close a checkpoint that is not open.
    Nonces are 64 bits wide. *)
Theorem state_server_panics_iff l s :
  server_inv s -> Forall request_ok l ->
  (serve_all s l = Panic <-> stops_at s l)
  /\ (forall s' rs, serve_all s l = Return (s', rs) ->
        length rs = length l /\ server_inv s' /\ nesting (length (checkPoints s)) l = Some (length (checkPoints s')))
  /\ (exec <> None -> Forall (fun r => complete r = true) l ->
        (serve_all s l = Panic <-> nesting (length (checkPoints s)) l = None)).
Proof using Type.
  intros Hi Hok. pose proof (serve_all_outcome l s Hi Hok) as Ho. split_and!.
  - split; [|by apply serve_all_stops]. intros E. by rewrite E in Ho.
  - intros s' rs E. by rewrite E in Ho.
  - intros Hx Hc. pose proof (serve_all_complete l s Hi Hok Hx Hc) as Hs.
    destruct (nesting _ l); [|done]. destruct Hs as (s' & rs & -> & _). done.
Qed.
End Server.

(** A call of a contract that writes a cell and is undone. *)
Definition sample_calls : list request :=
  [CreateAccount [xab]; StateCheckpoint; PutContractStorage (Some [xab]) (Some [x01]) (Some [x07]); GetAccount [xab]; StateRevert].

Lemma state_server_panics_iff_witness :
  (exists s' rs, serve_all (fun _ => 0) None 0 NewStorage sample_calls = Return (s', rs) /\ server_inv s') /\
  serve_all (fun _ => 0) None 0 NewStorage [StateCommit] = Panic /\
  serve_all (fun _ => 0) None 0 NewStorage [CreateAccount [xab]; AddBalance None "1"] = Panic.
Proof.
  split_and!.
  - destruct (state_server_panics_iff (fun _ => 0) None 0 sample_calls NewStorage server_inv_new) as (_ & H & _);
      [repeat constructor|].
    destruct (serve_all (fun _ => 0) None 0 NewStorage sample_calls) as [[s' rs]|] eqn:E; [|vm_compute in E; discriminate E].
    exists s', rs. split; [done|]. by destruct (H s' rs eq_refl) as (_ & Hi & _).
  - destruct (state_server_panics_iff (fun _ => 0) None 0 [StateCommit] NewStorage server_inv_new) as [H _];
      [repeat constructor|]. apply H.
    exists [], StateCommit, [], NewStorage, []. split_and!; [done..|exact server_inv_new|done].
  - destruct (state_server_panics_iff (fun _ => 0) None 0 [CreateAccount [xab]; AddBalance None "1"] NewStorage
      server_inv_new) as [H _]; [repeat constructor|]. apply H.
    eapply stops_at_cons; [reflexivity|]. eexists [], _, [], _, []. split_and!; [done..| |done].
    apply putAccount_server; [exact server_inv_new|]. split; [by eexists|by exists [xab]].
Defined.
