(* ===== verification/Pool.v ===== *)
(** The pools of smart contract transactions: [smc/pool.go] and [smc/store.go].

    A [Pool] is a map behind a read-write lock.  Its operations are atomic; the
    lock itself appears because one operation calls another with the lock held.
    The store has an unconfirmed and a confirmed pool, both keyed by
    transaction hash. *)
From S2P Require Import Prelude GoLib Bytes Tx Storage.

(** ** pool.go *)

(** [held] tells that the calling goroutine holds the write lock. *)
Record Pool (T : Type) := { objects : gmap string T; held : bool }.
Arguments Build_Pool {T} _ _.
Arguments objects {T} _.
Arguments held {T} _.

Inductive locking (A : Type) := Done (a : A) | Deadlock.
Arguments Done {A} _.
Arguments Deadlock {A}.

Section Pool.
Context {T : Type}.

Definition Pool_Get (p : Pool T) (id : string) : option T := objects p !! id.

(** [id] is [obj.Id()]; the result is the object that was there. *)
Definition Pool_Put (p : Pool T) (id : string) (obj : T) : locking (Pool T * option T) :=
  if held p then Deadlock
  else Done ({| objects := <[id := obj]> (objects p); held := false |}, objects p !! id).

Definition Pool_Remove (p : Pool T) (id : string) : locking (Pool T * option T) :=
  if held p then Deadlock
  else Done ({| objects := delete id (objects p); held := false |}, objects p !! id).

Fixpoint Pool_RemoveAll_loop (p : Pool T) (removedList : list T) (ids : list string)
  : locking (Pool T * list T) :=
  match ids with
  | [] => Done (p, removedList)
  | id :: rest =>
      match Pool_Remove p id with
      | Deadlock => Deadlock
      | Done (p, None) => Pool_RemoveAll_loop p removedList rest
      | Done (p, Some obj) => Pool_RemoveAll_loop p (removedList ++ [obj]) rest
      end
  end.

(** Takes the lock, removes, releases. *)
Definition Pool_RemoveAll (p : Pool T) (ids : list string) : locking (Pool T * list T) :=
  if held p then Deadlock
  else match Pool_RemoveAll_loop {| objects := objects p; held := true |} [] ids with
       | Deadlock => Deadlock
       | Done (p, l) => Done ({| objects := objects p; held := false |}, l)
       end.

(** [Find] with a filter that keeps state in the variables it closes over and
    may panic; the map is visited in any order. *)
Fixpoint Find_loop {St} (f : St -> T -> outcome (bool * St)) (st : St) (l : list T)
  : outcome (list T) :=
  match l with
  | [] => Return []
  | x :: rest =>
      let! r := f st x in
      let! found := Find_loop f (snd r) rest in
      Return (if fst r then x :: found else found)
  end.

Definition Pool_Find `{MapRange} {St} (p : Pool T) (f : St -> T -> outcome (bool * St)) (st : St)
  : outcome (list T) :=
  Find_loop f st (map snd (map_range (objects p))).
End Pool.

(** ** store.go *)

Record SmcStore := {
  unconfirmedPool : gmap string Transaction;
  confirmedPool : gmap string ConfirmedTx
}.

Section Store.
Context `{CryptoLib} `{ProtoLib} `{TimestampLib} `{EthLib} `{MapRange}.

Definition AddConfirmed (s : SmcStore) (tx : ConfirmedTx) : outcome SmcStore :=
  let! id := IdentifiableTx_Id (c_tx tx) in
  Return {| unconfirmedPool := delete id (unconfirmedPool s);
            confirmedPool := <[id := tx]> (confirmedPool s) |}.

Definition RemoveUnconfirmed (s : SmcStore) (t : Transaction) : outcome SmcStore :=
  let! id := IdentifiableTx_Id t in
  Return {| unconfirmedPool := delete id (unconfirmedPool s); confirmedPool := confirmedPool s |}.

Definition AddUnconfirmed (s : SmcStore) (t : Transaction) : outcome SmcStore :=
  let! id := IdentifiableTx_Id t in
  Return {| unconfirmedPool := <[id := t]> (unconfirmedPool s);
            confirmedPool := delete id (confirmedPool s) |}.

Definition FindConfirmed (s : SmcStore) (hash : string) : option ConfirmedTx :=
  confirmedPool s !! hash.

Definition FindAny (s : SmcStore) (hash : string) : option UnifiedTx :=
  match confirmedPool s !! hash with
  | Some c => Some (NewUnifiedConfirmedTx c)
  | None => match unconfirmedPool s !! hash with
            | None => None
            | Some u => Some (NewUnifiedUnconfirmedTx u)
            end
  end.

(** The variables the filter of [GetAllUncofirmed] closes over. *)
Record Selection := { selectedSenders : gset string; fuelLimitLeft : Z }.

(** [int(big.NewInt(0).SetBytes(limit.Bytes()).Int64())]. *)
Definition txFuelLimit (t : Transaction) : Z := big_Int64 (SetBytes (Bytes (GetFuelLimit t))).

Variable undef : string -> Z.

(** [store] is the VM's state store; the fuel is a 64-bit int. *)
Definition select_unconfirmed (store : Storage) (st : Selection) (t : Transaction)
  : outcome (bool * Selection) :=
  let! sender := GetSender t in
  let! accountAddress := BytesToAddress sender in
  let! account := SearchAccount undef store accountAddress in
  match account with
  | None => Return (false, st)
  | Some account =>
      if (big_Uint64 (ln_Nonce account) =? GetNonce t)
         && negb (bool_decide (accountAddress ∈ selectedSenders st))
         && (txFuelLimit t <=? fuelLimitLeft st)
      then Return (true, {| selectedSenders := {[accountAddress]} ∪ selectedSenders st;
                            fuelLimitLeft := to_int64 (fuelLimitLeft st - txFuelLimit t) |})
      else let! hash := GetHash t in Return (false, st)
  end.

Definition GetAllUncofirmed (s : SmcStore) (store : Storage) (fuelLimit : Z)
  : outcome (list Transaction) :=
  Pool_Find {| objects := unconfirmedPool s; held := false |} (select_unconfirmed store)
    {| selectedSenders := ∅; fuelLimitLeft := fuelLimit |}.

(** Filters that neither panic nor keep state. *)
Definition FilterConfirmed (s : SmcStore) (f : ConfirmedTx -> bool) : list ConfirmedTx :=
  List.filter f (map snd (map_range (confirmedPool s))).

Definition FilterUnconfirmed (s : SmcStore) (f : Transaction -> bool) : list Transaction :=
  List.filter f (map snd (map_range (unconfirmedPool s))).

Definition FilterAny (s : SmcStore) (fConfirmed : ConfirmedTx -> bool)
    (fUnconfirmed : Transaction -> bool) : list UnifiedTx :=
  map NewUnifiedConfirmedTx (FilterConfirmed s fConfirmed)
  ++ map NewUnifiedUnconfirmedTx (FilterUnconfirmed s fUnconfirmed).
End Store.

(** ** Invariant *)

Section StoreInv.
Context `{CryptoLib} `{ProtoLib} `{TimestampLib} `{EthLib}.

(** Both pools are keyed by hash, and no hash is in both. *)
Record store_inv (s : SmcStore) : Prop := {
  si_unconfirmed : forall id t, unconfirmedPool s !! id = Some t -> IdentifiableTx_Id t = Return id;
  si_confirmed : forall id c, confirmedPool s !! id = Some c ->
    IdentifiableTx_Id (c_tx c) = Return id;
  si_disjoint : forall id, unconfirmedPool s !! id = None \/ confirmedPool s !! id = None
}.

Inductive store_op := SAddConfirmed (c : ConfirmedTx) | SAddUnconfirmed (t : Transaction)
| SRemoveUnconfirmed (t : Transaction).

Definition run_store_op (s : SmcStore) (o : store_op) : outcome SmcStore :=
  match o with
  | SAddConfirmed c => AddConfirmed s c
  | SAddUnconfirmed t => AddUnconfirmed s t
  | SRemoveUnconfirmed t => RemoveUnconfirmed s t
  end.

Lemma store_inv_op s o s' : store_inv s -> run_store_op s o = Return s' -> store_inv s'.
Proof.
  intros [Hu Hc Hd]. destruct o as [c|t|t]; simpl; unfold AddConfirmed, AddUnconfirmed, RemoveUnconfirmed;
    (destruct (IdentifiableTx_Id _) as [id|] eqn:E; [|done]); intros [= <-]; split; simpl; intros k.
  - intros t [_ Ht]%lookup_delete_Some. by apply Hu.
  - intros c' [[<- <-]|[_ Hc']]%lookup_insert_Some; auto.
  - destruct (decide (id = k)) as [<-|Hne]; [left; by rewrite lookup_delete_eq|].
    rewrite lookup_delete_ne, lookup_insert_ne by done. apply Hd.
  - intros t' [[<- <-]|[_ Ht']]%lookup_insert_Some; auto.
  - intros c' [_ Hc']%lookup_delete_Some. by apply Hc.
  - destruct (decide (id = k)) as [<-|Hne]; [right; by rewrite lookup_delete_eq|].
    rewrite lookup_delete_ne, lookup_insert_ne by done. apply Hd.
  - intros t' [_ Ht]%lookup_delete_Some. by apply Hu.
  - apply Hc.
  - destruct (Hd k) as [Hk|Hk]; [left|by right].
    apply lookup_delete_None. by right.
Qed.
End StoreInv.

(** ** Selection of transactions *)

Section Selection.
Context `{CryptoLib} `{ProtoLib} `{TimestampLib} `{EthLib} `{MapRange}.
Variable undef : string -> Z.

Definition total_fuel (l : list Transaction) : Z := fold_right (fun t n => txFuelLimit t + n) 0 l.

(** The sender's address text, as the filter computes it. *)
Definition sender_text (t : Transaction) : option string :=
  match GetSender t with
  | Return s => match BytesToAddress s with Return a => Some a | Panic => None end
  | Panic => None
  end.

Lemma select_true store st t st' :
  select_unconfirmed undef store st t = Return (true, st') ->
  0 <= txFuelLimit t -> 0 <= fuelLimitLeft st < 2 ^ 63 ->
  exists a, sender_text t = Some a /\ a ∉ selectedSenders st
  /\ selectedSenders st' = {[a]} ∪ selectedSenders st
  /\ fuelLimitLeft st' = fuelLimitLeft st - txFuelLimit t /\ 0 <= fuelLimitLeft st'
  /\ exists acc, SearchAccount undef store a = Return (Some acc)
                 /\ big_Uint64 (ln_Nonce acc) = GetNonce t.
Proof.
  unfold select_unconfirmed, sender_text.
  destruct (GetSender t) as [s|]; [|done]. simpl. destruct (BytesToAddress s) as [a|]; [|done].
  simpl. destruct (SearchAccount undef store a) as [[acc|]|] eqn:E; simpl; try done.
  destruct (Z.eqb_spec (big_Uint64 (ln_Nonce acc)) (GetNonce t)); simpl; [|by destruct (GetHash t)].
  case_bool_decide; simpl; [by destruct (GetHash t)|].
  destruct (Z.leb_spec (txFuelLimit t) (fuelLimitLeft st)); [|by destruct (GetHash t)].
  intros [= <-] Hf Hl. exists a. simpl.
  assert (to_int64 (fuelLimitLeft st - txFuelLimit t) = fuelLimitLeft st - txFuelLimit t) as ->.
  { unfold to_int64, swrap. rewrite Z.mod_small; simpl; lia. }
  split_and!; try done; [lia|]. by exists acc.
Qed.

Lemma select_false store st t st' :
  select_unconfirmed undef store st t = Return (false, st') -> st' = st.
Proof.
  unfold select_unconfirmed. destruct (GetSender t) as [s|]; [|done]. simpl.
  destruct (BytesToAddress s) as [a|]; [|done]. simpl.
  destruct (SearchAccount undef store a) as [[acc|]|]; simpl; [|by intros [= <-]|done].
  case_match; [done|]. destruct (GetHash t); simpl; [|done]. by intros [= <-].
Qed.

(** What the selection promises of its result. *)
Definition selection_ok (store : Storage) (st : Selection) (pool l : list Transaction) : Prop :=
  l ⊆ pool /\ total_fuel l <= fuelLimitLeft st
  /\ NoDup (map sender_text l)
  /\ Forall (fun t => exists a acc, sender_text t = Some a /\ a ∉ selectedSenders st
       /\ SearchAccount undef store a = Return (Some acc)
       /\ big_Uint64 (ln_Nonce acc) = GetNonce t) l.

Lemma Find_loop_selection store pool : forall st l,
  Forall (fun t => 0 <= txFuelLimit t) pool -> 0 <= fuelLimitLeft st < 2 ^ 63 ->
  Find_loop (select_unconfirmed undef store) st pool = Return l ->
  selection_ok store st pool l.
Proof.
  induction pool as [|t pool IH]; intros st l Hf Hl; simpl.
  - intros [= <-]. split_and!; try done; [simpl; lia|constructor].
  - apply Forall_cons in Hf as [Ht Hf].
    destruct (select_unconfirmed undef store st t) as [[b st']|] eqn:E; simpl; [|done].
    destruct (Find_loop _ st' pool) as [found|] eqn:E'; simpl; [|done].
    destruct b; intros [= <-].
    + destruct (select_true _ _ _ _ E Ht Hl) as (a & Ha & Hn & Hs & Hleft & Hpos & acc & Hacc & Hno).
      destruct (IH st' found Hf ltac:(lia) E') as (Hsub & Htot & Hnd & Hall).
      split_and!.
      * set_solver.
      * simpl. lia.
      * simpl. constructor; [|done]. rewrite Ha. intros (u & Eu & Hu)%list_elem_of_fmap.
        rewrite Forall_forall in Hall. destruct (Hall u Hu) as (a' & ? & Ha' & Hn' & _).
        rewrite Hs in Hn'. assert (a = a') by congruence. set_solver.
      * constructor; [by exists a, acc|]. eapply Forall_impl; [exact Hall|].
        intros u (a' & acc' & ? & Hn' & ?). exists a', acc'. rewrite Hs in Hn'. set_solver.
    + apply select_false in E as ->. destruct (IH st found Hf Hl E') as (Hsub & ? & ? & ?).
      split_and!; try done. set_solver.
Qed.
End Selection.

(** ** Properties *)

(** A transaction is in at most one pool, under its own hash: adding a
    confirmed or an unconfirmed transaction, or removing an unconfirmed one,
    keeps both pools keyed by hash and disjoint; an added transaction is then
    found as confirmed or unconfirmed accordingly. *)
Theorem smc_store_invariant `{CryptoLib} `{ProtoLib} `{TimestampLib} `{EthLib}
    (s s' : SmcStore) (o : store_op) :
  store_inv s -> run_store_op s o = Return s' ->
  store_inv s'
  /\ match o with
     | SAddConfirmed c =>
         exists id, IdentifiableTx_Id (c_tx c) = Return id
         /\ FindAny s' id = Some (NewUnifiedConfirmedTx c)
     | SAddUnconfirmed t =>
         exists id, IdentifiableTx_Id t = Return id
         /\ FindAny s' id = Some (NewUnifiedUnconfirmedTx t)
     | SRemoveUnconfirmed t =>
         exists id, IdentifiableTx_Id t = Return id /\ unconfirmedPool s' !! id = None
     end.
Proof.
  intros Hi Hr. split; [by eapply store_inv_op|]. revert Hr.
  destruct o as [c|t|t]; simpl; unfold AddConfirmed, AddUnconfirmed, RemoveUnconfirmed, FindAny;
    (destruct (IdentifiableTx_Id _) as [id|]; [|done]); intros [= <-]; exists id; simpl;
    by rewrite ?lookup_insert_eq, ?lookup_delete_eq.
Qed.

Lemma smc_store_invariant_witness :
  exists s', run_store_op {| unconfirmedPool := ∅; confirmedPool := ∅ |}
               (SAddUnconfirmed (ATxv1 (NewTxv1 MAINNET))) = Return s' /\ store_inv s'.
Proof.
  set (s0 := {| unconfirmedPool := ∅; confirmedPool := ∅ |}).
  assert (H0 : store_inv s0).
  { split; simpl; intros; [by rewrite lookup_empty in *|by rewrite lookup_empty in *|by left]. }
  set (o := SAddUnconfirmed (ATxv1 (NewTxv1 MAINNET))).
  destruct (run_store_op s0 o) as [s'|] eqn:E; [|discriminate E].
  exists s'. split; [reflexivity|]. exact (proj1 (smc_store_invariant s0 s' o H0 E)).
Defined.

(** The transactions selected for a pin come from the unconfirmed pool, at
    most one per sender, each with the nonce of its sender's account, and their
    fuel limits together do not exceed the fuel limit of the pin; this needs
    fuel limits below [2 ^ 63]. *)
Theorem selection_within_limit `{CryptoLib} `{ProtoLib} `{TimestampLib} `{EthLib} `{MapRange}
    (undef : string -> Z) (s : SmcStore) (store : Storage) (fuelLimit : Z) (l : list Transaction) :
  0 <= fuelLimit < 2 ^ 63 ->
  (forall id t, unconfirmedPool s !! id = Some t -> 0 <= txFuelLimit t) ->
  GetAllUncofirmed undef s store fuelLimit = Return l ->
  (forall t, t ∈ l -> exists id, unconfirmedPool s !! id = Some t)
  /\ total_fuel l <= fuelLimit /\ NoDup (map sender_text l)
  /\ Forall (fun t => exists a acc, sender_text t = Some a
       /\ SearchAccount undef store a = Return (Some acc)
       /\ big_Uint64 (ln_Nonce acc) = GetNonce t) l.
Proof.
  intros Hl Hf Hg. apply Find_loop_selection in Hg as (Hsub & Htot & Hnd & Hall); [|
    apply Forall_forall; intros t ([id u] & -> & Hu)%list_elem_of_fmap;
    apply elem_of_map_range in Hu; by eapply Hf|done].
  simpl in Htot. split_and!; try done.
  - intros t Ht%Hsub. apply list_elem_of_fmap in Ht as ([id u] & -> & Hu).
    apply elem_of_map_range in Hu. by exists id.
  - eapply Forall_impl; [exact Hall|]. intros t (a & acc & ? & _ & ? & ?). by exists a, acc.
Qed.

(** A transaction of the account [7...7] with a fuel limit, and a store that
    knows the account with nonce 0. *)
Definition fuel_tx (nonce : Z) (limit : bytes) : Transaction :=
  ATxv1 {| Tx_Type := CALL_CONTRACT; Chain_Type := PRIVATE_TESTNET; Sender_Pubk := [];
           Sender := replicate 20 x07; Recepient := replicate 20 x08; Amount := []; Nonce := nonce;
           TimestampOf := 0; Fuel_Limit := limit; Fuel_Price := []; Data := Some [x01];
           Signature := [] |}.
Definition fuel_store : Storage :=
  Server_CreateAccount NewStorage 0 (replicate 20 x07).

Lemma selection_within_limit_witness :
  exists l, GetAllUncofirmed (fun _ => 0)
      {| unconfirmedPool := {["a"%string := fuel_tx 0 [x05]]}; confirmedPool := ∅ |}
      fuel_store 10 = Return l /\ length l = 1%nat /\ total_fuel l <= 10.
Proof.
  destruct (GetAllUncofirmed (fun _ => 0)
      {| unconfirmedPool := {["a"%string := fuel_tx 0 [x05]]}; confirmedPool := ∅ |}
      fuel_store 10) as [l|] eqn:E; [|vm_compute in E; discriminate].
  exists l. split; [reflexivity|]. split; [vm_compute in E; injection E as <-; reflexivity|].
  apply (selection_within_limit (fun _ => 0)
      {| unconfirmedPool := {["a"%string := fuel_tx 0 [x05]]}; confirmedPool := ∅ |}
      fuel_store 10 l); [lia| |exact E].
  intros id t Ht. simpl in Ht. apply lookup_singleton_Some in Ht as [_ <-]. vm_compute. discriminate.
Defined.

(** The fuel bound fails beyond [2 ^ 63]: a fuel limit of 8 bytes with the
    top bit set reads as a negative int, so the transaction is selected under
    any limit. *)
Theorem oversized_fuel_selected :
  exists t, GetFuelLimit t = 2 ^ 63
  /\ GetAllUncofirmed (fun _ => 0)
       {| unconfirmedPool := {["a"%string := t]}; confirmedPool := ∅ |} fuel_store 10
     = Return [t].
Proof.
  exists (fuel_tx 0 [x80; x00; x00; x00; x00; x00; x00; x00]). split; vm_compute; reflexivity.
Qed.

(** [RemoveAll] never returns when it is given an id: it takes the pool's
    lock and then calls [Remove], which waits for the same lock. *)
Theorem RemoveAll_deadlocks {T : Type} (p : Pool T) (ids : list string) :
  held p = false ->
  Pool_RemoveAll p ids = match ids with [] => Done (p, []) | _ :: _ => Deadlock end.
Proof.
  intros Hh. unfold Pool_RemoveAll. rewrite Hh. destruct ids; simpl; [|done].
  destruct p; simpl in *. by rewrite Hh.
Qed.

Lemma RemoveAll_deadlocks_witness :
  Pool_RemoveAll {| objects := ({["k"%string := 1]} : gmap string Z); held := false |} ["k"%string]
  = Deadlock.
Proof.
  apply (RemoveAll_deadlocks {| objects := ({["k"%string := 1]} : gmap string Z); held := false |}
    ["k"%string]). reflexivity.
Defined.
