(* ===== verification/WalletCache.v ===== *)
(** The wallet cache of the current slice: [dag/slice.go].

    The cache maps a wallet to the history of its balances, each with the
    transaction that caused it; when a wallet is not cached its balance is the
    latest one the pins know.  The pins are an interface here, [BalanceSource],
    which [Pin] implements.  A [*big.Int] stored in the cache is never changed
    afterwards, so a pointer to it is its value. *)
From S2P Require Import Prelude.

(** ** What the cache needs from the pins *)
Class BalanceSource (P : Type) := {
  latest_balance : P -> string -> option Z;
  latest_balance_nonneg : forall p w v, latest_balance p w = Some v -> 0 <= v
}.

(** ** Data and operations *)

Record Pair (T1 T2 : Type) := newPair { first : T1; second : T2 }.
Arguments newPair {T1 T2} _ _.
Arguments first {T1 T2} _.
Arguments second {T1 T2} _.

Abbreviation WalletCache := (gmap string (list (Pair string Z))).

Definition newWalletCache : WalletCache := ∅.

Section WalletCache.
Context {P : Type} `{BalanceSource P}.

(** The balance [add] and [sub] start from; an unknown wallet has none. *)
Definition loadedBalance (pins : P) (wc : WalletCache) (wallet : string) : Z :=
  match wc !! wallet with
  | None | Some [] => default 0 (latest_balance pins wallet)
  | Some (x :: l) => second (List.last (x :: l) x)
  end.

(** The entry is created before the balance is computed, also when the
    operation then fails. *)
Definition ensure_wallet (wc : WalletCache) (wallet : string) : WalletCache :=
  match wc !! wallet with
  | None | Some [] => <[wallet := []]> wc
  | Some _ => wc
  end.

(** The cache afterwards and whether there was no error. *)
Definition WalletCache_add (pins : P) (wc : WalletCache) (wallet txId : string) (amount : Z)
  : WalletCache * bool :=
  let loaded := loadedBalance pins wc wallet in
  let wc := ensure_wallet wc wallet in
  let tmpBalance := loaded + amount in
  if tmpBalance <? 0 then (wc, false)
  else (<[wallet := default [] (wc !! wallet) ++ [newPair txId tmpBalance]]> wc, true).

Definition WalletCache_sub (pins : P) (wc : WalletCache) (wallet txId : string) (amount : Z)
  : WalletCache * bool :=
  let loaded := loadedBalance pins wc wallet in
  let wc := ensure_wallet wc wallet in
  let tmpBalance := loaded - amount in
  if tmpBalance <? 0 then (wc, false)
  else (<[wallet := default [] (wc !! wallet) ++ [newPair txId tmpBalance]]> wc, true).

Definition WalletCache_get (wc : WalletCache) (wallet : string) : option Z :=
  match wc !! wallet with
  | Some (x :: l) => Some (second (List.last (x :: l) x))
  | _ => None
  end.

(** The transaction ids are ignored: the whole history of the wallet goes. *)
Definition WalletCache_remove (wc : WalletCache) (wallet : string) (txIds : list string)
  : WalletCache :=
  match wc !! wallet with None => wc | Some _ => delete wallet wc end.

Definition copyBalances (balances : list (Pair string Z)) : list (Pair string Z) := [] ++ balances.

Definition WalletCache_copyFrom (wc another : WalletCache) : WalletCache :=
  copyBalances <$> another.

(** ** The ledger the cache and the pins implement together *)

(** What a wallet owns: the cached balance, or the pinned one, or nothing. *)
Definition balance_of (pins : P) (wc : WalletCache) (wallet : string) : Z :=
  match WalletCache_get wc wallet with
  | Some b => b
  | None => default 0 (latest_balance pins wallet)
  end.

Lemma loadedBalance_balance_of pins wc w : loadedBalance pins wc w = balance_of pins wc w.
Proof. unfold loadedBalance, balance_of, WalletCache_get. by destruct (wc !! w) as [[]|]. Qed.

(** No cached balance is negative. *)
Definition wc_ok (wc : WalletCache) : Prop :=
  forall w l, wc !! w = Some l -> Forall (fun p => 0 <= second p) l.

Lemma wc_ok_new : wc_ok newWalletCache.
Proof. intros w l. unfold newWalletCache. by rewrite lookup_empty. Qed.

Lemma last_cons_Forall {A} (Q : A -> Prop) x l : Forall Q (x :: l) -> Q (List.last (x :: l) x).
Proof.
  intros HQ. rewrite Forall_forall in HQ. apply HQ.
  destruct (exists_last (l := x :: l)) as (l' & y & E); [done|].
  rewrite E, List.last_last. apply elem_of_app. right. by apply list_elem_of_singleton.
Qed.

Lemma get_nonneg wc w v : wc_ok wc -> WalletCache_get wc w = Some v -> 0 <= v.
Proof.
  intros Hok. unfold WalletCache_get. destruct (wc !! w) as [[|x l]|] eqn:E; try done.
  intros [= <-]. apply (last_cons_Forall (fun p => 0 <= second p)). by eapply Hok.
Qed.

Lemma balance_of_nonneg pins wc w : wc_ok wc -> 0 <= balance_of pins wc w.
Proof.
  intros Hok. unfold balance_of. destruct (WalletCache_get wc w) eqn:E; [by eapply get_nonneg|].
  destruct (latest_balance pins w) eqn:E'; simpl; [by eapply latest_balance_nonneg|lia].
Qed.

Lemma get_ensure wc w w' : WalletCache_get (ensure_wallet wc w) w' = WalletCache_get wc w'.
Proof.
  unfold ensure_wallet, WalletCache_get. destruct (wc !! w) as [[]|] eqn:E; try done;
    (destruct (decide (w = w')) as [<-|]; [by rewrite lookup_insert_eq, E|by rewrite lookup_insert_ne]).
Qed.

Lemma ensure_ok wc w : wc_ok wc -> wc_ok (ensure_wallet wc w).
Proof.
  intros Hok w' l. unfold ensure_wallet. destruct (wc !! w) as [[]|] eqn:E; try apply Hok;
    intros [[<- <-]|[_ Hl]]%lookup_insert_Some; [constructor|by eapply Hok|constructor|by eapply Hok].
Qed.

Lemma get_push wc w id b w' :
  WalletCache_get (<[w := default [] (wc !! w) ++ [newPair id b]]> wc) w'
  = if decide (w = w') then Some b else WalletCache_get wc w'.
Proof.
  unfold WalletCache_get. case_decide as E.
  - subst w'. rewrite lookup_insert_eq. destruct (default [] (wc !! w) ++ [newPair id b]) eqn:E.
    + by destruct (default [] (wc !! w)).
    + rewrite <- E, List.last_last. done.
  - by rewrite lookup_insert_ne.
Qed.

Lemma push_ok wc w id b :
  wc_ok wc -> 0 <= b -> wc_ok (<[w := default [] (wc !! w) ++ [newPair id b]]> wc).
Proof.
  intros Hok Hb w' l [[<- <-]|[_ Hl]]%lookup_insert_Some; [|by eapply Hok].
  apply Forall_app. split; [|by repeat constructor].
  destruct (wc !! w) as [l0|] eqn:E; simpl; [by eapply Hok|constructor].
Qed.

(** [sub] is [add] of the opposite amount. *)
Lemma sub_add pins wc w id amount :
  WalletCache_sub pins wc w id amount = WalletCache_add pins wc w id (- amount).
Proof. unfold WalletCache_sub, WalletCache_add. by rewrite Z.add_opp_r. Qed.

(** A change succeeds exactly when it leaves the wallet no debt, and then
    changes that wallet only. *)
Lemma add_spec pins wc w id amount :
  let r := WalletCache_add pins wc w id amount in
  snd r = (0 <=? balance_of pins wc w + amount)
  /\ (wc_ok wc -> wc_ok (fst r))
  /\ forall w', balance_of pins (fst r) w'
     = if decide (w = w' /\ snd r = true) then balance_of pins wc w + amount
       else balance_of pins wc w'.
Proof.
  unfold WalletCache_add. rewrite loadedBalance_balance_of. set (b := balance_of pins wc w).
  destruct (Z.ltb_spec (b + amount) 0) as [Hneg|Hpos]; simpl.
  - split; [symmetry; by apply Z.leb_gt|]. split; [apply ensure_ok|].
    intros w'. rewrite decide_False by naive_solver. unfold balance_of. by rewrite get_ensure.
  - split; [symmetry; by apply Z.leb_le|].
    split; [intros Hok; apply push_ok; [by apply ensure_ok|done]|].
    intros w'. unfold balance_of at 1. rewrite get_push, get_ensure.
    destruct (decide (w = w')) as [<-|Hne].
    + by rewrite decide_True.
    + rewrite decide_False by naive_solver. done.
Qed.

Lemma remove_get wc w ids w' :
  WalletCache_get (WalletCache_remove wc w ids) w'
  = if decide (w = w') then None else WalletCache_get wc w'.
Proof.
  unfold WalletCache_remove, WalletCache_get. destruct (wc !! w) eqn:E.
  - case_decide; subst; [by rewrite lookup_delete_eq|by rewrite lookup_delete_ne].
  - case_decide; subst; [by rewrite E|done].
Qed.

Lemma remove_ok wc w ids : wc_ok wc -> wc_ok (WalletCache_remove wc w ids).
Proof.
  intros Hok. unfold WalletCache_remove. destruct (wc !! w) as [l0|]; [|done].
  intros w' l [_ Hl]%lookup_delete_Some. by eapply Hok.
Qed.
End WalletCache.

#[export] Hint Resolve wc_ok_new ensure_ok push_ok remove_ok : grape.

(** ** Transfers *)

Section Transfer.
Context {P : Type} `{BalanceSource P}.

(** A payment as the dag applies it: the sender is debited, then the receiver
    is credited. *)
Definition transfer (pins : P) (wc : WalletCache) (txId sender receiver : string) (amount : Z)
  : WalletCache * bool :=
  let '(wc1, ok) := WalletCache_sub pins wc sender txId amount in
  if negb ok then (wc1, false) else WalletCache_add pins wc1 receiver txId amount.

(** Sum of the balances of some wallets. *)
Definition total (pins : P) (wc : WalletCache) (ws : list string) : Z :=
  fold_right (fun w n => balance_of pins wc w + n) 0 ws.

Lemma total_change pins wc wc' w d ws :
  NoDup ws -> (forall w', balance_of pins wc' w'
                 = balance_of pins wc w' + (if decide (w = w') then d else 0)) ->
  total pins wc' ws = total pins wc ws + (if decide (w ∈ ws) then d else 0).
Proof.
  intros Hnd Hb. induction Hnd as [|x ws Hx Hnd IH].
  - destruct (decide (w ∈ [])) as [Hin|]; [|simpl; lia]. by apply not_elem_of_nil in Hin.
  - unfold total in *. cbn [fold_right]. rewrite IH, Hb.
    destruct (decide (w = x)), (decide (w ∈ ws)), (decide (w ∈ x :: ws)); subst; try lia;
      set_solver.
Qed.

Lemma add_ok_change pins wc w id d wc' :
  WalletCache_add pins wc w id d = (wc', true) -> forall w',
  balance_of pins wc' w' = balance_of pins wc w' + (if decide (w = w') then d else 0).
Proof.
  intros E w'. destruct (add_spec pins wc w id d) as (_ & _ & Hb). rewrite E in Hb. simpl in Hb.
  rewrite Hb. destruct (decide (w = w')) as [<-|Hne].
  - by rewrite decide_True.
  - rewrite decide_False by naive_solver. lia.
Qed.
End Transfer.

(** ** The abstract ledger *)

(** A ledger gives every wallet a balance; a payment needs enough of it. *)
Definition ledger : Type := string -> Z.

Definition ledger_pay (L : ledger) (sender receiver : string) (amount : Z) : option ledger :=
  if L sender <? amount then None
  else Some (fun w => L w - (if decide (sender = w) then amount else 0)
                      + (if decide (receiver = w) then amount else 0)).

Section Refinement.
Context {P : Type} `{BalanceSource P}.

Lemma transfer_refines (pins : P) wc id s r amount :
  wc_ok wc -> 0 <= amount -> s <> r ->
  let res := transfer pins wc id s r amount in
  wc_ok (fst res)
  /\ match ledger_pay (balance_of pins wc) s r amount with
     | Some L => snd res = true /\ forall w, balance_of pins (fst res) w = L w
     | None => snd res = false /\ forall w, balance_of pins (fst res) w = balance_of pins wc w
     end.
Proof.
  intros Hok Ha Hne res. unfold ledger_pay. subst res. unfold transfer.
  destruct (WalletCache_sub pins wc s id amount) as [wc1 ok1] eqn:E1. rewrite sub_add in E1.
  destruct (add_spec pins wc s id (- amount)) as (S1 & O1 & B1). rewrite E1 in S1, O1, B1.
  simpl in *. destruct (Z.ltb_spec (balance_of pins wc s) amount) as [Hlt|Hge].
  - assert (ok1 = false) as -> by (rewrite S1; apply Z.leb_gt; lia). simpl. split; [auto|].
    split; [done|]. intros w. rewrite B1. by rewrite decide_False by naive_solver.
  - assert (ok1 = true) as -> by (rewrite S1; apply Z.leb_le; lia). simpl.
    destruct (WalletCache_add pins wc1 r id amount) as [wc2 ok2] eqn:E2.
    destruct (add_spec pins wc1 r id amount) as (S2 & O2 & _). rewrite E2 in S2, O2. simpl in *.
    pose proof (balance_of_nonneg pins wc1 r (O1 Hok)) as Hr.
    assert (ok2 = true) as -> by (rewrite S2; apply Z.leb_le; lia). split; [auto|].
    split; [done|]. intros w.
    rewrite (add_ok_change _ _ _ _ _ _ E2), (add_ok_change _ _ _ _ _ _ E1).
    destruct (decide (s = w)), (decide (r = w)); lia.
Qed.

(** A change that fails keeps every balance. *)
Lemma add_fails_same pins wc w id d wc' :
  WalletCache_add pins wc w id d = (wc', false) -> forall w',
  balance_of pins wc' w' = balance_of pins wc w' + (if decide (w = w') then 0 else 0).
Proof.
  intros E w'. destruct (add_spec pins wc w id d) as (_ & _ & Hb). rewrite E in Hb. simpl in Hb.
  specialize (Hb w'). rewrite decide_False in Hb by naive_solver.
  rewrite Hb. destruct (decide (w = w')); symmetry; apply Z.add_0_r.
Qed.

Lemma transfer_total (pins : P) wc id s r amount ws :
  wc_ok wc -> 0 <= amount -> NoDup ws -> s ∈ ws -> r ∈ ws ->
  total pins (fst (transfer pins wc id s r amount)) ws = total pins wc ws.
Proof.
  intros Hok Ha Hnd Hs Hr. unfold transfer.
  destruct (WalletCache_sub pins wc s id amount) as [wc1 ok1] eqn:E1. rewrite sub_add in E1.
  destruct ok1; simpl.
  - destruct (add_spec pins wc s id (- amount)) as (_ & O1 & _). rewrite E1 in O1.
    destruct (WalletCache_add pins wc1 r id amount) as [wc2 ok2] eqn:E2.
    destruct (add_spec pins wc1 r id amount) as (S2 & _ & _). rewrite E2 in S2. simpl in *.
    pose proof (balance_of_nonneg pins wc1 r (O1 Hok)).
    assert (ok2 = true) as -> by (rewrite S2; apply Z.leb_le; lia).
    rewrite (total_change _ _ _ _ _ _ Hnd (add_ok_change _ _ _ _ _ _ E2)).
    rewrite (total_change _ _ _ _ _ _ Hnd (add_ok_change _ _ _ _ _ _ E1)).
    rewrite !decide_True by done. lia.
  - rewrite (total_change _ _ _ _ _ _ Hnd (add_fails_same _ _ _ _ _ _ E1)).
    destruct (decide (s ∈ ws)); apply Z.add_0_r.
Qed.
End Refinement.

(** Pins that know one wallet with 10 coins. *)
#[export] Program Instance one_wallet : BalanceSource unit := {
  latest_balance _ w := if decide (w = "a"%string) then Some 10 else None
}.
Next Obligation. intros [] w v. simpl. case_decide; [|done]. intros [= <-]. lia. Qed.
