(* ===== verification/Node.v ===== *)
(** The vertices of the dag: [dag/node.go] and the comparisons of
    [dag/utils.go].

    Nodes are shared by pointer: the dag, its maps, the tip counter and other
    nodes refer to the same node.  A pointer is a [loc] and the nodes live in a
    [heap]; a node's sources and targets are pointers. *)
From S2P Require Import Prelude GoLib Bytes Tx TxRecords WalletCache.

Abbreviation loc := nat (only parsing).

Record NodeID := { n_id : uuid; n_address : string; idMajor : Z; idMinor : Z }.
Record Height := { minheight : Z; maxheight : Z }.

(** [missingTargets] is a map to true; a nil map is an empty one. *)
Record Node := {
  nid : NodeID; cumWeight : float64; txWeight : float64; time : Z; valid : bool;
  height : Height; ntx : Transaction; sources : list loc; targets : list loc;
  missingTargets : gmap string bool
}.

Abbreviation heap := (gmap nat Node).

(** Field updates. *)
Definition set_nid (n : Node) (x : NodeID) : Node :=
  {| nid := x; cumWeight := cumWeight n; txWeight := txWeight n; time := time n;
     valid := valid n; height := height n; ntx := ntx n; sources := sources n;
     targets := targets n; missingTargets := missingTargets n |}.
Definition set_cumWeight (n : Node) (x : float64) : Node :=
  {| nid := nid n; cumWeight := x; txWeight := txWeight n; time := time n;
     valid := valid n; height := height n; ntx := ntx n; sources := sources n;
     targets := targets n; missingTargets := missingTargets n |}.
Definition set_time (n : Node) (x : Z) : Node :=
  {| nid := nid n; cumWeight := cumWeight n; txWeight := txWeight n; time := x;
     valid := valid n; height := height n; ntx := ntx n; sources := sources n;
     targets := targets n; missingTargets := missingTargets n |}.
Definition set_height (n : Node) (x : Height) : Node :=
  {| nid := nid n; cumWeight := cumWeight n; txWeight := txWeight n; time := time n;
     valid := valid n; height := x; ntx := ntx n; sources := sources n;
     targets := targets n; missingTargets := missingTargets n |}.
Definition set_sources (n : Node) (x : list loc) : Node :=
  {| nid := nid n; cumWeight := cumWeight n; txWeight := txWeight n; time := time n;
     valid := valid n; height := height n; ntx := ntx n; sources := x;
     targets := targets n; missingTargets := missingTargets n |}.
Definition set_targets (n : Node) (x : list loc) : Node :=
  {| nid := nid n; cumWeight := cumWeight n; txWeight := txWeight n; time := time n;
     valid := valid n; height := height n; ntx := ntx n; sources := sources n;
     targets := x; missingTargets := missingTargets n |}.
Definition set_missingTargets (n : Node) (x : gmap string bool) : Node :=
  {| nid := nid n; cumWeight := cumWeight n; txWeight := txWeight n; time := time n;
     valid := valid n; height := height n; ntx := ntx n; sources := sources n;
     targets := targets n; missingTargets := x |}.

Definition uid (n : Node) : uuid := n_id (nid n).

(** ** Comparisons *)

(** A nil node equals none. *)
Definition Node_Equal (thisNode thatNode : option Node) : bool :=
  match thisNode, thatNode with
  | Some a, Some b => bool_decide (uid a = uid b)
  | _, _ => false
  end.

(** [same] tells whether the two pointers are the same. *)
Definition NodeID_Equal (same : bool) (a b : NodeID) : bool :=
  same || (bool_decide (n_id a = n_id b) && (idMajor a =? idMajor b) && (idMinor a =? idMinor b)).

(** ** Numbers of the messages

    [float32(x)] rounds to nearest even; [float64(x)] is exact. *)
Definition float_normalize (prec emax : Z) (f : float64) : float64 :=
  match f with
  | S754_finite s m e => binary_normalize prec emax (cond_Zopp s (Zpos m)) e s
  | _ => f
  end.
Definition to_float32 (f : float64) : float64 := float_normalize 24 128 f.
Definition to_float64 (f : float64) : float64 := float_normalize 53 1024 f.

Record pb_NodeId := { pb_n_Id : bytes; pb_n_Address : string; pb_n_IdMajor : Z; pb_n_IdMinor : Z }.
Record pb_Node := {
  pb_n_NodeId : pb_NodeId; pb_n_CumWeight : float64; pb_n_TxWeight : float64;
  pb_n_Time : option Timestamp; pb_n_Valid : bool; pb_n_Height : Z * Z; pb_n_Tx : pb_Txv1;
  pb_n_MissingTargets : gmap string bool
}.

Section Node.
Context `{CryptoLib} `{ProtoLib} `{TimestampLib} `{EthLib} `{UuidLib}.

Definition Node_Id (n : Node) : string := uuid_String (uid n).

(** The ids of the nodes [l] points to; a pointer outside the heap panics. *)
Fixpoint node_ids (h : heap) (l : list loc) : outcome (list uuid) :=
  match l with
  | [] => Return []
  | x :: rest =>
      match h !! x with
      | None => Panic
      | Some n => let! ids := node_ids h rest in Return (uid n :: ids)
      end
  end.

Definition Node_ToPbNode (h : heap) (n : Node) (now : Z) : outcome pb_Node :=
  let! t := MarshalBinary (ntx n) now in
  let! ids := node_ids h (targets n) in
  Return {| pb_n_NodeId := {| pb_n_Id := uuid_bytes (uid n); pb_n_Address := n_address (nid n);
                              pb_n_IdMajor := idMajor (nid n); pb_n_IdMinor := idMinor (nid n) |};
            pb_n_CumWeight := to_float32 (cumWeight n); pb_n_TxWeight := to_float32 (txWeight n);
            pb_n_Time := Some (ts_New (time n)); pb_n_Valid := valid n;
            pb_n_Height := (minheight (height n), maxheight (height n)); pb_n_Tx := t;
            pb_n_MissingTargets :=
              fold_left (fun m id => <[uuid_String id := true]> m) ids ∅ |}.

(** [FromPbNode] into [n]: the sources and targets of [n] stay. *)
Definition Node_FromPbNode (n : Node) (p : pb_Node) : outcome Node :=
  let! t := UnmarshalBinary (pb_n_Tx p) in
  Return {| nid := {| n_id := default uuid_Nil (uuid_FromBytes (pb_n_Id (pb_n_NodeId p)));
                      n_address := pb_n_Address (pb_n_NodeId p);
                      idMajor := pb_n_IdMajor (pb_n_NodeId p);
                      idMinor := pb_n_IdMinor (pb_n_NodeId p) |};
            cumWeight := to_float64 (pb_n_CumWeight p); txWeight := to_float64 (pb_n_TxWeight p);
            time := AsTime (pb_n_Time p); valid := pb_n_Valid p;
            height := {| minheight := fst (pb_n_Height p); maxheight := snd (pb_n_Height p) |};
            ntx := t; sources := sources n; targets := targets n;
            missingTargets := pb_n_MissingTargets p |}.

(** [&Node{}]: the receiver [getById] and the handlers unmarshal into. *)
Definition zero_node : Node :=
  {| nid := {| n_id := uuid_Nil; n_address := ""; idMajor := 0; idMinor := 0 |};
     cumWeight := S754_zero false; txWeight := S754_zero false; time := zero_time;
     valid := false; height := {| minheight := 0; maxheight := 0 |};
     ntx := ATxv1 (NewTxv1 0); sources := []; targets := []; missingTargets := ∅ |}.

(** Text of the node's address: the base64 of the signature, a library. *)
Variable base64 : bytes -> string.

Definition GetSignature (t : Transaction) : outcome bytes :=
  match t with ATxv1 t => Return (Signature t) | AnEthTx t => encodeSignature t end.

Definition Node_GenerateAddress (n : Node) : outcome Node :=
  let! s := GetSignature (ntx n) in
  Return (set_nid n {| n_id := uid n; n_address := base64 s; idMajor := idMajor (nid n);
                       idMinor := idMinor (nid n) |}).

Definition VerifySignature_ok (t : Transaction) : outcome bool :=
  match t with
  | ATxv1 t => let! r := Txv1_Verify t in
               Return (match snd r with None => true | Some _ => false end)
  | AnEthTx t => let! e := EthTx_VerifySignature t in
                 Return (match e with None => true | Some _ => false end)
  end.

(** [NewDagNode]: the node, or [None] for a transaction of another network or
    with a bad signature.  [prevMajor] and [prevMinor] are the dag's counters
    after the increment, [id], [weight] and [now] what the uuid library, the
    random source and the clock return. *)
Definition NewDagNode (network prevMajor prevMinor : Z) (id : uuid) (weight : float64) (now : Z)
    (t : Transaction) (verifyRequired : bool) : outcome (option Node) :=
  let n := {| nid := {| n_id := id; n_address := ""; idMajor := prevMajor; idMinor := prevMinor |};
              cumWeight := S754_zero false; txWeight := weight; time := now; valid := true;
              height := {| minheight := 0; maxheight := 0 |}; ntx := t; sources := [];
              targets := []; missingTargets := ∅ |} in
  let! ct := GetChainType t in
  if negb (ct =? network) then Return None
  else if verifyRequired then
    let! ok := VerifySignature_ok t in
    if ok then let! n := Node_GenerateAddress n in Return (Some n) else Return None
  else let! n := Node_GenerateAddress n in Return (Some n).

Definition Node_NodeToVertex (n : Node) : Vertex :=
  {| v_VertexId := {| v_Id := uid n; v_Address := n_address (nid n); v_IdMajor := idMajor (nid n);
                      v_IdMinor := idMinor (nid n) |};
     v_CumWeight := cumWeight n; v_TxWeight := txWeight n; v_Timestamp := time n; v_Tx := ntx n |}.

(** ** Balances *)
Context {P : Type} `{BalanceSource P}.

(** [UpdateBalanceIfValid]: the wallet cache afterwards and the result. *)
Definition UpdateBalanceIfValid (pins : P) (wc : WalletCache) (n : Node)
  : outcome (WalletCache * bool) :=
  let subInt := SetBytes (Bytes (GetAmount (ntx n))) in
  let! s := GetSender (ntx n) in
  let r := GetRecipient (ntx n) in
  if negb (bool_decide (s = r)) then
    let! sa := BytesToAddress s in
    let '(wc, ok) := WalletCache_sub pins wc sa (Node_Id n) subInt in
    if negb ok then Return (wc, false)
    else
      let! ra := BytesToAddress r in
      Return (WalletCache_add pins wc ra (Node_Id n) subInt)
  else Return (wc, true).

(** The payment of a node is the ledger's payment. *)
Lemma UpdateBalanceIfValid_transfer pins wc n s sa ra :
  GetSender (ntx n) = Return s -> s <> GetRecipient (ntx n) ->
  BytesToAddress s = Return sa -> BytesToAddress (GetRecipient (ntx n)) = Return ra ->
  UpdateBalanceIfValid pins wc n
  = Return (transfer pins wc (Node_Id n) sa ra (Z.abs (GetAmount (ntx n)))).
Proof.
  intros Hs Hne Hsa Hra. unfold UpdateBalanceIfValid, transfer. rewrite Hs, SetBytes_Bytes. simpl.
  rewrite bool_decide_false by done. simpl. rewrite Hsa. simpl.
  destruct (WalletCache_sub _ _ _ _ _) as [wc1 []]; simpl; [|done]. by rewrite Hra.
Qed.
End Node.

(** ** Properties *)

Section NodeFacts.
Context `{UuidLib}.

Lemma fold_missing_lookup ids : forall (m : gmap string bool) (k : string),
  fold_left (fun m id => <[uuid_String id := true]> m) ids m !! k
  = if decide (k ∈ map uuid_String ids) then Some true else m !! k.
Proof.
  induction ids as [|id ids IH]; intros m k; cbn [fold_left].
  - by rewrite decide_False by (cbn; apply not_elem_of_nil).
  - rewrite IH. cbn [map].
    destruct (decide (k ∈ map uuid_String ids)) as [Hin|Hout].
    + by rewrite decide_True by set_solver.
    + destruct (decide (uuid_String id = k)) as [<-|Hne].
      * by rewrite decide_True, lookup_insert_eq by set_solver.
      * rewrite decide_False, lookup_insert_ne by set_solver. done.
Qed.
End NodeFacts.

(** C2: adding a payment updates the balances as a ledger would.  For a payment
    between addresses of 20 bytes: when the sender is the recipient it always
    succeeds and changes nothing, even if the amount is not covered; otherwise it
    succeeds exactly when the sender owns the amount (without its sign), then the
    sender's balance drops and the recipient's grows by the amount and no other
    balance changes, and a refused payment changes no balance.  In a cache without
    negative balances none becomes negative. *)
Theorem node_payment_refines_ledger `{CryptoLib} `{ProtoLib} `{TimestampLib} `{EthLib} `{UuidLib}
    {P : Type} `{BalanceSource P} (pins : P) (wc : WalletCache) (n : Node) (s : bytes)
    (sa ra : string) :
  wc_ok wc -> GetSender (ntx n) = Return s ->
  BytesToAddress s = Return sa -> BytesToAddress (GetRecipient (ntx n)) = Return ra ->
  exists wc' ok, UpdateBalanceIfValid pins wc n = Return (wc', ok) /\ wc_ok wc'
  /\ if decide (s = GetRecipient (ntx n)) then ok = true /\ wc' = wc
     else match ledger_pay (balance_of pins wc) sa ra (Z.abs (GetAmount (ntx n))) with
          | Some L => ok = true /\ forall w, balance_of pins wc' w = L w
          | None => ok = false /\ forall w, balance_of pins wc' w = balance_of pins wc w
          end.
Proof.
  intros Hok Hs Hsa Hra. destruct (decide (s = GetRecipient (ntx n))) as [Hse|Hne].
  { exists wc, true. unfold UpdateBalanceIfValid. rewrite Hs. simpl. by rewrite bool_decide_true. }
  rewrite (UpdateBalanceIfValid_transfer _ _ _ s sa ra) by done.
  assert (sa <> ra).
  { intros <-. apply Hne. by eapply BytesToAddress_inj. }
  destruct (transfer_refines pins wc (Node_Id n) sa ra (Z.abs (GetAmount (ntx n)))) as [Ho Hl];
    [done|lia|done|].
  destruct (transfer _ _ _ _ _ _) as [wc' ok]. eauto.
Qed.

(** A payment of 5 from the wallet [1...1] to the wallet [2...2]. *)
Definition sample_payment : Txv1 :=
  {| Tx_Type := PAYMENT; Chain_Type := PRIVATE_TESTNET; Sender_Pubk := [];
     Sender := replicate 20 x01; Recepient := replicate 20 x02; Amount := [x05]; Nonce := 0;
     TimestampOf := 0; Fuel_Limit := []; Fuel_Price := []; Data := None; Signature := [] |}.

Definition sample_node : Node :=
  {| nid := {| n_id := 9%N; n_address := ""; idMajor := 1; idMinor := 0 |};
     cumWeight := S754_zero false; txWeight := S754_zero false; time := 0; valid := true;
     height := {| minheight := 0; maxheight := 0 |}; ntx := ATxv1 sample_payment; sources := [];
     targets := []; missingTargets := ∅ |}.

Definition sample_sender : string := "0x0101010101010101010101010101010101010101".
Definition sample_receiver : string := "0x0202020202020202020202020202020202020202".

(** A cache in which the sender owns 7. *)
Definition sample_cache : WalletCache := {[sample_sender := [newPair "g"%string 7]]}.

Lemma sample_cache_ok : wc_ok sample_cache.
Proof.
  intros w l. unfold sample_cache. intros [_ <-]%lookup_singleton_Some. by repeat constructor.
Qed.

Lemma node_payment_refines_ledger_witness :
  exists wc', UpdateBalanceIfValid tt sample_cache sample_node = Return (wc', true)
  /\ balance_of tt wc' sample_receiver = 5.
Proof.
  destruct (node_payment_refines_ledger tt sample_cache sample_node (replicate 20 x01)
    sample_sender sample_receiver) as (wc' & ok & E & _ & Hl);
    [exact sample_cache_ok|reflexivity|reflexivity|reflexivity|].
  rewrite decide_False in Hl by discriminate. unfold ledger_pay in Hl.
  change (balance_of tt sample_cache sample_sender <? _) with false in Hl. cbv iota in Hl.
  destruct Hl as [-> Hb]. exists wc'. split; [exact E|]. rewrite Hb. vm_compute. reflexivity.
Defined.

(** C24: adding payments conserves money: whatever the outcome of adding a
    payment between two wallets of a list, the sum of the balances of the list
    stays the same. *)
Theorem node_payment_conserves_total `{CryptoLib} `{ProtoLib} `{TimestampLib} `{EthLib} `{UuidLib}
    {P : Type} `{BalanceSource P} (pins : P) (wc wc' : WalletCache) (n : Node) (ok : bool)
    (ws : list string) :
  wc_ok wc -> NoDup ws ->
  (forall s sa, GetSender (ntx n) = Return s -> BytesToAddress s = Return sa -> sa ∈ ws) ->
  (forall ra, BytesToAddress (GetRecipient (ntx n)) = Return ra -> ra ∈ ws) ->
  UpdateBalanceIfValid pins wc n = Return (wc', ok) ->
  total pins wc' ws = total pins wc ws.
Proof.
  intros Hok Hnd Hs Hr. unfold UpdateBalanceIfValid.
  destruct (GetSender (ntx n)) as [s|] eqn:Es; [|done]. simpl.
  case_bool_decide as Hne; simpl; [by intros [= <- <-]|].
  destruct (BytesToAddress s) as [sa|] eqn:Esa; [|done]. simpl. rewrite SetBytes_Bytes.
  pose proof (transfer_total pins wc (Node_Id n) sa) as HT. unfold transfer in HT.
  destruct (WalletCache_sub pins wc sa _ (Z.abs (GetAmount (ntx n)))) as [wc1 ok1] eqn:E1.
  destruct ok1; simpl.
  - destruct (BytesToAddress (GetRecipient (ntx n))) as [ra|] eqn:Era; [|done]. simpl.
    intros [= E]. specialize (HT ra (Z.abs (GetAmount (ntx n))) ws Hok ltac:(lia) Hnd).
    rewrite E1 in HT. simpl in HT. rewrite E in HT. apply HT; eauto.
  - intros [= <- <-]. specialize (HT sa (Z.abs (GetAmount (ntx n))) ws Hok ltac:(lia) Hnd).
    rewrite E1 in HT. simpl in HT. apply HT; eauto.
Qed.

Lemma node_payment_conserves_total_witness :
  exists wc' ok, UpdateBalanceIfValid tt sample_cache sample_node = Return (wc', ok)
  /\ total tt wc' [sample_sender; sample_receiver] = 7.
Proof.
  assert (match UpdateBalanceIfValid tt sample_cache sample_node with
          | Return _ => true | Panic => false end = true) as Hret by (vm_compute; reflexivity).
  destruct (UpdateBalanceIfValid tt sample_cache sample_node) as [[wc' ok]|] eqn:E;
    [|discriminate Hret].
  exists wc', ok. split; [reflexivity|].
  - rewrite (node_payment_conserves_total tt sample_cache wc' sample_node ok
      [sample_sender; sample_receiver]); [vm_compute; reflexivity|exact sample_cache_ok
      |apply (bool_decide_unpack _); vm_compute; reflexivity| | |exact E].
    + intros s sa [= <-] [= <-]. left.
    + intros ra [= <-]. right. left.
Defined.

(** A node survives the message peers exchange: its id, versions, address,
    time, validity, height and transaction come back, its weights rounded to
    single precision, and its targets as the missing targets of the copy,
    which has no links of its own. *)
Theorem pb_node_roundtrip `{CryptoLib} `{ProtoLib} `{TimestampLib} `{EthLib} `{UuidLib}
    (h : heap) (n : Node) (t : Txv1) (now : Z) (p : pb_Node) :
  ntx n = ATxv1 t -> Txv1_ok t -> uuid_ok (uid n) ->
  Node_ToPbNode h n now = Return p ->
  exists n', Node_FromPbNode zero_node p = Return n'
  /\ nid n' = nid n /\ time n' = time n /\ valid n' = valid n /\ height n' = height n
  /\ ntx n' = ntx n /\ cumWeight n' = to_float64 (to_float32 (cumWeight n))
  /\ sources n' = [] /\ targets n' = []
  /\ forall id, is_Some (missingTargets n' !! uuid_String id)
       <-> exists l m, l ∈ targets n /\ h !! l = Some m /\ uid m = id.
Proof.
  intros Ht Hok Hid. unfold Node_ToPbNode. rewrite Ht. simpl.
  destruct (node_ids h (targets n)) as [ids|] eqn:E; [|done]. simpl. intros [= <-].
  unfold Node_FromPbNode, UnmarshalBinary. simpl. rewrite Txv1_Unmarshal_Marshal by done.
  eexists. split; [reflexivity|]. simpl. rewrite uuid_FromBytes_bytes, ts_AsTime_New by done.
  destruct n as [[] ? ? ? ? [] ? ? tg ?]; simpl in *. split_and!; try done.
  intros id. rewrite fold_missing_lookup, lookup_empty.
  assert (Hids : forall ids, node_ids h tg = Return ids ->
            id ∈ ids <-> exists l m, l ∈ tg /\ h !! l = Some m /\ uid m = id).
  { clear. induction tg as [|x tg IH]; intros ids; simpl.
    - intros [= <-]. set_solver.
    - destruct (h !! x) as [m|] eqn:Ex; [|done].
      destruct (node_ids h tg) as [ids'|]; simpl; [|done]. intros [= <-].
      rewrite elem_of_cons, (IH ids' eq_refl). split.
      + intros [->|(l & m' & ? & ? & ?)]; [by exists x, m; set_solver|].
        exists l, m'. set_solver.
      + intros (l & m' & [->|Hl]%elem_of_cons & Hm & <-); [left; congruence|].
        right. by exists l, m'. }
  rewrite <- (Hids ids E). case_decide as Hin.
  - split; [intros _|by intros]. apply list_elem_of_fmap in Hin as (id' & Hs & Hin).
    by apply uuid_String_inj in Hs as ->.
  - split; [by intros []|]. intros Hin'. exfalso. apply Hin.
    apply list_elem_of_fmap. by exists id.
Qed.

Lemma pb_node_roundtrip_witness :
  exists p n', Node_ToPbNode ∅ sample_node 0 = Return p
  /\ Node_FromPbNode zero_node p = Return n' /\ nid n' = nid sample_node.
Proof.
  destruct (Node_ToPbNode ∅ sample_node 0) as [p|] eqn:E; [|vm_compute in E; discriminate].
  destruct (pb_node_roundtrip ∅ sample_node sample_payment 0 p) as (n' & E' & Hn & _);
    [reflexivity|repeat split; vm_compute; congruence|reflexivity|exact E|].
  exists p, n'. split; [reflexivity|]. split; [exact E'|exact Hn].
Defined.
