(* ===== verification/Pin.v ===== *)
(** Pin transactions: [dag/pin.go] and [tx/pb/txpin.go].

    A pin closes a slice of the dag: it lists the confirmed sites, the balances
    of their wallets and the smart contract transactions executed with them.
    [NodeTxPin] holds the chain of pins.  Building a pin reads and changes the
    wallet cache, the VM's state store and the pools of smart contract
    transactions; [World] holds them.  The VM itself is a separate process
    behind gRPC: it is the parameter [RunCall]. *)
From S2P Require Import Prelude GoLib Bytes Tx TxRecords Storage Pool WalletCache Node.

(** ** Messages *)

Record SiteID := { site_Id : bytes; site_Address : string; site_IdMajor : Z; site_IdMinor : Z }.

Inductive TxStatus := SUCCESSFUL | FAILED.
Definition TxStatus_String (s : TxStatus) : string :=
  match s with SUCCESSFUL => "SUCCESSFUL" | FAILED => "FAILED" end.

Record TxExecLog := { el_ContractAddress : bytes; el_Topics : list bytes; el_Data : bytes }.
Record TxReceipt := {
  FuelUsed : Z; rc_Status : TxStatus; rc_StatusMessage : string; rc_Logs : list TxExecLog
}.
Record ExecutedSmcTx := { ex_Tx : pb_Txv1; ex_Receipt : TxReceipt }.
Record AccountData := {
  ad_Address : bytes; ad_Balance : bytes; ad_Nonce : Z; ad_Codehash : bytes; ad_Code : bytes
}.
Inductive pb_Diff := PAccountDiff (d : AccountData) | PMappingDiff (address key value : bytes).

Record TxPin := {
  Prev : bytes; Ts : option Timestamp; Sites : list SiteID; Nodes : list pb_Node;
  Balance : gmap string bytes; Pk : bytes; Sign : bytes; SmcTxs : list ExecutedSmcTx;
  pin_Diffs : list pb_Diff; PinNumber : Z
}.

Definition set_Sign (t : TxPin) (pk sign : bytes) : TxPin :=
  {| Prev := Prev t; Ts := Ts t; Sites := Sites t; Nodes := Nodes t; Balance := Balance t;
     Pk := pk; Sign := sign; SmcTxs := SmcTxs t; pin_Diffs := pin_Diffs t;
     PinNumber := PinNumber t |}.
Definition set_Balance (t : TxPin) (b : gmap string bytes) : TxPin :=
  {| Prev := Prev t; Ts := Ts t; Sites := Sites t; Nodes := Nodes t; Balance := b;
     Pk := Pk t; Sign := Sign t; SmcTxs := SmcTxs t; pin_Diffs := pin_Diffs t;
     PinNumber := PinNumber t |}.
Definition set_sites (t : TxPin) (s : list SiteID) (n : list pb_Node) : TxPin :=
  {| Prev := Prev t; Ts := Ts t; Sites := s; Nodes := n; Balance := Balance t;
     Pk := Pk t; Sign := Sign t; SmcTxs := SmcTxs t; pin_Diffs := pin_Diffs t;
     PinNumber := PinNumber t |}.
Definition set_PinNumber (t : TxPin) (n : Z) : TxPin :=
  {| Prev := Prev t; Ts := Ts t; Sites := Sites t; Nodes := Nodes t; Balance := Balance t;
     Pk := Pk t; Sign := Sign t; SmcTxs := SmcTxs t; pin_Diffs := pin_Diffs t; PinNumber := n |}.
Definition set_smc (t : TxPin) (s : list ExecutedSmcTx) (d : list pb_Diff) : TxPin :=
  {| Prev := Prev t; Ts := Ts t; Sites := Sites t; Nodes := Nodes t; Balance := Balance t;
     Pk := Pk t; Sign := Sign t; SmcTxs := s; pin_Diffs := d; PinNumber := PinNumber t |}.

Class ProtoPinLib := { proto_Marshal_TxPin : TxPin -> option bytes }.

(** ** txpin.go *)

Section TxPin.
Context `{CryptoLib} `{TimestampLib} `{ProtoPinLib}.

Definition NewTxPin (prev : bytes) (now : Z) : TxPin :=
  {| Prev := prev; Ts := Some (ts_New now); Sites := []; Nodes := []; Balance := ∅; Pk := [];
     Sign := []; SmcTxs := []; pin_Diffs := []; PinNumber := 0 |}.

Definition TxPin_Hash (t : TxPin) : option bytes :=
  match proto_Marshal_TxPin t with None => None | Some buf => Some (sha256 buf) end.

Definition TxPin_GetHash (t : TxPin) : outcome bytes :=
  match TxPin_Hash t with None => Panic | Some h => Return h end.

Definition TxPin_generateSignature (t : TxPin) (pk : bytes) : outcome TxPin :=
  match TxPin_Hash t with
  | None => Return t
  | Some payload => let! s := DSA_Sign pk payload in Return (set_Sign t (Pk t) s)
  end.

Definition TxPin_SignTx (t : TxPin) (w : Wallet) : outcome TxPin :=
  TxPin_generateSignature (set_Sign t (publicKey w) []) (privateKey w).

Inductive PinVerifyError := ErrPinSignatureLength (sz : nat) | ErrPinMarshal | ErrPinVerify.

(** The pin afterwards and the error; a pin that cannot be marshalled stays
    without its signature. *)
Definition TxPin_VerifyTx (t : TxPin) : outcome (TxPin * option PinVerifyError) :=
  let sz := length (Sign t) in
  if (sz <? 64)%nat then Return (t, Some (ErrPinSignatureLength sz))
  else
    let sigbuf := Sign t in
    let t := set_Sign t (Pk t) [] in
    match TxPin_Hash t with
    | None => Return (t, Some ErrPinMarshal)
    | Some payload =>
        let t := set_Sign t (Pk t) sigbuf in
        let! valid := DSA_Verify (Pk t) (Sign t) payload in
        Return (t, if valid then None else Some ErrPinVerify)
    end.
End TxPin.

(** ** The chain of pins *)

(** The channel of downloaded pins holds 1000 pins. *)
Record NodeTxPin := {
  pins : list TxPin; ready : bool; downloadedPins : list TxPin; downloadsClosed : bool
}.

Definition with_pins (p : NodeTxPin) (l : list TxPin) : NodeTxPin :=
  {| pins := l; ready := ready p; downloadedPins := downloadedPins p;
     downloadsClosed := downloadsClosed p |}.

Definition newNodeTxPin : NodeTxPin :=
  {| pins := []; ready := false; downloadedPins := []; downloadsClosed := false |}.

Definition IsReady (p : NodeTxPin) : bool := ready p.

(** Sending to the channel waits while it is full; sending to or closing a
    closed channel panics. *)
Inductive chan_result := Proceeds (p : NodeTxPin) | Blocks | ChanPanic.

Definition openPinDownloading (p : NodeTxPin) : NodeTxPin :=
  {| pins := pins p; ready := ready p; downloadedPins := []; downloadsClosed := false |}.

Definition AddDownloadedPin (p : NodeTxPin) (pin : TxPin) : chan_result :=
  if downloadsClosed p then ChanPanic
  else if (1000 <=? length (downloadedPins p))%nat then Blocks
  else Proceeds {| pins := pins p; ready := ready p;
                   downloadedPins := downloadedPins p ++ [pin]; downloadsClosed := false |}.

Definition ClosePinDownloading (p : NodeTxPin) : chan_result :=
  if downloadsClosed p then ChanPanic
  else Proceeds {| pins := pins p; ready := ready p; downloadedPins := downloadedPins p;
                   downloadsClosed := true |}.

Definition GetLastPin (p : NodeTxPin) : option TxPin := last (pins p).
Definition getLast (p : NodeTxPin) : option TxPin := last (pins p).

Definition GetPin (p : NodeTxPin) (number : Z) : option TxPin :=
  if (0 <? length (pins p))%nat then
    if (Z.of_nat (length (pins p)) <=? number) || (number <? 0) then None
    else match pins p !! Z.to_nat number with
         | None => None
         | Some directPin =>
             if PinNumber directPin =? number then Some directPin
             else match find_first (fun pin => PinNumber pin =? number) (pins p) with
                  | Some (pin, _) => Some pin
                  | None => None
                  end
         end
  else None.

(** A nil slice is [None]. *)
Definition getAllFrom (p : NodeTxPin) (fromPinNumber : Z) : option (list TxPin) :=
  if (0 <? length (pins p))%nat && (fromPinNumber <? Z.of_nat (length (pins p)))
     && (0 <=? fromPinNumber)
  then Some (drop (Z.to_nat fromPinNumber) (pins p))
  else None.

Definition CurrentHeight (p : NodeTxPin) : Z :=
  match last (pins p) with None => 0 | Some x => PinNumber x end.

(** [Unix()] of an instant in nanoseconds. *)
Definition Unix (t : Z) : Z := t / 1000000000.

Definition CurrentTS `{TimestampLib} (p : NodeTxPin) : Z :=
  match last (pins p) with None => 0 | Some x => Unix (AsTime (Ts x)) end.

(** From the last pin to the first. *)
Fixpoint latest_in (l : list TxPin) (wallet : string) : option bytes :=
  match l with
  | [] => None
  | pin :: rest => match Balance pin !! wallet with
                   | Some v => Some v
                   | None => latest_in rest wallet
                   end
  end.

Definition unsafe_getLatestBalance (p : NodeTxPin) (wallet_address : string) : option Z :=
  match latest_in (rev (pins p)) wallet_address with
  | Some v => Some (SetBytes v)
  | None => None
  end.

(** The pins are what the wallet cache falls back on. *)
#[export] Program Instance pins_balance_source : BalanceSource NodeTxPin := {
  latest_balance := unsafe_getLatestBalance
}.
Next Obligation.
  intros p w v. unfold unsafe_getLatestBalance. destruct (latest_in _ _); [|done].
  intros [= <-]. apply SetBytes_nonneg.
Qed.

(** The balance and whether it was found; an unknown wallet reads as zero. *)
Definition unsafe_getBalanceForWallet (p : NodeTxPin) (walletCache : WalletCache) (wallet : string)
  : Z * bool :=
  match WalletCache_get walletCache wallet with
  | Some sb => (sb, true)
  | None => match unsafe_getLatestBalance p wallet with
            | Some sb => (sb, true)
            | None => (0, false)
            end
  end.

Section Lookups.
Context `{Goterators}.

(** From the last pin to the first. *)
Definition InPin (p : NodeTxPin) (vertex : Node) : bool :=
  existsb (fun pin =>
      match gt_Find (fun site => bool_decide (site_Id site = uuid_bytes (uid vertex))) (Sites pin) with
      | Some _ => true | None => false end)
    (rev (pins p)).

Fixpoint find_node (l : list TxPin) (idb : bytes) : option pb_Node :=
  match l with
  | [] => None
  | pin :: rest =>
      match gt_Find (fun n => bool_decide (pb_n_Id (pb_n_NodeId n) = idb)) (Nodes pin) with
      | Some (n, _) => Some n
      | None => find_node rest idb
      end
  end.

Definition NodeTxPin_getById `{CryptoLib} `{ProtoLib} `{TimestampLib} `{EthLib}
    (p : NodeTxPin) (id : uuid) : outcome (option Node) :=
  match find_node (rev (pins p)) (uuid_bytes id) with
  | None => Return None
  | Some n => let! x := Node_FromPbNode zero_node n in Return (Some x)
  end.

(** Where the first pin that has [ptx] as its predecessor is. *)
Definition successor_index (l : list TxPin) (ptx : TxPin) : option nat :=
  match find_first (fun x => bool_decide (Prev x = Sign ptx)) l with
  | Some (_, i) => Some i
  | None => None
  end.

(** The log line prints five bytes of the signature and of the predecessor:
    shorter ones panic. *)
Definition insertIfNotFound (p : NodeTxPin) (ptx : TxPin) : outcome NodeTxPin :=
  if (length (Sign ptx) <? 5)%nat then Panic
  else if (0 <? length (Prev ptx))%nat && (length (Prev ptx) <? 5)%nat then Panic
  else match gt_Find (fun x => bool_decide (Sign x = Sign ptx)) (pins p) with
  | Some _ => Return p
  | None =>
      if (length (Prev ptx) =? 0)%nat then
        match pins p with
        | [] => Return (with_pins p (pins p ++ [ptx]))
        | first :: rest =>
            if (length (Prev first) =? 0)%nat then
              if bool_decide (Sign first = Sign ptx) then Return p
              else Return (with_pins p (ptx :: rest))
            else
              match successor_index (pins p) ptx with
              | Some i => Return (with_pins p (insert_at i ptx (pins p)))
              | None => Return p
              end
        end
      else
        match successor_index (pins p) ptx with
        | Some i => Return (with_pins p (insert_at i ptx (pins p)))
        | None => Return (with_pins p (pins p ++ [ptx]))
        end
  end.
End Lookups.

(** ** Balances *)

(** [UpdateIfValid]: from the last pin to the first, the first balance that
    covers the amount is reduced.  The list is the chain reversed. *)
Fixpoint update_latest (l : list TxPin) (wallet : string) (amount : Z) : list TxPin * bool :=
  match l with
  | [] => ([], false)
  | pin :: rest =>
      let skip := let '(rest', ok) := update_latest rest wallet amount in (pin :: rest', ok) in
      match Balance pin !! wallet with
      | None => skip
      | Some b =>
          let balance := SetBytes b - amount in
          if 0 <=? balance
          then (set_Balance pin (<[wallet := Bytes balance]> (Balance pin)) :: rest, true)
          else skip
      end
  end.

Definition UpdateIfValid (p : NodeTxPin) (wallet : string) (amount : Z) : NodeTxPin * bool :=
  let '(l, ok) := update_latest (rev (pins p)) wallet amount in (with_pins p (rev l), ok).

Definition GetWallets `{MapRange} `{!CollSet string} (p : NodeTxPin) (walletCache : WalletCache)
  : outcome (list bytes) :=
  let s := fold_left (fun s pin => fold_left (fun s kv => cls_Insert s (fst kv)) (map_range (Balance pin)) s)
             (pins p) cls_New in
  let s := fold_left (fun s kv => cls_Insert s (fst kv)) (map_range walletCache) s in
  fold_left (fun acc w => let! resp := acc in let! b := AddressToBytes w in Return (resp ++ [b]))
    (cls_list s) (Return []).

(** The pins up to the first with a larger number; a later balance replaces an
    earlier one. *)
Fixpoint pinned_until (l : list TxPin) (pinNumber : Z) (resp : gmap string bytes)
  : gmap string bytes :=
  match l with
  | [] => resp
  | pin :: rest => if pinNumber <? PinNumber pin then resp
                   else pinned_until rest pinNumber (Balance pin ∪ resp)
  end.

Definition GetPinnedBalances (p : NodeTxPin) (pinNumber : Z) : gmap string bytes :=
  pinned_until (pins p) pinNumber ∅.

(** One wallet of [GetBalances]; [None] is not found. *)
Definition wallet_balance (p : NodeTxPin) (walletCache : WalletCache) (wallet : bytes)
  : outcome (option bytes) :=
  let! a := BytesToAddress wallet in
  Return (match walletCache !! a with
          | None | Some [] => latest_in (rev (pins p)) a
          | Some (x :: l) => Some (Bytes (second (List.last (x :: l) x)))
          end).

(** The first unknown wallet is an error, [None]. *)
Fixpoint GetBalances (p : NodeTxPin) (walletCache : WalletCache) (wallets : list bytes)
  : outcome (option (list bytes)) :=
  match wallets with
  | [] => Return (Some [])
  | w :: rest =>
      let! b := wallet_balance p walletCache w in
      match b with
      | None => Return None
      | Some b =>
          let! r := GetBalances p walletCache rest in
          Return (match r with None => None | Some l => Some (b :: l) end)
      end
  end.

(** The balance and whether there was no error. *)
Definition NodeTxPin_GetBalance (p : NodeTxPin) (walletCache : WalletCache) (wallet : bytes)
  : outcome (Z * bool) :=
  let! b := GetBalances p walletCache [wallet] in
  match b with
  | None => Return (0, false)
  | Some (x :: _) => Return (SetBytes x, true)
  | Some [] => Panic
  end.

(** ** Results of the contract VM *)

(** [s[a:b]]; bounds outside the string panic. *)
Definition go_slice (s : string) (a b : Z) : outcome string :=
  if (a <? 0) || (b <? a) || (Z.of_nat (String.length s) <? b) then Panic
  else Return (String.substring (Z.to_nat a) (Z.to_nat (b - a)) s).

Fixpoint hex_number (acc : Z) (s : string) : option Z :=
  match s with
  | EmptyString => Some acc
  | String c r => match hex_val c with
                  | Some d => hex_number (acc * 16 + Z.of_N d) r
                  | None => None
                  end
  end.

(** [strconv.ParseUint(s, 16, 64)]. *)
Definition ParseUint16 (s : string) : option Z :=
  match s with
  | EmptyString => None
  | _ => match hex_number 0 s with
         | Some n => if n <? 2 ^ 64 then Some n else None
         | None => None
         end
  end.

Record solidityError := {
  se_signature : string; se_offset : Z; se_dataLen : Z; se_data : bytes; se_raw : string
}.

Definition newSolidityError (hexErr : string) : outcome solidityError :=
  if negb (HasPrefix hexErr "0x") then Panic
  else
    let trimmedErr := TrimPrefix hexErr "0x" in
    match hex_DecodeString trimmedErr with
    | (_, false) => Panic
    | (b, true) =>
        if (length b <? 4)%nat then Panic
        else if (length b <? 100)%nat then
          let! sig := go_slice trimmedErr 0 8 in
          Return {| se_signature := sig; se_offset := 0; se_dataLen := 0; se_data := [];
                    se_raw := "" |}
        else
          let! o := go_slice trimmedErr 8 72 in
          match ParseUint16 o with
          | None => Panic
          | Some offset =>
              let e := to_uint64 (72 + to_uint64 (offset * 2)) in
              let! l := go_slice trimmedErr 72 e in
              match ParseUint16 l with
              | None => Panic
              | Some n =>
                  let! d := go_slice trimmedErr e (to_uint64 (e + to_uint64 (n * 2))) in
                  match hex_DecodeString d with
                  | (_, false) => Panic
                  | (data, true) =>
                      let! sig := go_slice trimmedErr 0 8 in
                      Return {| se_signature := sig; se_offset := offset; se_dataLen := n;
                                se_data := data; se_raw := hexErr |}
                  end
              end
          end
    end.

(** [string(b)] of bytes. *)
Definition bytes_string (b : bytes) : string :=
  String.string_of_list_ascii (map Ascii.ascii_of_byte b).

(** The text of the error [parseVmError] returns. *)
Definition parseVmError (err : string) : outcome string :=
  if HasPrefix err "0x" then let! e := newSolidityError err in Return (bytes_string (se_data e))
  else Return ("system VM error during tx execution: " ++ err)%string.

Definition emptyHex (hex : string) : bool :=
  bool_decide (hex = ""%string) || bool_decide (hex = "0x"%string) || (String.length hex <=? 2)%nat.

Record ExecutionResult := { ex_Hash : string; Successful_ : bool; Output : string; GasUsed : Z }.

Record CallResponse := { cr_Status : Z; cr_Msg : string; cr_Error : string; cr_GasUsed : string }.

Record PinTxHeader := { CoinbaseAccountAddress : bytes; h_Timestamp : Z; h_TxNumber : Z }.

(** The state that building a pin touches. *)
Record World := {
  w_pins : NodeTxPin;
  walletCache : WalletCache;
  walletCacheConfirmed : WalletCache;
  w_store : Storage;
  w_smc : SmcStore;
  pinsQuantity : Z;
  w_heap : heap
}.

Definition with_w_pins w x := {| w_pins := x; walletCache := walletCache w;
  walletCacheConfirmed := walletCacheConfirmed w; w_store := w_store w; w_smc := w_smc w;
  pinsQuantity := pinsQuantity w; w_heap := w_heap w |}.
Definition with_walletCache w x := {| w_pins := w_pins w; walletCache := x;
  walletCacheConfirmed := walletCacheConfirmed w; w_store := w_store w; w_smc := w_smc w;
  pinsQuantity := pinsQuantity w; w_heap := w_heap w |}.
Definition with_confirmed w x := {| w_pins := w_pins w; walletCache := walletCache w;
  walletCacheConfirmed := x; w_store := w_store w; w_smc := w_smc w;
  pinsQuantity := pinsQuantity w; w_heap := w_heap w |}.
Definition with_store w x := {| w_pins := w_pins w; walletCache := walletCache w;
  walletCacheConfirmed := walletCacheConfirmed w; w_store := x; w_smc := w_smc w;
  pinsQuantity := pinsQuantity w; w_heap := w_heap w |}.
Definition with_smc w x := {| w_pins := w_pins w; walletCache := walletCache w;
  walletCacheConfirmed := walletCacheConfirmed w; w_store := w_store w; w_smc := x;
  pinsQuantity := pinsQuantity w; w_heap := w_heap w |}.
Definition with_quantity w x := {| w_pins := w_pins w; walletCache := walletCache w;
  walletCacheConfirmed := walletCacheConfirmed w; w_store := w_store w; w_smc := w_smc w;
  pinsQuantity := x; w_heap := w_heap w |}.
Definition with_heap w x := {| w_pins := w_pins w; walletCache := walletCache w;
  walletCacheConfirmed := walletCacheConfirmed w; w_store := w_store w; w_smc := w_smc w;
  pinsQuantity := pinsQuantity w; w_heap := x |}.

Section Stage.
Context `{CryptoLib} `{ProtoLib} `{TimestampLib} `{EthLib} `{UuidLib} `{ProtoPinLib} `{MapRange}.

(** The VM executes a transaction against the state store and answers; [inr]
    is a failure of the connection or of the call. *)
Variable RunCall : Storage -> pb_Txv1 -> PinTxHeader -> Storage * (CallResponse + string).
(** [config.GetConfig().Dag.Coinbaseaccount]. *)
Variable coinbase : string.
(** The wallet that signs pins. *)
Variable dagWallet : Wallet.
(** The clock. *)
Variable now : Z.

(** [inr] is the error of a transaction to abandon.  The coinbase account must
    be an address: otherwise the call panics. *)
Definition executeSMCTx (p : NodeTxPin) (store : Storage) (t : Transaction) (timestamp : Z)
  : outcome (Storage * (ExecutionResult + string)) :=
  let! hash := GetHash t in
  match ParseEthAddress coinbase with
  | inr _ => Panic
  | inl coinbaseAddrBytes =>
      let! m := MarshalBinary t now in
      let header := {| CoinbaseAccountAddress := coinbaseAddrBytes; h_Timestamp := timestamp;
                       h_TxNumber := to_int32 (CurrentHeight p + 1) |} in
      match RunCall store m header with
      | (store, inr err) => Return (store, inr err)
      | (store, inl response) =>
          if cr_Status response =? -2 then
            let! e := parseVmError (cr_Error response) in Return (store, inr e)
          else match ParseInt64 (cr_GasUsed response) with
          | None => Return (store, inr "invalid syntax"%string)
          | Some gasUsed =>
              if (0 <? cr_Status response) || (cr_Status response =? -1) then
                let! parsedErr := if emptyHex (cr_Msg response)
                                  then parseVmError (cr_Error response)
                                  else parseVmError (cr_Msg response) in
                Return (store, inl {| ex_Hash := hex_EncodeToString hash; Successful_ := false;
                                      Output := parsedErr; GasUsed := gasUsed |})
              else
                Return (store, inl {| ex_Hash := hex_EncodeToString hash; Successful_ := true;
                                      Output := cr_Msg response; GasUsed := gasUsed |})
          end
      end
  end.

(** The data of the logs is not copied. *)
Definition execResultToReceipt (store : Storage) (r : ExecutionResult) : outcome TxReceipt :=
  match hex_DecodeString (ex_Hash r) with
  | (_, false) => Panic
  | (hash, true) =>
      Return {| FuelUsed := to_int32 (GasUsed r);
                rc_Status := if negb (Successful_ r) then FAILED else SUCCESSFUL;
                rc_StatusMessage := Output r;
                rc_Logs := map (fun l => {| el_ContractAddress := ContractAddress l;
                                            el_Topics := Topics l; el_Data := [] |})
                             (GetLogsForTx store hash) |}
  end.

(** A balance or nonce that is not a number panics. *)
Fixpoint diffToPb (l : list Diff) : outcome (list pb_Diff) :=
  match l with
  | [] => Return []
  | DAccount a :: rest =>
      let! addr := StoredAccount_AddressBytes a in
      match dec_Parse (sa_Balance a), dec_Parse (sa_Nonce a) with
      | Some balance, Some nonce =>
          let! r := diffToPb rest in
          Return (PAccountDiff {| ad_Address := addr; ad_Balance := Bytes balance;
                                  ad_Nonce := big_Int64 nonce;
                                  ad_Codehash := fst (hex_DecodeString (sa_CodeHash a));
                                  ad_Code := fst (hex_DecodeString (sa_Code a)) |} :: r)
      | _, _ => Panic
      end
  | DMapping m :: rest =>
      let! r := diffToPb rest in
      Return (PMappingDiff (m_Address m) (m_Key m) (m_Value m) :: r)
  end.

(** Nonces of the senders of the Ethereum payments in the pin. *)
Fixpoint incr_nonces (store : Storage) (l : list pb_Node) : outcome Storage :=
  match l with
  | [] => Return store
  | n :: rest =>
      match pb_RlpEthTx (pb_n_Tx n) with
      | None => incr_nonces store rest
      | Some _ => let! store := NonceIncr store now (pb_Sender (pb_n_Tx n)) in incr_nonces store rest
      end
  end.

(** The loop over the smart contract transactions: [idx] is the index of the
    next one and [gasUsed] the gas so far. *)
Fixpoint run_smc_txs (w : World) (pin : TxPin) (pinHashStr : string) (timestamp : Z) (idx gasUsed : Z)
    (l : list Transaction) : outcome (World * list ExecutedSmcTx) :=
  match l with
  | [] => Return (w, [])
  | smcTx :: rest =>
      let! r := executeSMCTx (w_pins w) (w_store w) smcTx timestamp in
      let w := with_store w (fst r) in
      match snd r with
      | inr _ =>
          let! hash := GetHash smcTx in
          let! smc := RemoveUnconfirmed (w_smc w) smcTx in
          run_smc_txs (with_smc w smc) pin pinHashStr timestamp (idx + 1) gasUsed rest
      | inl execResult =>
          let gasUsed := to_int64 (gasUsed + GasUsed execResult) in
          let! smc := AddConfirmed (w_smc w)
            {| c_tx := smcTx; UsedFuel := GasUsed execResult; StatusMessage := Output execResult;
               c_Status := if negb (Successful_ execResult) then Failed else Successful;
               PinTxNumber := Z.of_nat (length (pins (w_pins w))); PinTxHash := pinHashStr;
               TxIndex := Z.of_nat (length (Nodes pin)) + idx; CumulativeGasUsed := gasUsed |} in
          let w := with_smc w smc in
          let! receipt := execResultToReceipt (w_store w) execResult in
          let! m := MarshalBinary smcTx now in
          let! more := run_smc_txs w pin pinHashStr timestamp (idx + 1) gasUsed rest in
          Return (fst more, {| ex_Tx := m; ex_Receipt := receipt |} :: snd more)
      end
  end.

(** The accounts the contracts changed: their balances go into the pin and out
    of the cache. *)
Fixpoint sync_diffs (cache : WalletCache) (balance : gmap string bytes) (l : list Diff)
  : outcome (WalletCache * gmap string bytes) :=
  match l with
  | [] => Return (cache, balance)
  | DAccount a :: rest =>
      match dec_Parse (sa_Balance a) with
      | None => Panic
      | Some b =>
          let address := ("0x" ++ sa_Address a)%string in
          sync_diffs (WalletCache_remove cache address []) (<[address := Bytes b]> balance) rest
      end
  | DMapping _ :: rest => sync_diffs cache balance rest
  end.

Definition runSmartContractStage (w : World) (pin : TxPin) (smcTxs : list Transaction)
  : outcome (World * TxPin) :=
  let! store := SyncBalances now (w_store w) (Balance pin) in
  let! store := CaptureStateStoreDiffs store in
  let pinHashStr := ("0x" ++ hex_EncodeToString (default [] (TxPin_Hash pin)))%string in
  let timestamp := Unix (AsTime (Ts pin)) in
  let! store := incr_nonces store (Nodes pin) in
  let! r := run_smc_txs (with_store w store) pin pinHashStr timestamp 0 0 smcTxs in
  let '(w, executedTxs) := r in
  let! diffSlice := GetStateStoreDiffs (w_store w) in
  let! ds := diffToPb diffSlice in
  let! cb := sync_diffs (walletCache w) (Balance pin) diffSlice in
  let '(cache, balance) := cb in
  Return (with_store (with_walletCache w cache) (ResetCaptureStateStoreDiffs (w_store w)),
          set_Balance (set_smc pin executedTxs ds) balance).

(** ** add *)

(** [m[k] = append(m[k], v)]. *)
Definition map_append (m : gmap string (list Z)) (k : string) (v : Z) : gmap string (list Z) :=
  <[k := default [] (m !! k) ++ [v]]> m.

Definition sender_address (n : Node) : outcome string :=
  let! s := GetSender (ntx n) in BytesToAddress s.
Definition recipient_address (n : Node) : outcome string := BytesToAddress (GetRecipient (ntx n)).

(** First loop: the known balances of the senders and the receivers. *)
Fixpoint collect_balances (p : NodeTxPin) (cache : WalletCache)
    (senders receivers : gmap string (list Z)) (sites : list Node)
  : outcome (gmap string (list Z) * gmap string (list Z)) :=
  match sites with
  | [] => Return (senders, receivers)
  | vertex :: rest =>
      let! s := sender_address vertex in
      let! r := recipient_address vertex in
      collect_balances p cache
        (map_append senders s (fst (unsafe_getBalanceForWallet p cache s)))
        (map_append receivers r (fst (unsafe_getBalanceForWallet p cache r))) rest
  end.

(** [l[len(l)-1]] of a slice; an empty one panics. *)
Definition last_of (o : option (list Z)) : outcome Z :=
  match last (default [] o) with Some x => Return x | None => Panic end.

Definition set_valid (n : Node) (x : bool) : Node :=
  {| nid := nid n; cumWeight := cumWeight n; txWeight := txWeight n; time := time n;
     valid := x; height := height n; ntx := ntx n; sources := sources n;
     targets := targets n; missingTargets := missingTargets n |}.

(** Second loop: each site joins the pin with the balances of its wallets,
    which leave the cache. *)
Fixpoint pin_sites (w : World) (pin : TxPin) (senders receivers : gmap string (list Z))
    (sites : list loc) : outcome (World * TxPin) :=
  match sites with
  | [] => Return (w, pin)
  | l :: rest =>
      match w_heap w !! l with
      | None => Panic
      | Some val =>
          let! pbn := Node_ToPbNode (w_heap w) val now in
          let site := {| site_Id := uuid_bytes (uid val); site_Address := n_address (nid val);
                         site_IdMajor := idMajor (nid val); site_IdMinor := idMinor (nid val) |} in
          let! s := sender_address val in
          let! r := recipient_address val in
          let! senderBalance := last_of (senders !! s) in
          let w := if senderBalance <? 0
                   then with_heap w (<[l := set_valid val false]> (w_heap w)) else w in
          let! receiverBalance := last_of (receivers !! r) in
          let pin := set_sites pin (Sites pin ++ [site]) (Nodes pin ++ [pbn]) in
          let pin := set_Balance pin
            (<[r := Bytes receiverBalance]> (<[s := Bytes senderBalance]> (Balance pin))) in
          let cache := WalletCache_remove (WalletCache_remove (walletCache w) s [Node_Id val]) r
                         [Node_Id val] in
          pin_sites (with_walletCache w cache) pin senders receivers rest
      end
  end.

(** The nodes behind some pointers; nil or dangling pointers panic. *)
Fixpoint deref (h : heap) (l : list loc) : outcome (list Node) :=
  match l with
  | [] => Return []
  | x :: rest => match h !! x with
                 | None => Panic
                 | Some n => let! r := deref h rest in Return (n :: r)
                 end
  end.

(** The sites in order of time; pointers to nodes of the same time keep their
    order. *)
Definition sort_by_time (h : heap) (l : list loc) : list loc :=
  SliceStable (fun i j => match h !! i, h !! j with
                          | Some a, Some b => time a <? time b
                          | _, _ => false end) l.

Definition NodeTxPin_add (w : World) (sites : list loc) (smcTxs : list Transaction)
  : outcome World :=
  let prev := match last (pins (w_pins w)) with Some x => Sign x | None => [] end in
  let sites := sort_by_time (w_heap w) sites in
  let! nodes := deref (w_heap w) sites in
  let! b := collect_balances (w_pins w) (walletCache w) ∅ ∅ nodes in
  let! r := pin_sites w (NewTxPin prev now) (fst b) (snd b) sites in
  let '(w, pin) := r in
  let pin := set_PinNumber pin (pinsQuantity w) in
  let w := with_quantity w (to_int64 (pinsQuantity w + 1)) in
  let! r := runSmartContractStage w pin smcTxs in
  let '(w, pin) := r in
  let! pin := TxPin_SignTx pin dagWallet in
  Return (with_w_pins w (with_pins (w_pins w) (pins (w_pins w) ++ [pin]))).

(** [set]: the genesis pin. *)
Definition NodeTxPin_set (p : NodeTxPin) (genesis : Node) (wallet : string) : outcome NodeTxPin :=
  let pin := NewTxPin [] now in
  let s := {| site_Id := uuid_bytes (uid genesis); site_Address := n_address (nid genesis);
              site_IdMajor := idMajor (nid genesis); site_IdMinor := idMinor (nid genesis) |} in
  let pin := set_Balance pin (<[wallet := Bytes (GetAmount (ntx genesis))]> (Balance pin)) in
  let! pin := TxPin_SignTx (set_sites pin (Sites pin ++ [s]) (Nodes pin)) dagWallet in
  Return (with_pins p (pins p ++ [pin])).
End Stage.

(** ** Applying a received pin *)

Section SyncPins.
Context `{CryptoLib} `{ProtoLib} `{TimestampLib} `{EthLib} `{UuidLib} `{ProtoPinLib} `{MapRange}.
Variable RunCall : Storage -> pb_Txv1 -> PinTxHeader -> Storage * (CallResponse + string).
Variable coinbase : string.
Variable now : Z.
(** The text protobuf prints for a transaction: the key of a cache entry. *)
Variable pb_text : pb_Txv1 -> string.

(** [c[address] = append(c[address], newPair("sc", balance))]. *)
Definition push_sc (cache : WalletCache) (address : string) (balance : Z) : WalletCache :=
  <[address := default [] (cache !! address) ++ [newPair "sc"%string balance]]> cache.

(** The payments of the pin on the confirmed cache; a wallet that is still
    unknown after its update panics. *)
Fixpoint sync_payments (p : NodeTxPin) (confirmed : WalletCache) (balances : gmap string bytes)
    (sites : list pb_Node) : outcome (WalletCache * gmap string bytes) :=
  match sites with
  | [] => Return (confirmed, balances)
  | payment :: rest =>
      let! s := BytesToAddress (pb_Sender (pb_n_Tx payment)) in
      let transferAmount := SetBytes (pb_Amount (pb_n_Tx payment)) in
      let id := pb_text (pb_n_Tx payment) in
      let confirmed := fst (WalletCache_sub p confirmed s id transferAmount) in
      let! r := BytesToAddress (pb_Recepient (pb_n_Tx payment)) in
      let confirmed := fst (WalletCache_add p confirmed r id transferAmount) in
      match WalletCache_get confirmed s, WalletCache_get confirmed r with
      | Some senderBalance, Some receiverBalance =>
          sync_payments p confirmed
            (<[r := Bytes receiverBalance]> (<[s := Bytes senderBalance]> balances)) rest
      | _, _ => Panic
      end
  end.

Inductive SyncError := ErrInvalidTx | ErrFuel | ErrStatus | ErrOutput | ErrLogs.

(** Do the logs carry the same data?  A log the receipt lacks panics. *)
Fixpoint same_logs (mine theirs : list TxExecLog) : outcome bool :=
  match mine with
  | [] => Return true
  | x :: xs => match theirs with
               | [] => Panic
               | y :: ys => if bool_decide (el_Data x = el_Data y) then same_logs xs ys
                            else Return false
               end
  end.

(** Execute the contracts of the pin again and compare the receipts. *)
Fixpoint check_smc_txs (p : NodeTxPin) (store : Storage) (timestamp : Z) (l : list ExecutedSmcTx)
  : outcome (Storage * option SyncError) :=
  match l with
  | [] => Return (store, None)
  | smcTx :: rest =>
      let! realTx := UnmarshalBinary (ex_Tx smcTx) in
      let! r := executeSMCTx RunCall coinbase now p store realTx timestamp in
      let '(store, res) := r in
      match res with
      | inr _ => let! hash := GetHash realTx in Return (store, Some ErrInvalidTx)
      | inl execResult =>
          let statusMsg := if negb (Successful_ execResult) then "FAILED"%string
                           else "SUCCESSFUL"%string in
          let! receipt := execResultToReceipt store execResult in
          let! m := MarshalBinary realTx now in
          if negb (to_int32 (GasUsed execResult) =? FuelUsed (ex_Receipt smcTx))
          then Return (store, Some ErrFuel)
          else if negb (bool_decide (statusMsg = TxStatus_String (rc_Status (ex_Receipt smcTx))))
          then Return (store, Some ErrStatus)
          else if negb (bool_decide (Output execResult = rc_StatusMessage (ex_Receipt smcTx)))
          then Return (store, Some ErrOutput)
          else
            let! same := same_logs (rc_Logs receipt) (rc_Logs (ex_Receipt smcTx)) in
            if same then check_smc_txs p store timestamp rest else Return (store, Some ErrLogs)
      end
  end.

(** Balances of the accounts the contracts changed, on the confirmed cache. *)
Fixpoint confirm_diffs (confirmed : WalletCache) (l : list Diff) : outcome WalletCache :=
  match l with
  | [] => Return confirmed
  | DAccount a :: rest =>
      match dec_Parse (sa_Balance a) with
      | None => Panic
      | Some b => confirm_diffs (push_sc confirmed ("0x" ++ sa_Address a)%string b) rest
      end
  | DMapping _ :: rest => confirm_diffs confirmed rest
  end.

(** The collection of differences ends on every path. *)
Definition runSmartContractStageFullNode (w : World) (balances : gmap string bytes)
    (recentPin : TxPin) : outcome (World * option SyncError) :=
  let! store := SyncBalances now (w_store w) balances in
  let! store := CaptureStateStoreDiffs store in
  let! r := check_smc_txs (w_pins w) store (Unix (AsTime (Ts recentPin))) (SmcTxs recentPin) in
  let '(store, err) := r in
  match err with
  | Some e => Return (with_store w (ResetCaptureStateStoreDiffs store), Some e)
  | None =>
      let! diffSlice := GetStateStoreDiffs store in
      let! confirmed := confirm_diffs (walletCacheConfirmed w) diffSlice in
      Return (with_confirmed (with_store w (ResetCaptureStateStoreDiffs store)) confirmed, None)
  end.

(** A peer takes the differences of the pin as they are.  The result also has
    the balances of the changed accounts. *)
Fixpoint apply_pin_diffs (w : World) (diffBalances : gmap string bytes) (l : list pb_Diff)
  : outcome (World * gmap string bytes) :=
  match l with
  | [] => Return (w, diffBalances)
  | PAccountDiff d :: rest =>
      let address := ("0x" ++ hex_EncodeToString (ad_Address d))%string in
      let b := SetBytes (ad_Balance d) in
      apply_pin_diffs (with_confirmed w (push_sc (walletCacheConfirmed w) address b))
        (<[address := Bytes b]> diffBalances) rest
  | PMappingDiff a k v :: rest =>
      let! store := DumpMappingDiffs (w_store w) a k v in
      apply_pin_diffs (with_store w store) diffBalances rest
  end.

Variable undef : string -> Z.

(** [checkBalances] compares the pin's balances with the confirmed cache and
    with the store; true is success.  A wallet that is not cached panics. *)
Fixpoint check_balance_list (confirmed : WalletCache) (store : Storage) (l : list (string * bytes))
  : outcome bool :=
  match l with
  | [] => Return true
  | (address, balanceBytes) :: rest =>
      let pinBalance := SetBytes balanceBytes in
      let! vmAcc := SearchAccount undef store address in
      match WalletCache_get confirmed address with
      | None => Panic
      | Some cachedBalance =>
          match vmAcc with
          | Some acc =>
              if negb (cachedBalance =? pinBalance) || negb (pinBalance =? ln_Balance acc)
              then Return false else check_balance_list confirmed store rest
          | None =>
              if negb (cachedBalance =? pinBalance) then Return false
              else check_balance_list confirmed store rest
          end
      end
  end.

Definition checkBalances (w : World) (recentPin : TxPin) : outcome bool :=
  check_balance_list (walletCacheConfirmed w) (w_store w) (map_range (Balance recentPin)).

(** [nodeType] is 0 for a full node and 1 for a peer. *)
Definition SyncPins (nodeType : Z) (w : World) (recentPin : TxPin) : outcome World :=
  let! cb := sync_payments (w_pins w) (walletCacheConfirmed w) ∅ (Nodes recentPin) in
  let w := with_confirmed w (fst cb) in
  if nodeType =? 0 then
    let! r := runSmartContractStageFullNode w (snd cb) recentPin in Return (fst r)
  else if nodeType =? 1 then
    let! store := SyncBalances now (w_store w) (snd cb) in
    let! r := apply_pin_diffs (with_store w store) ∅ (pin_Diffs recentPin) in
    let '(w, diffBalances) := r in
    let! w := if (0 <? size diffBalances)%nat then
                let! store := SyncBalances now (w_store w) diffBalances in
                Return (with_store w store)
              else Return w in
    let! ok := checkBalances w recentPin in
    Return w
  else Return w.
End SyncPins.
