(* ===== verification/PinProps.v ===== *)
(** What forming a pin guarantees: the pin and the wallet cache together keep
    every balance that the contracts of the pin do not change. *)
From S2P Require Import Prelude GoLib Bytes Tx TxRecords Storage Pool WalletCache Node Pin.

(** ** Balances across a new pin *)

Lemma getBalanceForWallet_balance_of p c w :
  fst (unsafe_getBalanceForWallet p c w) = balance_of p c w.
Proof.
  unfold unsafe_getBalanceForWallet, balance_of. simpl.
  destruct (WalletCache_get c w); [done|]. by destruct (unsafe_getLatestBalance p w).
Qed.

Lemma latest_after p pin w :
  unsafe_getLatestBalance (with_pins p (pins p ++ [pin])) w
  = match Balance pin !! w with
    | Some b => Some (SetBytes b)
    | None => unsafe_getLatestBalance p w
    end.
Proof.
  unfold unsafe_getLatestBalance. simpl. rewrite rev_unit. simpl. by destruct (Balance pin !! w).
Qed.

(** The pin's balances [B] and the cache [C] against the state before: a wallet
    in [B] has left the cache and has the balance [bal] gives it; the others
    are as they were. *)
Record pinned (c0 : WalletCache) (bal : string -> Z) (B : gmap string bytes) (C : WalletCache)
  : Prop := {
  pinned_in : forall w b, B !! w = Some b -> b = Bytes (bal w) /\ WalletCache_get C w = None;
  pinned_out : forall w, B !! w = None -> WalletCache_get C w = WalletCache_get c0 w;
  pinned_ok : wc_ok c0 -> wc_ok C
}.

Lemma pinned_start c0 bal : pinned c0 bal ∅ c0.
Proof. split; [intros w b; by rewrite lookup_empty|done|done]. Qed.

(** A wallet is pinned with a new balance. *)
Lemma pinned_put c0 bal bal' B C w ids :
  pinned c0 bal B C -> (forall w', w' <> w -> bal' w' = bal w') ->
  pinned c0 bal' (<[w := Bytes (bal' w)]> B) (WalletCache_remove C w ids).
Proof.
  intros [Hin Hout Hok] Hbal. split.
  - intros w' b [[<- <-]|[Hne Hb]]%lookup_insert_Some; rewrite remove_get.
    + by rewrite decide_True.
    + rewrite decide_False by done. rewrite Hbal by done. by apply Hin.
  - intros w' [Hb Hne]%lookup_insert_None. rewrite remove_get, decide_False by done. by apply Hout.
  - intros Hc. by apply remove_ok, Hok.
Qed.

Lemma pinned_step c0 bal B C w ids :
  pinned c0 bal B C -> pinned c0 bal (<[w := Bytes (bal w)]> B) (WalletCache_remove C w ids).
Proof. intros Hp. by apply (pinned_put c0 bal bal). Qed.

(** A wallet of the pin owns what the pin says, any other what it owned. *)
Lemma pinned_balance p c0 bal pin C w :
  pinned c0 bal (Balance pin) C ->
  balance_of (with_pins p (pins p ++ [pin])) C w
  = match Balance pin !! w with Some _ => Z.abs (bal w) | None => balance_of p c0 w end.
Proof.
  intros [Hin Hout _]. unfold balance_of. simpl. rewrite latest_after.
  destruct (Balance pin !! w) as [b|] eqn:E.
  - destruct (Hin w b E) as [-> ->]. simpl. apply SetBytes_Bytes.
  - by rewrite Hout.
Qed.

(** Each collected history ends with the wallet's balance. *)
Definition collected (p : NodeTxPin) (c : WalletCache) (m : gmap string (list Z)) : Prop :=
  forall w l, m !! w = Some l -> last l = Some (balance_of p c w).

Lemma collected_append p c m w :
  collected p c m -> collected p c (map_append m w (fst (unsafe_getBalanceForWallet p c w))).
Proof.
  unfold map_append. intros Hm w' l [[<- <-]|[_ Hl]]%lookup_insert_Some; [|by apply Hm].
  by rewrite last_snoc, getBalanceForWallet_balance_of.
Qed.

Lemma last_of_collected p c m w z :
  collected p c m -> last_of (m !! w) = Return z -> z = balance_of p c w.
Proof.
  intros Hm. unfold last_of. destruct (m !! w) as [l|] eqn:E; simpl; [|done].
  rewrite (Hm w l E). by intros [= <-].
Qed.

Section PinBalances.
Context `{CryptoLib} `{ProtoLib} `{TimestampLib} `{EthLib} `{UuidLib} `{ProtoPinLib} `{MapRange}.

Lemma collect_balances_collected p c nodes : forall s r s' r',
  collected p c s -> collected p c r ->
  collect_balances p c s r nodes = Return (s', r') -> collected p c s' /\ collected p c r'.
Proof.
  induction nodes as [|n nodes IH]; intros s r s' r' Hs Hr; cbn [collect_balances].
  - by intros [= <- <-].
  - destruct (sender_address n) as [a|]; simpl; [|done].
    destruct (recipient_address n) as [b|]; simpl; [|done].
    apply IH; by apply collected_append.
Qed.

(** What [pin_sites] leaves alone. *)
Definition same_stores (w w' : World) : Prop :=
  w_pins w' = w_pins w /\ w_store w' = w_store w /\ w_smc w' = w_smc w
  /\ walletCacheConfirmed w' = walletCacheConfirmed w /\ pinsQuantity w' = pinsQuantity w.

Lemma pin_sites_pinned now p c0 s r sites : forall w pin w' pin',
  collected p c0 s -> collected p c0 r ->
  pinned c0 (balance_of p c0) (Balance pin) (walletCache w) ->
  pin_sites now w pin s r sites = Return (w', pin') ->
  pinned c0 (balance_of p c0) (Balance pin') (walletCache w') /\ same_stores w w'
  /\ Prev pin' = Prev pin.
Proof.
  induction sites as [|l sites IH]; intros w pin w' pin' Hs Hr Hp; cbn [pin_sites].
  - intros [= <- <-]. split; [done|]. by repeat split.
  - destruct (w_heap w !! l) as [val|]; [|done].
    destruct (Node_ToPbNode (w_heap w) val now) as [pbn|]; simpl; [|done].
    destruct (sender_address val) as [sa|]; simpl; [|done].
    destruct (recipient_address val) as [ra|]; simpl; [|done].
    destruct (last_of (s !! sa)) as [sb|] eqn:Esb; simpl; [|done].
    destruct (last_of (r !! ra)) as [rb|] eqn:Erb; simpl; [|done].
    apply (last_of_collected p c0) in Esb as ->; [|done].
    apply (last_of_collected p c0) in Erb as ->; [|done].
    intros E. apply IH in E as (Hp' & Hsame & Hprev); try done.
    + split; [done|]. split; [|done]. destruct Hsame as (S1 & S2 & S3 & S4 & S5).
      revert S1 S2 S3 S4 S5. case_match; by repeat split.
    + simpl. case_match; simpl; by apply pinned_step, pinned_step.
Qed.

Lemma run_smc_txs_keeps RunCall coinbase now pin hs ts l : forall w idx gas w' ex,
  run_smc_txs RunCall coinbase now w pin hs ts idx gas l = Return (w', ex) ->
  w_pins w' = w_pins w /\ walletCache w' = walletCache w
  /\ walletCacheConfirmed w' = walletCacheConfirmed w /\ pinsQuantity w' = pinsQuantity w.
Proof.
  induction l as [|t l IH]; intros w idx gas w' ex; cbn [run_smc_txs].
  - by intros [= <- _].
  - destruct (executeSMCTx _ _ _ _ _ _ _) as [[st [res|e]]|]; simpl; [| |done].
    + destruct (AddConfirmed _ _); simpl; [|done].
      destruct (execResultToReceipt _ _); simpl; [|done].
      destruct (MarshalBinary t now); simpl; [|done].
      destruct (run_smc_txs _ _ _ _ _ _ _ _ _ l) as [[w1 ex1]|] eqn:E; simpl; [|done].
      intros [= <- _]. apply IH in E. done.
    + destruct (GetHash t); simpl; [|done]. destruct (RemoveUnconfirmed _ _); simpl; [|done].
      intros E. apply IH in E. done.
Qed.

(** The text under which a pin files an account. *)
Definition account_text (a : StoredAccount) : string := ("0x" ++ sa_Address a)%string.

(** The last account difference of a wallet. *)
Fixpoint diff_balance (l : list Diff) (w : string) : option Z :=
  match l with
  | [] => None
  | DAccount a :: rest =>
      match diff_balance rest w with
      | Some b => Some b
      | None => if decide (account_text a = w) then dec_Parse (sa_Balance a) else None
      end
  | DMapping _ :: rest => diff_balance rest w
  end.

Lemma sync_diffs_pinned c0 l : forall bal C B C' B',
  pinned c0 bal B C -> sync_diffs C B l = Return (C', B') ->
  pinned c0 (fun w => match diff_balance l w with Some b => b | None => bal w end) B' C'
  /\ forall w, is_Some (B' !! w) <-> is_Some (B !! w) \/ is_Some (diff_balance l w).
Proof.
  induction l as [|[a|m] l IH]; intros bal C B C' B' Hp; cbn [sync_diffs diff_balance].
  - intros [= <- <-]. split; [done|]. intros w. split; [by left|]. by intros [|[]].
  - destruct (dec_Parse (sa_Balance a)) as [b|] eqn:Eb; [|done]. intros E.
    fold (account_text a) in E.
    set (bal1 := fun w => if decide (account_text a = w) then b else bal w).
    assert (pinned c0 bal1 (<[account_text a := Bytes b]> B)
              (WalletCache_remove C (account_text a) [])) as Hp1.
    { replace b with (bal1 (account_text a)) by by unfold bal1; rewrite decide_True.
      apply (pinned_put c0 bal bal1); [done|]. intros w' Hne. unfold bal1. by rewrite decide_False. }
    destruct (IH _ _ _ _ _ Hp1 E) as [[Hin Hout Hok] Hdom]. split.
    + split; [|done|done]. intros w x Hx.
      destruct (Hin w x Hx) as [-> Hg]. split; [|done]. f_equal. unfold bal1.
      destruct (diff_balance l w); [done|]. by case_decide.
    + intros w. rewrite Hdom. destruct (decide (account_text a = w)) as [<-|Hne].
      * rewrite lookup_insert_eq. destruct (diff_balance l (account_text a)); naive_solver.
      * rewrite lookup_insert_ne by done. destruct (diff_balance l w); naive_solver.
  - intros E. by apply (IH bal) in E.
Qed.

Lemma SignTx_keeps t wal t' :
  TxPin_SignTx t wal = Return t' ->
  Prev t' = Prev t /\ Balance t' = Balance t /\ pin_Diffs t' = pin_Diffs t
  /\ PinNumber t' = PinNumber t /\ Nodes t' = Nodes t /\ Sites t' = Sites t /\ SmcTxs t' = SmcTxs t.
Proof.
  unfold TxPin_SignTx, TxPin_generateSignature. destruct (TxPin_Hash _); simpl.
  - destruct (DSA_Sign _ _); simpl; [|done]. by intros [= <-].
  - by intros [= <-].
Qed.

(** The contract stage puts the changed accounts into the pin. *)
Lemma runSmartContractStage_pinned RunCall coinbase now c0 bal w pin smcTxs w' pin' :
  pinned c0 bal (Balance pin) (walletCache w) ->
  runSmartContractStage RunCall coinbase now w pin smcTxs = Return (w', pin') ->
  exists ds, diffToPb ds = Return (pin_Diffs pin')
  /\ pinned c0 (fun x => default (bal x) (diff_balance ds x)) (Balance pin') (walletCache w')
  /\ (forall x, is_Some (Balance pin' !! x) <->
        is_Some (Balance pin !! x) \/ is_Some (diff_balance ds x))
  /\ Prev pin' = Prev pin /\ PinNumber pin' = PinNumber pin
  /\ w_pins w' = w_pins w /\ pinsQuantity w' = pinsQuantity w.
Proof.
  intros Hp. unfold runSmartContractStage.
  destruct (SyncBalances _ _ _) as [st|]; simpl; [|done].
  destruct (CaptureStateStoreDiffs st) as [st1|]; simpl; [|done].
  destruct (incr_nonces _ _ _) as [st2|]; simpl; [|done].
  destruct (run_smc_txs _ _ _ _ _ _ _ _ _ _) as [[w1 ex]|] eqn:E; simpl; [|done].
  apply run_smc_txs_keeps in E as (Hpins & Hcache & Hconf & Hq).
  destruct (GetStateStoreDiffs (w_store w1)) as [ds|]; simpl; [|done].
  destruct (diffToPb ds) as [pds|] eqn:Ed; simpl; [|done].
  destruct (sync_diffs (walletCache w1) (Balance pin) ds) as [[C B]|] eqn:Es; simpl; [|done].
  intros [= <- <-]. exists ds. rewrite Hcache in Es. simpl in Es.
  apply (sync_diffs_pinned c0 ds bal) in Es as [Hp' Hdom]; [|done].
  split; [done|]. split; [exact Hp'|]. done.
Qed.

(** C1: forming a pin preserves the ledger.  Whatever the sites, the contracts
    and the VM do, when the pin is formed it is appended to the chain, points
    at the previous pin and carries the next number; and although the wallets
    of its sites leave the cache, every wallet owns what it owned before,
    except the accounts the contracts changed, which own the balance of the
    difference the pin records for them.  The cache stays free of debts. *)
Theorem pin_preserves_balances RunCall coinbase dagWallet now w sites smcTxs w' :
  wc_ok (walletCache w) ->
  NodeTxPin_add RunCall coinbase dagWallet now w sites smcTxs = Return w' ->
  exists pin ds,
    pins (w_pins w') = pins (w_pins w) ++ [pin]
    /\ Prev pin = match last (pins (w_pins w)) with Some x => Sign x | None => [] end
    /\ PinNumber pin = pinsQuantity w /\ pinsQuantity w' = to_int64 (pinsQuantity w + 1)
    /\ diffToPb ds = Return (pin_Diffs pin)
    /\ wc_ok (walletCache w')
    /\ forall wallet,
       balance_of (w_pins w') (walletCache w') wallet
       = match diff_balance ds wallet with
         | Some b => Z.abs b
         | None => balance_of (w_pins w) (walletCache w) wallet
         end.
Proof.
  intros Hok. unfold NodeTxPin_add.
  destruct (deref _ _) as [nodes|]; simpl; [|done].
  destruct (collect_balances _ _ _ _ _) as [[s r]|] eqn:Ec; simpl; [|done].
  apply collect_balances_collected in Ec as [Hs Hr]; [|intros x l; by rewrite lookup_empty..].
  destruct (pin_sites _ _ _ _ _ _) as [[w1 pin1]|] eqn:E1; simpl; [|done].
  apply (pin_sites_pinned now (w_pins w) (walletCache w)) in E1
    as (Hp1 & (Hw1 & _ & _ & _ & Hq1) & Hprev1); [|done|done|apply pinned_start].
  destruct (runSmartContractStage _ _ _ _ _ _) as [[w2 pin2]|] eqn:E2; simpl; [|done].
  apply (runSmartContractStage_pinned _ _ _ (walletCache w) (balance_of (w_pins w) (walletCache w)))
    in E2 as (ds & Hds & Hp2 & Hdom & Hprev2 & Hn2 & Hw2 & Hq2); [|exact Hp1].
  destruct (TxPin_SignTx pin2 dagWallet) as [pin3|] eqn:E3; simpl; [|done].
  apply SignTx_keeps in E3 as (Hprev3 & Hb3 & Hd3 & Hn3 & _).
  simpl in Hw2, Hq2, Hn2, Hprev1, Hprev2, Hdom. rewrite Hw1 in Hw2. rewrite <- Hd3 in Hds.
  intros [= <-]. exists pin3, ds. simpl. rewrite Hw2.
  split_and!; try congruence.
  - by apply Hp2.
  - intros x. rewrite <- Hb3 in Hp2, Hdom. rewrite (pinned_balance _ _ _ _ _ _ Hp2).
    specialize (Hdom x). pose proof (balance_of_nonneg (w_pins w) (walletCache w) x Hok) as Hn.
    destruct (Balance pin3 !! x), (diff_balance ds x); simpl; try done.
    + by apply Z.abs_eq.
    + destruct Hdom as [_ Hdom]. destruct Hdom as [? Habs]; [by right|done].
Qed.
End PinBalances.

(** A VM that credits the account [9...9] with 99, a wallet that signs and a
    state in which the sender of [sample_node] has already paid. *)
#[export] Instance proto_pin_fields : ProtoPinLib := {
  proto_Marshal_TxPin t :=
    Some (Prev t ++ Pk t ++ Sign t ++ concat (map site_Id (Sites t)) ++ Bytes (PinNumber t))
}.

Definition sample_vm (s : Storage) (_ : pb_Txv1) (_ : PinTxHeader)
  : Storage * (CallResponse + string) :=
  (putAccount s {| sa_Address := "0909090909090909090909090909090909090909"; sa_PublicKey := "";
                   sa_Balance := "99"; sa_Nonce := "1"; sa_CodeHash := ""; sa_Code := "";
                   sa_Created := 0 |},
   inl {| cr_Status := 0; cr_Msg := "0x"; cr_Error := ""; cr_GasUsed := "21000" |}).

Definition sample_wallet : Wallet :=
  {| publicKey := replicate 32 x03; privateKey := replicate 32 x03; walletAddress := "" |}.

Definition sample_world : World :=
  {| w_pins := newNodeTxPin;
     walletCache := {[sample_sender := [newPair "a"%string 7; newPair "b"%string 2];
                      sample_receiver := [newPair "b"%string 5]]};
     walletCacheConfirmed := ∅; w_store := NewStorage;
     w_smc := {| unconfirmedPool := ∅; confirmedPool := ∅ |}; pinsQuantity := 1;
     w_heap := {[1%nat := sample_node]} |}.

Definition sample_account : string := "0x0909090909090909090909090909090909090909".

Lemma pin_preserves_balances_witness :
  exists w', NodeTxPin_add sample_vm sample_account sample_wallet 0 sample_world [1%nat]
               [fuel_tx 0 [x05]] = Return w'
  /\ balance_of (w_pins w') (walletCache w') sample_sender = 2
  /\ exists pin, pins (w_pins w') = [pin] /\ PinNumber pin = 1.
Proof.
  assert (match NodeTxPin_add sample_vm sample_account sample_wallet 0 sample_world [1%nat]
                  [fuel_tx 0 [x05]] with
          | Return w' => balance_of (w_pins w') (walletCache w') sample_sender =? 2
          | Panic => false end = true) as Hb by (vm_compute; reflexivity).
  destruct (NodeTxPin_add sample_vm sample_account sample_wallet 0 sample_world [1%nat]
              [fuel_tx 0 [x05]]) as [w'|] eqn:E; [|discriminate Hb].
  exists w'. split; [reflexivity|].
  destruct (pin_preserves_balances sample_vm sample_account sample_wallet 0 sample_world [1%nat]
              [fuel_tx 0 [x05]] w') as (pin & ds & Hp & _ & Hn & _);
    [|exact E|].
  - apply map_Forall_lookup. apply (bool_decide_unpack _). vm_compute. reflexivity.
  - split; [by apply Z.eqb_eq|exists pin; split; [exact Hp|exact Hn]].
Defined.
