(* ===== verification/PinSync.v ===== *)
(** Pins received from peers: insertion in chain order, the balance queries,
    signatures, and the replay of a pin's contracts by a full node. *)
From S2P Require Import Prelude GoLib Bytes Tx TxRecords Storage Pool WalletCache Node Pin PinProps.

(** ** The order of received pins *)

(** A chain of pins: the first has no predecessor, each other one names the
    signature of the one before, and signatures are distinct and not short. *)
Record pin_chain (l : list TxPin) : Prop := {
  chain_distinct : NoDup (map Sign l);
  chain_signed : Forall (fun x => (5 <= length (Sign x))%nat) l;
  chain_first : forall x, l !! 0%nat = Some x -> Prev x = [];
  chain_next : forall i x y, l !! i = Some x -> l !! S i = Some y -> Prev y = Sign x
}.

Lemma chain_Sign_inj l i j x y :
  pin_chain l -> l !! i = Some x -> l !! j = Some y -> Sign x = Sign y -> i = j.
Proof.
  intros Hc Hx Hy E. eapply (NoDup_lookup (map Sign l)); [apply Hc| |];
    apply list_lookup_fmap_Some; eauto.
Qed.

(** The only successor of a pin is the next one. *)
Lemma chain_successor l i j x y :
  pin_chain l -> l !! i = Some x -> l !! j = Some y -> Prev y = Sign x -> j = S i.
Proof.
  intros Hc Hx Hy E.
  pose proof (Forall_lookup_1 _ _ _ _ (chain_signed _ Hc) Hx) as Hlen. simpl in Hlen.
  destruct j as [|j].
  - rewrite (chain_first _ Hc y Hy) in E. rewrite <- E in Hlen. simpl in Hlen. lia.
  - assert (is_Some (l !! j)) as [z Hz].
    { apply lookup_lt_is_Some. apply lookup_lt_Some in Hy. lia. }
    rewrite (chain_next _ Hc j z y Hz Hy) in E. f_equal.
    by eapply chain_Sign_inj.
Qed.

Lemma chain_Prev_length l i x :
  pin_chain l -> l !! i = Some x -> i = 0%nat \/ (5 <= length (Prev x))%nat.
Proof.
  intros Hc Hx. destruct i as [|i]; [by left|right].
  assert (is_Some (l !! i)) as [z Hz].
  { apply lookup_lt_is_Some. apply lookup_lt_Some in Hx. lia. }
  rewrite (chain_next _ Hc i z x Hz Hx).
  apply (Forall_lookup_1 _ _ _ _ (chain_signed _ Hc) Hz).
Qed.

Lemma chain_Prev_nil l i x : pin_chain l -> l !! i = Some x -> Prev x = [] <-> i = 0%nat.
Proof.
  intros Hc Hx. split.
  - intros E. destruct (chain_Prev_length l i x Hc Hx) as [|Hl]; [done|].
    rewrite E in Hl. simpl in Hl. lia.
  - intros ->. by apply (chain_first _ Hc).
Qed.

(** The log line of a pin of a chain does not panic. *)
Lemma log_line_ok c k ptx :
  pin_chain c -> c !! k = Some ptx ->
  (length (Sign ptx) <? 5)%nat = false
  /\ (0 <? length (Prev ptx))%nat && (length (Prev ptx) <? 5)%nat = false.
Proof.
  intros Hc Hk. split.
  - apply Nat.ltb_ge. apply (Forall_lookup_1 _ _ _ _ (chain_signed _ Hc) Hk).
  - apply andb_false_iff. destruct (chain_Prev_length c k ptx Hc Hk) as [->|].
    + left. by rewrite (chain_first _ Hc _ Hk).
    + right. by apply Nat.ltb_ge.
Qed.

Section Insert.
Context `{Goterators}.

(** The cases of [insertIfNotFound] for a pin of a chain: either it is known,
    or it goes before its successor, or at the end.  A genesis pin is the
    exception: it needs its successor unless there are no pins. *)
Lemma insert_cases p c k ptx :
  pin_chain c -> c !! k = Some ptx ->
  (Forall (fun x => Sign x <> Sign ptx) (pins p)) ->
  (Prev ptx = [] -> match pins p with [] => True | x :: _ => Prev x = Sign ptx end) ->
  insertIfNotFound p ptx
  = Return (with_pins p match successor_index (pins p) ptx with
                        | Some i => insert_at i ptx (pins p)
                        | None => pins p ++ [ptx]
                        end).
Proof.
  intros Hc Hk Hnew Hgen. unfold insertIfNotFound.
  destruct (log_line_ok c k ptx Hc Hk) as [-> ->].
  rewrite gt_Find_spec. assert (find_first (fun x => bool_decide (Sign x = Sign ptx)) (pins p) = None) as ->.
  { apply find_first_None. eapply Forall_impl; [exact Hnew|]. intros x Hx. by apply bool_decide_false. }
  destruct (Prev ptx) as [|b bs] eqn:Ep; simpl; [|by destruct (successor_index _ _)].
  specialize (Hgen eq_refl). destruct (pins p) as [|x rest] eqn:Epins; simpl; [done|].
  unfold successor_index. simpl. rewrite (bool_decide_true (Prev x = Sign ptx)) by done. simpl.
  rewrite Hgen. pose proof (proj1 (log_line_ok c k ptx Hc Hk)) as Hs.
  by destruct (length (Sign ptx)).
Qed.

Lemma insert_known p c k ptx :
  pin_chain c -> c !! k = Some ptx -> ptx ∈ pins p -> insertIfNotFound p ptx = Return p.
Proof.
  intros Hc Hk Hin. unfold insertIfNotFound.
  destruct (log_line_ok c k ptx Hc Hk) as [-> ->].
  rewrite gt_Find_spec. destruct (find_first _ _) as [|] eqn:E; [done|].
  apply find_first_None in E. rewrite Forall_forall in E. specialize (E ptx Hin).
  rewrite bool_decide_true in E; done.
Qed.
End Insert.

(** ** Pins that arrive from the middle outwards *)

(** [arrives x l y arr]: the node has the pins [l], a part of the chain
    [x ++ l ++ y]; in [arr] each pin is the one before or after those already
    received, or one of them again. *)
Inductive arrives : list TxPin -> list TxPin -> list TxPin -> list TxPin -> Prop :=
| arrived l : arrives [] l [] []
| arrives_older a x l y arr : arrives x (a :: l) y arr -> arrives (x ++ [a]) l y (a :: arr)
| arrives_newer a x l y arr : arrives x (l ++ [a]) y arr -> arrives x l (a :: y) (a :: arr)
| arrives_again a x l y arr : a ∈ l -> arrives x l y arr -> arrives x l y (a :: arr).

Fixpoint insert_all `{Goterators} (p : NodeTxPin) (arr : list TxPin) : outcome NodeTxPin :=
  match arr with
  | [] => Return p
  | a :: rest => let! p := insertIfNotFound p a in insert_all p rest
  end.

Section Arrival.
Context `{Goterators}.

(** Pins of a chain other than [ptx] have other signatures. *)
Lemma others_differ c l off ptx k :
  pin_chain c -> c !! k = Some ptx ->
  (forall i x, l !! i = Some x -> c !! (off + i)%nat = Some x) ->
  (forall i, (i < length l)%nat -> (off + i)%nat <> k) ->
  Forall (fun x => Sign x <> Sign ptx) l.
Proof.
  intros Hc Hk Hl Hne. apply Forall_lookup. intros i x Hx E.
  apply (Hne i); [by eapply lookup_lt_Some|]. eapply chain_Sign_inj; [done|by apply Hl|done|done].
Qed.

Lemma lookup_middle (x l y : list TxPin) i z :
  l !! i = Some z -> (x ++ l ++ y) !! (length x + i)%nat = Some z.
Proof.
  intros Hi. rewrite lookup_app_r by lia. replace (length x + i - length x)%nat with i by lia.
  by apply lookup_app_l_Some.
Qed.

Lemma insert_newer p x a y :
  pins p <> [] -> pin_chain (x ++ pins p ++ a :: y) ->
  insertIfNotFound p a = Return (with_pins p (pins p ++ [a])).
Proof.
  intros Hne Hc. set (l := pins p) in *.
  assert ((x ++ l ++ a :: y) !! (length x + length l)%nat = Some a) as Hk.
  { rewrite app_assoc. by rewrite lookup_app_r, length_app, Nat.sub_diag by (rewrite length_app; lia). }
  rewrite (insert_cases p _ _ a Hc Hk); fold l.
  - unfold successor_index. assert (find_first (fun z => bool_decide (Prev z = Sign a)) l = None) as ->.
    { apply find_first_None, Forall_lookup. intros i z Hz. apply bool_decide_false. intros E.
      pose proof (chain_successor _ _ _ _ _ Hc Hk (lookup_middle x l (a :: y) i z Hz) E).
      apply lookup_lt_Some in Hz. lia. }
    done.
  - eapply (others_differ _ _ (length x)); [done|done| |intros; lia]. intros. by apply lookup_middle.
  - intros E. apply (chain_Prev_nil _ _ _ Hc Hk) in E. destruct l; [done|]. simpl in E. lia.
Qed.

Lemma insert_older p x a y :
  pins p <> [] -> pin_chain ((x ++ [a]) ++ pins p ++ y) ->
  insertIfNotFound p a = Return (with_pins p (a :: pins p)).
Proof.
  intros Hne Hc.
  assert (((x ++ [a]) ++ pins p ++ y) !! length x = Some a) as Hk.
  { rewrite <- app_assoc. by rewrite lookup_app_r, Nat.sub_diag. }
  destruct (pins p) as [|z l] eqn:El; [done|].
  assert (Prev z = Sign a) as Hz.
  { eapply (chain_next _ Hc); [exact Hk|].
    rewrite lookup_app_r; rewrite length_app; simpl; [|lia].
    replace (S (length x) - (length x + 1))%nat with 0%nat by lia. done. }
  rewrite (insert_cases p _ _ a Hc Hk); rewrite El.
  - unfold successor_index. simpl. by rewrite bool_decide_true.
  - eapply (others_differ _ _ (length (x ++ [a]))); [done|done| |].
    + intros. by apply lookup_middle.
    + intros i Hi. rewrite length_app. simpl. lia.
  - done.
Qed.

(** Any such order rebuilds the chain. *)
Lemma arrives_rebuilds x l y arr :
  arrives x l y arr -> forall p,
  pins p = l -> l <> [] -> pin_chain (x ++ l ++ y) ->
  insert_all p arr = Return (with_pins p (x ++ l ++ y)).
Proof.
  induction 1 as [l|a x l y arr _ IH|a x l y arr _ IH|a x l y arr Hin _ IH];
    intros p <- Hne Hc; cbn [insert_all].
  - rewrite app_nil_r. by destruct p.
  - rewrite (insert_older p x a y) by done. simpl.
    rewrite IH; [|done|done|by rewrite <- app_assoc in Hc]. simpl. by rewrite <- app_assoc.
  - rewrite (insert_newer p x a y) by done. simpl.
    rewrite IH; [|done|by destruct (pins p)|by rewrite <- app_assoc]. simpl. by rewrite <- app_assoc.
  - apply list_elem_of_lookup in Hin as Hi. destruct Hi as [i Hi].
    rewrite (insert_known p _ _ a Hc (lookup_middle x (pins p) y i a Hi)) by done. simpl. by apply IH.
Qed.

Lemma insert_first p c k ptx :
  pin_chain c -> c !! k = Some ptx -> pins p = [] ->
  insertIfNotFound p ptx = Return (with_pins p [ptx]).
Proof.
  intros Hc Hk Hp. rewrite (insert_cases p c k ptx Hc Hk); rewrite Hp; [done|constructor|done].
Qed.
End Arrival.

(** C5: the chain of pins is rebuilt from peers' messages.  A node without pins
    that first receives any pin of a chain, and then, in any interleaving, the
    pins before it backwards and the pins after it forwards, with repetitions
    of what it already has, ends with exactly the chain, in order. *)
Theorem pins_rebuild_chain `{Goterators} (x y arr : list TxPin) (a : TxPin) :
  pin_chain (x ++ a :: y) -> arrives x [a] y arr ->
  insert_all newNodeTxPin (a :: arr) = Return (with_pins newNodeTxPin (x ++ a :: y)).
Proof.
  intros Hc Harr. cbn [insert_all].
  rewrite (insert_first newNodeTxPin _ (length x) a Hc); [|by rewrite lookup_app_r, Nat.sub_diag|done].
  cbn [outcome_bind]. by rewrite (arrives_rebuilds x [a] y arr).
Qed.

(** The pins 1, 2 and 3 of a chain. *)
Definition sample_pin (sign prev : bytes) (n : Z) : TxPin :=
  {| Prev := prev; Ts := None; Sites := []; Nodes := []; Balance := ∅; Pk := []; Sign := sign;
     SmcTxs := []; pin_Diffs := []; PinNumber := n |}.
Definition pin1 : TxPin := sample_pin (replicate 5 x01) [] 0.
Definition pin2 : TxPin := sample_pin (replicate 5 x02) (replicate 5 x01) 1.
Definition pin3 : TxPin := sample_pin (replicate 5 x03) (replicate 5 x02) 2.

Lemma sample_chain : pin_chain [pin1; pin2; pin3].
Proof.
  split.
  - apply (bool_decide_unpack _). reflexivity.
  - repeat constructor.
  - by intros x [= <-].
  - intros [|[|[|i]]] x y Hx Hy; simpl in *; simplify_eq; done.
Qed.

Lemma pins_rebuild_chain_witness :
  insert_all newNodeTxPin [pin2; pin3; pin2; pin1]
  = Return (with_pins newNodeTxPin [pin1; pin2; pin3]).
Proof.
  apply (pins_rebuild_chain [pin1] [pin3] [pin3; pin2; pin1] pin2); [exact sample_chain|].
  apply arrives_newer, arrives_again; [left|]. apply (arrives_older pin1 []). apply arrived.
Defined.

(** A genesis pin that arrives before its successor is lost: of the chain
    1, 2, 3 received in the order 3, 1, 2, pin 1 is missing in the end. *)
Theorem early_genesis_is_lost `{Goterators} :
  pin_chain [pin1; pin2; pin3]
  /\ insert_all newNodeTxPin [pin3; pin1; pin2] = Return (with_pins newNodeTxPin [pin2; pin3]).
Proof.
  split; [exact sample_chain|]. unfold insert_all, insertIfNotFound. simpl.
  rewrite !gt_Find_spec. simpl. rewrite !gt_Find_spec. simpl. by rewrite !gt_Find_spec.
Qed.

(** ** Balance queries *)

Lemma latest_in_app l l' w :
  latest_in (l ++ l') w = match latest_in l w with Some b => Some b | None => latest_in l' w end.
Proof. induction l as [|p l IH]; simpl; [done|]. by destruct (Balance p !! w). Qed.

Lemma pinned_until_spec l n resp w :
  Forall (fun p => PinNumber p <= n) l ->
  pinned_until l n resp !! w
  = match latest_in (rev l) w with Some b => Some b | None => resp !! w end.
Proof.
  revert resp. induction l as [|p l IH]; intros resp Hl; simpl; [done|].
  apply Forall_cons in Hl as [Hp Hl]. destruct (Z.ltb_spec n (PinNumber p)); [lia|].
  rewrite IH by done. rewrite latest_in_app. simpl. destruct (latest_in (rev l) w); [done|].
  rewrite lookup_union. by destruct (Balance p !! w), (resp !! w).
Qed.

Lemma pinned_until_stop l n q l' resp :
  Forall (fun p => PinNumber p <= n) l -> n < PinNumber q ->
  pinned_until (l ++ q :: l') n resp = pinned_until l n resp.
Proof.
  revert resp. induction l as [|p l IH]; intros resp Hl Hq; simpl.
  - by apply Z.ltb_lt in Hq as ->.
  - apply Forall_cons in Hl as [Hp Hl]. destruct (Z.ltb_spec n (PinNumber p)); [lia|]. by apply IH.
Qed.

(** The snapshot of balances at a pin is the state of the ledger there:
    for every wallet it has the balance of the latest pin up to that number
    that knows the wallet, which is what the wallet cache falls back on when
    the chain ends there, and the pins after the first larger number do not
    count. *)
Theorem GetPinnedBalances_latest (p : NodeTxPin) (n : Z) (before after : list TxPin) (w : string) :
  pins p = before ++ after ->
  Forall (fun x => PinNumber x <= n) before ->
  (forall x, head after = Some x -> n < PinNumber x) ->
  SetBytes <$> GetPinnedBalances p n !! w
  = latest_balance (with_pins p before) w.
Proof.
  intros Hp Hb Ha. unfold GetPinnedBalances. rewrite Hp.
  assert (pinned_until (before ++ after) n ∅ = pinned_until before n ∅) as ->.
  { destruct after as [|q after]; [by rewrite app_nil_r|].
    apply pinned_until_stop; [done|]. by apply Ha. }
  rewrite pinned_until_spec by done. simpl. unfold unsafe_getLatestBalance. simpl.
  by destruct (latest_in (rev before) w).
Qed.

Lemma GetPinnedBalances_latest_witness :
  let a := set_Balance pin1 {["w"%string := [x05]]} in
  let b := set_Balance pin2 {["w"%string := [x07]]} in
  let p := with_pins newNodeTxPin [a; b; pin3] in
  SetBytes <$> GetPinnedBalances p 1 !! "w"%string = Some 7.
Proof.
  intros a b p. rewrite (GetPinnedBalances_latest p 1 [a; b] [pin3]); [reflexivity|reflexivity| |].
  - repeat constructor; simpl; lia.
  - intros x [= <-]. reflexivity.
Defined.

(** What the query answers for a known wallet. *)
Lemma wallet_balance_spec p wc w a :
  BytesToAddress w = Return a ->
  exists o, wallet_balance p wc w = Return o
  /\ match o with
     | Some b => SetBytes b = Z.abs (balance_of p wc a)
                 /\ ~ (WalletCache_get wc a = None /\ latest_balance p a = None)
     | None => WalletCache_get wc a = None /\ latest_balance p a = None
     end.
Proof.
  intros Ha. unfold wallet_balance. rewrite Ha. simpl. eexists. split; [reflexivity|].
  unfold balance_of, WalletCache_get. simpl. unfold unsafe_getLatestBalance.
  destruct (wc !! a) as [[|x l]|]; [| by rewrite SetBytes_Bytes; split; [|intros []] |].
  all: destruct (latest_in (rev (pins p)) a) as [b|]; simpl; [|done].
  all: pose proof (SetBytes_nonneg b); split; [lia|by intros []].
Qed.

(** A wallet that neither the cache nor a pin knows. *)
Definition unknown_wallet (p : NodeTxPin) (wc : WalletCache) (w : bytes) : Prop :=
  exists a, BytesToAddress w = Return a /\ WalletCache_get wc a = None /\ latest_balance p a = None.

(** C31: balance queries read the ledger: for addresses of 20 bytes and a cache
    without negative balances, [GetBalances] returns an error exactly when one of
    the wallets is in neither the cache nor the pins, and otherwise, in the order
    of the query, the balance every wallet owns. *)
Theorem GetBalances_reads_ledger (p : NodeTxPin) (wc : WalletCache) (wallets : list bytes) :
  wc_ok wc -> Forall (fun w => length w = 20%nat) wallets ->
  exists r, GetBalances p wc wallets = Return r
  /\ (r = None <-> Exists (unknown_wallet p wc) wallets)
  /\ forall bs, r = Some bs ->
       Forall2 (fun w b => exists a, BytesToAddress w = Return a /\ SetBytes b = balance_of p wc a) wallets bs.
Proof.
  intros Hok. induction 1 as [|w ws Hw _ IH]; cbn [GetBalances].
  - eexists. split; [reflexivity|]. split; [|intros bs [= <-]; constructor].
    by split; [|intros ?%Exists_nil].
  - assert (exists a, BytesToAddress w = Return a) as [a Ha].
    { unfold BytesToAddress. rewrite Hw. simpl. eauto. }
    destruct (wallet_balance_spec p wc w a Ha) as (o & -> & Ho). simpl. destruct o as [b|].
    + destruct IH as (r & -> & Hn & Hr), Ho as [Ho Hk]. simpl. eexists. split; [reflexivity|].
      rewrite Exists_cons, <- Hn. split.
      * split; [destruct r; [done|by right]|]. intros [(a' & Ha' & Hu)|Hrn]; [|by rewrite Hrn].
        exfalso. apply Hk. assert (a' = a) as -> by congruence. done.
      * intros bs' E. destruct r as [bs|]; [|done]. injection E as <-. constructor; [|by apply Hr].
        exists a. split; [done|]. rewrite Ho. apply Z.abs_eq. by apply balance_of_nonneg.
    + eexists. split; [reflexivity|]. split; [|done]. split; [|done]. intros _. left. by exists a.
Qed.

Lemma GetBalances_reads_ledger_witness :
  exists bs, GetBalances newNodeTxPin sample_cache [replicate 20 x01] = Return (Some bs)
  /\ map SetBytes bs = [7].
Proof.
  destruct (GetBalances_reads_ledger newNodeTxPin sample_cache [replicate 20 x01])
    as ([bs|] & E & _ & Hr); [exact sample_cache_ok|by repeat constructor| |].
  - exists bs. split; [exact E|]. specialize (Hr bs eq_refl). inversion Hr as [|? b ? ? (a & Ha & Hb) Hnil]; subst.
    inversion Hnil; subst. injection Ha as <-. simpl. f_equal. rewrite Hb. vm_compute. reflexivity.
  - exfalso. vm_compute in E. discriminate.
Defined.

(** ** Signatures *)

(** A pin signed with a wallet's keys verifies, and verifying leaves it as
    it is; any pin whose signature is shorter than 64 bytes is refused. *)
Theorem pin_sign_then_verify `{CryptoLib} `{TimestampLib} `{ProtoPinLib}
    (t : TxPin) (w : Wallet) (h : bytes) :
  length (privateKey w) = 32%nat -> publicKey w = ed25519_Public (privateKey w) ->
  TxPin_Hash (set_Sign t (publicKey w) []) = Some h ->
  exists t', TxPin_SignTx t w = Return t' /\ TxPin_VerifyTx t' = Return (t', None)
  /\ Prev t' = Prev t /\ Balance t' = Balance t /\ PinNumber t' = PinNumber t
  /\ (forall s pk, (length s < 64)%nat ->
        TxPin_VerifyTx (set_Sign t pk s) = Return (set_Sign t pk s, Some (ErrPinSignatureLength (length s)))).
Proof.
  intros Hk Hp Hh. exists (set_Sign t (publicKey w) (ed25519_Sign (privateKey w) h)).
  assert (length h = 32%nat) as H32.
  { revert Hh. unfold TxPin_Hash. destruct (proto_Marshal_TxPin _); [|done].
    intros [= <-]. apply sha256_length. }
  split; [|split; [|split_and!; try done]].
  - unfold TxPin_SignTx, TxPin_generateSignature. rewrite Hh.
    unfold DSA_Sign. by rewrite Hk.
  - unfold TxPin_VerifyTx. simpl. rewrite ed25519_Sign_length. simpl.
    change (set_Sign (set_Sign t _ _) _ []) with (set_Sign t (publicKey w) []).
    rewrite Hh. simpl. rewrite Hp, (DSA_Verify_Sign (privateKey w) h); [done| |].
    + by rewrite H32.
    + unfold DSA_Sign. by rewrite Hk.
  - intros s pk Hs. unfold TxPin_VerifyTx. simpl. by apply Nat.ltb_lt in Hs as ->.
Qed.

Lemma pin_sign_then_verify_witness :
  exists t', TxPin_SignTx pin2 sample_wallet = Return t' /\ TxPin_VerifyTx t' = Return (t', None).
Proof.
  edestruct (pin_sign_then_verify pin2 sample_wallet) as (t' & E & V & _);
    [reflexivity|reflexivity|reflexivity|].
  exists t'. split; [exact E|exact V].
Defined.

(** ** Replay by a full node *)

Section Replay.
Context `{CryptoLib} `{ProtoLib} `{TimestampLib} `{EthLib} `{UuidLib} `{ProtoPinLib} `{MapRange}.
Variable RunCall : Storage -> pb_Txv1 -> PinTxHeader -> Storage * (CallResponse + string).
Variable coinbase : string.
Variable now : Z.

Definition tx_ok (t : Transaction) : Prop :=
  match t with ATxv1 t => Txv1_ok t | AnEthTx _ => True end.

Lemma same_logs_refl l : same_logs l l = Return true.
Proof. induction l as [|x l IH]; simpl; [done|]. by rewrite bool_decide_true. Qed.

(** At most one receipt per transaction. *)
Lemma run_smc_txs_length pin hs ts l : forall w idx gas w' ex,
  run_smc_txs RunCall coinbase now w pin hs ts idx gas l = Return (w', ex) ->
  (length ex <= length l)%nat.
Proof.
  induction l as [|t l IH]; intros w idx gas w' ex; cbn [run_smc_txs].
  - by intros [= _ <-].
  - destruct (executeSMCTx _ _ _ _ _ _ _) as [[st [res|e]]|]; simpl; [| |done].
    + destruct (AddConfirmed _ _); simpl; [|done].
      destruct (execResultToReceipt _ _); simpl; [|done].
      destruct (MarshalBinary t now); simpl; [|done].
      destruct (run_smc_txs _ _ _ _ _ _ _ _ _ l) as [[w1 ex1]|] eqn:E; simpl; [|done].
      intros [= _ <-]. apply IH in E. simpl. lia.
    + destruct (GetHash t); simpl; [|done]. destruct (RemoveUnconfirmed _ _); simpl; [|done].
      intros E. apply IH in E. lia.
Qed.

Lemma receipt_status st r rc :
  execResultToReceipt st r = Return rc ->
  FuelUsed rc = to_int32 (GasUsed r) /\ rc_StatusMessage rc = Output r
  /\ TxStatus_String (rc_Status rc) = (if negb (Successful_ r) then "FAILED" else "SUCCESSFUL")%string.
Proof.
  unfold execResultToReceipt. destruct (hex_DecodeString _) as [hash []]; [|done].
  intros [= <-]. simpl. by destruct (Successful_ r).
Qed.

(** The clock of the full node. *)
Variable now' : Z.

(** The VM's answer to the transaction does not depend on which of the two
    clocks is in the message.  A native transaction has its own time. *)
Definition time_free (t : Transaction) : Prop :=
  match t with
  | ATxv1 _ => True
  | AnEthTx x => forall st h m m', EthTx_MarshalBinary x now = Return m -> EthTx_MarshalBinary x now' = Return m' ->
                   RunCall st m h = RunCall st m' h
  end.

Lemma MarshalBinary_clock t m :
  MarshalBinary t now = Return m -> exists m', MarshalBinary t now' = Return m'
  /\ (time_free t -> forall st h, RunCall st m h = RunCall st m' h).
Proof using Type.
  destruct t as [x|x]; cbn [MarshalBinary].
  - intros [= <-]. by eexists.
  - intros Em. assert (exists m', EthTx_MarshalBinary x now' = Return m') as [m' Em'].
    { revert Em. unfold EthTx_MarshalBinary.
      destruct (EthTx_GetChainType x); cbn [outcome_bind]; [|done].
      destruct (EthTx_GetSenderPubKey x); cbn [outcome_bind]; [|done].
      destruct (EthTx_GetSender x); cbn [outcome_bind]; [|done].
      destruct (encodeSignature x); cbn [outcome_bind]; [|done].
      destruct (rlp_Encode x); [by eexists|done]. }
    exists m'. split; [done|]. intros Hf st h. by apply Hf.
Qed.

Lemma executeSMCTx_clock p store t ts r :
  time_free t -> executeSMCTx RunCall coinbase now p store t ts = Return r ->
  executeSMCTx RunCall coinbase now' p store t ts = Return r.
Proof using Type.
  intros Hf. unfold executeSMCTx. destruct (GetHash t); cbn [outcome_bind]; [|done].
  destruct (ParseEthAddress coinbase); [|done].
  destruct (MarshalBinary t now) as [m|] eqn:Em; cbn [outcome_bind]; [|done].
  destruct (MarshalBinary_clock t m Em) as (m' & -> & Hr). cbn [outcome_bind]. by rewrite (Hr Hf).
Qed.

Lemma check_run_smc_txs pin hs ts l : forall w idx gas w' ex,
  Forall tx_ok l -> Forall time_free l ->
  run_smc_txs RunCall coinbase now w pin hs ts idx gas l = Return (w', ex) ->
  length ex = length l ->
  check_smc_txs RunCall coinbase now' (w_pins w) (w_store w) ts ex = Return (w_store w', None).
Proof using Type.
  induction l as [|t l IH]; intros w idx gas w' ex Hok Hfree; cbn [run_smc_txs].
  - by intros [= <- <-].
  - apply Forall_cons in Hok as [Ht Hok]. apply Forall_cons in Hfree as [Hf Hfree].
    destruct (executeSMCTx _ _ _ _ _ _ _) as [[st [res|e]]|] eqn:Ex; simpl; [| |done].
    + destruct (AddConfirmed _ _) as [smc|]; simpl; [|done].
      destruct (execResultToReceipt st res) as [rc|] eqn:Er; simpl; [|done].
      destruct (MarshalBinary t now) as [m|] eqn:Em; simpl; [|done].
      destruct (run_smc_txs _ _ _ _ _ _ _ _ _ l) as [[w1 ex1]|] eqn:E; simpl; [|done].
      intros [= <- <-] [= Hlen]. cbn [check_smc_txs ex_Tx ex_Receipt].
      rewrite (Unmarshal_MarshalBinary t now m Ht Em). cbn [outcome_bind].
      rewrite (executeSMCTx_clock _ _ _ _ _ Hf Ex). cbn [outcome_bind]. rewrite Er.
      destruct (MarshalBinary_clock t m Em) as (m' & -> & _). cbn [outcome_bind].
      destruct (receipt_status _ _ _ Er) as (-> & -> & ->).
      rewrite Z.eqb_refl, !bool_decide_true by done. simpl.
      rewrite same_logs_refl. simpl. by apply IH in E.
    + destruct (GetHash t); simpl; [|done]. destruct (RemoveUnconfirmed _ _); simpl; [|done].
      intros E. apply run_smc_txs_length in E. intros El. exfalso. simpl in El. lia.
Qed.


(** The logs a receipt carries have no data. *)
Lemma receipt_logs_empty st r rc :
  execResultToReceipt st r = Return rc -> Forall (fun l => el_Data l = []) (rc_Logs rc).
Proof.
  unfold execResultToReceipt. destruct (hex_DecodeString _) as [hash []]; [|done].
  intros [= <-]. simpl. apply Forall_fmap, Forall_true. done.
Qed.

Lemma same_logs_empty l l' :
  Forall (fun x => el_Data x = []) l -> Forall (fun x => el_Data x = []) l' ->
  same_logs l l' <> Return false.
Proof.
  intros Hl. revert l'. induction Hl as [|x l Hx _ IH]; intros l' Hl'; simpl; [done|].
  destruct Hl' as [|y l' Hy Hl']; [done|]. rewrite bool_decide_true by congruence. by apply IH.
Qed.

(** The comparison of logs decides nothing: receipts carry no log data, so
    for a pin whose receipts a leader built, a full node never reports a
    difference in the logs, whatever its own VM logged. *)
Theorem replay_never_compares_logs p st ts l st' err :
  Forall (fun x => exists st0 r, execResultToReceipt st0 r = Return (ex_Receipt x)) l ->
  check_smc_txs RunCall coinbase now p st ts l = Return (st', err) ->
  err <> Some ErrLogs.
Proof.
  intros Hl. revert st. induction Hl as [|x l (st0 & r & Hr) _ IH]; intros st; cbn [check_smc_txs].
  - by intros [= _ <-].
  - destruct (UnmarshalBinary (ex_Tx x)) as [t|]; simpl; [|done].
    destruct (executeSMCTx _ _ _ _ _ _ _) as [[st1 [res|e]]|]; simpl; [| |done].
    + destruct (execResultToReceipt st1 res) as [rc|] eqn:Er; simpl; [|done].
      destruct (MarshalBinary t now); simpl; [|done].
      destruct (negb (_ =? _)); [by intros [= _ <-]|].
      do 2 (destruct (negb (bool_decide _)); [by intros [= _ <-]|]).
      pose proof (same_logs_empty _ _ (receipt_logs_empty _ _ _ Er) (receipt_logs_empty _ _ _ Hr)) as Hs.
      destruct (same_logs _ _) as [[]|]; simpl; [apply IH|done|done].
    + destruct (GetHash t); simpl; [|done]. by intros [= _ <-].
Qed.
End Replay.


Lemma replay_never_compares_logs_witness :
  exists st err, check_smc_txs sample_vm sample_account 0 newNodeTxPin NewStorage 0
    [{| ex_Tx := Txv1_MarshalBinary sample_payment;
        ex_Receipt := {| FuelUsed := 21000; rc_Status := SUCCESSFUL; rc_StatusMessage := "0x";
                         rc_Logs := [] |} |}] = Return (st, err)
  /\ err <> Some ErrLogs.
Proof.
  assert (match check_smc_txs sample_vm sample_account 0 newNodeTxPin NewStorage 0
    [{| ex_Tx := Txv1_MarshalBinary sample_payment;
        ex_Receipt := {| FuelUsed := 21000; rc_Status := SUCCESSFUL; rc_StatusMessage := "0x";
                         rc_Logs := [] |} |}]
          with Return _ => true | Panic => false end = true) as Hr by (vm_compute; reflexivity).
  destruct (check_smc_txs sample_vm sample_account 0 newNodeTxPin NewStorage 0
    [{| ex_Tx := Txv1_MarshalBinary sample_payment;
        ex_Receipt := {| FuelUsed := 21000; rc_Status := SUCCESSFUL; rc_StatusMessage := "0x";
                         rc_Logs := [] |} |}]) as [[st err]|] eqn:E;
    [|discriminate Hr].
  exists st, err. split; [reflexivity|].
  eapply (replay_never_compares_logs sample_vm sample_account 0); [|exact E].
  repeat constructor. exists NewStorage,
    {| ex_Hash := ""; Successful_ := true; Output := "0x"; GasUsed := 21000 |}. reflexivity.
Defined.
