(* ===== verification/Confirmation.v ===== *)
(** The confirmation counter: [dag/confirmation.go] and [dag/site.go].

    The counter keeps, for every vertex that is still a tip, the vertex and the
    vertices that approved it; the second approval confirms the vertex.  The
    lock that every operation takes is left out. *)
From S2P Require Import Prelude GoLib Bytes Tx TxRecords WalletCache Node.

Section Counter.
Context `{MapRange} `{!CollSet uuid}.

Record ConfirmationCounter := {
  cc_tips : gmap uuid (list uuid);
  cc_cache : gmap uuid loc;
  cc_confirmed : cls
}.

Definition newConfirmationCounter : ConfirmationCounter :=
  {| cc_tips := ∅; cc_cache := ∅; cc_confirmed := cls_New |}.

Definition isTip (c : ConfirmationCounter) (id : uuid) : bool :=
  match cc_tips c !! id with Some _ => true | None => false end.

(** The cached nodes of the tips. *)
Definition getTips (c : ConfirmationCounter) : list loc :=
  omap (fun kv => cc_cache c !! fst kv) (map_range (cc_tips c)).

(** One target of the vertex [vid]. *)
Definition approve_target (vid : uuid) (c : ConfirmationCounter) (tid : uuid)
  : ConfirmationCounter :=
  let entry := default [] (cc_tips c !! tid) ++ [vid] in
  if (2 <? length entry)%nat then
    {| cc_tips := delete tid (cc_tips c); cc_cache := cc_cache c;
       cc_confirmed := cls_Insert (cc_confirmed c) tid |}
  else {| cc_tips := <[tid := entry]> (cc_tips c); cc_cache := cc_cache c;
          cc_confirmed := cc_confirmed c |}.

(** The vertex at [l] with the id [vid] and the ids of its targets. *)
Definition count_vertex (c : ConfirmationCounter) (l : loc) (vid : uuid) (tids : list uuid)
  : ConfirmationCounter :=
  fold_left (approve_target vid) tids
    {| cc_tips := <[vid := [vid]]> (cc_tips c); cc_cache := <[vid := l]> (cc_cache c);
       cc_confirmed := cc_confirmed c |}.

Definition ConfirmationCounter_add (h : heap) (c : ConfirmationCounter) (l : loc)
  : outcome ConfirmationCounter :=
  match h !! l with
  | None => Panic
  | Some vertex =>
      let! tids := node_ids h (targets vertex) in Return (count_vertex c l (uid vertex) tids)
  end.

(** The confirmed nodes, nil for an id that is not cached. *)
Definition ConfirmationCounter_pop (c : ConfirmationCounter)
  : ConfirmationCounter * list (option loc) :=
  ({| cc_tips := cc_tips c; cc_cache := cc_cache c; cc_confirmed := cls_New |},
   map (fun id => cc_cache c !! id) (cls_list (cc_confirmed c))).

Definition ConfirmationCounter_tip (c : ConfirmationCounter) : list (option loc) :=
  map (fun kv => cc_cache c !! fst kv) (map_range (cc_tips c)).

(** ** The life of a vertex *)

(** The vertices counted so far: location, id and target ids of each. *)
Abbreviation history := (list (loc * uuid * list uuid)).

Definition count_all (c : ConfirmationCounter) (hist : history) : ConfirmationCounter :=
  fold_left (fun c '(l, vid, tids) => count_vertex c l vid tids) hist c.

Definition counted (hist : history) : list uuid := map (fun '(_, vid, _) => vid) hist.

Definition occurrences (v : uuid) (l : list uuid) : nat :=
  length (List.filter (fun x => bool_decide (x = v)) l).

(** How often a vertex was approved. *)
Definition approvals (hist : history) (v : uuid) : nat :=
  occurrences v (concat (map snd hist)).

(** Every vertex is counted once, before any vertex that approves it. *)
Inductive proper_history : history -> Prop :=
| proper_nil : proper_history []
| proper_snoc hist l vid tids :
    proper_history hist -> vid ∉ counted hist -> approvals hist vid = 0%nat -> vid ∉ tids ->
    proper_history (hist ++ [(l, vid, tids)]).

Lemma occurrences_app v l l' : occurrences v (l ++ l') = (occurrences v l + occurrences v l')%nat.
Proof. unfold occurrences. by rewrite List.filter_app, length_app. Qed.

Lemma approvals_snoc hist l vid tids v :
  approvals (hist ++ [(l, vid, tids)]) v = (approvals hist v + occurrences v tids)%nat.
Proof.
  unfold approvals. rewrite map_app, concat_app. simpl. by rewrite app_nil_r, occurrences_app.
Qed.

Lemma occurrences_not_in v l : v ∉ l -> occurrences v l = 0%nat.
Proof.
  intros Hv. unfold occurrences. induction l as [|x l IH]; simpl; [done|].
  rewrite bool_decide_false by set_solver. apply IH. set_solver.
Qed.

(** Facts of division by 3 for [lia]. *)
Ltac div3 n :=
  pose proof (Nat.div_mod_eq n 3); pose proof (Nat.mod_upper_bound n 3 ltac:(lia)).

(** [k] approvals leave an entry of [(k + 1) mod 3] ids, none when that is 0. *)
Definition at_stage (c : ConfirmationCounter) (v : uuid) (k : nat) : Prop :=
  match cc_tips c !! v with
  | Some e => length e = (S k mod 3)%nat /\ (0 < length e)%nat
  | None => (S k mod 3)%nat = 0%nat
  end.

Lemma approve_target_other vid c tid v :
  tid <> v -> cc_tips (approve_target vid c tid) !! v = cc_tips c !! v
  /\ (v ∈ cls_elems (cc_confirmed (approve_target vid c tid)) <-> v ∈ cls_elems (cc_confirmed c)).
Proof.
  intros Hne. unfold approve_target. case_match; simpl.
  - rewrite lookup_delete_ne by done. split; [done|]. rewrite cls_Insert_spec. set_solver.
  - by rewrite lookup_insert_ne.
Qed.

Lemma approve_target_self vid c v k :
  at_stage c v k ->
  at_stage (approve_target vid c v) v (S k)
  /\ (v ∈ cls_elems (cc_confirmed (approve_target vid c v))
      <-> v ∈ cls_elems (cc_confirmed c) \/ (S (S k) mod 3 = 0)%nat).
Proof.
  intros Hst. unfold at_stage, approve_target in *.
  assert (length (default [] (cc_tips c !! v)) = (S k mod 3)%nat) as Hlen.
  { by destruct (cc_tips c !! v); simpl; [apply Hst|]. }
  div3 (S k). div3 (S (S k)).
  assert ((S (S k) mod 3)%nat = if decide (S k mod 3 = 2)%nat then 0%nat else S (S k mod 3)) as Hs.
  { case_decide; lia. }
  rewrite length_app, Hlen. simpl length.
  destruct (Nat.ltb_spec 2 (S k mod 3 + 1)); cbn [cc_tips cc_confirmed]; rewrite Hs;
    case_decide; try lia.
  - rewrite lookup_delete_eq. split; [done|]. rewrite cls_Insert_spec. set_solver.
  - rewrite lookup_insert_eq, length_app, Hlen. cbn [length]. split; [lia|]. split; [by left|].
    intros [|]; [done|lia].
Qed.

Lemma approve_targets vid v tids : forall c k,
  at_stage c v k ->
  let c' := fold_left (approve_target vid) tids c in
  let k' := (k + occurrences v tids)%nat in
  at_stage c' v k'
  /\ (v ∈ cls_elems (cc_confirmed c')
      <-> v ∈ cls_elems (cc_confirmed c) \/ (S k / 3 < S k' / 3)%nat).
Proof.
  induction tids as [|t tids IH]; intros c k Hst; cbn [fold_left].
  - unfold occurrences. cbn [List.filter length]. rewrite Nat.add_0_r. split; [done|]. split; [by left|]. intros [|Hlt]; [done|lia].
  - unfold occurrences in *. cbn [List.filter]. destruct (decide (t = v)) as [->|Hne].
    + rewrite bool_decide_true by done. cbn [length].
      destruct (approve_target_self vid c v k Hst) as [Hst' Hin'].
      destruct (IH _ _ Hst') as [Ha Hb]. rewrite <- Nat.add_succ_comm. split; [done|].
      rewrite Hb, Hin'. set (n := length _).
      div3 (S k). div3 (S (S k)). div3 (S (S k + n)).
      split; [intros [[|]|]; [by left|right; lia|right; lia]|].
      intros [|]; [by left; left|].
      destruct (decide (S (S k) mod 3 = 0)%nat); [left; by right|right; lia].
    + rewrite bool_decide_false by done.
      destruct (approve_target_other vid c t v Hne) as [Ha Hb].
      rewrite <- Hb. apply IH. unfold at_stage. by rewrite Ha.
Qed.

(** A counted vertex is at the stage of its approvals. *)
Lemma counted_stage hist v :
  proper_history hist -> v ∈ counted hist ->
  at_stage (count_all newConfirmationCounter hist) v (approvals hist v).
Proof.
  induction 1 as [|hist l vid tids Hp IH Hnew Ha Hself]; intros Hv; [by apply not_elem_of_nil in Hv|].
  unfold counted in Hv. rewrite map_app in Hv. simpl in Hv. rewrite approvals_snoc.
  unfold count_all. rewrite fold_left_app. cbn [fold_left].
  apply approve_targets. destruct (decide (v = vid)) as [->|Hne].
  - rewrite Ha. unfold at_stage. cbn [cc_tips]. rewrite lookup_insert_eq. cbn. lia.
  - unfold at_stage. cbn [cc_tips]. rewrite lookup_insert_ne by done. apply IH. set_solver.
Qed.

Lemma fold_stage hist : forall c v k,
  at_stage c v k -> v ∉ counted hist ->
  let c' := count_all c hist in
  let k' := (k + approvals hist v)%nat in
  at_stage c' v k'
  /\ (v ∈ cls_elems (cc_confirmed c')
      <-> v ∈ cls_elems (cc_confirmed c) \/ (S k / 3 < S k' / 3)%nat).
Proof.
  induction hist as [|[[l vid] tids] hist IH]; intros c v k Hst Hv; unfold count_all;
    cbn [fold_left].
  - unfold approvals. cbn. rewrite Nat.add_0_r. split; [done|]. split; [by left|].
    intros [|Hlt]; [done|lia].
  - assert (at_stage {| cc_tips := <[vid := [vid]]> (cc_tips c);
                        cc_cache := <[vid := l]> (cc_cache c);
                        cc_confirmed := cc_confirmed c |} v k) as Hst1.
    { unfold at_stage. cbn [cc_tips]. rewrite lookup_insert_ne by set_solver. exact Hst. }
    destruct (approve_targets vid v tids _ _ Hst1) as [Hst2 Hin2].
    destruct (IH _ v _ Hst2) as [Hst3 Hin3]; [set_solver|].
    assert (approvals ((l, vid, tids) :: hist) v = (occurrences v tids + approvals hist v)%nat) as Hap.
    { unfold approvals. cbn [map concat]. by rewrite occurrences_app. }
    cbv zeta. rewrite Hap, Nat.add_assoc. split; [exact Hst3|].
    unfold count_all in Hin3. unfold count_vertex at 2. rewrite Hin3, Hin2. cbn [cc_confirmed].
    set (a := occurrences v tids). set (b := approvals hist v).
    assert (S k / 3 <= S (k + a) / 3)%nat by (apply Nat.Div0.div_le_mono; lia).
    assert (S (k + a) / 3 <= S (k + a + b) / 3)%nat by (apply Nat.Div0.div_le_mono; lia).
    split; [intros [[|]|]; [by left|right; lia|right; lia]|].
    intros [|]; [by left; left|]. destruct (decide (S k / 3 < S (k + a) / 3)%nat); [left; by right|].
    right. lia.
Qed.

(** C26: the exact life of a vertex in the counter.  When every vertex is
    counted once and before those that approve it, a vertex approved [k] times
    is a tip exactly when [k mod 3] is not 2, and since the last [pop] it was
    confirmed exactly when its approvals passed one of 2, 5, 8, ...: so the
    second approval confirms it and ends its life as a tip, while a third makes
    it a tip again and a fifth confirms it a second time. *)
Theorem confirmation_cycle (h1 h2 : history) (v : uuid) :
  proper_history h1 -> v ∈ counted h1 -> v ∉ counted h2 ->
  let c := count_all (fst (ConfirmationCounter_pop (count_all newConfirmationCounter h1))) h2 in
  let k1 := approvals h1 v in
  let k := (k1 + approvals h2 v)%nat in
  isTip c v = negb (k mod 3 =? 2)%nat
  /\ (v ∈ cls_elems (cc_confirmed c) <-> ((k1 + 1) / 3 < (k + 1) / 3)%nat).
Proof.
  intros Hp1 Hv1 Hv2 c k1 k.
  pose proof (counted_stage h1 v Hp1 Hv1) as Hst1.
  assert (at_stage (fst (ConfirmationCounter_pop (count_all newConfirmationCounter h1))) v k1)
    as Hst1' by exact Hst1.
  destruct (fold_stage h2 _ v k1 Hst1' Hv2) as [Hst Hin]. fold c k in Hst, Hin.
  rewrite !Nat.add_1_r. split.
  - unfold isTip. unfold at_stage in Hst. div3 (S k). div3 k.
    destruct (cc_tips c !! v); symmetry; [apply negb_true_iff, Nat.eqb_neq
                                         |apply negb_false_iff, Nat.eqb_eq]; lia.
  - rewrite Hin. cbn [ConfirmationCounter_pop fst cc_confirmed]. rewrite cls_New_spec. set_solver.
Qed.
End Counter.

(** Vertex 10, approved by 11 and 12 and then by 13, 14 and 15. *)
Lemma confirmation_cycle_witness :
  let h1 : list (loc * uuid * list uuid) :=
    [(1%nat, 10%N, []); (2%nat, 11%N, [10%N]); (3%nat, 12%N, [10%N])] in
  let h2 : list (loc * uuid * list uuid) :=
    [(4%nat, 13%N, [10%N]); (5%nat, 14%N, [10%N]); (6%nat, 15%N, [10%N])] in
  let c := count_all (fst (ConfirmationCounter_pop (count_all newConfirmationCounter h1))) h2 in
  isTip c 10%N = false /\ 10%N ∈ cls_elems (cc_confirmed c).
Proof.
  intros h1 h2 c. destruct (confirmation_cycle h1 h2 10%N) as [Ht Hc].
  - apply (proper_snoc [_; _] 3%nat); [apply (proper_snoc [_] 2%nat);
      [apply (proper_snoc [] 1%nat); [apply proper_nil| | |]| | |]| | |];
      try reflexivity; apply (bool_decide_unpack _); reflexivity.
  - apply (bool_decide_unpack _). reflexivity.
  - apply (bool_decide_unpack _). reflexivity.
  - split; [exact Ht|]. apply Hc. vm_compute. lia.
Defined.
