(* ===== verification/Weights.v ===== *)
(** Tip selection: [dag/weights.go], with [isNodeTip] and [getApprovers] of
    [dag/dag.go] and [_sort_] of [dag/utils.go].

    Floats are IEEE double precision numbers.  [math.Exp] and the [stats]
    package are parameters without laws.  Random draws are arguments: a [draw]
    is what the random sources return in one round. *)
From S2P Require Import Prelude GoLib Bytes Tx TxRecords Storage Pool WalletCache Node Pin Confirmation.
From Stdlib Require Import SpecFloat.

(** ** Floats *)

Definition f64_add : float64 -> float64 -> float64 := SFadd 53 1024.
Definition f64_mul : float64 -> float64 -> float64 := SFmul 53 1024.
Definition f64_div : float64 -> float64 -> float64 := SFdiv 53 1024.
Definition f64_zero : float64 := S754_zero false.
(** 0.01, 0.5 and 12. *)
Definition f64_cent : float64 := S754_finite false 5764607523034235 (-59).
Definition f64_half : float64 := S754_finite false 4503599627370496 (-53).
Definition f64_twelve : float64 := S754_finite false 6755399441055744 (-49).

Class MathLib := {
  math_Exp : float64 -> float64;
  stats_Mean : list float64 -> float64;
  stats_StandardDeviation : list float64 -> float64
}.

(** ** Configuration *)

(** The fields of [DagConfiguration] that the dag reads. *)
Record DagConfiguration := {
  Algorithm : string; Alpha : float64; Approvetx : Z; Initialwidth : Z; Cummstep : float64;
  Versioncollision : bool
}.

Inductive DagAlgo := DAG_ALGO_MCMCP | DAG_ALGO_MCMCPP | DAG_ALGO_RANDOM.

Definition DagAlgo_Type (a : DagAlgo) : string :=
  match a with
  | DAG_ALGO_MCMCP => "mcmc+" | DAG_ALGO_MCMCPP => "mcmc++" | DAG_ALGO_RANDOM => "random"
  end.

(** [strings.ToLower] of an ASCII text. *)
Fixpoint ToLower (s : string) : string :=
  match s with
  | EmptyString => EmptyString
  | String c r =>
      let n := Ascii.nat_of_ascii c in
      String (if ((65 <=? n) && (n <=? 90))%nat then Ascii.ascii_of_nat (n + 32) else c) (ToLower r)
  end.

(** The entry of a map keyed by the algorithms' names. *)
Definition find_algo (s : string) : option DagAlgo :=
  if bool_decide (s = DagAlgo_Type DAG_ALGO_MCMCP) then Some DAG_ALGO_MCMCP
  else if bool_decide (s = DagAlgo_Type DAG_ALGO_MCMCPP) then Some DAG_ALGO_MCMCPP
  else if bool_decide (s = DagAlgo_Type DAG_ALGO_RANDOM) then Some DAG_ALGO_RANDOM
  else None.

(** ** Weights *)

Section Weights.
Context `{Goterators} `{MathLib}.
Variable cfg : DagConfiguration.

(** [math.Exp(-alpha*w)]. *)
Definition decay (w : float64) : float64 := math_Exp (f64_mul (SFopp (Alpha cfg)) w).

Definition calculateWeightsMCMC_P (nodes : list Node) : list float64 :=
  let cumWeights := gt_Map cumWeight nodes in
  let div := f64_add (gt_Reduce (fun prev cur => f64_add prev (decay cur)) cumWeights f64_zero)
               f64_cent in
  gt_Map (fun w => f64_div (decay w) div) cumWeights.

Definition calculateWeightsRandom (nodes : list Node) : list float64 :=
  let sumWeights := gt_Reduce (fun prev cur => f64_add prev (txWeight cur)) nodes f64_zero in
  gt_Map (fun n => f64_div (txWeight n) sumWeights) nodes.

Definition calculateWeightsMCMC_PP (nodes : list Node) : list float64 :=
  let weights := calculateWeightsRandom nodes in
  let div := f64_add (gt_Reduce (fun prev cur => f64_add prev (decay cur)) weights f64_zero)
               f64_cent in
  let probs := gt_Map (fun w => f64_div (decay w) div) weights in
  let sumProbs := gt_Reduce f64_add probs f64_zero in
  gt_Map (fun x => f64_div x sumProbs) probs.

(** An unknown algorithm gives a nil slice. *)
Definition calculateTxWeights (nodes : list Node) : list float64 :=
  match find_algo (ToLower (Algorithm cfg)) with
  | Some DAG_ALGO_MCMCP => calculateWeightsMCMC_P nodes
  | Some DAG_ALGO_MCMCPP => calculateWeightsMCMC_PP nodes
  | Some DAG_ALGO_RANDOM => calculateWeightsRandom nodes
  | None => []
  end.

(** ** Selecting an approver *)

(** What the random sources return: a permutation for [rand.Shuffle], a number
    below its argument for [rand.Intn] and [rand.Int31n], and a normal float. *)
Record draw := {
  d_shuffle : list loc -> list loc;
  d_intn : Z -> Z;
  d_norm : float64
}.

Definition draw_ok (d : draw) : Prop :=
  (forall l, d_shuffle d l ≡ₚ l) /\ (forall n, 0 < n -> 0 <= d_intn d n < n).

(** [l[rand.Intn(len(l))]]: an empty slice panics. *)
Definition pick (d : draw) (l : list loc) : outcome loc :=
  if (length l =? 0)%nat then Panic
  else match l !! Z.to_nat (d_intn d (Z.of_nat (length l))) with
       | Some x => Return x
       | None => Panic
       end.

Definition sort_by_weight (h : heap) (l : list loc) : list loc :=
  SliceStable (fun i j => match h !! i, h !! j with
                          | Some a, Some b => SFltb (txWeight a) (txWeight b)
                          | _, _ => false end) l.

(** The loop of [weightedSelectRandom] and [weightedSelectMCMCPP]: the first
    approver whose weight is not below [r], if [r] is not below the sum so far. *)
Fixpoint select_loop (r x : float64) (weights : list float64) (approvers : list loc) : option loc :=
  match weights, approvers with
  | v :: weights, a :: approvers =>
      if SFleb x r && SFleb r v then Some a else select_loop r (f64_add x v) weights approvers
  | _, _ => None
  end.

(** The approvers afterwards, since they are sorted in place, and the choice. *)
Definition weightedSelectRandom (h : heap) (d : draw) (approvers : list loc)
  : outcome (list loc * option loc) :=
  let approvers := sort_by_weight h approvers in
  let! nodes := deref h approvers in
  let weights := calculateTxWeights nodes in
  let r := f64_add (f64_div (d_norm d) f64_twelve) f64_half in
  match select_loop r f64_zero weights approvers with
  | Some a => Return (approvers, Some a)
  | None => let! a := pick d approvers in Return (approvers, Some a)
  end.

Definition weightedSelectMCMCPP (h : heap) (d : draw) (approvers : list loc)
  : outcome (list loc * option loc) :=
  let approvers := sort_by_weight h approvers in
  let! nodes := deref h approvers in
  let weights := calculateTxWeights nodes in
  let rv := f64_add (f64_mul (d_norm d) (stats_StandardDeviation weights)) (stats_Mean weights) in
  match select_loop rv f64_zero weights approvers with
  | Some a => Return (approvers, Some a)
  | None => let! a := pick d approvers in Return (approvers, Some a)
  end.

(** The loop of [weightedSelectMCMCP] from index 1: [prev] is the approver
    before the rest and [cumSum] its weight.  Fewer weights than approvers
    panic. *)
Fixpoint mcmcp_loop (r cumSum : float64) (prev : loc) (weights : list float64) (rest : list loc)
  : outcome loc :=
  match rest with
  | [] => Return prev
  | a :: rest =>
      if SFltb r cumSum then Return prev
      else match weights with
           | [] => Panic
           | w :: weights => mcmcp_loop r w a weights rest
           end
  end.

Definition weightedSelectMCMCP (h : heap) (d : draw) (approvers : list loc)
  : outcome (list loc * option loc) :=
  let approvers := d_shuffle d approvers in
  let! nodes := deref h approvers in
  let weights := calculateTxWeights nodes in
  let r := f64_add (f64_mul (d_norm d) (stats_StandardDeviation weights)) (stats_Mean weights) in
  match weights, approvers with
  | w :: ws, a :: rest => let! x := mcmcp_loop r w a ws rest in Return (approvers, Some x)
  | _, _ => Return (approvers, last approvers)
  end.

Definition weightedSelect (h : heap) (d : draw) (approvers : list loc)
  : outcome (list loc * option loc) :=
  match find_algo (Algorithm cfg) with
  | Some DAG_ALGO_MCMCP => weightedSelectMCMCP h d approvers
  | Some DAG_ALGO_MCMCPP => weightedSelectMCMCPP h d approvers
  | Some DAG_ALGO_RANDOM => weightedSelectRandom h d approvers
  | None => Return (approvers, None)
  end.
End Weights.

(** ** The walk *)

Record Link := { l_source : loc; l_target : loc }.

Section Walk.
Context `{Goterators} `{MathLib} `{MapRange} `{!CollSet uuid}.
Variable cfg : DagConfiguration.
Variable counter : ConfirmationCounter.

Definition isNodeTip (links : list Link) (n : Node) : bool :=
  if (length links =? 0)%nat then true else isTip counter (uid n).

(** The links that point at a node; a nil end panics. *)
Fixpoint links_to (h : heap) (links : list Link) (id : uuid) : outcome (list loc) :=
  match links with
  | [] => Return []
  | lk :: rest =>
      match h !! l_target lk with
      | None => Panic
      | Some t => let! r := links_to h rest id in
                  Return (if bool_decide (uid t = id) then l_source lk :: r else r)
      end
  end.

Definition getApprovers (h : heap) (links : list Link) (n : Node) : outcome (list loc) :=
  if (0 <? length (sources n))%nat then Return (sources n) else links_to h links (uid n).

(** Selecting reorders the node's own slice of sources when that is what
    [getApprovers] returned. *)
Definition reordered (h : heap) (l : loc) (n : Node) (approvers : list loc) : heap :=
  if (0 <? length (sources n))%nat then <[l := set_sources n approvers]> h else h.

(** [draws i] is what the random sources return in round [i]; [None] when the
    fuel is used up. *)
Fixpoint walk_loop (fuel : nat) (draws : nat -> draw) (round : nat) (h : heap)
    (linkSelection links : list Link) (particle : loc) (approvetx count : Z)
  : option (outcome (heap * option loc)) :=
  match fuel with
  | O => None
  | S fuel =>
      match h !! particle with
      | None => Some Panic
      | Some n =>
          if isNodeTip links n then Some (Return (h, Some particle))
          else
            match (let! approvers := getApprovers h linkSelection n in
                   let! r := weightedSelect cfg h (draws round) approvers in
                   Return (reordered h particle n (fst r), default particle (snd r))) with
            | Panic => Some Panic
            | Return (h, particle) =>
                let '(count, approvetx) :=
                  if count - 1 =? 0 then (Z.of_nat (length links), approvetx + 1)
                  else (count - 1, approvetx) in
                if 3 <? approvetx then Some (Return (h, None))
                else walk_loop fuel draws (S round) h linkSelection links particle approvetx count
            end
      end
  end.

(** The rounds a walk needs at most: see [walk_terminates]. *)
Definition walk_fuel (links : list Link) : nat := (4 * length links + 1)%nat.

(** From [start], with the configured number of approvals. *)
Definition weightedRandomWalk (draws : nat -> draw) (h : heap) (linkSelection links : list Link)
    (start : loc) : option (outcome (heap * option loc)) :=
  walk_loop (walk_fuel links) draws 0 h linkSelection links start (Approvetx cfg)
    (Z.of_nat (length links)).

(** ** Two tips *)

(** The links that do not start at the tip; a nil source panics. *)
Fixpoint exclude_links (h : heap) (id : uuid) (links : list Link) : outcome (list Link) :=
  match links with
  | [] => Return []
  | lk :: rest =>
      match h !! l_source lk with
      | None => Panic
      | Some s => let! r := exclude_links h id rest in
                  Return (if bool_decide (uid s = id) then r else lk :: r)
      end
  end.

(** Without the first node of the same id. *)
Fixpoint exclude_tip (h : heap) (id : uuid) (l : list loc) : outcome (list loc) :=
  match l with
  | [] => Return []
  | x :: rest =>
      match h !! x with
      | None => Panic
      | Some n => if bool_decide (uid n = id) then Return rest
                  else let! r := exclude_tip h id rest in Return (x :: r)
      end
  end.

(** Sequencing of results that may run out of fuel. *)
Definition fuel_bind {A B} (m : option (outcome A)) (k : A -> option (outcome B))
  : option (outcome B) :=
  match m with None => None | Some Panic => Some Panic | Some (Return a) => k a end.

(** The selection without the first tip. *)
Definition exclude_first (h : heap) (tip1 : option loc) (sel : list loc) (links : list Link)
  : outcome (list loc * list Link) :=
  match tip1 with
  | Some t1 =>
      if (1 <? length sel)%nat then
        match h !! t1 with
        | None => Panic
        | Some n => let! sel := exclude_tip h (uid n) sel in
                    let! ls := exclude_links h (uid n) links in Return (sel, ls)
        end
      else Return (sel, links)
  | None => Return (sel, links)
  end.

(** A nil tip is [None].  [d1] and [d2] draw the two starting nodes, [w1] and
    [w2] the rounds of the two walks. *)
Definition weightedMcmc (d1 d2 : draw) (w1 w2 : nat -> draw) (h : heap) (nodes : list loc)
    (links : list Link) : option (outcome (heap * list (option loc))) :=
  if (length nodes =? 0)%nat then Some (Return (h, []))
  else if (length nodes =? 2)%nat then Some (Return (h, map Some nodes))
  else
    fuel_bind (Some (pick d1 nodes)) (fun start1 =>
    fuel_bind (weightedRandomWalk w1 h links links start1) (fun '(h, tip1) =>
    fuel_bind (Some (exclude_first h tip1 nodes links)) (fun '(tipSelection, linkSelection) =>
    fuel_bind (Some (pick d2 tipSelection)) (fun start2 =>
    fuel_bind (weightedRandomWalk w2 h linkSelection links start2) (fun '(h, tip2) =>
    Some (Return (h, match tip1, tip2 with
                     | None, None => []
                     | _, None => [tip1]
                     | _, _ => [tip1; tip2]
                     end))))))).

(** ** Cumulative weights *)

Fixpoint sum_cumWeights (h : heap) (acc : float64) (l : list loc) : outcome float64 :=
  match l with
  | [] => Return acc
  | x :: rest => match h !! x with
                 | None => Panic
                 | Some n => sum_cumWeights h (f64_add acc (cumWeight n)) rest
                 end
  end.

(** From the last node to the first. *)
Fixpoint cumWeights_loop (h : heap) (l : list loc) : outcome heap :=
  match l with
  | [] => Return h
  | x :: rest =>
      match h !! x with
      | None => Panic
      | Some n => let! s := sum_cumWeights h f64_zero (sources n) in
                  cumWeights_loop (<[x := set_cumWeight n (f64_add s (Cummstep cfg))]> h) rest
      end
  end.

Definition updateCumWeights (h : heap) (nodes : list loc) : outcome heap :=
  cumWeights_loop h (rev nodes).
End Walk.

(** ** Properties *)

Section WalkProps.
Context `{Goterators} `{MathLib} `{MapRange} `{!CollSet uuid}.
Variable cfg : DagConfiguration.
Variable counter : ConfirmationCounter.

Lemma walk_at_tip fuel draws round h ls links l n a c :
  h !! l = Some n -> isNodeTip counter links n = true ->
  walk_loop cfg counter (S fuel) draws round h ls links l a c = Some (Return (h, Some l)).
Proof. intros Hl Ht. cbn [walk_loop]. by rewrite Hl, Ht. Qed.

(** What a walk may answer: nothing, or a tip, unless it panics. *)
Definition walk_result (links : list Link) (r : outcome (heap * option loc)) : Prop :=
  match r with
  | Return (h, Some t) => exists n, h !! t = Some n /\ isNodeTip counter links n = true
  | _ => True
  end.

(** *** Walks that do not panic *)

Lemma pick_in d l : draw_ok d -> l <> [] -> exists x, pick d l = Return x /\ x ∈ l.
Proof.
  intros [_ Hd] Hl. unfold pick. destruct l as [|y l]; [done|]. cbn [length Nat.eqb].
  specialize (Hd (Z.of_nat (length (y :: l))) ltac:(cbn [length]; lia)).
  destruct (lookup_lt_is_Some_2 (y :: l) (Z.to_nat (d_intn d (Z.of_nat (length (y :: l))))))
    as [x Hx]; [lia|].
  cbn [length] in Hx. rewrite Hx. exists x. split; [done|]. by eapply list_elem_of_lookup_2.
Qed.

Lemma insert_stable_perm {A} (less : A -> A -> bool) x l : insert_stable less x l ≡ₚ x :: l.
Proof using Type.
  induction l as [|y l IH]; simpl; [done|]. case_match; [done|]. rewrite IH. apply Permutation_swap.
Qed.

Lemma SliceStable_perm {A} (less : A -> A -> bool) l : SliceStable less l ≡ₚ l.
Proof using Type.
  unfold SliceStable. enough (forall acc, fold_left (fun acc x => insert_stable less x acc) l acc ≡ₚ acc ++ l) as E
    by apply E.
  induction l as [|x l IH]; intros acc; simpl; [by rewrite app_nil_r|].
  rewrite IH, insert_stable_perm. by rewrite <- Permutation_middle.
Qed.

(** Every vertex the walk can come to is on the heap, and one that is not a tip
    has an approver; without one, two of the algorithms draw from an empty list. *)
Record walk_safe (h : heap) (ls links : list Link) : Prop := {
  ws_sources : forall l n, h !! l = Some n -> Forall (fun x => is_Some (h !! x)) (sources n);
  ws_links : Forall (fun lk => is_Some (h !! l_source lk) /\ is_Some (h !! l_target lk)) ls;
  ws_approved : forall l n, h !! l = Some n -> isNodeTip counter links n = false ->
    getApprovers h ls n <> Return []
}.

Lemma deref_total h l : Forall (fun x => is_Some (h !! x)) l -> exists ns, deref h l = Return ns /\ length ns = length l.
Proof using Type.
  induction 1 as [|x l [n Hn] _ (ns & IH & Hlen)]; cbn [deref]; [by exists []|]. rewrite Hn, IH. simpl.
  eexists. split; [done|]. simpl. by rewrite Hlen.
Qed.

Lemma select_loop_in r x ws l a : select_loop r x ws l = Some a -> a ∈ l.
Proof using Type.
  revert x l. induction ws as [|w ws IH]; intros x [|y l]; cbn [select_loop]; try done.
  case_match; [intros [= <-]; left|]. intros Ha%IH. by right.
Qed.

Lemma mcmcp_loop_in r l : forall c prev ws, (length l <= length ws)%nat ->
  exists x, mcmcp_loop r c prev ws l = Return x /\ x ∈ prev :: l.
Proof using Type.
  induction l as [|a l IH]; intros c prev ws Hw; destruct ws as [|w ws]; cbn [mcmcp_loop];
    try (exists prev; split; [done|left]; fail); [simpl in Hw; lia|].
  case_match; [exists prev; split; [done|left]|].
  destruct (IH w a ws) as (x & -> & Hx); [simpl in Hw; lia|]. exists x. split; [done|]. apply elem_of_cons. by right.
Qed.

(** A selection among approvers on the heap returns one of them. *)
Lemma weightedSelect_in h d l :
  draw_ok d -> Forall (fun x => is_Some (h !! x)) l -> l <> [] ->
  exists l' o, weightedSelect cfg h d l = Return (l', o) /\ l' ≡ₚ l /\ (forall x, o = Some x -> x ∈ l).
Proof using Type.
  intros Hd Hl Hne. assert (forall l' x, l' ≡ₚ l -> x ∈ l' -> x ∈ l) as Hin by (by intros l' x ->).
  assert (forall r ws l', l' ≡ₚ l -> exists x, (match select_loop r f64_zero ws l' with
      | Some a => Return (l', Some a) | None => let! a := pick d l' in Return (l', Some a) end)
      = Return (l', Some x) /\ x ∈ l) as Hsel.
  { intros r ws l' Hp. destruct (select_loop _ _ _ _) as [a|] eqn:E.
    - exists a. split; [done|]. by eapply Hin, select_loop_in.
    - destruct (pick_in d l' Hd) as (x & -> & Hx); [intros ->; by apply Permutation_nil in Hp|].
      exists x. split; [done|by eapply Hin]. }
  unfold weightedSelect. destruct (find_algo (Algorithm cfg)) as [[]|] eqn:Ea; [| | |by exists l, None].
  - unfold weightedSelectMCMCP. set (l' := d_shuffle d l). assert (l' ≡ₚ l) as Hp by apply Hd.
    destruct (deref_total h l') as (ns & -> & Hlen); [by rewrite Hp|]. cbn [outcome_bind].
    assert (length (calculateTxWeights cfg ns) = length l') as Hw.
    { unfold calculateTxWeights. replace (find_algo (ToLower (Algorithm cfg))) with (Some DAG_ALGO_MCMCP).
      - unfold calculateWeightsMCMC_P. rewrite !gt_Map_spec, !length_map. done.
      - revert Ea. unfold find_algo at 1. case_bool_decide as E; [|by repeat case_bool_decide].
        rewrite E. intros _. by vm_compute. }
    destruct (calculateTxWeights cfg ns) as [|w ws], l' as [|a rest] eqn:El; try done.
    + by apply Permutation_nil_l in Hp.
    + simpl in Hw. edestruct (mcmcp_loop_in) as (x & -> & Hx); [|].
      2:{ cbn [outcome_bind]. eexists _, _. split; [done|]. split; [done|]. intros ? [= <-]. by eapply Hin. }
      lia.
  - unfold weightedSelectMCMCPP. set (l' := sort_by_weight h l).
    assert (l' ≡ₚ l) as Hp by apply SliceStable_perm.
    destruct (deref_total h l') as (ns & -> & Hlen); [by rewrite Hp|]. cbn [outcome_bind].
    match goal with |- context [select_loop ?r _ ?ws l'] => destruct (Hsel r ws l' Hp) as (x & -> & Hx) end.
    exists l', (Some x). split; [done|]. split; [done|]. by intros ? [= <-].
  - unfold weightedSelectRandom. set (l' := sort_by_weight h l).
    assert (l' ≡ₚ l) as Hp by apply SliceStable_perm.
    destruct (deref_total h l') as (ns & -> & Hlen); [by rewrite Hp|]. cbn [outcome_bind].
    match goal with |- context [select_loop ?r _ ?ws l'] => destruct (Hsel r ws l' Hp) as (x & -> & Hx) end.
    exists l', (Some x). split; [done|]. split; [done|]. by intros ? [= <-].
Qed.

Lemma links_to_on (h : heap) ls id l :
  Forall (fun lk => is_Some (h !! l_source lk) /\ is_Some (h !! l_target lk)) ls ->
  links_to h ls id = l -> exists r, l = Return r /\ Forall (fun x => is_Some (h !! x)) r.
Proof using Type.
  intros Hls <-. induction Hls as [|lk ls [Hs [t Ht]] _ (r & IH & Hr)]; cbn [links_to]; [by exists []|].
  rewrite Ht, IH. simpl. eexists. split; [done|]. case_bool_decide; [by constructor|done].
Qed.

Lemma links_to_uids (h h' : heap) ls id :
  (forall x, uid <$> h !! x = uid <$> h' !! x) -> links_to h ls id = links_to h' ls id.
Proof using Type.
  intros E. induction ls as [|lk ls IH]; cbn [links_to]; [done|]. rewrite IH. specialize (E (l_target lk)).
  destruct (h !! l_target lk), (h' !! l_target lk); simplify_eq/=; [|done]. by rewrite E.
Qed.

(** The approvers are on the heap. *)
Lemma getApprovers_on h ls links l n :
  walk_safe h ls links -> h !! l = Some n -> isNodeTip counter links n = false ->
  exists r, getApprovers h ls n = Return r /\ Forall (fun x => is_Some (h !! x)) r /\ r <> [].
Proof using Type.
  intros [Hs Hl Ha] Hn Ht. pose proof (Ha l n Hn Ht) as Hne. revert Hne. unfold getApprovers.
  destruct (0 <? length (sources n))%nat.
  - intros Hne. exists (sources n). split; [done|]. split; [by eapply Hs|]. by intros E; rewrite E in Hne.
  - destruct (links_to_on h ls (uid n) _ Hl eq_refl) as (r & -> & Hr). intros Hne. exists r.
    split; [done|]. split; [done|]. by intros ->.
Qed.

(** Reordering the sources of a vertex keeps a walk safe. *)
Lemma reordered_safe h ls links l n r :
  walk_safe h ls links -> h !! l = Some n ->
  (0 < length (sources n) -> r ≡ₚ sources n)%nat ->
  walk_safe (reordered h l n r) ls links /\ forall x, is_Some (h !! x) -> is_Some (reordered h l n r !! x).
Proof using Type.
  intros [Hs Hl Ha] Hn Hp. unfold reordered. destruct (Nat.ltb_spec 0 (length (sources n))) as [Hpos|Hpos]; [|by split].
  specialize (Hp Hpos). set (h' := <[l := set_sources n r]> h).
  assert (forall x, is_Some (h !! x) -> is_Some (h' !! x)) as Hx
    by (intros x Hx; apply lookup_insert_is_Some'; by right).
  assert (forall x, uid <$> h !! x = uid <$> h' !! x) as Hu.
  { intros x. unfold h'. destruct (decide (l = x)) as [<-|]; [by rewrite lookup_insert_eq, Hn|by rewrite lookup_insert_ne]. }
  split; [|done]. split.
  - intros x m Hm. unfold h' in Hm. destruct (decide (l = x)) as [<-|].
    + rewrite lookup_insert_eq in Hm. injection Hm as <-. simpl. rewrite Hp.
      eapply Forall_impl; [by eapply Hs|]. intros y. apply Hx.
    + rewrite lookup_insert_ne in Hm by done. eapply Forall_impl; [by eapply Hs|]. intros y. apply Hx.
  - eapply Forall_impl; [exact Hl|]. intros lk [? ?]. split; by apply Hx.
  - intros x m Hm Htm. unfold h' in Hm. unfold getApprovers. rewrite <- (links_to_uids h h' ls (uid m) Hu).
    destruct (decide (l = x)) as [<-|].
    + rewrite lookup_insert_eq in Hm. injection Hm as <-. simpl. rewrite Hp.
      destruct (Nat.ltb_spec 0 (length (sources n))) as [_|]; [|lia].
      intros [= ->]. apply Permutation_nil_l in Hp. rewrite <- Hp in Hpos. simpl in Hpos. lia.
    + rewrite lookup_insert_ne in Hm by done. by apply (Ha x m).
Qed.

(** One round. *)
Lemma walk_round h ls links l n d :
  walk_safe h ls links -> h !! l = Some n -> isNodeTip counter links n = false -> draw_ok d ->
  exists h' l', (let! approvers := getApprovers h ls n in
                 let! r := weightedSelect cfg h d approvers in
                 Return (reordered h l n (fst r), default l (snd r))) = Return (h', l')
  /\ walk_safe h' ls links /\ is_Some (h' !! l').
Proof using Type.
  intros Hw Hn Ht Hd. destruct (getApprovers_on h ls links l n Hw Hn Ht) as (r & Er & Hr & Hne).
  rewrite Er. cbn [outcome_bind]. destruct (weightedSelect_in h d r Hd Hr Hne) as (r' & o & -> & Hp & Ho).
  cbn [outcome_bind fst snd]. eexists _, _. split; [done|].
  destruct (reordered_safe h ls links l n r' Hw Hn) as [Hs Hx].
  { intros Hpos. unfold getApprovers in Er. destruct (Nat.ltb_spec 0 (length (sources n))); [|lia].
    injection Er as <-. done. }
  split; [done|]. apply Hx. destruct o as [x|]; simpl; [|by eexists].
  rewrite Forall_forall in Hr. by apply Hr, Ho.
Qed.

(** The rounds left: [a] approvals so far, [c] rounds until the next. *)
Lemma walk_terminates draws ls links : forall fuel round h l a c,
  1 <= c <= Z.of_nat (length links) ->
  (a <= 3 -> (3 - a) * Z.of_nat (length links) + c <= Z.of_nat fuel) -> (0 < fuel)%nat ->
  exists r, walk_loop cfg counter fuel draws round h ls links l a c = Some r
            /\ walk_result links r
            /\ (walk_safe h ls links -> is_Some (h !! l) -> (forall i, draw_ok (draws i)) -> r <> Panic).
Proof using Type.
  induction fuel as [|fuel IH]; intros round h l a c Hc Hf Hpos; [lia|]. cbn [walk_loop].
  destruct (h !! l) as [n|] eqn:El; [|eexists; split; [reflexivity|]; by split; [|intros _ []]].
  destruct (isNodeTip counter links n) eqn:Et;
    [eexists; split; [reflexivity|]; split; [by exists n|done]|].
  pose proof (fun Hs Hd => walk_round h ls links l n (draws round) Hs El Et (Hd round)) as Hround.
  match goal with |- context [match ?m with Return _ => _ | Panic => _ end] => destruct m as [[h' l']|] end.
  2:{ eexists. split; [reflexivity|]. split; [exact I|]. intros Hs _ Hd.
      by destruct (Hround Hs Hd) as (h' & l' & ? & _). }
  assert (exists r, walk_loop cfg counter fuel draws (S round) h' ls links l'
            (if c - 1 =? 0 then a + 1 else a) (if c - 1 =? 0 then Z.of_nat (length links) else c - 1) = Some r
          /\ walk_result links r /\ (walk_safe h ls links -> (forall i, draw_ok (draws i)) -> r <> Panic)
          \/ 3 < (if c - 1 =? 0 then a + 1 else a)) as (r & Hr).
  { destruct (Z.leb_spec (if c - 1 =? 0 then a + 1 else a) 3) as [Ha|]; [|exists Panic; by right].
    destruct (IH (S round) h' l' (if c - 1 =? 0 then a + 1 else a) (if c - 1 =? 0 then Z.of_nat (length links) else c - 1))
      as (r & Er & Hr & Hp); [destruct (Z.eqb_spec (c - 1) 0); lia
        |intros _; destruct (Z.eqb_spec (c - 1) 0); nia|destruct (Z.eqb_spec (c - 1) 0); nia|].
    exists r. left. split; [done|]. split; [done|]. intros Hs Hd.
    destruct (Hround Hs Hd) as (? & ? & [= <- <-] & ? & ?). by apply Hp. }
  destruct (c - 1 =? 0).
  - destruct (Z.ltb_spec 3 (a + 1)); [by eexists|]. destruct Hr as [(Er & Hr & Hp)|]; [|lia].
    exists r. split; [exact Er|]. split; [done|]. auto.
  - destruct (Z.ltb_spec 3 a); [by eexists|]. destruct Hr as [(Er & Hr & Hp)|]; [|lia].
    exists r. split; [exact Er|]. split; [done|]. auto.
Qed.

(** C28: the random walk always ends, whatever the graph, the weights and the
    random draws: within four rounds per link and one more it returns nothing, a
    tip, or panics.  It panics neither at a missing vertex nor in a draw when it
    starts on the heap, the sources of the vertices and the ends of the links are
    on the heap, and every vertex that is not a tip has an approver. *)
Theorem weightedRandomWalk_terminates draws h ls links start :
  0 <= Approvetx cfg ->
  exists r, weightedRandomWalk cfg counter draws h ls links start = Some r /\ walk_result links r
  /\ (walk_safe h ls links -> is_Some (h !! start) -> (forall i, draw_ok (draws i)) -> r <> Panic).
Proof using Type.
  intros Ha. unfold weightedRandomWalk, walk_fuel. destruct links as [|lk links'] eqn:El.
  - change (4 * length [] + 1)%nat with 1%nat. destruct (h !! start) as [n|] eqn:En.
    + rewrite (walk_at_tip _ _ _ _ _ _ _ n) by done. eexists. split; [reflexivity|]. split; [by exists n|done].
    + cbn. rewrite En. eexists. split; [reflexivity|]. by split; [|intros _ []].
  - apply walk_terminates; cbn [length]; [lia|intros; nia|lia].
Qed.

Lemma walk_from_tip draws h ls links l n :
  h !! l = Some n -> isTip counter (uid n) = true ->
  weightedRandomWalk cfg counter draws h ls links l = Some (Return (h, Some l)).
Proof.
  intros Hl Ht. unfold weightedRandomWalk, walk_fuel. rewrite Nat.add_1_r.
  apply (walk_at_tip _ _ _ _ _ _ _ n); [done|]. unfold isNodeTip. by case_match.
Qed.

(** The nodes that may become tips: in the heap and counted as tips. *)
Definition tips_in (h : heap) (nodes : list loc) : Prop :=
  Forall (fun l => exists n, h !! l = Some n /\ isTip counter (uid n) = true) nodes.

Definition same_id (h : heap) (a b : loc) : Prop := uid <$> h !! a = uid <$> h !! b.

Lemma exclude_tip_spec h nodes t n :
  tips_in h nodes -> h !! t = Some n -> t ∈ nodes ->
  exists l, exclude_tip h (uid n) nodes = Return l /\ S (length l) = length nodes
  /\ forall x, x ∈ l -> x ∈ nodes /\ (NoDup (map (fun y => uid <$> h !! y) nodes) -> ~ same_id h t x).
Proof.
  intros Hn Ht. induction Hn as [|x nodes (m & Hm & _) _ IH]; intros Hin;
    [by apply not_elem_of_nil in Hin|].
  cbn [exclude_tip]. rewrite Hm. case_bool_decide as Eu.
  - exists nodes. split; [done|]. split; [done|]. intros y Hy. split; [by right|].
    intros [Hnd _]%NoDup_cons Hs. apply Hnd. apply list_elem_of_fmap. exists y. split; [|done].
    rewrite <- Hs, Hm, Ht. simpl. by rewrite Eu.
  - apply elem_of_cons in Hin as [<-|Hin]; [congruence|].
    destruct (IH Hin) as (l & -> & Hlen & Hl). simpl. eexists. split; [reflexivity|].
    split; [simpl; lia|]. intros y [->|Hy]%elem_of_cons.
    + split; [left|]. intros _ Hs. unfold same_id in Hs. rewrite Hm, Ht in Hs. simpl in Hs. congruence.
    + destruct (Hl y Hy) as [? Hs]. split; [by right|]. intros [_ Hnd]%NoDup_cons. by apply Hs.
Qed.

Lemma exclude_links_total h id links :
  Forall (fun lk => is_Some (h !! l_source lk)) links -> exists r, exclude_links h id links = Return r.
Proof.
  induction 1 as [|lk links [s Hs] _ [r IH]]; cbn [exclude_links]; [by eexists|].
  rewrite Hs, IH. simpl. by eexists.
Qed.

(** What [weightedMcmc] returns for tips with different ids. *)
Lemma weightedMcmc_tips d1 d2 w1 w2 h nodes links :
  draw_ok d1 -> draw_ok d2 -> tips_in h nodes ->
  NoDup (map (fun y => uid <$> h !! y) nodes) ->
  Forall (fun lk => is_Some (h !! l_source lk)) links ->
  exists ts, weightedMcmc cfg counter d1 d2 w1 w2 h nodes links = Some (Return (h, ts))
  /\ match nodes with
     | [] => ts = []
     | [t] => ts = [Some t; Some t]
     | _ => exists a b, ts = [Some a; Some b] /\ a ∈ nodes /\ b ∈ nodes /\ ~ same_id h a b
     end.
Proof.
  intros Hd1 Hd2 Hn Hnd Hl. unfold weightedMcmc.
  destruct (Nat.eqb_spec (length nodes) 0) as [E0|E0].
  { destruct nodes; [|done]. by eexists. }
  destruct (Nat.eqb_spec (length nodes) 2) as [E2|E2].
  { destruct nodes as [|a [|b [|]]]; try done. eexists. split; [reflexivity|]. exists a, b.
    split; [done|]. split; [left|]. split; [right; left|]. intros Hs.
    apply NoDup_cons in Hnd as [Hnd _]. apply Hnd. unfold same_id in Hs. rewrite Hs. left. }
  destruct (pick_in d1 nodes Hd1) as (s1 & -> & Hs1); [by destruct nodes|]. cbn [fuel_bind].
  pose proof Hn as Hn'. unfold tips_in in Hn'. rewrite Forall_forall in Hn'.
  destruct (Hn' s1 Hs1) as (n1 & Hh1 & Ht1).
  rewrite (walk_from_tip _ _ _ _ _ n1) by done. cbn [fuel_bind]. unfold exclude_first.
  destruct (Nat.ltb_spec 1 (length nodes)) as [Hgt|Hle].
  - rewrite Hh1. destruct (exclude_tip_spec h nodes s1 n1) as (sel & -> & Hlen & Hsel); [done..|].
    destruct (exclude_links_total h (uid n1) links Hl) as [ls Els]. cbn [outcome_bind]. rewrite Els.
    cbn [outcome_bind fuel_bind].
    destruct (pick_in d2 sel Hd2) as (s2 & -> & Hs2); [destruct sel; [simpl in *; lia|done]|].
    cbn [fuel_bind]. destruct (Hsel s2 Hs2) as [Hs2n Hne]. destruct (Hn' s2 Hs2n) as (n2 & Hh2 & Ht2).
    rewrite (walk_from_tip _ _ _ _ _ n2) by done. cbn [fuel_bind]. eexists. split; [reflexivity|].
    destruct nodes as [|a [|b rest]]; simpl in *; try lia. exists s1, s2. by split_and!; try apply Hne.
  - destruct nodes as [|t [|]]; simpl in *; try lia. cbn [fuel_bind].
    apply list_elem_of_singleton in Hs1 as ->.
    destruct (pick_in d2 [t] Hd2) as (s2 & -> & Hs2); [done|]. apply list_elem_of_singleton in Hs2 as ->.
    cbn [fuel_bind]. rewrite (walk_from_tip _ _ _ _ _ n1) by done. cbn [fuel_bind].
    by eexists.
Qed.
(** Tip selection needs no weights.  Among candidates that are tips with
    different ids the walk stops where it starts, so for any weights and draws
    the selection returns without changing anything: no tip without
    candidates, the same tip twice for one, and two different candidates for
    two or more. *)
Theorem weightedMcmc_selects_tips d1 d2 w1 w2 h nodes links :
  draw_ok d1 -> draw_ok d2 -> tips_in h nodes ->
  NoDup (map (fun y => uid <$> h !! y) nodes) ->
  Forall (fun lk => is_Some (h !! l_source lk)) links ->
  exists ts, weightedMcmc cfg counter d1 d2 w1 w2 h nodes links = Some (Return (h, ts))
  /\ match nodes with
     | [] => ts = []
     | [t] => ts = [Some t; Some t]
     | _ => exists a b, ts = [Some a; Some b] /\ a ∈ nodes /\ b ∈ nodes /\ ~ same_id h a b
     end.
Proof. apply weightedMcmc_tips. Qed.
End WalkProps.

(** A library in which every weight is the same, a draw that takes the first
    element, and three tips. *)
#[export] Instance math_flat : MathLib := {
  math_Exp _ := S754_finite false 4503599627370496 (-52);
  stats_Mean _ := S754_zero false;
  stats_StandardDeviation _ := S754_zero false
}.

Definition sample_config : DagConfiguration :=
  {| Algorithm := "mcmc+"; Alpha := f64_half; Approvetx := 2; Initialwidth := 5;
     Cummstep := f64_half; Versioncollision := false |}.

Definition first_draw : draw := {| d_shuffle l := l; d_intn _ := 0; d_norm := f64_zero |}.

Lemma first_draw_ok : draw_ok first_draw.
Proof. split; [done|]. simpl. lia. Qed.

Definition with_uid (n : Node) (id : uuid) : Node :=
  set_nid n {| n_id := id; n_address := ""; idMajor := 0; idMinor := 0 |}.

Definition three_nodes : heap :=
  {[1%nat := with_uid sample_node 10%N; 2%nat := with_uid sample_node 11%N;
    3%nat := with_uid sample_node 12%N]}.
Definition three_tips : ConfirmationCounter :=
  count_all newConfirmationCounter [(1%nat, 10%N, []); (2%nat, 11%N, []); (3%nat, 12%N, [])].
Definition three_links : list Link := [{| l_source := 1%nat; l_target := 2%nat |}].

(** A tip that approves another vertex. *)
Definition two_nodes : heap := {[1%nat := with_uid sample_node 10%N; 2%nat := with_uid sample_node 11%N]}.
Definition one_tip : ConfirmationCounter := count_all newConfirmationCounter [(1%nat, 10%N, [])].

Lemma two_nodes_safe : walk_safe one_tip two_nodes three_links three_links.
Proof.
  assert (forall l n, two_nodes !! l = Some n -> n = with_uid sample_node 10%N \/ n = with_uid sample_node 11%N) as Hn.
  { intros l n Hl. unfold two_nodes in Hl. apply lookup_insert_Some in Hl as [[_ <-]|[_ Hl]]; [by left|].
    apply lookup_singleton_Some in Hl as [_ <-]. by right. }
  split.
  - intros l n [-> | ->]%Hn; constructor.
  - repeat constructor; eexists; reflexivity.
  - intros l n [-> | ->]%Hn; vm_compute; discriminate.
Qed.

Lemma weightedRandomWalk_terminates_witness :
  exists r, weightedRandomWalk sample_config one_tip (fun _ => first_draw)
              two_nodes three_links three_links 2%nat = Some r
  /\ walk_result one_tip three_links r /\ r <> Panic.
Proof.
  destruct (weightedRandomWalk_terminates sample_config one_tip (fun _ => first_draw)
           two_nodes three_links three_links 2%nat) as (r & E & Hr & Hp); [simpl; lia|].
  exists r. split; [exact E|]. split; [exact Hr|]. apply Hp; [exact two_nodes_safe|by eexists|].
  intros _. exact first_draw_ok.
Defined.

Lemma weightedMcmc_selects_tips_witness :
  exists a b, weightedMcmc sample_config three_tips first_draw first_draw (fun _ => first_draw)
      (fun _ => first_draw) three_nodes [1%nat; 2%nat; 3%nat] three_links
    = Some (Return (three_nodes, [Some a; Some b])) /\ ~ same_id three_nodes a b.
Proof.
  destruct (weightedMcmc_selects_tips sample_config three_tips first_draw first_draw
    (fun _ => first_draw) (fun _ => first_draw) three_nodes [1%nat; 2%nat; 3%nat] three_links)
    as (ts & E & a & b & -> & _ & _ & Hne).
  - exact first_draw_ok.
  - exact first_draw_ok.
  - repeat constructor; eexists; split; reflexivity.
  - apply (bool_decide_unpack _). vm_compute. reflexivity.
  - repeat constructor. eexists. reflexivity.
  - exists a, b. split; [exact E|exact Hne].
Defined.
