(* ===== verification/Dag.v ===== *)
(** The dag: [dag/dag.go], [dag/add.go], [dag/insert.go], [dag/site.go] and
    [newDag] of [dag/generate.go].

    Nodes live on the heap of [World]; the dag holds pointers to them.  The
    global variables of the package (the dag, the confirmation counter, the
    wallet caches and the pins) are one record, [DagWorld].  Locks are left
    out: every operation below runs under the dag's mutex.  The channel [txCh]
    is the list of what was sent on it. *)
From S2P Require Import Prelude GoLib Bytes Tx TxRecords Storage Pool WalletCache Node Pin.
From S2P Require Import Confirmation Weights.

Record TxVL := { txvl_vertex : Node; txvl_edges : list Node }.

(** [txCh] is nil, [None], until synchronisation runs. *)
Record Dag := {
  d_dag : list loc;
  mapped_vertices : gmap uuid loc;
  d_links : list Link;
  mapped_edges : gmap uuid (list uuid);
  d_pins : list loc;
  width : Z;
  txCh : option (list TxVL)
}.

Definition set_dag (d : Dag) (x : list loc) : Dag :=
  {| d_dag := x; mapped_vertices := mapped_vertices d; d_links := d_links d;
     mapped_edges := mapped_edges d; d_pins := d_pins d; width := width d; txCh := txCh d |}.
Definition set_links (d : Dag) (x : list Link) : Dag :=
  {| d_dag := d_dag d; mapped_vertices := mapped_vertices d; d_links := x;
     mapped_edges := mapped_edges d; d_pins := d_pins d; width := width d; txCh := txCh d |}.
Definition set_maps (d : Dag) (v : gmap uuid loc) (e : gmap uuid (list uuid)) : Dag :=
  {| d_dag := d_dag d; mapped_vertices := v; d_links := d_links d;
     mapped_edges := e; d_pins := d_pins d; width := width d; txCh := txCh d |}.
Definition set_txCh (d : Dag) (x : option (list TxVL)) : Dag :=
  {| d_dag := d_dag d; mapped_vertices := mapped_vertices d; d_links := d_links d;
     mapped_edges := mapped_edges d; d_pins := d_pins d; width := width d; txCh := x |}.

Section Dag.
Context `{CryptoLib} `{ProtoLib} `{TimestampLib} `{EthLib} `{UuidLib}.
Context `{Goterators} `{MathLib} `{MapRange} `{!CollSet uuid}.
Variable cfg : DagConfiguration.

Record DagWorld := { dg : Dag; counter : ConfirmationCounter; world : World }.

Definition with_dg (s : DagWorld) (d : Dag) : DagWorld :=
  {| dg := d; counter := counter s; world := world s |}.
Definition with_counter (s : DagWorld) (c : ConfirmationCounter) : DagWorld :=
  {| dg := dg s; counter := c; world := world s |}.
Definition with_world (s : DagWorld) (w : World) : DagWorld :=
  {| dg := dg s; counter := counter s; world := w |}.
Definition dheap (s : DagWorld) : heap := w_heap (world s).
Definition with_dheap (s : DagWorld) (h : heap) : DagWorld :=
  with_world s (with_heap (world s) h).

(** ** Lookups *)

Definition lookupCache (d : Dag) (id : uuid) : bool :=
  match mapped_vertices d !! id with Some _ => true | None => false end.

Definition lookupCacheUpdate (d : Dag) (id : uuid) (l : loc) (targetIds : list uuid) : Dag :=
  set_maps d (<[id := l]> (mapped_vertices d))
    (<[id := default [] (mapped_edges d !! id) ++ targetIds]> (mapped_edges d)).

(** The first node of the dag with the id; a nil node before it panics. *)
Fixpoint find_by_id (h : heap) (l : list loc) (id : uuid) : outcome (option loc) :=
  match l with
  | [] => Return None
  | x :: rest => match h !! x with
                 | None => Panic
                 | Some n => if bool_decide (uid n = id) then Return (Some x)
                             else find_by_id h rest id
                 end
  end.

Definition _getById_ (h : heap) (d : Dag) (id : uuid) : outcome (option loc) :=
  find_by_id h (d_dag d) id.

Definition getById (h : heap) (d : Dag) (id : uuid) (cacheOnly : bool) : outcome (option loc) :=
  match mapped_vertices d !! id with
  | Some l => Return (Some l)
  | None => if cacheOnly then Return None else _getById_ h d id
  end.

Definition Dag_Vertex (d : Dag) (id : uuid) : option loc := mapped_vertices d !! id.

Fixpoint map_vertices (h : heap) (l : list loc) (m : gmap uuid loc) : outcome (gmap uuid loc) :=
  match l with
  | [] => Return m
  | x :: rest => match h !! x with
                 | None => Panic
                 | Some n => map_vertices h rest (<[uid n := x]> m)
                 end
  end.

Definition updateMappedVertices (h : heap) (d : Dag) : outcome Dag :=
  let! m := map_vertices h (d_dag d) (mapped_vertices d) in Return (set_maps d m (mapped_edges d)).

(** A target that is already listed is not added again. *)
Fixpoint map_edges (h : heap) (l : list Link) (m : gmap uuid (list uuid))
  : outcome (gmap uuid (list uuid)) :=
  match l with
  | [] => Return m
  | e :: rest =>
      match h !! l_source e, h !! l_target e with
      | Some s, Some t =>
          let ids := default [] (m !! uid s) in
          map_edges h rest
            (match gt_Find (fun id => bool_decide (id = uid t)) ids with
             | Some _ => m
             | None => <[uid s := ids ++ [uid t]]> m
             end)
      | _, _ => Panic
      end
  end.

Definition updateMappedEdges (h : heap) (d : Dag) : outcome Dag :=
  let! m := map_edges h (d_links d) (mapped_edges d) in Return (set_maps d (mapped_vertices d) m).

Definition getGenesis (d : Dag) : outcome loc :=
  match d_dag d with [] => Panic | g :: _ => Return g end.

(** The known vertices of the ids and whether all were found; a text that is
    not a uuid reads as the nil uuid. *)
Definition getVertices (d : Dag) (ids : list string) : list loc * bool :=
  let vIds := gt_Map (fun id => default uuid_Nil (uuid_Parse id)) ids in
  let vertices := gt_ForEach (fun vs id => match Dag_Vertex d id with
                                           | None => vs
                                           | Some l => vs ++ [l]
                                           end) vIds [] in
  (vertices, negb (length vertices <? length ids)%nat).

(** ** Adding a node *)

Definition countConfirmed (s : DagWorld) (l : loc) : outcome DagWorld :=
  let! c := ConfirmationCounter_add (dheap s) (counter s) l in Return (with_counter s c).

(** Send on [txCh] unless it is nil. *)
Definition send (d : Dag) (x : TxVL) : Dag :=
  match txCh d with None => d | Some sent => set_txCh d (Some (sent ++ [x])) end.

(** Links of the new node [l] to the nodes [vs] it approves; also the copies of
    the nodes as they were.  A nil pointer panics. *)
Fixpoint link_targets (h : heap) (l : loc) (vs : list (option loc)) : outcome (heap * list Node) :=
  match vs with
  | [] => Return (h, [])
  | None :: _ => Panic
  | Some v :: rest =>
      match h !! v with
      | None => Panic
      | Some nv =>
          let h := <[v := set_sources nv (sources nv ++ [l])]> h in
          match h !! l with
          | None => Panic
          | Some n =>
              let h := <[l := set_targets n (targets n ++ [v])]> h in
              let! r := link_targets h l rest in
              Return (fst r, nv :: snd r)
          end
      end
  end.

(** The ids of the nodes behind some pointers. *)
Fixpoint opt_ids (h : heap) (vs : list (option loc)) : outcome (list uuid) :=
  match vs with
  | [] => Return []
  | None :: _ => Panic
  | Some v :: rest => match h !! v with
                      | None => Panic
                      | Some n => let! r := opt_ids h rest in Return (uid n :: r)
                      end
  end.

(** The state afterwards and whether there was no error; [linksTo] is [None]
    for nil, which skips the balances. *)
Definition addToDag (now : Z) (s : DagWorld) (l : loc) (linksTo : option (list (option loc)))
  : outcome (DagWorld * bool) :=
  match dheap s !! l with
  | None => Panic
  | Some n =>
      let! r := match linksTo with
                | None => Return (walletCache (world s), true)
                | Some _ => UpdateBalanceIfValid (w_pins (world s)) (walletCache (world s)) n
                end in
      let s := with_world s (with_walletCache (world s) (fst r)) in
      if negb (snd r) then let! _ := print_tx (ntx n) in Return (s, false)
      else
        let vs := default [] linksTo in
        let! he := link_targets (dheap s) l vs in
        match fst he !! l with
        | None => Panic
        | Some n =>
            let s := with_dheap s (<[l := set_time n now]> (fst he)) in
            let s := with_dg s (set_dag (dg s) (d_dag (dg s) ++ [l])) in
            let! ids := opt_ids (dheap s) vs in
            let s := with_dg s (lookupCacheUpdate (dg s) (uid n) l ids) in
            let! s := countConfirmed s l in
            match dheap s !! l with
            | None => Panic
            | Some n =>
                Return (with_dg s (send (dg s) {| txvl_vertex := n; txvl_edges := snd he |}), true)
            end
        end
  end.

Definition insertMissing (s : DagWorld) (l : loc) : outcome DagWorld :=
  match dheap s !! l with
  | None => Panic
  | Some n =>
      let s := with_dg s (set_dag (dg s) (d_dag (dg s) ++ [l])) in
      let! ids := node_ids (dheap s) (targets n) in
      let s := with_dg s (lookupCacheUpdate (dg s) (uid n) l ids) in
      let! e := deref (dheap s) (targets n) in
      Return (with_dg s (send (dg s) {| txvl_vertex := n; txvl_edges := e |}))
  end.

(** Errors of the insertions are only logged. *)
Fixpoint InsertIfNotExist (s : DagWorld) (vertices : list loc) : outcome DagWorld :=
  match vertices with
  | [] => Return s
  | l :: rest =>
      match dheap s !! l with
      | None => Panic
      | Some n =>
          let! x := getById (dheap s) (dg s) (uid n) false in
          match x with
          | Some _ => InsertIfNotExist s rest
          | None => let! s := insertMissing s l in InsertIfNotExist s rest
          end
      end
  end.

(** The first failure ends the insertion. *)
Fixpoint unsafe_bypassInsert (now : Z) (s : DagWorld) (vertices : list loc)
  : outcome (DagWorld * bool) :=
  match vertices with
  | [] => Return (s, true)
  | l :: rest =>
      let! r := addToDag now s l None in
      if snd r then unsafe_bypassInsert now (fst r) rest else Return r
  end.

(** ** Approval *)

(** Is the node approved?  Only logged. *)
Definition approveNode (s : DagWorld) (n : Node) : outcome bool :=
  if negb (valid n) then Return false
  else
    let! sender := GetSender (ntx n) in
    let! b := GetBalances (w_pins (world s)) (walletCache (world s)) [sender] in
    match b with
    | None => Return false
    | Some (x :: _) => Return (negb (SetBytes x <? 0))
    | Some [] => Panic
    end.

(** The loop counts the nil nodes down from [approvetx], a uint16. *)
Fixpoint approve_loop (s : DagWorld) (count : Z) (nodes : list (option loc)) : outcome Z :=
  match nodes with
  | [] => Return count
  | None :: rest => approve_loop s (wrap 16 (count - 1)) rest
  | Some l :: rest =>
      match dheap s !! l with
      | None => Panic
      | Some n => let! ok := approveNode s n in approve_loop s count rest
      end
  end.

Definition approveTx (s : DagWorld) (nodes : list (option loc)) : outcome bool :=
  if (length nodes =? 0)%nat then Return false
  else let! count := approve_loop s (Approvetx cfg) nodes in Return (count =? Approvetx cfg).

(** ** AddTxDag *)

(** The links of the candidates to their targets. *)
Fixpoint candidate_links (h : heap) (l : list loc) : outcome (list Link) :=
  match l with
  | [] => Return []
  | v :: rest =>
      match h !! v with
      | None => Panic
      | Some n => let! r := candidate_links h rest in
                  Return (map (fun t => {| l_source := v; l_target := t |}) (targets n) ++ r)
      end
  end.

(** Draw until the index differs from [c1]. *)
Fixpoint draw_other (fuel : nat) (draws : nat -> draw) (round : nat) (n c1 : Z) : option Z :=
  match fuel with
  | O => None
  | S fuel => let c2 := d_intn (draws round) n in
              if c1 =? c2 then draw_other fuel draws (S round) n c1 else Some c2
  end.

(** What the random sources return during one call. *)
Record add_draws := {
  a_shuffle : draw; a_first : draw; a_second : draw;
  a_walk1 : nat -> draw; a_walk2 : nat -> draw; a_other : nat -> draw
}.

(** The tips for a payment when the dag is wide enough; [None] when the fuel
    of a loop is used up. *)
Definition select_tips (fuel : nat) (ds : add_draws) (s : DagWorld)
  : option (outcome (heap * list (option loc))) :=
  let candidates := getTips (counter s) in
  fuel_bind (Some (candidate_links (dheap s) candidates)) (fun candidateLinks =>
  let candidates := d_shuffle (a_shuffle ds) candidates in
  if negb (bool_decide (Algorithm cfg = DagAlgo_Type DAG_ALGO_RANDOM)) then
    weightedMcmc cfg (counter s) (a_first ds) (a_second ds) (a_walk1 ds) (a_walk2 ds) (dheap s)
      candidates candidateLinks
  else
    let n := Z.of_nat (length candidates) in
    if n =? 0 then Some Panic
    else
      let c1 := d_intn (a_first ds) n in
      let tip1 := candidates !! Z.to_nat c1 in
      if n <=? 1 then Some (Return (dheap s, [tip1]))
      else match draw_other fuel (a_other ds) 0 n c1 with
           | None => None
           | Some c2 => Some (Return (dheap s, [tip1; candidates !! Z.to_nat c2]))
           end).

(** The links, ids, signatures and height of the new node. *)
Record linked := {
  k_links : list Link; k_ids : list uuid; k_signatures : gmap string bytes; k_height : Height
}.

Fixpoint link_tips (h : heap) (l : loc) (k : linked) (tips : list (option loc)) : outcome linked :=
  match tips with
  | [] => Return k
  | None :: _ => Panic
  | Some t :: rest =>
      match h !! t with
      | None => Panic
      | Some tip =>
          let! sig := GetSignature (ntx tip) in
          let hh := k_height k in
          link_tips h l
            {| k_links := k_links k ++ [{| l_source := l; l_target := t |}];
               k_ids := k_ids k ++ [uid tip];
               k_signatures := <[uuid_String (uid tip) := sig]> (k_signatures k);
               k_height :=
                 {| minheight := if minheight hh <? minheight (height tip)
                                 then to_uint64 (minheight (height tip) + 1) else minheight hh;
                    maxheight := if maxheight hh <? maxheight (height tip)
                                 then to_uint64 (maxheight (height tip) + 1) else maxheight hh |} |}
            rest
      end
  end.

(** The ids and signatures of the approved tips, or an error. *)
Definition add_result : Type := option (list uuid * gmap string bytes).

Definition refresh_weights (s : DagWorld) : outcome DagWorld :=
  if bool_decide (Algorithm cfg = DagAlgo_Type DAG_ALGO_MCMCP) then
    let! h := updateCumWeights cfg (dheap s) (d_dag (dg s)) in Return (with_dheap s h)
  else Return s.

(** The tips a new node approves: the genesis node while the dag is narrow.  A
    node that is not a payment approves none. *)
Definition tips_for (fuel : nat) (ds : add_draws) (s : DagWorld) (node : Node)
  : option (outcome (heap * list (option loc))) :=
  if GetTransactionType (ntx node) =? PAYMENT then
    match d_dag (dg s) with
    | [] => Some Panic
    | g :: rest =>
        if Z.of_nat (length rest) <? width (dg s) then Some (Return (dheap s, [Some g]))
        else select_tips fuel ds s
    end
  else Some (Return (dheap s, [])).

Definition AddTxDag (fuel : nat) (ds : add_draws) (now : Z) (s : DagWorld) (l : loc)
  : option (outcome (DagWorld * add_result)) :=
  match dheap s !! l with
  | None => Some Panic
  | Some node =>
      fuel_bind (tips_for fuel ds s node) (fun '(h, tips) =>
      let s := with_dheap s h in
      Some (
        let! ok := approveTx s tips in
        if ok then
          let! k := link_tips h l {| k_links := d_links (dg s); k_ids := []; k_signatures := ∅;
                                     k_height := {| minheight := 0; maxheight := 0 |} |} tips in
          let s := with_dg s (set_links (dg s) (k_links k)) in
          match dheap s !! l with
          | None => Panic
          | Some node =>
              let s := with_dheap s (<[l := set_height node (k_height k)]> (dheap s)) in
              let! r := addToDag now s l (Some tips) in
              if snd r then
                let! s := refresh_weights (fst r) in
                Return (s, Some (k_ids k, k_signatures k))
              else Return (fst r, None)
          end
        else
          let! s := refresh_weights s in Return (s, Some ([], ∅))))
  end.

(** ** InsertTxDag *)

Inductive InsertError :=
| ErrAddFailed | ErrMissingSources (ids : list uuid) | ErrVersionConflict | ErrInvalidBalance.

(** A new node on the heap. *)
Definition alloc (s : DagWorld) (n : Node) : DagWorld * loc :=
  let l := fresh (dom (dheap s)) in (with_dheap s (<[l := n]> (dheap s)), l).

(** The nodes of the ids: from the dag, or rebuilt from a pin; and the ids that
    are in neither. *)
Fixpoint find_candidates (s : DagWorld) (ids : list uuid)
  : outcome (DagWorld * list loc * list uuid) :=
  match ids with
  | [] => Return (s, [], [])
  | id :: rest =>
      let! x := getById (dheap s) (dg s) id true in
      match x with
      | Some l => let! r := find_candidates s rest in
                  let '(s, cs, missing) := r in Return (s, l :: cs, missing)
      | None =>
          let! p := NodeTxPin_getById (w_pins (world s)) id in
          match p with
          | Some n => let '(s, l) := alloc s n in
                      let! r := find_candidates s rest in
                      let '(s, cs, missing) := r in Return (s, l :: cs, missing)
          | None => let! r := find_candidates s rest in
                    let '(s, cs, missing) := r in Return (s, cs, id :: missing)
          end
      end
  end.

(** The approvers of all candidates. *)
Fixpoint all_approvers (h : heap) (links : list Link) (l : list loc) : outcome (list loc) :=
  match l with
  | [] => Return []
  | x :: rest => match h !! x with
                 | None => Panic
                 | Some n => let! a := getApprovers h links n in
                             let! r := all_approvers h links rest in Return (a ++ r)
                 end
  end.

(** The last approver with the same major and no smaller minor version, with
    the version after it. *)
Fixpoint version_conflict (h : heap) (iv : Node) (found : option (loc * Z * Z)) (l : list loc)
  : outcome (option (loc * Z * Z)) :=
  match l with
  | [] => Return found
  | x :: rest =>
      match h !! x with
      | None => Panic
      | Some n =>
          version_conflict h iv
            (if negb (bool_decide (uid n = uid iv)) && (idMajor (nid n) =? idMajor (nid iv))
                && (idMinor (nid iv) <=? idMinor (nid n))
             then Some (x, idMajor (nid n), to_uint32 (idMinor (nid n) + 1)) else found) rest
      end
  end.

(** What [sort.SliceStable] leaves in a slice when the comparison looks at the
    positions: [ReverseSlice]. *)
Variable ReverseSlice : list loc -> list loc.

(** The new version of the vertex and its place after [next]. *)
Definition insert_next_to (now : Z) (s : DagWorld) (l : loc) (iv : Node) (next : loc) (nextNode : Node)
    (major minor : Z) (candidates : list loc) : outcome (DagWorld * bool) :=
  let s := with_dheap s (<[l := set_nid iv {| n_id := uid iv; n_address := n_address (nid iv);
                                              idMajor := major; idMinor := minor |}]> (dheap s)) in
  let! r := find_by_id (dheap s) (d_dag (dg s)) (uid nextNode) in
  match r with
  | Some x =>
      let idx := default 0%nat (snd <$> find_first (fun y => bool_decide (y = x)) (d_dag (dg s))) in
      if (idx <? length (d_dag (dg s)) - 1)%nat then
        Return (with_dg s (set_dag (dg s) (insert_at (S idx) l (d_dag (dg s)))), true)
      else addToDag now s l (Some (map Some candidates))
  | None => addToDag now s l (Some (map Some candidates))
  end.

(** The state afterwards and the error. *)
Definition InsertTxDag (now : Z) (s : DagWorld) (l : loc) (txId : uuid) (major minor : Z)
    (ids : list uuid) : outcome (DagWorld * option InsertError) :=
  match dheap s !! l with
  | None => Panic
  | Some iv =>
      let iv := set_time (set_nid iv {| n_id := txId; n_address := n_address (nid iv);
                                        idMajor := major; idMinor := minor |}) now in
      let s := with_dheap s (<[l := iv]> (dheap s)) in
      let! known := getById (dheap s) (dg s) txId true in
      match known with
      | Some _ => Return (s, None)
      | None =>
          let! r := find_candidates s ids in
          let '(s, candidates, idsNotFound) := r in
          if negb (length candidates =? length ids)%nat then
            let iv := set_missingTargets iv
                        (fold_left (fun m id => <[uuid_String id := true]> m) idsNotFound
                           (missingTargets iv)) in
            let s := with_dheap s (<[l := iv]> (dheap s)) in
            let! r := addToDag now s l (Some (map Some candidates)) in
            Return (fst r, Some (if snd r then ErrMissingSources idsNotFound else ErrAddFailed))
          else
            let! conflict :=
              if Versioncollision cfg then
                let! approvers := all_approvers (dheap s) (d_links (dg s)) candidates in
                version_conflict (dheap s) iv None approvers
              else Return None in
            let! r :=
              match conflict with
              | Some (next, ma, mi) =>
                  match dheap s !! next with
                  | None => Panic
                  | Some nextNode =>
                      if negb (bool_decide (uid nextNode = uid iv))
                      then Return (s, Some ErrVersionConflict)
                      else
                        let! r := insert_next_to now s l iv next nextNode ma mi candidates in
                        Return (fst r, if snd r then None else Some ErrInvalidBalance)
                  end
              | None =>
                  let! r := addToDag now s l (Some (map Some candidates)) in
                  Return (fst r, if snd r then None else Some ErrInvalidBalance)
              end in
            match snd r with
            | Some e => Return (fst r, Some e)
            | None =>
                let s := fst r in
                let s := with_dg s (set_links (dg s)
                           (d_links (dg s)
                            ++ map (fun t => {| l_source := l; l_target := t |}) candidates)) in
                if bool_decide (Algorithm cfg = DagAlgo_Type DAG_ALGO_MCMCP) then
                  let nodes := ReverseSlice (d_dag (dg s)) in
                  let! h := updateCumWeights cfg (dheap s) nodes in
                  Return (with_dg (with_dheap s h) (set_dag (dg s) (ReverseSlice nodes)), None)
                else Return (s, None)
            end
      end
  end.

(** ** Relinking *)

(** The nodes of the dag that [v1] misses. *)
Fixpoint possible_targets (h : heap) (v1 : Node) (l : list loc) : outcome (list loc) :=
  match l with
  | [] => Return []
  | x :: rest =>
      match h !! x with
      | None => Panic
      | Some v2 =>
          let! r := possible_targets h v1 rest in
          Return (if bool_decide (uid v1 = uid v2) then r
                  else match missingTargets v1 !! uuid_String (uid v2) with
                       | Some _ => x :: r
                       | None => r
                       end)
      end
  end.

(** Link [l] to the targets that are still missing. *)
Fixpoint relink (h : heap) (links : list Link) (l : loc) (ts : list loc)
  : outcome (heap * list Link) :=
  match ts with
  | [] => Return (h, links)
  | t :: rest =>
      match h !! l, h !! t with
      | Some v1, Some v3 =>
          match missingTargets v1 !! uuid_String (uid v3) with
          | None => relink h links l rest
          | Some _ =>
              let v1 := set_missingTargets (set_targets v1 (targets v1 ++ [t]))
                          (delete (uuid_String (uid v3)) (missingTargets v1)) in
              relink (<[l := v1]> h) (links ++ [{| l_source := l; l_target := t |}]) l rest
          end
      | _, _ => Panic
      end
  end.

(** Relink the incomplete vertices; also the ids to request from peers. *)
Fixpoint reconcile (s : DagWorld) (incomplete : list loc) : outcome (DagWorld * list string) :=
  match incomplete with
  | [] => Return (s, [])
  | l :: rest =>
      match dheap s !! l with
      | None => Panic
      | Some v1 =>
          let! ts := possible_targets (dheap s) v1 (d_dag (dg s)) in
          let! r := relink (dheap s) (d_links (dg s)) l ts in
          let s := with_dg (with_dheap s (fst r)) (set_links (dg s) (snd r)) in
          match dheap s !! l with
          | None => Panic
          | Some v1 =>
              let! r := reconcile s rest in
              Return (fst r, map fst (map_range (missingTargets v1)) ++ snd r)
          end
      end
  end.

Fixpoint incomplete_vertices (h : heap) (l : list loc) : outcome (list loc) :=
  match l with
  | [] => Return []
  | x :: rest =>
      match h !! x with
      | None => Panic
      | Some v => let! r := incomplete_vertices h rest in
                  Return (if (0 <? size (missingTargets v))%nat then x :: r else r)
      end
  end.

Definition ReconcileMissingTargets (s : DagWorld) : outcome (DagWorld * list string) :=
  let! l := incomplete_vertices (dheap s) (d_dag (dg s)) in reconcile s l.

(** ** Confirmed sites and pins *)

Definition GetConfirmedSites (s : DagWorld) : DagWorld * list (option loc) :=
  let '(c, l) := ConfirmationCounter_pop (counter s) in (with_counter s c, l).

Definition GetTips (s : DagWorld) : list (option loc) := ConfirmationCounter_tip (counter s).

Fixpoint all_some {A} (l : list (option A)) : option (list A) :=
  match l with
  | [] => Some []
  | None :: _ => None
  | Some x :: rest => match all_some rest with Some r => Some (x :: r) | None => None end
  end.
End Dag.

Section GenPin.
Context `{CryptoLib} `{ProtoLib} `{TimestampLib} `{EthLib} `{UuidLib} `{ProtoPinLib}.
Context `{MapRange} `{!CollSet uuid}.
Variable RunCall : Storage -> pb_Txv1 -> PinTxHeader -> Storage * (CallResponse + string).
Variable coinbase : string.
Variable dagWallet : Wallet.
Variable undef : string -> Z.
(** [config.GetConfig().Tx.Maxfuellimit]. *)
Variable maxFuel : Z.

(** A nil site panics.  Announcing the pin to peers is left out. *)
Definition genPinTx (now : Z) (s : DagWorld) : outcome DagWorld :=
  let '(s, sites) := GetConfirmedSites s in
  let! smcTxs := GetAllUncofirmed undef (w_smc (world s)) (w_store (world s)) maxFuel in
  if (0 <? length sites)%nat || (0 <? length smcTxs)%nat then
    match all_some sites with
    | None => Panic
    | Some sites =>
        let! w := NodeTxPin_add RunCall coinbase dagWallet now (world s) sites smcTxs in
        Return (with_world s w)
    end
  else Return s.

(** The state and [__leaderReady__]. *)
Definition SyncUp (now : Z) (s : DagWorld) (leaderReady : bool) : outcome (DagWorld * bool) :=
  match d_dag (dg s) with
  | [] => Panic
  | _ :: rest =>
      let n := Z.of_nat (length rest) in
      if (n =? width (dg s)) || ((width (dg s) <? n) && negb leaderReady) then
        let! s := genPinTx now s in Return (s, true)
      else Return (s, leaderReady)
  end.

(** ** newDag *)

Definition INITIAL_OFFERING : Z := 10000000000000000000000000000000.

Definition set_Amount (t : Txv1) (a : bytes) : Txv1 :=
  {| Tx_Type := Tx_Type t; Chain_Type := Chain_Type t; Sender_Pubk := Sender_Pubk t;
     Sender := Sender t; Recepient := Recepient t; Amount := a; Nonce := Nonce t;
     TimestampOf := TimestampOf t; Fuel_Limit := Fuel_Limit t; Fuel_Price := Fuel_Price t;
     Data := Data t; Signature := Signature t |}.

Definition genesis_node (chaintype : Z) : outcome Node :=
  let! t := NewGenesisTxv1 chaintype dagWallet in
  let! t := Txv1_Sign (set_Amount t (Bytes INITIAL_OFFERING)) (privateKey dagWallet) in
  Return {| nid := {| n_id := uuid_Nil; n_address := ""; idMajor := 0; idMinor := 0 |};
            cumWeight := S754_zero false; txWeight := S754_finite false 4503599627370496 (-52);
            time := zero_time; valid := true; height := {| minheight := 0; maxheight := 0 |};
            ntx := ATxv1 t; sources := []; targets := []; missingTargets := ∅ |}.

(** [Init] has just created the caches, the counter and the pins of [s]. *)
Definition newDag (cfg : DagConfiguration) (chaintype : Z) (leader : bool) (now : Z) (s : DagWorld)
  : outcome DagWorld :=
  let! genesis := genesis_node chaintype in
  let empty := {| d_dag := []; mapped_vertices := ∅; d_links := []; mapped_edges := ∅;
                  d_pins := []; width := to_uint8 (Initialwidth cfg); txCh := None |} in
  if leader then
    let '(s, l) := alloc s genesis in
    let! c := ConfirmationCounter_add (dheap s) (counter s) l in
    let! p := NodeTxPin_set dagWallet now newNodeTxPin genesis (walletAddress dagWallet) in
    Return (with_world (with_counter (with_dg s
              {| d_dag := [l]; mapped_vertices := {[uid genesis := l]}; d_links := [];
                 mapped_edges := ∅; d_pins := [l]; width := to_uint8 (Initialwidth cfg);
                 txCh := None |}) c) (with_w_pins (world s) p))
  else Return (with_world (with_dg s empty) (with_w_pins (world s) newNodeTxPin)).
End GenPin.
