(* ===== verification/DagProps.v ===== *)
(** The dag stays well formed: the lookup maps, the links between nodes, the
    confirmation counter and the acyclicity of the graph, across additions,
    insertions from peers, pops and pins. *)
From S2P Require Import Prelude GoLib Bytes Tx TxRecords Storage Pool WalletCache Node Pin.
From S2P Require Import PinProps PinSync Confirmation Weights Dag.

(** ** The invariant *)

(** What the invariant looks at in a node. *)
Definition shape (n : Node) : uuid * list loc * list loc := (uid n, targets n, sources n).

Definition same_shape (h h' : heap) : Prop := forall x, shape <$> h !! x = shape <$> h' !! x.

(** A node that is linked to nothing. *)
Definition isolated (n : Node) : Prop := targets n = [] /\ sources n = [].

Section Inv.
Context `{MapRange} `{!CollSet uuid}.

Record dag_inv (s : DagWorld) : Prop := {
  inv_nodup : NoDup (d_dag (dg s));
  (** Every node of the dag is found under its id, and nothing else is. *)
  inv_dag : forall l, l ∈ d_dag (dg s) ->
    exists n, dheap s !! l = Some n /\ mapped_vertices (dg s) !! uid n = Some l;
  inv_mapped : forall id l, mapped_vertices (dg s) !! id = Some l ->
    l ∈ d_dag (dg s) /\ uid <$> dheap s !! l = Some id;
  (** Links are known at both ends. *)
  inv_targets : forall l n t, dheap s !! l = Some n -> t ∈ targets n ->
    exists m, dheap s !! t = Some m /\ l ∈ sources m;
  inv_sources : forall l n x, dheap s !! l = Some n -> x ∈ sources n ->
    exists m, dheap s !! x = Some m /\ l ∈ targets m;
  (** The graph has no cycles. *)
  inv_acyclic : exists rank : loc -> nat, forall l n t,
    dheap s !! l = Some n -> t ∈ targets n -> (rank t < rank l)%nat;
  inv_links : Forall (fun k => is_Some (dheap s !! l_source k) /\ is_Some (dheap s !! l_target k))
    (d_links (dg s));
  (** The edges of a node are the ids of its targets. *)
  inv_edges : forall l n, l ∈ d_dag (dg s) -> dheap s !! l = Some n ->
    node_ids (dheap s) (targets n) = Return (default [] (mapped_edges (dg s) !! uid n));
  inv_no_edges : forall id, mapped_vertices (dg s) !! id = None -> mapped_edges (dg s) !! id = None;
  (** The counter knows nodes of the dag only. *)
  inv_cache : forall id l, cc_cache (counter s) !! id = Some l ->
    mapped_vertices (dg s) !! id = Some l
}.

Lemma shape_lookup h h' x n :
  same_shape h h' -> h' !! x = Some n ->
  exists m, h !! x = Some m /\ uid m = uid n /\ targets m = targets n /\ sources m = sources n.
Proof.
  intros Hs Hx. specialize (Hs x). rewrite Hx in Hs. destruct (h !! x) as [m|]; [|done].
  unfold shape in Hs. simpl in Hs. exists m. by simplify_eq.
Qed.

Lemma same_shape_sym h h' : same_shape h h' -> same_shape h' h.
Proof. by intros Hs x. Qed.

(** The ids of nodes depend on nothing else of the nodes. *)
Lemma node_ids_uids h h' l :
  (forall x, uid <$> h !! x = uid <$> h' !! x) -> node_ids h l = node_ids h' l.
Proof.
  intros Hu. induction l as [|x l IH]; simpl; [done|]. rewrite IH. specialize (Hu x).
  destruct (h !! x) as [a|], (h' !! x) as [b|]; simpl in Hu; try done. by injection Hu as ->.
Qed.

Lemma node_ids_shape h h' l : same_shape h h' -> node_ids h l = node_ids h' l.
Proof.
  intros Hs. induction l as [|x l IH]; simpl; [done|]. rewrite IH. specialize (Hs x).
  destruct (h !! x) as [a|], (h' !! x) as [b|]; simpl in Hs; try done.
  injection Hs as Hu _ _. by rewrite Hu.
Qed.

(** The invariant depends on the shapes, the dag and the counter's cache. *)
Lemma dag_inv_shape s s' :
  dag_inv s -> same_shape (dheap s) (dheap s') -> d_dag (dg s') ≡ₚ d_dag (dg s) ->
  mapped_vertices (dg s') = mapped_vertices (dg s) -> mapped_edges (dg s') = mapped_edges (dg s) ->
  d_links (dg s') = d_links (dg s) -> cc_cache (counter s') = cc_cache (counter s) -> dag_inv s'.
Proof.
  intros [I1 I2 I3 I4 I5 [rank I6] I7 I8 I9 I10] Hs Hd Hv He Hl Hc.
  pose proof (fun x n => shape_lookup _ _ x n Hs) as Hback.
  pose proof (fun x n => shape_lookup _ _ x n (same_shape_sym _ _ Hs)) as Hfwd.
  split.
  - by rewrite Hd.
  - intros l Hin. rewrite Hd in Hin. destruct (I2 l Hin) as (n & Hn & Hm).
    destruct (Hfwd l n Hn) as (m & Hm' & Hu & _). exists m. split; [done|]. by rewrite Hv, Hu.
  - intros id l Hin. rewrite Hv in Hin. rewrite Hd. destruct (I3 id l Hin) as [? Hu]. split; [done|].
    rewrite <- Hu. specialize (Hs l). destruct (dheap s !! l), (dheap s' !! l); simpl in *; try done.
    unfold shape in Hs. congruence.
  - intros l n t Hn Ht. destruct (Hback l n Hn) as (m & Hm & _ & Htg & _). rewrite <- Htg in Ht.
    destruct (I4 l m t Hm Ht) as (mt & Hmt & Hin). destruct (Hfwd t mt Hmt) as (m' & Hm' & _ & _ & Hso).
    exists m'. split; [done|]. by rewrite Hso.
  - intros l n x Hn Hx. destruct (Hback l n Hn) as (m & Hm & _ & _ & Hso). rewrite <- Hso in Hx.
    destruct (I5 l m x Hm Hx) as (mx & Hmx & Hin). destruct (Hfwd x mx Hmx) as (m' & Hm' & _ & Htg & _).
    exists m'. split; [done|]. by rewrite Htg.
  - exists rank. intros l n t Hn Ht. destruct (Hback l n Hn) as (m & Hm & _ & Htg & _).
    apply (I6 l m t Hm). by rewrite Htg.
  - rewrite Hl. eapply Forall_impl; [exact I7|]. intros k [[a Ha] [b Hb]].
    destruct (Hfwd _ _ Ha) as (? & ? & _), (Hfwd _ _ Hb) as (? & ? & _). eauto.
  - intros l n Hin Hn. rewrite Hd in Hin. destruct (Hback l n Hn) as (m & Hm & Hu & Htg & _).
    rewrite <- (node_ids_shape _ _ _ Hs), He, <- Hu, <- Htg. by apply (I8 l m).
  - intros id. rewrite Hv, He. apply I9.
  - intros id l. rewrite Hc, Hv. apply I10.
Qed.

(** Nothing points at an isolated node. *)
Lemma isolated_no_target s l n x m :
  dag_inv s -> dheap s !! l = Some n -> isolated n -> dheap s !! x = Some m -> l ∉ targets m.
Proof.
  intros I Hl [_ Hs] Hx Hin. destruct (inv_targets s I x m l Hx Hin) as (n' & Hn' & Hin').
  simplify_eq. rewrite Hs in Hin'. by apply not_elem_of_nil in Hin'.
Qed.

Lemma isolated_no_source s l n x m :
  dag_inv s -> dheap s !! l = Some n -> isolated n -> dheap s !! x = Some m -> l ∉ sources m.
Proof.
  intros I Hl [Ht _] Hx Hin. destruct (inv_sources s I x m l Hx Hin) as (n' & Hn' & Hin').
  simplify_eq. rewrite Ht in Hin'. by apply not_elem_of_nil in Hin'.
Qed.

Lemma node_ids_ne h l n ts :
  l ∉ ts -> node_ids (<[l := n]> h) ts = node_ids h ts.
Proof.
  induction ts as [|t ts IH]; intros Hl; simpl; [done|].
  rewrite lookup_insert_ne by set_solver. by rewrite IH by set_solver.
Qed.

(** A node outside the dag that nothing is linked to may change or appear. *)
Lemma inv_set_isolated s l n :
  dag_inv s -> l ∉ d_dag (dg s) ->
  (dheap s !! l = None \/ (exists n0, dheap s !! l = Some n0 /\ isolated n0)) -> isolated n ->
  dag_inv (with_dheap s (<[l := n]> (dheap s))).
Proof.
  intros I Hl Hold [Ht Hs].
  assert (forall x m, x <> l -> dheap s !! x = Some m -> l ∉ targets m /\ l ∉ sources m) as Hno.
  { intros x m Hx Hm. destruct Hold as [Hnone|(n0 & Hn0 & Hi)].
    - split; intros Hin; [destruct (inv_targets s I x m l Hm Hin) as (? & ? & _)
                         |destruct (inv_sources s I x m l Hm Hin) as (? & ? & _)]; congruence.
    - split; [by eapply isolated_no_target|by eapply isolated_no_source]. }
  destruct I as [I1 I2 I3 I4 I5 [rank I6] I7 I8 I9 I10].
  split; cbn [dg counter with_dheap with_world dheap world w_heap with_heap]; try done.
  - intros x Hx. rewrite lookup_insert_ne by congruence. by apply I2.
  - intros id x Hx. destruct (I3 id x Hx). rewrite lookup_insert_ne by congruence. done.
  - intros x m t [[<- <-]|[Hne Hm]]%lookup_insert_Some Hin; [rewrite Ht in Hin; set_solver|].
    destruct (I4 x m t Hm Hin) as (m' & Hm' & Hin'). exists m'. split; [|done].
    rewrite lookup_insert_ne; [done|]. intros <-. by eapply (proj1 (Hno x m (not_eq_sym Hne) Hm)).
  - intros x m t [[<- <-]|[Hne Hm]]%lookup_insert_Some Hin; [rewrite Hs in Hin; set_solver|].
    destruct (I5 x m t Hm Hin) as (m' & Hm' & Hin'). exists m'. split; [|done].
    rewrite lookup_insert_ne; [done|]. intros <-. by eapply (proj2 (Hno x m (not_eq_sym Hne) Hm)).
  - exists rank. intros x m t [[<- <-]|[Hne Hm]]%lookup_insert_Some Hin; [rewrite Ht in Hin; set_solver|].
    by eapply I6.
  - eapply Forall_impl; [exact I7|]. intros k [[a Ha] [b Hb]].
    split; apply lookup_insert_is_Some; destruct (decide (l = l_source k)), (decide (l = l_target k)); eauto.
  - intros x m Hx [[-> _]|[Hne Hm]]%lookup_insert_Some; [done|].
    rewrite node_ids_ne; [by apply (I8 x m)|]. apply (Hno x m); [congruence|done].
Qed.

(** ** Linking *)

(** How often [x] is in [l]. *)
Definition times {A} `{EqDecision A} (x : A) (l : list A) : nat :=
  length (List.filter (fun y => bool_decide (y = x)) l).

Lemma times_in {A} `{EqDecision A} (x : A) l : x ∈ l <-> (0 < times x l)%nat.
Proof.
  unfold times. induction l as [|y l IH]; simpl.
  - split; [by intros ?%not_elem_of_nil|lia].
  - rewrite elem_of_cons. case_bool_decide; simpl; [split; [lia|]; intros; left; congruence|].
    rewrite <- IH. split; [|tauto]. intros [->|]; [done|done].
Qed.

(** What [link_targets] leaves: the new node has the targets, and each target
    has the new node among its sources as often as it was given. *)
Lemma link_targets_spec l : forall vs h n h' es,
  h !! l = Some n -> Some l ∉ vs -> link_targets h l vs = Return (h', es) ->
  exists ts, vs = map Some ts
  /\ h' !! l = Some (set_targets n (targets n ++ ts))
  /\ (forall x, x <> l -> h' !! x = (fun m => set_sources m (sources m ++ replicate (times x ts) l))
                                    <$> h !! x)
  /\ Forall (fun t => is_Some (h !! t)) ts
  /\ node_ids h ts = Return (map uid es).
Proof.
  induction vs as [|[v|] vs IH]; intros h n h' es Hl Hnin; cbn [link_targets]; [| |done].
  - intros [= <- <-]. exists []. rewrite app_nil_r. split; [done|]. split; [by destruct n|].
    split; [|split; [constructor|done]]. intros x _. cbn. destruct (h !! x) as [m|]; [|done]. simpl.
    rewrite app_nil_r. by destruct m.
  - assert (v <> l) as Hvl by (intros ->; apply Hnin; left).
    destruct (h !! v) as [nv|] eqn:Ev; [|done]. rewrite lookup_insert_ne, Hl by done.
    destruct (link_targets _ _ vs) as [[h2 es2]|] eqn:E; simpl; [|done]. intros [= <- <-].
    apply (IH _ (set_targets n (targets n ++ [v]))) in E as (ts & -> & Hl2 & Hx2 & Hall & Hes);
      [|by rewrite lookup_insert_eq|set_solver].
    exists (v :: ts). split; [done|]. split; [|split; [|split]].
    + rewrite Hl2. f_equal. destruct n; unfold set_targets; simpl. by rewrite <- app_assoc.
    + intros x Hx. rewrite Hx2 by done. rewrite lookup_insert_ne by done. unfold times. cbn [List.filter].
      destruct (decide (v = x)) as [->|Hvx].
      * rewrite lookup_insert_eq, Ev, bool_decide_true by done. simpl. f_equal.
        unfold set_sources. simpl. by rewrite <- app_assoc.
      * rewrite lookup_insert_ne, bool_decide_false by done. done.
    + constructor; [by eexists|]. eapply Forall_impl; [exact Hall|]. intros t [m Hm].
      destruct (decide (t = l)) as [->|]; [by eexists|]. rewrite lookup_insert_ne in Hm by done.
      destruct (decide (t = v)) as [->|]; [by eexists|]. rewrite lookup_insert_ne in Hm by done. by eexists.
    + cbn [node_ids]. rewrite Ev. erewrite node_ids_uids; [by rewrite Hes|]. intros x.
      destruct (decide (x = l)) as [->|]; [by rewrite lookup_insert_eq, Hl|]. rewrite lookup_insert_ne by done.
      destruct (decide (x = v)) as [->|]; [by rewrite lookup_insert_eq, Ev|]. by rewrite lookup_insert_ne.
Qed.

Lemma opt_ids_node_ids h ts : opt_ids h (map Some ts) = node_ids h ts.
Proof.
  induction ts as [|t ts IH]; simpl; [done|]. destruct (h !! t); [|done]. by rewrite IH.
Qed.

(** The heap [h'] is [h] with the new node at [l], of shape [(id, ts, [])]. *)
Record linked_heap (h h' : heap) (l : loc) (id : uuid) (ts : list loc) : Prop := {
  lh_new : shape <$> h' !! l = Some (id, ts, []);
  lh_old : forall x, x <> l ->
    shape <$> h' !! x
    = (fun m => (uid m, targets m, sources m ++ replicate (times x ts) l)) <$> h !! x;
  lh_fresh : l ∉ ts;
  lh_all : Forall (fun t => is_Some (h !! t)) ts
}.

Lemma lh_lookup h h' l id ts x m' :
  linked_heap h h' l id ts -> x <> l -> h' !! x = Some m' ->
  exists m, h !! x = Some m /\ uid m' = uid m /\ targets m' = targets m
  /\ sources m' = sources m ++ replicate (times x ts) l.
Proof.
  intros L Hx Hm. pose proof (lh_old _ _ _ _ _ L x Hx) as E. rewrite Hm in E.
  destruct (h !! x) as [m|]; simpl in E; [|done]. exists m. unfold shape in E. by simplify_eq.
Qed.

Lemma lh_lookup_fwd h h' l id ts x m :
  linked_heap h h' l id ts -> x <> l -> h !! x = Some m ->
  exists m', h' !! x = Some m' /\ uid m' = uid m /\ targets m' = targets m
  /\ sources m' = sources m ++ replicate (times x ts) l.
Proof.
  intros L Hx Hm. pose proof (lh_old _ _ _ _ _ L x Hx) as E. rewrite Hm in E.
  destruct (h' !! x) as [m'|]; simpl in E; [|done]. exists m'. unfold shape in E. by simplify_eq.
Qed.

Lemma lh_node_ids h h' l id ts l0 :
  linked_heap h h' l id ts -> l ∉ l0 -> node_ids h' l0 = node_ids h l0.
Proof.
  intros L. induction l0 as [|x l0 IH]; intros Hl; simpl; [done|]. rewrite IH by set_solver.
  destruct (h' !! x) as [m'|] eqn:E'.
  - destruct (lh_lookup _ _ _ _ _ x m' L) as (m & -> & -> & _); [set_solver|done|done].
  - destruct (h !! x) as [m|] eqn:E; [|done].
    destruct (lh_lookup_fwd _ _ _ _ _ x m L) as (m' & Hm' & _); [set_solver|done|congruence].
Qed.

(** The hypotheses on the state [s'] after the new node was linked. *)
Section Linked.
Variables (s s' : DagWorld) (l : loc) (n : Node) (ts : list loc) (ids : list uuid).
Hypothesis I : dag_inv s.
Hypothesis Hl : dheap s !! l = Some n.
Hypothesis Hiso : isolated n.
Hypothesis Hnin : l ∉ d_dag (dg s).
Hypothesis Hnew : mapped_vertices (dg s) !! uid n = None.
Hypothesis L : linked_heap (dheap s) (dheap s') l (uid n) ts.
Hypothesis Hids : node_ids (dheap s') ts = Return ids.
Hypothesis Hd : d_dag (dg s') = d_dag (dg s) ++ [l].
Hypothesis Hv : mapped_vertices (dg s') = <[uid n := l]> (mapped_vertices (dg s)).
Hypothesis He : mapped_edges (dg s')
  = <[uid n := default [] (mapped_edges (dg s) !! uid n) ++ ids]> (mapped_edges (dg s)).
Hypothesis Hk : d_links (dg s') = d_links (dg s).
Hypothesis Hc : cc_cache (counter s') ⊆ <[uid n := l]> (cc_cache (counter s)).

Lemma new_node : exists n', dheap s' !! l = Some n' /\ uid n' = uid n /\ targets n' = ts /\ sources n' = [].
Proof.
  pose proof (lh_new _ _ _ _ _ L) as E. destruct (dheap s' !! l) as [n'|]; [|done].
  exists n'. simpl in E. unfold shape in E. by simplify_eq.
Qed.

Lemma other_ids x m : dheap s !! x = Some m -> x ∈ d_dag (dg s) -> uid m <> uid n.
Proof.
  intros Hm Hin Eu. destruct (inv_dag s I x Hin) as (m2 & Hm2 & Hmap). simplify_eq. congruence.
Qed.

Lemma linked_targets x m t :
  dheap s' !! x = Some m -> t ∈ targets m -> exists m', dheap s' !! t = Some m' /\ x ∈ sources m'.
Proof.
  intros Hx Ht. destruct (decide (x = l)) as [->|Hxl].
  - destruct new_node as (n' & Hl' & _ & Htn & _). rewrite Hl' in Hx. injection Hx as <-.
    rewrite Htn in Ht. pose proof (lh_all _ _ _ _ _ L) as Hall. rewrite Forall_forall in Hall.
    destruct (Hall t Ht) as [mt Hmt]. assert (t <> l) by (pose proof (lh_fresh _ _ _ _ _ L); congruence).
    destruct (lh_lookup_fwd _ _ _ _ _ t mt L) as (m' & Hm' & _ & _ & Hs); [done|done|].
    exists m'. split; [done|]. rewrite Hs. apply elem_of_app. right. apply elem_of_replicate.
    apply times_in in Ht. split; [done|lia].
  - destruct (lh_lookup _ _ _ _ _ x m L) as (m0 & Hm0 & _ & Htg & _); [done|done|]. rewrite Htg in Ht.
    destruct (inv_targets s I x m0 t Hm0 Ht) as (mt & Hmt & Hin).
    assert (t <> l) by (intros ->; by apply (isolated_no_target s l n x m0 I)).
    destruct (lh_lookup_fwd _ _ _ _ _ t mt L) as (m' & Hm' & _ & _ & Hs); [done|done|].
    exists m'. split; [done|]. rewrite Hs. set_solver.
Qed.

Lemma linked_sources x m y :
  dheap s' !! x = Some m -> y ∈ sources m -> exists m', dheap s' !! y = Some m' /\ x ∈ targets m'.
Proof.
  intros Hx Hy. destruct new_node as (n' & Hl' & _ & Htn & Hsn). destruct (decide (x = l)) as [->|Hxl].
  - rewrite Hl' in Hx. injection Hx as <-. rewrite Hsn in Hy. set_solver.
  - destruct (lh_lookup _ _ _ _ _ x m L) as (m0 & Hm0 & _ & _ & Hs); [done|done|]. rewrite Hs in Hy.
    apply elem_of_app in Hy as [Hy|[-> Hpos]%elem_of_replicate].
    + destruct (inv_sources s I x m0 y Hm0 Hy) as (my & Hmy & Hin). assert (y <> l).
      { intros ->. simplify_eq. destruct Hiso as [Ht0 _]. rewrite Ht0 in Hin. set_solver. }
      destruct (lh_lookup_fwd _ _ _ _ _ y my L) as (m' & Hm' & _ & Htg & _); [done|done|].
      exists m'. split; [done|]. by rewrite Htg.
    + exists n'. split; [done|]. rewrite Htn. apply times_in. lia.
Qed.

Lemma linked_acyclic : exists rank : loc -> nat, forall x m t,
  dheap s' !! x = Some m -> t ∈ targets m -> (rank t < rank x)%nat.
Proof.
  destruct (inv_acyclic s I) as [rank Hrank].
  exists (fun x => if decide (x = l) then S (list_max (map rank ts)) else rank x).
  intros x m t Hx Ht. destruct (decide (x = l)) as [->|Hxl].
  - destruct new_node as (n' & Hl' & _ & Htn & _). rewrite Hl' in Hx. injection Hx as <-.
    rewrite Htn in Ht. rewrite decide_False by (pose proof (lh_fresh _ _ _ _ _ L); congruence).
    pose proof (proj1 (list_max_le (map rank ts) _) (Nat.le_refl _)) as Hmax.
    rewrite Forall_forall in Hmax. apply Nat.lt_succ_r, Hmax. apply list_elem_of_fmap. eauto.
  - destruct (lh_lookup _ _ _ _ _ x m L) as (m0 & Hm0 & _ & Htg & _); [done|done|]. rewrite Htg in Ht.
    rewrite decide_False; [by eapply Hrank|]. intros ->. by apply (isolated_no_target s l n x m0 I).
Qed.

Lemma linked_edges x m :
  x ∈ d_dag (dg s') -> dheap s' !! x = Some m ->
  node_ids (dheap s') (targets m) = Return (default [] (mapped_edges (dg s') !! uid m)).
Proof.
  intros Hx Hm. rewrite Hd in Hx. rewrite He.
  apply elem_of_app in Hx as [Hx| ->%list_elem_of_singleton].
  - assert (x <> l) by congruence.
    destruct (lh_lookup _ _ _ _ _ x m L) as (m0 & Hm0 & Hu & Htg & _); [done|done|].
    rewrite Hu, lookup_insert_ne, Htg by (intros E; by apply (other_ids x m0)).
    rewrite (lh_node_ids _ _ _ _ _ _ L);
      [by apply (inv_edges s I x m0)|by apply (isolated_no_target s l n x m0 I)].
  - destruct new_node as (n' & Hl' & Hun & Htn & _). rewrite Hl' in Hm. injection Hm as <-.
    rewrite Hun, lookup_insert_eq, Htn. simpl. by rewrite (inv_no_edges s I _ Hnew).
Qed.

Lemma linked_lookup :
  (forall x, x ∈ d_dag (dg s') ->
     exists m, dheap s' !! x = Some m /\ mapped_vertices (dg s') !! uid m = Some x)
  /\ (forall id x, mapped_vertices (dg s') !! id = Some x ->
       x ∈ d_dag (dg s') /\ uid <$> dheap s' !! x = Some id).
Proof.
  destruct new_node as (n' & Hl' & Hun & _). split.
  - intros x Hx. rewrite Hd in Hx. rewrite Hv. apply elem_of_app in Hx as [Hx| ->%list_elem_of_singleton].
    + destruct (inv_dag s I x Hx) as (m & Hm & Hmap). assert (x <> l) by congruence.
      destruct (lh_lookup_fwd _ _ _ _ _ x m L) as (m' & Hm' & Hu & _); [done|done|].
      exists m'. split; [done|]. rewrite Hu, lookup_insert_ne; [done|].
      intros E. by apply (other_ids x m).
    + exists n'. split; [done|]. by rewrite Hun, lookup_insert_eq.
  - intros id x. rewrite Hv, Hd. intros [[<- <-]|[Hne Hx]]%lookup_insert_Some.
    + split; [set_solver|]. rewrite Hl'. simpl. by rewrite Hun.
    + destruct (inv_mapped s I id x Hx) as [Hin Hu]. split; [set_solver|]. assert (x <> l) by congruence.
      destruct (dheap s !! x) as [m|] eqn:Hm; [|done]. simpl in Hu.
      destruct (lh_lookup_fwd _ _ _ _ _ x m L) as (m' & -> & Hum & _); [done|done|]. simpl. congruence.
Qed.

Lemma linked_links :
  Forall (fun k => is_Some (dheap s' !! l_source k) /\ is_Some (dheap s' !! l_target k))
    (d_links (dg s')).
Proof.
  rewrite Hk. eapply Forall_impl; [exact (inv_links s I)|]. intros k [[a Ha] [b Hb]].
  assert (forall y v, dheap s !! y = Some v -> is_Some (dheap s' !! y)) as Hsome.
  { intros y v Hy. destruct (decide (y = l)) as [->|].
    - destruct new_node as (n' & -> & _). by eexists.
    - destruct (lh_lookup_fwd _ _ _ _ _ y v L) as (m' & -> & _); [done|done|]. by eexists. }
  split; by eapply Hsome.
Qed.

Lemma inv_linked : dag_inv s'.
Proof.
  destruct linked_lookup as [Hdag Hmapped]. split; [|exact Hdag|exact Hmapped|exact linked_targets
    |exact linked_sources|exact linked_acyclic|exact linked_links|exact linked_edges| |].
  - rewrite Hd. apply NoDup_app. split; [apply I|]. split; [|apply NoDup_singleton]. set_solver.
  - intros id. rewrite Hv, He. intros [Hn Hne]%lookup_insert_None.
    rewrite lookup_insert_ne by done. by apply (inv_no_edges s I).
  - intros id x Hx0. rewrite Hv. apply (lookup_weaken _ _ _ _ Hx0) in Hc. revert Hc.
    intros [[<- <-]|[Hne Hx]]%lookup_insert_Some.
    + by rewrite lookup_insert_eq.
    + rewrite lookup_insert_ne by done. by apply (inv_cache s I).
Qed.
End Linked.
End Inv.

(** ** Operations keep the invariant *)

Section Ops.
Context `{CryptoLib} `{ProtoLib} `{TimestampLib} `{EthLib} `{UuidLib}.
Context `{Goterators} `{MathLib} `{MapRange} `{!CollSet uuid}.
Variable cfg : DagConfiguration.

Lemma fold_approve_cache vid tids : forall c,
  cc_cache (fold_left (approve_target vid) tids c) = cc_cache c.
Proof.
  induction tids as [|t tids IH]; intros c; simpl; [done|]. rewrite IH.
  unfold approve_target. by case_match.
Qed.

Lemma counter_add_cache h c l c' :
  ConfirmationCounter_add h c l = Return c' ->
  exists n, h !! l = Some n /\ cc_cache c' = <[uid n := l]> (cc_cache c).
Proof.
  unfold ConfirmationCounter_add. destruct (h !! l) as [n|]; [|done].
  destruct (node_ids h (targets n)); simpl; [|done]. intros [= <-]. exists n. split; [done|].
  unfold count_vertex. by rewrite fold_approve_cache.
Qed.

(** What [addToDag] did: the node [l] approves [ts]. *)
Record added (s s' : DagWorld) (l : loc) (n : Node) (ts : list loc) : Prop := {
  added_inv : dag_inv s';
  added_dag : d_dag (dg s') = d_dag (dg s) ++ [l];
  added_mapped : mapped_vertices (dg s') = <[uid n := l]> (mapped_vertices (dg s));
  added_links : d_links (dg s') = d_links (dg s);
  added_node : exists n', dheap s' !! l = Some n' /\ uid n' = uid n /\ targets n' = ts
               /\ ntx n' = ntx n /\ height n' = height n /\ valid n' = valid n /\ nid n' = nid n;
  added_pins : w_pins (world s') = w_pins (world s);
  added_heap : linked_heap (dheap s) (dheap s') l (uid n) ts;
  (** The watcher is told. *)
  added_sent : exists x,
    txCh (dg s') = (fun sent => sent ++ [x]) <$> txCh (dg s)
    /\ uid (txvl_vertex x) = uid n /\ node_ids (dheap s) ts = Return (map uid (txvl_edges x))
}.

(** A refused node leaves the graph and the counter alone. *)
Record refused (s s' : DagWorld) : Prop := {
  refused_dag : dg s' = dg s;
  refused_counter : counter s' = counter s;
  refused_heap : dheap s' = dheap s;
  refused_pins : w_pins (world s') = w_pins (world s)
}.

(** What a node needs to be added. *)
Record addable (s : DagWorld) (l : loc) (n : Node) : Prop := {
  addable_node : dheap s !! l = Some n;
  addable_isolated : isolated n;
  addable_new : l ∉ d_dag (dg s);
  addable_id : mapped_vertices (dg s) !! uid n = None
}.

(** The balances [addToDag] starts with. *)
Definition settle (s : DagWorld) (n : Node) (linksTo : option (list (option loc)))
  : outcome (WalletCache * bool) :=
  match linksTo with
  | None => Return (walletCache (world s), true)
  | Some _ => UpdateBalanceIfValid (w_pins (world s)) (walletCache (world s)) n
  end.

Lemma addToDag_spec now s l n lt s' ok :
  dag_inv s -> addable s l n -> Some l ∉ default [] lt ->
  addToDag now s l lt = Return (s', ok) ->
  settle s n lt = Return (walletCache (world s'), ok)
  /\ if ok then exists ts, default [] lt = map Some ts /\ added s s' l n ts else refused s s'.
Proof.
  intros I [Hl Hiso Hnin Hid] Hself. unfold addToDag. rewrite Hl. fold (settle s n lt).
  destruct (settle s n lt) as [[wc okb]|]; simpl; [|done].
  destruct okb; simpl; [|by destruct (print_tx _); [intros [= <- <-]|]].
  destruct (link_targets _ l _) as [[h1 es]|] eqn:E; simpl; [|done].
  apply (link_targets_spec l _ _ n) in E as (ts & Hts & Hl1 & Hx1 & Hall & Hes); [|done|done].
  rewrite Hl1. rewrite Hts, opt_ids_node_ids.
  set (n1 := set_time (set_targets n (targets n ++ ts)) now).
  match goal with |- context [node_ids ?h ts] => destruct (node_ids h ts) as [ids|] eqn:Eids end; simpl; [|done].
  destruct (countConfirmed _ l) as [s2|] eqn:Ecc; simpl; [|done].
  unfold countConfirmed in Ecc. destruct (ConfirmationCounter_add _ _ l) as [c2|] eqn:Eadd; simpl in Ecc; [|done].
  injection Ecc as <-. apply counter_add_cache in Eadd as (n2 & Hn2 & Hcache).
  change ((<[l := n1]> h1) !! l = Some n2) in Hn2. rewrite lookup_insert_eq in Hn2.
  injection Hn2 as <-.
  match goal with |- match ?m with _ => _ end = _ -> _ => change m with ((<[l := n1]> h1) !! l) end.
  rewrite lookup_insert_eq. intros [= <- <-]. split; [done|]. exists ts. split; [done|].
  destruct Hiso as [Ht0 Hs0] eqn:Eiso. clear Eiso.
  assert (linked_heap (dheap s) (<[l := n1]> h1) l (uid n) ts) as L.
  { split; [rewrite lookup_insert_eq; unfold shape; simpl; by rewrite Ht0, Hs0| | |exact Hall].
    - intros x Hx. rewrite lookup_insert_ne, Hx1 by done.
      unfold dheap. cbn. by destruct (w_heap (world s) !! x).
    - intros Hin. apply Hself. rewrite Hts. apply list_elem_of_fmap. eauto. }
  split; unfold send; cbn; try (by destruct (txCh (dg s))).
  - eapply (inv_linked s _ l n ts ids); [done|done|done|done|done|exact L|exact Eids|..];
      unfold send; cbn; destruct (txCh (dg s)); cbn; try done; by rewrite Hcache.
  - exists n1. rewrite lookup_insert_eq. split; [done|]. simpl. by rewrite Ht0.
  - exists {| txvl_vertex := n1; txvl_edges := es |}. split; [destruct (txCh (dg s)) eqn:Etx; cbn; rewrite ?Etx; reflexivity|done].
Qed.

(** ** What an operation leaves alone *)

(** A node outside the dag that is linked to nothing. *)
Definition outside (s : DagWorld) (x : loc) : Prop :=
  (exists n, dheap s !! x = Some n /\ isolated n) /\ x ∉ d_dag (dg s).

(** The operation on the node [l] keeps the invariant and the other nodes
    outside the dag. *)
Record kept (s s' : DagWorld) (l : option loc) : Prop := {
  kept_inv : dag_inv s';
  kept_outside : forall x, l <> Some x -> outside s x -> outside s' x
}.

Lemma outside_shape s s' x :
  same_shape (dheap s) (dheap s') -> (forall y, y ∈ d_dag (dg s') -> y ∈ d_dag (dg s)) ->
  outside s x -> outside s' x.
Proof.
  intros Hsh Hd [(n & Hn & Ht & Hs) Hx]. split; [|by intros ?%Hd].
  destruct (shape_lookup _ _ x n (same_shape_sym _ _ Hsh) Hn) as (n' & ? & _ & Ht' & Hs').
  exists n'. split; [done|]. split; congruence.
Qed.

Lemma outside_added s s' l n ts x :
  added s s' l n ts -> x ∉ ts -> x <> l -> outside s x -> outside s' x.
Proof.
  intros [_ Hd _ _ _ _ L _] Hts Hx [(m & Hm & Ht & Hs) Hxd].
  destruct (lh_lookup_fwd _ _ _ _ _ x m L Hx Hm) as (m' & Hm' & _ & Ht' & Hs').
  assert (times x ts = 0%nat) as Ex by (pose proof (proj2 (times_in x ts)) as Hp; destruct (times x ts); [done|];
    exfalso; apply Hts, Hp; lia).
  split; [|rewrite Hd; set_solver]. exists m'. split; [done|].
  rewrite Ex in Hs'. split; [congruence|]. by rewrite Hs', Hs.
Qed.

Lemma kept_refl s l : dag_inv s -> kept s s l.
Proof. by split. Qed.

Lemma kept_trans s s1 s2 l : kept s s1 l -> kept s1 s2 l -> kept s s2 l.
Proof. intros [_ H1'] [I H2']. split; [done|]. intros x Hx Ho. by apply H2', H1'. Qed.

(** ** Weights, tips and links *)

(** The cumulative weights change nothing else of a node. *)
Lemma cumWeights_field {A} (f : Node -> A) l : (forall n c, f (set_cumWeight n c) = f n) ->
  forall h h', cumWeights_loop cfg h l = Return h' -> forall x, f <$> h !! x = f <$> h' !! x.
Proof.
  intros Hf. induction l as [|x l IH]; intros h h'; cbn [cumWeights_loop]; [by intros [= <-] y|].
  destruct (h !! x) as [n|] eqn:E; [|done]. destruct (sum_cumWeights _ _ _); simpl; [|done].
  intros Hh y. rewrite <- (IH _ _ Hh y). destruct (decide (x = y)) as [<-|].
  - by rewrite lookup_insert_eq, E; simpl; rewrite Hf.
  - by rewrite lookup_insert_ne.
Qed.

Lemma cumWeights_shape l h h' : cumWeights_loop cfg h l = Return h' -> same_shape h h'.
Proof. intros E x. by eapply (cumWeights_field shape). Qed.

Lemma refresh_weights_field {A} (f : Node -> A) s s' : (forall n c, f (set_cumWeight n c) = f n) ->
  refresh_weights cfg s = Return s' -> forall x, f <$> dheap s !! x = f <$> dheap s' !! x.
Proof.
  intros Hf. unfold refresh_weights. case_bool_decide; [|by intros [= <-]].
  destruct (updateCumWeights _ _ _) as [h|] eqn:E; simpl; [|done]. intros [= <-].
  by eapply cumWeights_field.
Qed.

Lemma refresh_weights_spec s s' :
  dag_inv s -> refresh_weights cfg s = Return s' ->
  dag_inv s' /\ dg s' = dg s /\ counter s' = counter s /\ same_shape (dheap s) (dheap s')
  /\ walletCache (world s') = walletCache (world s) /\ w_pins (world s') = w_pins (world s).
Proof.
  intros I. unfold refresh_weights. case_bool_decide; [|by intros [= <-]].
  destruct (updateCumWeights _ _ _) as [h|] eqn:E; simpl; [|done]. intros [= <-].
  apply cumWeights_shape in E. split; [|done]. by apply (dag_inv_shape s).
Qed.

Lemma elem_of_getTips s l :
  dag_inv s -> l ∈ getTips (counter s) ->
  exists n, dheap s !! l = Some n /\ isTip (counter s) (uid n) = true /\ l ∈ d_dag (dg s).
Proof.
  intros I. unfold getTips. intros ([k e] & Hke & Hk)%list_elem_of_omap. simpl in Hk.
  apply elem_of_map_range in Hke. apply (inv_cache s I) in Hk.
  destruct (inv_mapped s I k l Hk) as [Hin Hu]. destruct (dheap s !! l) as [n|]; [|done].
  exists n. split; [done|]. split; [|done]. injection Hu as ->. unfold isTip. by rewrite Hke.
Qed.

Lemma getTips_ids s : dag_inv s -> NoDup (map (fun y => uid <$> dheap s !! y) (getTips (counter s))).
Proof.
  intros I. unfold getTips. pose proof (map_range_NoDup (cc_tips (counter s))) as Hnd.
  assert (forall r, NoDup r.*1 ->
    NoDup (map (fun y => uid <$> dheap s !! y)
             (omap (fun kv : uuid * list uuid => cc_cache (counter s) !! fst kv) r))
    /\ forall o, o ∈ map (fun y => uid <$> dheap s !! y)
             (omap (fun kv : uuid * list uuid => cc_cache (counter s) !! fst kv) r) ->
       exists k, o = Some k /\ k ∈ r.*1) as Hr; [|by apply Hr].
  clear Hnd. intros r. induction r as [|[k e] r IH]; intros Hnd; simpl.
  { split; [constructor|set_solver]. }
  apply NoDup_cons in Hnd as [Hk Hnd]. destruct (IH Hnd) as [IH1 IH2].
  destruct (cc_cache (counter s) !! k) as [l|] eqn:Ek; simpl.
  - apply (inv_cache s I) in Ek. destruct (inv_mapped s I k l Ek) as [_ Hu]. rewrite Hu. split.
    + constructor; [|done]. intros Hin. apply IH2 in Hin as (k' & [= <-] & Hin). by apply Hk.
    + intros o [->|Ho]%elem_of_cons; [exists k; set_solver|]. apply IH2 in Ho as (k' & -> & ?).
      exists k'. set_solver.
  - split; [done|]. intros o Ho. apply IH2 in Ho as (k' & -> & ?). exists k'. set_solver.
Qed.

Lemma candidate_links_sources h l r :
  candidate_links h l = Return r -> Forall (fun k => is_Some (h !! l_source k)) r.
Proof.
  revert r. induction l as [|x l IH]; intros r; simpl; [by intros [= <-]|].
  destruct (h !! x) as [n|] eqn:E; [|done]. destruct (candidate_links h l) as [r'|]; simpl; [|done].
  intros [= <-]. apply Forall_app. split; [|by apply IH]. apply Forall_fmap, Forall_true.
  intros t. simpl. by eexists.
Qed.

Definition draws_ok (ds : add_draws) : Prop :=
  draw_ok (a_shuffle ds) /\ draw_ok (a_first ds) /\ draw_ok (a_second ds).

(** Selecting tips changes nothing, and the tips are tips. *)
Lemma select_tips_spec fuel ds s h tips :
  dag_inv s -> draws_ok ds -> select_tips cfg fuel ds s = Some (Return (h, tips)) ->
  h = dheap s /\ forall v, Some v ∈ tips -> v ∈ getTips (counter s).
Proof.
  intros I (Hd0 & Hd1 & Hd2). unfold select_tips.
  destruct (candidate_links _ _) as [cl|] eqn:Ecl; simpl; [|done].
  set (cs := d_shuffle (a_shuffle ds) (getTips (counter s))).
  assert (cs ≡ₚ getTips (counter s)) as Hp by apply Hd0.
  case_bool_decide; simpl.
  - destruct (_ =? 0); [done|]. destruct (_ <=? 1).
    + intros [= <- <-]. split; [done|]. intros v Hv%list_elem_of_singleton. rewrite <- Hp.
      symmetry in Hv. by eapply list_elem_of_lookup_2.
    + destruct (draw_other _ _ _ _ _); [|done]. intros [= <- <-]. split; [done|].
      intros v Hv. rewrite <- Hp. apply elem_of_cons in Hv as [Hv|Hv%list_elem_of_singleton];
        symmetry in Hv; by eapply list_elem_of_lookup_2.
  - destruct (weightedMcmc_tips cfg (counter s) (a_first ds) (a_second ds) (a_walk1 ds) (a_walk2 ds)
      (dheap s) cs cl) as (ts & -> & Hts); [done|done| | | |].
    + unfold tips_in. rewrite Hp. apply Forall_forall. intros l Hl.
      destruct (elem_of_getTips s l I Hl) as (n & ? & ? & _). eauto.
    + rewrite Hp. by apply getTips_ids.
    + by eapply candidate_links_sources.
    + intros [= <- <-]. split; [done|]. intros v Hv. rewrite <- Hp.
      destruct cs as [|a [|b cs]]; simpl in Hts; [subst; set_solver|subst; set_solver|].
      destruct Hts as (x & y & -> & Hx & Hy & _). apply elem_of_cons in Hv as [[= ->]|Hv]; [done|].
      apply list_elem_of_singleton in Hv as [= ->]. done.
Qed.

(** ** Every step of an addition returns *)

(** A node whose sender is an address and whose signature can be read. *)
Definition signed_by_address (n : Node) : Prop :=
  (exists sb, GetSender (ntx n) = Return sb /\ length sb = 20%nat)
  /\ exists sig, GetSignature (ntx n) = Return sig.

(** The nodes [ts] are on the heap with readable transactions. *)
Definition readable (h : heap) (ts : list loc) : Prop :=
  Forall (fun t => exists m, h !! t = Some m /\ signed_by_address m) ts.

Lemma approveNode_total s n : signed_by_address n -> exists b, approveNode s n = Return b.
Proof.
  intros [(sb & Hsb & Hlen) _]. unfold approveNode. destruct (valid n); simpl; [|by eexists].
  rewrite Hsb. simpl.
  assert (exists a, BytesToAddress sb = Return a) as [a Ha].
  { unfold BytesToAddress. rewrite Hlen. simpl. eauto. }
  destruct (wallet_balance_spec (w_pins (world s)) (walletCache (world s)) sb a Ha) as (o & -> & _).
  simpl. by destruct o; eexists.
Qed.

Lemma approveTx_total s ts :
  readable (dheap s) ts -> approveTx cfg s (map Some ts) = Return (negb (length ts =? 0)%nat).
Proof.
  intros Hts. unfold approveTx. rewrite length_map. destruct (Nat.eqb_spec (length ts) 0); [done|].
  assert (forall c, approve_loop s c (map Some ts) = Return c) as Hloop.
  { clear -Hts. induction Hts as [|t ts (m & Hm & Hg) _ IH]; intros c; simpl; [done|].
    rewrite Hm. destruct (approveNode_total s m Hg) as [b ->]. simpl. apply IH. }
  rewrite Hloop. simpl. by rewrite Z.eqb_refl.
Qed.

Lemma link_tips_total h l ts : forall k,
  readable h ts -> exists k', link_tips h l k (map Some ts) = Return k'
  /\ k_links k' = k_links k ++ map (fun t => {| l_source := l; l_target := t |}) ts
  /\ exists ids, node_ids h ts = Return ids /\ k_ids k' = k_ids k ++ ids.
Proof.
  induction ts as [|t ts IH]; intros k Hr; simpl.
  - exists k. rewrite app_nil_r. split; [done|]. split; [done|]. exists []. by rewrite app_nil_r.
  - apply Forall_cons in Hr as [(m & Hm & _ & sig & Hsig) Hr]. rewrite Hm, Hsig. simpl.
    match goal with |- context [link_tips h l ?k1 _] =>
      destruct (IH k1 Hr) as (k' & -> & Hl & ids & Hids & Hi) end. exists k'. split; [done|].
    simpl in Hl, Hi. rewrite Hl, <- app_assoc. split; [done|]. exists (uid m :: ids). rewrite Hids.
    split; [done|]. by rewrite Hi, <- app_assoc.
Qed.

Lemma link_targets_total l ts : forall h n,
  h !! l = Some n -> Forall (fun t => is_Some (h !! t)) ts ->
  exists r, link_targets h l (map Some ts) = Return r.
Proof.
  induction ts as [|t ts IH]; intros h n Hl Hts; simpl; [by eexists|].
  apply Forall_cons in Hts as [[m Hm] Hts]. rewrite Hm.
  assert (exists n1, <[t := set_sources m (sources m ++ [l])]> h !! l = Some n1) as [n1 Hn1].
  { destruct (decide (t = l)) as [->|]; [by rewrite lookup_insert_eq; eexists
                                        |by rewrite lookup_insert_ne, Hl by done; eexists]. }
  rewrite Hn1. edestruct (IH (<[l := set_targets n1 (targets n1 ++ [t])]>
    (<[t := set_sources m (sources m ++ [l])]> h))) as [r ->]; [by rewrite lookup_insert_eq| |by eexists].
  eapply Forall_impl; [exact Hts|]. intros x [mx Hx].
  rewrite !lookup_insert_is_Some'. right. right. by eexists.
Qed.

Lemma node_ids_total h l : Forall (fun t => is_Some (h !! t)) l -> exists ids, node_ids h l = Return ids.
Proof.
  induction 1 as [|x l [m Hm] _ [ids IH]]; simpl; [by eexists|]. rewrite Hm, IH. simpl. by eexists.
Qed.

(** A refused node is printed. *)
Lemma addToDag_total now s l n ts wc ok :
  dag_inv s -> addable s l n -> l ∉ ts -> Forall (fun t => is_Some (dheap s !! t)) ts ->
  settle s n (Some (map Some ts)) = Return (wc, ok) -> (ok = true \/ print_tx (ntx n) = Return tt) ->
  exists s', addToDag now s l (Some (map Some ts)) = Return (s', ok).
Proof.
  intros I [Hl [Ht0 _] Hnin Hid] Hself Hts Hset Hpr. unfold addToDag. rewrite Hl.
  fold (settle s n (Some (map Some ts))). rewrite Hset. simpl.
  destruct ok; simpl; [clear Hpr|destruct Hpr as [|Hpr]; [done|]; rewrite Hpr; simpl; by eexists].
  destruct (link_targets_total l ts (dheap s) n Hl Hts) as [[h1 es] E].
  change (dheap (with_world s (with_walletCache (world s) wc))) with (dheap s). rewrite E. simpl.
  apply (link_targets_spec l _ _ n) in E as (ts' & Heq & Hl1 & Hx1 & Hall & _); [|done|].
  2:{ intros (x & [= ->] & Hx)%list_elem_of_fmap. done. }
  apply (inj (map Some)) in Heq as <-. rewrite Hl1. rewrite opt_ids_node_ids.
  set (n1 := set_time (set_targets n (targets n ++ ts)) now).
  assert (Forall (fun t => is_Some ((<[l := n1]> h1) !! t)) ts) as Hts1.
  { eapply Forall_impl; [exact Hts|]. intros t [m Hm]. apply lookup_insert_is_Some.
    destruct (decide (l = t)); [by left|right; split; [done|]]. rewrite Hx1 by done. rewrite Hm. by eexists. }
  destruct (node_ids_total _ ts Hts1) as [ids Eids].
  match goal with |- context [node_ids ?h ts] => change h with (<[l := n1]> h1) end.
  rewrite Eids. simpl. unfold countConfirmed, ConfirmationCounter_add.
  match goal with |- context [match ?m with Some _ => _ | None => Panic end] =>
    change m with ((<[l := n1]> h1) !! l) end.
  rewrite lookup_insert_eq. replace (targets n1) with ts by (by unfold n1; simpl; rewrite Ht0).
  match goal with |- context [node_ids ?h ts] => change h with (<[l := n1]> h1) end. rewrite Eids. simpl.
  match goal with |- context [match ?m with Some _ => _ | None => Panic end] =>
    change m with ((<[l := n1]> h1) !! l) end.
  rewrite lookup_insert_eq. by eexists.
Qed.

(** ** AddTxDag *)

Lemma with_dheap_id s : with_dheap s (dheap s) = s.
Proof. by destruct s as [? ? []]. Qed.

Lemma inv_set_links s ls :
  dag_inv s ->
  Forall (fun k => is_Some (dheap s !! l_source k) /\ is_Some (dheap s !! l_target k)) ls ->
  dag_inv (with_dg s (set_links (dg s) ls)).
Proof. intros [] Hls. by split. Qed.

Lemma new_links_ok (h : heap) l n ts :
  h !! l = Some n -> Forall (fun t => is_Some (h !! t)) ts ->
  Forall (fun k => is_Some (h !! l_source k) /\ is_Some (h !! l_target k))
    (map (fun t => {| l_source := l; l_target := t |}) ts).
Proof.
  intros Hl Hts. apply Forall_fmap. eapply Forall_impl; [exact Hts|]. intros t Ht. simpl. split; [by eexists|done].
Qed.

Lemma link_tips_spec h l tips : forall k k',
  link_tips h l k tips = Return k' ->
  exists ts, tips = map Some ts /\ Forall (fun t => is_Some (h !! t)) ts
  /\ k_links k' = k_links k ++ map (fun t => {| l_source := l; l_target := t |}) ts.
Proof.
  induction tips as [|[t|] tips IH]; intros k k'; simpl; [| |done].
  - intros [= <-]. exists []. by rewrite app_nil_r.
  - destruct (h !! t) as [m|] eqn:Em; [|done]. destruct (GetSignature (ntx m)); simpl; [|done].
    intros (ts & -> & Hts & Hk)%IH. exists (t :: ts). simpl in Hk. rewrite Hk, <- app_assoc.
    split; [done|]. split; [constructor; [by eexists|done]|done].
Qed.

(** The tips come from the dag. *)
Lemma tips_for_spec fuel ds s n h tips :
  dag_inv s -> draws_ok ds -> tips_for cfg fuel ds s n = Some (Return (h, tips)) ->
  h = dheap s /\ forall v, Some v ∈ tips -> v ∈ d_dag (dg s).
Proof.
  intros I Hd. unfold tips_for. case_match; [|intros [= <- <-]; split; [done|set_solver]].
  destruct (d_dag (dg s)) as [|g rest] eqn:Edag; [done|]. case_match.
  - intros [= <- <-]. split; [done|]. intros v [= ->]%list_elem_of_singleton. left.
  - intros [-> Hv]%select_tips_spec; [|done|done]. split; [done|]. intros v Hin%Hv.
    destruct (elem_of_getTips s v I Hin) as (_ & _ & _ & Hdag). by rewrite <- Edag.
Qed.

(** The state in which [addToDag] is called. *)
Definition before_add (s : DagWorld) (l : loc) (n : Node) (links : list Link) (hh : Height) : DagWorld :=
  with_dheap (with_dg s (set_links (dg s) links)) (<[l := set_height n hh]> (dheap s)).

Lemma before_add_ok s l n ts hh :
  dag_inv s -> addable s l n -> Forall (fun t => is_Some (dheap s !! t)) ts ->
  let s1 := before_add s l n
              (d_links (dg s) ++ map (fun t => {| l_source := l; l_target := t |}) ts) hh in
  dag_inv s1 /\ addable s1 l (set_height n hh).
Proof.
  intros I [Hl Hiso Hnin Hid] Hts s1. split.
  - apply (inv_set_isolated (with_dg s (set_links (dg s) _))); [|done|right; by exists n|done].
    apply inv_set_links; [done|]. apply Forall_app. split; [apply I|by eapply new_links_ok].
  - split; [cbn; by rewrite lookup_insert_eq|done|done|done].
Qed.

Lemma outside_set s s' l n x :
  dheap s' = <[l := n]> (dheap s) -> d_dag (dg s') = d_dag (dg s) -> l <> x -> outside s x -> outside s' x.
Proof.
  intros Hh Ed Hx [(m & Hm & Hi) Hd]. split; [|by rewrite Ed].
  exists m. by rewrite Hh, lookup_insert_ne.
Qed.

Lemma refresh_weights_kept s s' l : dag_inv s -> refresh_weights cfg s = Return s' -> kept s s' l.
Proof.
  intros I (I' & Hdg & _ & Hsh & _)%refresh_weights_spec; [|done]. split; [done|]. intros x _.
  apply outside_shape; [done|by rewrite Hdg].
Qed.

(** [addToDag] of a node none of whose targets was outside the dag in [s0]. *)
Lemma addToDag_kept now s0 s l n lt s' ok :
  kept s0 s (Some l) -> addable s l n -> Some l ∉ default [] lt ->
  (forall x, Some x ∈ default [] lt -> ~ outside s0 x) ->
  addToDag now s l lt = Return (s', ok) -> kept s0 s' (Some l).
Proof.
  intros [I K] Ha Hl Hlt E. apply (addToDag_spec now s l n) in E as [_ E]; [|done..]. destruct ok.
  - destruct E as (ts & Hts & Hadd). split; [apply Hadd|]. intros x Hx Ho.
    eapply outside_added; [exact Hadd| |congruence|by apply K]. intros Hin. apply (Hlt x); [|done].
    rewrite Hts. by apply list_elem_of_fmap_2.
  - destruct E as [R1 R2 R3 R4]. split.
    + apply (dag_inv_shape s); [done|by rewrite R3|by rewrite R1..|by rewrite R2].
    + intros x Hx Ho. apply (outside_shape s); [by rewrite R3|by rewrite R1|by apply K].
Qed.

(** The outcomes of [AddTxDag]: nothing was approved, or the node was linked to
    nodes of the dag and handed to [addToDag]. *)
Inductive add_outcome (now : Z) (s : DagWorld) (l : loc) (n : Node) (s' : DagWorld) : Prop :=
| add_nothing : refresh_weights cfg s = Return s' -> add_outcome now s l n s'
| add_linking ts hh s1 s2 ok :
    s1 = before_add s l n
           (d_links (dg s) ++ map (fun t => {| l_source := l; l_target := t |}) ts) hh ->
    dag_inv s1 -> addable s1 l (set_height n hh) -> (forall t, t ∈ ts -> t ∈ d_dag (dg s)) ->
    addToDag now s1 l (Some (map Some ts)) = Return (s2, ok) ->
    (if ok then refresh_weights cfg s2 = Return s' else s' = s2) ->
    add_outcome now s l n s'.

Lemma AddTxDag_outcome fuel ds now s l n s' r :
  dag_inv s -> addable s l n -> draws_ok ds ->
  AddTxDag cfg fuel ds now s l = Some (Return (s', r)) -> add_outcome now s l n s'.
Proof.
  intros I Ha Hd. pose proof Ha as [Hl Hiso Hnin Hid]. unfold AddTxDag. rewrite Hl.
  destruct (tips_for cfg fuel ds s n) as [[[h tips]|]|] eqn:Et; [|done|done]. cbn [fuel_bind].
  apply tips_for_spec in Et as [-> Htips]; [|done|done]. rewrite with_dheap_id.
  destruct (approveTx cfg s tips) as [[]|]; cbn [outcome_bind]; [| |done].
  - destruct (link_tips _ _ _ _) as [k|] eqn:Ek; cbn [outcome_bind]; [|done].
    apply link_tips_spec in Ek as (ts & -> & Hts & Hk). cbn [k_links] in Hk.
    match goal with |- context [match ?m with Some _ => _ | None => Panic end] =>
      change m with (dheap s !! l) end. rewrite Hl, Hk.
    destruct (before_add_ok s l n ts (k_height k) I Ha Hts) as [I1 Ha1].
    set (s1 := before_add _ _ _ _ _) in *.
    match goal with |- context [addToDag now ?x l _] => change x with s1 end.
    destruct (addToDag now s1 l _) as [[s2 ok]|] eqn:Eadd; cbn [outcome_bind]; [|done].
    cbn [fst snd]. intros E. eapply (add_linking now s l n s' ts _ s1 s2 ok); [done|done|done| |done|].
    + intros t Ht. by apply Htips, list_elem_of_fmap_2.
    + destruct ok; [|by injection E as <- _]. revert E.
      destruct (refresh_weights cfg s2); cbn [outcome_bind]; [|done]. by intros [= <- _].
  - destruct (refresh_weights cfg s) as [s3|] eqn:Er; cbn [outcome_bind]; [|done]. intros [= <- _].
    by apply add_nothing.
Qed.

(** Adding keeps the invariant, whatever the outcome. *)
Lemma AddTxDag_kept fuel ds now s l n s' r :
  dag_inv s -> addable s l n -> draws_ok ds ->
  AddTxDag cfg fuel ds now s l = Some (Return (s', r)) -> kept s s' (Some l).
Proof.
  intros I Ha Hd E. destruct (AddTxDag_outcome _ _ _ _ _ _ _ _ I Ha Hd E) as [Er|ts hh s1 s2 ok -> I1 Ha1 Hts Eadd Er].
  { by apply refresh_weights_kept. }
  assert (kept s s2 (Some l)) as K2.
  { eapply addToDag_kept; [|exact Ha1| | |exact Eadd].
    - split; [done|]. intros x Hx Ho. eapply (outside_set s); [done|done|congruence|done].
    - intros (x & [= ->] & Hx)%list_elem_of_fmap. by apply (addable_new _ _ _ Ha), Hts.
    - intros x (y & [= <-] & Hy)%list_elem_of_fmap [_ Hx]. by apply Hx, Hts. }
  destruct ok; [|by subst]. eapply kept_trans; [exact K2|]. apply refresh_weights_kept; [apply K2|done].
Qed.
End Ops.
