(* ===== verification/DagSteps.v ===== *)
(** What adding a payment does, and the states the dag reaches. *)
From S2P Require Import Prelude GoLib Bytes Tx TxRecords Storage Pool WalletCache Node Pin.
From S2P Require Import PinProps PinSync Confirmation Weights Dag DagProps.

Section Add.
Context `{CryptoLib} `{ProtoLib} `{TimestampLib} `{EthLib} `{UuidLib}.
Context `{Goterators} `{MathLib} `{MapRange} `{!CollSet uuid}.
Variable cfg : DagConfiguration.

(** ** Totality *)

Lemma sum_cumWeights_total h l : forall acc,
  Forall (fun x => is_Some (h !! x)) l -> exists f, sum_cumWeights h acc l = Return f.
Proof.
  induction l as [|x l IH]; intros acc Hl; simpl; [by eexists|].
  apply Forall_cons in Hl as [[n ->] Hl]. by apply IH.
Qed.

Lemma cumWeights_total l : forall h,
  Forall (fun x => exists n, h !! x = Some n /\ Forall (fun y => is_Some (h !! y)) (sources n)) l ->
  exists h', cumWeights_loop cfg h l = Return h'.
Proof.
  induction l as [|x l IH]; intros h Hl; cbn [cumWeights_loop]; [by eexists|].
  apply Forall_cons in Hl as [(n & Hn & Hs) Hl]. rewrite Hn.
  destruct (sum_cumWeights_total h (sources n) f64_zero Hs) as [f ->]. cbn [outcome_bind].
  apply IH. eapply Forall_impl; [exact Hl|]. intros y (m & Hm & Hms).
  assert (forall c, Forall (fun z => is_Some (<[x := set_cumWeight n c]> h !! z)) (sources m)) as Hins.
  { intros c. eapply Forall_impl; [exact Hms|]. intros z Hz. apply lookup_insert_is_Some'. by right. }
  destruct (decide (x = y)) as [<-|].
  - rewrite lookup_insert_eq. simplify_eq. eexists. split; [done|]. apply Hins.
  - rewrite lookup_insert_ne by done. exists m. split; [done|apply Hins].
Qed.

Lemma refresh_weights_total s : dag_inv s -> exists s', refresh_weights cfg s = Return s'.
Proof.
  intros I. unfold refresh_weights. case_bool_decide; [|by eexists].
  destruct (cumWeights_total (rev (d_dag (dg s))) (dheap s)) as [h E].
  - apply List.Forall_rev, Forall_forall. intros x Hx.
    destruct (inv_dag s I x Hx) as (n & Hn & _). exists n. split; [done|]. apply Forall_forall.
    intros y Hy. destruct (inv_sources s I x n y Hn Hy) as (m & ? & _). by eexists.
  - unfold updateCumWeights. rewrite E. simpl. by eexists.
Qed.

Lemma candidate_links_total h l :
  Forall (fun x => is_Some (h !! x)) l -> exists r, candidate_links h l = Return r.
Proof.
  induction 1 as [|x l [n Hn] _ [r IH]]; simpl; [by eexists|]. rewrite Hn, IH. simpl. by eexists.
Qed.

(** The tips of a payment: the genesis node [g] while the dag is narrow, then
    two tips, or one tip twice if there is only one. *)
Definition tips_chosen (s : DagWorld) (g : loc) (rest : list loc) (ts : list loc) : Prop :=
  if Z.of_nat (length rest) <? width (dg s) then ts = [g]
  else match getTips (counter s) with
       | [] => ts = []
       | [t] => ts = [t; t]
       | tips => exists a b, ts = [a; b] /\ a ∈ tips /\ b ∈ tips /\ a <> b
       end.

Lemma tips_for_total fuel ds s n g rest :
  dag_inv s -> draws_ok ds -> Algorithm cfg <> DagAlgo_Type DAG_ALGO_RANDOM ->
  GetTransactionType (ntx n) = PAYMENT -> d_dag (dg s) = g :: rest ->
  exists ts, tips_for cfg fuel ds s n = Some (Return (dheap s, map Some ts))
  /\ tips_chosen s g rest ts /\ Forall (fun t => t ∈ d_dag (dg s)) ts.
Proof.
  intros I (Hd0 & Hd1 & Hd2) Halg Hpay Hdag. unfold tips_for, tips_chosen. rewrite Hpay, Hdag. simpl.
  destruct (_ <? _). { exists [g]. split; [done|]. split; [done|]. constructor; [left|constructor]. }
  unfold select_tips. set (tips := getTips (counter s)).
  assert (Forall (fun x => is_Some (dheap s !! x)) tips) as Hall.
  { apply Forall_forall. intros x Hx. destruct (elem_of_getTips s x I Hx) as (m & ? & _). by eexists. }
  destruct (candidate_links_total (dheap s) tips Hall) as [cl Ecl]. rewrite Ecl. cbn [fuel_bind].
  rewrite bool_decide_false by done. cbn [negb].
  assert (d_shuffle (a_shuffle ds) tips ≡ₚ tips) as Hp by apply Hd0.
  destruct (weightedMcmc_tips cfg (counter s) (a_first ds) (a_second ds) (a_walk1 ds) (a_walk2 ds)
    (dheap s) (d_shuffle (a_shuffle ds) tips) cl) as (ts & -> & Hts); [done|done| | | |].
  { unfold tips_in. rewrite Hp. apply Forall_forall. intros x Hx.
    destruct (elem_of_getTips s x I Hx) as (m & ? & ? & _). eauto. }
  { rewrite Hp. by apply getTips_ids. }
  { by eapply candidate_links_sources. }
  assert (forall x, x ∈ tips -> x ∈ g :: rest) as Hin.
  { intros x Hx. destruct (elem_of_getTips s x I Hx) as (_ & _ & _ & ?). by rewrite <- Hdag. }
  revert Hp Hts. generalize (d_shuffle (a_shuffle ds) tips). intros cs Hp Hts.
  destruct cs as [|a [|b cs]].
  - apply Permutation_nil in Hp. rewrite Hp. subst ts. by exists [].
  - symmetry in Hp. apply Permutation_singleton_r in Hp. rewrite Hp. subst ts. exists [a; a].
    split; [done|]. split; [done|]. rewrite Hp in Hin.
    constructor; [|constructor; [|constructor]]; apply Hin; left.
  - destruct Hts as (x & y & -> & Hx & Hy & Hxy). rewrite Hp in Hx, Hy. exists [x; y]. split; [done|].
    assert (x <> y) by (intros ->; by apply Hxy).
    split; [|constructor; [|constructor; [|constructor]]; by apply Hin].
    apply Permutation_length in Hp. destruct tips as [|? [|]]; simpl in Hp; try lia. by exists x, y.
Qed.

(** ** Adding a payment *)

(** What a payment may rely on: 20-byte addresses and readable signatures. *)
Definition payable (n : Node) : Prop :=
  signed_by_address n /\ length (GetRecipient (ntx n)) = 20%nat.

Lemma settle_total s n tips : payable n -> exists wc ok, settle s n (Some tips) = Return (wc, ok).
Proof.
  intros [[(sb & Hsb & Hlen) _] Hr]. simpl. unfold UpdateBalanceIfValid. rewrite Hsb. simpl.
  destruct (negb _); [|by do 2 eexists]. unfold BytesToAddress. rewrite Hlen, Hr. simpl.
  destruct (WalletCache_sub _ _ _ _ _) as [wc [|]]; simpl; [|by do 2 eexists].
  destruct (WalletCache_add _ _ _ _ _) as [wc' ok']. by do 2 eexists.
Qed.

(** The links of a new node at [l] to the nodes [ts]. *)
Definition links_from (l : loc) (ts : list loc) : list Link :=
  map (fun t => {| l_source := l; l_target := t |}) ts.

(** What a payment leaves when it is accepted. *)
Record payment_added (s s' : DagWorld) (l : loc) (n : Node) (ts : list loc) (r : add_result) : Prop := {
  pa_result : exists ids sigs, r = Some (ids, sigs) /\ node_ids (dheap s) ts = Return ids;
  pa_dag : d_dag (dg s') = d_dag (dg s) ++ [l];
  pa_found : getById (dheap s') (dg s') (uid n) true = Return (Some l);
  pa_targets : targets <$> dheap s' !! l = Some ts;
  pa_node : (fun m => (nid m, ntx m)) <$> dheap s' !! l = Some (nid n, ntx n);
  pa_ids : node_ids (dheap s') ts = node_ids (dheap s) ts
}.

(** What it leaves when its sender cannot pay. *)
Record payment_refused (s s' : DagWorld) (r : add_result) : Prop := {
  pr_error : r = None;
  pr_dag : d_dag (dg s') = d_dag (dg s);
  pr_maps : mapped_vertices (dg s') = mapped_vertices (dg s) /\ mapped_edges (dg s') = mapped_edges (dg s)
}.

(** The call of [addToDag] inside [AddTxDag]. *)
Lemma add_linked now s l n ts hh :
  dag_inv s -> addable s l n -> payable n -> Forall (fun t => t ∈ d_dag (dg s)) ts ->
  let s1 := before_add s l n (d_links (dg s) ++ links_from l ts) hh in
  exists s' wc ok, addToDag now s1 l (Some (map Some ts)) = Return (s', ok)
  /\ UpdateBalanceIfValid (w_pins (world s)) (walletCache (world s)) n = Return (wc, ok)
  /\ walletCache (world s') = wc /\ dag_inv s'
  /\ d_links (dg s') = d_links (dg s) ++ links_from l ts
  /\ if ok then added s1 s' l (set_height n hh) ts else refused s1 s'.
Proof.
  intros I Ha Hp Hts s1.
  assert (Forall (fun t => is_Some (dheap s !! t)) ts) as Hsome.
  { eapply Forall_impl; [exact Hts|]. intros t Ht. destruct (inv_dag s I t Ht) as (m & ? & _). by eexists. }
  destruct (before_add_ok s l n ts hh I Ha Hsome) as [I1 Ha1]. fold (links_from l ts) in I1, Ha1. fold s1 in I1, Ha1.
  assert (l ∉ ts) as Hself.
  { intros Hin. rewrite Forall_forall in Hts. by apply (addable_new s l n Ha), Hts. }
  destruct (settle_total s n (map Some ts) Hp) as (wc & ok & Hset).
  destruct (addToDag_total now s1 l (set_height n hh) ts wc ok) as [s' E]; [done|done|done| |done| |].
  2:{ right. destruct Hp as [[(sb & Hsb & Hlen) _] Hr]. eapply print_tx_addressed; [exact Hsb|done|by left]. }
  { eapply Forall_impl; [exact Hsome|]. intros t Ht. cbn. apply lookup_insert_is_Some'. by right. }
  exists s', wc, ok. split; [done|]. split; [done|].
  apply (addToDag_spec now s1 l (set_height n hh)) in E as [Hset' Hres]; [|done|done|].
  2:{ simpl. intros (x & [= ->] & Hx)%list_elem_of_fmap. done. }
  assert (settle s1 (set_height n hh) (Some (map Some ts)) = Return (wc, ok)) as Hset1 by exact Hset.
  rewrite Hset1 in Hset'. injection Hset' as Hwc. split; [done|]. destruct ok.
  - destruct Hres as (ts' & Heq & Hadd). simpl in Heq. apply (inj (map Some)) in Heq as <-.
    split; [apply Hadd|]. split; [by rewrite (added_links _ _ _ _ _ Hadd)|done].
  - destruct Hres as [R1 R2 R3 R4]. split; [|split; [by rewrite R1|done]].
    apply (dag_inv_shape s1); [done|by rewrite R3|by rewrite R1..|by rewrite R2].
Qed.

(** The whole of [AddTxDag] for a payment. *)
Lemma AddTxDag_pays fuel ds now s l n g rest :
  dag_inv s -> addable s l n -> payable n -> readable (dheap s) (d_dag (dg s)) -> draws_ok ds ->
  Algorithm cfg <> DagAlgo_Type DAG_ALGO_RANDOM -> GetTransactionType (ntx n) = PAYMENT ->
  d_dag (dg s) = g :: rest ->
  (Z.of_nat (length rest) < width (dg s) \/ getTips (counter s) <> []) ->
  exists ts s' r wc ok,
    AddTxDag cfg fuel ds now s l = Some (Return (s', r))
    /\ tips_chosen s g rest ts
    /\ UpdateBalanceIfValid (w_pins (world s)) (walletCache (world s)) n = Return (wc, ok)
    /\ walletCache (world s') = wc /\ dag_inv s'
    /\ d_links (dg s') = d_links (dg s) ++ links_from l ts
    /\ if ok then payment_added s s' l n ts r else payment_refused s s' r.
Proof.
  intros I Ha Hp Hread Hd Halg Hpay Hdag Htips.
  destruct (tips_for_total fuel ds s n g rest) as (ts & Et & Hch & Hin); [done..|].
  assert (ts <> []) as Hne.
  { revert Hch. unfold tips_chosen. destruct (Z.ltb_spec (Z.of_nat (length rest)) (width (dg s))); [by intros ->|].
    destruct Htips; [lia|]. destruct (getTips (counter s)) as [|? [|]]; [done|by intros ->|].
    by intros (? & ? & -> & _). }
  assert (readable (dheap s) ts) as Hrts.
  { unfold readable in Hread. rewrite Forall_forall in Hread.
    eapply Forall_impl; [exact Hin|]. intros t Ht. by apply Hread. }
  unfold AddTxDag. rewrite (addable_node s l n Ha), Et. cbn [fuel_bind]. rewrite with_dheap_id.
  rewrite approveTx_total by done. destruct (Nat.eqb_spec (length ts) 0); [by destruct ts|].
  cbn [negb outcome_bind].
  match goal with |- context [link_tips (dheap s) l ?k0 _] =>
    destruct (link_tips_total (dheap s) l ts k0 Hrts) as (k & Ek & Hk & ids & Hids & Hkids) end.
  rewrite Ek. cbn [outcome_bind]. cbn [k_links k_ids] in Hk, Hkids.
  match goal with |- context [match ?m with Some _ => _ | None => Panic end] =>
    change m with (dheap s !! l) end. rewrite (addable_node s l n Ha), Hk, Hkids.
  destruct (add_linked now s l n ts (k_height k) I Ha Hp Hin) as (s1 & wc & ok & E & Hub & Hwc & I1 & Hl1 & Hres).
  match goal with |- context [addToDag now ?x l _] =>
    change x with (before_add s l n (d_links (dg s) ++ links_from l ts) (k_height k)) end.
  rewrite E. cbn [outcome_bind fst snd]. destruct ok.
  - destruct (refresh_weights_total s1 I1) as [s2 Er]. rewrite Er. cbn [outcome_bind].
    destruct (refresh_weights_spec cfg s1 s2 I1 Er) as (I2 & Hdg & Hcc & Hsh & Hw2 & _).
    exists ts, s2. do 3 eexists. split; [reflexivity|]. split; [done|]. split; [done|].
    rewrite Hdg, Hw2. split; [done|]. split; [done|]. split; [done|].
    destruct Hres as [_ Hd1 Hm1 _ (n1 & Hn1 & _ & Ht1 & Hx1 & _ & _ & Hi1) _ L]. split; rewrite ?Hdg.
    + by exists ids, (k_signatures k).
    + exact Hd1.
    + unfold getById. rewrite Hm1. cbn [uid nid set_height]. by rewrite lookup_insert_eq.
    + destruct (shape_lookup _ _ l n1 (same_shape_sym _ _ Hsh) Hn1) as (m & -> & _ & Hm & _).
      simpl. by rewrite Hm, Ht1.
    + rewrite <- (refresh_weights_field cfg (fun m => (nid m, ntx m)) s1 s2 (fun _ _ => eq_refl) Er l), Hn1.
      simpl. by rewrite Hi1, Hx1.
    + rewrite <- (node_ids_shape _ _ ts Hsh), (lh_node_ids _ _ _ _ _ ts L) by apply L.
      apply node_ids_ne, L.
  - exists ts, s1. do 3 eexists. split; [reflexivity|]. split; [done|]. split; [done|].
    split; [done|]. split; [done|]. split; [done|]. destruct Hres as [R1 _ _ _]. split; by rewrite ?R1.
Qed.

(** C25: what adding a payment does.  Let the algorithm be another than the
    random walk, the dag be well formed with readable transactions and a genesis
    node, and be narrow or have tips. Then a new transaction of the payment type
    between 20-byte addresses is processed whatever is drawn: it approves
    the genesis node while the dag is narrow and two tips afterwards.  If the
    ledger accepts the payment, the balances change accordingly, the node joins
    the dag, is found by its id, its targets are exactly the chosen tips, whose
    ids are returned; if not, an error is returned and the dag is as before.
    In both cases the dag stays well formed; but the new links are recorded in
    both cases, so a refused payment leaves links behind. *)
Theorem AddTxDag_payment fuel ds now s l n g rest :
  dag_inv s -> addable s l n -> payable n -> readable (dheap s) (d_dag (dg s)) -> draws_ok ds ->
  Algorithm cfg <> DagAlgo_Type DAG_ALGO_RANDOM -> GetTransactionType (ntx n) = PAYMENT ->
  d_dag (dg s) = g :: rest ->
  (Z.of_nat (length rest) < width (dg s) \/ getTips (counter s) <> []) ->
  exists ts s' r wc ok,
    AddTxDag cfg fuel ds now s l = Some (Return (s', r))
    /\ tips_chosen s g rest ts
    /\ UpdateBalanceIfValid (w_pins (world s)) (walletCache (world s)) n = Return (wc, ok)
    /\ walletCache (world s') = wc /\ dag_inv s'
    /\ d_links (dg s') = d_links (dg s) ++ links_from l ts
    /\ if ok then payment_added s s' l n ts r else payment_refused s s' r.
Proof. apply AddTxDag_pays. Qed.
End Add.

(** ** Insertion of a peer's node *)

Section Insert.
Context `{CryptoLib} `{ProtoLib} `{TimestampLib} `{EthLib} `{UuidLib}.
Context `{Goterators} `{MathLib} `{MapRange} `{!CollSet uuid}.
Variable cfg : DagConfiguration.
Variable ReverseSlice : list loc -> list loc.
(** [sort.SliceStable] permutes the slice whatever the comparison says. *)
Hypothesis ReverseSlice_perm : forall l, ReverseSlice l ≡ₚ l.

Lemma pin_node_isolated p id n : NodeTxPin_getById p id = Return (Some n) -> isolated n.
Proof.
  unfold NodeTxPin_getById. destruct (find_node _ _) as [pn|]; [|done].
  unfold Node_FromPbNode. destruct (UnmarshalBinary _); simpl; [|done]. by intros [= <-].
Qed.

Lemma find_node_id l idb pn : find_node l idb = Some pn -> pb_n_Id (pb_n_NodeId pn) = idb.
Proof.
  induction l as [|pin l IH]; cbn [find_node]; [done|]. rewrite gt_Find_spec.
  destruct (find_first _ _) as [[x i]|] eqn:E; [|done]. intros [= <-].
  apply find_first_Some in E as (_ & E & _). by apply bool_decide_eq_true in E.
Qed.

Lemma pin_node_id p id n : uuid_ok id -> NodeTxPin_getById p id = Return (Some n) -> uid n = id.
Proof.
  intros Hok. unfold NodeTxPin_getById. destruct (find_node _ _) as [pn|] eqn:E; [|done].
  unfold Node_FromPbNode. destruct (UnmarshalBinary _); simpl; [|done]. intros [= <-].
  apply find_node_id in E. unfold uid. simpl. by rewrite E, uuid_FromBytes_bytes.
Qed.

Lemma alloc_spec s n s' l :
  dag_inv s -> isolated n -> alloc s n = (s', l) ->
  dag_inv s' /\ dheap s !! l = None /\ dheap s' = <[l := n]> (dheap s)
  /\ dg s' = dg s /\ counter s' = counter s /\ l ∉ d_dag (dg s).
Proof.
  intros I Hiso [= <- <-].
  assert (dheap s !! fresh (dom (dheap s)) = None) as Hnone by apply not_elem_of_dom, is_fresh.
  assert (fresh (dom (dheap s)) ∉ d_dag (dg s)) as Hnin.
  { intros Hin. destruct (inv_dag s I _ Hin) as (m & Hm & _). congruence. }
  split; [apply inv_set_isolated; auto|done].
Qed.

(** What [find_candidates] leaves: perhaps new nodes, nothing else. *)
Record found (s s' : DagWorld) (ids : list uuid) (cs : list loc) : Prop := {
  found_inv : dag_inv s';
  found_dg : dg s' = dg s;
  found_heap : forall x n, dheap s !! x = Some n -> dheap s' !! x = Some n;
  found_in : Forall (fun c => is_Some (dheap s' !! c)) cs;
  found_from : Forall (fun c => c ∈ d_dag (dg s) \/ dheap s !! c = None) cs;
  (** A candidate from a pin has one of the ids, which the dag does not know. *)
  found_ids : Forall uuid_ok ids -> Forall (fun c => exists m, dheap s' !! c = Some m
    /\ uid m ∈ ids
    /\ (mapped_vertices (dg s) !! uid m = Some c \/ mapped_vertices (dg s) !! uid m = None)) cs
}.

(** More ids than those of the candidates. *)
Lemma found_ids_weaken (s s' : DagWorld) id ids cs :
  Forall (fun c => exists m, dheap s' !! c = Some m /\ uid m ∈ ids
    /\ (mapped_vertices (dg s) !! uid m = Some c \/ mapped_vertices (dg s) !! uid m = None)) cs ->
  Forall (fun c => exists m, dheap s' !! c = Some m /\ uid m ∈ id :: ids
    /\ (mapped_vertices (dg s) !! uid m = Some c \/ mapped_vertices (dg s) !! uid m = None)) cs.
Proof.
  intros F. eapply Forall_impl; [exact F|]. intros c (m & Hm & Hi & Hc). exists m.
  split; [done|]. split; [by right|done].
Qed.

Lemma find_candidates_spec ids : forall s s' cs missing,
  dag_inv s -> find_candidates s ids = Return (s', cs, missing) -> found s s' ids cs.
Proof.
  induction ids as [|id ids IH]; intros s s' cs missing I; cbn [find_candidates].
  - intros [= <- <- <-]. by split.
  - unfold getById. destruct (mapped_vertices (dg s) !! id) as [l|] eqn:Em; cbn [outcome_bind].
    + destruct (find_candidates s ids) as [[[s1 cs1] m1]|] eqn:E; cbn [outcome_bind]; [|done].
      intros [= <- <- <-]. destruct (IH _ _ _ _ I E) as [F1 F2 F3 F4 F5 F6].
      destruct (inv_mapped s I id l Em) as [Hin Hu].
      destruct (dheap s !! l) as [m|] eqn:Hm; [|done]. injection Hu as Hu.
      split; try done; [constructor; [|done]..|].
      * by rewrite (F3 _ _ Hm).
      * by left.
      * intros [Hok Hoks]%Forall_cons. constructor; [|by apply found_ids_weaken, F6].
        exists m. split; [by apply F3|]. rewrite Hu. split; [left|by left].
    + destruct (NodeTxPin_getById _ id) as [[n|]|] eqn:Ep; cbn [outcome_bind]; [| |done].
      * destruct (alloc s n) as [s0 l] eqn:Ea.
        apply alloc_spec in Ea as (I0 & Hnone & Hh & Hdg & _ & Hnin); [|done|by eapply pin_node_isolated].
        destruct (find_candidates s0 ids) as [[[s1 cs1] m1]|] eqn:E; cbn [outcome_bind]; [|done].
        intros [= <- <- <-]. destruct (IH _ _ _ _ I0 E) as [F1 F2 F3 F4 F5 F6].
        split; [done|congruence| | | |].
        -- intros x m Hx. apply F3. rewrite Hh. rewrite lookup_insert_ne by congruence. done.
        -- constructor; [|done]. rewrite (F3 l n); [by eexists|]. by rewrite Hh, lookup_insert_eq.
        -- constructor; [by right|]. eapply Forall_impl; [exact F5|]. intros c [Hc|Hc]; [left; by rewrite <- Hdg|].
           right. rewrite Hh in Hc. by apply lookup_insert_None in Hc as [Hc _].
        -- intros [Hok Hoks]%Forall_cons. rewrite Hdg in F6. constructor; [|by apply found_ids_weaken, F6].
           exists n. split; [apply F3; by rewrite Hh, lookup_insert_eq|].
           rewrite (pin_node_id _ _ _ Hok Ep). split; [left|by right].
      * destruct (find_candidates s ids) as [[[s1 cs1] m1]|] eqn:E; cbn [outcome_bind]; [|done].
        intros [= <- <- <-]. destruct (IH _ _ _ _ I E) as [F1 F2 F3 F4 F5 F6]. split; try done.
        intros [Hok Hoks]%Forall_cons. by apply found_ids_weaken, F6.
Qed.

(** The conflicting node has another id. *)
Lemma version_conflict_other h iv l : forall found0 x a b,
  (forall y c d, found0 = Some (y, c, d) -> exists n, h !! y = Some n /\ uid n <> uid iv) ->
  version_conflict h iv found0 l = Return (Some (x, a, b)) ->
  exists n, h !! x = Some n /\ uid n <> uid iv.
Proof.
  induction l as [|y l IH]; intros f0 x a b Hf; cbn [version_conflict].
  - intros [= ->]. by eapply Hf.
  - destruct (h !! y) as [n|] eqn:E; [|done]. apply IH. case_match eqn:Ec; [|done].
    intros ? ? ? [= <- _ _]. exists n. split; [done|].
    apply andb_true_iff in Ec as [Ec _]. apply andb_true_iff in Ec as [Ec _].
    apply negb_true_iff, bool_decide_eq_false in Ec. done.
Qed.

(** The end of an insertion: the links and the weights. *)
Definition insert_tail (s : DagWorld) (l : loc) (cs : list loc) : outcome (DagWorld * option InsertError) :=
  let s := with_dg s (set_links (dg s) (d_links (dg s) ++ links_from l cs)) in
  if bool_decide (Algorithm cfg = DagAlgo_Type DAG_ALGO_MCMCP) then
    let nodes := ReverseSlice (d_dag (dg s)) in
    let! h := updateCumWeights cfg (dheap s) nodes in
    Return (with_dg (with_dheap s h) (set_dag (dg s) (ReverseSlice nodes)), None)
  else Return (s, None).

Lemma insert_tail_shape s l cs s' e :
  insert_tail s l cs = Return (s', e) ->
  same_shape (dheap s) (dheap s') /\ mapped_vertices (dg s') = mapped_vertices (dg s)
  /\ txCh (dg s') = txCh (dg s).
Proof.
  unfold insert_tail. cbv zeta. case_bool_decide; [|by intros [= <- _]].
  destruct (updateCumWeights _ _ _) as [h|] eqn:E; cbn [outcome_bind]; [|done]. intros [= <- _].
  by apply cumWeights_shape in E.
Qed.

Lemma insert_tail_kept s l n cs s' e :
  dag_inv s -> dheap s !! l = Some n -> Forall (fun c => is_Some (dheap s !! c)) cs ->
  insert_tail s l cs = Return (s', e) -> kept s s' (Some l).
Proof.
  intros I Hl Hcs.
  assert (dag_inv (with_dg s (set_links (dg s) (d_links (dg s) ++ links_from l cs)))) as I1.
  { apply inv_set_links; [done|]. apply Forall_app. split; [apply I|by eapply new_links_ok]. }
  unfold insert_tail. cbv zeta. case_bool_decide; [|by intros [= <- _]; split].
  destruct (updateCumWeights _ _ _) as [h|] eqn:E; cbn [outcome_bind]; [|done]. intros [= <- _].
  apply cumWeights_shape in E. split.
  - eapply (dag_inv_shape _ _ I1); try done. cbn. by rewrite !ReverseSlice_perm.
  - intros x _. apply outside_shape; [done|]. cbn. intros y. by rewrite !ReverseSlice_perm.
Qed.

Lemma addToDag_present now s l n cs s' :
  dag_inv s -> addable s l n -> l ∉ cs -> addToDag now s l (Some (map Some cs)) = Return (s', true) ->
  is_Some (dheap s' !! l) /\ Forall (fun c => is_Some (dheap s' !! c)) cs.
Proof.
  intros I Ha Hl E. apply (addToDag_spec now s l n) in E as [_ (ts & Heq & Hadd)]; [|done|done|].
  2:{ simpl. intros (x & [= ->] & Hx)%list_elem_of_fmap. done. }
  simpl in Heq. apply (inj (map Some)) in Heq as <-.
  destruct (added_node _ _ _ _ _ Hadd) as (n' & Hn' & _ & Ht & _).
  split; [by eexists|]. apply Forall_forall. intros c Hc. rewrite <- Ht in Hc.
  destruct (inv_targets s' (added_inv _ _ _ _ _ Hadd) l n' c Hn' Hc) as (m & ? & _). by eexists.
Qed.

(** Nothing but the node [l] and new nodes. *)
Record grown (s s' : DagWorld) (l : loc) : Prop := {
  grown_inv : dag_inv s';
  grown_dg : dg s' = dg s;
  grown_heap : forall x n, x <> l -> dheap s !! x = Some n -> dheap s' !! x = Some n
}.

Lemma grown_kept s s' l : grown s s' l -> kept s s' (Some l).
Proof.
  intros [I Hdg Hh]. split; [done|]. intros x Hx [(m & Hm & Hi) Hd].
  split; [|by rewrite Hdg]. exists m. split; [apply Hh; [congruence|done]|done].
Qed.

Lemma grown_set s s2 l n m :
  grown s s2 l -> isolated m -> l ∉ d_dag (dg s) -> dheap s2 !! l = Some n -> isolated n ->
  grown s (with_dheap s2 (<[l := m]> (dheap s2))) l.
Proof.
  intros [I Hdg Hh] Hm Hnin Hl Hn. split; [|done|].
  - apply inv_set_isolated; [done|by rewrite Hdg|right; by exists n|done].
  - intros x k Hx Hk. cbn. rewrite lookup_insert_ne by done. by apply Hh.
Qed.

(** The outcomes of [InsertTxDag]: the dag stays as it is, or the node was
    handed to [addToDag] with the candidates that were found. *)
Inductive insert_outcome (now : Z) (s : DagWorld) (l : loc) (txId : uuid) (ids : list uuid)
  (s' : DagWorld) : Prop :=
| insert_nothing : grown s s' l -> insert_outcome now s l txId ids s'
| insert_linking s2 iv cs s3 ok :
    grown s s2 l -> addable s2 l iv -> uid iv = txId -> l ∉ cs ->
    Forall (fun c => c ∈ d_dag (dg s) \/ dheap s !! c = None) cs ->
    (Forall uuid_ok ids -> Forall (fun c => exists m, dheap s2 !! c = Some m /\ uid m ∈ ids
       /\ (mapped_vertices (dg s) !! uid m = Some c \/ mapped_vertices (dg s) !! uid m = None)) cs) ->
    addToDag now s2 l (Some (map Some cs)) = Return (s3, ok) ->
    (s' = s3 \/ ok = true /\ exists e, insert_tail s3 l cs = Return (s', e)) ->
    insert_outcome now s l txId ids s'.

Lemma InsertTxDag_outcome now s l n txId major minor ids s' e :
  dag_inv s -> dheap s !! l = Some n -> isolated n -> l ∉ d_dag (dg s) ->
  InsertTxDag cfg ReverseSlice now s l txId major minor ids = Return (s', e) ->
  insert_outcome now s l txId ids s'.
Proof.
  intros I Hl Hiso Hnin. unfold InsertTxDag. rewrite Hl.
  set (iv := set_time (set_nid n _) now). set (s1 := with_dheap s (<[l := iv]> (dheap s))).
  assert (grown s s1 l) as G1 by (eapply grown_set; [by split|done..]).
  unfold getById. destruct (mapped_vertices (dg s1) !! txId) as [|] eqn:Em; cbn [outcome_bind];
    [by intros [= <- _]; apply insert_nothing|].
  destruct (find_candidates s1 ids) as [[[s2 cs] missing]|] eqn:Ef; cbn [outcome_bind]; [|done].
  apply find_candidates_spec in Ef as [I2 Hdg2 Hh2 _ Hfrom2 Hids2]; [|apply G1].
  assert (dheap s2 !! l = Some iv) as Hl2 by (apply Hh2; cbn; by rewrite lookup_insert_eq).
  assert (grown s s2 l) as G2.
  { split; [done|by rewrite Hdg2|]. intros x m Hx Hm. apply Hh2. cbn. by rewrite lookup_insert_ne. }
  assert (l ∉ cs) as Hself.
  { rewrite Forall_forall in Hfrom2. intros Hc. destruct (Hfrom2 l Hc) as [|Hn]; [done|]. cbn in Hn.
    by rewrite lookup_insert_eq in Hn. }
  assert (Forall (fun c => c ∈ d_dag (dg s) \/ dheap s !! c = None) cs) as Hfrom.
  { eapply Forall_impl; [exact Hfrom2|]. intros c [|Hc]; [by left|right]. cbn in Hc.
    by apply lookup_insert_None in Hc as [Hc _]. }
  assert (addable s2 l iv) as Ha2 by (split; [done|done|by rewrite Hdg2|by rewrite Hdg2]).
  destruct (negb (length cs =? length ids)%nat).
  { set (iv' := set_missingTargets iv _). destruct (addToDag _ _ l _) as [[s3 ok]|] eqn:E;
      cbn [outcome_bind]; [|done]. intros [= <- _].
    eapply (insert_linking now s l txId ids s3 (with_dheap s2 (<[l := iv']> (dheap s2))) iv' cs s3 ok);
      [by apply (grown_set s s2 l iv)| |done|done|done| |exact E|by left].
    - destruct Ha2. split; [cbn; by rewrite lookup_insert_eq|done|done|done].
    - intros Hok. eapply Forall_impl; [by apply Hids2|]. intros c (m & Hm & Hc).
      destruct (decide (c = l)) as [->|]; [|exists m; cbn; by rewrite lookup_insert_ne].
      exists iv'. cbn. rewrite lookup_insert_eq. split; [done|]. assert (m = iv) as -> by congruence. done. }
  match goal with |- outcome_bind ?m _ = _ -> _ => destruct m as [conflict|] eqn:Ec end;
    cbn [outcome_bind]; [|done].
  destruct conflict as [[[next ma] mi]|].
  - assert (exists m, dheap s2 !! next = Some m /\ uid m <> uid iv) as (m & Hm & Hne).
    { revert Ec. destruct (Versioncollision cfg); [|done].
      destruct (all_approvers _ _ _); cbn [outcome_bind]; [|done]. by apply version_conflict_other. }
    rewrite Hm, bool_decide_false by done. cbn. intros [= <- _]. by apply insert_nothing.
  - destruct (addToDag now s2 l _) as [[s3 ok]|] eqn:E; cbn [outcome_bind fst snd]; [|done].
    intros Htail. eapply (insert_linking now s l txId ids s' s2 iv cs s3 ok); try done.
    destruct ok; [right; split; [done|]; exists e; exact Htail|left; by injection Htail as <- _].
Qed.

(** Insertion keeps the invariant, whatever the outcome. *)
Lemma InsertTxDag_kept now s l n txId major minor ids s' e :
  dag_inv s -> dheap s !! l = Some n -> isolated n -> l ∉ d_dag (dg s) ->
  InsertTxDag cfg ReverseSlice now s l txId major minor ids = Return (s', e) -> kept s s' (Some l).
Proof.
  intros I Hl Hiso Hnin E.
  destruct (InsertTxDag_outcome _ _ _ _ _ _ _ _ _ _ I Hl Hiso Hnin E)
    as [G|s2 iv cs s3 ok G Ha Hid Hself Hfrom _ Eadd Hs']; [by apply grown_kept|].
  assert (kept s s3 (Some l)) as K3.
  { eapply (addToDag_kept now s s2); [by apply grown_kept|exact Ha| | |exact Eadd].
    - by intros (x & [= ->] & Hx)%list_elem_of_fmap.
    - rewrite Forall_forall in Hfrom. intros x (y & [= <-] & Hy)%list_elem_of_fmap [(m & Hm & _) Hd].
      destruct (Hfrom x Hy); congruence. }
  destruct Hs' as [->|(-> & e' & Et)]; [done|].
  destruct (addToDag_present now s2 l iv cs s3 (grown_inv _ _ _ G) Ha Hself Eadd) as [[n3 Hn3] Hcs3].
  eapply kept_trans; [exact K3|]. by eapply insert_tail_kept; [apply K3|..].
Qed.
End Insert.

(** ** Pins *)

Section Pins.
Context `{CryptoLib} `{ProtoLib} `{TimestampLib} `{EthLib} `{UuidLib} `{ProtoPinLib}.
Context `{Goterators} `{MathLib} `{MapRange} `{!CollSet uuid}.
Variable RunCall : Storage -> pb_Txv1 -> PinTxHeader -> Storage * (CallResponse + string).
Variable coinbase : string.
Variable dagWallet : Wallet.

Lemma pin_sites_shape now s r sites : forall w pin w' pin',
  pin_sites now w pin s r sites = Return (w', pin') -> same_shape (w_heap w) (w_heap w').
Proof.
  induction sites as [|l sites IH]; intros w pin w' pin'; cbn [pin_sites]; [by intros [= <- _] x|].
  destruct (w_heap w !! l) as [val|] eqn:El; [|done].
  destruct (Node_ToPbNode _ _ _); cbn [outcome_bind]; [|done].
  destruct (sender_address val) as [sa|]; cbn [outcome_bind]; [|done].
  destruct (recipient_address val) as [ra|]; cbn [outcome_bind]; [|done].
  destruct (last_of (s !! sa)) as [sb|]; cbn [outcome_bind]; [|done].
  destruct (last_of (r !! ra)) as [rb|]; cbn [outcome_bind]; [|done].
  intros E%IH x. rewrite <- (E x). destruct (sb <? 0); [|done]. simpl.
  destruct (decide (l = x)) as [<-|]; [by rewrite lookup_insert_eq, El|by rewrite lookup_insert_ne].
Qed.

Lemma run_smc_txs_heap now pin hs ts l : forall w idx gas w' ex,
  run_smc_txs RunCall coinbase now w pin hs ts idx gas l = Return (w', ex) -> w_heap w' = w_heap w.
Proof.
  induction l as [|t l IH]; intros w idx gas w' ex; cbn [run_smc_txs].
  - by intros [= <- _].
  - destruct (executeSMCTx _ _ _ _ _ _ _) as [[st [res|e]]|]; simpl; [| |done].
    + destruct (AddConfirmed _ _); simpl; [|done].
      destruct (execResultToReceipt _ _); simpl; [|done].
      destruct (MarshalBinary t now); simpl; [|done].
      destruct (run_smc_txs _ _ _ _ _ _ _ _ _ l) as [[w1 ex1]|] eqn:E; simpl; [|done].
      intros [= <- _]. by apply IH in E.
    + destruct (GetHash t); simpl; [|done]. destruct (RemoveUnconfirmed _ _); simpl; [|done].
      intros E. by apply IH in E.
Qed.

Lemma NodeTxPin_add_shape now w sites smcTxs w' :
  NodeTxPin_add RunCall coinbase dagWallet now w sites smcTxs = Return w' ->
  same_shape (w_heap w) (w_heap w').
Proof.
  unfold NodeTxPin_add. destruct (deref _ _); cbn [outcome_bind]; [|done].
  destruct (collect_balances _ _ _ _ _); cbn [outcome_bind]; [|done].
  destruct (pin_sites _ _ _ _ _ _) as [[w1 pin1]|] eqn:E1; cbn [outcome_bind]; [|done].
  apply pin_sites_shape in E1. unfold runSmartContractStage.
  destruct (SyncBalances _ _ _) as [st|]; cbn [outcome_bind]; [|done].
  destruct (CaptureStateStoreDiffs st) as [st1|]; cbn [outcome_bind]; [|done].
  destruct (incr_nonces _ _ _) as [st2|]; cbn [outcome_bind]; [|done].
  destruct (run_smc_txs _ _ _ _ _ _ _ _ _ _) as [[w2 ex]|] eqn:E2; cbn [outcome_bind]; [|done].
  apply run_smc_txs_heap in E2.
  destruct (GetStateStoreDiffs _); cbn [outcome_bind]; [|done].
  destruct (diffToPb _); cbn [outcome_bind]; [|done].
  destruct (sync_diffs _ _ _) as [[C B]|]; cbn [outcome_bind]; [|done].
  destruct (TxPin_SignTx _ _); cbn [outcome_bind]; [|done]. intros [= <-]. cbn. by rewrite E2.
Qed.

Lemma genPinTx_kept undef maxFuel now s s' :
  dag_inv s -> genPinTx RunCall coinbase dagWallet undef maxFuel now s = Return s' -> kept s s' None.
Proof.
  intros I. unfold genPinTx, GetConfirmedSites. cbn [ConfirmationCounter_pop].
  set (s1 := with_counter s _).
  assert (dag_inv s1) as I1 by by apply (dag_inv_shape s).
  destruct (GetAllUncofirmed _ _ _ _) as [txs|]; cbn [outcome_bind]; [|done].
  destruct (_ || _); [|by intros [= <-]]. destruct (all_some _) as [sites|]; [|done].
  destruct (NodeTxPin_add _ _ _ _ _ _ _) as [w|] eqn:E; cbn [outcome_bind]; [|done]. intros [= <-].
  apply NodeTxPin_add_shape in E. split; [by apply (dag_inv_shape s1)|].
  intros x _. by apply (outside_shape s).
Qed.

(** ** Reachable states *)

Lemma inv_empty s :
  d_dag (dg s) = [] -> mapped_vertices (dg s) = ∅ -> d_links (dg s) = [] -> mapped_edges (dg s) = ∅ ->
  dheap s = ∅ -> cc_cache (counter s) = ∅ -> dag_inv s.
Proof.
  intros Hd Hv Hl He Hh Hc. split; rewrite ?Hd, ?Hv, ?Hl, ?He, ?Hh, ?Hc; try done.
  - constructor.
  - intros l. by intros ?%not_elem_of_nil.
  - exists (fun _ => 0%nat). intros l n t Hn. by rewrite lookup_empty in Hn.
Qed.

(** The dag of one node. *)
Lemma inv_single s l g :
  isolated g -> d_dag (dg s) = [l] -> mapped_vertices (dg s) = {[uid g := l]} ->
  d_links (dg s) = [] -> mapped_edges (dg s) = ∅ -> dheap s = {[l := g]} ->
  cc_cache (counter s) = {[uid g := l]} -> dag_inv s.
Proof.
  intros [Ht Hs] Hd Hv Hl He Hh Hc.
  assert (forall x n, dheap s !! x = Some n -> x = l /\ n = g) as Honly.
  { intros x n. rewrite Hh. by intros [-> ->]%lookup_singleton_Some. }
  split; rewrite ?Hd, ?Hv, ?Hl, ?He, ?Hc; try done.
  - apply NoDup_singleton.
  - intros x ->%list_elem_of_singleton. exists g. by rewrite Hh, !lookup_singleton_eq.
  - intros id x [<- <-]%lookup_singleton_Some. split; [left|]. by rewrite Hh, lookup_singleton_eq.
  - intros x n t [-> ->]%Honly. rewrite Ht. by intros ?%not_elem_of_nil.
  - intros x n t [-> ->]%Honly. rewrite Hs. by intros ?%not_elem_of_nil.
  - exists (fun _ => 0%nat). intros x n t [-> ->]%Honly. rewrite Ht. by intros ?%not_elem_of_nil.
  - intros x n _ [-> ->]%Honly. by rewrite Ht, lookup_empty.
Qed.

(** [Init] starts with empty caches and an empty counter. *)
Definition initial (s : DagWorld) : Prop := dheap s = ∅ /\ counter s = newConfirmationCounter.

Lemma newDag_inv cfg chaintype leader now s s' :
  initial s -> newDag dagWallet cfg chaintype leader now s = Return s' -> dag_inv s'.
Proof.
  intros [Hh Hc]. unfold newDag. destruct (genesis_node _ _) as [g|] eqn:Eg; cbn [outcome_bind]; [|done].
  assert (isolated g) as Hiso.
  { revert Eg. unfold genesis_node. destruct (NewGenesisTxv1 _ _); cbn [outcome_bind]; [|done].
    destruct (Txv1_Sign _ _); cbn [outcome_bind]; [|done]. by intros [= <-]. }
  destruct leader; [|intros [= <-]; apply inv_empty; try done; by cbn; rewrite Hc].
  destruct (alloc s g) as [s0 l] eqn:Ea. injection Ea as <- <-.
  destruct (ConfirmationCounter_add _ _ _) as [c|] eqn:Ec; cbn [outcome_bind]; [|done].
  apply counter_add_cache in Ec as (n & Hn & Hcache). cbn in Hn. rewrite lookup_insert_eq in Hn.
  injection Hn as <-. destruct (NodeTxPin_set _ _ _ _ _) as [p|]; cbn [outcome_bind]; [|done].
  intros [= <-]. eapply (inv_single _ _ g); try done.
  - by rewrite Hh.
  - cbn [counter with_world with_counter]. rewrite Hcache. cbn [counter with_dheap with_world]. by rewrite Hc.
Qed.

(** One step: a payment made here, a node from a peer, or a pin.  The node is
    new; its random draws are arbitrary. *)
Variable cfg : DagConfiguration.
Variable ReverseSlice : list loc -> list loc.
Variable undef : string -> Z.
Variable maxFuel : Z.

Inductive dag_step (s : DagWorld) : DagWorld -> Prop :=
| step_add n s1 l fuel ds now s' r :
    isolated n -> mapped_vertices (dg s) !! uid n = None -> alloc s n = (s1, l) -> draws_ok ds ->
    AddTxDag cfg fuel ds now s1 l = Some (Return (s', r)) -> dag_step s s'
| step_insert n s1 l txId major minor ids now s' e :
    isolated n -> alloc s n = (s1, l) ->
    InsertTxDag cfg ReverseSlice now s1 l txId major minor ids = Return (s', e) -> dag_step s s'
| step_pin now s' :
    genPinTx RunCall coinbase dagWallet undef maxFuel now s = Return s' -> dag_step s s'.

Inductive reachable (leader : bool) (chaintype : Z) : DagWorld -> Prop :=
| reach_init s0 now s :
    initial s0 -> newDag dagWallet cfg chaintype leader now s0 = Return s ->
    reachable leader chaintype s
| reach_step s s' :
    reachable leader chaintype s -> dag_step s s' -> reachable leader chaintype s'.

Hypothesis ReverseSlice_perm : forall l, ReverseSlice l ≡ₚ l.

Lemma dag_step_inv s s' : dag_inv s -> dag_step s s' -> dag_inv s'.
Proof.
  intros I [n s1 l fuel ds now s'' r Hiso Hid Ha Hd E|n s1 l txId ma mi ids now s'' e Hiso Ha E
           |now s'' E].
  - apply alloc_spec in Ha as (I1 & Hnone & Hh & Hdg & _ & Hnin); [|done|done].
    eapply kept_inv, (AddTxDag_kept cfg fuel ds now s1 l n); [done| |done|done].
    split; [by rewrite Hh, lookup_insert_eq|done|by rewrite Hdg|by rewrite Hdg].
  - apply alloc_spec in Ha as (I1 & Hnone & Hh & Hdg & _ & Hnin); [|done|done].
    eapply kept_inv, (InsertTxDag_kept cfg ReverseSlice ReverseSlice_perm now s1 l n); [done| |done| |exact E].
    + by rewrite Hh, lookup_insert_eq.
    + by rewrite Hdg.
  - by eapply kept_inv, genPinTx_kept.
Qed.

(** The dag stays well formed in every state a node reaches, as leader or
    as peer, by payments, insertions of peers' nodes (complete or with missing
    targets, accepted or refused) and pins: every node is found under its own
    id and only there, links are known at both ends, the recorded edges are the
    targets, the confirmation counter knows nodes of the dag only, and the
    graph has no cycles. *)
Theorem reachable_dag_well_formed leader chaintype s :
  reachable leader chaintype s -> dag_inv s.
Proof.
  induction 1 as [s0 now s Hi E|s s' _ IH Hs]; [by eapply newDag_inv|by eapply dag_step_inv].
Qed.
End Pins.

(** ** A leader and its first payment *)

Definition leader_wallet : Wallet :=
  {| privateKey := replicate 32 x03; publicKey := replicate 32 x03; walletAddress := sample_sender |}.

Definition empty_world : DagWorld :=
  {| dg := {| d_dag := []; mapped_vertices := ∅; d_links := []; mapped_edges := ∅; d_pins := [];
              width := 0; txCh := None |};
     counter := newConfirmationCounter;
     world := {| w_pins := newNodeTxPin; walletCache := ∅; walletCacheConfirmed := ∅;
                 w_store := NewStorage; w_smc := {| unconfirmedPool := ∅; confirmedPool := ∅ |};
                 pinsQuantity := 1; w_heap := ∅ |} |}.

Definition get_return {A} (o : outcome A) (d : A) : A := match o with Return a => a | Panic => d end.

Definition leader_dag : DagWorld :=
  get_return (newDag leader_wallet sample_config PRIVATE_TESTNET true 0 empty_world) empty_world.

Lemma leader_dag_new :
  newDag leader_wallet sample_config PRIVATE_TESTNET true 0 empty_world = Return leader_dag.
Proof. vm_compute. reflexivity. Qed.

Definition first_draws : add_draws :=
  {| a_shuffle := first_draw; a_first := first_draw; a_second := first_draw;
     a_walk1 _ := first_draw; a_walk2 _ := first_draw; a_other _ := first_draw |}.

Lemma first_draws_ok : draws_ok first_draws.
Proof. split_and!; apply first_draw_ok. Qed.

(** The payment of [sample_node] by the wallet of the genesis. *)
Definition paying_dag : DagWorld := fst (alloc leader_dag sample_node).

Lemma leader_dag_inv : dag_inv leader_dag.
Proof. eapply (newDag_inv leader_wallet); [|exact leader_dag_new]. done. Qed.

Lemma paying_dag_inv : dag_inv paying_dag.
Proof.
  destruct (alloc leader_dag sample_node) as [s l] eqn:E.
  unfold paying_dag. rewrite E. simpl.
  apply alloc_spec in E; [by apply E|exact leader_dag_inv|done].
Qed.

Lemma AddTxDag_payment_witness :
  exists s' r, AddTxDag sample_config 0 first_draws 7 paying_dag 1%nat = Some (Return (s', r))
  /\ dag_inv s' /\ d_dag (dg s') = [0%nat; 1%nat].
Proof.
  destruct (AddTxDag_payment sample_config 0 first_draws 7 paying_dag 1%nat sample_node 0%nat [])
    as (ts & s' & r & wc & ok & E & _ & Hub & _ & I & _ & Hres).
  - exact paying_dag_inv.
  - split; [vm_compute; reflexivity|done| |vm_compute; reflexivity].
    intros Hin. apply (bool_decide_pack _) in Hin. vm_compute in Hin. done.
  - repeat split; do 2 eexists; vm_compute; reflexivity.
  - constructor; [|constructor]. eexists. split; [vm_compute; reflexivity|].
    split; eexists; vm_compute; [split; reflexivity|reflexivity].
  - exact first_draws_ok.
  - discriminate.
  - reflexivity.
  - vm_compute. reflexivity.
  - left. vm_compute. reflexivity.
  - exists s', r. split; [exact E|]. split; [exact I|].
    destruct ok; [exact (pa_dag _ _ _ _ _ _ Hres)|exfalso].
    assert (match UpdateBalanceIfValid (w_pins (world paying_dag)) (walletCache (world paying_dag))
                    sample_node with Return (_, ok) => ok | Panic => false end = true) as Hok
      by (vm_compute; reflexivity).
    rewrite Hub in Hok. discriminate Hok.
Defined.

Lemma leader_pays : exists s r,
  AddTxDag sample_config 0 first_draws 7 paying_dag 1%nat = Some (Return (s, r))
  /\ d_dag (dg s) = [0%nat; 1%nat].
Proof.
  assert (match AddTxDag sample_config 0 first_draws 7 paying_dag 1%nat with
          | Some (Return (s, _)) => d_dag (dg s) | _ => [] end = [0%nat; 1%nat]) as Hd
    by (vm_compute; reflexivity).
  destruct (AddTxDag sample_config 0 first_draws 7 paying_dag 1%nat) as [[[s r]|]|]; [|done|done].
  by exists s, r.
Qed.

Lemma leader_alloc : alloc leader_dag sample_node = (paying_dag, 1%nat).
Proof. vm_compute. reflexivity. Qed.

Lemma sample_node_new : mapped_vertices (dg leader_dag) !! uid sample_node = None.
Proof. vm_compute. reflexivity. Qed.

#[local] Opaque leader_dag paying_dag.

Lemma reachable_dag_well_formed_witness :
  exists s, reachable sample_vm sample_account leader_wallet sample_config (@rev nat) (fun _ => 0) 10
              true PRIVATE_TESTNET s
  /\ dag_inv s /\ d_dag (dg s) = [0%nat; 1%nat].
Proof.
  destruct leader_pays as (s & r & E & Hd). exists s.
  assert (dag_step sample_vm sample_account leader_wallet sample_config (@rev nat) (fun _ => 0) 10
            leader_dag s) as Hstep.
  { exact (step_add _ _ _ _ _ _ _ leader_dag sample_node paying_dag 1%nat 0 first_draws 7 s r
      (conj eq_refl eq_refl) sample_node_new leader_alloc first_draws_ok E). }
  assert (reachable sample_vm sample_account leader_wallet sample_config (@rev nat) (fun _ => 0) 10
            true PRIVATE_TESTNET leader_dag) as Hinit.
  { exact (reach_init _ _ _ _ _ _ _ _ _ empty_world 0 leader_dag (conj eq_refl eq_refl) leader_dag_new). }
  pose proof (reach_step _ _ _ _ _ _ _ _ _ _ _ Hinit Hstep) as Hr.
  split; [exact Hr|]. split; [|exact Hd].
  exact (reachable_dag_well_formed sample_vm sample_account leader_wallet sample_config (@rev nat)
    (fun _ => 0) 10 (fun l => Permutation_sym (Permutation_rev l)) true PRIVATE_TESTNET s Hr).
Defined.
