(* ===== verification/DagInit.v ===== *)
(** The initialisation of the package: [Init] of [dag/dag.go] over [newDag].

    The variables of the package that [Init] does not set, the store and the
    pools, are taken from the state before. *)
From S2P Require Import Prelude GoLib Bytes Tx TxRecords Storage Pool WalletCache Node Pin PinProps.
From S2P Require Import Confirmation Weights Dag DagProps DagSteps.

(** What [Init] reads of the configuration. *)
Record dag_settings := {
  ds_Network : Z; ds_Dag : DagConfiguration; ds_Publickey : string; ds_Privatekey : string; ds_Leader : bool
}.

Section Init.
Context `{CryptoLib} `{ProtoLib} `{TimestampLib} `{EthLib} `{UuidLib} `{ProtoPinLib}.
Context `{Goterators} `{MathLib} `{MapRange} `{!CollSet uuid}.

Definition initDagWallet (c : dag_settings) : outcome Wallet := LoadWallet (ds_Publickey c) (ds_Privatekey c).

(** New caches, a new counter and new pins; the nodes of an earlier dag are garbage. *)
Definition fresh_package (s : DagWorld) : DagWorld :=
  {| dg := dg s; counter := newConfirmationCounter;
     world := {| w_pins := newNodeTxPin; walletCache := ∅; walletCacheConfirmed := ∅; w_store := w_store (world s);
                 w_smc := w_smc (world s); pinsQuantity := pinsQuantity (world s); w_heap := ∅ |} |}.

(** Without a configuration there are default values, but [newDag] reads the
    configuration itself: a nil pointer. *)
Definition Init (x : option dag_settings) (now : Z) (s : DagWorld) : outcome DagWorld :=
  match x with
  | None => Panic
  | Some x =>
      let! dagWallet := initDagWallet x in
      let! s := newDag dagWallet (ds_Dag x) (to_uint8 (ds_Network x)) (ds_Leader x) now (fresh_package s) in
      if ds_Leader x then
        let '(ico, found) := unsafe_getBalanceForWallet (w_pins (world s)) (walletCache (world s)) (walletAddress dagWallet) in
        if negb found then Panic
        else
          let! l := getGenesis (dg s) in
          match dheap s !! l with
          | None => Panic
          | Some genesis => if ico =? GetAmount (ntx genesis) then Return s else Panic
          end
      else Return s
  end.

(** ** The check of the initial coins *)

Lemma NodeTxPin_set_balance w now p g addr p' :
  NodeTxPin_set w now p g addr = Return p' ->
  unsafe_getLatestBalance p' addr = Some (Z.abs (GetAmount (ntx g))) /\
  forall a, a <> addr -> unsafe_getLatestBalance p' a = unsafe_getLatestBalance p a.
Proof using Type.
  unfold NodeTxPin_set. destruct (TxPin_SignTx _ w) as [pin|] eqn:E; cbn [outcome_bind]; [|done].
  apply SignTx_keeps in E as (_ & E & _). simpl in E. intros [= <-]. split.
  - rewrite latest_after, E, lookup_insert_eq. by rewrite SetBytes_Bytes.
  - intros a Ha. by rewrite latest_after, E, lookup_insert_ne, lookup_empty.
Qed.

Lemma Txv1_Sign_amount t pk t' : Txv1_Sign t pk = Return t' -> Amount t' = Amount t.
Proof using Type.
  unfold Txv1_Sign, Txv1_generateSignature. repeat (case_match; cbn [outcome_bind]; try done);
    repeat (destruct (DSA_Sign _ _); cbn [outcome_bind]; try done); by intros [= <-].
Qed.

Lemma genesis_amount w chaintype g : genesis_node w chaintype = Return g -> GetAmount (ntx g) = INITIAL_OFFERING.
Proof using Type.
  unfold genesis_node. destruct (NewGenesisTxv1 _ _) as [t|]; cbn [outcome_bind]; [|done].
  destruct (Txv1_Sign _ _) as [t'|] eqn:E; cbn [outcome_bind]; [|done]. intros [= <-]. simpl.
  apply Txv1_Sign_amount in E. unfold Txv1_GetAmount. rewrite E. simpl. by rewrite SetBytes_Bytes.
Qed.

(** The check of the initial coins never fails. Whenever newDag returns, Init
    returns the same state: for a leader the balance of its wallet is found and
    is the amount of the genesis transaction, which is the initial offering,
    and no other wallet has a balance; for another peer no wallet has one. The
    dag is well formed. *)
Theorem Init_returns x now s w s' :
  initDagWallet x = Return w ->
  newDag w (ds_Dag x) (to_uint8 (ds_Network x)) (ds_Leader x) now (fresh_package s) = Return s' ->
  Init (Some x) now s = Return s' /\ dag_inv s' /\
  (forall a, unsafe_getBalanceForWallet (w_pins (world s')) (walletCache (world s')) a =
     if ds_Leader x && bool_decide (a = walletAddress w) then (INITIAL_OFFERING, true) else (0, false)).
Proof using Type.
  intros Hw Hn.
  assert (dag_inv s') as Hinv by (eapply newDag_inv; [|exact Hn]; done).
  unfold Init. rewrite Hw. cbn [outcome_bind]. rewrite Hn. cbn [outcome_bind].
  unfold newDag in Hn. destruct (genesis_node w _) as [g|] eqn:Eg; cbn [outcome_bind] in Hn; [|done].
  pose proof (genesis_amount _ _ _ Eg) as Hamt.
  destruct (ds_Leader x); simpl; [|injection Hn as <-; by split_and!].
  destruct (alloc (fresh_package s) g) as [s0 l] eqn:Ea. injection Ea as <- <-.
  destruct (ConfirmationCounter_add _ _ _) as [c|]; cbn [outcome_bind] in Hn; [|done].
  destruct (NodeTxPin_set _ _ _ _ _) as [p|] eqn:Ep; cbn [outcome_bind] in Hn; [|done].
  apply NodeTxPin_set_balance in Ep as [Hown Hother]. rewrite Hamt in Hown.
  assert (forall a, unsafe_getBalanceForWallet (w_pins (world s')) (walletCache (world s')) a =
     if bool_decide (a = walletAddress w) then (INITIAL_OFFERING, true) else (0, false)) as Hbal.
  { intros a. injection Hn as <-. unfold unsafe_getBalanceForWallet. simpl.
    case_bool_decide as Ha; [by rewrite Ha, Hown|by rewrite Hother]. }
  split_and!; [|done|exact Hbal].
  rewrite Hbal, bool_decide_true by done. simpl. injection Hn as <-. simpl.
  cbn -[INITIAL_OFFERING lookup insert]. by rewrite lookup_insert_eq, Hamt.
Qed.
End Init.

(** ** A leader that starts *)

Fixpoint repeat_text (n : nat) (s : string) : string :=
  match n with O => EmptyString | S n => String.append s (repeat_text n s) end.

Definition leader_settings : dag_settings :=
  {| ds_Network := 2; ds_Dag := sample_config; ds_Publickey := repeat_text 32 "03"%string;
     ds_Privatekey := repeat_text 32 "03"%string; ds_Leader := true |}.

Lemma leader_starts :
  exists w s', initDagWallet leader_settings = Return w
    /\ Init (Some leader_settings) 0 empty_world = Return s'
    /\ unsafe_getBalanceForWallet (w_pins (world s')) (walletCache (world s')) (walletAddress w) = (INITIAL_OFFERING, true).
Proof.
  destruct (initDagWallet leader_settings) as [w|] eqn:Ew; [|vm_compute in Ew; discriminate].
  destruct (newDag w (ds_Dag leader_settings) (to_uint8 (ds_Network leader_settings)) (ds_Leader leader_settings) 0
              (fresh_package empty_world)) as [s'|] eqn:Es.
  - exists w, s'. destruct (Init_returns _ _ _ _ _ Ew Es) as (HI & _ & Hb).
    split_and!; [done|exact HI|]. rewrite Hb. by rewrite bool_decide_true.
  - exfalso. vm_compute in Ew. injection Ew as <-. vm_compute in Es. discriminate.
Qed.
