(* ===== verification/Visualize.v ===== *)
(** The drawings of the dag and of the pins: [dag/visualize.go].

    The graph library is not modelled: a drawing is the list of the calls that
    add its vertices and edges, in order. *)
From Stdlib Require Import SpecFloat.
From S2P Require Import Prelude GoLib Bytes Tx TxRecords Storage Pool WalletCache Node Pin PinProps.
From S2P Require Import Confirmation Weights Dag DagProps.

Inductive color := green | red | yellow.

(** The attributes of an edge: an approval, the approval by a pin, or the
    weight with its label. *)
Inductive edge_style := back | dotted | weighted (w : Z) (label : string).

Inductive draw_call :=
| DrawVertex (v : Z) (fill : option color)
| DrawEdge (a b : Z) (style : edge_style).

(** The edge between two pins and the parts of its label. *)
Inductive pin_call :=
| AddPin (sign : string)
| AddPinEdge (sign prev : string) (label : string * nat * string).

Section Drawing.
Context `{CryptoLib} `{ProtoLib} `{TimestampLib} `{EthLib} `{UuidLib} `{ProtoPinLib} `{Goterators}.
Variable h : heap.
Variable p : NodeTxPin.
Variable links : list Link.

Definition vertex_call (n : Node) : draw_call :=
  DrawVertex (to_int64 (idMajor (nid n)))
    (Some (if InPin p n then green else if negb (valid n) then red else yellow)).

(** The links whose source has the number of the vertex. *)
Fixpoint links_of (major : Z) (l : list Link) : outcome (list Link) :=
  match l with
  | [] => Return []
  | k :: rest => match h !! l_source k with
                 | None => Panic
                 | Some s => let! r := links_of major rest in
                             Return (if idMajor (nid s) =? major then k :: r else r)
                 end
  end.

Fixpoint vis_edges (nodes : list Node) : outcome (list Link) :=
  match nodes with
  | [] => Return []
  | n :: rest => let! e := links_of (idMajor (nid n)) links in
                 let! r := vis_edges rest in Return (e ++ r)
  end.

Definition edge_call (s t : Node) : draw_call :=
  DrawEdge (to_int64 (idMajor (nid t))) (to_int64 (idMajor (nid s)))
    (if GetTransactionType (ntx s) =? SERVICE_PIN then dotted else back).

(** A call for every link, from its source and its target. *)
Fixpoint link_calls (call : Node -> Node -> draw_call) (l : list Link) : outcome (list draw_call) :=
  match l with
  | [] => Return []
  | k :: rest => match h !! l_source k, h !! l_target k with
                 | Some s, Some t => let! r := link_calls call rest in Return (call s t :: r)
                 | _, _ => Panic
                 end
  end.

Definition visPopulateGraph (vertices : list loc) : outcome (list draw_call) :=
  let! nodes := deref h vertices in
  let! edges := vis_edges nodes in
  let! calls := link_calls edge_call edges in
  Return (map vertex_call nodes ++ calls).

(** One file with everything. *)
Definition visualizeMcmcPlus (dag : list loc) : outcome (list (list draw_call)) :=
  let! g := visPopulateGraph dag in Return [g].

(** [dag[from:to]]. *)
Definition dag_slice (dag : list loc) (from to : nat) : list loc := take (to - from) (drop from dag).

(** A file for every pin of the dag, from the pin before to this one. *)
Fixpoint pages_loop (dag : list loc) (idx : nat) (rest : list loc) (idxPin : nat) (files : list (list draw_call))
    : outcome (nat * list (list draw_call)) :=
  match rest with
  | [] => Return (idxPin, files)
  | l :: rest =>
      match h !! l with
      | None => Panic
      | Some val =>
          if GetTransactionType (ntx val) =? SERVICE_PIN then
            let! g := visPopulateGraph (dag_slice dag idxPin (S idx)) in
            pages_loop dag (S idx) rest idx (files ++ [g])
          else pages_loop dag (S idx) rest idxPin files
      end
  end.

(** After the loop the index is that of the last node, or 0 for an empty dag. *)
Definition visualizeMcmcPlusPlus (dag : list loc) : outcome (list (list draw_call)) :=
  let! r := pages_loop dag 0 dag 0 [] in
  let '(idxPin, files) := r in
  if (idxPin <? length dag - 1)%nat then
    let! g := visPopulateGraph (drop idxPin dag) in Return (files ++ [g])
  else Return files.

(** [int(f)]: towards zero; for an infinity or NaN the value is the machine's. *)
Definition float_int (machine : Z) (f : float64) : Z :=
  match f with
  | S754_zero _ => 0
  | S754_finite s m e => cond_Zopp s (if 0 <=? e then Zpos m * 2 ^ e else Zpos m / 2 ^ (- e))
  | _ => machine
  end.

Record tx_settings := { ts_Neutrino : float64; ts_Maxfuellimit : Z; ts_Maxfuelprice : Z }.

Definition f64_six : float64 := binary_normalize 53 1024 6 0 false.

Definition label_weight (c : tx_settings) (n : Node) : float64 :=
  f64_div (f64_mul (txWeight n) f64_six)
    (f64_mul (ts_Neutrino c)
       (binary_normalize 53 1024 (to_uint64 (ts_Maxfuellimit c * ts_Maxfuelprice c)) 0 false)).

Definition visualizeRandomWalk (FormatFloat : float64 -> string) (machine : Z) (c : tx_settings) (dag : list loc)
    : outcome (list (list draw_call)) :=
  let! nodes := deref h dag in
  let! calls := link_calls (fun s t =>
       DrawEdge (to_int64 (idMajor (nid t))) (to_int64 (idMajor (nid s)))
         (weighted (float_int machine (txWeight t)) (FormatFloat (label_weight c t)))) links in
  Return [map (fun n => DrawVertex (to_int64 (idMajor (nid n))) None) nodes ++ calls].

(** [s[:n]] of a string. *)
Definition prefix_of (n : nat) (s : string) : outcome string :=
  if (String.length s <? n)%nat then Panic else Return (String.substring 0 n s).

Definition sign_limit : nat := 10.

Definition signHash (sign : bytes) : outcome string := prefix_of sign_limit (hex_EncodeToString sign).

Fixpoint pin_vertices (l : list TxPin) : outcome (list pin_call) :=
  match l with
  | [] => Return []
  | pin :: rest => let! s := signHash (Sign pin) in let! r := pin_vertices rest in Return (AddPin s :: r)
  end.

Fixpoint pin_edges (l : list TxPin) : outcome (list pin_call) :=
  match l with
  | [] => Return []
  | pin :: rest =>
      let! sign := signHash (Sign pin) in
      let! prev := signHash (Prev pin) in
      let! s := prefix_of 5 sign in
      let! q := prefix_of 5 prev in
      let! r := pin_edges rest in
      Return (AddPinEdge sign prev (s, length (Sites pin), q) :: r)
  end.

(** The vertices from the first pin, the edges from the last pin to the second. *)
Definition visualizePins : outcome (list pin_call) :=
  let! vs := pin_vertices (pins p) in
  let! es := pin_edges (rev (tail (pins p))) in
  Return (vs ++ es).

Definition Dag_Visualize (FormatFloat : float64 -> string) (machine : Z) (c : tx_settings) (algorithm : string) (dag : list loc)
    : outcome (list (list draw_call) * list pin_call) :=
  let! files :=
    if bool_decide (algorithm = DagAlgo_Type DAG_ALGO_MCMCP) then visualizeMcmcPlus dag
    else if bool_decide (algorithm = DagAlgo_Type DAG_ALGO_MCMCPP) then visualizeMcmcPlusPlus dag
    else if bool_decide (algorithm = DagAlgo_Type DAG_ALGO_RANDOM) then visualizeRandomWalk FormatFloat machine c dag
    else Return [] in
  let! ps := visualizePins in
  Return (files, ps).
End Drawing.

(** ** The drawings exist *)

Section Drawn.
Context `{CryptoLib} `{ProtoLib} `{TimestampLib} `{EthLib} `{UuidLib} `{ProtoPinLib} `{Goterators}.
Variable h : heap.
Variable p : NodeTxPin.
Variable links : list Link.

Definition live (l : loc) : Prop := is_Some (h !! l).
Definition live_link (k : Link) : Prop := live (l_source k) /\ live (l_target k).

(** The node is a pin. *)
Definition is_pin (l : loc) : bool :=
  match h !! l with Some n => GetTransactionType (ntx n) =? SERVICE_PIN | None => false end.

Lemma deref_live l : Forall live l ->
  exists ns, deref h l = Return ns /\ Forall2 (fun x n => h !! x = Some n) l ns.
Proof using Type.
  induction 1 as [|x l [n Hn] _ (ns & E & IH)]; [by exists []|].
  exists (n :: ns). cbn [deref]. rewrite Hn, E. by split; [|constructor].
Qed.

Lemma links_of_live major l : Forall live_link l ->
  exists r, links_of h major l = Return r /\ Forall live_link r.
Proof using Type.
  induction 1 as [|k l Hk _ (r & E & IH)]; [by exists []|].
  destruct Hk as [[s Hs] Ht]. cbn [links_of]. rewrite Hs, E. cbn [outcome_bind].
  eexists; split; [done|]. case_match; [|done]. constructor; [|done]. by split; [exists s|].
Qed.

Lemma vis_edges_live ns : Forall live_link links ->
  exists r, vis_edges h links ns = Return r /\ Forall live_link r.
Proof using Type.
  intros Hl. induction ns as [|n ns (r & E & IH)]; [by exists []|].
  destruct (links_of_live (idMajor (nid n)) links Hl) as (e & Ee & He). cbn [vis_edges].
  rewrite Ee, E. cbn [outcome_bind]. eexists; split; [done|]. by apply Forall_app.
Qed.

Lemma link_calls_live call l : Forall live_link l -> exists r, link_calls h call l = Return r.
Proof using Type.
  induction 1 as [|k l [[s Hs] [t Ht]] _ (r & E)]; [by exists []|].
  cbn [link_calls]. rewrite Hs, Ht, E. by eexists.
Qed.

Lemma visPopulateGraph_live vs : Forall live vs -> Forall live_link links ->
  exists g, visPopulateGraph h p links vs = Return g.
Proof using Type.
  intros Hv Hl. unfold visPopulateGraph. destruct (deref_live vs Hv) as (ns & -> & _). cbn [outcome_bind].
  destruct (vis_edges_live ns Hl) as (es & -> & He). cbn [outcome_bind].
  destruct (link_calls_live edge_call es He) as (r & ->). by eexists.
Qed.

(** ** The files of MCMC++ *)

(** The dag that the slices are pages of: each repeats the last node of the one before. *)
Definition join (slices : list (list loc)) : list loc :=
  match slices with [] => [] | s :: rest => s ++ concat (map tail rest) end.

Lemma join_snoc slices s : slices <> [] -> join (slices ++ [s]) = join slices ++ tail s.
Proof using Type.
  destruct slices as [|x r]; [done|]. intros _. simpl. rewrite map_app, concat_app. simpl.
  by rewrite app_nil_r, app_assoc.
Qed.

Lemma join_slice (dag : list loc) a b : (a < b)%nat ->
  take (S a) dag ++ tail (dag_slice dag a (S b)) = take (S b) dag.
Proof using Type.
  intros Hab. unfold dag_slice. replace (S b - a)%nat with (S (b - a)) by lia.
  rewrite <- (take_drop (S a) (take (S b) dag)), take_take, Nat.min_l by lia. f_equal.
  replace (drop (S a) (take (S b) dag)) with (tail (drop a (take (S b) dag))).
  - f_equal. rewrite skipn_firstn_comm. f_equal; lia.
  - replace (S a) with (a + 1)%nat by lia. rewrite <- drop_drop. by destruct (drop a _).
Qed.

(** The slices drawn so far cover the nodes up to the last pin. *)
Definition pages_so_far (dag : list loc) (idx idxPin : nat) (slices : list (list loc)) : Prop :=
  (slices = [] /\ idxPin = 0%nat) \/ (slices <> [] /\ (idxPin < idx)%nat /\ join slices = take (S idxPin) dag).

Lemma pages_next dag idx idxPin slices : pages_so_far dag idx idxPin slices ->
  pages_so_far dag (S idx) idx (slices ++ [dag_slice dag idxPin (S idx)]).
Proof using Type.
  intros [[-> ->]|(Hne & Hlt & Hj)]; right; (split; [|split; [lia|]]); try (intros Hnil; by apply app_nil in Hnil as [_ ?]).
  - cbn [app join map concat]. by rewrite app_nil_r.
  - by rewrite join_snoc, Hj, join_slice.
Qed.

(** Only the last node of a slice after its first is a pin. *)
Definition one_pin (s : list loc) : Prop := forall x, x ∈ removelast (tail s) -> is_pin x = false.

(** No pin strictly between the two indexes. *)
Definition no_pin_between (dag : list loc) (a b : nat) : Prop :=
  forall j x, (a < j < b)%nat -> dag !! j = Some x -> is_pin x = false.

Lemma interior_lookup (s : list loc) x : x ∈ removelast (tail s) ->
  exists i, s !! S i = Some x /\ (S (S i) < length s)%nat.
Proof using Type.
  intros Hx. rewrite removelast_firstn_len in Hx. apply list_elem_of_lookup in Hx as [i Hi].
  apply lookup_take_Some in Hi as [Hi Hlt]. destruct s as [|y s]; [done|]. cbn [tail] in *.
  exists i. simpl. split; [done|]. lia.
Qed.

Lemma slice_one_pin dag a b : no_pin_between dag a b -> one_pin (dag_slice dag a (S b)).
Proof using Type.
  intros Hn x Hx. apply interior_lookup in Hx as (i & Hi & Hlen). unfold dag_slice in *.
  apply lookup_take_Some in Hi as [Hi _]. rewrite lookup_drop in Hi. rewrite length_take in Hlen.
  eapply (Hn (a + S i)%nat); [lia|done].
Qed.

Lemma rest_one_pin dag a : no_pin_between dag a (length dag) -> one_pin (drop a dag).
Proof using Type.
  intros Hn x Hx. apply interior_lookup in Hx as (i & Hi & Hlen). rewrite lookup_drop in Hi.
  rewrite length_drop in Hlen. eapply (Hn (a + S i)%nat); [lia|done].
Qed.

Definition drawn (s : list loc) (g : list draw_call) : Prop := visPopulateGraph h p links s = Return g.

(** What the loop knows before the index. *)
Record pages_at (dag : list loc) (idx idxPin : nat) (slices : list (list loc)) (files : list (list draw_call)) : Prop := {
  pg_join : pages_so_far dag idx idxPin slices;
  pg_drawn : Forall2 drawn slices files;
  pg_one : Forall one_pin slices;
  pg_gap : no_pin_between dag idxPin idx;
  pg_pin : slices <> [] -> exists x, dag !! idxPin = Some x /\ is_pin x = true;
  pg_none : slices = [] -> forall x, dag !! 0%nat = Some x -> (0 < idx)%nat -> is_pin x = false
}.

Hypothesis Hlinks : Forall live_link links.

Lemma pages_loop_spec dag rest : Forall live dag -> forall idx idxPin slices files,
  drop idx dag = rest -> (idx <= length dag)%nat -> pages_at dag idx idxPin slices files ->
  exists idxPin' slices' files', pages_loop h p links dag idx rest idxPin files = Return (idxPin', files')
    /\ pages_at dag (length dag) idxPin' slices' files'.
Proof using Hlinks.
  intros Hlive. induction rest as [|l rest IH]; intros idx idxPin slices files Hd Hle Hp.
  - exists idxPin, slices, files. split; [done|].
    assert (length dag <= idx)%nat as Hge by (rewrite <- (Nat.sub_0_le (length dag)), <- length_drop, Hd; done).
    by replace (length dag) with idx by lia.
  - assert (dag !! idx = Some l) as Hl by (rewrite <- (Nat.add_0_r idx), <- lookup_drop, Hd; done).
    assert (idx < length dag)%nat as Hlt by (by eapply lookup_lt_Some).
    assert (drop (S idx) dag = rest) as Hd'.
    { replace (S idx) with (idx + 1)%nat by lia. by rewrite <- drop_drop, Hd. }
    destruct (Forall_lookup_1 _ _ _ _ Hlive Hl) as [n Hn]. cbn [pages_loop]. rewrite Hn.
    destruct Hp as [Hj Hf Ho Hg Hpn Hnone].
    assert (is_pin l = (GetTransactionType (ntx n) =? SERVICE_PIN)) as Hpin by (unfold is_pin; by rewrite Hn).
    destruct (_ =? SERVICE_PIN).
    + destruct (visPopulateGraph_live (dag_slice dag idxPin (S idx))) as [g Eg];
        [by apply Forall_take, Forall_drop|done|]. rewrite Eg. cbn [outcome_bind].
      eapply IH; [done|lia|]. split.
      * by apply pages_next.
      * apply Forall2_app; [done|by constructor].
      * apply Forall_app; split; [done|]. constructor; [by apply slice_one_pin|done].
      * intros j x ?. lia.
      * intros _. exists l. split; [done|congruence].
      * by destruct slices.
    + eapply IH; [done|lia|]. split; [|exact Hf|exact Ho| |done|].
      * destruct Hj as [?|(? & ? & ?)]; [by left|right]. split_and!; [done|lia|done].
      * intros j x Hjx Hx. destruct (decide (j = idx)) as [->|]; [congruence|]. eapply Hg; [|done]. lia.
      * intros Hs x Hx _. destruct (decide (idx = 0%nat)) as [->|]; [congruence|]. apply Hnone; [done..|lia].
Qed.

(** The files of MCMC++. The drawing of a dag whose nodes and links exist
    always ends, and every file draws a slice of the dag in which only the last
    node, and possibly the first, is a pin. The slices are pages: each begins
    with the node that ends the one before, and together they are the whole
    dag; only a dag of one node that is not a pin has no file at all. *)
Theorem McmcPlusPlus_pages dag : Forall live dag ->
  exists files slices, visualizeMcmcPlusPlus h p links dag = Return files
    /\ Forall2 drawn slices files /\ Forall one_pin slices
    /\ join slices = (if (length dag =? 1)%nat && negb (existsb is_pin dag) then [] else dag).
Proof using Hlinks.
  intros Hlive. unfold visualizeMcmcPlusPlus.
  destruct (pages_loop_spec dag dag Hlive 0 0 [] []) as (ip & sl & fs & -> & [Hj Hf Ho Hg Hpn Hnone]); [done|lia| |].
  { split; try done; [by left|intros j x ?; lia|intros _ x _ ?; lia]. }
  cbn [outcome_bind]. destruct (Nat.ltb_spec ip (length dag - 1)) as [Hlt|Hge].
  - destruct (visPopulateGraph_live (drop ip dag)) as [g Eg]; [by apply Forall_drop|done|]. rewrite Eg.
    exists (fs ++ [g]), (sl ++ [drop ip dag]). split_and!; [done|apply Forall2_app; [done|by constructor]| |].
    { apply Forall_app; split; [done|]. constructor; [by apply rest_one_pin|done]. }
    rewrite (proj2 (Nat.eqb_neq (length dag) 1)) by lia. simpl.
    destruct Hj as [[-> ->]|(Hne & _ & Hj)]; [simpl; by rewrite app_nil_r|].
    rewrite join_snoc, Hj by done. rewrite <- (take_drop (S ip) dag) at 3. f_equal.
    replace (S ip) with (ip + 1)%nat by lia. rewrite <- drop_drop. by destruct (drop ip dag).
  - exists fs, sl. split_and!; [done..|]. destruct Hj as [[-> ->]|(Hne & Hl & Hj)].
    + simpl. destruct dag as [|x [|y dag]]; simpl in *; [done| |lia].
      rewrite (Hnone eq_refl x eq_refl) by lia. done.
    + rewrite Hj, take_ge by lia. destruct dag as [|x [|y dag]]; [done| |done]. simpl.
      destruct (Hpn Hne) as (y & Hy & Hpin). destruct ip; [|done]. injection Hy as <-. by rewrite Hpin.
Qed.

(** ** Vertices are drawn by their number *)

Definition same_major (m : Z) (l : loc) : Prop := exists n, h !! l = Some n /\ idMajor (nid n) = m.

Lemma links_of_same m l : Forall (fun k => same_major m (l_source k)) l -> links_of h m l = Return l.
Proof using Type.
  induction 1 as [|k l (n & Hn & Hm) _ IH]; [done|]. cbn [links_of]. rewrite Hn, IH. cbn [outcome_bind].
  by rewrite Hm, Z.eqb_refl.
Qed.

Lemma link_calls_same m l : Forall (fun k => same_major m (l_source k) /\ same_major m (l_target k)) l ->
  exists calls, link_calls h edge_call l = Return calls /\ length calls = length l
    /\ Forall (fun c => exists style, c = DrawEdge (to_int64 m) (to_int64 m) style) calls.
Proof using Type.
  induction 1 as [|k l [(s & Hs & Ms) (t & Ht & Mt)] _ (cs & E & Hl & HF)]; [by exists []|].
  cbn [link_calls]. rewrite Hs, Ht, E. cbn [outcome_bind]. eexists; split_and!; [done|simpl; by rewrite Hl|].
  constructor; [|done]. unfold edge_call. rewrite Ms, Mt. by eexists.
Qed.

Lemma vis_edges_same m ns : Forall (fun n => idMajor (nid n) = m) ns ->
  Forall (fun k => same_major m (l_source k)) links ->
  vis_edges h links ns = Return (concat (map (fun _ => links) ns)).
Proof using Type.
  intros Hns Hm. induction Hns as [|n ns Hn _ IH]; [done|]. cbn [vis_edges].
  by rewrite Hn, links_of_same, IH.
Qed.

(** The vertices of a drawing are numbers, and the nodes that a peer makes
    itself all have the number 0. When all nodes have one number, the drawing
    has that one vertex, and every link is added once for every node of the
    slice, as an edge from the vertex to itself. *)
Theorem one_number_drawing m vs :
  Forall (same_major m) vs -> Forall (fun k => same_major m (l_source k) /\ same_major m (l_target k)) links ->
  exists fills edges, visPopulateGraph h p links vs = Return (map (fun c => DrawVertex (to_int64 m) (Some c)) fills ++ edges)
    /\ length fills = length vs /\ length edges = (length vs * length links)%nat
    /\ Forall (fun c => exists style, c = DrawEdge (to_int64 m) (to_int64 m) style) edges.
Proof using Type.
  intros Hv Hk. destruct (deref_live vs) as (ns & E & HD).
  { eapply Forall_impl; [exact Hv|]. intros x (n & Hn & _). by exists n. }
  assert (Forall (fun n => idMajor (nid n) = m) ns) as Hns.
  { clear E. revert Hv. induction HD; inversion_clear 1 as [|? ? (n & Hn & Hm)]; constructor; [congruence|auto]. }
  unfold visPopulateGraph. rewrite E. cbn [outcome_bind].
  rewrite (vis_edges_same m); [|done|eapply Forall_impl; [exact Hk|by intros ? []]]. cbn [outcome_bind].
  destruct (link_calls_same m (concat (map (fun _ => links) ns))) as (cs & -> & Hlen & HF).
  { clear -Hk. induction ns; [done|]. simpl. by apply Forall_app. }
  exists (map (fun n => if InPin p n then green else if negb (valid n) then red else yellow) ns), cs.
  split_and!; [| | |done].
  - rewrite map_map. cbn [outcome_bind]. do 2 f_equal. apply map_ext_Forall.
    eapply Forall_impl; [exact Hns|]. intros n Hn. unfold vertex_call. by rewrite Hn.
  - rewrite length_map. symmetry. by eapply Forall2_length.
  - rewrite Hlen, (Forall2_length _ _ _ HD). clear. induction ns; [done|]. simpl. by rewrite length_app, IHns.
Qed.

(** ** Pins *)

Lemma substring_length n : forall s, (n <= String.length s)%nat -> String.length (String.substring 0 n s) = n.
Proof using Type. induction n; intros [|a s]; simpl; try done; [lia|]. intros. f_equal. apply IHn. lia. Qed.

Lemma signHash_returns b : (exists s, signHash b = Return s /\ String.length s = sign_limit) <-> (5 <= length b)%nat.
Proof using Type.
  unfold signHash, prefix_of, sign_limit. rewrite hex_EncodeToString_length. destruct (Nat.ltb_spec (2 * length b) 10) as [Hl|Hl].
  - split; [by intros (s & ? & _)|]. lia.
  - split; [lia|]. intros _. eexists; split; [done|]. apply substring_length. rewrite hex_EncodeToString_length. lia.
Qed.

Lemma signHash_cases b :
  if (length b <? 5)%nat then signHash b = Panic
  else exists s q, signHash b = Return s /\ prefix_of 5 s = Return q.
Proof using Type.
  destruct (Nat.ltb_spec (length b) 5) as [Hl|Hl].
  - unfold signHash, prefix_of, sign_limit. rewrite hex_EncodeToString_length.
    by rewrite (proj2 (Nat.ltb_lt _ _)) by lia.
  - apply signHash_returns in Hl as (s & E & Hs). exists s. unfold prefix_of. rewrite Hs. by eexists.
Qed.

Definition short (b : bytes) : bool := (length b <? 5)%nat.

Lemma pin_vertices_cases l :
  if existsb (fun q => short (Sign q)) l then pin_vertices l = Panic
  else exists r, pin_vertices l = Return r /\ length r = length l.
Proof using Type.
  induction l as [|q l IH]; [by exists []|]. cbn [existsb pin_vertices]. unfold short at 1.
  pose proof (signHash_cases (Sign q)) as Hc. destruct (_ <? 5)%nat; simpl; [by rewrite Hc|].
  destruct Hc as (s & _ & -> & _). cbn [outcome_bind]. destruct (existsb _ l); [by rewrite IH|].
  destruct IH as (r & -> & Hr). eexists; split; [done|]. simpl. by rewrite Hr.
Qed.

Lemma pin_edges_cases l :
  if existsb (fun q => short (Sign q) || short (Prev q)) l then pin_edges l = Panic
  else exists r, pin_edges l = Return r /\ length r = length l.
Proof using Type.
  induction l as [|q l IH]; [by exists []|]. cbn [existsb pin_edges]. unfold short at 1 2.
  pose proof (signHash_cases (Sign q)) as Hs. pose proof (signHash_cases (Prev q)) as Hp.
  destruct (length (Sign q) <? 5)%nat; simpl; [by rewrite Hs|]. destruct Hs as (s & s' & -> & Es). cbn [outcome_bind].
  destruct (length (Prev q) <? 5)%nat; simpl; [by rewrite Hp|]. destruct Hp as (t & t' & -> & Et). cbn [outcome_bind].
  rewrite Es. cbn [outcome_bind]. rewrite Et. cbn [outcome_bind].
  destruct (existsb _ l); [by rewrite IH|].
  destruct IH as (r & -> & Hr). eexists; split; [done|]. simpl. by rewrite Hr.
Qed.

Lemma existsb_rev {A} (f : A -> bool) l : existsb f (rev l) = existsb f l.
Proof using Type.
  induction l as [|x l IH]; [done|]. simpl. rewrite existsb_app, IH. simpl. rewrite orb_false_r. apply orb_comm.
Qed.

(** The drawing of the pins: it panics exactly when a signature has less than 5
    bytes, or the hash of the previous pin does in a pin after the first; a
    peer whose later pins lost that hash dies while it shuts down. Otherwise it
    has a vertex for each pin and an edge for each pin but the first. *)
Theorem visualizePins_spec :
  if existsb (fun q => short (Sign q)) (pins p) || existsb (fun q => short (Prev q)) (tail (pins p))
  then visualizePins p = Panic
  else exists r, visualizePins p = Return r /\ length r = (length (pins p) + pred (length (pins p)))%nat.
Proof using Type.
  unfold visualizePins. pose proof (pin_vertices_cases (pins p)) as Hv.
  pose proof (pin_edges_cases (rev (tail (pins p)))) as He. rewrite existsb_rev in He.
  destruct (existsb (fun q => short (Sign q)) (pins p)) eqn:Es; simpl; [by rewrite Hv|].
  destruct Hv as (vs & -> & Lv). cbn [outcome_bind].
  replace (existsb (fun q => short (Sign q) || short (Prev q)) (tail (pins p)))
    with (existsb (fun q => short (Prev q)) (tail (pins p))) in He.
  - destruct (existsb (fun q => short (Prev q)) (tail (pins p))); [by rewrite He|]. destruct He as (es & -> & Le). eexists; split; [done|].
    rewrite length_app, Lv, Le, length_rev. by destruct (pins p).
  - destruct (pins p) as [|q l]; [done|]. simpl in Es. apply orb_false_iff in Es as [_ Es]. simpl. clear -Es.
    induction l as [|x l IH]; [done|]. simpl in *. apply orb_false_iff in Es as [-> Es]. by rewrite IH.
Qed.
End Drawn.

(** The drawing of the dag of a running peer: a dag that meets the invariant,
    with any algorithm, draws its files. *)
Theorem Dag_Visualize_returns `{CryptoLib} `{ProtoLib} `{TimestampLib} `{EthLib} `{UuidLib} `{ProtoPinLib} `{Goterators}
    `{MathLib} `{MapRange} `{!CollSet uuid} s FormatFloat machine c algorithm ps :
  dag_inv s -> visualizePins (w_pins (world s)) = Return ps ->
  exists files, Dag_Visualize (dheap s) (w_pins (world s)) (d_links (dg s)) FormatFloat machine c algorithm (d_dag (dg s))
    = Return (files, ps).
Proof.
  intros Hinv Hps. assert (Forall (live (dheap s)) (d_dag (dg s))) as Hl.
  { apply Forall_forall. intros l Hl. destruct (inv_dag _ Hinv l Hl) as (n & Hn & _). by exists n. }
  pose proof (inv_links _ Hinv) as Hk. unfold Dag_Visualize. rewrite Hps.
  assert (exists files, (if bool_decide (algorithm = DagAlgo_Type DAG_ALGO_MCMCP) then visualizeMcmcPlus (dheap s) (w_pins (world s)) (d_links (dg s)) (d_dag (dg s))
    else if bool_decide (algorithm = DagAlgo_Type DAG_ALGO_MCMCPP) then visualizeMcmcPlusPlus (dheap s) (w_pins (world s)) (d_links (dg s)) (d_dag (dg s))
    else if bool_decide (algorithm = DagAlgo_Type DAG_ALGO_RANDOM) then visualizeRandomWalk (dheap s) (d_links (dg s)) FormatFloat machine c (d_dag (dg s))
    else Return []) = Return files) as [files ->]; [|by exists files].
  repeat case_bool_decide.
  - unfold visualizeMcmcPlus. destruct (visPopulateGraph_live (dheap s) (w_pins (world s)) (d_links (dg s)) _ Hl Hk) as [g ->]. by eexists.
  - destruct (McmcPlusPlus_pages (dheap s) (w_pins (world s)) (d_links (dg s)) Hk _ Hl) as (files & _ & -> & _). by eexists.
  - unfold visualizeRandomWalk. destruct (deref_live (dheap s) _ Hl) as (ns & -> & _). cbn [outcome_bind].
    edestruct (link_calls_live (dheap s)) as [r ->]; [exact Hk|]. by eexists.
  - by eexists.
Qed.
