(* ===== verification/Traverse.v ===== *)
(** Traversal of the dag: [dag/traverse.go] ([visit] and [traverseDagSlice]).

    [visit] is recursive and shares one stack between its calls: each call
    empties the stack before it returns.  The model takes fuel; [slice_fuel]
    is enough for every dag, see [traverseDagSlice_reaches]. *)
From S2P Require Import Prelude GoLib Dfs Bytes Tx TxRecords Storage Pool WalletCache Node Pin.
From S2P Require Import PinProps PinSync Confirmation Weights Dag DagProps DagSteps.

Section Traverse.
Context `{Goterators} `{MapRange} `{!CollSet uuid} `{CollStack}.
Variable h : heap.

(** The type of the transaction of a known vertex; [None] for an unknown one. *)
Definition vertex_type (d : Dag) (id : uuid) : outcome (option Z) :=
  match Dag_Vertex d id with
  | None => Return None
  | Some l => match h !! l with
              | None => Panic
              | Some n => Return (Some (GetTransactionType (ntx n)))
              end
  end.

Definition edges_of (d : Dag) (id : uuid) : list uuid := default [] (mapped_edges d !! id).

(** [None] when the fuel is used up. *)
Fixpoint visit (fuel : nat) (d : Dag) (visited : cls) (ws : cst uuid) (id : uuid)
  : option (outcome (cls * cst uuid)) :=
  match fuel with
  | O => None
  | S fuel =>
      let visited := cls_Insert visited id in
      match vertex_type d id with
      | Panic | Return None => Some Panic
      | Return (Some t) =>
          if t =? SERVICE_PIN then Some (Return (visited, ws))
          else visit_rest fuel d visited (push_all ws (edges_of d id))
      end
  end
(** The loop over the stack. *)
with visit_rest (fuel : nat) (d : Dag) (visited : cls) (ws : cst uuid)
  : option (outcome (cls * cst uuid)) :=
  match fuel with
  | O => None
  | S fuel =>
      if 0 <? cst_Len ws then
        match cst_Pop ws with
        | (None, _) => Some Panic
        | (Some id, ws) =>
            if negb (cls_Has visited id) then
              match vertex_type d id with
              | Panic => Some Panic
              | Return (Some t) =>
                  if negb (t =? SERVICE_PIN) then
                    fuel_bind (visit fuel d visited ws id) (fun '(visited, ws) =>
                      visit_rest fuel d visited ws)
                  else visit_rest fuel d visited ws
              | Return None => visit_rest fuel d visited ws
              end
            else visit_rest fuel d visited ws
        end
      else Some (Return (visited, ws))
  end.

Fixpoint visit_roots (fuel : nat) (d : Dag) (visited : cls) (ws : cst uuid) (ids : list uuid)
  : option (outcome cls) :=
  match ids with
  | [] => Some (Return visited)
  | id :: rest => fuel_bind (visit fuel d visited ws id) (fun '(visited, ws) =>
                    visit_roots fuel d visited ws rest)
  end.

(** The dag with its maps brought up to date, and the visited ids. *)
Definition traverseDagSlice (fuel : nat) (d : Dag) (ids : list uuid)
  : option (outcome (Dag * list uuid)) :=
  fuel_bind (Some (updateMappedVertices h d)) (fun d =>
  fuel_bind (Some (updateMappedEdges h d)) (fun d =>
  fuel_bind (visit_roots fuel d cls_New cst_New ids) (fun visited =>
  Some (Return (d, cls_list visited))))).

(** ** Reachable vertices *)

Variable d : Dag.

(** A known vertex that is not a pin. *)
Definition open (id : uuid) : Prop :=
  exists t, vertex_type d id = Return (Some t) /\ t <> SERVICE_PIN.

Definition reaches : list uuid -> uuid -> Prop := leads (edges_of d) open.

Definition known : list uuid := (map_to_list (mapped_vertices d)).*1.

Definition slice_fuel : nat := (2 * unvisited (edges_of d) ∅ known + 3)%nat.

Lemma vertex_type_known id t : vertex_type d id = Return (Some t) -> id ∈ known.
Proof.
  unfold vertex_type, Dag_Vertex. destruct (mapped_vertices d !! id) as [l|] eqn:E; [|done].
  intros _. apply list_elem_of_fmap. exists (id, l). split; [done|]. by apply elem_of_map_to_list.
Qed.

(** ** What the loop computes *)

(** No known vertex is a nil pointer. *)
Hypothesis no_nil : forall id, exists o, vertex_type d id = Return o.

Lemma visit_rest_spec fuel : forall visited ws,
  (length (cst_elems ws) + unvisited (edges_of d) (cls_elems visited) known < fuel)%nat ->
  exists visited' ws', visit_rest fuel d visited ws = Some (Return (visited', ws'))
  /\ cst_elems ws' = [] /\ visits (edges_of d) open (cls_elems visited) (cst_elems ws) (cls_elems visited').
Proof.
  induction fuel as [fuel IH] using lt_wf_ind. intros visited ws Hf.
  destruct fuel as [|fuel]; [lia|]. cbn [visit_rest].
  destruct (cst_elems ws) as [|x W] eqn:Ews.
  { rewrite stack_empty by done. exists visited, ws. split; [done|]. split; [done|]. apply visits_done. }
  destruct (stack_pop ws x W Ews) as (-> & ws1 & -> & Hsnd).
  cbn [length] in Hf. rewrite cls_Has_spec.
  assert (forall Hskip : open x -> x ∈ cls_elems visited,
    exists visited' ws', visit_rest fuel d visited ws1 = Some (Return (visited', ws'))
    /\ cst_elems ws' = [] /\ visits (edges_of d) open (cls_elems visited) (x :: W) (cls_elems visited')) as Hrec.
  { intros Hskip. destruct (IH fuel ltac:(lia) visited ws1) as (v' & w' & -> & Hw' & HV);
      [rewrite Hsnd; lia|].
    exists v', w'. split; [done|]. split; [done|]. apply visits_skip; [done|]. by rewrite <- Hsnd. }
  case_bool_decide as Hin; cbn [negb]; [by apply Hrec|].
  destruct (no_nil x) as [[t|] Ht]; rewrite Ht.
  2:{ apply Hrec. intros (t & Ht' & _). congruence. }
  destruct (Z.eqb_spec t SERVICE_PIN) as [Hpin|Hpin]; cbn [negb].
  { apply Hrec. intros (t' & Ht' & Hne). congruence. }
  destruct fuel as [|fuel]; [lia|]. cbn [visit]. rewrite Ht.
  destruct (Z.eqb_spec t SERVICE_PIN); [done|].
  pose proof (unvisited_step (edges_of d) (cls_elems visited) known x (vertex_type_known x t Ht) Hin) as Hstep.
  destruct (IH fuel ltac:(lia) (cls_Insert visited x) (push_all ws1 (edges_of d x)))
    as (v1 & w1 & -> & Hw1 & HV1).
  { rewrite push_all_elems, length_app, length_rev, Hsnd, cls_Insert_spec. lia. }
  rewrite push_all_elems, Hsnd, cls_Insert_spec in HV1. cbn [fuel_bind].
  destruct (IH (S fuel) ltac:(lia) v1 w1) as (v2 & w2 & E2 & Hw2 & HV2).
  { rewrite Hw1. simpl. pose proof (unvisited_mono (edges_of d) _ _ known (visits_keep _ _ _ _ _ HV1)). lia. }
  rewrite E2. exists v2, w2. split; [done|]. split; [done|]. rewrite Hw1 in HV2.
  eapply visits_trans; [|exact HV2]. apply visits_open; [by exists t|done].
Qed.

(** ** Roots *)

(** From [V] to [V'] by visiting the roots [ids]. *)
Record roots_visited (V : gset uuid) (ids : list uuid) (V' : gset uuid) : Prop := {
  rv_keep : V ⊆ V';
  rv_roots : forall x, x ∈ ids -> x ∈ V';
  rv_closed : closed_upto (edges_of d) open V [] -> closed_upto (edges_of d) open V' [];
  rv_only : forall P, follows (edges_of d) open P -> (forall x, x ∈ V -> P x) -> (forall x, x ∈ ids -> P x) ->
            forall x, x ∈ V' -> P x
}.

Lemma visit_root_spec fuel visited ws id t :
  (slice_fuel <= fuel)%nat -> cst_elems ws = [] -> vertex_type d id = Return (Some t) ->
  exists visited' ws', visit fuel d visited ws id = Some (Return (visited', ws'))
  /\ cst_elems ws' = [] /\ roots_visited (cls_elems visited) [id] (cls_elems visited').
Proof.
  intros Hf Hws Ht. unfold slice_fuel in Hf. destruct fuel as [|fuel]; [lia|]. cbn [visit]. rewrite Ht.
  destruct (Z.eqb_spec t SERVICE_PIN) as [Hpin|Hpin].
  - exists (cls_Insert visited id), ws. split; [done|]. split; [done|]. rewrite cls_Insert_spec.
    split; [set_solver|set_solver| |].
    + intros HC a b [->%elem_of_singleton|Ha]%elem_of_union Hoa Hb Hob.
      * destruct Hoa as (t' & Ht' & Hne). congruence.
      * destruct (HC a b Ha Hoa Hb Hob) as [|?%not_elem_of_nil]; [left; set_solver|done].
    + intros P HP HV Hid x [->%elem_of_singleton|Hx]%elem_of_union; [apply Hid; left|by apply HV].
  - pose proof (edges_bound (edges_of d) known id (vertex_type_known id t Ht)) as He.
    pose proof (unvisited_mono (edges_of d) ∅ ({[id]} ∪ cls_elems visited) known ltac:(set_solver)) as Hu.
    destruct (visit_rest_spec fuel (cls_Insert visited id) (push_all ws (edges_of d id)))
      as (v' & w' & E & Hw' & HV).
    { rewrite push_all_elems, length_app, length_rev, Hws, cls_Insert_spec. simpl. lia. }
    exists v', w'. split; [done|]. split; [done|].
    rewrite push_all_elems, Hws, cls_Insert_spec in HV. apply visits_open in HV as [K S C O]; [|by exists t].
    split; [done| | |].
    + intros x ->%list_elem_of_singleton. apply S; [left|by exists t].
    + intros HC. apply C. intros a b Ha Hoa Hb Hob.
      destruct (HC a b Ha Hoa Hb Hob) as [|?%not_elem_of_nil]; [by left|done].
    + intros P HP HP0 Hid. apply O; [done|done|]. intros w Hw _. by apply Hid.
Qed.

Lemma visit_roots_spec fuel ids : forall visited ws,
  (slice_fuel <= fuel)%nat -> cst_elems ws = [] ->
  Forall (fun id => exists t, vertex_type d id = Return (Some t)) ids ->
  exists visited', visit_roots fuel d visited ws ids = Some (Return visited')
  /\ roots_visited (cls_elems visited) ids (cls_elems visited').
Proof.
  induction ids as [|id ids IH]; intros visited ws Hf Hws Hids; cbn [visit_roots].
  - exists visited. split; [done|]. split; [done| |done|intros P _ HV _; exact HV].
    intros x ?%not_elem_of_nil. done.
  - apply Forall_cons in Hids as [[t Ht] Hids].
    destruct (visit_root_spec fuel visited ws id t Hf Hws Ht) as (v1 & w1 & -> & Hw1 & [K R C O]).
    cbn [fuel_bind]. destruct (IH v1 w1 Hf Hw1 Hids) as (v2 & -> & [K2 R2 C2 O2]).
    exists v2. split; [done|]. split; [set_solver| | |].
    + intros x [->|Hx]%elem_of_cons; [apply K2, R; left|by apply R2].
    + intros HC. by apply C2, C.
    + intros P HP HV Hall. apply O2; [done| |].
      * apply O; [done|done|]. intros x ->%list_elem_of_singleton. apply Hall. left.
      * intros x Hx. apply Hall. by right.
Qed.

(** The visited vertices are the reachable ones. *)
Lemma roots_visited_reaches ids V :
  roots_visited ∅ ids V -> forall x, x ∈ V <-> reaches ids x.
Proof.
  intros [_ R C O] x. split.
  - apply (O (reaches ids)); [|set_solver|apply leads_root].
    intros a b Ha Hoa Hb Hob. by apply (leads_edge _ _ ids a b).
  - induction 1 as [x Hx|x y _ IH Hox Hy Hoy]; [by apply R|].
    destruct (C ltac:(intros ? ? Ha; set_solver) x y IH Hox Hy Hoy) as [|?%not_elem_of_nil]; done.
Qed.
End Traverse.

(** ** The slice *)

Section Slice.
Context `{Goterators} `{MapRange} `{!CollSet uuid} `{CollStack}.

Lemma map_vertices_same h l m :
  (forall x, x ∈ l -> exists n, h !! x = Some n /\ m !! uid n = Some x) -> map_vertices h l m = Return m.
Proof.
  induction l as [|x l IH]; intros Hl; simpl; [done|].
  destruct (Hl x ltac:(left)) as (n & -> & Hn). rewrite insert_id by done. apply IH.
  intros y Hy. apply Hl. by right.
Qed.

(** A link leads from the vertex [a] to the vertex [b]. *)
Definition linked_ids (h : heap) (l : list Link) (a b : uuid) : Prop :=
  exists k s t, k ∈ l /\ h !! l_source k = Some s /\ h !! l_target k = Some t /\ uid s = a /\ uid t = b.

(** The edges [m'] are those of [m], followed for every vertex by the targets of
    its links that were not among them, each once. *)
Definition edges_updated (h : heap) (l : list Link) (m m' : gmap uuid (list uuid)) : Prop :=
  forall a, exists new, default [] (m' !! a) = default [] (m !! a) ++ new /\ NoDup new
  /\ forall b, b ∈ new <-> linked_ids h l a b /\ b ∉ default [] (m !! a).

Lemma linked_ids_cons h k l s t a b :
  h !! l_source k = Some s -> h !! l_target k = Some t ->
  linked_ids h (k :: l) a b <-> (uid s = a /\ uid t = b) \/ linked_ids h l a b.
Proof using Type.
  intros Hs Ht. split.
  - intros (k' & s' & t' & [->|Hk]%elem_of_cons & ? & ? & ? & ?); [left; by simplify_eq|].
    right. by exists k', s', t'.
  - intros [[Ha Hb]|(k' & s' & t' & Hk & ?)]; [exists k, s, t|exists k', s', t']; split; try done; [left|by right].
Qed.

Lemma gt_Find_elem (b : uuid) l :
  match gt_Find (fun id => bool_decide (id = b)) l with Some _ => b ∈ l | None => b ∉ l end.
Proof using Type.
  rewrite gt_Find_spec. induction l as [|x l IH]; simpl; [apply not_elem_of_nil|].
  case_bool_decide as Hx; [subst; left|]. destruct (find_first _ l) as [[]|]; [apply elem_of_cons; by right|]. by intros [->|]%elem_of_cons.
Qed.

Lemma map_edges_updated h l : forall m,
  Forall (fun k => is_Some (h !! l_source k) /\ is_Some (h !! l_target k)) l ->
  exists m', map_edges h l m = Return m' /\ edges_updated h l m m'.
Proof using Type.
  induction l as [|k l IH]; intros m Hl; simpl.
  { exists m. split; [done|]. intros a. exists []. rewrite app_nil_r. split; [done|]. split; [constructor|].
    intros b. split; [by intros ?%not_elem_of_nil|]. intros [(k & _ & _ & Hk & _) _]. by apply not_elem_of_nil in Hk. }
  apply Forall_cons in Hl as [[[s Hs] [t Ht]] Hl]. rewrite Hs, Ht.
  pose proof (gt_Find_elem (uid t) (default [] (m !! uid s))) as Hfind.
  destruct (gt_Find _ _).
  - destruct (IH m Hl) as (m' & -> & Hm'). exists m'. split; [done|]. intros a.
    destruct (Hm' a) as (new & E & Hnd & Hnew). exists new. split; [done|]. split; [done|]. intros b.
    rewrite Hnew, (linked_ids_cons h k l s t) by done. split; [tauto|]. intros [[[<- <-]|?] ?]; [done|tauto].
  - destruct (IH (<[uid s := default [] (m !! uid s) ++ [uid t]]> m) Hl) as (m' & -> & Hm').
    exists m'. split; [done|]. intros a. destruct (Hm' a) as (new & E & Hnd & Hnew).
    destruct (decide (uid s = a)) as [<-|Ha].
    + rewrite lookup_insert_eq in E, Hnew. simpl in E, Hnew. exists (uid t :: new).
      split; [by rewrite E, <- app_assoc|]. split.
      { constructor; [|done]. rewrite Hnew, elem_of_app, list_elem_of_singleton. tauto. }
      intros b. rewrite elem_of_cons, Hnew, (linked_ids_cons h k l s t), elem_of_app, list_elem_of_singleton by done.
      destruct (decide (b = uid t)) as [->|Hb]; [tauto|]. split; [tauto|]. intros [[[_ <-]|?] ?]; tauto.
    + rewrite lookup_insert_ne in E, Hnew by done. exists new. split; [done|]. split; [done|]. intros b.
      rewrite Hnew, (linked_ids_cons h k l s t) by done. tauto.
Qed.

(** C27: the traversal of the dag returns exactly the reachable vertices.  In a
    well-formed dag, from known vertices, [traverseDagSlice] brings the maps up
    to date: the vertices are as before, and to the edges of every vertex are
    added, each once, the targets of its links that were not among them; nothing
    else of the dag changes.  It terminates (the fuel [slice_fuel] is enough),
    and the ids it returns are, each once, the given ones and those that the
    updated edges lead to through known vertices that are not pins. *)
Theorem traverseDagSlice_reaches (s : DagWorld) (ids : list uuid) :
  dag_inv s -> Forall (fun id => is_Some (mapped_vertices (dg s) !! id)) ids ->
  exists m, let d := set_maps (dg s) (mapped_vertices (dg s)) m in
  edges_updated (dheap s) (d_links (dg s)) (mapped_edges (dg s)) m
  /\ forall fuel, (slice_fuel d <= fuel)%nat ->
     exists l, traverseDagSlice (dheap s) fuel (dg s) ids = Some (Return (d, l))
     /\ NoDup l /\ forall x, x ∈ l <-> reaches (dheap s) d ids x.
Proof.
  intros I Hids. unfold traverseDagSlice, updateMappedVertices.
  rewrite map_vertices_same by apply I. cbn [outcome_bind fuel_bind].
  unfold updateMappedEdges. cbn [d_links set_maps mapped_edges].
  destruct (map_edges_updated (dheap s) (d_links (dg s)) (mapped_edges (dg s)) (inv_links s I)) as (m & Em & Hm).
  rewrite Em. cbn [outcome_bind fuel_bind mapped_vertices]. exists m.
  set (d := set_maps (dg s) (mapped_vertices (dg s)) m). split; [done|]. intros fuel Hf.
  assert (forall id l, mapped_vertices (dg s) !! id = Some l -> exists n, dheap s !! l = Some n) as Hheap.
  { intros id l Hl. destruct (inv_mapped s I id l Hl) as [_ Hu].
    destruct (dheap s !! l) as [n|]; [by exists n|done]. }
  assert (forall id, exists o, vertex_type (dheap s) d id = Return o) as Hnil.
  { intros id. unfold vertex_type, Dag_Vertex. cbn [mapped_vertices d set_maps].
    destruct (mapped_vertices (dg s) !! id) as [l|] eqn:El; [|by eexists].
    destruct (Hheap id l El) as [n ->]. by eexists. }
  destruct (visit_roots_spec (dheap s) d Hnil fuel ids cls_New cst_New Hf) as (v & E & HV).
  - apply cst_New_spec.
  - eapply Forall_impl; [exact Hids|]. intros id [l Hl]. destruct (Hheap id l Hl) as [n Hn].
    unfold vertex_type, Dag_Vertex. cbn [mapped_vertices d set_maps]. rewrite Hl, Hn. by eexists.
  - change (set_maps (set_maps (dg s) _ _) _ m) with d. rewrite E.
    cbn [fuel_bind]. eexists. split; [reflexivity|]. rewrite cls_New_spec in HV.
    split; [rewrite cls_list_spec; apply NoDup_elements|].
    intros x. rewrite cls_list_spec, elem_of_elements. by apply roots_visited_reaches.
Qed.
End Slice.

(** The dag of a leader after its first payment: the payment approves the genesis. *)
Definition paid_dag : DagWorld :=
  match AddTxDag sample_config 0 first_draws 7 paying_dag 1%nat with
  | Some (Return (s, _)) => s
  | _ => leader_dag
  end.

Lemma paying_dag_addable : addable paying_dag 1%nat sample_node.
Proof.
  split.
  - vm_compute. reflexivity.
  - split; reflexivity.
  - intros Hin. apply (bool_decide_pack _) in Hin. vm_compute in Hin. done.
  - vm_compute. reflexivity.
Qed.

Lemma paid_dag_inv : dag_inv paid_dag.
Proof.
  unfold paid_dag. destruct (AddTxDag sample_config 0 first_draws 7 paying_dag 1%nat) as [[[s r]|]|] eqn:E;
    [|exact leader_dag_inv..].
  eapply kept_inv, (AddTxDag_kept sample_config 0 first_draws 7 paying_dag 1%nat sample_node);
    [exact paying_dag_inv|exact paying_dag_addable|exact first_draws_ok|exact E].
Qed.

Lemma traverseDagSlice_reaches_witness :
  exists m l, let d := set_maps (dg paid_dag) (mapped_vertices (dg paid_dag)) m in
  traverseDagSlice (dheap paid_dag) (slice_fuel d) (dg paid_dag) [uid sample_node] = Some (Return (d, l))
  /\ uid sample_node ∈ l /\ uuid_Nil ∈ l.
Proof.
  destruct (traverseDagSlice_reaches paid_dag [uid sample_node]) as (m & Hm & Hd).
  - exact paid_dag_inv.
  - constructor; [|constructor]. exists 1%nat. vm_compute. reflexivity.
  - destruct (Hd _ (Nat.le_refl _)) as (l & E & _ & Hl). exists m, l. intros d. split; [exact E|].
    split; apply Hl; [apply leads_root; left|].
    apply (leads_edge _ _ _ (uid sample_node)); [apply leads_root; left|..].
    + eexists. split; [vm_compute; reflexivity|discriminate].
    + destruct (Hm (uid sample_node)) as (new & En & _). unfold edges_of. cbn [mapped_edges set_maps].
      rewrite En. apply elem_of_app. left. vm_compute. left.
    + eexists. split; [vm_compute; reflexivity|discriminate].
Defined.
