(* ===== verification/TopoSort.v ===== *)
(** The topological sort of [dag/utils.go] and [getTargetLists] of [dag/dag.go].

    The sort returns every node once, after the nodes it approves, when following
    the links ends ([topologicalSort_sorts]), and never returns when they lead in
    a circle ([topologicalSort_cycle]). *)
From S2P Require Import Prelude GoLib Bytes StateMachine Tx TxRecords Storage Pool WalletCache Node.
From S2P Require Import Pin PinProps Confirmation Weights.

Section TopoSort.
Context `{Goterators}.
Variable h : heap.

(** The targets of the links by the major number of their source. *)
Fixpoint getTargetLists (links : list Link) (acc : gmap Z (list loc)) : outcome (gmap Z (list loc)) :=
  match links with
  | [] => Return acc
  | lk :: rest =>
      match h !! l_source lk with
      | None => Panic
      | Some s =>
          let k := idMajor (nid s) in
          getTargetLists rest (<[k := default [] (acc !! k) ++ [l_target lk]]> acc)
      end
  end.

Definition find_unvisited (l : list loc) (n : loc) : option nat :=
  snd <$> gt_Find (fun m => Node_Equal (h !! n) (h !! m)) l.

Definition children_of (lists : gmap Z (list loc)) (n : loc) : list loc :=
  match h !! n with Some x => default [] (lists !! idMajor (nid x)) | None => [] end.

(** [unvisited] and [result]; [None] when the recursion is deeper than [fuel]. *)
Abbreviation topo_state := (list loc * list loc)%type.

Fixpoint topo_visit (fuel : nat) (lists : gmap Z (list loc)) (n : loc) (st : topo_state) : option topo_state :=
  match fuel with
  | O => None
  | S fuel =>
      match find_unvisited (fst st) n with
      | None => Some st
      | Some _ =>
          match fold_left (fun st c => st ≫= topo_visit fuel lists c) (children_of lists n) (Some st) with
          | None => None
          | Some st =>
              match find_unvisited (fst st) n with
              | Some i => Some (delete i (fst st), snd st ++ [n])
              | None => Some st
              end
          end
      end
  end.

Fixpoint topo_loop (rounds fuel : nat) (lists : gmap Z (list loc)) (st : topo_state) : option (list loc) :=
  match last (fst st) with
  | None => Some (snd st)
  | Some n =>
      match rounds with
      | O => None
      | S rounds => topo_visit fuel lists n st ≫= topo_loop rounds fuel lists
      end
  end.

(** [fuel] bounds the depth of the recursion and the rounds of the loop. *)
Definition topologicalSort (fuel : nat) (nodes : list loc) (links : list Link) : option (outcome (list loc)) :=
  match getTargetLists links ∅ with
  | Panic => Some Panic
  | Return lists => Return <$> topo_loop fuel fuel lists (nodes, [])
  end.

(** ** The lists of targets *)

(** A link leads to [t] from [n], or from another node with the major number of
    [n]: the lists of targets are kept by major number. *)
Definition link_from (links : list Link) (n t : loc) : Prop :=
  exists lk s x, lk ∈ links /\ h !! l_source lk = Some s /\ h !! n = Some x
                 /\ idMajor (nid s) = idMajor (nid x) /\ l_target lk = t.

Lemma getTargetLists_spec links : forall acc,
  (forall lk, lk ∈ links -> is_Some (h !! l_source lk)) ->
  exists lists, getTargetLists links acc = Return lists
  /\ forall k t, t ∈ default [] (lists !! k) <->
       t ∈ default [] (acc !! k)
       \/ exists lk s, lk ∈ links /\ h !! l_source lk = Some s /\ idMajor (nid s) = k /\ l_target lk = t.
Proof using Type.
  induction links as [|lk links IH]; intros acc Hs; cbn [getTargetLists].
  { exists acc. split; [done|]. intros k t. split; [by left|]. intros [?|(? & ? & ?%not_elem_of_nil & _)]; done. }
  destruct (Hs lk) as [s Es]; [left|]. rewrite Es.
  edestruct IH as (lists & -> & Hl); [intros lk' Hlk'; apply Hs; by right|]. exists lists. split; [done|].
  intros k t. rewrite Hl. clear Hl IH. split.
  - intros [Ht|(lk' & s' & Hin & H3)]; [|right; exists lk', s'; split; [by right|done]].
    destruct (decide (k = idMajor (nid s))) as [->|Hk]; [|left; by rewrite lookup_insert_ne in Ht].
    rewrite lookup_insert_eq in Ht. cbn in Ht. apply elem_of_app in Ht as [Ht|Ht%list_elem_of_singleton]; [by left|].
    right. exists lk, s. split; [left|done].
  - intros [Ht|(lk' & s' & [-> |Hin]%elem_of_cons & Es' & Hk & Ht)].
    + left. destruct (decide (k = idMajor (nid s))) as [->|Hk]; [|by rewrite lookup_insert_ne].
      rewrite lookup_insert_eq. cbn. apply elem_of_app. by left.
    + left. rewrite Es in Es'. injection Es' as <-. subst k t. rewrite lookup_insert_eq. cbn.
      apply elem_of_app. right. by apply list_elem_of_singleton.
    + right. exists lk', s'. done.
Qed.

Lemma lists_links links :
  (forall lk, lk ∈ links -> is_Some (h !! l_source lk)) ->
  exists lists, getTargetLists links ∅ = Return lists
  /\ forall n t, t ∈ children_of lists n <-> link_from links n t.
Proof using Type.
  intros Hs. destruct (getTargetLists_spec links ∅ Hs) as (lists & Hl & Hk). exists lists. split; [done|].
  intros n t. unfold children_of, link_from. destruct (h !! n) as [x|] eqn:Ex.
  - rewrite Hk. rewrite lookup_empty. split.
    + intros [[]%not_elem_of_nil|(lk & s & H1 & H2 & H3 & H4)]. exists lk, s, x. done.
    + intros (lk & s & x' & H1 & H2 & [= <-] & H3 & H4). right. by exists lk, s.
  - split; [by intros ?%not_elem_of_nil|]. by intros (? & ? & ? & _ & _ & [=] & _).
Qed.

(** ** The order *)

Section Sorting.
Variable lists : gmap Z (list loc).
Hypothesis one_per_id : forall a b x y, h !! a = Some x -> h !! b = Some y -> uid x = uid y -> a = b.

Abbreviation kid n t := (t ∈ children_of lists n).

(** With one node per id, a node is found exactly where it is. *)
Lemma find_unvisited_Some l n i : find_unvisited l n = Some i -> l !! i = Some n.
Proof using one_per_id.
  unfold find_unvisited. rewrite gt_Find_spec. intros ([m j] & Hf & [= <-])%fmap_Some.
  apply find_first_Some in Hf as (Hm & He & _). unfold Node_Equal in He.
  destruct (h !! n) as [x|] eqn:En, (h !! m) as [y|] eqn:Em; try done.
  apply bool_decide_eq_true in He. cbn. rewrite Hm. f_equal. by eapply one_per_id.
Qed.

Lemma find_unvisited_None l n : is_Some (h !! n) -> find_unvisited l n = None -> n ∉ l.
Proof using Type.
  intros [x Hx]. unfold find_unvisited. rewrite gt_Find_spec. intros Hn Hin.
  destruct (find_first _ l) as [[]|] eqn:E; [done|]. apply find_first_None in E.
  eapply Forall_forall in E; [|exact Hin]. unfold Node_Equal in E. rewrite Hx in E.
  rewrite bool_decide_true in E; done.
Qed.

Lemma find_unvisited_in l n : is_Some (h !! n) -> n ∈ l -> exists i, find_unvisited l n = Some i.
Proof using Type.
  intros Hn Hin. destruct (find_unvisited l n) eqn:E; [by eexists|]. by destruct (find_unvisited_None l n Hn E).
Qed.

(** [t] comes before [n]. *)
Definition before (t n : loc) (l : list loc) : Prop := exists l1 l2, l = l1 ++ n :: l2 /\ t ∈ l1.

(** The sorted nodes come after their children, and every node is sorted or
    unvisited. *)
Record sorting (nodes : list loc) (st : topo_state) : Prop := {
  so_perm : snd st ++ fst st ≡ₚ nodes;
  so_order : forall n t, n ∈ snd st -> kid n t -> t ∈ nodes -> before t n (snd st)
}.

Lemma before_app t n l l' : before t n l -> before t n (l ++ l').
Proof using Type. intros (l1 & l2 & -> & Ht). exists l1, (l2 ++ l'). by rewrite <- app_assoc. Qed.

Lemma sorting_in nodes st t : sorting nodes st -> t ∈ nodes -> t ∉ fst st -> t ∈ snd st.
Proof using Type. intros [Hp _] Ht Hn. rewrite <- Hp in Ht. by apply elem_of_app in Ht as [?|?]. Qed.

(** The node at [i] moves to the end of the result. *)
Lemma sorting_move nodes st n i :
  sorting nodes st -> fst st !! i = Some n -> (forall t, kid n t -> t ∈ nodes -> t ∈ snd st) ->
  sorting nodes (delete i (fst st), snd st ++ [n]).
Proof using Type.
  intros [Hp Ho] Hi Hk. split; cbn [fst snd].
  - rewrite <- Hp, <- app_assoc. apply Permutation_app_head. cbn. symmetry. by apply delete_Permutation.
  - intros m t [Hm| ->%list_elem_of_singleton]%elem_of_app Hkid Ht; [by apply before_app, Ho|].
    exists (snd st), []. split; [done|by apply Hk].
Qed.

Lemma delete_gone {A} (l : list A) i x : NoDup l -> l !! i = Some x -> x ∉ delete i l.
Proof using Type.
  intros Hd Hi Hx. rewrite (delete_Permutation l i x Hi) in Hd. by apply NoDup_cons in Hd as [? _].
Qed.

Section Acyclic.
Variable nodes : list loc.
Variable rank : loc -> nat.
Hypothesis nodes_exist : forall n, n ∈ nodes -> is_Some (h !! n).
Hypothesis nodes_distinct : NoDup nodes.
Hypothesis kids_exist : forall n t, kid n t -> is_Some (h !! t).
Hypothesis descending : forall n t, kid n t -> (rank t < rank n)%nat.

Definition visited_to (st st' : topo_state) : Prop :=
  sorting nodes st' /\ (forall m, m ∈ fst st' -> m ∈ fst st) /\ (length (fst st') <= length (fst st))%nat.

Lemma visited_refl st : sorting nodes st -> visited_to st st.
Proof using Type. done. Qed.

Lemma visited_trans a b c : visited_to a b -> visited_to b c -> visited_to a c.
Proof using Type. intros (_ & H1 & H2) (H3 & H4 & H5). split; [done|]. split; [auto|lia]. Qed.

Lemma kids_visited fuel kids : forall st,
  (forall n st, sorting nodes st -> is_Some (h !! n) -> (rank n < fuel)%nat ->
     exists st', topo_visit fuel lists n st = Some st' /\ visited_to st st' /\ n ∉ fst st') ->
  (forall t, t ∈ kids -> is_Some (h !! t) /\ (rank t < fuel)%nat) -> sorting nodes st ->
  exists st', fold_left (fun st c => st ≫= topo_visit fuel lists c) kids (Some st) = Some st'
  /\ visited_to st st' /\ forall t, t ∈ kids -> t ∉ fst st'.
Proof using Type.
  induction kids as [|k kids IH]; intros st Hv Hk Hs; cbn [fold_left].
  { exists st. split; [done|]. split; [by apply visited_refl|]. by intros t ?%not_elem_of_nil. }
  destruct (Hk k) as [Hx Hr]; [left|]. destruct (Hv k st Hs Hx Hr) as (st1 & H1 & Hv1 & Hn1).
  cbn [mbind option_bind]. rewrite H1.
  destruct (IH st1 Hv) as (st2 & H2 & Hv2 & Hn2); [intros t Ht; apply Hk; by right|apply Hv1|].
  exists st2. split; [done|]. split; [by eapply visited_trans|].
  intros t [->|Ht]%elem_of_cons; [|by apply Hn2]. intros Hin. by apply Hn1, Hv2.
Qed.

Lemma topo_visit_spec fuel : forall n st,
  sorting nodes st -> is_Some (h !! n) -> (rank n < fuel)%nat ->
  exists st', topo_visit fuel lists n st = Some st' /\ visited_to st st' /\ n ∉ fst st'.
Proof using one_per_id nodes_distinct kids_exist descending.
  induction fuel as [|fuel IH]; intros n st Hs Hn Hr; [lia|]. cbn [topo_visit].
  destruct (find_unvisited (fst st) n) as [i|] eqn:Ei.
  2:{ exists st. split; [done|]. split; [by apply visited_refl|by apply find_unvisited_None]. }
  destruct (kids_visited fuel (children_of lists n) st) as (st1 & -> & Hv1 & Hk1); [done| |done|].
  { intros t Ht. split; [by eapply kids_exist|]. specialize (descending n t Ht). lia. }
  destruct (find_unvisited (fst st1) n) as [j|] eqn:Ej.
  2:{ exists st1. split; [done|]. split; [done|by apply find_unvisited_None]. }
  apply find_unvisited_Some in Ej. destruct Hv1 as (Hs1 & Hsub & Hlen).
  eexists. split; [done|]. split.
  - split; [|split]; cbn [fst].
    + apply sorting_move; [done|done|]. intros t Ht Hin. by apply (sorting_in nodes st1); [| |apply Hk1].
    + intros m Hm. apply Hsub. by eapply elem_of_submseteq; [exact Hm|apply sublist_submseteq, sublist_delete].
    + rewrite length_delete by (by eexists). lia.
  - cbn [fst]. apply delete_gone; [|done]. pose proof (so_perm _ _ Hs1) as Hp. rewrite <- Hp in nodes_distinct.
    by apply NoDup_app in nodes_distinct as (_ & _ & ?).
Qed.

Lemma topo_loop_spec rounds fuel : forall st,
  sorting nodes st -> (forall n, n ∈ nodes -> (rank n < fuel)%nat) -> (length (fst st) <= rounds)%nat ->
  exists res, topo_loop rounds fuel lists st = Some res /\ sorting nodes ([], res).
Proof using one_per_id nodes_exist nodes_distinct kids_exist descending.
  induction rounds as [|rounds IH]; intros [U R] Hs Hf Hl; cbn [topo_loop fst snd] in *.
  { assert (U = []) as -> by (apply nil_length_inv; lia). by exists R. }
  destruct (last U) as [n|] eqn:En.
  2:{ apply last_None in En as ->. by exists R. }
  assert (n ∈ U) as HnU by (apply last_Some_elem_of; done).
  assert (n ∈ nodes) as Hnn by (rewrite <- (so_perm _ _ Hs); apply elem_of_app; by right).
  destruct (topo_visit_spec fuel n (U, R) Hs) as (st & Hst & (Hs' & Hsub & Hlen) & Hgone); [by apply nodes_exist|by apply Hf|].
  rewrite Hst. cbn [mbind option_bind]. apply IH; [done|done|]. cbn [fst] in *.
  enough (length (fst st) < length U)%nat by lia.
  assert (NoDup (fst st)) as Hd.
  { pose proof (so_perm _ _ Hs') as Hp. rewrite <- Hp in nodes_distinct. by apply NoDup_app in nodes_distinct as (_ & _ & ?). }
  assert (n :: fst st ⊆+ U) as Hm%submseteq_length; [|simpl in Hm; lia].
  apply NoDup_submseteq; [by constructor|]. intros m [->|Hm]%elem_of_cons; [done|by apply Hsub].
Qed.
End Acyclic.
End Sorting.

(** C19: the sort puts every node after the nodes it approves.  The code keeps
    the links by the major number of their source, so that the links of one node
    count as links of every node with the same major number.  For distinct
    existing nodes with one node per id, and links between existing nodes such
    that a rank descends along the links counted in this way, the sort returns every node exactly once, each after
    all its children among them; a depth above the ranks and as many rounds as
    nodes are enough. *)
Theorem topologicalSort_sorts (nodes : list loc) (links : list Link) (rank : loc -> nat) fuel :
  (forall a b x y, h !! a = Some x -> h !! b = Some y -> uid x = uid y -> a = b) ->
  (forall n, n ∈ nodes -> is_Some (h !! n)) -> NoDup nodes ->
  (forall lk, lk ∈ links -> is_Some (h !! l_source lk) /\ is_Some (h !! l_target lk)) ->
  (forall n t, link_from links n t -> (rank t < rank n)%nat) ->
  (forall n, n ∈ nodes -> (rank n < fuel)%nat) -> (length nodes <= fuel)%nat ->
  exists res, topologicalSort fuel nodes links = Some (Return res) /\ res ≡ₚ nodes
  /\ forall n t, n ∈ nodes -> t ∈ nodes -> link_from links n t -> before t n res.
Proof using Type.
  intros Hid Hn Hd Hlk Hrank Hfuel Hlen.
  destruct (lists_links links) as (lists & Hlists & Hkids); [intros lk Hin; by apply Hlk|].
  unfold topologicalSort. rewrite Hlists.
  destruct (topo_loop_spec lists Hid nodes rank Hn Hd) with (rounds := fuel) (fuel := fuel) (st := (nodes, @nil nat))
    as (res & -> & [Hp Ho]).
  - intros n t (lk & s & x & Hin & _ & _ & _ & <-)%Hkids. by apply Hlk.
  - intros n t Hk%Hkids. by apply Hrank.
  - split; [done|]. by intros n t ?%not_elem_of_nil.
  - done.
  - done.
  - cbn [fst snd] in Hp, Ho. rewrite app_nil_r in Hp. exists res. split; [done|]. split; [done|].
    intros n t Hin Ht Hl. apply Ho; [by rewrite Hp|by apply Hkids|done].
Qed.

(** ** Circles *)

Section Circle.
Variable lists : gmap Z (list loc).
Variable C : list loc.
Hypothesis circle_exists : forall n, n ∈ C -> is_Some (h !! n).
Hypothesis circle : forall n, n ∈ C -> exists t, t ∈ C /\ t ∈ children_of lists n.
Hypothesis one_per_id : forall a b x y, h !! a = Some x -> h !! b = Some y -> uid x = uid y -> a = b.

(** A visit that returns was not to a node of the circle, and leaves it unvisited. *)
Lemma circle_stays fuel : forall n st st',
  C ⊆ fst st -> topo_visit fuel lists n st = Some st' -> C ⊆ fst st' /\ n ∉ C.
Proof using circle_exists circle one_per_id.
  induction fuel as [|fuel IH]; intros n st st' HC; cbn [topo_visit]; [done|].
  destruct (find_unvisited (fst st) n) as [i|] eqn:Ei.
  2:{ intros [= <-]. split; [done|]. intros Hn. destruct (find_unvisited_in (fst st) n) as [? ?]; [by apply circle_exists|by apply HC|congruence]. }
  assert (forall kids st1 st2, C ⊆ fst st1 ->
    fold_left (fun st c => st ≫= topo_visit fuel lists c) kids (Some st1) = Some st2 ->
    C ⊆ fst st2 /\ forall t, t ∈ kids -> t ∉ C) as Hkids.
  { clear - IH. intros kids. induction kids as [|k kids IHk]; intros st1 st2 HC; cbn [fold_left].
    { intros [= <-]. split; [done|]. by intros t ?%not_elem_of_nil. }
    cbn [mbind option_bind]. destruct (topo_visit fuel lists k st1) as [st3|] eqn:E.
    - destruct (IH _ _ _ HC E) as [HC3 Hk]. intros Hf. destruct (IHk _ _ HC3 Hf) as [HC2 Hks]. split; [done|].
      intros t [->|Ht]%elem_of_cons; [done|by apply Hks].
    - clear. intros Hf. exfalso. induction kids; cbn in Hf; [done|auto]. }
  destruct (fold_left _ _ _) as [st1|] eqn:Ef; [|done]. destruct (Hkids _ _ _ HC Ef) as [HC1 Hk1].
  assert (n ∉ C) as Hn by (intros Hn; destruct (circle n Hn) as (t & Ht & Hkid); by apply (Hk1 t)).
  destruct (find_unvisited (fst st1) n) as [j|] eqn:Ej; intros [= <-]; [|done]. split; [|done].
  apply (find_unvisited_Some one_per_id) in Ej. cbn [fst]. intros m Hm.
  specialize (HC1 m Hm). rewrite (delete_Permutation _ _ _ Ej) in HC1.
  apply elem_of_cons in HC1 as [->|?]; done.
Qed.

Lemma circle_loops rounds fuel : forall st, C <> [] -> C ⊆ fst st -> topo_loop rounds fuel lists st = None.
Proof using circle_exists circle one_per_id.
  induction rounds as [|rounds IH]; intros st Hne HC; cbn [topo_loop]; destruct (last (fst st)) as [n|] eqn:En.
  - done.
  - apply last_None in En. rewrite En in HC. destruct C as [|x l]; [done|]. by specialize (HC x ltac:(left)) as ?%not_elem_of_nil.
  - destruct (topo_visit fuel lists n st) as [st'|] eqn:E; [|done]. cbn [mbind option_bind].
    apply IH; [done|]. by eapply circle_stays.
  - apply last_None in En. rewrite En in HC. destruct C as [|x l]; [done|]. by specialize (HC x ltac:(left)) as ?%not_elem_of_nil.
Qed.
End Circle.

(** The sort never returns when links lead in a circle.  If some of the nodes
    each have a link to one of them, the recursion does not end, at whatever
    depth. *)
Theorem topologicalSort_cycle (nodes : list loc) (links : list Link) (C : list loc) :
  (forall a b x y, h !! a = Some x -> h !! b = Some y -> uid x = uid y -> a = b) ->
  (forall lk, lk ∈ links -> is_Some (h !! l_source lk)) ->
  C <> [] -> C ⊆ nodes -> (forall n, n ∈ C -> is_Some (h !! n)) ->
  (forall n, n ∈ C -> exists t, t ∈ C /\ link_from links n t) ->
  forall fuel, topologicalSort fuel nodes links = None.
Proof using Type.
  intros Hid Hlk Hne HC Hex Hcirc fuel. destruct (lists_links links Hlk) as (lists & Hlists & Hkids).
  unfold topologicalSort. rewrite Hlists.
  rewrite (circle_loops lists C); [done|done| |done|done|done].
  intros n Hn. destruct (Hcirc n Hn) as (t & Ht & Hl). exists t. split; [done|by apply Hkids].
Qed.
End TopoSort.

(** Node [k] has the id and the major number [k + 1]. *)
Definition numbered (k : nat) : Node :=
  set_nid zero_node {| n_id := N.of_nat (k + 1); n_address := ""; idMajor := Z.of_nat (k + 1); idMinor := 0 |}.
Definition three_nodes : heap := {[0%nat := numbered 0; 1%nat := numbered 1; 2%nat := numbered 2]}.
Definition chain_links : list Link :=
  [{| l_source := 2; l_target := 0 |}; {| l_source := 2; l_target := 1 |}; {| l_source := 1; l_target := 0 |}].
Definition circle_links : list Link := [{| l_source := 0; l_target := 1 |}; {| l_source := 1; l_target := 0 |}].

Lemma three_nodes_lookup a x : three_nodes !! a = Some x -> (a < 3)%nat /\ x = numbered a.
Proof.
  unfold three_nodes. intros Hx. repeat (apply lookup_insert_Some in Hx as [[<- <-]|[_ Hx]]; [split; [lia|done]|]).
  apply lookup_singleton_Some in Hx as [<- <-]. split; [lia|done].
Qed.

Lemma three_nodes_ids a b x y :
  three_nodes !! a = Some x -> three_nodes !! b = Some y -> uid x = uid y -> a = b.
Proof. intros [_ ->]%three_nodes_lookup [_ ->]%three_nodes_lookup Hu. cbn in Hu. lia. Qed.

Lemma three_nodes_exist a : (a < 3)%nat -> is_Some (three_nodes !! a).
Proof. intros Ha. destruct a as [|[|[|a]]]; [by eexists..|lia]. Qed.

Lemma chain_descends n t : link_from three_nodes chain_links n t -> (t < n)%nat.
Proof.
  intros (lk & s & x & Hlk & [Hs ->]%three_nodes_lookup & [Hn ->]%three_nodes_lookup & Hm & <-).
  cbn in Hm. assert (l_source lk = n) as <- by lia.
  repeat (apply elem_of_cons in Hlk as [->|Hlk]; [cbn; lia|]). by apply not_elem_of_nil in Hlk.
Qed.

Lemma chain_ends lk : lk ∈ chain_links -> is_Some (three_nodes !! l_source lk) /\ is_Some (three_nodes !! l_target lk).
Proof.
  intros Hlk. repeat (apply elem_of_cons in Hlk as [->|Hlk]; [split; apply three_nodes_exist; cbn; lia|]).
  by apply not_elem_of_nil in Hlk.
Qed.

Lemma topologicalSort_sorts_witness :
  exists res, topologicalSort three_nodes 3 [2; 0; 1]%nat chain_links = Some (Return res)
  /\ res ≡ₚ [2; 0; 1]%nat /\ before 1 2 res.
Proof.
  destruct (topologicalSort_sorts three_nodes [2; 0; 1]%nat chain_links id 3 three_nodes_ids) as (res & H1 & H2 & H3).
  - intros n Hn. apply three_nodes_exist. set_unfold. lia.
  - apply (bool_decide_unpack _). vm_compute. exact I.
  - exact chain_ends.
  - exact chain_descends.
  - intros n Hn. unfold id. set_unfold. lia.
  - simpl. lia.
  - exists res. split; [exact H1|]. split; [exact H2|]. apply H3; [set_solver|set_solver|].
    eexists _, _, _. split_and!; [right; left|reflexivity|reflexivity|reflexivity|reflexivity].
Defined.

Lemma topologicalSort_cycle_witness :
  forall fuel, topologicalSort three_nodes fuel [0; 1; 2]%nat circle_links = None.
Proof.
  apply (topologicalSort_cycle three_nodes [0; 1; 2]%nat circle_links [0; 1]%nat three_nodes_ids).
  - intros lk Hlk. apply three_nodes_exist. apply elem_of_cons in Hlk as [->|Hlk%list_elem_of_singleton]; [cbn; lia|subst lk; cbn; lia].
  - discriminate.
  - set_solver.
  - intros n Hn. apply three_nodes_exist. set_unfold. lia.
  - intros n Hn. assert (n = 0 \/ n = 1)%nat as [->| ->] by (set_unfold; lia).
    + exists 1%nat. split; [set_solver|]. eexists _, _, _. split_and!; [left|reflexivity|reflexivity|reflexivity|reflexivity].
    + exists 0%nat. split; [set_solver|]. eexists _, _, _. split_and!; [right; left|reflexivity|reflexivity|reflexivity|reflexivity].
Defined.

Example topo_order : topologicalSort three_nodes 3 [2; 0; 1]%nat chain_links = Some (Return [0; 1; 2]%nat).
Proof. vm_compute. reflexivity. Qed.
