(* ===== verification/Graph.v ===== *)
(** The reverse graph of the dag: [graph/dgraph.go], [graph/dvertex.go],
    [graph/dedge.go], the dag watcher of [dag/sync.go] ([Notify], [syncUp],
    [updateGraph], [pinTxIDs]) and the rest of [dag/traverse.go].

    Every vertex of the graph has edges to the vertices that approve it, so
    that the graph is walked from the genesis to the tips.  A vertex is shared
    by pointer; there is one per id, so the graph maps an id to the vertex and
    an update through the pointer updates the map. *)
From S2P Require Import Prelude GoLib Dfs Bytes Tx TxRecords Storage Pool WalletCache Node Pin.
From S2P Require Import Confirmation Weights Dag Traverse.

(** ** Edges and vertices *)

Record DEdge := { de_from : uuid; de_to : uuid }.

Definition NewEdge (f t : uuid) : DEdge := {| de_from := f; de_to := t |}.
Definition ReversedEdge (e : DEdge) : DEdge := {| de_from := de_to e; de_to := de_from e |}.

(** [depth] is a uint64, [major] a uint64 and [minor] a uint32. *)
Record DVertex := {
  dv_id : uuid; dv_major : Z; dv_minor : Z; dv_depth : Z; dv_edges : list DEdge
}.

Definition NewVertex (id : uuid) (major minor : Z) : DVertex :=
  {| dv_id := id; dv_major := major; dv_minor := minor; dv_depth := 0; dv_edges := [] |}.
Definition SetDepth (v : DVertex) (d : Z) : DVertex :=
  {| dv_id := dv_id v; dv_major := dv_major v; dv_minor := dv_minor v; dv_depth := d;
     dv_edges := dv_edges v |}.
Definition AddEdge (v : DVertex) (e : DEdge) : DVertex :=
  {| dv_id := dv_id v; dv_major := dv_major v; dv_minor := dv_minor v; dv_depth := dv_depth v;
     dv_edges := dv_edges v ++ [e] |}.

(** The targets of the edges of a vertex. *)
Definition tos (v : DVertex) : list uuid := map de_to (dv_edges v).

(** ** The graph *)

Abbreviation DGraph := (gmap uuid DVertex).

(** A vertex whose id is taken is not added. *)
Definition AddVertex (g : DGraph) (v : DVertex) : DGraph :=
  match g !! dv_id v with None => <[dv_id v := v]> g | Some _ => g end.

Definition RemoveVertex (g : DGraph) (id : uuid) : DGraph := delete id g.

(** [DGraph.NewVertex], with the id that [uuid.New] gave. *)
Definition DGraph_NewVertex (new : uuid) : DVertex := NewVertex new 0 0.

Section Stack.
Context `{CollStack}.

(** [PinTxStack]; every method holds the lock.  The elements are interfaces:
    [None] is a nil, which an empty stack answers too. *)
Definition PinTxStack : Type := cst (option uuid).

Definition PinTxStack_Pop (s : PinTxStack) : option uuid * PinTxStack :=
  let '(x, s) := cst_Pop s in (mjoin x, s).
Definition PinTxStack_Peek (s : PinTxStack) : option uuid := mjoin (cst_Peek s).

(** The element below the top; what was popped is pushed again, also the nil of
    an empty stack. *)
Definition PeekPrev (s : PinTxStack) : option uuid * PinTxStack :=
  let '(last, s) := PinTxStack_Pop s in (PinTxStack_Peek s, cst_Push s last).
End Stack.

(** What [Visualize] draws: the vertices by their major version, with the ends
    of the slice marked, and the edges with the depth as label. *)
Record drawing := { drawn_vertices : list (Z * bool); drawn_edges : list (Z * Z * Z) }.

Section Walk.
Context `{Goterators} `{!CollSet uuid} `{CollStack}.
Variable g : DGraph.

(** [visit], and the local [fvis] of [addVisVertices] and of [addVisEdges]:
    they differ in what they do at a vertex, [act].  A nil vertex panics.  A
    vertex without edges returns before the loop. *)
Section Act.
Context {A : Type}.
Variable act : DVertex -> A -> outcome A.

Fixpoint walk (fuel : nat) (ws : cst uuid) (vis : cls) (acc : A) (cur : option DVertex)
  : option (outcome (cst uuid * cls * A)) :=
  match fuel with
  | O => None
  | S fuel =>
      match cur with
      | None => Some Panic
      | Some cur =>
          let vis := cls_Insert vis (dv_id cur) in
          fuel_bind (Some (act cur acc)) (fun acc =>
          if (length (dv_edges cur) =? 0)%nat then Some (Return (ws, vis, acc))
          else walk_rest fuel (push_all ws (tos cur)) vis acc)
      end
  end
with walk_rest (fuel : nat) (ws : cst uuid) (vis : cls) (acc : A)
  : option (outcome (cst uuid * cls * A)) :=
  match fuel with
  | O => None
  | S fuel =>
      if 0 <? cst_Len ws then
        match cst_Pop ws with
        | (None, _) => Some Panic
        | (Some id, ws) =>
            if negb (cls_Has vis id) then
              fuel_bind (walk fuel ws vis acc (g !! id)) (fun '(ws, vis, acc) =>
                walk_rest fuel ws vis acc)
            else walk_rest fuel ws vis acc
        end
      else Some (Return (ws, vis, acc))
  end.
End Act.

(** A vertex with fewer than two approvals is a tip.  The set holds vertices;
    the model keeps their ids. *)
Definition visit_tip (cur : DVertex) (tips : cls) : outcome cls :=
  Return (if (length (dv_edges cur) <? 2)%nat then cls_Insert tips (dv_id cur) else tips).

Definition GetTipVertices (fuel : nat) : option (outcome cls) :=
  fuel_bind (walk visit_tip fuel cst_New cls_New cls_New (g !! uuid_Nil)) (fun '(_, _, tips) =>
    Some (Return tips)).

(** ** Drawing *)

Definition draw_vertex (prev last : uuid) (cur : DVertex) (l : list (Z * bool))
  : outcome (list (Z * bool)) :=
  Return (l ++ [(to_int64 (dv_major cur),
                 bool_decide (dv_id cur = prev) || bool_decide (dv_id cur = last))]).

(** A nil vertex at either end of an edge panics. *)
Fixpoint draw_edges (label : Z) (es : list DEdge) (l : list (Z * Z * Z)) : outcome (list (Z * Z * Z)) :=
  match es with
  | [] => Return l
  | e :: rest =>
      match g !! de_from e, g !! de_to e with
      | Some a, Some b =>
          draw_edges label rest (l ++ [(to_int64 (dv_major a), to_int64 (dv_major b), label)])
      | _, _ => Panic
      end
  end.

Definition draw_vertex_edges (cur : DVertex) (l : list (Z * Z * Z)) : outcome (list (Z * Z * Z)) :=
  match g !! dv_id cur with
  | None => if (length (dv_edges cur) =? 0)%nat then Return l else Panic
  | Some v => draw_edges (to_int64 (dv_depth v)) (dv_edges cur) l
  end.

Definition addVisVertices (fuel : nat) (prev last : uuid) : option (outcome (list (Z * bool))) :=
  fuel_bind (walk (draw_vertex prev last) fuel cst_New cls_New [] (g !! prev)) (fun '(_, _, l) =>
    Some (Return l)).

Definition addVisEdges (fuel : nat) (prev : uuid) : option (outcome (list (Z * Z * Z))) :=
  fuel_bind (walk draw_vertex_edges fuel cst_New cls_New [] (g !! prev)) (fun '(_, _, l) =>
    Some (Return l)).

(** The type assertions panic on the nil of a stack that is too short. *)
Definition Visualize (fuel : nat) (pins : PinTxStack) : option (outcome (drawing * PinTxStack)) :=
  let '(prev, pins) := PeekPrev pins in
  match prev, PinTxStack_Peek pins with
  | Some prev, Some last =>
      fuel_bind (addVisVertices fuel prev last) (fun vs =>
      fuel_bind (addVisEdges fuel prev) (fun es =>
      Some (Return ({| drawn_vertices := vs; drawn_edges := es |}, pins))))
  | _, _ => Some Panic
  end.
End Walk.

(** ** The dag watcher *)

Section Watcher.
Context `{Goterators} `{MapRange} `{!CollSet uuid} `{CollStack}.

(** The global variables [_graph_] and [pinStack], and the files drawn. *)
Record Watcher := { graph : DGraph; pinStack : PinTxStack; files : list drawing }.

(** The edge from the approved vertex [e] to the new vertex [id], whose depth
    follows.  [fresh] tells whether the new vertex is the one in the graph: a
    vertex whose id was taken is not, and its depth is lost.  A vertex that is
    not in the graph is logged. *)
Definition notify_edge (id : uuid) (fresh : bool) (g : DGraph) (e : Node) : DGraph :=
  match g !! uid e with
  | None => g
  | Some src =>
      let g := <[uid e := AddEdge src (NewEdge (uid e) id)]> g in
      if fresh then alter (fun v => SetDepth v (to_uint64 (dv_depth src + 1))) id g else g
  end.

Definition notify_graph (g : DGraph) (x : TxVL) : DGraph :=
  let n := txvl_vertex x in
  let v := NewVertex (uid n) (idMajor (nid n)) (idMinor (nid n)) in
  let fresh := match g !! uid n with None => true | Some _ => false end in
  gt_ForEach (notify_edge (uid n) fresh) (txvl_edges x) (AddVertex g v).

(** [DepthHandler.Notify]. *)
Definition Notify (fuel : nat) (w : Watcher) (x : TxVL) : option (outcome Watcher) :=
  let g := notify_graph (graph w) x in
  let t := GetTransactionType (ntx (txvl_vertex x)) in
  if (t =? SERVICE_PIN) || (t =? SERVICE_GENESIS) then
    let pins := cst_Push (pinStack w) (Some (uid (txvl_vertex x))) in
    if 1 <? cst_Len pins then
      fuel_bind (Visualize g fuel pins) (fun '(f, pins) =>
        Some (Return {| graph := g; pinStack := pins; files := files w ++ [f] |}))
    else Some (Return {| graph := g; pinStack := pins; files := files w |})
  else Some (Return {| graph := g; pinStack := pinStack w; files := files w |}).

(** The routine of [dag_watcher] that reads the channel. *)
Fixpoint notify_all (fuel : nat) (w : Watcher) (l : list TxVL) : option (outcome Watcher) :=
  match l with
  | [] => Some (Return w)
  | x :: rest => fuel_bind (Notify fuel w x) (fun w => notify_all fuel w rest)
  end.

(** ** syncUp *)

(** The first link whose source has the id, with its position. *)
Fixpoint find_source (h : heap) (id : uuid) (l : list Link) : outcome (option (Link * nat)) :=
  match l with
  | [] => Return None
  | k :: rest =>
      match h !! l_source k with
      | None => Panic
      | Some n => if bool_decide (uid n = id) then Return (Some (k, 0%nat))
                  else let! r := find_source h id rest in
                       Return ((fun '(k, i) => (k, S i)) <$> r)
      end
  end.

(** The next search starts after the position that the last one returned,
    although that position counts from where the last search started. *)
Fixpoint link_search (fuel : nat) (h : heap) (edges : list Link) (id : uuid) (i : nat) (e : list Node)
  : option (outcome (list Node)) :=
  match fuel with
  | O => None
  | S fuel =>
      if (i <? length edges)%nat then
        fuel_bind (Some (find_source h id (drop i edges))) (fun r =>
        match r with
        | Some (l, idx) =>
            match h !! l_target l with
            | None => Some Panic
            | Some t => link_search fuel h edges id (idx + 1) (e ++ [t])
            end
        | None => Some (Return e)
        end)
      else Some (Return e)
  end.

Definition edges_from (fuel : nat) (h : heap) (edges : list Link) (id : uuid)
  : option (outcome (list Node)) :=
  if bool_decide (id = uuid_Nil) then Some (Return []) else link_search fuel h edges id 0 [].

Fixpoint sync_vertices (fuel : nat) (h : heap) (edges : list Link) (l : list loc) (w : Watcher)
  : option (outcome Watcher) :=
  match l with
  | [] => Some (Return w)
  | v :: rest =>
      match h !! v with
      | None => Some Panic
      | Some n =>
          fuel_bind (edges_from fuel h edges (uid n)) (fun es =>
          fuel_bind (Notify fuel w {| txvl_vertex := n; txvl_edges := es |}) (fun w =>
          sync_vertices fuel h edges rest w))
      end
  end.

Definition syncUp (fuel : nat) (s : DagWorld) (w : Watcher) : option (outcome Watcher) :=
  sync_vertices fuel (dheap s) (d_links (dg s)) (d_dag (dg s)) w.

(** [RunSynchronization] makes the channel before the watcher starts. *)
Definition start_channel (s : DagWorld) : DagWorld := with_dg s (set_txCh (dg s) (Some [])).

(** ** updateGraph *)

(** A parent that is not in the graph yet panics: the code then reads the nil
    vertex it just tested. *)
Fixpoint update_edges (h : heap) (d : Dag) (vv : uuid) (fresh : bool) (es : list uuid) (g : DGraph)
  : outcome DGraph :=
  match es with
  | [] => Return g
  | e :: rest =>
      match Dag_Vertex d e with
      | None => Panic
      | Some l =>
          match h !! l with
          | None => Panic
          | Some ev =>
              match g !! uid ev with
              | None => Panic
              | Some v1 =>
                  let g := <[uid ev := AddEdge v1 (NewEdge (dv_id v1) vv)]> g in
                  let g := if fresh
                           then alter (fun v => SetDepth v (to_uint64 (dv_depth v1 + 1))) vv g
                           else g in
                  update_edges h d vv fresh rest g
              end
          end
      end
  end.

Fixpoint update_vertices (h : heap) (d : Dag) (l : list (uuid * loc)) (g : DGraph) : outcome DGraph :=
  match l with
  | [] => Return g
  | (_, x) :: rest =>
      match h !! x with
      | None => Panic
      | Some vv =>
          let fresh := match g !! uid vv with None => true | Some _ => false end in
          let g := AddVertex g (NewVertex (uid vv) (idMajor (nid vv)) (idMinor (nid vv))) in
          let! g := update_edges h d (uid vv) fresh (default [] (mapped_edges d !! uid vv)) g in
          update_vertices h d rest g
      end
  end.

Definition updateGraph (s : DagWorld) (g : DGraph) : outcome (DagWorld * DGraph) :=
  let! d := updateMappedVertices (dheap s) (dg s) in
  let! d := updateMappedEdges (dheap s) d in
  let! g := update_vertices (dheap s) d (map_range (mapped_vertices d)) g in
  Return (with_dg s d, g).

(** ** Slices for the services *)

Definition pinTxIDs (h : heap) (fuel : nat) (d : Dag) (tips : cls) : option (outcome (Dag * list uuid)) :=
  traverseDagSlice h fuel d (cls_list tips).

(** A vertex that is not known panics. *)
Fixpoint slice_vertices (h : heap) (d : Dag) (ids : list uuid) : outcome (list Vertex * list Edge) :=
  match ids with
  | [] => Return ([], [])
  | id :: rest =>
      match Dag_Vertex d id ≫= fun l => h !! l with
      | None => Panic
      | Some v =>
          let! r := slice_vertices h d rest in
          Return ({| v_VertexId := {| v_Id := uid v; v_Address := ""; v_IdMajor := idMajor (nid v);
                                      v_IdMinor := idMinor (nid v) |};
                     v_CumWeight := cumWeight v; v_TxWeight := txWeight v; v_Timestamp := time v;
                     v_Tx := ntx v |} :: fst r,
                  {| e_Vertex := id; e_Edges := default [] (mapped_edges d !! id) |} :: snd r)
      end
  end.

Definition getLatestDagSlice (h : heap) (fuel : nat) (d : Dag) (g : DGraph)
  : option (outcome (Dag * (list Vertex * list Edge))) :=
  fuel_bind (GetTipVertices g fuel) (fun tips =>
  fuel_bind (pinTxIDs h fuel d tips) (fun '(d, tipIds) =>
  fuel_bind (traverseDagSlice h fuel d tipIds) (fun '(d, sliceTxs) =>
  fuel_bind (Some (slice_vertices h d sliceTxs)) (fun r =>
  Some (Return (d, r)))))).
End Watcher.

(** ** getFromLastPinTx

    The visited set and the stack hold pointers to vertices made on the way, so
    the vertices live on a heap of their own. *)
Section FromPin.
Context `{Goterators} `{CollStack} `{!CollSet nat}.
Variable h : heap.
Variable links : list Link.

(** [NodeToVertex] of [dag/traverse.go]: without the address. *)
Definition NodeToVertex (n : Node) : Vertex :=
  {| v_VertexId := {| v_Id := uid n; v_Address := ""; v_IdMajor := idMajor (nid n);
                      v_IdMinor := idMinor (nid n) |};
     v_CumWeight := cumWeight n; v_TxWeight := txWeight n; v_Timestamp := time n; v_Tx := ntx n |}.

Record slice := {
  sl_heap : gmap nat Vertex; sl_vis : cls; sl_ws : cst nat; sl_edges : list Edge
}.

Definition sl_new (s : slice) (v : Vertex) : slice * nat :=
  let p := fresh (dom (sl_heap s)) in
  ({| sl_heap := <[p := v]> (sl_heap s); sl_vis := sl_vis s; sl_ws := sl_ws s; sl_edges := sl_edges s |}, p).
Definition with_sl_ws (s : slice) (ws : cst nat) : slice :=
  {| sl_heap := sl_heap s; sl_vis := sl_vis s; sl_ws := ws; sl_edges := sl_edges s |}.

(** The links to the vertex: their sources are pushed; also the ids. *)
Fixpoint push_sources (id : uuid) (l : list Link) (s : slice) : outcome (slice * list uuid) :=
  match l with
  | [] => Return (s, [])
  | k :: rest =>
      match h !! l_target k with
      | None => Panic
      | Some t =>
          if bool_decide (uid t = id) then
            match h !! l_source k with
            | None => Panic
            | Some n =>
                let '(s, p) := sl_new s (NodeToVertex n) in
                let! r := push_sources id rest (with_sl_ws s (cst_Push (sl_ws s) p)) in
                Return (fst r, uid n :: snd r)
            end
          else push_sources id rest s
      end
  end.

Fixpoint from_pin (fuel : nat) (s : slice) (v : nat) : option (outcome slice) :=
  match fuel with
  | O => None
  | S fuel =>
      match sl_heap s !! v with
      | None => Some Panic
      | Some vertex =>
          let s := {| sl_heap := sl_heap s; sl_vis := cls_Insert (sl_vis s) v; sl_ws := sl_ws s;
                      sl_edges := sl_edges s |} in
          let id := v_Id (v_VertexId vertex) in
          fuel_bind (Some (push_sources id links s)) (fun '(s, edge_ids) =>
          if (length edge_ids =? 0)%nat then Some (Return s)
          else from_pin_rest fuel
                 {| sl_heap := sl_heap s; sl_vis := sl_vis s; sl_ws := sl_ws s;
                    sl_edges := sl_edges s ++ [{| e_Vertex := id; e_Edges := edge_ids |}] |})
      end
  end
with from_pin_rest (fuel : nat) (s : slice) : option (outcome slice) :=
  match fuel with
  | O => None
  | S fuel =>
      if 0 <? cst_Len (sl_ws s) then
        match cst_Pop (sl_ws s) with
        | (None, _) => Some Panic
        | (Some v, ws) =>
            let s := with_sl_ws s ws in
            if negb (cls_Has (sl_vis s) v) then
              fuel_bind (from_pin fuel s v) (fun s => from_pin_rest fuel s)
            else from_pin_rest fuel s
        end
      else Some (Return s)
  end.

(** The last of no pins panics. *)
Definition getFromLastPinTx (fuel : nat) (pins : list loc) : option (outcome (list Vertex * list Edge)) :=
  match last pins ≫= fun l => h !! l with
  | None => Some Panic
  | Some n =>
      let '(s, p) := sl_new {| sl_heap := ∅; sl_vis := cls_New; sl_ws := cst_New; sl_edges := [] |}
                       (NodeToVertex n) in
      fuel_bind (from_pin fuel s p) (fun s =>
      Some (Return (omap (fun p => sl_heap s !! p) (cls_list (sl_vis s)), sl_edges s)))
  end.
End FromPin.
