(* ===== verification/GraphProps.v ===== *)
(** The reverse graph: the walks end and find the tips ([GetTipVertices_tips]);
    the watcher keeps the graph in step with the dag ([graph_mirrors_dag]);
    [syncUp] does not end on a dag with a vertex of two links
    ([syncUp_never_returns]). *)
From S2P Require Import Prelude GoLib Dfs Bytes Tx TxRecords Storage Pool WalletCache Node Pin.
From S2P Require Import PinProps PinSync Confirmation Weights Dag DagProps DagSteps Traverse Graph.

(** ** Walks *)

(** Every vertex is stored under its id and its edges lead from it to vertices. *)
Definition closed (g : DGraph) : Prop :=
  forall id v, g !! id = Some v ->
    dv_id v = id /\ Forall (fun e => de_from e = id /\ is_Some (g !! de_to e)) (dv_edges v).

Definition succ (g : DGraph) (id : uuid) : list uuid := default [] (tos <$> g !! id).
Definition vertex (g : DGraph) (id : uuid) : Prop := is_Some (g !! id).
Definition ids (g : DGraph) : list uuid := (map_to_list g).*1.

(** Enough fuel for a walk. *)
Definition graph_fuel (g : DGraph) : nat := (2 * unvisited (succ g) ∅ (ids g) + 3)%nat.

Lemma vertex_ids g id : vertex g id -> id ∈ ids g.
Proof.
  intros [v Hv]. apply list_elem_of_fmap. exists (id, v). split; [done|]. by apply elem_of_map_to_list.
Qed.

Lemma succ_vertex g id y : closed g -> y ∈ succ g id -> vertex g y.
Proof.
  intros C. unfold succ. destruct (g !! id) as [v|] eqn:E; simpl; [|by intros ?%not_elem_of_nil].
  intros (e & -> & He)%list_elem_of_fmap. destruct (C id v E) as [_ F]. rewrite Forall_forall in F.
  by apply (F e He).
Qed.

Section Walk.
Context `{Goterators} `{!CollSet uuid} `{CollStack}.
Variable g : DGraph.
Hypothesis C : closed g.
Context {A : Type}.
Variable act : DVertex -> A -> outcome A.
(** What the actions have gathered from the visited vertices. *)
Variable R : gset uuid -> A -> Prop.
Hypothesis act_R : forall V id v acc, g !! id = Some v -> R V acc ->
  exists acc', act v acc = Return acc' /\ R ({[id]} ∪ V) acc'.

Lemma walk_S fuel ws vis acc v :
  walk g act (S fuel) ws vis acc (Some v)
  = fuel_bind (Some (act v acc)) (fun acc =>
      if (length (dv_edges v) =? 0)%nat then Some (Return (ws, cls_Insert vis (dv_id v), acc))
      else walk_rest g act fuel (push_all ws (tos v)) (cls_Insert vis (dv_id v)) acc).
Proof using Type. reflexivity. Qed.

Lemma walk_rest_S fuel ws vis acc :
  walk_rest g act (S fuel) ws vis acc
  = if 0 <? cst_Len ws then
      match cst_Pop ws with
      | (None, _) => Some Panic
      | (Some id, ws) =>
          if negb (cls_Has vis id) then
            fuel_bind (walk g act fuel ws vis acc (g !! id)) (fun '(ws, vis, acc) =>
              walk_rest g act fuel ws vis acc)
          else walk_rest g act fuel ws vis acc
      end
    else Some (Return (ws, vis, acc)).
Proof using Type. reflexivity. Qed.

Definition walks (ws : cst uuid) (vis : cls) (r : option (outcome (cst uuid * cls * A))) : Prop :=
  exists ws' vis' acc', r = Some (Return (ws', vis', acc')) /\ cst_elems ws' = []
  /\ visits (succ g) (vertex g) (cls_elems vis) (cst_elems ws) (cls_elems vis')
  /\ R (cls_elems vis') acc'.

Lemma walk_rest_spec fuel : forall ws vis acc,
  (length (cst_elems ws) + unvisited (succ g) (cls_elems vis) (ids g) < fuel)%nat ->
  Forall (vertex g) (cst_elems ws) -> R (cls_elems vis) acc ->
  walks ws vis (walk_rest g act fuel ws vis acc).
Proof using C act_R.
  induction fuel as [fuel IH] using lt_wf_ind. intros ws vis acc Hf Hws HR.
  destruct fuel as [|fuel]; [lia|]. rewrite walk_rest_S.
  destruct (cst_elems ws) as [|x W] eqn:Ews.
  { rewrite stack_empty by done. exists ws, vis, acc. rewrite Ews. by split_and!; [| |apply visits_done|]. }
  destruct (stack_pop ws x W Ews) as (-> & ws1 & -> & Hsnd). apply Forall_cons in Hws as [[v Hv] HW].
  cbn [length] in Hf. rewrite cls_Has_spec. unfold walks. rewrite Ews.
  case_bool_decide as Hin; cbn [negb].
  { destruct (IH fuel ltac:(lia) ws1 vis acc) as (w' & v' & a' & -> & Hw & HV & HR');
      [rewrite Hsnd; lia|by rewrite Hsnd|done|].
    exists w', v', a'. split; [done|]. split; [done|]. split; [|done].
    apply visits_skip; [done|]. by rewrite <- Hsnd. }
  destruct fuel as [|fuel]; [lia|]. rewrite Hv, walk_S. destruct (C x v Hv) as [Hid Hes].
  destruct (act_R _ _ _ _ Hv HR) as (acc1 & -> & HR1). cbn [fuel_bind]. rewrite Hid.
  pose proof (unvisited_step (succ g) (cls_elems vis) (ids g) x
                (vertex_ids g x ltac:(by eexists)) Hin) as Hstep.
  assert (succ g x = tos v) as Hsx by (unfold succ; by rewrite Hv). rewrite Hsx in Hstep.
  destruct (Nat.eqb_spec (length (dv_edges v)) 0) as [Hnil|Hnil].
  - assert (tos v = []) as Et by (unfold tos; by destruct (dv_edges v)). cbn [fuel_bind].
    destruct (IH (S fuel) ltac:(lia) ws1 (cls_Insert vis x) acc1) as (w' & v' & a' & E & Hw & HV & HR');
      [rewrite Hsnd, cls_Insert_spec; lia|by rewrite Hsnd|by rewrite cls_Insert_spec|].
    exists w', v', a'. split; [exact E|]. split; [done|]. split; [|done].
    apply visits_open; [by eexists|]. rewrite Hsx, Et. by rewrite cls_Insert_spec, Hsnd in HV.
  - assert (Forall (vertex g) (tos v)) as Htos.
    { apply Forall_forall. intros y Hy. apply (succ_vertex g x); [done|by rewrite Hsx]. }
    destruct (IH fuel ltac:(lia) (push_all ws1 (tos v)) (cls_Insert vis x) acc1)
      as (w1 & v1 & a1 & -> & Hw1 & HV1 & HR2).
    { rewrite push_all_elems, length_app, length_rev, Hsnd, cls_Insert_spec. lia. }
    { rewrite push_all_elems, Hsnd. apply Forall_app. split; [|done]. by apply Forall_rev. }
    { by rewrite cls_Insert_spec. }
    rewrite push_all_elems, Hsnd, cls_Insert_spec in HV1. cbn [fuel_bind].
    destruct (IH (S fuel) ltac:(lia) w1 v1 a1) as (w2 & v2 & a2 & E2 & Hw2 & HV2 & HR3);
      [|by rewrite Hw1|done|].
    { rewrite Hw1. simpl. pose proof (unvisited_mono (succ g) _ _ (ids g) (visits_keep _ _ _ _ _ HV1)). lia. }
    exists w2, v2, a2. split; [exact E2|]. split; [done|]. split; [|done]. rewrite Hw1 in HV2.
    eapply visits_trans; [|exact HV2]. apply visits_open; [by eexists|by rewrite Hsx].
Qed.

(** A walk from a vertex visits what its edges lead to. *)
Lemma walk_spec fuel id v acc :
  (graph_fuel g <= fuel)%nat -> g !! id = Some v -> R ∅ acc ->
  exists ws vis acc', walk g act fuel cst_New cls_New acc (Some v) = Some (Return (ws, vis, acc'))
  /\ (forall x, x ∈ cls_elems vis <-> leads (succ g) (vertex g) [id] x) /\ R (cls_elems vis) acc'.
Proof using C act_R.
  unfold graph_fuel. intros Hf Hv HR. destruct fuel as [|fuel]; [lia|].
  destruct (stack_pop (cst_Push cst_New id) id []) as (Hlen & ws1 & Hpop & Hws1);
    [by rewrite cst_Push_spec, cst_New_spec|].
  pose proof (edges_bound (succ g) (ids g) id (vertex_ids g id ltac:(by eexists))) as Hb.
  assert (succ g id = tos v) as Hsx by (unfold succ; by rewrite Hv). rewrite Hsx in Hb.
  pose proof (unvisited_mono (succ g) ∅ ({[id]} ∪ ∅) (ids g) ltac:(set_solver)) as Hu.
  destruct (C id v Hv) as [Hid Hes]. rewrite walk_S.
  destruct (act_R _ _ _ _ Hv HR) as (acc1 & -> & HR1). cbn [fuel_bind]. rewrite Hid.
  assert (forall x V, visits (succ g) (vertex g) ({[id]} ∪ ∅) (rev (tos v) ++ []) V ->
            x ∈ V <-> leads (succ g) (vertex g) [id] x) as Hleads.
  { intros x V HV. apply visits_leads; [by constructor; [eexists|constructor]|].
    apply visits_open; [by eexists|by rewrite Hsx]. }
  destruct (Nat.eqb_spec (length (dv_edges v)) 0) as [Hnil|Hnil].
  - assert (tos v = []) as Et by (unfold tos; by destruct (dv_edges v)).
    exists cst_New, (cls_Insert cls_New id), acc1. split; [done|].
    rewrite cls_Insert_spec, cls_New_spec. split; [|done]. intros x. apply Hleads. rewrite Et. apply visits_done.
  - destruct (walk_rest_spec fuel (push_all cst_New (tos v)) (cls_Insert cls_New id) acc1)
      as (w1 & v1 & a1 & -> & Hw1 & HV1 & HR2).
    { rewrite push_all_elems, length_app, length_rev, cst_New_spec, cls_Insert_spec, cls_New_spec.
      simpl. lia. }
    { rewrite push_all_elems, cst_New_spec, app_nil_r. apply Forall_rev, Forall_forall. intros y Hy.
      apply (succ_vertex g id); [done|by rewrite Hsx]. }
    { by rewrite cls_Insert_spec, cls_New_spec. }
    exists w1, v1, a1. split; [done|]. split; [|done]. intros x. apply Hleads.
    by rewrite push_all_elems, cst_New_spec, cls_Insert_spec, cls_New_spec in HV1.
Qed.
End Walk.

(** ** Tips *)

Section Tips.
Context `{Goterators} `{!CollSet uuid} `{CollStack}.
Variable g : DGraph.
Hypothesis C : closed g.

(** A vertex that fewer than two vertices approve. *)
Definition few_approvals (x : uuid) : Prop :=
  exists v, g !! x = Some v /\ (length (dv_edges v) < 2)%nat.

(** The tips of the reverse graph.  On a closed graph that has the genesis
    vertex, [GetTipVertices] ends (the fuel [graph_fuel] is enough) without a
    panic, and its result is exactly the vertices that edges lead to from the
    genesis vertex and that have fewer than two edges. *)
Theorem GetTipVertices_tips fuel v :
  g !! uuid_Nil = Some v -> (graph_fuel g <= fuel)%nat ->
  exists tips, GetTipVertices g fuel = Some (Return tips)
  /\ forall x, x ∈ cls_elems tips <-> leads (succ g) (vertex g) [uuid_Nil] x /\ few_approvals x.
Proof using C.
  intros Hv Hf.
  destruct (walk_spec g C visit_tip (fun V T => forall x, x ∈ cls_elems T <-> x ∈ V /\ few_approvals x))
    with (fuel := fuel) (id := uuid_Nil) (v := v) (acc := cls_New) as (ws & vis & tips & E & Hvis & HT).
  - intros V id u T Hu HT. eexists. split; [reflexivity|]. intros x. destruct (C id u Hu) as [Hid _].
    destruct (Nat.ltb_spec (length (dv_edges u)) 2) as [Hlt|Hge].
    + rewrite cls_Insert_spec, elem_of_union, HT, elem_of_union, elem_of_singleton, elem_of_singleton, Hid.
      split; [intros [->|]; [split; [by left|by exists u]|tauto]|tauto].
    + rewrite HT, elem_of_union, elem_of_singleton. split; [tauto|].
      intros [[->|] Hx]; [|done]. destruct Hx as (u' & Hu' & Hlt). assert (u' = u) as -> by congruence. lia.
  - done.
  - done.
  - intros x. rewrite cls_New_spec. set_solver.
  - exists tips. unfold GetTipVertices. rewrite Hv, E. cbn [fuel_bind]. split; [done|].
    intros x. by rewrite HT, Hvis.
Qed.

(** ** Drawing *)

Lemma draw_edges_total label es : forall l,
  Forall (fun e => is_Some (g !! de_from e) /\ is_Some (g !! de_to e)) es ->
  exists l', draw_edges g label es l = Return l'.
Proof using Type.
  induction es as [|e es IH]; intros l; cbn [draw_edges]; [by eexists|].
  intros [[[a ->] [b ->]] Hes]%Forall_cons. by apply IH.
Qed.

Lemma draw_vertex_edges_total id v l : g !! id = Some v -> exists l', draw_vertex_edges g v l = Return l'.
Proof using C.
  intros Hv. destruct (C id v Hv) as [Hid F]. unfold draw_vertex_edges. rewrite Hid, Hv.
  apply draw_edges_total. eapply Forall_impl; [exact F|]. intros e [-> He]. split; [by eexists|done].
Qed.

(** Two known pins or more are drawn; the stack is as before. *)
Lemma Visualize_total fuel pins a b rest :
  (graph_fuel g <= fuel)%nat -> cst_elems pins = Some a :: Some b :: rest -> vertex g b ->
  exists f pins', Visualize g fuel pins = Some (Return (f, pins')) /\ cst_elems pins' = cst_elems pins.
Proof using C.
  intros Hf Hp [v Hv]. unfold Visualize, PeekPrev, PinTxStack_Pop, PinTxStack_Peek.
  destruct (stack_pop pins _ _ Hp) as (_ & p1 & -> & Hp1). rewrite cst_Peek_spec, Hp1. cbn [head mjoin option_join].
  rewrite cst_Peek_spec, cst_Push_spec. cbn [head mjoin option_join].
  unfold addVisVertices, addVisEdges. rewrite Hv.
  destruct (walk_spec g C (draw_vertex b a) (fun _ _ => True)) with (fuel := fuel) (id := b) (v := v) (acc := @nil (Z * bool))
    as (ws & vis & vs & -> & _); [by eexists|done|done|done|]. cbn [fuel_bind].
  destruct (walk_spec g C (draw_vertex_edges g) (fun _ _ => True)) with (fuel := fuel) (id := b) (v := v) (acc := @nil (Z * Z * Z))
    as (ws2 & vis2 & es & -> & _).
  { intros V id u l Hu _. destruct (draw_vertex_edges_total id u l Hu) as [l' El]. by exists l'. }
  { done. } { done. } { done. }
  cbn [fuel_bind]. eexists _, _. split; [reflexivity|]. by rewrite cst_Push_spec, Hp1, Hp.
Qed.
End Tips.

(** ** Notifications *)

Section Notify.
Context `{Goterators}.

Lemma notify_edge_tos id fr g e y :
  tos <$> notify_edge id fr g e !! y
  = (if bool_decide (uid e = y) then (fun l => l ++ [id]) else (fun l => l)) <$> (tos <$> g !! y).
Proof.
  unfold notify_edge. destruct (g !! uid e) as [src|] eqn:E.
  2:{ case_bool_decide as Hy; [rewrite <- Hy, E; done|by destruct (g !! y)]. }
  assert (forall (v : DVertex) d, tos (SetDepth v d) = tos v) as Hd by done.
  assert (tos <$> <[uid e := AddEdge src (NewEdge (uid e) id)]> g !! y
    = (if bool_decide (uid e = y) then (fun l => l ++ [id]) else (fun l => l)) <$> (tos <$> g !! y)) as Hins.
  { case_bool_decide as Hy.
    - rewrite <- Hy, lookup_insert_eq, E. simpl. unfold tos. simpl. by rewrite map_app.
    - rewrite lookup_insert_ne by done. by destruct (g !! y). }
  destruct fr; [|done]. rewrite <- Hins, lookup_alter. destruct (decide (id = y)) as [->|]; [|done].
  by destruct (<[_ := _]> g !! y).
Qed.

Lemma notify_edges_tos id fr es y : forall g,
  tos <$> fold_left (notify_edge id fr) es g !! y
  = (fun l => l ++ replicate (times y (map uid es)) id) <$> (tos <$> g !! y).
Proof.
  induction es as [|e es IH]; intros g; cbn [fold_left map].
  - unfold times. simpl. destruct (g !! y); simpl; [|done]. by rewrite app_nil_r.
  - rewrite IH, notify_edge_tos. unfold times. cbn [List.filter]. destruct (g !! y) as [v|]; [|done].
    case_bool_decide; simpl; [by rewrite <- app_assoc|done].
Qed.

Lemma AddVertex_lookup g v y :
  AddVertex g v !! y = if bool_decide (y = dv_id v /\ g !! y = None) then Some v else g !! y.
Proof.
  unfold AddVertex. destruct (g !! dv_id v) eqn:E; case_bool_decide as Hy.
  - destruct Hy as [-> Hy]. congruence.
  - done.
  - destruct Hy as [-> _]. by rewrite lookup_insert_eq.
  - rewrite lookup_insert_ne; [done|]. intros <-. tauto.
Qed.

(** A vertex that is new to the graph: it gets no edges, and those it approves
    get one each. *)
Lemma notify_graph_tos g x y :
  uid (txvl_vertex x) ∉ map uid (txvl_edges x) -> g !! uid (txvl_vertex x) = None ->
  tos <$> notify_graph g x !! y
  = if bool_decide (y = uid (txvl_vertex x)) then Some []
    else (fun l => l ++ replicate (times y (map uid (txvl_edges x))) (uid (txvl_vertex x)))
         <$> (tos <$> g !! y).
Proof.
  intros Hself Hnew. unfold notify_graph. rewrite gt_ForEach_spec, notify_edges_tos, AddVertex_lookup.
  cbn [dv_id NewVertex]. destruct (decide (y = uid (txvl_vertex x))) as [->|Hy].
  - rewrite !bool_decide_true by done. simpl.
    assert (times (uid (txvl_vertex x)) (map uid (txvl_edges x)) = 0%nat) as ->; [|done].
    destruct (times _ _) eqn:Et; [done|]. destruct Hself. apply times_in. lia.
  - by rewrite !bool_decide_false by tauto.
Qed.

(** ** Closed graphs stay closed *)

Lemma closed_insert g id v v' :
  closed g -> g !! id = Some v -> dv_id v' = dv_id v ->
  Forall (fun e => de_from e = id /\ is_Some (g !! de_to e)) (dv_edges v') -> closed (<[id := v']> g).
Proof.
  intros C Hv Hid Hes y u. assert (forall z, is_Some (g !! z) -> is_Some (<[id := v']> g !! z)) as Hk.
  { intros z Hz. apply lookup_insert_is_Some. destruct (decide (id = z)); [by left|by right]. }
  destruct (decide (y = id)) as [->|Hne].
  - rewrite lookup_insert_eq. intros [= <-]. split; [rewrite Hid; by apply C|].
    eapply Forall_impl; [exact Hes|]. intros e [? ?]. auto.
  - rewrite lookup_insert_ne by done. intros Hu. destruct (C y u Hu) as [? F]. split; [done|].
    eapply Forall_impl; [exact F|]. intros e [? ?]. auto.
Qed.

Lemma notify_edge_closed id fr g e :
  closed g -> vertex g id ->
  closed (notify_edge id fr g e) /\ (forall y, vertex g y -> vertex (notify_edge id fr g e) y).
Proof.
  intros C Hid. unfold notify_edge. destruct (g !! uid e) as [src|] eqn:E; [|done].
  set (g1 := <[uid e := _]> g).
  assert (forall y, vertex g y -> vertex g1 y) as Hv1.
  { intros y Hy. apply lookup_insert_is_Some. destruct (decide (uid e = y)); [by left|by right]. }
  assert (closed g1) as C1.
  { eapply closed_insert; [done|exact E|done|]. cbn [AddEdge dv_edges]. apply Forall_app.
    split; [apply C; [done]|constructor; [done|constructor]]. }
  destruct fr; [|done]. destruct (Hv1 id Hid) as [v Hv].
  assert (alter (fun v => SetDepth v (to_uint64 (dv_depth src + 1))) id g1
          = <[id := SetDepth v (to_uint64 (dv_depth src + 1))]> g1) as ->.
  { apply map_eq. intros y. rewrite lookup_alter, lookup_insert. case_decide as Hy; [|done]. by rewrite Hv. }
  split.
  - eapply closed_insert; [done|exact Hv|done|]. cbn [SetDepth dv_edges]. by apply C1.
  - intros y Hy. apply lookup_insert_is_Some. destruct (decide (id = y)); [by left|right; split; [done|by apply Hv1]].
Qed.

Lemma notify_graph_closed g x :
  closed g -> closed (notify_graph g x) /\ vertex (notify_graph g x) (uid (txvl_vertex x))
  /\ (forall y, vertex g y -> vertex (notify_graph g x) y).
Proof.
  intros C. unfold notify_graph. rewrite gt_ForEach_spec.
  set (v := NewVertex _ _ _). set (fr := match _ with Some _ => false | None => true end). clearbody fr.
  assert (forall y, vertex g y -> vertex (AddVertex g v) y) as Hk.
  { intros y Hy. unfold vertex. rewrite AddVertex_lookup. by case_bool_decide. }
  assert (closed (AddVertex g v)) as C1.
  { intros y u. rewrite AddVertex_lookup. case_bool_decide as Hy.
    - intros [= <-]. split; [by destruct Hy as [-> _]|constructor].
    - intros Hu. destruct (C y u Hu) as [? F]. split; [done|]. eapply Forall_impl; [exact F|].
      intros e [? He]. split; [done|by apply Hk]. }
  assert (vertex (AddVertex g v) (uid (txvl_vertex x))) as Hx.
  { unfold vertex. rewrite AddVertex_lookup. case_bool_decide as Hy; [by eexists|].
    destruct (g !! uid (txvl_vertex x)) eqn:E; [by eexists|]. by destruct Hy. }
  revert C1 Hx Hk. generalize (AddVertex g v) as g1.
  induction (txvl_edges x) as [|e es IH]; intros g1 C1 Hx Hk; cbn [fold_left]; [done|].
  destruct (notify_edge_closed (uid (txvl_vertex x)) fr g1 e C1 Hx) as [C2 Hk2].
  apply IH; [done|by apply Hk2|]. intros y Hy. by apply Hk2, Hk.
Qed.
End Notify.

Section NotifyAll.
Context `{Goterators} `{MapRange} `{!CollSet uuid} `{CollStack}.

(** The pins on the stack are vertices. *)
Definition pins_known (w : Watcher) : Prop :=
  Forall (fun p => exists id, p = Some id /\ vertex (graph w) id) (cst_elems (pinStack w)).

Lemma Notify_total fuel w x :
  closed (graph w) -> pins_known w -> (graph_fuel (notify_graph (graph w) x) <= fuel)%nat ->
  exists w', Notify fuel w x = Some (Return w') /\ graph w' = notify_graph (graph w) x /\ pins_known w'.
Proof.
  intros C P Hf. unfold Notify. destruct (notify_graph_closed (graph w) x C) as (C1 & Hx & Hk).
  set (g := notify_graph _ _) in *.
  assert (forall l, Forall (fun p => exists id, p = Some id /\ vertex (graph w) id) l ->
                    Forall (fun p => exists id, p = Some id /\ vertex g id) l) as Hmono.
  { intros l F. eapply Forall_impl; [exact F|]. intros p (id & -> & Hid). exists id. split; [done|by apply Hk]. }
  destruct (_ || _).
  2:{ eexists. split; [reflexivity|]. split; [done|]. by apply Hmono. }
  set (pins := cst_Push _ _).
  assert (cst_elems pins = Some (uid (txvl_vertex x)) :: cst_elems (pinStack w)) as Ep by apply cst_Push_spec.
  assert (Forall (fun p => exists id, p = Some id /\ vertex g id) (cst_elems pins)) as P1.
  { rewrite Ep. constructor; [by eexists|by apply Hmono]. }
  rewrite cst_Len_spec. destruct (Z.ltb_spec 1 (Z.of_nat (length (cst_elems pins)))) as [Hlen|_].
  2:{ eexists. split; [reflexivity|]. by split. }
  destruct (cst_elems (pinStack w)) as [|p rest] eqn:Ew; [rewrite Ep in Hlen; simpl in Hlen; lia|].
  rewrite Ep in P1. apply Forall_cons in P1 as [_ P1]. pose proof P1 as P2.
  apply Forall_cons in P2 as [(b & -> & Hb) _].
  destruct (Visualize_total g C1 fuel pins _ b rest Hf Ep Hb) as (f & pins' & -> & Ep'). cbn [fuel_bind].
  eexists. split; [reflexivity|]. split; [done|]. unfold pins_known. cbn [graph pinStack]. rewrite Ep', Ep.
  constructor; [by eexists|done].
Qed.

Lemma notify_all_total l : forall w,
  closed (graph w) -> pins_known w ->
  exists fuel0, forall fuel, (fuel0 <= fuel)%nat ->
  exists w', notify_all fuel w l = Some (Return w')
  /\ graph w' = fold_left notify_graph l (graph w) /\ pins_known w'.
Proof.
  (* the fuel needed depends on the graph alone *)
  assert (forall g, closed g -> exists fuel0, forall fuel, (fuel0 <= fuel)%nat -> forall w,
    graph w = g -> pins_known w -> exists w', notify_all fuel w l = Some (Return w')
    /\ graph w' = fold_left notify_graph l g /\ pins_known w') as Hg.
  { induction l as [|x l IH]; intros g C.
    - exists 0%nat. intros fuel _ w <- P. by exists w.
    - destruct (notify_graph_closed g x C) as (C1 & _). destruct (IH _ C1) as [f1 Hf1].
      exists (f1 `max` graph_fuel (notify_graph g x))%nat. intros fuel Hf w <- P. cbn [notify_all fold_left].
      destruct (Notify_total fuel w x C P ltac:(lia)) as (w1 & -> & Hw1 & P1). cbn [fuel_bind].
      by apply (Hf1 fuel ltac:(lia) w1). }
  intros w C P. destruct (Hg _ C) as [f0 Hf0]. exists f0. intros fuel Hf. by apply (Hf0 fuel Hf w).
Qed.
End NotifyAll.

(** ** The graph and the dag *)

Section Mirror.
Context `{CryptoLib} `{ProtoLib} `{TimestampLib} `{EthLib} `{UuidLib}.
Context `{Goterators} `{MathLib} `{MapRange} `{!CollSet uuid}.

(** The vertices of the graph are those of the dag, and the edges of a vertex
    lead to the nodes that approve it, in order. *)
Definition mirrors (g : DGraph) (s : DagWorld) : Prop :=
  forall id, match mapped_vertices (dg s) !! id with
             | None => g !! id = None
             | Some l => exists n, dheap s !! l = Some n
                         /\ exists es, node_ids (dheap s) (sources n) = Return es /\ tos <$> g !! id = Some es
             end.

Lemma mirrors_shape g s s' :
  same_shape (dheap s) (dheap s') -> mapped_vertices (dg s') = mapped_vertices (dg s) ->
  mirrors g s -> mirrors g s'.
Proof.
  intros Hsh Hm M id. specialize (M id). rewrite Hm. destruct (mapped_vertices (dg s) !! id) as [l|]; [|done].
  destruct M as (n & Hn & es & He & Hg).
  destruct (shape_lookup _ _ l n (same_shape_sym _ _ Hsh) Hn) as (n' & Hn' & _ & _ & Hs').
  exists n'. split; [done|]. exists es. split; [|done]. by rewrite Hs', <- (node_ids_shape _ _ _ Hsh).
Qed.

Lemma node_ids_agree h h' l ids :
  (forall x, x ∈ l -> forall n, h !! x = Some n -> h' !! x = Some n) ->
  node_ids h l = Return ids -> node_ids h' l = Return ids.
Proof.
  revert ids. induction l as [|x l IH]; intros ids Hx; simpl; [done|].
  destruct (h !! x) as [n|] eqn:E; [|done]. rewrite (Hx x ltac:(left) n E).
  destruct (node_ids h l) as [r|]; simpl; [|done]. intros [= <-].
  rewrite (IH r); [done| |done]. intros y Hy. apply Hx. by right.
Qed.

(** Changes of a node that is linked to nothing do not show. *)
Lemma mirrors_grown g s s' l n :
  dag_inv s -> dheap s !! l = Some n -> isolated n -> l ∉ d_dag (dg s) ->
  mapped_vertices (dg s') = mapped_vertices (dg s) ->
  (forall x m, x <> l -> dheap s !! x = Some m -> dheap s' !! x = Some m) ->
  mirrors g s -> mirrors g s'.
Proof.
  intros I Hl Hiso Hnin Hm Hh M id. specialize (M id). rewrite Hm.
  destruct (mapped_vertices (dg s) !! id) as [x|] eqn:Ex; [|done].
  destruct M as (m & Hx & es & He & Hg). destruct (inv_mapped s I id x Ex) as [Hd _].
  assert (x <> l) as Hxl by (by intros ->). exists m. split; [by apply Hh|]. exists es. split; [|done].
  eapply node_ids_agree; [|exact He]. intros y Hy k Hk. apply Hh; [|done]. intros ->.
  by apply (isolated_no_source s l n x m).
Qed.

Lemma node_ids_app h a b ia ib :
  node_ids h a = Return ia -> node_ids h b = Return ib -> node_ids h (a ++ b) = Return (ia ++ ib).
Proof.
  revert ia. induction a as [|x a IH]; intros ia; simpl; [by intros [= <-]|].
  destruct (h !! x); [|done]. destruct (node_ids h a) as [r|]; simpl; [|done]. intros [= <-] Hb.
  by rewrite (IH r).
Qed.

Lemma node_ids_replicate h l n k :
  h !! l = Some n -> node_ids h (replicate k l) = Return (replicate k (uid n)).
Proof. intros Hl. induction k as [|k IH]; simpl; [done|]. by rewrite Hl, IH. Qed.

(** The nodes behind [ts] whose id is that of the node at [x] are at [x]. *)
Lemma times_ids h (m : gmap uuid loc) ts ids x id :
  node_ids h ts = Return ids -> m !! id = Some x -> uid <$> h !! x = Some id ->
  Forall (fun t => exists n, h !! t = Some n /\ (m !! uid n = Some t \/ m !! uid n = None)) ts ->
  times id ids = times x ts.
Proof.
  intros Hids Hm Hx. revert ids Hids. induction ts as [|t ts IH]; intros ids; simpl; [by intros [= <-]|].
  destruct (h !! t) as [n|] eqn:Et; [|done]. destruct (node_ids h ts) as [r|]; simpl; [|done].
  intros [= <-] [(n' & Hn' & Hc) F]%Forall_cons. unfold times in *. cbn [List.filter].
  assert (n' = n) as -> by congruence. specialize (IH r eq_refl F).
  destruct (decide (t = x)) as [->|Hne].
  - rewrite Et in Hx. injection Hx as Hx. rewrite !bool_decide_true by done. simpl. by rewrite IH.
  - rewrite (bool_decide_false (t = x)) by done. rewrite bool_decide_false; [done|].
    intros Heq. rewrite Heq in Hc. destruct Hc; congruence.
Qed.

(** Adding a node, and the message about it. *)
Lemma mirrors_added g s s' l n ts x :
  dag_inv s -> added s s' l n ts -> addable s l n ->
  uid (txvl_vertex x) = uid n -> node_ids (dheap s) ts = Return (map uid (txvl_edges x)) ->
  Forall (fun t => exists m, dheap s !! t = Some m
    /\ uid m <> uid n
    /\ (mapped_vertices (dg s) !! uid m = Some t \/ mapped_vertices (dg s) !! uid m = None)) ts ->
  mirrors g s -> mirrors (notify_graph g x) s'.
Proof.
  intros I Hadd [Hl Hiso Hnin Hnew] Hux Hts Hcs M.
  assert (uid (txvl_vertex x) ∉ map uid (txvl_edges x)) as Hself.
  { rewrite Hux. revert Hts Hcs. generalize (map uid (txvl_edges x)) as ids. clear.
    induction ts as [|t ts IH]; intros ids; simpl; [intros [= <-] _; apply not_elem_of_nil|].
    destruct (dheap s !! t) as [m|] eqn:E; [|done]. destruct (node_ids _ ts) as [r|]; simpl; [|done].
    intros [= <-] [(m' & Hm' & Hne & _) F]%Forall_cons [Heq|Hin]%elem_of_cons; [congruence|].
    by apply (IH r). }
  pose proof (added_heap _ _ _ _ _ Hadd) as L.
  assert (g !! uid (txvl_vertex x) = None) as Hgnew.
  { specialize (M (uid n)). rewrite Hnew in M. by rewrite Hux. }
  destruct (added_node _ _ _ _ _ Hadd) as (n' & Hn' & Hu' & _).
  intros id. rewrite (added_mapped _ _ _ _ _ Hadd).
  destruct (decide (id = uid n)) as [->|Hid].
  - rewrite lookup_insert_eq. exists n'. split; [done|]. exists [].
    pose proof (lh_new _ _ _ _ _ L) as Hsh. rewrite Hn' in Hsh. simpl in Hsh. unfold shape in Hsh.
    injection Hsh as _ _ ->. split; [done|]. rewrite notify_graph_tos by done. by rewrite bool_decide_true.
  - rewrite lookup_insert_ne by done. specialize (M id).
    assert (tos <$> notify_graph g x !! id
      = (fun l => l ++ replicate (times id (map uid (txvl_edges x))) (uid n)) <$> (tos <$> g !! id)) as Hg.
    { rewrite notify_graph_tos by done. rewrite bool_decide_false by congruence. by rewrite Hux. }
    destruct (mapped_vertices (dg s) !! id) as [y|] eqn:Ey.
    2:{ rewrite M in Hg. by destruct (notify_graph g x !! id). }
    destruct M as (m & Hm & es & He & Hge). rewrite Hge in Hg.
    destruct (inv_mapped s I id y Ey) as [Hyd Hyu].
    assert (y <> l) as Hyl by (by intros ->).
    destruct (lh_lookup_fwd _ _ _ _ _ y m L Hyl Hm) as (m' & Hm' & _ & _ & Hs').
    exists m'. split; [done|]. eexists. split; [|exact Hg]. rewrite Hs'. apply node_ids_app.
    + rewrite (lh_node_ids _ _ _ _ _ _ L); [done|]. intros Hin.
      by apply (isolated_no_source s l n y m).
    + rewrite <- Hu', (node_ids_replicate _ l n') by done. f_equal. f_equal. symmetry.
      eapply times_ids; [exact Hts|exact Ey|exact Hyu|]. eapply Forall_impl; [exact Hcs|].
      intros t (k & ? & _ & ?). by exists k.
Qed.
End Mirror.

(** ** Every operation tells the watcher *)

Section Told.
Context `{CryptoLib} `{ProtoLib} `{TimestampLib} `{EthLib} `{UuidLib} `{ProtoPinLib}.
Context `{Goterators} `{MathLib} `{MapRange} `{!CollSet uuid} `{CollStack}.
Variable cfg : DagConfiguration.
Variable ReverseSlice : list loc -> list loc.
Hypothesis ReverseSlice_perm : forall l, ReverseSlice l ≡ₚ l.

(** The messages sent between [s] and [s'] bring a graph that mirrors [s] to
    one that mirrors [s']. *)
Definition told (s s' : DagWorld) : Prop :=
  exists new, txCh (dg s') = (fun sent => sent ++ new) <$> txCh (dg s)
  /\ forall g, mirrors g s -> mirrors (fold_left notify_graph new g) s'.

Lemma told_quiet s s' :
  txCh (dg s') = txCh (dg s) -> (forall g, mirrors g s -> mirrors g s') -> told s s'.
Proof.
  intros Ht Hg. exists []. split; [|done]. rewrite Ht. destruct (txCh (dg s)); simpl; [|done].
  by rewrite app_nil_r.
Qed.

Lemma told_trans s s1 s2 : told s s1 -> told s1 s2 -> told s s2.
Proof.
  intros (a & Ha & Ga) (b & Hb & Gb). exists (a ++ b). split.
  - rewrite Hb, Ha. destruct (txCh (dg s)); simpl; [|done]. by rewrite app_assoc.
  - intros g Hg. rewrite fold_left_app. by apply Gb, Ga.
Qed.

Lemma told_shape s s' :
  same_shape (dheap s) (dheap s') -> mapped_vertices (dg s') = mapped_vertices (dg s) ->
  txCh (dg s') = txCh (dg s) -> told s s'.
Proof. intros Hsh Hm Ht. apply told_quiet; [done|]. intros g. by apply mirrors_shape. Qed.

Lemma told_refresh s s' : dag_inv s -> refresh_weights cfg s = Return s' -> told s s'.
Proof.
  intros I (_ & Hdg & _ & Hsh & _)%refresh_weights_spec; [|done]. apply told_shape; [done|by rewrite Hdg..].
Qed.

Lemma told_addToDag now s l n ts s' ok :
  dag_inv s -> addable s l n -> l ∉ ts ->
  Forall (fun t => exists m, dheap s !! t = Some m /\ uid m <> uid n
    /\ (mapped_vertices (dg s) !! uid m = Some t \/ mapped_vertices (dg s) !! uid m = None)) ts ->
  addToDag now s l (Some (map Some ts)) = Return (s', ok) -> told s s'.
Proof.
  intros I Ha Hself Hts E. apply (addToDag_spec now s l n) in E as [_ E]; [|done|done|].
  2:{ by intros (x & [= ->] & Hx)%list_elem_of_fmap. }
  destruct ok.
  - destruct E as (ts' & Heq & Hadd). simpl in Heq. apply (inj (map Some)) in Heq as <-.
    destruct (added_sent _ _ _ _ _ Hadd) as (x & Hs & Hu & Hids). exists [x]. split; [done|].
    intros g M. cbn [fold_left]. by eapply mirrors_added.
  - destruct E as [R1 _ R3 _]. apply told_shape; [by rewrite R3|by rewrite R1..].
Qed.

(** The nodes of the dag are found under their ids. *)
Lemma dag_targets s n ts :
  dag_inv s -> mapped_vertices (dg s) !! uid n = None -> (forall t, t ∈ ts -> t ∈ d_dag (dg s)) ->
  Forall (fun t => exists m, dheap s !! t = Some m /\ uid m <> uid n
    /\ (mapped_vertices (dg s) !! uid m = Some t \/ mapped_vertices (dg s) !! uid m = None)) ts.
Proof.
  intros I Hnew Hts. apply Forall_forall. intros t Ht.
  destruct (inv_dag s I t (Hts t Ht)) as (m & Hm & Hid). exists m. split; [done|].
  split; [congruence|by left].
Qed.

Lemma told_AddTxDag fuel ds now s l n s' r :
  dag_inv s -> addable s l n -> draws_ok ds ->
  AddTxDag cfg fuel ds now s l = Some (Return (s', r)) -> told s s'.
Proof.
  intros I Ha Hd E.
  destruct (AddTxDag_outcome cfg _ _ _ _ _ _ _ _ I Ha Hd E) as [Er|ts hh s1 s2 ok Hs1 I1 Ha1 Hts Eadd Er].
  { by apply told_refresh. }
  pose proof Ha as [Hl Hiso Hnin Hid].
  assert (told s s1) as T1.
  { subst s1. apply told_quiet; [done|]. intros g. apply (mirrors_grown g s _ l n); [done..|].
    intros x m Hx Hm. cbn. by rewrite lookup_insert_ne. }
  assert (told s1 s2) as T2.
  { eapply told_addToDag; [done|exact Ha1| | |exact Eadd].
    - intros Hin. by apply Hnin, Hts.
    - apply dag_targets; [done|apply Ha1|]. by subst s1. }
  eapply told_trans; [exact T1|]. destruct ok; [|by subst]. eapply told_trans; [exact T2|].
  apply told_refresh; [|done].
  apply (addToDag_spec now s1 l (set_height n hh)) in Eadd as [_ (ts' & _ & Hadd)]; [apply Hadd|done|done|].
  intros (x & [= ->] & Hx)%list_elem_of_fmap. by apply Hnin, Hts.
Qed.

Lemma told_grown s s' l n :
  dag_inv s -> dheap s !! l = Some n -> isolated n -> l ∉ d_dag (dg s) -> grown s s' l -> told s s'.
Proof.
  intros I Hl Hiso Hnin [_ Hdg Hh]. apply told_quiet; [by rewrite Hdg|]. intros g.
  apply (mirrors_grown g s _ l n); [done..|by rewrite Hdg|done].
Qed.

(** A record that does not name its own id. *)
Lemma told_InsertTxDag now s l n txId major minor ids s' e :
  dag_inv s -> dheap s !! l = Some n -> isolated n -> l ∉ d_dag (dg s) ->
  Forall uuid_ok ids -> txId ∉ ids ->
  InsertTxDag cfg ReverseSlice now s l txId major minor ids = Return (s', e) -> told s s'.
Proof.
  intros I Hl Hiso Hnin Hok Hself E.
  destruct (InsertTxDag_outcome cfg ReverseSlice _ _ _ _ _ _ _ _ _ _ I Hl Hiso Hnin E)
    as [G|s2 iv cs s3 ok G Ha Hid Hcs _ Hids Eadd Hs']; [by eapply told_grown|].
  eapply told_trans; [by eapply told_grown|].
  assert (told s2 s3) as T3.
  { eapply told_addToDag; [apply G|exact Ha|done| |exact Eadd]. eapply Forall_impl; [by apply Hids|].
    intros c (m & Hm & Hin & Hc). exists m. split; [done|]. rewrite (grown_dg _ _ _ G).
    split; [|done]. rewrite Hid. by intros <-. }
  destruct Hs' as [->|(_ & e' & Et)]; [done|]. eapply told_trans; [exact T3|].
  apply insert_tail_shape in Et as (Hsh & Hm & Ht). by apply told_shape.
Qed.

Variable RunCall : Storage -> pb_Txv1 -> PinTxHeader -> Storage * (CallResponse + string).
Variable coinbase : string.
Variable dagWallet : Wallet.
Variable undef : string -> Z.
Variable maxFuel : Z.

Lemma told_genPinTx now s s' :
  genPinTx RunCall coinbase dagWallet undef maxFuel now s = Return s' -> told s s'.
Proof.
  unfold genPinTx, GetConfirmedSites. cbn [ConfirmationCounter_pop].
  destruct (GetAllUncofirmed _ _ _ _) as [txs|]; cbn [outcome_bind]; [|done].
  destruct (_ || _); [|by intros [= <-]; apply told_shape].
  destruct (all_some _) as [sites|]; [|done].
  destruct (NodeTxPin_add _ _ _ _ _ _ _) as [w|] eqn:E; cbn [outcome_bind]; [|done]. intros [= <-].
  apply NodeTxPin_add_shape in E. by apply told_shape.
Qed.
End Told.

(** ** The watcher follows the dag *)

Section Watched.
Context `{CryptoLib} `{ProtoLib} `{TimestampLib} `{EthLib} `{UuidLib} `{ProtoPinLib}.
Context `{Goterators} `{MathLib} `{MapRange} `{!CollSet uuid} `{CollStack}.
Variable cfg : DagConfiguration.
Variable ReverseSlice : list loc -> list loc.
Hypothesis ReverseSlice_perm : forall l, ReverseSlice l ≡ₚ l.
Variable RunCall : Storage -> pb_Txv1 -> PinTxHeader -> Storage * (CallResponse + string).
Variable coinbase : string.
Variable dagWallet : Wallet.
Variable undef : string -> Z.
Variable maxFuel : Z.

(** The operations on the dag; the ids of a record are uuids and not its own. *)
Inductive watched_step (s : DagWorld) : DagWorld -> Prop :=
| watched_add n s1 l fuel ds now s' r :
    isolated n -> mapped_vertices (dg s) !! uid n = None -> alloc s n = (s1, l) -> draws_ok ds ->
    AddTxDag cfg fuel ds now s1 l = Some (Return (s', r)) -> watched_step s s'
| watched_insert n s1 l txId major minor ids now s' e :
    isolated n -> alloc s n = (s1, l) -> Forall uuid_ok ids -> txId ∉ ids ->
    InsertTxDag cfg ReverseSlice now s1 l txId major minor ids = Return (s', e) -> watched_step s s'
| watched_pin now s' :
    genPinTx RunCall coinbase dagWallet undef maxFuel now s = Return s' -> watched_step s s'.

Lemma told_alloc s n s1 l : dag_inv s -> isolated n -> alloc s n = (s1, l) -> told s s1.
Proof using Type.
  intros I Hiso (_ & Hnone & Hh & Hdg & _)%alloc_spec; [|done|done]. apply told_quiet; [by rewrite Hdg|].
  intros g M id. specialize (M id). rewrite Hdg. destruct (mapped_vertices (dg s) !! id) as [x|]; [|done].
  assert (forall y m, dheap s !! y = Some m -> dheap s1 !! y = Some m) as Hy.
  { intros y m Hy. rewrite Hh. by rewrite lookup_insert_ne by congruence. }
  destruct M as (m & Hm & es & He & Hg). exists m. split; [by apply Hy|]. exists es. split; [|done].
  eapply node_ids_agree; [|exact He]. intros y _. apply Hy.
Qed.

Lemma watched_step_told s s' : dag_inv s -> watched_step s s' -> dag_inv s' /\ told s s'.
Proof using ReverseSlice_perm.
  intros I [n s1 l fuel ds now s'' r Hiso Hid Ha Hd E|n s1 l txId ma mi ids0 now s'' e Hiso Ha Hok Hself E
           |now s'' E].
  - pose proof (told_alloc s n s1 l I Hiso Ha) as T1.
    apply alloc_spec in Ha as (I1 & Hnone & Hh & Hdg & _ & Hnin); [|done|done].
    assert (addable s1 l n) as Hadd by (split; [by rewrite Hh, lookup_insert_eq|done|by rewrite Hdg..]).
    split; [by eapply kept_inv, AddTxDag_kept|]. eapply told_trans; [exact T1|]. by eapply told_AddTxDag.
  - pose proof (told_alloc s n s1 l I Hiso Ha) as T1.
    apply alloc_spec in Ha as (I1 & Hnone & Hh & Hdg & _ & Hnin); [|done|done].
    rewrite <- Hdg in Hnin. assert (dheap s1 !! l = Some n) as Hl by (by rewrite Hh, lookup_insert_eq).
    split; [by eapply kept_inv, InsertTxDag_kept|]. eapply told_trans; [exact T1|]. by eapply told_InsertTxDag.
  - split; [by eapply kept_inv, genPinTx_kept|by eapply told_genPinTx].
Qed.

Lemma watched_run_told s s' : dag_inv s -> rtc watched_step s s' -> told s s'.
Proof using ReverseSlice_perm.
  intros I Hr. induction Hr as [s|s s1 s' Hs _ IH]; [by apply told_shape|].
  destruct (watched_step_told s s1 I Hs) as [I1 T1]. eapply told_trans; [exact T1|by apply IH].
Qed.

(** C9: the reverse graph mirrors the dag.  From a well-formed dag and a graph in
    step with it, whose edges lead to its own vertices and whose stacked pins are
    vertices, after any sequence of additions of new nodes under ids the dag
    does not have, insertions of records whose ids of approved transactions are
    proper uuids and not the id of the record itself, and pins, all of which
    returned, the watcher that reads the messages the dag sent meanwhile ends without a panic
    and its graph is in step with the dag again: it has the vertices of the dag,
    and the edges of a vertex lead to the nodes that approve it, in the order of
    their arrival. *)
Theorem graph_mirrors_dag s s' w sent :
  dag_inv s -> txCh (dg s) = Some sent ->
  closed (graph w) -> pins_known w -> mirrors (graph w) s ->
  rtc watched_step s s' ->
  exists new fuel0, txCh (dg s') = Some (sent ++ new)
  /\ forall fuel, (fuel0 <= fuel)%nat ->
     exists w', notify_all fuel w new = Some (Return w') /\ mirrors (graph w') s'.
Proof using ReverseSlice_perm.
  intros I Ht C P M (new & Hnew & Hg)%watched_run_told; [|done]. rewrite Ht in Hnew.
  destruct (notify_all_total new w C P) as [fuel0 Hf]. exists new, fuel0. split; [done|].
  intros fuel Hle. destruct (Hf fuel Hle) as (w' & E & Ew & _). exists w'. split; [done|].
  rewrite Ew. by apply Hg.
Qed.
End Watched.

(** ** syncUp *)

Section SyncUp.
Context `{Goterators} `{MapRange} `{!CollSet uuid} `{CollStack}.

(** The first match is no later than any other. *)
Lemma find_source_first h id l : forall j k n,
  l !! j = Some k -> h !! l_source k = Some n -> uid n = id ->
  find_source h id l = Panic \/ exists k' i, find_source h id l = Return (Some (k', i)) /\ (i <= j)%nat.
Proof.
  induction l as [|a l IH]; intros j k n; [done|]. cbn [find_source]. intros Hj Hk Hn.
  destruct (h !! l_source a) as [m|] eqn:Ea; [|by left]. case_bool_decide as Hm; [right; eexists _, _; split; [done|lia]|].
  destruct j as [|j]; [simpl in Hj; congruence|]. simpl in Hj.
  destruct (IH j k n Hj Hk Hn) as [->|(k' & i & -> & Hi)]; [by left|]. right. simpl.
  exists k', (S i). split; [done|lia].
Qed.

(** Once past the start and not past a match, the search stays there. *)
Lemma link_search_loops h edges id j k n fuel : forall i e r,
  edges !! j = Some k -> h !! l_source k = Some n -> uid n = id -> (1 <= i <= j)%nat ->
  link_search fuel h edges id i e <> Some (Return r).
Proof.
  induction fuel as [|fuel IH]; intros i e r Hj Hk Hn Hi; [done|]. cbn [link_search].
  apply lookup_lt_Some in Hj as Hlt.
  destruct (Nat.ltb_spec i (length edges)); [|lia].
  destruct (find_source_first h id (drop i edges) (j - i) k n) as [->|(k' & i' & -> & Hi')];
    [rewrite lookup_drop; by replace (i + (j - i))%nat with j by lia|done|done|done|].
  cbn [fuel_bind]. destruct (h !! l_target k'); [|done]. apply IH; [done..|lia].
Qed.

Lemma edges_from_loops h edges id p q k1 k2 n1 n2 fuel r :
  id <> uuid_Nil -> (p < q)%nat ->
  edges !! p = Some k1 -> h !! l_source k1 = Some n1 -> uid n1 = id ->
  edges !! q = Some k2 -> h !! l_source k2 = Some n2 -> uid n2 = id ->
  edges_from fuel h edges id <> Some (Return r).
Proof.
  intros Hid Hpq Hp Hk1 Hn1 Hq Hk2 Hn2. unfold edges_from. rewrite bool_decide_false by done.
  destruct fuel as [|fuel]; [done|]. cbn [link_search].
  apply lookup_lt_Some in Hq as Hlt. destruct (Nat.ltb_spec 0 (length edges)); [|lia].
  destruct (find_source_first h id (drop 0 edges) p k1 n1) as [->|(k' & i' & -> & Hi')]; [done..|].
  cbn [fuel_bind]. destruct (h !! l_target k'); [|done].
  apply (link_search_loops h edges id q k2 n2); [done..|lia].
Qed.

(** C29: a dag with a vertex of two links stops the watcher.  The search of
    [syncUp] for the links of a vertex restarts at a position that counts from
    where the last search began; when a vertex of the dag other than the genesis
    is the source of two links, [syncUp] returns for no amount of fuel. *)
Theorem syncUp_never_returns fuel s w w' l n p q k1 k2 n1 n2 :
  l ∈ d_dag (dg s) -> dheap s !! l = Some n -> uid n <> uuid_Nil -> (p < q)%nat ->
  d_links (dg s) !! p = Some k1 -> dheap s !! l_source k1 = Some n1 -> uid n1 = uid n ->
  d_links (dg s) !! q = Some k2 -> dheap s !! l_source k2 = Some n2 -> uid n2 = uid n ->
  syncUp fuel s w <> Some (Return w').
Proof.
  intros Hl Hn Hid Hpq Hp Hk1 Hn1 Hq Hk2 Hn2. unfold syncUp. revert w.
  induction (d_dag (dg s)) as [|a rest IH]; intros w; [by apply not_elem_of_nil in Hl|]. cbn [sync_vertices].
  apply elem_of_cons in Hl as [<-|Hl].
  - rewrite Hn. destruct (edges_from _ _ _ _) as [[es|]|] eqn:E; [|done|done].
    by apply (edges_from_loops (dheap s) (d_links (dg s)) (uid n) p q k1 k2 n1 n2) in E.
  - destruct (dheap s !! a) as [m|]; [|done]. destruct (edges_from _ _ _ _) as [[es|]|]; [|done|done].
    cbn [fuel_bind]. destruct (Notify _ _ _) as [[w1|]|]; [|done|done]. cbn [fuel_bind]. by apply IH.
Qed.

(** The empty graph of a peer that starts. *)
Definition new_watcher : Watcher := {| graph := ∅; pinStack := cst_New; files := [] |}.

(** The dag of a new leader has the genesis only: the watcher starts in step. *)
Lemma syncUp_genesis `{CryptoLib} `{ProtoLib} `{TimestampLib} `{EthLib} `{UuidLib} fuel s l n :
  d_dag (dg s) = [l] -> mapped_vertices (dg s) = {[uid n := l]} -> dheap s !! l = Some n ->
  uid n = uuid_Nil -> sources n = [] ->
  exists w, syncUp fuel s new_watcher = Some (Return w)
  /\ closed (graph w) /\ pins_known w /\ mirrors (graph w) s.
Proof.
  intros Hd Hm Hn Hid Hs. unfold syncUp. rewrite Hd. cbn [sync_vertices]. rewrite Hn.
  unfold edges_from. rewrite bool_decide_true by done. cbn [fuel_bind].
  set (x := {| txvl_vertex := n; txvl_edges := [] |}).
  destruct (notify_graph_closed ∅ x) as (C & Hx & _); [by intros ? ?|].
  assert (mirrors (notify_graph ∅ x) s) as M.
  { intros id. rewrite Hm. unfold notify_graph. rewrite gt_ForEach_spec. cbn [txvl_edges txvl_vertex x fold_left].
    destruct (decide (id = uid n)) as [->|Hne].
    - rewrite lookup_singleton_eq. exists n. split; [done|]. rewrite Hs. exists []. split; [done|].
      rewrite AddVertex_lookup. by rewrite bool_decide_true.
    - rewrite lookup_singleton_ne by done. rewrite AddVertex_lookup. by rewrite bool_decide_false by (by intros [-> _]). }
  assert (pins_known new_watcher) as P by (unfold pins_known; cbn [pinStack new_watcher]; by rewrite cst_New_spec).
  unfold Notify. cbn [graph new_watcher]. destruct (_ || _).
  - rewrite cst_Len_spec, cst_Push_spec. cbn [pinStack new_watcher]. rewrite cst_New_spec. cbn.
    eexists. split; [reflexivity|]. split; [done|]. split; [|done]. unfold pins_known. cbn [pinStack graph].
    rewrite cst_Push_spec, cst_New_spec. constructor; [by eexists|constructor].
  - eexists. split; [reflexivity|]. split; [done|]. split; [|done]. unfold pins_known. cbn [pinStack graph new_watcher].
    by rewrite cst_New_spec.
Qed.
End SyncUp.

(** ** Examples *)

(** The leader's dag with the channel of the watcher, and the payment on it. *)
Definition watched_dag : DagWorld := start_channel leader_dag.
Definition watched_paying : DagWorld := fst (alloc watched_dag sample_node).

Definition started : Watcher :=
  match syncUp 1 watched_dag new_watcher with Some (Return w) => w | _ => new_watcher end.

Lemma started_in_step :
  closed (graph started) /\ pins_known started /\ mirrors (graph started) watched_dag.
Proof.
  assert (exists n, dheap watched_dag !! 0%nat = Some n /\ uid n = uuid_Nil /\ sources n = []
    /\ mapped_vertices (dg watched_dag) = {[uid n := 0%nat]}) as (n & Hn & Hid & Hs & Hm).
  { assert ((fun n => (uid n, sources n)) <$> dheap watched_dag !! 0%nat = Some (uuid_Nil, [])) as E
      by (vm_compute; reflexivity).
    destruct (dheap watched_dag !! 0%nat) as [n|]; [|done]. injection E as Hid Hs.
    exists n. split; [done|]. split; [done|]. split; [done|]. rewrite Hid. vm_compute. reflexivity. }
  destruct (syncUp_genesis 1 watched_dag 0%nat n) as (w & E & C & P & M); [vm_compute; reflexivity|done..|].
  unfold started. rewrite E. done.
Qed.

Lemma watched_pays : exists s r,
  AddTxDag sample_config 0 first_draws 7 watched_paying 1%nat = Some (Return (s, r))
  /\ d_dag (dg s) = [0%nat; 1%nat].
Proof.
  assert (match AddTxDag sample_config 0 first_draws 7 watched_paying 1%nat with
          | Some (Return (s, _)) => d_dag (dg s) | _ => [] end = [0%nat; 1%nat]) as Hd
    by (vm_compute; reflexivity).
  destruct (AddTxDag sample_config 0 first_draws 7 watched_paying 1%nat) as [[[s r]|]|]; [|done|done].
  by exists s, r.
Qed.

Lemma watched_alloc : alloc watched_dag sample_node = (watched_paying, 1%nat).
Proof. vm_compute. reflexivity. Qed.

Lemma watched_new : mapped_vertices (dg watched_dag) !! uid sample_node = None.
Proof. vm_compute. reflexivity. Qed.

Lemma watched_dag_inv : dag_inv watched_dag.
Proof. destruct leader_dag_inv. by split. Qed.

#[local] Opaque leader_dag watched_dag watched_paying started.

Lemma graph_mirrors_dag_witness :
  exists s' new fuel w', d_dag (dg s') = [0%nat; 1%nat] /\ txCh (dg s') = Some new
  /\ notify_all fuel started new = Some (Return w') /\ mirrors (graph w') s'.
Proof.
  destruct watched_pays as (s' & r & E & Hd). destruct started_in_step as (C & P & M).
  destruct (graph_mirrors_dag sample_config (@rev nat) (fun l => Permutation_sym (Permutation_rev l))
    sample_vm sample_account leader_wallet (fun _ => 0) 10 watched_dag s' started [])
    as (new & fuel & Hs & Hw).
  - exact watched_dag_inv.
  - reflexivity.
  - exact C.
  - exact P.
  - exact M.
  - apply rtc_once. exact (watched_add _ _ _ _ _ _ _ watched_dag sample_node watched_paying 1%nat 0 first_draws 7 s' r
      (conj eq_refl eq_refl) watched_new watched_alloc first_draws_ok E).
  - destruct (Hw fuel (Nat.le_refl _)) as (w' & Ew & M'). exists s', new, fuel, w'.
    split; [exact Hd|]. split; [exact Hs|]. split; [exact Ew|exact M'].
Defined.

(** The genesis and two vertices that approve it. *)
Definition small_graph : DGraph :=
  list_to_map [(uuid_Nil, AddEdge (AddEdge (NewVertex uuid_Nil 0 0) (NewEdge uuid_Nil 1%N)) (NewEdge uuid_Nil 2%N));
               (1%N, NewVertex 1%N 1 0); (2%N, NewVertex 2%N 2 0)].

Lemma small_graph_closed : closed small_graph.
Proof.
  intros id v. unfold small_graph, list_to_map. cbn [foldr uncurry fst snd].
  destruct (decide (id = uuid_Nil)) as [->|H0]; [|rewrite lookup_insert_ne by done].
  { rewrite lookup_insert_eq. intros [= <-]. split; [done|]. constructor; [split; [done|by eexists]|]. constructor; [split; [done|by eexists]|constructor]. }
  destruct (decide (id = 1%N)) as [->|H1]; [|rewrite lookup_insert_ne by done].
  { rewrite lookup_insert_eq. intros [= <-]. by split. }
  destruct (decide (id = 2%N)) as [->|H2]; [|rewrite lookup_insert_ne by done].
  { rewrite lookup_insert_eq. intros [= <-]. by split. }
  by rewrite lookup_empty.
Qed.

Lemma GetTipVertices_tips_witness :
  exists tips, GetTipVertices small_graph 20 = Some (Return tips) /\ 1%N ∈ tips /\ uuid_Nil ∉ tips.
Proof.
  destruct (GetTipVertices_tips small_graph small_graph_closed 20
    (AddEdge (AddEdge (NewVertex uuid_Nil 0 0) (NewEdge uuid_Nil 1%N)) (NewEdge uuid_Nil 2%N)))
    as (tips & E & Ht).
  - reflexivity.
  - vm_compute. lia.
  - exists tips. split; [exact E|]. split.
    + apply Ht. split.
      * apply (leads_edge _ _ _ uuid_Nil); [apply leads_root; left|by eexists|by left|by eexists].
      * exists (NewVertex 1%N 1 0). split; [reflexivity|simpl; lia].
    + intros Hin%Ht. destruct Hin as [_ (v & Hv & Hlt)]. vm_compute in Hv. injection Hv as <-.
      vm_compute in Hlt. lia.
Defined.

(** The payment with two links to the genesis. *)
Definition two_links_dag : DagWorld :=
  with_dg paying_dag (set_links (set_dag (dg paying_dag) [0%nat; 1%nat])
    [{| l_source := 1%nat; l_target := 0%nat |}; {| l_source := 1%nat; l_target := 0%nat |}]).

Lemma syncUp_never_returns_witness :
  syncUp 50 two_links_dag new_watcher <> Some (Return started).
Proof.
  eapply (syncUp_never_returns 50 two_links_dag new_watcher started 1%nat sample_node 0 1).
  - right. left.
  - reflexivity.
  - discriminate.
  - lia.
  - reflexivity.
  - reflexivity.
  - reflexivity.
  - reflexivity.
  - reflexivity.
  - reflexivity.
Defined.

(** ** The slice after the last pin *)

(** Two vertices approve the pin and a third approves both. *)
Definition diamond_node (id : uuid) : Node :=
  set_nid sample_node {| n_id := id; n_address := ""; idMajor := 0; idMinor := 0 |}.
Definition diamond_heap : heap :=
  list_to_map (map (fun i => (i, diamond_node (N.of_nat i))) [0; 1; 2; 3]%nat).
Definition diamond_links : list Link :=
  map (fun '(a, b) => {| l_source := a; l_target := b |}) [(1, 0); (2, 0); (3, 1); (3, 2)]%nat.

(** The visited set compares pointers to vertices that are made anew for every
    link, so a vertex that approves two vertices of the slice is returned twice. *)
Example slice_repeats_vertex :
  match getFromLastPinTx diamond_heap diamond_links 40 [0%nat] with
  | Some (Return (vs, es)) => (map (fun v => v_Id (v_VertexId v)) vs, length es)
  | _ => ([], 0%nat)
  end = ([3; 2; 3; 1; 0]%N, 3%nat).
Proof. vm_compute. reflexivity. Qed.
