(* ===== verification/Shutdown.v ===== *)
(** Stopping a peer: [Dag.Terminate] of [dag/dag.go], [DagSyncMngr.Stop] of
    [dag/syncmngr.go], the loops of [dag_watcher] ([dag/sync.go]), [syncPin]
    and [syncSnapshot] ([dag/syncpin.go]) that they stop, and [syncPublish] with
    the goroutine that watches a publication.  The subscriber and the event
    handler of the manager return when they see that the context is cancelled.

    The goroutines take turns, one action at a time; [None] is an action that
    has to wait. *)
From S2P Require Import Prelude GoLib Dfs Bytes Tx TxRecords Storage Pool WalletCache Node Pin.
From S2P Require Import Confirmation Weights Dag Traverse Graph.

(** ** Channels with a buffer of one *)

Record channel (A : Type) := { ch_buf : list A; ch_closed : bool }.
Arguments ch_buf {A} _. Arguments ch_closed {A} _. Arguments Build_channel {A} _ _.

Definition ch_new {A} : channel A := {| ch_buf := []; ch_closed := false |}.

Definition ch_send {A} (c : channel A) (x : A) : option (outcome (channel A)) :=
  if ch_closed c then Some Panic
  else match ch_buf c with [] => Some (Return {| ch_buf := [x]; ch_closed := false |}) | _ => None end.

(** The zero value of a closed channel is [None]. *)
Definition ch_recv {A} (c : channel A) : option (option A * channel A) :=
  match ch_buf c with
  | x :: b => Some (Some x, {| ch_buf := b; ch_closed := ch_closed c |})
  | [] => if ch_closed c then Some (None, c) else None
  end.

Definition ch_close {A} (c : channel A) : outcome (channel A) :=
  if ch_closed c then Panic else Return {| ch_buf := ch_buf c; ch_closed := true |}.

(** ** Watching a publication *)

(** [syncPublish] publishes while a goroutine waits for the deadline or for
    word that the publication ended. *)
Inductive pub_state := STATE_NONE | STATE_DEADLINE | STATE_DONE.

(** The publisher: in [Publish], before it reads the flag, in the send on the
    unbuffered [chDonePub], in [wg.Wait], and past it with the flag it read. *)
Inductive publish_pc := UPublish | ULoad | USend | UWait (f : pub_state) | UEnd (f : pub_state).

(** The goroutine: in its select, after each case, and returned. *)
Inductive monitor_pc := MSelect | MDone | MDeadline | MEnd.

Record publication := { pub_flag : pub_state; pub_expired : bool; u_pc : publish_pc; m_pc : monitor_pc }.

Inductive pub_action := UGo | MGo | Expire.

(** [may_expire]: the deadline of the context may pass (or the context be cancelled). *)
Definition pub_act (may_expire : bool) (s : publication) (a : pub_action) : option publication :=
  let mk f e u m := Some {| pub_flag := f; pub_expired := e; u_pc := u; m_pc := m |} in
  match a with
  | Expire => if may_expire then mk (pub_flag s) true (u_pc s) (m_pc s) else None
  | UGo =>
      match u_pc s with
      | UPublish => mk (pub_flag s) (pub_expired s) ULoad (m_pc s)
      | ULoad =>
          mk (pub_flag s) (pub_expired s)
            (match pub_flag s with STATE_NONE => USend | f => UWait f end) (m_pc s)
      | USend =>
          match m_pc s with
          | MSelect => mk (pub_flag s) (pub_expired s) (UWait STATE_NONE) MDone
          | _ => None
          end
      | UWait f => match m_pc s with MEnd => mk (pub_flag s) (pub_expired s) (UEnd f) MEnd | _ => None end
      | UEnd _ => None
      end
  | MGo =>
      match m_pc s with
      | MSelect => if pub_expired s then mk (pub_flag s) true (u_pc s) MDeadline else None
      | MDone => mk STATE_DONE (pub_expired s) (u_pc s) MEnd
      | MDeadline => mk STATE_DEADLINE (pub_expired s) (u_pc s) MEnd
      | MEnd => None
      end
  end.

Definition pub_step (may_expire : bool) (s s' : publication) : Prop := exists a, pub_act may_expire s a = Some s'.

Definition publishing : publication :=
  {| pub_flag := STATE_NONE; pub_expired := false; u_pc := UPublish; m_pc := MSelect |}.

(** ** The goroutines *)

(** The routine that tells the handlers of transactions: at the head of its
    loop, in the receive, with what it received, and returned. *)
Inductive notify_pc := NHead | NRecv | NCall (x : option TxVL) | NEnd.

(** [dag_watcher] after its start: at the head of the loop, in the select, in
    [notifyWg.Wait], and returned. *)
Inductive watch_pc := WHead | WSelect | WWait | WEnd.

(** [syncPin] in its select or in [SyncPin]; [syncSnapshot], which does not
    look at the stop channel. *)
Inductive sync_pc := PSelect | PBusy | PEnd | QLoop | QEnd.

(** [stopApp]: the sends and closes of [Terminate], then [Stop]: the stop
    channel of the sync routine, the flag, the stop message with the context,
    [Wg.Wait]. *)
Inductive stop_pc :=
| TStop | TCloseTx | TCloseDepth | TClosePin | TCloseStop | TSendStops | TFlag | TCancel | TWait | TEnd.

(** [syncPublish]: at the head of its loop, before it takes a message from the
    queue, in a publication, and returned. *)
Inductive publisher_pc := GHead | GDequeue | GPublish (p : publication) | GEnd.

(** What the queue has for the publisher: nothing to publish, the stop message,
    or a message to publish. *)
Inductive queued_msg := QNone | QStop | QMessage.

(** What happens to the publisher: it goes on, with this message of the queue, or
    with this action in a publication. *)
Inductive publisher_action := GGo (m : queued_msg) | GPub (a : pub_action).

Inductive select_case := CStop | CDepth | CTick.

Inductive action :=
| ANotify                            (** the notifying routine goes on *)
| AWatch (c : select_case)           (** the watcher goes on, with this case of its select *)
| ASync (ready : bool)               (** the sync routine goes on; is the snapshot there? *)
| APublisher (a : publisher_action)  (** the publisher goes on *)
| AOthers                            (** the other routines see the cancelled context *)
| AStop                              (** the main goroutine goes on *)
| ATx (x : TxVL).                    (** the dag sends a transaction *)

Section Run.
Context `{Goterators} `{MapRange} `{!CollSet uuid} `{CollStack}.
Variable fuel : nat.

Record peer_run := {
  stopCh : channel bool; txCh : channel TxVL; depthCh : channel unit; pinCh : channel bool;
  stop_ : bool; StopFlag : bool; cancelled : bool;
  watched : Watcher;
  r_notify : notify_pc; r_watch : watch_pc; r_sync : sync_pc; r_stop : stop_pc;
  others_ended : bool;     (** the subscriber and the event handler *)
  r_pub : publisher_pc
}.

(** The zero value has a nil transaction: [Notify] panics when it asks for its type. *)
Definition notify_received (w : Watcher) (x : option TxVL) : option (outcome Watcher) :=
  match x with
  | None => Some Panic
  | Some x => Notify fuel w x
  end.

Definition with_notify (s : peer_run) (c : channel TxVL) (w : Watcher) (pc : notify_pc) : peer_run :=
  {| stopCh := stopCh s; txCh := c; depthCh := depthCh s; pinCh := pinCh s; stop_ := stop_ s;
     StopFlag := StopFlag s; cancelled := cancelled s; watched := w; r_notify := pc; r_watch := r_watch s;
     r_sync := r_sync s; r_stop := r_stop s; others_ended := others_ended s; r_pub := r_pub s |}.

Definition with_watch (s : peer_run) (c : channel bool) (b : bool) (pc : watch_pc) : peer_run :=
  {| stopCh := c; txCh := txCh s; depthCh := depthCh s; pinCh := pinCh s; stop_ := b;
     StopFlag := StopFlag s; cancelled := cancelled s; watched := watched s; r_notify := r_notify s; r_watch := pc;
     r_sync := r_sync s; r_stop := r_stop s; others_ended := others_ended s; r_pub := r_pub s |}.

Definition with_sync (s : peer_run) (pc : sync_pc) (stop : stop_pc) (others : bool) : peer_run :=
  {| stopCh := stopCh s; txCh := txCh s; depthCh := depthCh s; pinCh := pinCh s; stop_ := stop_ s;
     StopFlag := StopFlag s; cancelled := cancelled s; watched := watched s; r_notify := r_notify s;
     r_watch := r_watch s; r_sync := pc; r_stop := stop; others_ended := others; r_pub := r_pub s |}.

Definition with_publisher (s : peer_run) (pc : publisher_pc) : peer_run :=
  {| stopCh := stopCh s; txCh := txCh s; depthCh := depthCh s; pinCh := pinCh s; stop_ := stop_ s;
     StopFlag := StopFlag s; cancelled := cancelled s; watched := watched s; r_notify := r_notify s;
     r_watch := r_watch s; r_sync := r_sync s; r_stop := r_stop s; others_ended := others_ended s; r_pub := pc |}.

Definition with_channels (s : peer_run) (c : channel bool) (t : channel TxVL) (d : channel unit) (p : channel bool)
    (pc : stop_pc) : peer_run :=
  {| stopCh := c; txCh := t; depthCh := d; pinCh := p; stop_ := stop_ s;
     StopFlag := StopFlag s; cancelled := cancelled s; watched := watched s; r_notify := r_notify s;
     r_watch := r_watch s; r_sync := r_sync s; r_stop := pc; others_ended := others_ended s; r_pub := r_pub s |}.

Definition with_flags (s : peer_run) (flag cancel : bool) (pc : stop_pc) : peer_run :=
  {| stopCh := stopCh s; txCh := txCh s; depthCh := depthCh s; pinCh := pinCh s; stop_ := stop_ s;
     StopFlag := flag; cancelled := cancel; watched := watched s; r_notify := r_notify s;
     r_watch := r_watch s; r_sync := r_sync s; r_stop := pc; others_ended := others_ended s; r_pub := r_pub s |}.

(** The condition of both loops. *)
Definition keep_running (s : peer_run) : bool := negb (stop_ s) || negb (StopFlag s).

Definition notify_step (s : peer_run) : option (outcome peer_run) :=
  match r_notify s with
  | NHead => Some (Return (with_notify s (txCh s) (watched s) (if keep_running s then NRecv else NEnd)))
  | NRecv =>
      match ch_recv (txCh s) with
      | None => None
      | Some (x, c) => Some (Return (with_notify s c (watched s) (NCall x)))
      end
  | NCall x =>
      match notify_received (watched s) x with
      | None => None
      | Some Panic => Some Panic
      | Some (Return w) => Some (Return (with_notify s (txCh s) w NHead))
      end
  | NEnd => None
  end.

(** Nobody sends on [depthCh]; the ticker may let a leader form a pin, which
    leaves this state alone. *)
Definition watch_step (s : peer_run) (c : select_case) : option (outcome peer_run) :=
  match r_watch s with
  | WHead => Some (Return (with_watch s (stopCh s) (stop_ s) (if keep_running s then WSelect else WWait)))
  | WSelect =>
      match c with
      | CStop =>
          match ch_recv (stopCh s) with
          | None => None
          | Some (_, ch) => Some (Return (with_watch s ch true WWait))
          end
      | CDepth =>
          match ch_recv (depthCh s) with
          | None => None
          | Some _ => Some (Return (with_watch s (stopCh s) (stop_ s) WHead))
          end
      | CTick => Some (Return (with_watch s (stopCh s) (stop_ s) WHead))
      end
  | WWait => match r_notify s with NEnd => Some (Return (with_watch s (stopCh s) (stop_ s) WEnd)) | _ => None end
  | WEnd => None
  end.

Definition sync_step (s : peer_run) (ready : bool) : option (outcome peer_run) :=
  match r_sync s with
  | PSelect => Some (Return (with_sync s PBusy (r_stop s) (others_ended s)))
  | PBusy => Some (Return (with_sync s PSelect (r_stop s) (others_ended s)))
  | QLoop => Some (Return (with_sync s (if ready then QEnd else QLoop) (r_stop s) (others_ended s)))
  | PEnd | QEnd => None
  end.

(** The stop message is in the queue when the context is cancelled.  A deadline
    of 15 seconds may pass during a publication, and its context is cancelled
    with that of the manager. *)
Definition publisher_step (s : peer_run) (a : publisher_action) : option (outcome peer_run) :=
  let go pc := Some (Return (with_publisher s pc)) in
  match r_pub s, a with
  | GHead, GGo _ => go (if StopFlag s then GEnd else GDequeue)
  | GDequeue, GGo QNone => go GHead
  | GDequeue, GGo QStop => if cancelled s then go GEnd else None
  | GDequeue, GGo QMessage => go (GPublish publishing)
  | GPublish p, GGo _ =>
      match u_pc p with UEnd _ => go (if StopFlag s then GEnd else GHead) | _ => None end
  | GPublish p, GPub b => match pub_act true p b with Some p' => go (GPublish p') | None => None end
  | _, _ => None
  end.

Definition stop_step (s : peer_run) : option (outcome peer_run) :=
  let closing {A} (c : channel A) (k : channel A -> peer_run) : option (outcome peer_run) :=
    match ch_close c with Panic => Some Panic | Return c' => Some (Return (k c')) end in
  match r_stop s with
  | TStop =>
      match ch_send (stopCh s) true with
      | None => None
      | Some Panic => Some Panic
      | Some (Return c) => Some (Return (with_channels s c (txCh s) (depthCh s) (pinCh s) TCloseTx))
      end
  | TCloseTx => closing (txCh s) (fun c => with_channels s (stopCh s) c (depthCh s) (pinCh s) TCloseDepth)
  | TCloseDepth => closing (depthCh s) (fun c => with_channels s (stopCh s) (txCh s) c (pinCh s) TClosePin)
  | TClosePin => closing (pinCh s) (fun c => with_channels s (stopCh s) (txCh s) (depthCh s) c TCloseStop)
  | TCloseStop => closing (stopCh s) (fun c => with_channels s c (txCh s) (depthCh s) (pinCh s) TSendStops)
  | TSendStops =>
      match r_sync s with
      | PSelect => Some (Return (with_sync s PEnd TFlag (others_ended s)))
      | _ => None
      end
  | TFlag => Some (Return (with_flags s true (cancelled s) TCancel))
  | TCancel => Some (Return (with_flags s (StopFlag s) true TWait))
  | TWait =>
      match r_sync s, r_pub s with
      | (PEnd | QEnd), GEnd =>
          if others_ended s then Some (Return (with_flags s (StopFlag s) (cancelled s) TEnd)) else None
      | _, _ => None
      end
  | TEnd => None
  end.

Definition act (s : peer_run) (a : action) : option (outcome peer_run) :=
  match a with
  | ANotify => notify_step s
  | AWatch c => watch_step s c
  | ASync ready => sync_step s ready
  | APublisher a => publisher_step s a
  | AOthers => if cancelled s then Some (Return (with_sync s (r_sync s) (r_stop s) true)) else None
  | AStop => stop_step s
  | ATx x =>
      match ch_send (txCh s) x with
      | None => None
      | Some Panic => Some Panic
      | Some (Return c) => Some (Return (with_notify s c (watched s) (r_notify s)))
      end
  end.

Definition run_step (s s' : peer_run) : Prop := exists a, act s a = Some (Return s').

(** A peer that runs, with its sync routine. *)
Definition running (w : Watcher) (n : notify_pc) (p : sync_pc) : peer_run :=
  {| stopCh := ch_new; txCh := ch_new; depthCh := ch_new; pinCh := ch_new; stop_ := false; StopFlag := false;
     cancelled := false; watched := w; r_notify := n; r_watch := WSelect; r_sync := p; r_stop := TStop;
     others_ended := false; r_pub := GHead |}.
End Run.
