(* ===== verification/ShutdownProps.v ===== *)
(** Properties of the shutdown: which peers can stop, what closing the channel
    of transactions does, and when watching a publication deadlocks. *)
From S2P Require Import Prelude GoLib Dfs Bytes Tx TxRecords Storage Pool WalletCache Node Pin.
From S2P Require Import Confirmation Weights Dag Traverse Graph Shutdown.

(** ** Watching a publication *)

(** While the deadline has not passed the two goroutines agree on who has to move. *)
Definition pub_inv (may_expire : bool) (s : publication) : Prop :=
  (may_expire = false -> pub_expired s = false) /\
  match m_pc s with
  | MSelect => pub_flag s = STATE_NONE /\ (u_pc s = UPublish \/ u_pc s = ULoad \/ u_pc s = USend)
  | MDone => pub_flag s = STATE_NONE /\ u_pc s = UWait STATE_NONE
  | MDeadline => pub_flag s = STATE_NONE /\ may_expire = true /\ (u_pc s = UPublish \/ u_pc s = ULoad \/ u_pc s = USend)
  | MEnd => pub_flag s <> STATE_NONE /\ (may_expire = true \/ exists f, u_pc s = UWait f \/ u_pc s = UEnd f)
  end.

Lemma pub_inv_step may_expire s s' : pub_inv may_expire s -> pub_step may_expire s s' -> pub_inv may_expire s'.
Proof.
  destruct s as [fl ex u m]. intros [He Hm] [a Ha]. simpl in *.
  destruct may_expire; destruct a; simpl in Ha; repeat (case_match; simplify_eq; simpl in *);
    unfold pub_inv; simpl; naive_solver.
Qed.

Lemma pub_inv_run may_expire s : rtc (pub_step may_expire) publishing s -> pub_inv may_expire s.
Proof.
  intros Hr. assert (pub_inv may_expire publishing) as Hi by (split; simpl; auto).
  revert Hi. induction Hr; eauto using pub_inv_step.
Qed.

(** The end of a publication. If the deadline cannot pass, the publisher gets
    past the wait in every run. If it can, a run deadlocks: the publisher reads
    the flag, the deadline passes, the goroutine returns, and the publisher
    sends to nobody. So a state where neither goroutine can go on before the
    publisher is done is reachable exactly when the deadline may pass. *)
Theorem publication_deadlocks may_expire :
  (exists s, rtc (pub_step may_expire) publishing s /\ (forall a, a <> Expire -> pub_act may_expire s a = None) /\
     forall f, u_pc s <> UEnd f) <-> may_expire = true.
Proof.
  split.
  - intros (s & Hr & Hst & Hne). destruct may_expire; [done|].
    destruct (pub_inv_run _ _ Hr) as [He Hm]. pose proof (Hst UGo ltac:(done)) as HU. pose proof (Hst MGo ltac:(done)) as HM.
    destruct s as [fl ex u m]. simpl in *. destruct m; simpl in *; try done.
    + destruct Hm as (_ & [-> |[-> | ->]]); done.
    + destruct Hm as [_ [|(f & [-> | ->])]]; try done. by destruct (Hne f).
  - intros ->. exists {| pub_flag := STATE_DEADLINE; pub_expired := true; u_pc := USend; m_pc := MEnd |}.
    split_and!; [|by intros [| |] ?|done].
    eapply rtc_l; [by exists UGo|]. eapply rtc_l; [by exists UGo|]. eapply rtc_l; [by exists Expire|].
    eapply rtc_l; [by exists MGo|]. eapply rtc_l; [by exists MGo|]. apply rtc_refl.
Qed.

Section Props.
Context `{Goterators} `{MapRange} `{!CollSet uuid} `{CollStack}.
Variable fuel : nat.
Implicit Types s : peer_run.

(** Case analysis of one action. *)
Ltac acting Hact :=
  match type of Hact with act _ _ ?a = _ => destruct a end; simpl in Hact;
  unfold notify_step, watch_step, sync_step, publisher_step, stop_step, ch_close, ch_send in Hact;
  repeat (case_match; simplify_eq; simpl in *); simplify_eq; simpl in *.

(** ** A peer that synchronises from snapshots *)

Definition snapshot_inv (s : peer_run) : Prop :=
  (r_sync s = QLoop \/ r_sync s = QEnd) /\ StopFlag s = false /\
  (r_stop s = TStop \/ r_stop s = TCloseTx \/ r_stop s = TCloseDepth \/ r_stop s = TClosePin \/
   r_stop s = TCloseStop \/ r_stop s = TSendStops) /\
  r_notify s <> NEnd /\ r_watch s <> WEnd.

Lemma keep_running_flag s : StopFlag s = false -> keep_running s = true.
Proof using Type. intros E. unfold keep_running. rewrite E. apply orb_true_r. Qed.

Lemma snapshot_step s s' : snapshot_inv s -> run_step fuel s s' -> snapshot_inv s'.
Proof using Type.
  intros (Hp & Hf & Hs & Hn & Hw) [a Hact]. pose proof (keep_running_flag _ Hf) as Hk.
  unfold snapshot_inv. acting Hact; try (destruct_or!; congruence); split_and!; try done; try (by auto 10); congruence.
Qed.

Lemma snapshot_run s s' : snapshot_inv s -> rtc (run_step fuel) s s' -> snapshot_inv s'.
Proof using Type. intros Hi Hr. revert Hi. induction Hr; eauto using snapshot_step. Qed.

(** ** A peer that synchronises from pins *)

(** How far [stopApp] has come. *)
Definition stage (pc : stop_pc) : nat :=
  match pc with
  | TStop => 0 | TCloseTx => 1 | TCloseDepth => 2 | TClosePin => 3 | TCloseStop => 4
  | TSendStops => 5 | TFlag => 6 | TCancel => 7 | TWait => 8 | TEnd => 9
  end%nat.

Record pin_inv (s : peer_run) : Prop := {
  stop_empty : (stage (r_stop s) <= 0)%nat -> ch_buf (stopCh s) = [];
  stop_open : (stage (r_stop s) <= 4)%nat -> ch_closed (stopCh s) = false;
  tx_open : (stage (r_stop s) <= 1)%nat -> ch_closed (txCh s) = false;
  depth_open : (stage (r_stop s) <= 2)%nat -> ch_closed (depthCh s) = false;
  pin_open : (stage (r_stop s) <= 3)%nat -> ch_closed (pinCh s) = false;
  sync_runs : (stage (r_stop s) <= 5)%nat -> r_sync s = PSelect \/ r_sync s = PBusy;
  sync_ended : (6 <= stage (r_stop s))%nat -> r_sync s = PEnd;
  is_flagged : (7 <= stage (r_stop s))%nat -> StopFlag s = true;
  is_cancelled : (8 <= stage (r_stop s))%nat -> cancelled s = true;
  pub_ended : (9 <= stage (r_stop s))%nat -> r_pub s = GEnd
}.

Lemma ch_recv_closed {A} (c c' : channel A) x : ch_recv c = Some (x, c') -> ch_closed c' = ch_closed c.
Proof using Type. unfold ch_recv. intros E. repeat case_match; by simplify_eq. Qed.

Lemma ch_recv_empty {A} (c c' : channel A) x : ch_recv c = Some (x, c') -> ch_buf c = [] -> ch_buf c' = [].
Proof using Type. unfold ch_recv. intros E ?. repeat case_match; by simplify_eq. Qed.

Lemma pin_step s s' : pin_inv s -> run_step fuel s s' -> pin_inv s'.
Proof using Type.
  intros [H1' H2' H3' H4' H5' H6' H7' H8' H9' H10'] [a Hact].
  acting Hact; constructor; simpl in *; intros;
    repeat match goal with
    | E : ch_recv _ = Some (_, _) |- _ =>
        pose proof (ch_recv_closed _ _ _ E); pose proof (ch_recv_empty _ _ _ E); clear E
    | E : r_stop _ = _ |- _ => rewrite E in *; simpl in *; clear E
    | I : (_ <= _)%nat -> _ |- _ => specialize (I ltac:(lia))
    end; simpl in *; destruct_or?; try lia; auto; congruence.
Qed.

Lemma pin_run s s' : pin_inv s -> rtc (run_step fuel) s s' -> pin_inv s'.
Proof using Type. intros Hi Hr. revert Hi. induction Hr; eauto using pin_step. Qed.

(** *** The publisher *)

Definition pub_ok (s : peer_run) : Prop := match r_pub s with GPublish p => pub_inv true p | _ => True end.

Lemma publishing_inv : pub_inv true publishing.
Proof using Type. split; simpl; auto. Qed.

(** Only the publisher moves the publisher. *)
Lemma act_pub s a s' :
  act fuel s a = Some (Return s') ->
  match a with APublisher b => publisher_step s b = Some (Return s') | _ => r_pub s' = r_pub s end.
Proof using Type.
  destruct a; simpl; try done; intros Hact;
    unfold notify_step, watch_step, sync_step, stop_step, ch_close, ch_send in Hact;
    repeat (case_match; simplify_eq; simpl in * ); by simplify_eq.
Qed.

Lemma pub_ok_step s s' : pub_ok s -> run_step fuel s s' -> pub_ok s'.
Proof using Type.
  unfold pub_ok. intros Hp [a Hact%act_pub]. destruct a as [| | |[m|b]| | |]; try (by rewrite Hact);
    unfold publisher_step in Hact; destruct (r_pub s) as [| |p|]; simplify_eq.
  - simplify_eq/=. by destruct (StopFlag s).
  - destruct m; simplify_eq/=; [done| |exact publishing_inv]. by destruct (cancelled s); simplify_eq/=.
  - destruct (u_pc p); simplify_eq/=. by destruct (StopFlag s).
  - destruct (pub_act true p b) as [p'|] eqn:E; simplify_eq/=. eapply pub_inv_step; [exact Hp|by exists b].
Qed.

Lemma pub_ok_run s s' : pub_ok s -> rtc (run_step fuel) s s' -> pub_ok s'.
Proof using Type. intros Hi Hr. revert Hi. induction Hr; eauto using pub_ok_step. Qed.

(** The publisher is about to tell the goroutine that watches it, which has
    taken the deadline instead. *)
Definition stuck (p : publication) : Prop := u_pc p = USend /\ (m_pc p = MDeadline \/ m_pc p = MEnd).
Definition blocked (s : peer_run) : Prop := exists p, r_pub s = GPublish p /\ stuck p.

Lemma blocked_step s s' : blocked s -> run_step fuel s s' -> blocked s'.
Proof using Type.
  intros (p & Hp & Hu & Hm) [a Hact%act_pub]. unfold blocked.
  destruct a as [| | |[m|b]| | |]; try (by rewrite Hact; exists p); unfold publisher_step in Hact; rewrite Hp in Hact.
  - by rewrite Hu in Hact.
  - destruct p as [fl ex u mo]. simpl in *. subst u. destruct b; simpl in Hact.
    + destruct Hm as [-> | ->]; done.
    + destruct Hm as [-> | ->]; simplify_eq/=. eexists. split; [done|]. split; [done|by right].
    + simplify_eq/=. eexists. split; [done|]. by split.
Qed.

Lemma blocked_run s s' : blocked s -> rtc (run_step fuel) s s' -> blocked s'.
Proof using Type. intros Hi Hr. revert Hi. induction Hr; eauto using blocked_step. Qed.

(** A publication that is not stuck can come to its end. *)
Lemma publication_ends p : pub_inv true p -> ~ stuck p ->
  exists p' f, rtc (pub_step true) p p' /\ u_pc p' = UEnd f.
Proof using Type.
  destruct p as [fl ex u m]. intros [_ Hm] Hs. simpl in Hm. unfold stuck in Hs. simpl in Hs.
  assert (forall q a q', pub_act true q a = Some q' -> (exists p' f, rtc (pub_step true) q' p' /\ u_pc p' = UEnd f) ->
            exists p' f, rtc (pub_step true) q p' /\ u_pc p' = UEnd f) as Hgo.
  { intros q a q' E (p' & f & Hr & Hu). exists p', f. split; [|done]. eapply rtc_l; [by exists a|done]. }
  assert (forall fl ex f, exists p' f', rtc (pub_step true)
            {| pub_flag := fl; pub_expired := ex; u_pc := UWait f; m_pc := MEnd |} p' /\ u_pc p' = UEnd f') as Hw.
  { intros fl' ex' f. eapply (Hgo _ UGo); [reflexivity|]. by eexists _, f. }
  assert (forall ex, exists p' f', rtc (pub_step true)
            {| pub_flag := STATE_NONE; pub_expired := ex; u_pc := USend; m_pc := MSelect |} p' /\ u_pc p' = UEnd f') as Hsend.
  { intros ex'. eapply (Hgo _ UGo); [reflexivity|]. eapply (Hgo _ MGo); [reflexivity|]. apply Hw. }
  assert (forall fl ex u, fl <> STATE_NONE -> (u = UPublish \/ u = ULoad \/ (exists f, u = UWait f \/ u = UEnd f)) ->
            exists p' f', rtc (pub_step true)
            {| pub_flag := fl; pub_expired := ex; u_pc := u; m_pc := MEnd |} p' /\ u_pc p' = UEnd f') as Hend.
  { intros fl' ex' u' Hfl [->|[->|(f & [->| ->])]].
    - eapply (Hgo _ UGo); [reflexivity|]. eapply (Hgo _ UGo); [destruct fl'; [done|reflexivity..]|]. by destruct fl'; simpl.
    - eapply (Hgo _ UGo); [destruct fl'; [done|reflexivity..]|]. by destruct fl'; simpl.
    - apply Hw.
    - by eexists _, f. }
  destruct m.
  - destruct Hm as (-> & [->|[->| ->]]).
    + eapply (Hgo _ UGo); [reflexivity|]. eapply (Hgo _ UGo); [reflexivity|]. apply Hsend.
    + eapply (Hgo _ UGo); [reflexivity|]. apply Hsend.
    + apply Hsend.
  - destruct Hm as (-> & ->). eapply (Hgo _ MGo); [reflexivity|]. apply Hw.
  - destruct Hm as (-> & _ & Hu). eapply (Hgo _ MGo); [reflexivity|]. apply Hend; [done|].
    destruct Hu as [->|[->| ->]]; [by left|by right; left|]. destruct Hs. split; [done|by left].
  - apply Hend; [apply Hm|]. destruct u; [by left|by right; left| |right; right..]; [|by eexists; left|by eexists; right].
    destruct Hs. split; [done|by right].
Qed.

Lemma with_publisher_id s : with_publisher s (r_pub s) = s.
Proof using Type. by destruct s. Qed.

Lemma publication_run s p p' : r_pub s = GPublish p -> rtc (pub_step true) p p' ->
  rtc (run_step fuel) s (with_publisher s (GPublish p')).
Proof using Type.
  intros Hp Hr. revert s Hp. induction Hr as [p|p q p' [b Hb] _ IH]; intros s Hp.
  - rewrite <- Hp, with_publisher_id. apply rtc_refl.
  - eapply rtc_l; [exists (APublisher (GPub b)); simpl; unfold publisher_step; rewrite Hp, Hb; reflexivity|].
    apply (IH (with_publisher s (GPublish q)) eq_refl).
Qed.

(** Once the flag is set and the stop message sent, a publisher that is not
    blocked can return. *)
Lemma publisher_ends s : pub_ok s -> ~ blocked s -> StopFlag s = true ->
  rtc (run_step fuel) s (with_publisher s GEnd).
Proof using Type.
  intros Hok Hb Hf. destruct (r_pub s) as [| |p|] eqn:Ep.
  - apply rtc_once. exists (APublisher (GGo QNone)). simpl. unfold publisher_step. by rewrite Ep, Hf.
  - eapply rtc_l; [exists (APublisher (GGo QNone)); simpl; unfold publisher_step; rewrite Ep; reflexivity|].
    apply rtc_once. exists (APublisher (GGo QNone)). simpl. unfold publisher_step. simpl. by rewrite Hf.
  - unfold pub_ok in Hok. rewrite Ep in Hok. destruct (publication_ends p Hok) as (p' & f & Hr & Hu).
    { intros Hs. apply Hb. by exists p. }
    transitivity (with_publisher s (GPublish p')); [by apply (publication_run s p)|].
    apply rtc_once. exists (APublisher (GGo QNone)). simpl. unfold publisher_step. simpl. by rewrite Hu, Hf.
  - rewrite <- Ep, with_publisher_id. apply rtc_refl.
Qed.

(** *** The main goroutine *)

(** It can get one stage further, after at most one action of another routine
    and, at the end, those of the publisher. *)
Lemma stop_advances s :
  pin_inv s -> pub_ok s -> ~ blocked s -> (stage (r_stop s) < 9)%nat ->
  exists s', rtc (run_step fuel) s s' /\ stage (r_stop s') = S (stage (r_stop s)) /\ ~ blocked s'.
Proof using Type.
  intros [H1' H2' H3' H4' H5' H6' H7' H8' H9' H10'] Hok Hb Hlt.
  assert (forall s1, stop_step s = Some (Return s1) -> rtc (run_step fuel) s s1) as Hone
    by (intros s1 E; apply rtc_once; by exists AStop).
  destruct (r_stop s) eqn:Es; simpl in *;
    repeat match goal with I : (_ <= _)%nat -> _ |- _ => specialize (I ltac:(lia)) end; try lia;
    try (eexists; split; [apply Hone; unfold stop_step, ch_close, ch_send; rewrite Es;
      repeat match goal with E : _ = _ |- _ => rewrite E end; reflexivity|done]; fail).
  - destruct H6' as [E|E].
    + eexists. split; [apply Hone; unfold stop_step; rewrite Es, E; reflexivity|done].
    + eexists. split; [|shelve].
      eapply rtc_l; [exists (ASync false); simpl; unfold sync_step; rewrite E; reflexivity|].
      apply rtc_once. exists AStop. simpl. unfold stop_step. simpl. rewrite Es. reflexivity.
      Unshelve. done.
  - eexists. split; [|split].
    + eapply rtc_l; [exists AOthers; simpl; rewrite H9'; reflexivity|].
      etransitivity; [apply publisher_ends; [exact Hok|exact Hb|exact H8']|].
      apply rtc_once. exists AStop. simpl. unfold stop_step. simpl. rewrite Es, H7'. reflexivity.
    + done.
    + intros (p & Hp & _). discriminate Hp.
Qed.

Lemma stop_completes n s :
  pin_inv s -> pub_ok s -> ~ blocked s -> (n + stage (r_stop s) = 9)%nat ->
  exists s', rtc (run_step fuel) s s' /\ r_stop s' = TEnd.
Proof using Type.
  revert s. induction n as [|n IH]; intros s Hi Hok Hb Hn.
  - exists s. split; [apply rtc_refl|]. by destruct (r_stop s).
  - destruct (stop_advances s Hi Hok Hb ltac:(lia)) as (s1 & Hr & Hs & Hb1).
    destruct (IH s1 (pin_run _ _ Hi Hr) (pub_ok_run _ _ Hok Hr) Hb1 ltac:(lia)) as (s2 & Hr2 & He).
    exists s2. split; [by transitivity s1|done].
Qed.


(** ** Closing the channel of transactions *)

Definition doomed (s : peer_run) : Prop :=
  txCh s = {| ch_buf := []; ch_closed := true |} /\ (r_notify s = NRecv \/ r_notify s = NCall None) /\ r_watch s <> WEnd.

Lemma doomed_step s s' : doomed s -> run_step fuel s s' -> doomed s'.
Proof using Type.
  destruct s. intros (Ht & Hn & Hw) [a Hact]. simpl in *. subst. unfold doomed.
  acting Hact; destruct_or?; simplify_eq; split_and!; try done; auto.
Qed.

(** Closing the channel of transactions kills the peer. When Terminate closes
    the channel while the notifying routine waits for the next transaction,
    that routine never returns and dag_watcher does not return either: in
    every later state the routine has still to take the zero value from the
    closed channel, and handling it panics. A transaction that the dag sends
    after the close panics as well. *)
Theorem closing_transactions_panics s s1 s' :
  r_stop s = TCloseTx -> r_notify s = NRecv -> txCh s = ch_new -> r_watch s <> WEnd ->
  act fuel s AStop = Some (Return s1) -> rtc (run_step fuel) s1 s' ->
  r_notify s' <> NEnd /\ r_watch s' <> WEnd /\
  (act fuel s' ANotify = Some Panic \/
   exists s2, act fuel s' ANotify = Some (Return s2) /\ act fuel s2 ANotify = Some Panic) /\
  forall x, act fuel s' (ATx x) = Some Panic.
Proof using Type.
  intros Hst Hn Ht Hw Ha Hr.
  assert (doomed s1) as Hd.
  { simpl in Ha. unfold stop_step in Ha. rewrite Hst, Ht in Ha. simpl in Ha. simplify_eq. unfold doomed. simpl. auto. }
  assert (doomed s') as (Ht' & Hn' & Hw') by (revert Hd; clear Ha; induction Hr; eauto using doomed_step).
  split_and!; [by destruct Hn' as [-> | ->]|done| |intros x; simpl; by rewrite Ht'].
  destruct Hn' as [E|E]; [right|left]; simpl; unfold notify_step; rewrite E; [|done].
  rewrite Ht'. simpl. eexists. split; [reflexivity|]. reflexivity.
Qed.
End Props.

(** ** A peer with an empty graph *)

Definition idle_watcher : Watcher := {| graph := ∅; pinStack := cst_New; files := [] |}.

(** Its main goroutine has sent the stop request. *)
Definition stopping : peer_run :=
  with_channels (running idle_watcher NRecv PSelect) {| ch_buf := [true]; ch_closed := false |}
    ch_new ch_new ch_new TCloseTx.

(** Its publisher is blocked. *)
Definition blocked_peer : peer_run :=
  with_publisher (running idle_watcher NRecv PSelect)
    (GPublish {| pub_flag := STATE_DEADLINE; pub_expired := true; u_pc := USend; m_pc := MEnd |}).

Lemma blocked_peer_reached : rtc (run_step 1) (running idle_watcher NRecv PSelect) blocked_peer.
Proof.
  eapply rtc_l; [by exists (APublisher (GGo QNone))|]. eapply rtc_l; [by exists (APublisher (GGo QMessage))|].
  eapply rtc_l; [by exists (APublisher (GPub UGo))|]. eapply rtc_l; [by exists (APublisher (GPub UGo))|].
  eapply rtc_l; [by exists (APublisher (GPub Expire))|]. eapply rtc_l; [by exists (APublisher (GPub MGo))|].
  eapply rtc_l; [by exists (APublisher (GPub MGo))|]. apply rtc_refl.
Qed.


Lemma closing_transactions_panics_witness :
  exists s1, act 1 stopping AStop = Some (Return s1) /\ r_notify s1 <> NEnd.
Proof.
  eexists. split; [reflexivity|].
  apply (closing_transactions_panics 1 stopping _ _ eq_refl eq_refl eq_refl ltac:(done) eq_refl (rtc_refl _ _)).
Defined.
