(* ===== verification/Sync.v ===== *)
(** Synchronisation of peers: [dag/sync.go], [dag/synchandle.go],
    [dag/syncpin.go], [dag/syncsite.go] and [dag/syncmngr.go].

    A node builds a message, registers a state machine under its tracking id,
    puts the message into the sync queue and waits; the publisher takes messages
    from the queue and publishes them; the subscriber dispatches what it
    receives to a handler.  Requests, publisher and subscriber are goroutines.
    A wait holds the registry's lock and its result is only logged, so what
    matters is what the others do between putting the message into the queue
    and the deferred deletion of the machine: every operation that waits takes
    it as the argument [during].  An operation that puts its message into the
    queue again until it is published takes one such argument per attempt.

    Sending to a full queue is left out (see [Queues]); so are the goroutines'
    loops around the operations, which only add timers. *)
From S2P Require Import Prelude GoLib Bytes StateMachine Tx TxRecords Storage Pool WalletCache Node Pin.
From S2P Require Import Confirmation Weights Dag.

(** ** Libraries *)

(** The messages the code wraps with [anypb]. *)
Inductive any_msg :=
| AInt64 (z : Z) | AInt32 (z : Z) | AString (s : string) | ABytes (b : bytes) | ANode (n : pb_Node).

(** A string field of a protobuf message is UTF-8; the code's are ASCII. *)
Definition ascii_string (s : string) : bool :=
  forallb (fun c => (Ascii.N_of_ascii c <? 128)%N) (String.list_ascii_of_string s).

Definition scalar_ok (m : any_msg) : Prop :=
  match m with
  | AInt64 z => - 2 ^ 63 <= z < 2 ^ 63
  | AInt32 z => - 2 ^ 31 <= z < 2 ^ 31
  | AString s => ascii_string s = true
  | ABytes _ => True
  | ANode _ => False
  end.

(** [UnmarshalNew] gives [None] for an error or for a message of another type.
    Wrapped scalars come back; whether a node does is a hypothesis of the
    theorems that need it. *)
Class AnyLib := {
  any_New : any_msg -> Any;
  UnmarshalNew : Any -> option any_msg;
  UnmarshalNew_New : forall m, scalar_ok m -> UnmarshalNew (any_New m) = Some m
}.

(** The wire format of pins and sync messages. *)
Class ProtoSyncLib := {
  proto_Unmarshal_TxPin : bytes -> option TxPin;
  proto_Marshal_Syncv1 : pb_Syncv1 -> option bytes
}.

Class PeerKeyLib := { UnmarshalPublicKey : bytes -> option bytes }.

Class Md5Lib := { md5 : bytes -> bytes }.

(** ** State and configuration *)

(** [host_pk] and [host_pubk] are the host's private key and its marshalled
    public key; [None] is an error of the key library. *)
Record SyncConfig := {
  SnapshotSync : bool; NodeType : Z; Leader : bool;
  host_pk : option bytes; host_pubk : option bytes
}.

Section State.
Context `{!CollSet uuid}.

(** The state of a peer: its dag, pins and caches, the registry of state
    machines, the sync queue and the flags of the manager. *)
Record SyncNode := {
  sn_dag : DagWorld; sn_sm : machines; sn_queue : list Syncv1;
  HaveJoined : bool; SitesProcessed : bool
}.

Definition with_sn_dag (s : SyncNode) (x : DagWorld) : SyncNode :=
  {| sn_dag := x; sn_sm := sn_sm s; sn_queue := sn_queue s; HaveJoined := HaveJoined s;
     SitesProcessed := SitesProcessed s |}.
Definition with_sm (s : SyncNode) (x : machines) : SyncNode :=
  {| sn_dag := sn_dag s; sn_sm := x; sn_queue := sn_queue s; HaveJoined := HaveJoined s;
     SitesProcessed := SitesProcessed s |}.
Definition with_queue (s : SyncNode) (x : list Syncv1) : SyncNode :=
  {| sn_dag := sn_dag s; sn_sm := sn_sm s; sn_queue := x; HaveJoined := HaveJoined s;
     SitesProcessed := SitesProcessed s |}.
Definition set_joined (s : SyncNode) : SyncNode :=
  {| sn_dag := sn_dag s; sn_sm := sn_sm s; sn_queue := sn_queue s; HaveJoined := true;
     SitesProcessed := SitesProcessed s |}.
Definition set_processed (s : SyncNode) : SyncNode :=
  {| sn_dag := sn_dag s; sn_sm := sn_sm s; sn_queue := sn_queue s; HaveJoined := HaveJoined s;
     SitesProcessed := true |}.

Definition sn_pins (s : SyncNode) : NodeTxPin := w_pins (world (sn_dag s)).
Definition with_sn_world (s : SyncNode) (w : World) : SyncNode :=
  with_sn_dag s (with_world (sn_dag s) w).
Definition with_sn_pins (s : SyncNode) (p : NodeTxPin) : SyncNode :=
  with_sn_world s (with_w_pins (world (sn_dag s)) p).

(** [syncsm.resetSM], [deleteSM] and [changeToSM]. *)
Definition reset (s : SyncNode) (id : uuid) : SyncNode := with_sm s (resetSM (sn_sm s) id).
Definition remove (s : SyncNode) (id : uuid) : SyncNode := with_sm s (deleteSM (sn_sm s) id).
Definition change (s : SyncNode) (id : uuid) (st : State) : SyncNode :=
  with_sm s (changeToSM (sn_sm s) id st).

Definition Enqueue (s : SyncNode) (m : Syncv1) : SyncNode := with_queue s (sn_queue s ++ [m]).

End State.

(** What the clock and [uuid.New] return during a call. *)
Record env := { e_now : Z; e_id : uuid; e_id2 : uuid }.

(** ** Messages *)

Definition STVX1 : Z := 1.

Section Messages.
Context `{CryptoLib} `{TimestampLib} `{PeerKeys} `{ProtoSyncLib}.

(** A message of version 1 before it is signed. *)
Definition new_message (e : env) (syncType msgType : Z) (id : uuid) (pubk : bytes)
    (data : option bytes) (details : list Any) (hash : bytes) : Syncv1 :=
  {| Ver_type := STVX1; Sync_Type := syncType; Msg_Type := msgType; Tracking_Id := id;
     s_Sender_Pubk := pubk; s_Timestamp := e_now e; s_Data := data; Details := details;
     SyncHash := hash; s_Signature := [] |}.

Definition set_SyncHash (t : Syncv1) (h : bytes) : Syncv1 :=
  {| Ver_type := Ver_type t; Sync_Type := Sync_Type t; Msg_Type := Msg_Type t;
     Tracking_Id := Tracking_Id t; s_Sender_Pubk := s_Sender_Pubk t;
     s_Timestamp := s_Timestamp t; s_Data := s_Data t; Details := Details t; SyncHash := h;
     s_Signature := s_Signature t |}.

(** [sha256.New().Sum(payload)] appends the hash of nothing to the payload. *)
Definition with_payload_hash (t : Syncv1) : Syncv1 :=
  set_SyncHash t (default [] (proto_Marshal_Syncv1 (Syncv1_MarshalBinary t)) ++ sha256 []).

Definition sign (t : Syncv1) (pk : bytes) : Syncv1 := fst (Syncv1_GenerateSignature t pk).
End Messages.

(** [pinMerkelHash]: the hash of the site ids in the order of their texts. *)
Definition str_less (a b : string) : bool :=
  match String.compare a b with Lt => true | _ => false end.

Definition pinMerkelHash `{Goterators} `{UuidLib} `{Md5Lib} (ids : list SiteID) : bytes :=
  let buf := gt_ForEach (fun buf id =>
               buf ++ [uuid_String (default uuid_Nil (uuid_FromBytes (site_Id id)))]) ids [] in
  gt_ForEach (fun prevHash id => md5 (prevHash ++ string_bytes id)) (SliceStable str_less buf)
    (md5 (replicate 16 x00)).

(** ** Requests and responses

    The flag of a result tells that there was no error. *)

Section Requests.
Context `{CryptoLib} `{ProtoLib} `{TimestampLib} `{EthLib} `{UuidLib} `{ProtoPinLib}.
Context `{Goterators} `{MapRange} `{!CollSet uuid}.
Context `{AnyLib} `{ProtoSyncLib} `{PeerKeys} `{PeerKeyLib} `{Md5Lib}.
Variable c : SyncConfig.

(** The machine starts to dispatch, the message enters the queue, the others
    run, and the deferred call deletes the machine. *)
Definition dispatch_and_wait (during : SyncNode -> SyncNode) (s : SyncNode) (m : Syncv1) : SyncNode :=
  let id := Tracking_Id m in
  remove (during (Enqueue (change s id SYNC_DISPATCH_BEGIN) m)) id.

(** A public key that cannot be marshalled leaves the machine registered in
    the functions without a deferred deletion. *)
Definition transactLatestPin (e : env) (during : SyncNode -> SyncNode) (s : SyncNode) (trackingId : uuid)
    (syncType msgType : Z) : SyncNode * bool :=
  match host_pk c with
  | None => (s, false)
  | Some pk =>
      let latest_pin := getLast (sn_pins s) in
      let id := if bool_decide (trackingId = uuid_Nil) then e_id2 e else trackingId in
      let s := reset s id in
      match host_pubk c with
      | None => (remove s id, false)
      | Some pubk =>
          match latest_pin with
          | Some pin =>
              match proto_Marshal_TxPin pin with
              | None => (remove s id, false)
              | Some data =>
                  let m := new_message e syncType msgType id pubk (Some data) []
                             (pinMerkelHash (Sites pin)) in
                  (dispatch_and_wait during (reset s id) (sign m pk), true)
              end
          | None =>
              let m := new_message e syncType msgType id pubk (Some []) [] [] in
              (dispatch_and_wait during (reset s id) (sign m pk), true)
          end
      end
  end.

Definition announceLatestPin e during s := transactLatestPin e during s uuid_Nil CURRENT STX_ANNOUNCE.
Definition announceNewPin e during s := transactLatestPin e during s uuid_Nil LATEST STX_ANNOUNCE.
Definition respondLatestPin e during s (rec : Syncv1) :=
  transactLatestPin e during s (Tracking_Id rec) LATEST STX_RESPONSE.

(** [waitForSMInLoop] after an attempt: both looks of its poll see the machine
    as the others left it. *)
Definition published (s : SyncNode) (id : uuid) : bool :=
  snd (waitForSMInLoop [(sn_sm s, default NewSyncStateMachine (sn_sm s !! id))] id SYNC_DISPATCH_END).

(** Put the message into the queue until it is published; [None] when the
    attempts end before that. *)
Fixpoint enqueue_until (attempts : list (SyncNode -> SyncNode)) (s : SyncNode) (m : Syncv1)
  : option SyncNode :=
  match attempts with
  | [] => None
  | during :: rest =>
      let s := during (Enqueue s m) in
      if published s (Tracking_Id m) then Some s
      else enqueue_until rest (reset s (Tracking_Id m)) m
  end.

Definition balance_details (balances : gmap string bytes) : list Any :=
  flat_map (fun kv => [any_New (AString (fst kv)); any_New (ABytes (snd kv))]) (map_range balances).

(** The snapshot message of the leader. *)
Definition snapshot_message (e : env) (p : NodeTxPin) (latest_pin : TxPin) (id : uuid) (pubk : bytes)
  : Syncv1 :=
  let balances := GetPinnedBalances p (PinNumber latest_pin) in
  new_message e CURRENT STX_SNAPSHOT_BALANCE_RESPONSE id pubk (proto_Marshal_TxPin latest_pin)
    (any_New (AInt64 (PinNumber latest_pin)) :: any_New (AInt32 (to_int32 (Z.of_nat (size balances))))
     :: balance_details balances) [].

Definition respondLatestBalances (e : env) (attempts : list (SyncNode -> SyncNode)) (s : SyncNode)
    (rec : Syncv1) : option (SyncNode * bool) :=
  match host_pk c with
  | None => Some (s, false)
  | Some pk =>
      match getLast (sn_pins s) with
      | None => Some (s, false)
      | Some latest_pin =>
          match host_pubk c with
          | None => Some (s, false)
          | Some pubk =>
              let m := snapshot_message e (sn_pins s) latest_pin (Tracking_Id rec) pubk in
              match enqueue_until attempts s (sign m pk) with
              | Some s => Some (s, true)
              | None => None
              end
          end
      end
  end.

(** [Details[i].UnmarshalNew()] and the type assertion that follows: an index
    out of range and another type panic. *)
Definition detail (details : list Any) (i : nat) : outcome any_msg :=
  match details !! i with
  | None => Panic
  | Some a => match UnmarshalNew a with None => Panic | Some m => Return m end
  end.
Definition as_int64 (m : any_msg) : outcome Z := match m with AInt64 z => Return z | _ => Panic end.
Definition as_int32 (m : any_msg) : outcome Z := match m with AInt32 z => Return z | _ => Panic end.
Definition as_string (m : any_msg) : outcome string :=
  match m with AString s => Return s | _ => Panic end.
Definition as_bytes (m : any_msg) : outcome bytes :=
  match m with ABytes b => Return b | _ => Panic end.

(** The loop over the wallets of a snapshot, [n] of them left.  The balances go
    into the map of the received pin; protobuf leaves an empty map nil, and
    writing to a nil map panics. *)
Fixpoint apply_snapshot (details : list Any) (offset n : nat) (balance : gmap string bytes)
  : outcome (gmap string bytes) :=
  match n with
  | O => Return balance
  | S n' =>
      let! w := outcome_bind (detail details offset) as_string in
      let! b := outcome_bind (detail details (offset + 1)) as_bytes in
      if bool_decide (balance = ∅) then Panic
      else apply_snapshot details (offset + 2) n' (<[w := b]> balance)
  end.

(** The pin joins the chain before the message is checked, and stays there
    when the check fails. *)
Definition handleLatestBalances (s : SyncNode) (rec : Syncv1) : outcome (SyncNode * bool) :=
  let p := sn_pins s in
  if ready p then Return (s, true)
  else match proto_Unmarshal_TxPin (default [] (s_Data rec)) with
  | None => Return (s, false)
  | Some pin =>
      let p := with_pins p (pins p ++ [pin]) in
      let! announced := outcome_bind (detail (Details rec) 0) as_int64 in
      if negb (CurrentHeight p =? announced) then Return (with_sn_pins s p, false)
      else
        let! n := outcome_bind (detail (Details rec) 1) as_int32 in
        let! b := apply_snapshot (Details rec) 2 (Z.to_nat n) (Balance pin) in
        Return (with_sn_pins s
                  {| pins := removelast (pins p) ++ [set_Balance pin b]; ready := true;
                     downloadedPins := downloadedPins p; downloadsClosed := downloadsClosed p |}, true)
  end.
(** ** Downloading pins *)

Definition pin_details (l : list TxPin) : list Any :=
  map (fun pin => any_New (ABytes (default [] (proto_Marshal_TxPin pin)))) l.

Definition respondAllPinsFrom (e : env) (attempts : list (SyncNode -> SyncNode)) (s : SyncNode)
    (rec : Syncv1) : outcome (option (SyncNode * bool)) :=
  match host_pk c with
  | None => Return (Some (s, false))
  | Some pk =>
      let! from := outcome_bind (detail (Details rec) 0) as_int32 in
      let allPins := default [] (getAllFrom (sn_pins s) from) in
      match host_pubk c with
      | None => Return (Some (s, false))
      | Some pubk =>
          let m := new_message e CURRENT STX_PIN_DOWNLOAD_RESPONSE (Tracking_Id rec) pubk (Some [])
                     (any_New (AInt32 (to_int32 (Z.of_nat (length allPins)))) :: pin_details allPins)
                     [] in
          Return (match enqueue_until attempts s (sign m pk) with
                  | Some s => Some (s, true)
                  | None => None
                  end)
      end
  end.

(** The loop over the downloaded pins, [n] of them left; the offset stays.
    [None] is a send to the full channel, which nobody receives from; the flag
    tells that every pin could be read. *)
Fixpoint add_downloaded (details : list Any) (offset n : nat) (p : NodeTxPin)
  : outcome (option (NodeTxPin * bool)) :=
  match n with
  | O => Return (Some (p, true))
  | S n' =>
      let! b := outcome_bind (detail details offset) as_bytes in
      match proto_Unmarshal_TxPin b with
      | None => Return (Some (p, false))
      | Some pin =>
          match AddDownloadedPin p pin with
          | Proceeds p => add_downloaded details offset n' p
          | Blocks => Return None
          | ChanPanic => Panic
          end
      end
  end.

(** The deferred call closes the channel. *)
Definition handleDownloadedPinsFromLeader (s : SyncNode) (rec : Syncv1)
  : outcome (option (SyncNode * bool)) :=
  let! n := outcome_bind (detail (Details rec) 0) as_int32 in
  let! r := add_downloaded (Details rec) 1 (Z.to_nat n) (sn_pins s) in
  match r with
  | None => Return None
  | Some (p, ok) =>
      match ClosePinDownloading p with
      | Proceeds p => Return (Some (with_sn_pins s p, ok))
      | Blocks => Return None
      | ChanPanic => Panic
      end
  end.

(** No wait and no deletion of the machine. *)
Definition sendPindDownloadRequest (e : env) (s : SyncNode) (fromHeight : Z) : SyncNode * bool :=
  match host_pk c with
  | None => (s, false)
  | Some pk =>
      let id := e_id e in
      let s := reset s id in
      match host_pubk c with
      | None => (s, false)
      | Some pubk =>
          let m := with_payload_hash
                     (new_message e CURRENT STX_PIN_DOWNLOAD_REQUEST id pubk (Some [])
                        [any_New (AInt32 (to_int32 fromHeight))] []) in
          (Enqueue (change s id SYNC_DISPATCH_BEGIN) (sign m pk), true)
      end
  end.

(** The flag tells that the request was published. *)
Definition sendSnapshotRequest (e : env) (during : SyncNode -> SyncNode) (s : SyncNode)
  : SyncNode * bool :=
  match host_pk c with
  | None => (s, false)
  | Some pk =>
      let id := e_id e in
      let s := reset s id in
      match host_pubk c with
      | None => (s, false)
      | Some pubk =>
          let m := with_payload_hash
                     (new_message e CURRENT STX_SNAPSHOT_BALANCE_REQUEST id pubk (Some []) [] []) in
          let s := during (Enqueue (change s id SYNC_DISPATCH_BEGIN) (sign m pk)) in
          (s, published s id)
      end
  end.

(** ** Missing pins *)

(** The log line prints five bytes of the signature. *)
Definition transactMissingPinRequest (e : env) (during : SyncNode -> SyncNode) (s : SyncNode)
    (sig : bytes) : outcome SyncNode :=
  if (length sig <? 5)%nat then Panic
  else match host_pk c with
  | None => Return s
  | Some pk =>
      let id := e_id e in
      let s := reset s id in
      match host_pubk c with
      | None => Return (remove s id)
      | Some pubk =>
          let m := with_payload_hash (new_message e MISSING STX_PIN_REQUEST id pubk (Some sig) [] []) in
          Return (dispatch_and_wait during s (sign m pk))
      end
  end.

(** The pins whose predecessor is not the one before them, from the last. *)
Fixpoint missing_prevs (l : list TxPin) : list bytes :=
  match l with
  | [] => []
  | x :: rest =>
      let need := match rest with
                  | [] => bool_decide (Prev x <> [])
                  | y :: _ => bool_decide (Prev x <> []) && negb (bool_decide (Prev x = Sign y))
                  end in
      (if need then [Prev x] else []) ++ missing_prevs rest
  end.

Fixpoint request_all (es : nat -> env) (k : nat) (during : SyncNode -> SyncNode) (s : SyncNode)
    (l : list bytes) : outcome SyncNode :=
  match l with
  | [] => Return s
  | b :: rest =>
      let! s := transactMissingPinRequest (es k) during s b in request_all es (S k) during s rest
  end.

(** The log lines of the higher verbosity levels are left out. *)
Definition SyncPin (es : nat -> env) (during : SyncNode -> SyncNode) (s : SyncNode) : outcome SyncNode :=
  request_all es 0 during s (missing_prevs (rev (pins (sn_pins s)))).

Definition publishMissPinResponse (e : env) (during : SyncNode -> SyncNode) (s : SyncNode)
    (trackingId : uuid) (pin : TxPin) : SyncNode * bool :=
  match host_pk c with
  | None => (s, false)
  | Some pk =>
      let s := reset s trackingId in
      match host_pubk c with
      | None => (remove s trackingId, false)
      | Some pubk =>
          match proto_Marshal_TxPin pin with
          | None => (remove s trackingId, false)
          | Some data =>
              let m := with_payload_hash
                         (new_message e MISSING STX_PIN_RESPONSE trackingId pubk (Some data) [] []) in
              (dispatch_and_wait during s (sign m pk), true)
          end
      end
  end.

(** Every pin with the signature is published. *)
Definition handleMissPinRequest (e : env) (during : SyncNode -> SyncNode) (s : SyncNode) (rec : Syncv1)
  : SyncNode :=
  fold_left (fun s' p =>
      if bool_decide (Sign p = default [] (s_Data rec))
      then fst (publishMissPinResponse e during s' (Tracking_Id rec) p) else s')
    (pins (sn_pins s)) s.

Definition processMissPinResponse (s : SyncNode) (rec : Syncv1) : outcome (SyncNode * bool) :=
  match UnmarshalPublicKey (s_Sender_Pubk rec) with
  | None => Return (s, false)
  | Some pubkey =>
      match Syncv1_VerifySignature rec pubkey with
      | None | Some false => Return (s, false)
      | Some true =>
          match proto_Unmarshal_TxPin (default [] (s_Data rec)) with
          | None => Return (s, false)
          | Some pin => let! p := insertIfNotFound (sn_pins s) pin in Return (with_sn_pins s p, true)
          end
      end
  end.

(** A message whose signature does not verify without an error makes the log
    line read a nil error: it panics. *)
Definition handleSyncPinResponse (s : SyncNode) (stx : Syncv1) : outcome (SyncNode * bool) :=
  match UnmarshalPublicKey (s_Sender_Pubk stx) with
  | None => Return (s, false)
  | Some pubkey =>
      match Syncv1_VerifySignature stx pubkey with
      | None => Return (s, false)
      | Some false => Panic
      | Some true =>
          match proto_Unmarshal_TxPin (default [] (s_Data stx)) with
          | None => Return (s, false)
          | Some pin => let! p := insertIfNotFound (sn_pins s) pin in Return (with_sn_pins s p, true)
          end
      end
  end.

Definition handleSyncPinRequest (e : env) (during : SyncNode -> SyncNode) (s : SyncNode) (rec : Syncv1)
  : SyncNode :=
  let s := change s (Tracking_Id rec) SYNC_HANDLE_BEGIN in
  let s := fst (respondLatestPin e during s rec) in
  change s (Tracking_Id rec) SYNC_HANDLE_END.
(** ** Sites *)

Definition transactSiteRequest (e : env) (during : SyncNode -> SyncNode) (s : SyncNode)
    (sites : list string) : SyncNode * bool :=
  match host_pk c with
  | None => (s, false)
  | Some pk =>
      let id := e_id e in
      let s := reset s id in
      match host_pubk c with
      | None => (remove s id, false)
      | Some pubk =>
          let m := with_payload_hash
                     (new_message e SITE STX_REQUEST id pubk None
                        (map (fun v => any_New (AString v)) sites) []) in
          (dispatch_and_wait during s (sign m pk), true)
      end
  end.

(** The nodes as messages; a nil node panics. *)
Fixpoint node_details (h : heap) (now : Z) (l : list loc) : outcome (list Any) :=
  match l with
  | [] => Return []
  | x :: rest =>
      match h !! x with
      | None => Panic
      | Some n =>
          let! m := Node_ToPbNode h n now in
          let! r := node_details h now rest in
          Return (any_New (ANode m) :: r)
      end
  end.

(** Nothing is sent when a site is unknown. *)
Definition handleSiteRequest (e : env) (during : SyncNode -> SyncNode) (s : SyncNode) (trackingId : uuid)
    (sites : list string) : outcome (SyncNode * bool) :=
  match host_pk c with
  | None => Return (s, false)
  | Some pk =>
      let '(vertices, ok) := getVertices (dg (sn_dag s)) sites in
      if negb ok || (length vertices =? 0)%nat then Return (s, false)
      else
        let id := if bool_decide (trackingId = uuid_Nil) then e_id2 e else trackingId in
        let s := reset s id in
        match host_pubk c with
        | None => Return (remove s id, false)
        | Some pubk =>
            let! d := node_details (dheap (sn_dag s)) (e_now e) vertices in
            let m := with_payload_hash (new_message e SITE STX_RESPONSE id pubk None d []) in
            Return (dispatch_and_wait during s (sign m pk), true)
        end
  end.

(** The strings among the details. *)
Definition string_details (l : list Any) : list string :=
  omap (fun a => match UnmarshalNew a with Some (AString v) => Some v | _ => None end) l.

Definition handleSyncSiteRequest (e : env) (during : SyncNode -> SyncNode) (s : SyncNode) (rec : Syncv1)
  : outcome SyncNode :=
  let s := change s (Tracking_Id rec) SYNC_HANDLE_BEGIN in
  let! r := handleSiteRequest e during s (Tracking_Id rec) (string_details (Details rec)) in
  Return (change (fst r) (Tracking_Id rec) SYNC_HANDLE_END).

(** The nodes among the details, new on the heap. *)
Fixpoint receive_nodes (s : DagWorld) (l : list Any) : outcome (DagWorld * list loc) :=
  match l with
  | [] => Return (s, [])
  | a :: rest =>
      match UnmarshalNew a with
      | Some (ANode t) =>
          let! x := Node_FromPbNode zero_node t in
          let '(s, l) := alloc s x in
          let! r := receive_nodes s rest in
          Return (fst r, l :: snd r)
      | _ => receive_nodes s rest
      end
  end.

(** [handleSyncSiteResponse] and [handleSyncUpResponse] have the same body. *)
Definition handleSyncSiteResponse (s : SyncNode) (syncTx : Syncv1) : outcome SyncNode :=
  let! r := receive_nodes (sn_dag s) (Details syncTx) in
  let! d := InsertIfNotExist (fst r) (snd r) in
  Return (with_sn_dag s d).
Definition handleSyncUpResponse (s : SyncNode) (syncTx : Syncv1) : outcome SyncNode :=
  handleSyncSiteResponse s syncTx.

(** The genesis node; the machine stays registered. *)
Definition processSyncUpRequest (e : env) (during : SyncNode -> SyncNode) (s : SyncNode)
    (trackingId : uuid) : outcome (SyncNode * bool) :=
  match host_pk c with
  | None => Return (s, false)
  | Some pk =>
      let! genesis := getGenesis (dg (sn_dag s)) in
      let id := if bool_decide (trackingId = uuid_Nil) then e_id2 e else trackingId in
      let s := reset s id in
      match host_pubk c with
      | None => Return (s, false)
      | Some pubk =>
          let! d := node_details (dheap (sn_dag s)) (e_now e) [genesis] in
          let m := with_payload_hash (new_message e GENESIS STX_SITE_RESPONSE id pubk None d []) in
          Return (during (Enqueue (change s id SYNC_DISPATCH_BEGIN) (sign m pk)), true)
      end
  end.

Definition handleSyncUpRequest (e : env) (during : SyncNode -> SyncNode) (s : SyncNode) (rec : Syncv1)
  : outcome SyncNode :=
  let s := change (reset s (Tracking_Id rec)) (Tracking_Id rec) SYNC_DISPATCH_BEGIN in
  let! r := processSyncUpRequest e during s (Tracking_Id rec) in
  Return (change (fst r) (Tracking_Id rec) SYNC_HANDLE_END).

Definition requestSitesFromLeader (e : env) (during : SyncNode -> SyncNode) (s : SyncNode)
  : SyncNode * bool :=
  match host_pk c, host_pubk c with
  | Some pk, Some pubk =>
      let id := e_id2 e in
      let m := new_message e GENESIS STX_SITE_REQUEST id pubk (Some []) [] [] in
      (during (Enqueue (change (reset s id) id SYNC_DISPATCH_BEGIN) (sign m pk)), true)
  | _, _ => (s, false)
  end.

(** ** The publisher *)

Definition whenToPublish (mt : Z) : bool :=
  (mt =? STX_ANNOUNCE) || (mt =? STX_REQUEST) || (mt =? STX_RESPONSE) || (mt =? STX_PIN_REQUEST)
  || (mt =? STX_PIN_RESPONSE) || (mt =? STX_SITE_REQUEST) || (mt =? STX_SITE_RESPONSE)
  || (mt =? STX_SNAPSHOT_BALANCE_REQUEST) || (mt =? STX_SNAPSHOT_BALANCE_RESPONSE)
  || (mt =? STX_PIN_DOWNLOAD_REQUEST) || (mt =? STX_PIN_DOWNLOAD_RESPONSE).

(** What the network does with the next message: whether a peer is known and
    whether publishing succeeds before its deadline. *)
Record network := { peers_known : bool; publish_ok : bool }.

(** One message: the state afterwards and what was published. *)
Definition syncPublish (n : network) (s : SyncNode) : SyncNode * option Syncv1 :=
  match sn_queue s with
  | [] => (s, None)
  | m :: rest =>
      let s := with_queue s rest in
      if Msg_Type m =? STX_STOP then (s, None)
      else if negb (whenToPublish (Msg_Type m)) then (s, None)
      else
        let id := Tracking_Id m in
        if negb (Leader c) && negb (peers_known n) then (change s id SYNC_CANCEL_STATE, None)
        else if negb (publish_ok n) then (change s id SYNC_CANCEL_STATE, None)
        else (change (change (reset s id) id SYNC_DISPATCH_BEGIN) id SYNC_DISPATCH_END, Some m)
  end.
End Requests.

(** ** The subscriber *)

Section Subscriber.
Context `{CryptoLib} `{ProtoLib} `{TimestampLib} `{EthLib} `{UuidLib} `{ProtoPinLib}.
Context `{Goterators} `{MapRange} `{!CollSet uuid}.
Context `{AnyLib} `{ProtoSyncLib} `{PeerKeys} `{PeerKeyLib} `{Md5Lib}.
Variable c : SyncConfig.
Variable RunCall : Storage -> pb_Txv1 -> PinTxHeader -> Storage * (CallResponse + string).
Variable coinbase : string.
Variable pb_text : pb_Txv1 -> string.
Variable undef : string -> Z.

Definition is_message (stx : Syncv1) (syncType msgType : Z) : bool :=
  (Ver_type stx =? STVX1) && (Sync_Type stx =? syncType) && (Msg_Type stx =? msgType).

Definition isSyncPinRequest (stx : Syncv1) (leader : bool) : bool :=
  is_message stx CURRENT STX_ANNOUNCE && leader.
Definition isSyncSiteRequest (stx : Syncv1) (leader : bool) : bool :=
  is_message stx SITE STX_REQUEST && leader.
Definition isSyncBalanceSnapshotRequest (stx : Syncv1) (leader : bool) : bool :=
  is_message stx CURRENT STX_SNAPSHOT_BALANCE_REQUEST && leader.
Definition isSyncBalanceSnapshotResponse (sm : machines) (stx : Syncv1) : bool :=
  is_message stx CURRENT STX_SNAPSHOT_BALANCE_RESPONSE
  && negb (bool_decide (currentSM sm (Tracking_Id stx) = SYNC_ZERO_STATE)) && SnapshotSync c.
Definition isPinDownloadRequest (stx : Syncv1) (leader : bool) : bool :=
  is_message stx CURRENT STX_PIN_DOWNLOAD_REQUEST && leader.
Definition isPinDownloadResponse (sm : machines) (stx : Syncv1) : bool :=
  is_message stx CURRENT STX_PIN_DOWNLOAD_RESPONSE && existsSM sm (Tracking_Id stx) && SnapshotSync c.
Definition isSyncSiteResponse (stx : Syncv1) : bool := is_message stx SITE STX_RESPONSE.
Definition isSyncUpSiteRequest (stx : Syncv1) (leader : bool) : bool :=
  is_message stx GENESIS STX_SITE_REQUEST && leader.
Definition isSyncUpSiteResponse (stx : Syncv1) : bool := is_message stx GENESIS STX_SITE_RESPONSE.
Definition isSyncPinResponse (stx : Syncv1) : bool :=
  is_message stx LATEST STX_RESPONSE && negb (SnapshotSync c).
Definition isNewPinAnnounce (stx : Syncv1) : bool := is_message stx LATEST STX_ANNOUNCE.
Definition isMissingPinRequest (stx : Syncv1) : bool :=
  is_message stx MISSING STX_PIN_REQUEST && negb (SnapshotSync c).
Definition isMissingPinResponse (stx : Syncv1) : bool :=
  is_message stx MISSING STX_PIN_RESPONSE && negb (SnapshotSync c).

(** *** processPin *)

(** What the [select] of the download loop sees: the value of the channel's
    receive with Go's second result, which is true for a value that was sent
    and false for a closed channel, or the timer. *)
Inductive dl_event := DlReceived (pin : TxPin) | DlClosed | DlTimer.

(** [None] while no event ends the loop. *)
Fixpoint download_loop (now : Z) (s : SyncNode) (currentHeight : Z) (evs : list dl_event)
  : option (outcome SyncNode) :=
  let on_receive (downloadedPin : option TxPin) (closed : bool)
      (again : SyncNode -> option (outcome SyncNode)) :=
    if closed then Some (Return s)
    else match downloadedPin with
    | None => Some Panic
    | Some pin =>
        if PinNumber pin =? currentHeight + 1 then
          match SyncPins RunCall coinbase now pb_text undef (NodeType c) (world (sn_dag s)) pin with
          | Panic => Some Panic
          | Return w => again (with_sn_world s (with_w_pins w (with_pins (w_pins w) (pins (w_pins w) ++ [pin]))))
          end
        else Some (Return s)
    end in
  match evs with
  | [] => None
  | DlTimer :: _ => Some (Return s)
  | DlReceived pin :: rest =>
      on_receive (Some pin) true (fun s => download_loop now s (currentHeight + 1) rest)
  | DlClosed :: rest => on_receive None false (fun s => download_loop now s (currentHeight + 1) rest)
  end.

(** The wallet cache becomes a copy of the confirmed one. *)
Definition copy_confirmed (s : SyncNode) : SyncNode :=
  let w := world (sn_dag s) in
  with_sn_world s (with_walletCache w (WalletCache_copyFrom (walletCache w) (walletCacheConfirmed w))).

Definition processPin (e : env) (evs : list dl_event) (s : SyncNode) (pin : TxPin)
  : option (outcome SyncNode) :=
  let currentHeight := CurrentHeight (sn_pins s) in
  if currentHeight + 1 =? PinNumber pin then
    Some (let! w := SyncPins RunCall coinbase (e_now e) pb_text undef (NodeType c) (world (sn_dag s)) pin in
          let s := copy_confirmed (with_sn_world s w) in
          Return (with_sn_pins s (with_pins (sn_pins s) (pins (sn_pins s) ++ [pin]))))
  else
    let s := with_sn_pins s (openPinDownloading (sn_pins s)) in
    let '(s, ok) := sendPindDownloadRequest c e s (currentHeight + 1) in
    if negb ok then Some (Return s)
    else match download_loop (e_now e) s currentHeight evs with
         | None => None
         | Some r => Some (let! s := r in Return (copy_confirmed s))
         end.

(** *** Dispatch *)

(** What the other goroutines and the clock do while a message is handled. *)
Record handling := {
  h_env : env; h_during : SyncNode -> SyncNode; h_attempts : list (SyncNode -> SyncNode);
  h_events : list dl_event
}.

(** The goroutine goes on with a state, or is blocked for ever ([None]). *)
Definition handled : Type := option (outcome SyncNode).

Definition syncSubscribe (h : handling) (s : SyncNode) (stx : Syncv1) : handled :=
  let e := h_env h in
  let id := Tracking_Id stx in
  if isSyncUpSiteRequest stx (Leader c) then
    Some (let! s := handleSyncUpRequest c e (h_during h) s stx in Return (remove s id))
  else if isSyncUpSiteResponse stx then
    Some (let! s := handleSyncUpResponse s stx in Return (remove (set_processed s) id))
  else if isMissingPinRequest stx && Leader c then
    Some (Return (remove (handleMissPinRequest c e (h_during h) s stx) id))
  else if isMissingPinResponse stx then
    Some (let! r := processMissPinResponse s stx in Return (remove (fst r) id))
  else if isSyncSiteRequest stx (Leader c) then
    Some (let s := change (reset s id) id SYNC_QUERY_BEGIN in
          let! s := handleSyncSiteRequest c e (h_during h) s stx in Return (remove s id))
  else if isSyncSiteResponse stx then
    Some (if existsSM (sn_sm s) id then
            if bool_decide (currentSM (sn_sm s) id = SYNC_DISPATCH_END) then
              let s := change (reset s id) id SYNC_QUERY_BEGIN in
              let! s := handleSyncSiteResponse s stx in
              if bool_decide (currentSM (sn_sm s) id = SYNC_HANDLE_END)
              then Return (remove (change s id SYNC_QUERY_END) id) else Return s
            else Return s
          else Return s)
  else if isSyncPinRequest stx (Leader c) then
    Some (let s := change (reset s id) id SYNC_QUERY_BEGIN in
          let s := handleSyncPinRequest c e (h_during h) s stx in
          Return (if bool_decide (currentSM (sn_sm s) id = SYNC_HANDLE_END)
                  then remove (change s id SYNC_QUERY_END) id else s))
  else if isNewPinAnnounce stx then
    match proto_Unmarshal_TxPin (default [] (s_Data stx)) with
    | None => Some (Return s)
    | Some pin =>
        if IsReady (sn_pins s) && ((NodeType c =? 0) || (NodeType c =? 1))
        then processPin e (h_events h) s pin else Some (Return s)
    end
  else if isSyncPinResponse stx then
    Some (if existsSM (sn_sm s) id then
            let! r := handleSyncPinResponse (set_joined s) stx in Return (remove (fst r) id)
          else Return s)
  else if isSyncBalanceSnapshotRequest stx (Leader c) then
    match respondLatestBalances c e (h_attempts h) (reset s id) stx with
    | None => None
    | Some r => Some (Return (remove (fst r) id))
    end
  else if isSyncBalanceSnapshotResponse (sn_sm s) stx then
    Some (let s := change s id SYNC_HANDLE_BEGIN in
          let! r := handleLatestBalances s stx in Return (change (fst r) id SYNC_HANDLE_END))
  else if isPinDownloadRequest stx (Leader c) then
    match respondAllPinsFrom c e (h_attempts h) (reset s id) stx with
    | Panic => Some Panic
    | Return None => None
    | Return (Some r) => Some (Return (remove (fst r) id))
    end
  else if isPinDownloadResponse (sn_sm s) stx then
    let s := change s id SYNC_HANDLE_BEGIN in
    match handleDownloadedPinsFromLeader s stx with
    | Panic => Some Panic
    | Return None => None
    | Return (Some r) => Some (Return (change (fst r) id SYNC_HANDLE_END))
    end
  else Some (Return s).

(** What the subscriber of another peer reads from a published message: the
    record of the envelope, converted there and back. *)
Definition received (m : Syncv1) : Syncv1 := Syncv1FromProtobuf (Syncv1_ToProtobuf m).
End Subscriber.
