(* ===== verification/PinGaps.v ===== *)
(** Chains of pins with gaps: which predecessors a node requests, and what
    inserting them does. *)
From S2P Require Import Prelude GoLib Bytes StateMachine Tx TxRecords Storage Pool WalletCache Node Pin.
From S2P Require Import PinProps PinSync Confirmation Weights Dag Sync.

(** ** The requests *)

(** The pin at [i] names a predecessor that is not the pin before it. *)
Definition gap_at (l : list TxPin) (i : nat) (b : bytes) : Prop :=
  exists y, l !! i = Some y /\ Prev y = b /\ b <> []
  /\ forall j z, i = S j -> l !! j = Some z -> b <> Sign z.

Lemma elem_of_missing l b : b ∈ missing_prevs (rev l) <-> exists i, gap_at l i b.
Proof.
  induction l as [|x l IH] using rev_ind.
  { split; [by intros ?%not_elem_of_nil|]. by intros (i & y & Hi & _). }
  rewrite rev_unit. cbn [missing_prevs]. rewrite elem_of_app, IH.
  assert (Hold : forall i, (i < length l)%nat -> gap_at (l ++ [x]) i b <-> gap_at l i b).
  { intros i Hi. unfold gap_at. rewrite lookup_app_l by done.
    split; intros (y & ? & ? & ? & Hn); exists y; (split_and!; [done..|]); intros j z -> Hz;
      apply (Hn j z); try done.
    - rewrite lookup_app_l by lia. done.
    - by rewrite lookup_app_l in Hz by lia. }
  assert (Hnew : gap_at (l ++ [x]) (length l) b <->
            Prev x = b /\ b <> [] /\ forall z, last l = Some z -> b <> Sign z).
  { unfold gap_at. rewrite lookup_app_r, Nat.sub_diag by lia. simpl. split.
    - intros (y & [= <-] & ? & ? & Hn). split_and!; [done..|]. intros z Hz.
      rewrite last_lookup in Hz. pose proof (lookup_lt_Some _ _ _ Hz).
      apply (Hn (pred (length l)) z); [lia|]. by rewrite lookup_app_l.
    - intros (? & ? & Hn). exists x. split_and!; [done..|]. intros j z Hj Hz. apply Hn.
      rewrite last_lookup, Hj. simpl. by rewrite lookup_app_l in Hz by lia. }
  transitivity (gap_at (l ++ [x]) (length l) b \/ exists i, gap_at l i b).
  - apply or_iff_compat_r. rewrite Hnew. clear.
    destruct l as [|z l _] using rev_ind; simpl.
    + case_bool_decide; [rewrite list_elem_of_singleton|rewrite elem_of_nil]; naive_solver.
    + rewrite rev_unit, last_snoc. case_bool_decide; simpl.
      * case_bool_decide; simpl; [rewrite elem_of_nil|rewrite list_elem_of_singleton]; naive_solver.
      * rewrite elem_of_nil. naive_solver.
  - split.
    + intros [?|[i Hi]]; [by eexists|]. exists i. apply Hold; [|done].
      destruct Hi as (y & Hy & _). by eapply lookup_lt_Some.
    + intros [i Hi]. destruct (decide (i < length l)%nat) as [Hlt|Hge].
      * right. exists i. by apply Hold.
      * left. assert (i = length l) as ->; [|done]. destruct Hi as (y & Hy & _).
        apply lookup_lt_Some in Hy. rewrite length_app in Hy. simpl in Hy. lia.
Qed.

(** ** Parts of a chain *)

(** The pins of the chain [c] that a node has, in the order of the chain. *)
Definition part (f : TxPin -> bool) (c : list TxPin) : list TxPin := List.filter f c.

Lemma part_app f a b : part f (a ++ b) = part f a ++ part f b.
Proof. apply List.filter_app. Qed.

Lemma elem_of_part f c x : x ∈ part f c <-> f x = true /\ x ∈ c.
Proof. rewrite !list_elem_of_In. unfold part. rewrite List.filter_In. tauto. Qed.

Definition add_pin (f : TxPin -> bool) (x z : TxPin) : bool := f z || bool_decide (Sign z = Sign x).

(** Pins of a chain with the same signature are the same. *)
Lemma chain_Sign_eq c x y : pin_chain c -> x ∈ c -> y ∈ c -> Sign x = Sign y -> x = y.
Proof.
  intros Hc [i Hi]%list_elem_of_lookup [j Hj]%list_elem_of_lookup E.
  pose proof (chain_Sign_inj _ _ _ _ _ Hc Hi Hj E). subst j. by simplify_eq.
Qed.

Lemma part_ext f g c : (forall z, z ∈ c -> f z = g z) -> part f c = part g c.
Proof.
  induction c as [|z c IH]; intros H; simpl; [done|].
  rewrite (H z) by left. rewrite IH; [done|]. intros z' Hz'. apply H. by right.
Qed.

Lemma find_first_app {A} (q : A -> bool) (l : list A) x l' :
  Forall (fun y => q y = false) l -> q x = true ->
  find_first q (l ++ x :: l') = Some (x, length l).
Proof. induction 1 as [|y l Hy _ IH]; intros Hx; simpl; [by rewrite Hx|]. by rewrite Hy, IH. Qed.

Section Gap.
Context `{Goterators} (a b : list TxPin) (x y : TxPin) (f : TxPin -> bool).
Let c := a ++ x :: y :: b.
Hypothesis Hc : pin_chain c.
Hypothesis Hx : f x = false.
Hypothesis Hy : f y = true.

Lemma gap_lookup_x : c !! length a = Some x.
Proof. unfold c. by rewrite lookup_app_r, Nat.sub_diag. Qed.
Lemma gap_lookup_y : c !! S (length a) = Some y.
Proof. unfold c. rewrite lookup_app_r by lia. by replace (S (length a) - length a)%nat with 1%nat by lia. Qed.

Lemma gap_prev : Prev y = Sign x.
Proof. exact (chain_next _ Hc _ _ _ gap_lookup_x gap_lookup_y). Qed.

Lemma gap_part : part f c = part f a ++ y :: part f b.
Proof. unfold c. rewrite part_app. simpl. by rewrite Hx, Hy. Qed.

Lemma gap_added : part (add_pin f x) c = part f a ++ x :: y :: part f b.
Proof.
  assert (Ho : forall i z, c !! i = Some z -> i <> length a -> add_pin f x z = f z).
  { intros i z Hz Hi. unfold add_pin. rewrite bool_decide_false; [by rewrite orb_false_r|].
    intros E. apply Hi. eapply chain_Sign_inj; [exact Hc|done|exact gap_lookup_x|done]. }
  unfold c. rewrite part_app. simpl.
  assert (add_pin f x x = true) as -> by (unfold add_pin; by rewrite bool_decide_true, orb_true_r).
  rewrite (Ho _ y gap_lookup_y) by lia. rewrite Hy.
  f_equal; [|do 2 f_equal]; apply part_ext; intros z [i Hi]%list_elem_of_lookup.
  - apply (Ho i); [unfold c; by apply lookup_app_l_Some|]. apply lookup_lt_Some in Hi. lia.
  - apply (Ho (length a + S (S i))%nat); [|lia]. unfold c. rewrite lookup_app_r by lia.
    by replace (length a + S (S i) - length a)%nat with (S (S i)) by lia.
Qed.

(** The missing pin goes where it belongs. *)
Lemma insert_gap p :
  pins p = part f c ->
  insertIfNotFound p x = Return (with_pins p (part (add_pin f x) c)).
Proof.
  intros Hp. rewrite (insert_cases p c (length a) x Hc gap_lookup_x).
  - unfold successor_index. rewrite Hp, gap_part, gap_added.
    rewrite (find_first_app (fun z => bool_decide (Prev z = Sign x))).
    + unfold insert_at. rewrite take_app_length, drop_app_length. done.
    + apply Forall_forall. intros z [_ [i Hi]%list_elem_of_lookup]%elem_of_part.
      apply bool_decide_false. intros E. pose proof (lookup_lt_Some _ _ _ Hi).
      assert (c !! i = Some z) as Hi' by (unfold c; by apply lookup_app_l_Some).
      pose proof (chain_successor _ _ _ _ _ Hc gap_lookup_x Hi' E). lia.
    + apply bool_decide_true, gap_prev.
  - rewrite Hp. apply Forall_forall. intros z [Hf Hz]%elem_of_part E.
    assert (z = x) as ->; [|congruence]. eapply chain_Sign_eq; [exact Hc|done| |done].
    by eapply list_elem_of_lookup_2, gap_lookup_x.
  - intros E. apply (chain_Prev_nil _ _ _ Hc gap_lookup_x) in E.
    apply nil_length_inv in E. rewrite Hp, gap_part.
    assert (part f a = []) as -> by (by rewrite E). simpl. apply gap_prev.
Qed.
End Gap.

(** ** Gaps of a part *)

(** What a node requests is the pin before one it has and not one it has. *)
Lemma part_position f c i z :
  part f c !! i = Some z ->
  exists a b, c = a ++ z :: b /\ part f a = take i (part f c) /\ f z = true.
Proof.
  revert i. induction c as [|w c IH]; intros i H; simpl in *; [done|].
  destruct (f w) eqn:Hw; [destruct i as [|i]; simpl in H|].
  - simplify_eq. by exists [], c.
  - destruct (IH _ H) as (a & b & -> & Ha & Hz). exists (w :: a), b. simpl. rewrite Hw. by rewrite Ha.
  - destruct (IH _ H) as (a & b & -> & Ha & Hz). exists (w :: a), b. simpl. by rewrite Hw.
Qed.

Lemma gap_in_chain f c i b :
  pin_chain c -> gap_at (part f c) i b ->
  exists a x y d, c = a ++ x :: y :: d /\ f x = false /\ f y = true /\ b = Sign x.
Proof.
  intros Hc (y & Hy & Hb & Hne & Hn). destruct (part_position _ _ _ _ Hy) as (a & d & -> & Ha & Hfy).
  destruct a as [|x a _] using rev_ind.
  { exfalso. apply Hne. rewrite <- Hb. by apply (chain_first _ Hc). }
  rewrite <- app_assoc in Hc. simpl in Hc. pose proof (gap_prev a d x y Hc) as E.
  exists a, x, y, d. rewrite <- app_assoc. split_and!; [done| |done|congruence].
  destruct (f x) eqn:Hfx; [|done]. exfalso. rewrite part_app in Ha. simpl in Ha. rewrite Hfx in Ha.
  assert (i = S (length (part f a))) as ->.
  { apply (f_equal length) in Ha. rewrite length_app, length_take in Ha. simpl in Ha.
    apply lookup_lt_Some in Hy. lia. }
  apply (Hn _ x eq_refl); [|congruence].
  rewrite <- (lookup_take_lt _ (S (length (part f a)))) by lia. rewrite <- Ha.
  by rewrite lookup_app_r, Nat.sub_diag by lia.
Qed.

Lemma gap_requested f a x y d :
  pin_chain (a ++ x :: y :: d) -> f x = false -> f y = true ->
  exists i, gap_at (part f (a ++ x :: y :: d)) i (Sign x).
Proof.
  intros Hc Hx Hy. exists (length (part f a)), y. rewrite gap_part by done.
  split_and!.
  - by rewrite lookup_app_r, Nat.sub_diag by lia.
  - by eapply gap_prev.
  - pose proof (proj1 (log_line_ok _ _ _ Hc (gap_lookup_x a d x y))) as E.
    intros E'. by rewrite E' in E.
  - intros j z Hj Hz E. rewrite lookup_app_l in Hz by lia.
    assert (z ∈ part f a) as [Hf Hin]%elem_of_part by (by eapply list_elem_of_lookup_2).
    assert (z = x); [|congruence]. eapply chain_Sign_eq; [exact Hc|set_solver|set_solver|done].
Qed.

(** Without gaps a part is the beginning of the chain up to its last pin. *)
Lemma part_no_gap f c k x :
  pin_chain c -> c !! k = Some x -> f x = true ->
  (forall j z, (k < j)%nat -> c !! j = Some z -> f z = false) ->
  (forall i b, ~ gap_at (part f c) i b) -> part f c = take (S k) c.
Proof.
  intros Hc Hk Hx Hlast Hno.
  assert (Hall : forall n j z, (j + n = k)%nat -> c !! j = Some z -> f z = true).
  { induction n as [|n IH]; intros j z Hj Hz; [assert (j = k) as -> by lia; congruence|].
    destruct (f z) eqn:Hfz; [done|exfalso].
    assert (is_Some (c !! S j)) as [y Hy].
    { apply lookup_lt_is_Some. apply lookup_lt_Some in Hk. lia. }
    assert (f y = true) as Hfy by (apply (IH (S j)); [lia|done]).
    assert (c = take j c ++ z :: y :: drop (S (S j)) c) as E.
    { rewrite <- (take_drop j c) at 1. by rewrite (drop_S _ _ _ Hz), (drop_S _ _ _ Hy). }
    rewrite E in Hc. destruct (gap_requested f _ _ _ _ Hc Hfz Hfy) as [i Hi].
    rewrite <- E in Hi. by apply (Hno i (Sign z)). }
  rewrite <- (take_drop (S k) c) at 1. rewrite part_app.
  assert (part f (take (S k) c) = take (S k) c) as ->.
  { unfold part. apply List.forallb_filter_id. apply List.forallb_forall.
    intros z [j Hj]%list_elem_of_In%list_elem_of_lookup. apply lookup_take_Some in Hj as [Hj Hlt].
    apply (Hall (k - j)%nat j); [lia|done]. }
  assert (part f (drop (S k) c) = []) as ->; [|by rewrite app_nil_r].
  apply elem_of_nil_inv. intros z [Hf [j Hj]%list_elem_of_lookup]%elem_of_part.
  rewrite lookup_drop in Hj. rewrite (Hlast (S k + j)%nat z) in Hf; [done|lia|done].
Qed.

(** Adding pins makes a part longer. *)
Lemma part_mono f g c :
  (forall z, f z = true -> g z = true) -> (length (part f c) <= length (part g c))%nat.
Proof.
  intros H. induction c as [|z c IH]; simpl; [done|].
  destruct (f z) eqn:Hz; [rewrite (H z Hz); simpl; lia|]. destruct (g z); simpl; lia.
Qed.

Lemma part_grows f g c x :
  (forall z, f z = true -> g z = true) -> x ∈ c -> f x = false -> g x = true ->
  (length (part f c) < length (part g c))%nat.
Proof.
  intros H [l1 [l2 ->]]%list_elem_of_split Hf Hg. rewrite !part_app, !length_app. simpl.
  rewrite Hf, Hg. simpl. pose proof (part_mono f g l1 H). pose proof (part_mono f g l2 H). lia.
Qed.

Lemma part_length f c : (length (part f c) <= length c)%nat.
Proof. apply List.filter_length_le. Qed.
