(* ===== verification/SyncProps.v ===== *)
(** How a peer catches up with the pins it misses: the exchange of requests
    and responses between a peer and the leader. *)
From S2P Require Import Prelude GoLib Bytes StateMachine Tx TxRecords Storage Pool WalletCache Node Pin.
From S2P Require Import PinProps PinSync Confirmation Weights Dag DagProps DagSteps Sync PinGaps.

(** ** Which case of the subscriber a message meets *)

Lemma is_message_other m a b a' b' :
  is_message m a b = true -> is_message m a' b' = (a =? a') && (b =? b').
Proof.
  unfold is_message. rewrite !andb_true_iff, !Z.eqb_eq. intros [[-> ->] ->]. done.
Qed.

(** Rewrite every test of the subscriber for a message of a known kind. *)
Ltac dispatch H :=
  unfold isSyncUpSiteRequest, isSyncUpSiteResponse, isMissingPinRequest, isMissingPinResponse,
    isSyncSiteRequest, isSyncSiteResponse, isSyncPinRequest, isNewPinAnnounce, isSyncPinResponse,
    isSyncBalanceSnapshotRequest, isSyncBalanceSnapshotResponse, isPinDownloadRequest,
    isPinDownloadResponse;
  rewrite ?(is_message_other _ _ _ _ _ H); cbn [Z.eqb Pos.eqb andb orb negb].

(** What travels with a message. *)
Lemma received_kind `{TimestampLib} m a b :
  0 <= a < 256 -> 0 <= b < 256 -> is_message m a b = true -> is_message (received m) a b = true.
Proof.
  intros Ha Hb. unfold is_message, received, Syncv1FromProtobuf, to_uint8. simpl.
  rewrite !andb_true_iff, !Z.eqb_eq. intros [[-> ->] ->].
  by rewrite (wrap_small 8 a), (wrap_small 8 b) by (simpl; lia).
Qed.

(** ** Publishing and delivering *)

Definition network_ok : network := {| peers_known := true; publish_ok := true |}.

Section Exchange.
Context `{CryptoLib} `{ProtoLib} `{TimestampLib} `{EthLib} `{UuidLib} `{ProtoPinLib}.
Context `{Goterators} `{MapRange} `{!CollSet uuid}.
Context `{AnyLib} `{ProtoSyncLib} `{PeerKeys} `{PeerKeyLib} `{Md5Lib}.
Variable RunCall : Storage -> pb_Txv1 -> PinTxHeader -> Storage * (CallResponse + string).
Variable coinbase : string.
Variable pb_text : pb_Txv1 -> string.
Variable undef : string -> Z.

(** The publisher takes [n] messages. *)
Fixpoint publish_all (c : SyncConfig) (n : nat) (s : SyncNode) : SyncNode * list Syncv1 :=
  match n with
  | O => (s, [])
  | S n' =>
      let '(s, m) := syncPublish c network_ok s in
      let '(s, ms) := publish_all c n' s in (s, option_list m ++ ms)
  end.

Definition publish_queue (c : SyncConfig) (s : SyncNode) : SyncNode * list Syncv1 :=
  publish_all c (length (sn_queue s)) s.

(** The subscriber handles messages one after the other; the publisher runs
    when it is done. *)
Definition quiet (e : env) : handling :=
  {| h_env := e; h_during := fun s => s; h_attempts := []; h_events := [] |}.

Fixpoint deliver (c : SyncConfig) (es : nat -> env) (k : nat) (s : SyncNode) (ms : list Syncv1)
  : handled :=
  match ms with
  | [] => Some (Return s)
  | m :: rest =>
      match syncSubscribe c RunCall coinbase pb_text undef (quiet (es k)) s (received m) with
      | Some (Return s) => deliver c es (S k) s rest
      | r => r
      end
  end.

Lemma publish_all_spec c : forall q s,
  sn_queue s = q ->
  Forall (fun m => Msg_Type m <> STX_STOP /\ whenToPublish (Msg_Type m) = true) q ->
  exists s', publish_queue c s = (s', q) /\ sn_dag s' = sn_dag s /\ sn_queue s' = [].
Proof.
  unfold publish_queue. induction q as [|m q IH]; intros s Hq Hok; rewrite Hq; simpl.
  - by exists s.
  - apply Forall_cons in Hok as [[Hstop Hwhen] Hok]. unfold syncPublish at 1. rewrite Hq.
    rewrite (proj2 (Z.eqb_neq _ _) Hstop), Hwhen. simpl. rewrite andb_false_r.
    match goal with |- context [publish_all c (length q) ?s1] =>
      destruct (IH s1 eq_refl Hok) as (s' & E & Hd & Hq') end.
    simpl in E. exists s'. by rewrite E.
Qed.

(** ** Requests for missing pins *)

Definition pin_request (b : bytes) (m : Syncv1) : Prop :=
  is_message m MISSING STX_PIN_REQUEST = true /\ s_Data m = Some b.

Definition pin_response (pk pubk d : bytes) (m : Syncv1) : Prop :=
  is_message m MISSING STX_PIN_RESPONSE = true /\ s_Data m = Some d /\ s_Sender_Pubk m = pubk
  /\ s_Signature m = default [] (pk_Sign pk (sha256 d)).

Lemma publishable m a b :
  is_message m a b = true -> b <> STX_STOP -> whenToPublish b = true ->
  Msg_Type m <> STX_STOP /\ whenToPublish (Msg_Type m) = true.
Proof. unfold is_message. rewrite !andb_true_iff, !Z.eqb_eq. by intros [[_ _] ->]. Qed.

Lemma request_all_spec c es pk pubk l : forall k s,
  host_pk c = Some pk -> host_pubk c = Some pubk -> Forall (fun b => (5 <= length b)%nat) l ->
  exists s' ms, request_all c es k (fun s => s) s l = Return s'
  /\ sn_dag s' = sn_dag s /\ sn_queue s' = sn_queue s ++ ms /\ Forall2 pin_request l ms.
Proof.
  induction l as [|b l IH]; intros k s Hk Hp Hl; cbn [request_all].
  { exists s, []. by rewrite app_nil_r. }
  apply Forall_cons in Hl as [Hb Hl]. unfold transactMissingPinRequest.
  rewrite (proj2 (Nat.ltb_ge _ _) Hb), Hk, Hp. cbn [outcome_bind].
  match goal with |- context [request_all c es _ _ ?s1 l] =>
    destruct (IH (S k) s1 Hk Hp Hl) as (s' & ms & E & Hd & Hq & HF) end.
  rewrite E. eexists _, (_ :: ms). split; [reflexivity|]. rewrite Hd, Hq. split; [done|].
  split; [|constructor; [|exact HF]]; simpl; [by rewrite <- app_assoc|]. done.
Qed.

(** The leader answers with the pin of the signature. *)
Lemma answer_spec c e pk pubk b id pin d : forall l s,
  host_pk c = Some pk -> host_pubk c = Some pubk -> NoDup (map Sign l) -> pin ∈ l -> Sign pin = b ->
  proto_Marshal_TxPin pin = Some d ->
  exists m, let s' := fold_left (fun s' p => if bool_decide (Sign p = b)
                 then fst (publishMissPinResponse c e (fun s => s) s' id p) else s') l s in
  sn_dag s' = sn_dag s /\ sn_queue s' = sn_queue s ++ [m] /\ pin_response pk pubk d m.
Proof.
  intros l s Hk Hp Hnd Hin Hb Hd. revert s. induction l as [|x l IH]; intros s.
  { by apply not_elem_of_nil in Hin. }
  simpl in Hnd. apply NoDup_cons in Hnd as [Hx Hnd].
  apply elem_of_cons in Hin as [<-|Hin]; cbn [fold_left].
  - rewrite bool_decide_true by done.
    assert (Hrest : forall s0, fold_left (fun s' p => if bool_decide (Sign p = b)
                 then fst (publishMissPinResponse c e (fun s => s) s' id p) else s') l s0 = s0).
    { clear - Hx Hb. intros s0. revert Hx. induction l as [|z l IH]; intros Hx; simpl; [done|].
      rewrite bool_decide_false; [|intros E; apply Hx; simpl; rewrite Hb, <- E; left].
      apply IH. intros Hx'. apply Hx. by right. }
    eexists. rewrite Hrest. unfold publishMissPinResponse. rewrite Hk, Hp, Hd. simpl.
    split_and!; done.
  - rewrite bool_decide_false; [by apply IH|].
    intros E. apply Hx. rewrite E, <- Hb. apply list_elem_of_fmap. eauto.
Qed.

Lemma leader_answers c e pk pubk s m pin d :
  Leader c = true -> SnapshotSync c = false -> host_pk c = Some pk -> host_pubk c = Some pubk ->
  NoDup (map Sign (pins (sn_pins s))) -> pin ∈ pins (sn_pins s) -> pin_request (Sign pin) m ->
  proto_Marshal_TxPin pin = Some d ->
  exists s' r, syncSubscribe c RunCall coinbase pb_text undef (quiet e) s m = Some (Return s')
  /\ sn_dag s' = sn_dag s /\ sn_queue s' = sn_queue s ++ [r] /\ pin_response pk pubk d r.
Proof.
  intros Hl Hs Hk Hp Hnd Hin [Hm Hdata] Hd. unfold syncSubscribe. dispatch Hm. rewrite Hl, Hs. simpl.
  unfold handleMissPinRequest. rewrite Hdata. simpl.
  destruct (answer_spec c e pk pubk (Sign pin) (Tracking_Id m) pin d (pins (sn_pins s)) s)
    as (r & Hdag & Hq & Hr); try done. eexists _, r. split; [reflexivity|]. done.
Qed.

(** The peer checks the signature and inserts the pin. *)
Lemma peer_inserts c e pk pubk pub s m pin d p' :
  SnapshotSync c = false -> pin_response pk pubk d m ->
  UnmarshalPublicKey pubk = Some pub ->
  pk_Verify pub (sha256 d) (default [] (pk_Sign pk (sha256 d))) = Some true ->
  proto_Unmarshal_TxPin d = Some pin -> insertIfNotFound (sn_pins s) pin = Return p' ->
  exists s', syncSubscribe c RunCall coinbase pb_text undef (quiet e) s m = Some (Return s')
  /\ sn_pins s' = p' /\ sn_queue s' = sn_queue s.
Proof.
  intros Hs (Hm & Hd & Hpk & Hsig) Hu Hv Hun Hi. unfold syncSubscribe. dispatch Hm. rewrite Hs. simpl.
  unfold processMissPinResponse, Syncv1_VerifySignature.
  rewrite Hpk, Hu, Hd, Hsig. simpl. rewrite Hv, Hun, Hi. simpl. eexists. done.
Qed.
(** ** A round: requests to the leader, responses to the peer *)

Definition sync_round (cl cp : SyncConfig) (es : nat -> env) (leader peer : SyncNode)
  : option (outcome (SyncNode * SyncNode)) :=
  match SyncPin cp es (fun s => s) peer with
  | Panic => Some Panic
  | Return peer =>
      let '(peer, requests) := publish_queue cp peer in
      match deliver cl es 0 leader requests with
      | Some (Return leader) =>
          let '(leader, responses) := publish_queue cl leader in
          match deliver cp es 0 peer responses with
          | Some (Return peer) => Some (Return (leader, peer))
          | Some Panic => Some Panic
          | None => None
          end
      | Some Panic => Some Panic
      | None => None
      end
  end.

Fixpoint sync_rounds (cl cp : SyncConfig) (n : nat) (es : nat -> nat -> env) (leader peer : SyncNode)
  : option (outcome (SyncNode * SyncNode)) :=
  match n with
  | O => Some (Return (leader, peer))
  | S n' =>
      match sync_round cl cp (es n') leader peer with
      | Some (Return (leader, peer)) => sync_rounds cl cp n' es leader peer
      | r => r
      end
  end.

Lemma received_request b m : pin_request b m -> pin_request b (received m).
Proof. intros [Hm Hd]. split; [|done]. apply received_kind; [done..|exact Hm]. Qed.

Lemma received_response pk pubk d m : pin_response pk pubk d m -> pin_response pk pubk d (received m).
Proof. intros (Hm & Hd & Hk & Hs). split_and!; try done. apply received_kind; [done..|exact Hm]. Qed.

(** What a leader's keys and the wire format of pins promise. *)
Record trusted (c : SyncConfig) (pk pubk pub : bytes) : Prop := {
  tr_pk : host_pk c = Some pk;
  tr_pubk : host_pubk c = Some pubk;
  tr_pub : UnmarshalPublicKey pubk = Some pub;
  tr_verify : forall h, pk_Verify pub h (default [] (pk_Sign pk h)) = Some true
}.

Definition transmissible (pin : TxPin) : Prop :=
  exists d, proto_Marshal_TxPin pin = Some d /\ proto_Unmarshal_TxPin d = Some pin.

Section Rounds.
Context (cl cp : SyncConfig) (pk pubk pub : bytes) (chain : list TxPin).
Hypothesis Hleader : Leader cl = true.
Hypothesis Hfull : SnapshotSync cl = false.
Hypothesis Hfull' : SnapshotSync cp = false.
Hypothesis Hkeys : trusted cl pk pubk pub.
Hypothesis Hpeer : is_Some (host_pk cp) /\ is_Some (host_pubk cp).
Hypothesis Hchain : pin_chain chain.
Hypothesis Hwire : Forall transmissible chain.

(** A pin to request: before one the peer has, and not one it has. *)
Definition wanted (f : TxPin -> bool) (x : TxPin) : Prop :=
  exists a y d, chain = a ++ x :: y :: d /\ f x = false /\ f y = true.

Lemma wanted_in f x : wanted f x -> x ∈ chain.
Proof. intros (a & y & d & -> & _). apply elem_of_app. right. left. Qed.

Lemma deliver_requests es xs : forall k s ms,
  pins (sn_pins s) = chain -> Forall (fun x => x ∈ chain) xs ->
  Forall2 (fun x m => pin_request (Sign x) m) xs ms ->
  exists s' rs, deliver cl es k s ms = Some (Return s') /\ sn_dag s' = sn_dag s
  /\ sn_queue s' = sn_queue s ++ rs
  /\ Forall2 (fun x r => exists d, proto_Marshal_TxPin x = Some d /\
                proto_Unmarshal_TxPin d = Some x /\ pin_response pk pubk d r) xs rs.
Proof.
  induction xs as [|x xs IH]; intros k s ms Hs Hxs HF.
  { apply Forall2_nil_inv_l in HF as ->. exists s, []. by rewrite app_nil_r. }
  apply Forall2_cons_inv_l in HF as (m & ms' & Hm & HF' & ->). apply Forall_cons in Hxs as [Hx Hxs].
  destruct (proj1 (List.Forall_forall _ _) Hwire x (proj1 (list_elem_of_In _ _) Hx)) as (d & Hd & Hu).
  destruct (leader_answers cl (es k) pk pubk s (received m) x d) as (s1 & r & E & Hdag & Hq & Hr);
    try done; try apply Hkeys; [rewrite Hs; apply Hchain|by rewrite Hs|by apply received_request|].
  cbn [deliver]. rewrite E. assert (pins (sn_pins s1) = chain) as Hs1.
  { unfold sn_pins. by rewrite Hdag. }
  destruct (IH (S k) s1 ms' Hs1 Hxs HF') as (s' & rs & E' & Hdag' & Hq' & HF2).
  exists s', (r :: rs). split_and!; [done|congruence| |].
  - rewrite Hq', Hq. by rewrite <- app_assoc.
  - constructor; [by exists d|done].
Qed.

Lemma deliver_responses es f xs : forall k s rs g,
  pins (sn_pins s) = part g chain -> (forall z, f z = true -> g z = true) -> Forall (wanted f) xs ->
  Forall2 (fun x r => exists d, proto_Marshal_TxPin x = Some d /\
            proto_Unmarshal_TxPin d = Some x /\ pin_response pk pubk d r) xs rs ->
  exists s' g', deliver cp es k s rs = Some (Return s') /\ pins (sn_pins s') = part g' chain
  /\ sn_queue s' = sn_queue s /\ (forall z, g z = true -> g' z = true)
  /\ Forall (fun x => g' x = true) xs
  /\ (forall z, g' z = true -> g z = true \/ exists x, x ∈ xs /\ Sign z = Sign x).
Proof.
  induction xs as [|x xs IH]; intros k s rs g Hs Hfg Hxs HF.
  { apply Forall2_nil_inv_l in HF as ->. exists s, g. split_and!; try done. by left. }
  apply Forall2_cons_inv_l in HF as (r & rs' & (d & Hd & Hu & Hr) & HF' & ->). apply Forall_cons in Hxs as [Hx Hxs].
  assert (exists p' g1, insertIfNotFound (sn_pins s) x = Return p' /\ pins p' = part g1 chain
    /\ (forall z, g z = true -> g1 z = true) /\ g1 x = true
    /\ (forall z, g1 z = true -> g z = true \/ Sign z = Sign x)) as (p' & g1 & Hi & Hp' & Hg1 & Hx1 & Hnew).
  { destruct (g x) eqn:Hgx.
    - pose proof (wanted_in _ _ Hx) as Hin. destruct (proj1 (list_elem_of_lookup _ _) Hin) as [i Hi].
      exists (sn_pins s), g. split_and!; [|by auto..].
      eapply insert_known; [exact Hchain|exact Hi|]. rewrite Hs. by apply elem_of_part.
    - destruct Hx as (a & y & dd & E & Hfx & Hfy). eexists _, (add_pin g x). split_and!.
      + rewrite E in *. apply (insert_gap a dd x y g); auto.
      + by rewrite E.
      + intros z Hz. unfold add_pin. by rewrite Hz.
      + unfold add_pin. by rewrite bool_decide_true, orb_true_r.
      + intros z. unfold add_pin. rewrite orb_true_iff, bool_decide_eq_true. done. }
  destruct (peer_inserts cp (es k) pk pubk pub s (received r) x d p') as (s1 & E & Hp1 & Hq1);
    try done; try apply Hkeys; [by apply received_response|].
  cbn [deliver]. rewrite E. rewrite <- Hp1 in Hp'.
  destruct (IH (S k) s1 rs' g1 Hp') as (s' & g' & E' & Hs' & Hq' & Hg' & Hall & Hback); auto.
  exists s', g'. split_and!; try done.
  - congruence.
  - auto.
  - constructor; auto.
  - intros z Hz. destruct (Hback z Hz) as [Hz1|(w & Hw & Ew)].
    + destruct (Hnew z Hz1) as [?|?]; [by left|right]. exists x. split; [left|done].
    + right. exists w. split; [by right|done].
Qed.

(** The peer requests exactly the pins it wants. *)
Lemma requested_wanted f :
  exists xs, missing_prevs (rev (part f chain)) = map Sign xs /\ Forall (wanted f) xs
  /\ (forall x, wanted f x -> exists x', x' ∈ xs /\ Sign x' = Sign x).
Proof.
  assert (Forall (fun b => exists x, b = Sign x /\ wanted f x)
            (missing_prevs (rev (part f chain)))) as HF.
  { apply Forall_forall. intros b [i Hi]%elem_of_missing.
    destruct (gap_in_chain _ _ _ _ Hchain Hi) as (a & x & y & d & E & Hx & Hy & ->).
    exists x. split; [done|]. by exists a, y, d. }
  assert (exists xs, missing_prevs (rev (part f chain)) = map Sign xs /\ Forall (wanted f) xs)
    as (xs & E & Hxs).
  { induction HF as [|b l (x & -> & Hx) _ (xs & -> & Hxs)]; [by exists []|].
    exists (x :: xs). auto. }
  exists xs. split_and!; [done..|]. intros x (a & y & d & Ec & Hx & Hy).
  assert (Sign x ∈ map Sign xs) as (x' & ? & ?)%list_elem_of_fmap; [|by exists x'].
  rewrite <- E. apply elem_of_missing. pose proof Hchain as Hc. rewrite Ec in Hc |- *.
  by apply gap_requested.
Qed.

(** What holds between two rounds: nothing is waiting, the leader has the
    chain and the peer has the pins [f] of it, [k] being its last. *)
Record between (f : TxPin -> bool) (k : nat) (leader peer : SyncNode) : Prop := {
  bt_leader : pins (sn_pins leader) = chain;
  bt_leader_queue : sn_queue leader = [];
  bt_peer : pins (sn_pins peer) = part f chain;
  bt_peer_queue : sn_queue peer = [];
  bt_last : exists x, chain !! k = Some x /\ f x = true;
  bt_after : forall j z, (k < j)%nat -> chain !! j = Some z -> f z = false
}.

Lemma pin_request_publishable b m :
  pin_request b m -> Msg_Type m <> STX_STOP /\ whenToPublish (Msg_Type m) = true.
Proof. intros [Hm _]. by eapply publishable. Qed.

Lemma pin_response_publishable a b d m :
  pin_response a b d m -> Msg_Type m <> STX_STOP /\ whenToPublish (Msg_Type m) = true.
Proof. intros (Hm & _). by eapply publishable. Qed.

Lemma round_grows es f k leader peer :
  between f k leader peer ->
  exists leader' peer' g, sync_round cl cp es leader peer = Some (Return (leader', peer'))
  /\ between g k leader' peer' /\ (forall z, f z = true -> g z = true)
  /\ (forall x, wanted f x -> g x = true).
Proof.
  intros [Hl Hlq Hp Hpq Hlast Hafter]. unfold sync_round, SyncPin. rewrite Hp.
  destruct (requested_wanted f) as (xs & -> & Hxs & Hall).
  assert (Hin : Forall (fun x => x ∈ chain) xs).
  { eapply Forall_impl; [exact Hxs|]. intros x. apply wanted_in. }
  destruct Hpeer as [[ppk Hppk] [ppubk Hppubk]].
  destruct (request_all_spec cp es ppk ppubk (map Sign xs) 0 peer Hppk Hppubk)
    as (p1 & ms & -> & Hd1 & Hq1 & Hms).
  { apply Forall_fmap. eapply Forall_impl; [exact Hin|]. intros x Hx. simpl.
    by apply (proj1 (List.Forall_forall _ _) (chain_signed _ Hchain)), list_elem_of_In. }
  rewrite Hpq in Hq1. simpl in Hq1. rewrite Forall2_fmap_l in Hms.
  destruct (publish_all_spec cp ms p1 Hq1) as (p2 & -> & Hd2 & Hq2).
  { eapply Forall2_Forall_r; [exact Hms|]. apply Forall_true. intros x m. apply pin_request_publishable. }
  destruct (deliver_requests es xs 0 leader ms Hl Hin Hms) as (l1 & rs & -> & Hld & Hlq1 & Hrs).
  rewrite Hlq in Hlq1. simpl in Hlq1.
  destruct (publish_all_spec cl rs l1 Hlq1) as (l2 & -> & Hld2 & Hlq2).
  { eapply Forall2_Forall_r; [exact Hrs|]. apply Forall_true. intros x r (d & _ & _ & Hr).
    by eapply pin_response_publishable. }
  destruct (deliver_responses es f xs 0 p2 rs f) as (p3 & g & -> & Hg & Hq3 & Hfg & Hgx & Hback); auto.
  { unfold sn_pins. by rewrite Hd2, Hd1. }
  exists l2, p3, g. split_and!; [done| |done|].
  - split; try congruence.
    + unfold sn_pins. by rewrite Hld2, Hld.
    + destruct Hlast as (x & Hx & Hfx). exists x. auto.
    + intros j z Hj Hz. destruct (g z) eqn:Hgz; [|done]. exfalso.
      destruct (Hback z Hgz) as [Hfz|(x & Hx & E)]; [by rewrite (Hafter j z) in Hfz|].
      rewrite Forall_forall in Hxs. destruct (Hxs x Hx) as (a & y & d & Ec & Hfx & Hfy).
      assert (chain !! length a = Some x) as Hix by (rewrite Ec; apply gap_lookup_x).
      assert (chain !! S (length a) = Some y) as Hiy by (rewrite Ec; apply gap_lookup_y).
      pose proof (chain_Sign_inj _ _ _ _ _ Hchain Hz Hix E). subst j.
      rewrite (Hafter (S (length a)) y) in Hfy; [done|lia|done].
  - intros x Hx. destruct (Hall x Hx) as (x' & Hx' & E). rewrite Forall_forall in Hgx, Hxs.
    rewrite <- (chain_Sign_eq chain x' x Hchain); auto. apply (wanted_in f); auto. by apply (wanted_in f).
Qed.

Lemma complete_stays f g k l p :
  between g k l p -> (forall z, f z = true -> g z = true) ->
  part f chain = take (S k) chain -> part g chain = take (S k) chain.
Proof.
  intros Hb Hfg Hf. destruct Hb as [_ _ _ _ (x & Hx & Hgx) Hafter].
  rewrite <- (take_drop (S k) chain) at 1. rewrite part_app.
  assert (part g (drop (S k) chain) = []) as ->.
  { apply elem_of_nil_inv. intros z [Hgz [j Hj]%list_elem_of_lookup]%elem_of_part.
    rewrite lookup_drop in Hj. rewrite (Hafter (S k + j)%nat z) in Hgz; [done|lia|done]. }
  rewrite app_nil_r. unfold part. apply List.forallb_filter_id, List.forallb_forall.
  intros z Hz%list_elem_of_In. apply Hfg. rewrite <- Hf in Hz. by apply elem_of_part in Hz as [? _].
Qed.

(** Every round fills a gap while there is one. *)
Lemma rounds_converge es f k leader peer n :
  between f k leader peer -> (length chain < length (part f chain) + n)%nat ->
  exists leader' peer', sync_rounds cl cp n es leader peer = Some (Return (leader', peer'))
  /\ pins (sn_pins leader') = chain /\ pins (sn_pins peer') = take (S k) chain.
Proof.
  revert f leader peer. induction n as [|n IH]; intros f leader peer Hb Hn.
  { pose proof (part_length f chain). lia. }
  cbn [sync_rounds]. destruct (round_grows (es n) f k leader peer Hb)
    as (l1 & p1 & g & -> & Hb1 & Hfg & Hw).
  destruct (requested_wanted f) as (xs & E & Hxs & _). destruct xs as [|x xs].
  - (* no gap: the part is complete, and stays so *)
    assert (Hdone : forall m h l p, between h k l p -> part h chain = take (S k) chain ->
      exists l' p', sync_rounds cl cp m es l p = Some (Return (l', p'))
      /\ pins (sn_pins l') = chain /\ pins (sn_pins p') = take (S k) chain).
    { clear - Hleader Hfull Hfull' Hkeys Hpeer Hchain Hwire.
      induction m as [|m IHm]; intros h l p Hb Hh; cbn [sync_rounds].
      - exists l, p. split_and!; [done|apply Hb|]. rewrite <- Hh. apply Hb.
      - destruct (round_grows (es m) h k l p Hb) as (l1 & p1 & g & -> & Hb1 & Hfg & _).
        apply (IHm g); [done|]. eapply complete_stays; eauto. }
    destruct Hb as [_ _ _ _ (x & Hx & Hfx) Hafter]. apply (Hdone n g l1 p1 Hb1).
    eapply complete_stays; eauto. eapply part_no_gap; eauto.
    intros i b Hi. assert (b ∈ missing_prevs (rev (part f chain))) as Hmiss
      by (apply elem_of_missing; by eexists). rewrite E in Hmiss. by apply not_elem_of_nil in Hmiss.
  - apply Forall_cons in Hxs as [Hx _]. apply (IH g l1 p1 Hb1).
    assert (length (part f chain) < length (part g chain))%nat; [|lia].
    apply (part_grows f g chain x); [done|by apply (wanted_in f)| |by apply Hw].
    by destruct Hx as (? & ? & ? & ? & ? & ?).
Qed.
End Rounds.
End Exchange.

(** C11: a peer catches up.  A leader has a chain of pins and a peer, neither of
    them synchronising from snapshots, some of its pins, the last being the
    [k]-th.  After as many rounds as there are pins - the peer requests the
    predecessors it misses, the leader answers each request with the pin of
    that signature, the peer verifies the leader's signature and inserts the
    pin - the peer has exactly the first [k + 1] pins of the chain, in order,
    and the leader's are unchanged.  The leader's keys verify what they sign and
    the pins survive their wire format. *)
Theorem missing_pins_converge
    `{CryptoLib} `{ProtoLib} `{TimestampLib} `{EthLib} `{UuidLib} `{ProtoPinLib}
    `{Goterators} `{MapRange} `{!CollSet uuid}
    `{AnyLib} `{ProtoSyncLib} `{PeerKeys} `{PeerKeyLib} `{Md5Lib}
    RunCall coinbase pb_text undef cl cp pk pubk pub chain f k es leader peer :
  Leader cl = true -> SnapshotSync cl = false -> SnapshotSync cp = false ->
  trusted cl pk pubk pub -> is_Some (host_pk cp) /\ is_Some (host_pubk cp) ->
  pin_chain chain -> Forall transmissible chain ->
  between chain f k leader peer ->
  exists leader' peer',
    sync_rounds RunCall coinbase pb_text undef cl cp (length chain) es leader peer
    = Some (Return (leader', peer'))
    /\ pins (sn_pins leader') = chain /\ pins (sn_pins peer') = take (S k) chain.
Proof.
  intros Hl Hs Hs' Hk Hp Hc Hw Hb. eapply rounds_converge; [done..|exact Hb|].
  destruct (bt_last _ _ _ _ _ Hb) as (x & Hx & Hf).
  assert (0 < length (part f chain))%nat; [|lia].
  assert (x ∈ part f chain) as Hin; [|by destruct (part f chain); [apply not_elem_of_nil in Hin|simpl; lia]].
  apply elem_of_part. split; [done|]. by eapply list_elem_of_lookup_2.
Qed.

(** ** Libraries that compute *)

Definition any_fields_New (m : any_msg) : Any :=
  match m with
  | AInt64 z => {| TypeUrl := if z <? 0 then "-int64" else "int64"; Value := Bytes z |}
  | AInt32 z => {| TypeUrl := if z <? 0 then "-int32" else "int32"; Value := Bytes z |}
  | AString s => {| TypeUrl := "string"; Value := String.list_byte_of_string s |}
  | ABytes b => {| TypeUrl := "bytes"; Value := b |}
  | ANode n => {| TypeUrl := "node"; Value := [] |}
  end.

Definition any_fields_Unmarshal (a : Any) : option any_msg :=
  let z := SetBytes (Value a) in
  if (TypeUrl a =? "int64")%string then Some (AInt64 z)
  else if (TypeUrl a =? "-int64")%string then Some (AInt64 (- z))
  else if (TypeUrl a =? "int32")%string then Some (AInt32 z)
  else if (TypeUrl a =? "-int32")%string then Some (AInt32 (- z))
  else if (TypeUrl a =? "string")%string then Some (AString (String.string_of_list_byte (Value a)))
  else if (TypeUrl a =? "bytes")%string then Some (ABytes (Value a))
  else None.

#[export] Program Instance any_fields : AnyLib := {
  any_New := any_fields_New; UnmarshalNew := any_fields_Unmarshal
}.
Next Obligation.
  intros [z|z|s|b|n] Hok; unfold any_fields_New, any_fields_Unmarshal; simpl in *.
  - destruct (Z.ltb_spec z 0); simpl; rewrite SetBytes_Bytes; do 2 f_equal; lia.
  - destruct (Z.ltb_spec z 0); simpl; rewrite SetBytes_Bytes; do 2 f_equal; lia.
  - by rewrite String.string_of_list_byte_of_string.
  - done.
  - done.
Qed.

(** The pins the libraries below know. *)
#[export] Instance proto_sync_samples : ProtoSyncLib := {
  proto_Unmarshal_TxPin b :=
    fst <$> find_first (fun p => bool_decide (proto_Marshal_TxPin p = Some b)) [pin1; pin2; pin3];
  proto_Marshal_Syncv1 _ := Some []
}.

(** Keys whose signatures are the key and the message. *)
#[export] Instance peer_keys_plain : PeerKeys := {
  pk_Sign k m := Some (k ++ m); pk_Verify p m s := Some (bool_decide (s = p ++ m))
}.
#[export] Instance peer_key_plain : PeerKeyLib := { UnmarshalPublicKey b := Some b }.
#[export] Instance md5_pad : Md5Lib := { md5 := pad_to 16 }.

Definition leader_config : SyncConfig :=
  {| SnapshotSync := false; NodeType := 0; Leader := true; host_pk := Some [x07]; host_pubk := Some [x07] |}.
Definition peer_config : SyncConfig :=
  {| SnapshotSync := false; NodeType := 0; Leader := false; host_pk := Some [x08]; host_pubk := Some [x08] |}.

Definition sample_peer (l : list TxPin) : SyncNode :=
  {| sn_dag := with_world empty_world (with_w_pins (world empty_world) (with_pins newNodeTxPin l));
     sn_sm := ∅; sn_queue := []; HaveJoined := false; SitesProcessed := false |}.

Definition sample_env (k : nat) : env :=
  {| e_now := 0; e_id := N.of_nat k; e_id2 := N.of_nat k |}.

(** A peer that has the last of three pins. *)
Lemma missing_pins_converge_witness :
  exists leader' peer',
    sync_rounds sample_vm "0x" (fun _ => ""%string) (fun _ => 0) leader_config peer_config 3
      (fun n k => sample_env (3 * n + k)) (sample_peer [pin1; pin2; pin3]) (sample_peer [pin3])
    = Some (Return (leader', peer'))
    /\ pins (sn_pins leader') = [pin1; pin2; pin3] /\ pins (sn_pins peer') = [pin1; pin2; pin3].
Proof.
  apply (missing_pins_converge sample_vm "0x" (fun _ => ""%string) (fun _ => 0) leader_config peer_config
           [x07] [x07] [x07] [pin1; pin2; pin3] (fun p => bool_decide (Sign p = Sign pin3)) 2
           (fun n k => sample_env (3 * n + k)) (sample_peer [pin1; pin2; pin3]) (sample_peer [pin3])).
  - reflexivity.
  - reflexivity.
  - reflexivity.
  - split; try reflexivity. intros h. simpl. by rewrite bool_decide_true.
  - split; eexists; reflexivity.
  - exact sample_chain.
  - repeat constructor; eexists; (split; [vm_compute; reflexivity|vm_compute; reflexivity]).
  - split; try (vm_compute; reflexivity).
    + exists pin3. split; [reflexivity|vm_compute; reflexivity].
    + intros [|[|[|j]]] z Hj Hz; [lia..|discriminate Hz].
Defined.
