(* ===== verification/SyncLoops.v ===== *)
(** The start-up of the synchronisation: [syncUpPeer] of
    [dag/synchandle.go] with its goroutines [syncUpPin] and [syncUpSites], and
    the loop [SyncSnapshot] of [dag/syncpin.go].

    A loop takes one round after the other.  A round carries what the code
    reads from outside: the clock and new ids, what the other goroutines do
    during its waits, and whether it finds the stop flag set.  A loop that has
    not returned when its rounds are used up gives [None]. *)
From S2P Require Import Prelude GoLib Dfs Bytes StateMachine Tx TxRecords Storage Pool WalletCache Node Pin.
From S2P Require Import PinProps PinSync Confirmation Weights Dag Sync SyncProps.

Section Loops.
Context `{CryptoLib} `{ProtoLib} `{TimestampLib} `{EthLib} `{UuidLib} `{ProtoPinLib}.
Context `{Goterators} `{MapRange} `{!CollSet uuid}.
Context `{AnyLib} `{ProtoSyncLib} `{PeerKeys} `{PeerKeyLib} `{Md5Lib}.
Variable c : SyncConfig.

Record round := {
  rd_stop : bool;                          (** the stop flag at the head of the loop *)
  rd_env : env;
  rd_during : SyncNode -> SyncNode;        (** while the request is published *)
  rd_timer : SyncNode -> SyncNode          (** while the timer runs *)
}.

(** One round of [syncUpPin] and of [syncUpSites]: errors of the requests are
    ignored. *)
Definition pin_round (r : round) (s : SyncNode) : SyncNode :=
  rd_timer r (fst (announceLatestPin c (rd_env r) (rd_during r) s)).

Definition site_round (r : round) (s : SyncNode) : SyncNode :=
  rd_timer r (fst (requestSitesFromLeader c (rd_env r) (rd_during r) s)).

Fixpoint syncUpPin (rounds : list round) (s : SyncNode) : option SyncNode :=
  match rounds with
  | [] => None
  | r :: rest =>
      if rd_stop r then Some s
      else let s := pin_round r s in if HaveJoined s then Some s else syncUpPin rest s
  end.

Fixpoint syncUpSites (rounds : list round) (s : SyncNode) : option SyncNode :=
  match rounds with
  | [] => None
  | r :: rest =>
      if rd_stop r then Some s
      else let s := site_round r s in if SitesProcessed s then Some s else syncUpSites rest s
  end.

(** The two goroutines take rounds in some order; [true] is a round of the pins. *)
Fixpoint announce (pins sites : bool) (rounds : list (bool * round)) (s : SyncNode) : option SyncNode :=
  if negb pins && negb sites then Some s
  else
    match rounds with
    | [] => None
    | (true, r) :: rest =>
        if negb pins then announce pins sites rest s
        else if rd_stop r then announce false sites rest s
        else let s := pin_round r s in announce (negb (HaveJoined s)) sites rest s
    | (false, r) :: rest =>
        if negb sites then announce pins sites rest s
        else if rd_stop r then announce pins false rest s
        else let s := site_round r s in announce pins (negb (SitesProcessed s)) rest s
    end.

Definition syncUpPeer (rounds : list (bool * round)) (s : SyncNode) : option SyncNode :=
  announce (negb (SnapshotSync c)) true rounds s.

(** ** Snapshots *)

Record snapshot_round := {
  sr_env : env;
  sr_during : SyncNode -> SyncNode;
  sr_ticks : list (SyncNode -> SyncNode)   (** before each poll of the wait for the answer *)
}.

(** [waitForSMInLoop]; both looks of a poll see the machine as the others left it. *)
Fixpoint wait_handled (ticks : list (SyncNode -> SyncNode)) (s : SyncNode) (id : uuid) : SyncNode * bool :=
  match ticks with
  | [] => (s, false)
  | f :: rest =>
      let s := f s in
      if snd (waitForSM (sn_sm s) (default NewSyncStateMachine (sn_sm s !! id)) id SYNC_HANDLE_END)
      then (s, true) else wait_handled rest s id
  end.

Fixpoint SyncSnapshot (rounds : list snapshot_round) (s : SyncNode) : option SyncNode :=
  match rounds with
  | [] => None
  | r :: rest =>
      if IsReady (sn_pins s) then Some s
      else
        let '(s, sent) := sendSnapshotRequest c (sr_env r) (sr_during r) s in
        if negb sent then SyncSnapshot rest s
        else
          let '(s, handled) := wait_handled (sr_ticks r) s (e_id (sr_env r)) in
          if handled then Some (remove s (e_id (sr_env r))) else SyncSnapshot rest s
  end.

(** ** Properties *)

(** The others only set the flags of the manager. *)
Definition keeps_flags (f : SyncNode -> SyncNode) : Prop :=
  forall s, (HaveJoined s = true -> HaveJoined (f s) = true) /\
            (SitesProcessed s = true -> SitesProcessed (f s) = true).

Definition round_ok (r : round) : Prop :=
  rd_stop r = false /\ keeps_flags (rd_during r) /\ keeps_flags (rd_timer r).

Lemma keeps_flags_comp f g : keeps_flags f -> keeps_flags g -> keeps_flags (fun s => f (g s)).
Proof using Type. intros Hf Hg s. destruct (Hg s), (Hf (g s)). auto. Qed.

Lemma pin_round_flags r : round_ok r -> keeps_flags (pin_round r).
Proof using Type.
  intros (_ & Hd & Ht).
  apply (keeps_flags_comp (rd_timer r) (fun s => fst (announceLatestPin c (rd_env r) (rd_during r) s)) Ht). intros s.
  unfold announceLatestPin, transactLatestPin. repeat (case_match; simpl; try done);
    unfold dispatch_and_wait; simpl; match goal with |- context [rd_during r ?x] => exact (Hd x) end.
Qed.

Lemma site_round_flags r : round_ok r -> keeps_flags (site_round r).
Proof using Type.
  intros (_ & Hd & Ht).
  apply (keeps_flags_comp (rd_timer r) (fun s => fst (requestSitesFromLeader c (rd_env r) (rd_during r) s)) Ht). intros s.
  unfold requestSitesFromLeader. repeat (case_match; simpl; try done).
  match goal with |- context [rd_during r ?x] => exact (Hd x) end.
Qed.

(** A peer is ready only when it is in sync. When no stop is requested and the
    other goroutines only set the flags of the manager, syncUpPeer returns
    only after the request for the sites was answered and, unless the peer
    synchronises from snapshots, the announcement of its pin as well. *)
Theorem syncUpPeer_waits rounds s s' :
  Forall (fun r => round_ok r.2) rounds -> syncUpPeer rounds s = Some s' ->
  SitesProcessed s' = true /\ (SnapshotSync c = false -> HaveJoined s' = true).
Proof using Type.
  intros Hok Hr. unfold syncUpPeer in Hr.
  assert (forall pins sites s, announce pins sites rounds s = Some s' ->
    (pins = false -> SnapshotSync c = false -> HaveJoined s = true) -> (sites = false -> SitesProcessed s = true) ->
    SitesProcessed s' = true /\ (SnapshotSync c = false -> HaveJoined s' = true)) as Hgen.
  { clear Hr s. induction Hok as [|[b r] rounds Hr1 Hok IH]; intros pins sites s Hr Hp Hs; simpl in Hr.
    - destruct pins, sites; simpl in Hr; simplify_eq; auto.
    - destruct (negb pins && negb sites) eqn:E.
      { apply andb_true_iff in E as [Ep%negb_true_iff Es%negb_true_iff]. simplify_eq. auto. }
      pose proof (proj1 Hr1) as Hstop. simpl in Hstop. rewrite Hstop in Hr.
      destruct (pin_round_flags r Hr1 s) as [P1 P2]. destruct (site_round_flags r Hr1 s) as [S1 S2].
      destruct b; [destruct pins|destruct sites]; simpl in Hr;
        (eapply IH; [exact Hr|..]); rewrite ?negb_false_iff; auto. }
  eapply Hgen; [exact Hr|by intros ->%negb_false_iff|done].
Qed.

(** The machine of a request never queries. *)
Definition quiet_state (st : State) : bool :=
  bool_decide (st = SYNC_ZERO_STATE) || dispatch_side st.

Definition quiet (sm : machines) (id : uuid) : Prop :=
  forall m, sm !! id = Some m -> stateChanges m = sync_sc /\ quiet_state (currentState m) = true.

Lemma quiet_reset sm id id' : quiet sm id -> quiet (resetSM sm id') id.
Proof using Type.
  intros Hq m. unfold resetSM. destruct (decide (id' = id)) as [->|Hne].
  - rewrite lookup_insert_eq. intros [= <-]. done.
  - rewrite lookup_insert_ne, lookup_delete_ne by done. apply Hq.
Qed.

Lemma reset_quiet sm id : quiet (resetSM sm id) id.
Proof using Type. intros m. unfold resetSM. rewrite lookup_insert_eq. by intros [= <-]. Qed.

Lemma quiet_delete sm id id' : quiet sm id -> quiet (deleteSM sm id') id.
Proof using Type. intros Hq m. unfold deleteSM. intros [_ Hm]%lookup_delete_Some. by apply Hq. Qed.

Lemma quiet_edge a b : edge a b -> quiet_state a = true -> b <> SYNC_QUERY_BEGIN -> quiet_state b = true.
Proof using Type. by destruct 1. Qed.

Lemma quiet_change sm id id' st : st <> SYNC_QUERY_BEGIN -> quiet sm id -> quiet (changeToSM sm id' st) id.
Proof using Type.
  intros Hst Hq m. destruct (decide (id' = id)) as [->|Hne].
  - rewrite changeToSM_lookup. destruct (sm !! id) as [m0|] eqn:E; [|done]. destruct (Hq m0 E) as [Ht Hs].
    destruct (SyncChangeTo m0 st false) as [m1| |] eqn:Ec; intros [= <-]; try done.
    pose proof (SyncChangeTo_follows (currentState m0) m0 st m1 (conj Ht (rtc_refl _ _)) Ec) as [[Ht1 _] Hst1].
    split; [done|]. unfold SyncChangeTo, canChangeTo in Ec. rewrite Ht in Ec.
    destruct (CanChangeState sync_sc (currentState m0) st) eqn:Ecan; simpl in Ec; [|done].
    rewrite Hst1. eapply quiet_edge; [by apply edge_CanChangeState|done..].
  - unfold changeToSM. repeat case_match; rewrite ?lookup_insert_ne by done; apply Hq.
Qed.

Definition keeps_quiet (id : uuid) (f : SyncNode -> SyncNode) : Prop :=
  forall s, quiet (sn_sm s) id -> quiet (sn_sm (f s)) id.

(** The publisher is such a goroutine. *)
Lemma syncPublish_quiet n id : keeps_quiet id (fun s => fst (syncPublish c n s)).
Proof using Type.
  intros s Hq. unfold syncPublish. repeat (case_match; simpl; try done); unfold change, reset; simpl;
    auto using quiet_change, quiet_reset.
Qed.

Lemma sendSnapshotRequest_quiet e during s :
  keeps_quiet (e_id e) during -> snd (sendSnapshotRequest c e during s) = true ->
  quiet (sn_sm (fst (sendSnapshotRequest c e during s))) (e_id e).
Proof using Type.
  intros Hk. unfold sendSnapshotRequest. repeat (case_match; simpl; try done). intros _.
  apply Hk. simpl. apply quiet_change; [done|]. apply reset_quiet.
Qed.

Lemma wait_handled_never id ticks s :
  Forall (keeps_quiet id) ticks -> quiet (sn_sm s) id -> snd (wait_handled ticks s id) = false.
Proof using Type.
  intros Hk. revert s. induction Hk as [|f ticks Hf _ IH]; intros s Hq; simpl; [done|].
  specialize (Hf s Hq). destruct (sn_sm (f s) !! id) as [m|] eqn:E.
  - simpl. rewrite (waitForSM_same _ _ _ _ E). simpl. destruct (Hf m E) as [_ Hs].
    rewrite bool_decide_false; [by apply IH|]. intros Em. by rewrite Em in Hs.
  - unfold waitForSM. rewrite E. simpl. by apply IH.
Qed.

(** The snapshot loop ends by readiness alone. When the other goroutines use
    the machine of a request only to publish, cancel or handle it, the wait of
    SyncSnapshot for the handling of the answer never succeeds, however the
    answer arrives, so the loop returns only after it finds the pins ready. *)
Theorem SyncSnapshot_returns_ready rounds s s' :
  Forall (fun r => keeps_quiet (e_id (sr_env r)) (sr_during r) /\ Forall (keeps_quiet (e_id (sr_env r))) (sr_ticks r)) rounds ->
  SyncSnapshot rounds s = Some s' -> IsReady (sn_pins s') = true.
Proof using Type.
  intros Hok. revert s. induction Hok as [|r rounds [Hd Ht] Hok IH]; intros s Hr; simpl in Hr; [done|].
  destruct (IsReady (sn_pins s)) eqn:E; [by simplify_eq|].
  pose proof (sendSnapshotRequest_quiet (sr_env r) (sr_during r) s Hd) as Hq.
  destruct (sendSnapshotRequest c (sr_env r) (sr_during r) s) as [s1 sent]. simpl in *.
  destruct sent; simpl in Hr; [|by eapply IH].
  pose proof (wait_handled_never _ _ s1 Ht (Hq eq_refl)) as Hw.
  destruct (wait_handled (sr_ticks r) s1 (e_id (sr_env r))) as [s2 b]. simpl in Hw. rewrite Hw in Hr. by eapply IH.
Qed.
End Loops.

(** ** A peer that starts *)

Definition answered_round (f : SyncNode -> SyncNode) : round :=
  {| rd_stop := false; rd_env := sample_env 5; rd_during := fun s => s; rd_timer := f |}.

(** The answer for the sites comes in the first round, the one for the pin in the second. *)
Definition sample_rounds : list (bool * round) :=
  [(true, answered_round (fun s => s)); (false, answered_round set_processed); (true, answered_round set_joined)].

Lemma syncUpPeer_waits_witness :
  exists s', syncUpPeer peer_config sample_rounds (sample_peer []) = Some s' /\
    SitesProcessed s' = true /\ HaveJoined s' = true.
Proof.
  destruct (syncUpPeer peer_config sample_rounds (sample_peer [])) as [s'|] eqn:E;
    [|vm_compute in E; discriminate E].
  exists s'. destruct (syncUpPeer_waits peer_config sample_rounds (sample_peer []) s') as [H1 H2].
  - repeat constructor; auto.
  - exact E.
  - split; [reflexivity|]. split; [exact H1|]. apply H2. reflexivity.
Defined.

(** The request is published, and while the loop waits the pins become ready. *)
Definition snapshot_rounds : list snapshot_round :=
  replicate 2 {| sr_env := sample_env 5;
    sr_during := fun s => fst (syncPublish peer_config {| peers_known := true; publish_ok := true |} s);
    sr_ticks := [fun s => with_sn_pins s {| pins := pins (sn_pins s); ready := true; downloadedPins := []; downloadsClosed := false |}] |}.

Lemma SyncSnapshot_returns_ready_witness :
  exists s', SyncSnapshot peer_config snapshot_rounds (sample_peer []) = Some s' /\ IsReady (sn_pins s') = true.
Proof.
  destruct (SyncSnapshot peer_config snapshot_rounds (sample_peer [])) as [s'|] eqn:E;
    [|vm_compute in E; discriminate E].
  exists s'. split; [reflexivity|].
  apply (SyncSnapshot_returns_ready peer_config snapshot_rounds (sample_peer []) s'); [|exact E].
  unfold snapshot_rounds. apply Forall_replicate. split; [apply syncPublish_quiet|].
  apply Forall_cons. split; [intros s Hq; exact Hq|apply Forall_nil; exact I].
Defined.
