(* ===== verification/SyncSnapshot.v ===== *)
(** Synchronisation from a snapshot: what a peer that asks the leader for the
    balances ends with, and what its other messages do afterwards. *)
From S2P Require Import Prelude GoLib Bytes StateMachine Tx TxRecords Storage Pool WalletCache Node Pin.
From S2P Require Import PinProps PinSync Confirmation Weights Dag DagProps DagSteps Sync PinGaps SyncProps.

(** ** Reading the details of a snapshot *)

Section Details.
Context `{AnyLib}.

Definition wallet_details (kv : string * bytes) : list Any :=
  [any_New (AString (fst kv)); any_New (ABytes (snd kv))].

Lemma detail_New pre m post :
  scalar_ok m -> detail (pre ++ any_New m :: post) (length pre) = Return m.
Proof.
  intros Hm. unfold detail. rewrite lookup_app_r, Nat.sub_diag by done. simpl.
  by rewrite UnmarshalNew_New.
Qed.

Lemma apply_snapshot_spec l : forall pre b,
  Forall (fun kv => ascii_string (fst kv) = true) l -> b <> ∅ ->
  apply_snapshot (pre ++ flat_map wallet_details l) (length pre) (length l) b
  = Return (foldl (fun m kv => <[fst kv := snd kv]> m) b l).
Proof.
  induction l as [|[w x] l IH]; intros pre b Hl Hb; [done|].
  apply Forall_cons in Hl as [Hw Hl]. cbn [flat_map length apply_snapshot].
  change (wallet_details (w, x) ++ flat_map wallet_details l)
    with (any_New (AString w) :: any_New (ABytes x) :: flat_map wallet_details l).
  rewrite detail_New by done. cbn [outcome_bind as_string].
  replace (length pre + 1)%nat with (length (pre ++ [any_New (AString w)]))
    by (rewrite length_app; simpl; lia).
  replace (pre ++ any_New (AString w) :: any_New (ABytes x) :: flat_map wallet_details l)
    with ((pre ++ [any_New (AString w)]) ++ any_New (ABytes x) :: flat_map wallet_details l)
    by (by rewrite <- app_assoc).
  rewrite detail_New by done. cbn [outcome_bind as_bytes]. rewrite bool_decide_false by done.
  rewrite cons_middle, !app_assoc.
  replace (length pre + 2)%nat
    with (length ((pre ++ [any_New (AString w)]) ++ [any_New (ABytes x)]))
    by (rewrite !length_app; simpl; lia).
  rewrite IH; [done|done|]. apply insert_non_empty.
Qed.

Lemma detail_0 m post : scalar_ok m -> detail (any_New m :: post) 0 = Return m.
Proof. exact (detail_New [] m post). Qed.
Lemma detail_1 x m post : scalar_ok m -> detail (x :: any_New m :: post) 1 = Return m.
Proof. exact (detail_New [x] m post). Qed.
Lemma apply_snapshot_2 l x y b :
  Forall (fun kv => ascii_string (fst kv) = true) l -> b <> ∅ ->
  apply_snapshot (x :: y :: flat_map wallet_details l) 2 (length l) b
  = Return (foldl (fun m kv => <[fst kv := snd kv]> m) b l).
Proof. exact (apply_snapshot_spec l [x; y] b). Qed.
End Details.

Lemma foldl_inserts (l : list (string * bytes)) (b : gmap string bytes) :
  NoDup (l.*1) -> foldl (fun m kv => <[fst kv := snd kv]> m) b l = list_to_map l ∪ b.
Proof.
  revert b. induction l as [|[w x] l IH]; intros b Hnd; simpl; [by rewrite map_empty_union|].
  apply NoDup_cons in Hnd as [Hw Hnd]. rewrite IH by done.
  rewrite <- insert_union_r; [by rewrite insert_union_l|]. by apply not_elem_of_list_to_map_1.
Qed.

Lemma map_range_inserts `{MapRange} (m b : gmap string bytes) :
  foldl (fun m kv => <[fst kv := snd kv]> m) b (map_range m) = m ∪ b.
Proof.
  assert (NoDup ((map_range m).*1)) as Hnd.
  { rewrite map_range_perm. apply NoDup_fst_map_to_list. }
  rewrite foldl_inserts by done. f_equal. rewrite <- (list_to_map_to_list m) at 2.
  apply list_to_map_proper; [done|]. apply map_range_perm.
Qed.

(** ** The exchange *)

Lemma latest_in_rev_snoc l x w :
  latest_in (rev (l ++ [x])) w
  = match Balance x !! w with Some v => Some v | None => latest_in (rev l) w end.
Proof. by rewrite rev_unit. Qed.

Section Exchange.
Context `{CryptoLib} `{ProtoLib} `{TimestampLib} `{EthLib} `{UuidLib} `{ProtoPinLib}.
Context `{Goterators} `{MapRange} `{!CollSet uuid}.
Context `{AnyLib} `{ProtoSyncLib} `{PeerKeys} `{PeerKeyLib} `{Md5Lib}.
Variable RunCall : Storage -> pb_Txv1 -> PinTxHeader -> Storage * (CallResponse + string).
Variable coinbase : string.
Variable pb_text : pb_Txv1 -> string.
Variable undef : string -> Z.

(** What a leader's latest pin must satisfy for its snapshot to be readable. *)
Record snapshot_ok (p : NodeTxPin) (latest : TxPin) : Prop := {
  so_last : getLast p = Some latest;
  so_number : 0 <= PinNumber latest < 2 ^ 63;
  so_order : Forall (fun x => PinNumber x <= PinNumber latest) (pins p);
  so_balance : Balance latest <> ∅;
  so_size : Z.of_nat (size (GetPinnedBalances p (PinNumber latest))) < 2 ^ 31;
  so_ascii : forall w b, GetPinnedBalances p (PinNumber latest) !! w = Some b -> ascii_string w = true
}.

Lemma pinned_latest p latest w :
  snapshot_ok p latest -> GetPinnedBalances p (PinNumber latest) !! w = latest_in (rev (pins p)) w.
Proof.
  intros Ho. unfold GetPinnedBalances. rewrite pinned_until_spec by apply Ho.
  by destruct (latest_in _ _).
Qed.

(** The peer applies the leader's message. *)
Lemma apply_leader_snapshot e p latest id pubk pk peer :
  snapshot_ok p latest -> transmissible latest -> ready (sn_pins peer) = false ->
  exists b, handleLatestBalances peer (received (sign (snapshot_message e p latest id pubk) pk))
  = Return (with_sn_pins peer
              {| pins := pins (sn_pins peer) ++ [set_Balance latest b]; ready := true;
                 downloadedPins := downloadedPins (sn_pins peer);
                 downloadsClosed := downloadsClosed (sn_pins peer) |}, true)
  /\ forall w, b !! w = latest_in (rev (pins p)) w.
Proof.
  intros Ho (d & Hd & Hu) Hr. set (bal := GetPinnedBalances p (PinNumber latest)).
  exists (bal ∪ Balance latest). split.
  - unfold handleLatestBalances. rewrite Hr.
    unfold received, sign, snapshot_message, Syncv1_GenerateSignature, Syncv1FromProtobuf, Syncv1_ToProtobuf.
    cbn [fst new_message s_Data pb_s_Data Details pb_Details with_pins pins]. rewrite Hd. simpl (default [] _).
    rewrite Hu. fold bal.
    pose proof (so_number _ _ Ho) as Hn. pose proof (so_size _ _ Ho) as Hsize. fold bal in Hsize.
    set (n := to_int32 (Z.of_nat (size bal))).
    assert (n = Z.of_nat (size bal)) as En by (unfold n, to_int32, swrap; rewrite Z.mod_small; lia).
    change (balance_details bal) with (flat_map wallet_details (map_range bal)).
    rewrite detail_0 by (simpl; lia). cbn [outcome_bind as_int64].
    unfold CurrentHeight. cbn [pins with_pins]. rewrite last_snoc, Z.eqb_refl. cbn [negb].
    rewrite detail_1 by (simpl; lia). cbn [outcome_bind as_int32].
    replace (Z.to_nat n) with (length (map_range bal))
      by (rewrite map_range_perm, length_map_to_list; lia).
    rewrite apply_snapshot_2.
    + cbn [outcome_bind]. rewrite map_range_inserts, removelast_last. done.
    + apply Forall_forall. intros [w b] Hin. rewrite map_range_perm, elem_of_map_to_list in Hin.
      by apply (so_ascii _ _ Ho w b).
    + apply Ho.
  - intros w. rewrite lookup_union. unfold bal. rewrite (pinned_latest p latest w Ho).
    destruct (latest_in (rev (pins p)) w) eqn:E; [by destruct (Balance latest !! w)|].
    pose proof (so_last _ _ Ho) as Hl. unfold getLast in Hl. apply last_Some in Hl as [l Hl].
    rewrite Hl, latest_in_rev_snoc in E. by destruct (Balance latest !! w).
Qed.

(** The message the leader answers a request with. *)
Definition snapshot_answer (c : SyncConfig) (e : env) (p : NodeTxPin) (latest : TxPin) (id : uuid) : Syncv1 :=
  sign (snapshot_message e p latest id (default [] (host_pubk c))) (default [] (host_pk c)).

(** C12: a snapshot transfers the ledger.  The leader has a key, and a latest
    pin whose number is the largest, fits 63 bits, has balances (a peer panics
    on a snapshot whose pin has none) and survives its encoding; fewer than 2^31
    wallets are pinned, with names of ASCII characters.  Asked for the balances
    with a proper tracking id, the leader puts one message into its queue, and is done when the publisher has
    published it.  A peer in snapshot mode that is not ready, has a request open
    under that id and handles that message becomes ready, is at the leader's height, and for every wallet finds the
    balance the leader's pins have; a wallet they do not know keeps what the
    peer's own pins say. *)
Theorem snapshot_transfers_ledger cl cp h hp leader peer latest req :
  Leader cl = true -> SnapshotSync cp = true ->
  is_Some (host_pk cl) -> is_Some (host_pubk cl) ->
  is_message req CURRENT STX_SNAPSHOT_BALANCE_REQUEST = true -> uuid_ok (Tracking_Id req) ->
  snapshot_ok (sn_pins leader) latest -> transmissible latest ->
  ready (sn_pins peer) = false -> currentSM (sn_sm peer) (Tracking_Id req) <> SYNC_ZERO_STATE ->
  let id := Tracking_Id req in
  let m := snapshot_answer cl (h_env h) (sn_pins leader) latest id in
  (forall publisher rest, h_attempts h = publisher :: rest ->
     let s := publisher (Enqueue (reset leader id) m) in
     published s id = true ->
     syncSubscribe cl RunCall coinbase pb_text undef h leader req = Some (Return (remove s id)))
  /\ exists peer', syncSubscribe cp RunCall coinbase pb_text undef hp peer (received m)
                   = Some (Return peer')
  /\ IsReady (sn_pins peer') = true
  /\ CurrentHeight (sn_pins peer') = CurrentHeight (sn_pins leader)
  /\ forall w, unsafe_getLatestBalance (sn_pins peer') w
     = match unsafe_getLatestBalance (sn_pins leader) w with
       | Some b => Some b
       | None => unsafe_getLatestBalance (sn_pins peer) w
       end.
Proof.
  intros Hl Hs [pk Hpk] [pubk Hpubk] Hreq Hid Ho Ht Hr Hsm id m. split.
  - intros publisher rest Hat s Hp. unfold syncSubscribe. dispatch Hreq. rewrite Hl. simpl.
    unfold respondLatestBalances. change (sn_pins (reset leader (Tracking_Id req))) with (sn_pins leader).
    rewrite Hpk, (so_last _ _ Ho), Hpubk, Hat. cbn [enqueue_until].
    subst s m. unfold snapshot_answer in *. rewrite Hpk, Hpubk in *. simpl default in *.
    change (Tracking_Id (sign _ _)) with id. fold id. by rewrite Hp.
  - assert (is_message (received m) CURRENT STX_SNAPSHOT_BALANCE_RESPONSE = true) as Hm
      by (by apply received_kind).
    assert (Tracking_Id (received m) = id) as Eid.
    { unfold received, Syncv1FromProtobuf. simpl. by apply uuid_UnmarshalBinary_bytes. }
    destruct (apply_leader_snapshot (h_env h) (sn_pins leader) latest id (default [] (host_pubk cl))
                (default [] (host_pk cl)) (change peer id SYNC_HANDLE_BEGIN)) as (b & E & Hb); try done.
    unfold syncSubscribe. dispatch Hm. rewrite Eid, Hs. rewrite (bool_decide_false (currentSM (sn_sm peer) id = SYNC_ZERO_STATE)) by exact Hsm. simpl.
    fold (snapshot_answer cl (h_env h) (sn_pins leader) latest id) in E. fold m in E.
    rewrite E. eexists. split; [reflexivity|]. split; [done|]. split.
    + unfold CurrentHeight. simpl. rewrite last_snoc. pose proof (so_last _ _ Ho) as Hlast. unfold getLast in Hlast. by rewrite Hlast.
    + intros w. unfold unsafe_getLatestBalance. simpl. rewrite latest_in_rev_snoc. simpl. rewrite Hb.
      by destruct (latest_in (rev (pins (sn_pins leader))) w).
Qed.
End Exchange.

(** ** A leader with two pins and a peer that waits for its snapshot *)

Definition rich_pin : TxPin := set_Balance pin3 {["a"%string := [x05]]}.
Definition rich_leader : SyncNode := sample_peer [set_Balance pin2 {["b"%string := [x07]]}; rich_pin].

(** The pin above and its wire format. *)
#[local] Instance proto_sync_rich : ProtoSyncLib := {
  proto_Unmarshal_TxPin b := if bool_decide (proto_Marshal_TxPin rich_pin = Some b) then Some rich_pin else None;
  proto_Marshal_Syncv1 _ := Some []
}.

Definition snapshot_config : SyncConfig :=
  {| SnapshotSync := true; NodeType := 0; Leader := false; host_pk := Some [x08]; host_pubk := Some [x08] |}.

Definition waiting_peer : SyncNode :=
  fst (sendSnapshotRequest snapshot_config (sample_env 9) (fun s => s) (sample_peer [])).

Definition balance_request : Syncv1 :=
  received (new_message (sample_env 9) CURRENT STX_SNAPSHOT_BALANCE_REQUEST 9%N [x08] (Some []) [] []).

Lemma snapshot_transfers_ledger_witness :
  exists peer', syncSubscribe snapshot_config sample_vm "0x" (fun _ => ""%string)
      (fun _ => 0) (quiet (sample_env 1)) waiting_peer
      (received (snapshot_answer leader_config (sample_env 0) (sn_pins rich_leader) rich_pin 9%N))
    = Some (Return peer')
  /\ IsReady (sn_pins peer') = true
  /\ unsafe_getLatestBalance (sn_pins peer') "a"%string = Some 5
  /\ unsafe_getLatestBalance (sn_pins peer') "b"%string = Some 7.
Proof.
  pose proof (snapshot_transfers_ledger sample_vm "0x" (fun _ => ""%string) (fun _ => 0)
    leader_config snapshot_config (quiet (sample_env 0)) (quiet (sample_env 1)) rich_leader waiting_peer
    rich_pin balance_request) as T.
  destruct T as [_ (peer' & E & Hr & _ & Hw)].
  - reflexivity.
  - reflexivity.
  - eexists. reflexivity.
  - eexists. reflexivity.
  - reflexivity.
  - reflexivity.
  - split; [reflexivity|vm_compute; split; congruence| |vm_compute; congruence|reflexivity|].
    + repeat constructor; simpl; lia.
    + intros w b. assert (GetPinnedBalances (sn_pins rich_leader) (PinNumber rich_pin)
        = {["a"%string := [x05]; "b"%string := [x07]]}) as -> by (vm_compute; reflexivity).
      rewrite lookup_insert_Some, lookup_singleton_Some. intros [[<- _]|[_ [<- _]]]; reflexivity.
  - eexists. split; vm_compute; reflexivity.
  - reflexivity.
  - vm_compute. congruence.
  - exists peer'. split; [exact E|]. split; [exact Hr|].
    split; [rewrite (Hw "a"%string)|rewrite (Hw "b"%string)]; vm_compute; reflexivity.
Defined.
