(* ===== verification/SyncInv.v ===== *)
(** What the messages of other peers cannot do: the dag stays well formed
    whatever arrives, and a peer that synchronised from a snapshot keeps its
    pins unless the next one arrives. *)
From S2P Require Import Prelude GoLib Bytes StateMachine Tx TxRecords Storage Pool WalletCache Node Pin.
From S2P Require Import PinProps PinSync Confirmation Weights Dag DagProps DagSteps Sync PinGaps SyncProps.
From S2P Require Import SyncSnapshot.

(** ** Nodes of other peers *)

Section Nodes.
Context `{CryptoLib} `{ProtoLib} `{TimestampLib} `{EthLib} `{UuidLib} `{ProtoPinLib}.
Context `{Goterators} `{MathLib} `{MapRange} `{!CollSet uuid}.
Context `{AnyLib}.

(** The invariant does not read the caches, the store or the pins. *)
Lemma dag_inv_world s w : w_heap w = w_heap (world s) -> dag_inv s -> dag_inv (with_world s w).
Proof.
  intros Hh I. apply (dag_inv_shape s); try done.
  intros x. unfold dheap. cbn. by rewrite Hh.
Qed.

(** New nodes without links, not in the dag yet. *)
Definition fresh_nodes (s : DagWorld) (ls : list loc) : Prop :=
  NoDup ls /\ Forall (fun l => l ∉ d_dag (dg s) /\ exists n, dheap s !! l = Some n /\ isolated n) ls.

(** The counter does not know a node that is not in the dag. *)
Lemma uncounted s n : dag_inv s -> mapped_vertices (dg s) !! uid n = None ->
  cc_cache (counter s) !! uid n = None.
Proof.
  intros I Hid. destruct (cc_cache (counter s) !! uid n) as [x|] eqn:E; [|done].
  apply (inv_cache s I) in E. congruence.
Qed.

Lemma insertMissing_spec s l n s' :
  dag_inv s -> addable s l n -> insertMissing s l = Return s' ->
  dag_inv s' /\ d_dag (dg s') = d_dag (dg s) ++ [l] /\ world s' = world s.
Proof.
  intros I [Hl [Ht Hs] Hnin Hid]. unfold insertMissing. rewrite Hl, Ht. cbn [node_ids outcome_bind deref].
  intros [= <-]. unfold send. split; [|by cbn; destruct (txCh (dg s))].
  assert (forall d, linked_heap (dheap s) (dheap (with_dg s d)) l (uid n) []) as L.
  { intros d. split.
    - change (dheap (with_dg s d)) with (dheap s). rewrite Hl. unfold shape. simpl. by rewrite Ht, Hs.
    - intros x Hx. change (dheap (with_dg s d)) with (dheap s). destruct (dheap s !! x) as [m|]; [|done].
      simpl. unfold shape. by rewrite app_nil_r.
    - apply not_elem_of_nil.
    - constructor. }
  eapply (inv_linked s _ l n [] []); try done; try (cbn; by destruct (txCh (dg s))); [apply L|].
  cbn. destruct (txCh (dg s)); by apply insert_subseteq, (uncounted s n I).
Qed.

Lemma InsertIfNotExist_spec ls : forall s s',
  dag_inv s -> fresh_nodes s ls -> InsertIfNotExist s ls = Return s' ->
  dag_inv s' /\ world s' = world s /\ forall l, l ∈ d_dag (dg s) -> l ∈ d_dag (dg s').
Proof.
  induction ls as [|l ls IH]; intros s s' I [Hnd Hf]; cbn [InsertIfNotExist]; [by intros [= <-]|].
  apply NoDup_cons in Hnd as [Hl Hnd]. apply Forall_cons in Hf as [(Hnin & n & Hn & Hiso) Hf].
  rewrite Hn. destruct (getById _ _ _ _) as [[x|]|] eqn:Eg; cbn [outcome_bind]; [| |done].
  - by apply IH.
  - assert (mapped_vertices (dg s) !! uid n = None) as Hid.
    { unfold getById in Eg. by destruct (mapped_vertices (dg s) !! uid n). }
    destruct (insertMissing s l) as [s1|] eqn:Ei; cbn [outcome_bind]; [|done].
    destruct (insertMissing_spec s l n s1 I) as (I1 & Hd & Hw); [by split|done|].
    intros E. destruct (IH s1 s' I1) as (I' & Hw' & Hin); [|done|].
    + split; [done|]. eapply Forall_impl; [|intros x Hx; exact Hx].
      apply Forall_forall. intros x Hx. rewrite Forall_forall in Hf. destruct (Hf x Hx) as [Hxn Hxh].
      rewrite Hd. unfold dheap. rewrite Hw. split; [|done]. set_solver.
    + split_and!; [done|congruence|]. intros x Hx. apply Hin. rewrite Hd. set_solver.
Qed.

Lemma FromPbNode_isolated p n : Node_FromPbNode zero_node p = Return n -> isolated n.
Proof. unfold Node_FromPbNode. destruct (UnmarshalBinary _); [|done]. by intros [= <-]. Qed.

Lemma receive_nodes_spec l : forall s s' ls,
  dag_inv s -> receive_nodes s l = Return (s', ls) ->
  dag_inv s' /\ fresh_nodes s' ls /\ dg s' = dg s /\ w_pins (world s') = w_pins (world s)
  /\ Forall (fun x => dheap s !! x = None) ls
  /\ (forall x n, dheap s !! x = Some n -> dheap s' !! x = Some n).
Proof.
  induction l as [|a l IH]; intros s s' ls I; cbn [receive_nodes].
  { intros [= <- <-]. split_and!; try done. by split; constructor. }
  destruct (UnmarshalNew a) as [[]|]; [by apply IH..| |by apply IH].
  destruct (Node_FromPbNode zero_node n) as [m|] eqn:Em; cbn [outcome_bind]; [|done].
  apply FromPbNode_isolated in Em. destruct (alloc s m) as [s1 x] eqn:Ea.
  pose proof Ea as (I1 & Hnone & Hh & Hdg & _ & Hnin)%alloc_spec; [|done..].
  destruct (receive_nodes s1 l) as [[s2 ls2]|] eqn:Er; cbn [outcome_bind]; [|done].
  intros [= <- <-]. destruct (IH s1 s2 ls2 I1 Er) as (I2 & [Hnd Hfr] & Hdg2 & Hp & Hnew & Hkeep).
  split_and!.
  - done.
  - split; constructor; [|done| |done].
    + intros Hin. rewrite Forall_forall in Hnew. specialize (Hnew x Hin).
      rewrite Hh, lookup_insert_eq in Hnew. done.
    + split; [by rewrite Hdg2, Hdg|]. exists m. split; [|done]. apply Hkeep. by rewrite Hh, lookup_insert_eq.
  - congruence.
  - rewrite Hp. injection Ea as <- <-. done.
  - constructor; [done|]. eapply Forall_impl; [exact Hnew|]. intros y. rewrite Hh.
    by intros [? _]%lookup_insert_None.
  - intros y k Hy. apply Hkeep. rewrite Hh, lookup_insert_ne; [done|]. intros ->. congruence.
Qed.
End Nodes.

(** ** The handlers *)

Section Handlers.
Context `{CryptoLib} `{ProtoLib} `{TimestampLib} `{EthLib} `{UuidLib} `{ProtoPinLib}.
Context `{Goterators} `{MathLib} `{MapRange} `{!CollSet uuid}.
Context `{AnyLib} `{ProtoSyncLib} `{PeerKeys} `{PeerKeyLib} `{Md5Lib}.
Variable c : SyncConfig.

(** The others keep a property of the dag. *)
Definition keeps (P : DagWorld -> Prop) (f : SyncNode -> SyncNode) : Prop :=
  forall s, P (sn_dag s) -> P (sn_dag (f s)).

(** What the answers to requests change besides the registry and the queue is
    what the others change. *)
Section Answers.
Variables (P : DagWorld -> Prop) (during : SyncNode -> SyncNode) (attempts : list (SyncNode -> SyncNode)).
Hypothesis Hd : keeps P during.
Hypothesis Ha : Forall (keeps P) attempts.

Lemma transactLatestPin_keeps e id a b : keeps P (fun s => fst (transactLatestPin c e during s id a b)).
Proof.
  intros s Hs. unfold transactLatestPin. repeat case_match; simpl; try done; by apply Hd.
Qed.

Lemma handleMissPinRequest_keeps e rec : keeps P (fun s => handleMissPinRequest c e during s rec).
Proof.
  intros s Hs. unfold handleMissPinRequest. generalize (pins (sn_pins s)) as l. intros l.
  revert s Hs. induction l as [|p l IH]; intros s Hs; simpl; [done|]. apply IH.
  case_match; [|done]. unfold publishMissPinResponse. repeat case_match; simpl; try done; by apply Hd.
Qed.

Lemma enqueue_until_keeps m s s' :
  P (sn_dag s) -> enqueue_until attempts s m = Some s' -> P (sn_dag s').
Proof.
  revert s. clear Hd. induction Ha as [|f l Hf Hl IH]; intros s Hs; cbn [enqueue_until]; [done|].
  case_match; [intros [= <-]; by apply Hf|]. apply IH; [done|]. simpl. by apply Hf.
Qed.

Lemma handleSiteRequest_keeps e id sites s r :
  P (sn_dag s) -> handleSiteRequest c e during s id sites = Return r -> P (sn_dag (fst r)).
Proof.
  intros Hs. unfold handleSiteRequest. destruct (host_pk c); [|by intros [= <-]].
  destruct (getVertices _ _) as [vs ok]. case_match; [by intros [= <-]|].
  destruct (host_pubk c); [|by intros [= <-]].
  destruct (node_details _ _ _); cbn [outcome_bind]; [|done]. intros [= <-]. simpl. by apply Hd.
Qed.

Lemma processSyncUpRequest_keeps e id s r :
  P (sn_dag s) -> processSyncUpRequest c e during s id = Return r -> P (sn_dag (fst r)).
Proof.
  intros Hs. unfold processSyncUpRequest. destruct (host_pk c); [|by intros [= <-]].
  destruct (getGenesis _); cbn [outcome_bind]; [|done]. destruct (host_pubk c); [|by intros [= <-]].
  destruct (node_details _ _ _); cbn [outcome_bind]; [|done]. intros [= <-]. by apply Hd.
Qed.

Lemma respondLatestBalances_keeps e s rec r :
  P (sn_dag s) -> respondLatestBalances c e attempts s rec = Some r -> P (sn_dag (fst r)).
Proof.
  intros Hs. unfold respondLatestBalances.
  destruct (host_pk c); [|by intros [= <-]]. destruct (getLast _); [|by intros [= <-]].
  destruct (host_pubk c); [|by intros [= <-]].
  destruct (enqueue_until _ _ _) eqn:E; [|done]. intros [= <-]. by eapply enqueue_until_keeps.
Qed.

Lemma respondAllPinsFrom_keeps e s rec r :
  P (sn_dag s) -> respondAllPinsFrom c e attempts s rec = Return (Some r) -> P (sn_dag (fst r)).
Proof.
  intros Hs. unfold respondAllPinsFrom.
  destruct (host_pk c); [|by intros [= <-]]. destruct (outcome_bind (detail _ _) _); cbn [outcome_bind]; [|done].
  destruct (host_pubk c); [|by intros [= <-]].
  destruct (enqueue_until _ _ _) eqn:E; [|done]. intros [= <-]. by eapply enqueue_until_keeps.
Qed.
End Answers.

(** Applying a pin keeps the heap and the pins. *)
Variable RunCall : Storage -> pb_Txv1 -> PinTxHeader -> Storage * (CallResponse + string).
Variable coinbase : string.
Variable pb_text : pb_Txv1 -> string.
Variable undef : string -> Z.

Definition same_dag_pins (w w' : World) : Prop := w_heap w' = w_heap w /\ w_pins w' = w_pins w.

Lemma apply_pin_diffs_same l : forall w b w' b',
  apply_pin_diffs w b l = Return (w', b') -> same_dag_pins w w'.
Proof.
  induction l as [|[d|a k v] l IH]; intros w b w' b'; cbn [apply_pin_diffs].
  - by intros [= <- _].
  - intros E%IH. exact E.
  - destruct (DumpMappingDiffs _ _ _ _); cbn [outcome_bind]; [|done]. intros E%IH. exact E.
Qed.

Lemma SyncPins_same now nodeType w pin w' :
  SyncPins RunCall coinbase now pb_text undef nodeType w pin = Return w' -> same_dag_pins w w'.
Proof.
  unfold SyncPins. destruct (sync_payments _ _ _ _ _) as [cb|]; cbn [outcome_bind]; [|done].
  case_match; [|case_match; [|by intros [= <-]]].
  - unfold runSmartContractStageFullNode.
    destruct (SyncBalances _ _ _); cbn [outcome_bind]; [|done].
    destruct (CaptureStateStoreDiffs _); cbn [outcome_bind]; [|done].
    destruct (check_smc_txs _ _ _ _ _ _ _) as [[st [e|]]|]; cbn [outcome_bind fst]; [by intros [= <-]| |done].
    destruct (GetStateStoreDiffs _); cbn [outcome_bind]; [|done].
    destruct (confirm_diffs _ _); cbn [outcome_bind fst]; [|done]. by intros [= <-].
  - destruct (SyncBalances _ _ _); cbn [outcome_bind]; [|done].
    destruct (apply_pin_diffs _ _ _) as [[w1 db]|] eqn:E; cbn [outcome_bind]; [|done].
    apply apply_pin_diffs_same in E. case_match.
    + destruct (SyncBalances _ _ _); cbn [outcome_bind]; [|done].
      destruct (checkBalances _ _ _); cbn [outcome_bind]; [|done]. by intros [= <-].
    + cbn [outcome_bind]. destruct (checkBalances _ _ _); cbn [outcome_bind]; [|done]. by intros [= <-].
Qed.

(** Pins, caches and the store change; nodes do not. *)
Lemma with_sn_pins_inv s p : dag_inv (sn_dag s) -> dag_inv (sn_dag (with_sn_pins s p)).
Proof. by apply dag_inv_world. Qed.

Lemma SyncPins_inv now s pin w :
  dag_inv (sn_dag s) ->
  SyncPins RunCall coinbase now pb_text undef (NodeType c) (world (sn_dag s)) pin = Return w ->
  dag_inv (sn_dag (with_sn_world s w)).
Proof. intros I E. apply SyncPins_same in E as [Hh _]. by apply dag_inv_world. Qed.

(** The loop sees one event that is not the timer: a value ends it, a closed
    channel panics. *)
Lemma download_loop_stays now s h evs s' :
  download_loop c RunCall coinbase pb_text undef now s h evs = Some (Return s') -> s' = s.
Proof. destruct evs as [|[] evs]; cbn; [done|by intros [= <-]|done|by intros [= <-]]. Qed.

Lemma processPin_inv e evs s pin s' :
  dag_inv (sn_dag s) -> processPin c RunCall coinbase pb_text undef e evs s pin = Some (Return s') ->
  dag_inv (sn_dag s').
Proof.
  intros I. unfold processPin. case_match.
  - destruct (SyncPins _ _ _ _ _ _ _ _) as [w|] eqn:E; cbn [outcome_bind]; [|done]. intros [= <-].
    apply with_sn_pins_inv. apply SyncPins_inv in E; [|done]. by apply dag_inv_world.
  - set (s1 := with_sn_pins s _). assert (dag_inv (sn_dag s1)) as I1 by by apply with_sn_pins_inv.
    destruct (sendPindDownloadRequest c e s1 _) as [s2 ok] eqn:E2.
    assert (dag_inv (sn_dag s2)) as I2.
    { unfold sendPindDownloadRequest in E2. repeat case_match; simplify_eq; done. }
    destruct (negb ok); [by intros [= <-]|].
    destruct (download_loop _ _ _ _ _ _ _ _ _) as [[s3|]|] eqn:E; [|done|done].
    apply download_loop_stays in E as ->. intros [= <-]. by apply dag_inv_world.
Qed.

Lemma handleSyncSiteResponse_spec s m s' :
  dag_inv (sn_dag s) -> handleSyncSiteResponse s m = Return s' ->
  dag_inv (sn_dag s') /\ sn_pins s' = sn_pins s
  /\ forall l, l ∈ d_dag (dg (sn_dag s)) -> l ∈ d_dag (dg (sn_dag s')).
Proof.
  intros I. unfold handleSyncSiteResponse.
  destruct (receive_nodes _ _) as [[d ls]|] eqn:E; cbn [outcome_bind]; [|done].
  apply receive_nodes_spec in E as (I1 & Hf & Hdg & Hp & _); [|done].
  destruct (InsertIfNotExist _ _) as [d'|] eqn:E'; cbn [outcome_bind]; [|done]. intros [= <-].
  apply InsertIfNotExist_spec in E' as (I2 & Hw & Hin); [|done|done]. unfold sn_pins. simpl.
  split_and!; [done|by rewrite Hw|]. intros l Hl. apply Hin. simpl. by rewrite Hdg.
Qed.

Lemma pin_response_inv s m r :
  dag_inv (sn_dag s) -> handleSyncPinResponse s m = Return r \/ processMissPinResponse s m = Return r ->
  dag_inv (sn_dag (fst r)).
Proof.
  intros I. unfold handleSyncPinResponse, processMissPinResponse.
  destruct (UnmarshalPublicKey _); [|by intros [[= <-]|[= <-]]].
  destruct (Syncv1_VerifySignature _ _) as [[]|]; [|intros [[=]|[= <-]]; done|by intros [[= <-]|[= <-]]].
  destruct (proto_Unmarshal_TxPin _); [|by intros [[= <-]|[= <-]]].
  destruct (insertIfNotFound _ _); cbn [outcome_bind]; [|by intros [|]].
  intros [[= <-]|[= <-]]; by apply with_sn_pins_inv.
Qed.

Lemma handleLatestBalances_inv s m r :
  dag_inv (sn_dag s) -> handleLatestBalances s m = Return r -> dag_inv (sn_dag (fst r)).
Proof.
  intros I. unfold handleLatestBalances. case_match; [by intros [= <-]|].
  destruct (proto_Unmarshal_TxPin _); [|by intros [= <-]].
  destruct (outcome_bind (detail _ 0) _); cbn [outcome_bind]; [|done].
  case_match; [intros [= <-]; by apply with_sn_pins_inv|].
  destruct (outcome_bind (detail _ 1) _); cbn [outcome_bind]; [|done].
  destruct (apply_snapshot _ _ _ _); cbn [outcome_bind]; [|done]. intros [= <-]. by apply with_sn_pins_inv.
Qed.

Lemma handleDownloaded_inv s m r :
  dag_inv (sn_dag s) -> handleDownloadedPinsFromLeader s m = Return (Some r) -> dag_inv (sn_dag (fst r)).
Proof.
  intros I. unfold handleDownloadedPinsFromLeader.
  destruct (outcome_bind (detail _ 0) _); cbn [outcome_bind]; [|done].
  destruct (add_downloaded _ _ _ _) as [[[p ok]|]|]; cbn [outcome_bind]; [|done|done].
  destruct (ClosePinDownloading p); [|done|done]. intros [= <-]. by apply with_sn_pins_inv.
Qed.

Lemma syncSubscribe_inv h s m s' :
  dag_inv (sn_dag s) -> keeps dag_inv (h_during h) -> Forall (keeps dag_inv) (h_attempts h) ->
  syncSubscribe c RunCall coinbase pb_text undef h s m = Some (Return s') -> dag_inv (sn_dag s').
Proof.
  intros I Hd Ha. unfold syncSubscribe.
  case_match.
  { unfold handleSyncUpRequest. destruct (processSyncUpRequest _ _ _ _ _) eqn:E; cbn [outcome_bind]; [|done].
    intros [= <-]. simpl. eapply processSyncUpRequest_keeps; [exact Hd| |exact E]. done. }
  case_match.
  { unfold handleSyncUpResponse. destruct (handleSyncSiteResponse _ _) eqn:E; cbn [outcome_bind]; [|done].
    intros [= <-]. by apply handleSyncSiteResponse_spec in E as [? _]. }
  case_match; [intros [= <-]; by apply (handleMissPinRequest_keeps dag_inv)|].
  case_match.
  { destruct (processMissPinResponse _ _) eqn:E; cbn [outcome_bind]; [|done]. intros [= <-].
    eapply pin_response_inv; [exact I|by right]. }
  case_match.
  { unfold handleSyncSiteRequest. destruct (handleSiteRequest _ _ _ _ _ _) eqn:E; cbn [outcome_bind]; [|done].
    intros [= <-]. simpl. eapply handleSiteRequest_keeps; [exact Hd| |exact E]. done. }
  case_match.
  { case_match; [|by intros [= <-]]. case_match; [|by intros [= <-]].
    destruct (handleSyncSiteResponse _ _) eqn:E; cbn [outcome_bind]; [|done].
    apply handleSyncSiteResponse_spec in E as [? _]; [|done]. case_match; by intros [= <-]. }
  case_match.
  { intros [= <-]. unfold handleSyncPinRequest, respondLatestPin.
    match goal with |- context [fst ?r] => assert (dag_inv (sn_dag (fst r))) as I' end.
    { by apply (transactLatestPin_keeps dag_inv). }
    by case_match. }
  case_match.
  { destruct (proto_Unmarshal_TxPin _); [|by intros [= <-]]. case_match; [|by intros [= <-]].
    by apply processPin_inv. }
  case_match.
  { case_match; [|by intros [= <-]]. destruct (handleSyncPinResponse _ _) eqn:E; cbn [outcome_bind]; [|done].
    intros [= <-]. simpl. eapply pin_response_inv; [|left; exact E]. done. }
  case_match.
  { destruct (respondLatestBalances _ _ _ _ _) eqn:E; [|done]. intros [= <-].
    eapply respondLatestBalances_keeps in E; [|exact Ha|done]. done. }
  case_match.
  { destruct (handleLatestBalances _ _) eqn:E; cbn [outcome_bind]; [|done]. intros [= <-].
    by apply handleLatestBalances_inv in E. }
  case_match.
  { destruct (respondAllPinsFrom _ _ _ _ _) as [[r|]|] eqn:E; [|done|done]. intros [= <-].
    eapply respondAllPinsFrom_keeps in E; [|exact Ha|done]. done. }
  case_match; [|by intros [= <-]].
  destruct (handleDownloadedPinsFromLeader _ _) as [[r|]|] eqn:E; [|done|done]. intros [= <-].
  by apply handleDownloaded_inv in E.
Qed.

(** C13: no message breaks the dag.  Whatever message the subscriber of a node
    receives, leader or peer, whatever it carries - requests, nodes, pins,
    snapshots, downloads, with any signature - and whatever the other
    goroutines do meanwhile, as long as they keep the dag well formed: when the
    message has been handled, the dag is well formed. *)
Theorem messages_keep_dag h s m s' :
  dag_inv (sn_dag s) -> keeps dag_inv (h_during h) -> Forall (keeps dag_inv) (h_attempts h) ->
  syncSubscribe c RunCall coinbase pb_text undef h s m = Some (Return s') -> dag_inv (sn_dag s').
Proof. apply syncSubscribe_inv. Qed.

(** ** A peer that synchronised from a snapshot *)

(** The messages a node handles, one after the other. *)
Fixpoint handle_all (s : SyncNode) (ms : list (handling * Syncv1)) : handled :=
  match ms with
  | [] => Some (Return s)
  | (h, m) :: rest =>
      match syncSubscribe c RunCall coinbase pb_text undef h s m with
      | Some (Return s) => handle_all s rest
      | r => r
      end
  end.

(** Not the pin after the last one. *)
Definition not_next (height : Z) (m : Syncv1) : Prop :=
  forall pin, isNewPinAnnounce m = true -> proto_Unmarshal_TxPin (default [] (s_Data m)) = Some pin ->
  PinNumber pin <> height + 1.

Hypothesis Hsnap : SnapshotSync c = true.
Hypothesis Hpeer : Leader c = false.

Lemma processPin_other e evs s pin s' :
  PinNumber pin <> CurrentHeight (sn_pins s) + 1 ->
  processPin c RunCall coinbase pb_text undef e evs s pin = Some (Return s') ->
  pins (sn_pins s') = pins (sn_pins s) /\ ready (sn_pins s') = ready (sn_pins s).
Proof.
  intros Hn. unfold processPin. destruct (Z.eqb_spec (CurrentHeight (sn_pins s) + 1) (PinNumber pin)); [lia|].
  set (s1 := with_sn_pins s _). destruct (sendPindDownloadRequest c e s1 _) as [s2 ok] eqn:E2.
  assert (sn_pins s2 = sn_pins s1) as Hp2.
  { unfold sendPindDownloadRequest in E2. repeat case_match; simplify_eq; done. }
  destruct (negb ok); [intros [= <-]; by rewrite Hp2|].
  destruct (download_loop _ _ _ _ _ _ _ _ _) as [[s3|]|] eqn:E; [|done|done].
  apply download_loop_stays in E as ->. intros [= <-].
  change (sn_pins (copy_confirmed s2)) with (sn_pins s2). by rewrite Hp2.
Qed.

Lemma add_downloaded_pins details k n : forall p p' ok,
  add_downloaded details k n p = Return (Some (p', ok)) -> pins p' = pins p /\ ready p' = ready p.
Proof.
  induction n as [|n IH]; intros p p' ok; cbn [add_downloaded]; [by intros [= <- _]|].
  destruct (outcome_bind (detail _ _) _); cbn [outcome_bind]; [|done].
  destruct (proto_Unmarshal_TxPin _); [|by intros [= <- _]].
  unfold AddDownloadedPin. destruct (downloadsClosed p); [done|]. destruct (1000 <=? _)%nat; [done|]. intros E%IH. exact E.
Qed.

Lemma snapshot_peer_step h s m s' :
  dag_inv (sn_dag s) -> ready (sn_pins s) = true -> not_next (CurrentHeight (sn_pins s)) m ->
  syncSubscribe c RunCall coinbase pb_text undef h s m = Some (Return s') ->
  pins (sn_pins s') = pins (sn_pins s) /\ ready (sn_pins s') = true /\ dag_inv (sn_dag s').
Proof.
  intros I Hr Hn. unfold syncSubscribe, isSyncUpSiteRequest, isMissingPinRequest, isMissingPinResponse,
    isSyncSiteRequest, isSyncPinRequest, isSyncPinResponse, isSyncBalanceSnapshotRequest, isPinDownloadRequest.
  rewrite Hpeer, Hsnap. simpl negb. rewrite !andb_false_r. simpl andb.
  case_match.
  { unfold handleSyncUpResponse. destruct (handleSyncSiteResponse _ _) as [s1|] eqn:E; cbn [outcome_bind]; [|done].
    intros [= <-]. apply handleSyncSiteResponse_spec in E as (I' & Hp & _); [|done].
    change (sn_pins (remove (set_processed s1) (Tracking_Id m))) with (sn_pins s1). by rewrite Hp. }
  case_match.
  { case_match; [|by intros [= <-]]. case_match; [|by intros [= <-]].
    destruct (handleSyncSiteResponse _ _) as [s1|] eqn:E; cbn [outcome_bind]; [|done].
    apply handleSyncSiteResponse_spec in E as (I' & Hp & _); [|done].
    change (sn_pins s1 = sn_pins s) in Hp. rewrite <- Hp in Hr |- *. case_match; by intros [= <-]. }
  case_match eqn:Ea.
  { destruct (proto_Unmarshal_TxPin _) as [pin|] eqn:Eu; [|by intros [= <-]].
    case_match; [|by intros [= <-]]. intros E. pose proof (processPin_inv _ _ _ _ _ I E) as I'.
    apply processPin_other in E as [-> ->]; [done|]. by apply Hn. }
  case_match.
  { unfold handleLatestBalances. change (sn_pins (change s _ _)) with (sn_pins s). rewrite Hr.
    cbn [outcome_bind fst]. intros [= <-]. split_and!; [done|exact Hr|exact I]. }
  case_match; [|by intros [= <-]].
  destruct (handleDownloadedPinsFromLeader _ _) as [[r|]|] eqn:E; [|done|done]. intros [= <-].
  pose proof E as I'%handleDownloaded_inv; [|done].
  unfold handleDownloadedPinsFromLeader in E. destruct (outcome_bind (detail _ 0) _); [|done].
  cbn [outcome_bind] in E. destruct (add_downloaded _ _ _ _) as [[[p ok]|]|] eqn:Ed; [|done|done].
  cbn [outcome_bind] in E. apply add_downloaded_pins in Ed as [Hp1 Hp2].
  unfold ClosePinDownloading in E. destruct (downloadsClosed p); [done|]. injection E as <-.
  change (pins p = pins (sn_pins s)) in Hp1. change (ready p = ready (sn_pins s)) in Hp2.
  split_and!; [exact Hp1|by rewrite <- Hr, <- Hp2|done].
Qed.

(** C33: a gap is permanent.  A peer that synchronised from a snapshot and missed
    a pin never gets its pins further: whatever messages it handles - later
    announcements, the leader's responses to its download requests, snapshots,
    nodes, pins it did not request - and whatever its download loop sees, its
    pins stay as they are, until the very pin it missed is announced again. *)
Theorem snapshot_peer_gap_is_permanent ms : forall s s',
  dag_inv (sn_dag s) -> ready (sn_pins s) = true ->
  Forall (fun hm => not_next (CurrentHeight (sn_pins s)) (snd hm)) ms ->
  handle_all s ms = Some (Return s') ->
  pins (sn_pins s') = pins (sn_pins s) /\ ready (sn_pins s') = true.
Proof.
  induction ms as [|[h m] ms IH]; intros s s' I Hr Hms; cbn [handle_all]; [by intros [= <-]|].
  apply Forall_cons in Hms as [Hm Hms].
  destruct (syncSubscribe _ _ _ _ _ _ _ _) as [[s1|]|] eqn:E; [|done|done].
  apply snapshot_peer_step in E as (Hp & Hr1 & I1); [|done..]. intros E'.
  apply IH in E' as [-> ->]; [by rewrite Hp|done|done|]. unfold CurrentHeight. rewrite Hp. exact Hms.
Qed.
End Handlers.

(** ** Samples *)

(** A peer at height 0 that was announced pin 2, and what follows: the pins
    leave pin 1 out. *)
Definition announcing (pin : TxPin) : Syncv1 :=
  received (new_message (sample_env 0) LATEST STX_ANNOUNCE 5%N [x07] (proto_Marshal_TxPin pin) [] []).

Definition ready_peer : SyncNode :=
  with_sn_pins (sample_peer [pin1]) {| pins := [pin1]; ready := true; downloadedPins := []; downloadsClosed := false |}.

Definition timed : handling :=
  {| h_env := sample_env 4; h_during s := s; h_attempts := []; h_events := [DlTimer] |}.

Lemma sample_peer_inv : dag_inv (sn_dag ready_peer).
Proof.
  split; try (intros *; cbn; set_solver); try apply NoDup_nil_2; try done.
  by exists (fun _ => 0%nat).
Qed.

Lemma returned {A} (o : option (outcome A)) :
  match o with Some (Return _) => true | _ => false end = true -> exists a, o = Some (Return a).
Proof. destruct o as [[a|]|]; [by exists a|done|done]. Qed.

Lemma announced : exists s',
  syncSubscribe snapshot_config sample_vm "0x" (fun _ => ""%string) (fun _ => 0) timed ready_peer
    (announcing pin3) = Some (Return s').
Proof. apply returned. vm_compute. reflexivity. Qed.

Lemma announced_twice : exists s',
  handle_all snapshot_config sample_vm "0x" (fun _ => ""%string) (fun _ => 0) ready_peer
    [(timed, announcing pin3); (timed, announcing pin3)] = Some (Return s').
Proof. apply returned. vm_compute. reflexivity. Qed.

Lemma messages_keep_dag_witness :
  exists s', syncSubscribe snapshot_config sample_vm "0x" (fun _ => ""%string) (fun _ => 0) timed ready_peer
               (announcing pin3) = Some (Return s')
  /\ dag_inv (sn_dag s').
Proof.
  destruct announced as [s' E]. exists s'. split; [exact E|].
  apply (messages_keep_dag snapshot_config sample_vm "0x" (fun _ => ""%string) (fun _ => 0) timed ready_peer
           (announcing pin3)); [exact sample_peer_inv|by intros s|constructor|exact E].
Defined.

Lemma snapshot_peer_gap_is_permanent_witness :
  exists s', handle_all snapshot_config sample_vm "0x" (fun _ => ""%string) (fun _ => 0) ready_peer
               [(timed, announcing pin3); (timed, announcing pin3)] = Some (Return s')
  /\ pins (sn_pins s') = [pin1].
Proof.
  destruct announced_twice as [s' E]. exists s'. split; [exact E|].
  refine (proj1 (snapshot_peer_gap_is_permanent snapshot_config sample_vm "0x" (fun _ => ""%string) (fun _ => 0)
    eq_refl eq_refl [(timed, announcing pin3); (timed, announcing pin3)] ready_peer s' sample_peer_inv eq_refl _ E)).
  assert (not_next (CurrentHeight (sn_pins ready_peer)) (announcing pin3)) as Hn.
  { intros pin _ Hu. vm_compute in Hu. injection Hu as <-. vm_compute. discriminate. }
  repeat constructor; exact Hn.
Defined.
