(* ===== verification/Search.v ===== *)
(** Queries over transactions: [dag/search.go] (transactions by hash and by
    account), with [Page] and [Sort] of [services].

    [sort.SliceStable] is called with a comparison that is not strict, and an
    Ethereum transaction has no timestamp but returns the clock: what the sort
    leaves is the argument [order] of the search.  The arguments of log lines are
    not evaluated. *)
From S2P Require Import Prelude GoLib Bytes StateMachine Tx TxRecords Storage Pool WalletCache Node Pin.
From S2P Require Import PinProps Confirmation Weights Dag.

Section Search.
Context `{CryptoLib} `{ProtoLib} `{TimestampLib} `{EthLib} `{UuidLib} `{ProtoPinLib}.
Context `{MapRange} `{!CollSet uuid}.

(** ** Filters *)

(** One account of the filter; [directionIsSent] may be nil. *)
Definition account_matches (t : Transaction) (directionIsSent : option bool) (account : string)
  : outcome bool :=
  let! accountId := AddressToBytes account in
  let! senderId := GetSender t in
  Return ((default true directionIsSent && bool_decide (senderId = accountId))
          || (default true (negb <$> directionIsSent) && bool_decide (GetRecipient t = accountId))).

Fixpoint any_account (t : Transaction) (directionIsSent : option bool) (accounts : list string)
  : outcome bool :=
  match accounts with
  | [] => Return false
  | a :: rest => let! b := account_matches t directionIsSent a in
                 if b then Return true else any_account t directionIsSent rest
  end.

Definition accountFilter (t : Transaction) (accounts : list string) (txType : Z)
    (directionIsSent : option bool) : outcome bool :=
  if negb (txType =? -1) && negb (txType =? GetTransactionType t) then Return false
  else if (length accounts =? 0)%nat then Return true
  else any_account t directionIsSent accounts.

(** ** By hash *)

(** The payment with the hash among the nodes of a pin, from index [k]. *)
Fixpoint find_payment (hash : bytes) (k : Z) (l : list pb_Node) : outcome (option (Transaction * Z)) :=
  match l with
  | [] => Return None
  | node :: rest =>
      let! realTx := UnmarshalBinary (pb_n_Tx node) in
      let! txHash := GetHash realTx in
      if bool_decide (txHash = hash) then Return (Some (realTx, k)) else find_payment hash (k + 1) rest
  end.

(** The first pin with the payment; [Some None] is the error for a transaction
    that is not a payment. *)
Fixpoint find_confirmed_payment (hash : bytes) (pinTxNumber : Z) (l : list TxPin)
  : outcome (option (option ConfirmedTx)) :=
  match l with
  | [] => Return None
  | pin :: rest =>
      let pinHashStr := ("0x" ++ hex_EncodeToString (default [] (TxPin_Hash pin)))%string in
      let! r := find_payment hash 0 (Nodes pin) in
      match r with
      | Some (realTx, nodeIdx) =>
          Return (Some (NewPaymentConfirmedTx realTx pinTxNumber pinHashStr nodeIdx))
      | None => find_confirmed_payment hash (pinTxNumber + 1) rest
      end
  end.

(** [None] is the error. *)
Definition SearchTx (p : NodeTxPin) (pools : SmcStore) (hash : bytes) : outcome (option ConfirmedTx) :=
  let! r := find_confirmed_payment hash 0 (pins p) in
  match r with
  | Some c => Return c
  | None => Return (FindConfirmed pools (Hex_String (Some hash)))
  end.

Fixpoint find_unconfirmed (hash : bytes) (h : heap) (l : list loc) : outcome (option Transaction) :=
  match l with
  | [] => Return None
  | x :: rest =>
      match h !! x with
      | None => Panic
      | Some n => let! txHash := GetHash (ntx n) in
                  if bool_decide (txHash = hash) then Return (Some (ntx n))
                  else find_unconfirmed hash h rest
      end
  end.

(** The transaction, if any, and whether there is an error: a payment of the
    dag is returned together with the error of [SearchTx]. *)
Definition SearchAnyTx (s : DagWorld) (hash : bytes) : outcome (option UnifiedTx * bool) :=
  let w := world s in
  let! c := SearchTx (w_pins w) (w_smc w) hash in
  match c with
  | Some c => Return (Some (NewUnifiedConfirmedTx c), false)
  | None =>
      let! u := find_unconfirmed hash (dheap s) (d_dag (dg s)) in
      match u with
      | Some t => Return (Some (NewUnifiedUnconfirmedTx t), true)
      | None => match FindAny (w_smc w) (Hex_String (Some hash)) with
                | Some u => Return (Some u, false)
                | None => Return (None, true)
                end
      end
  end.

(** ** By account *)

(** [GetTimestamp]; an Ethereum transaction returns the clock. *)
Definition GetTimestamp (now : Z) (t : Transaction) : Z :=
  match t with ATxv1 t => Txv1_GetTimestamp t | AnEthTx _ => now end.

(** The confirmed contract transactions of a pin, from index [k]. *)
Fixpoint pin_smc (filter : Transaction -> outcome bool) (pinTxNumber : Z) (pinHashStr : string)
    (nodes : Z) (k gasUsed : Z) (l : list ExecutedSmcTx) : outcome (list UnifiedTx) :=
  match l with
  | [] => Return []
  | smcTx :: rest =>
      let r := ex_Receipt smcTx in
      let gasUsed := to_int64 (gasUsed + FuelUsed r) in
      let! realTx := UnmarshalBinary (ex_Tx smcTx) in
      let! hash := GetHash realTx in
      let! b := filter realTx in
      let! more := pin_smc filter pinTxNumber pinHashStr nodes (k + 1) gasUsed rest in
      Return (if b then
                NewUnifiedConfirmedTx
                  {| c_tx := realTx; UsedFuel := FuelUsed r; StatusMessage := rc_StatusMessage r;
                     c_Status := match rc_Status r with FAILED => Failed | SUCCESSFUL => Successful end;
                     PinTxNumber := pinTxNumber; PinTxHash := pinHashStr; TxIndex := nodes + k;
                     CumulativeGasUsed := gasUsed |} :: more
              else more)
  end.

(** The confirmed payments of a pin, from index [k], and their ids. *)
Fixpoint pin_payments (filter : Transaction -> outcome bool) (pinTxNumber : Z) (pinHashStr : string)
    (k : Z) (l : list pb_Node) : outcome (list (string * UnifiedTx)) :=
  match l with
  | [] => Return []
  | node :: rest =>
      let! realTx := UnmarshalBinary (pb_n_Tx node) in
      let! b := filter realTx in
      let! more := pin_payments filter pinTxNumber pinHashStr (k + 1) rest in
      Return (if b then
                (uuid_String (uuid_UnmarshalBinary uuid_Nil (pb_n_Id (pb_n_NodeId node))),
                 NewUnifiedConfirmedTxRaw realTx pinTxNumber pinHashStr k 0) :: more
              else more)
  end.

(** The confirmed transactions of the pins, from number [k], and the ids of
    the payments among them. *)
Fixpoint pinned_txs (filter : Transaction -> outcome bool) (wanted : bool) (k : Z) (l : list TxPin)
  : outcome (list UnifiedTx * gset string) :=
  match l with
  | [] => Return ([], ∅)
  | pin :: rest =>
      let! h := TxPin_GetHash pin in
      let pinHashStr := Hex_String (Some h) in
      let! smc := if wanted then pin_smc filter k pinHashStr (Z.of_nat (length (Nodes pin))) 0 0 (SmcTxs pin)
                  else Return [] in
      let! pays := pin_payments filter k pinHashStr 0 (Nodes pin) in
      let! more := pinned_txs filter wanted (k + 1) rest in
      Return ((if wanted then smc ++ map snd pays else []) ++ fst more,
              list_to_set (map fst pays) ∪ snd more)
  end.

(** The payments of the dag that are not in [processed]. *)
Fixpoint dag_payments (filter : Transaction -> outcome bool) (processed : gset string) (h : heap)
    (l : list loc) : outcome (list UnifiedTx) :=
  match l with
  | [] => Return []
  | x :: rest =>
      match h !! x with
      | None => Panic
      | Some n =>
          let! b := if bool_decide (Node_Id n ∈ processed) then Return false else filter (ntx n) in
          let! more := dag_payments filter processed h rest in
          Return (if b then NewUnifiedUnconfirmedTx (ntx n) :: more else more)
      end
  end.

(** Everything the search finds, before duplicates are removed. *)
Definition collect_txs (s : DagWorld) (filter : Transaction -> outcome bool) (confirmed : option bool)
  : outcome (list UnifiedTx) :=
  let! p := pinned_txs filter (default true confirmed) 0 (pins (w_pins (world s))) in
  if default true (negb <$> confirmed) then
    let! smc := Pool_Find {| objects := unconfirmedPool (w_smc (world s)); held := false |}
                  (fun (u : unit) t => let! b := filter t in Return (b, u)) tt in
    let! pays := dag_payments filter (snd p) (dheap s) (d_dag (dg s)) in
    Return (fst p ++ map NewUnifiedUnconfirmedTx smc ++ pays)
  else Return (fst p).

(** The hash of a search result. *)
Definition unified_hash (u : UnifiedTx) : outcome bytes := let! t := GetRawTx u in GetHash t.

(** The last transaction of every hash. *)
Fixpoint unique_txs (m : gmap string UnifiedTx) (txs : list UnifiedTx) : outcome (gmap string UnifiedTx) :=
  match txs with
  | [] => Return m
  | u :: rest => let! h := unified_hash u in unique_txs (<[hex_EncodeToString h := u]> m) rest
  end.

Definition deduplicate (txs : list UnifiedTx) : outcome (list UnifiedTx) :=
  let! m := unique_txs ∅ txs in Return (map snd (map_range m)).

(** [order] is what the sort leaves, ascending or descending. *)
Definition SearchTxs (order : bool -> list UnifiedTx -> list UnifiedTx) (s : DagWorld)
    (accounts : list string) (txType limit offset : Z) (ascSort : bool)
    (confirmed directionIsSent : option bool) : outcome (list UnifiedTx) :=
  let! accTxs := collect_txs s (fun t => accountFilter t accounts txType directionIsSent) confirmed in
  let! accTxs := deduplicate accTxs in
  paginate limit offset (order ascSort accTxs).
End Search.

(** ** Pages *)

Record Page := { Number : Z; Size : Z }.
Definition Page_Offset (p : Page) : Z := to_int64 (Size p * Number p).
Definition Page_Next (p : Page) : Page := {| Number := to_int64 (Number p + 1); Size := Size p |}.

(** [strings.ToUpper] of a text in ASCII. *)
Definition upper (c : ascii) : ascii :=
  let n := Ascii.N_of_ascii c in
  if ((97 <=? n) && (n <=? 122))%N then Ascii.ascii_of_N (n - 32) else c.
Definition ToUpper (s : string) : string :=
  String.string_of_list_ascii (map upper (String.list_ascii_of_string s)).

Definition isAsc (s : string) : bool := bool_decide (ToUpper s = "ASC"%string).
Definition isDesc (s : string) : bool := bool_decide (ToUpper s = "DESC"%string).
