(* ===== verification/SearchProps.v ===== *)
(** What the queries over transactions find. *)
From S2P Require Import Prelude GoLib Bytes StateMachine Tx TxRecords Storage StorageProps Pool WalletCache Node Pin.
From S2P Require Import PinProps Confirmation Weights Dag DagProps DagSteps Search.

Section Found.
Context `{CryptoLib} `{ProtoLib} `{TimestampLib} `{EthLib} `{UuidLib} `{ProtoPinLib}.
Context `{MapRange} `{!CollSet uuid}.

(** ** Where a transaction is *)

Definition pinned_id (n : pb_Node) : string :=
  uuid_String (uuid_UnmarshalBinary uuid_Nil (pb_n_Id (pb_n_NodeId n))).

(** A transaction of the node that passes the filter; [true] when it is
    confirmed.  The dag keeps the nodes whose payments are pinned: they count
    as confirmed only. *)
Inductive located (s : DagWorld) (filter : Transaction -> outcome bool) : bool -> Transaction -> Prop :=
| in_pin_contract pin x t :
    pin ∈ pins (w_pins (world s)) -> x ∈ SmcTxs pin -> UnmarshalBinary (ex_Tx x) = Return t ->
    filter t = Return true -> located s filter true t
| in_pin_payment pin n t :
    pin ∈ pins (w_pins (world s)) -> n ∈ Nodes pin -> UnmarshalBinary (pb_n_Tx n) = Return t ->
    filter t = Return true -> located s filter true t
| in_pool id t :
    unconfirmedPool (w_smc (world s)) !! id = Some t -> filter t = Return true ->
    located s filter false t
| in_dag l n :
    l ∈ d_dag (dg s) -> dheap s !! l = Some n -> filter (ntx n) = Return true ->
    (forall pin x t, pin ∈ pins (w_pins (world s)) -> x ∈ Nodes pin ->
       UnmarshalBinary (pb_n_Tx x) = Return t -> filter t = Return true -> pinned_id x <> Node_Id n) ->
    located s filter false (ntx n).

(** ** The parts of the search *)

Lemma ex_cons {A} (x : A) l (P : A -> Prop) : (exists y, y ∈ x :: l /\ P y) <-> P x \/ exists y, y ∈ l /\ P y.
Proof.
  split.
  - intros (y & [->|Hy]%elem_of_cons & HP); [by left|right; by exists y].
  - intros [HP|(y & Hy & HP)]; [exists x; split; [left|done]|exists y; split; [by right|done]].
Qed.

Lemma ex_nil {A} (P : A -> Prop) : (exists y, y ∈ [] /\ P y) <-> False.
Proof. split; [intros (y & ?%not_elem_of_nil & _)|]; done. Qed.

Lemma exists_or {A} (P Q : A -> Prop) : (exists x, P x \/ Q x) <-> (exists x, P x) \/ exists x, Q x.
Proof. split; [intros (x & [?|?])|intros [[x ?]|[x ?]]]; eauto. Qed.

(** The transactions of a list of results, each of which holds one. *)
Definition holds (u : UnifiedTx) (t : Transaction) : Prop := GetRawTx u = Return t.
Definition lists (r : list UnifiedTx) (P : Transaction -> Prop) : Prop :=
  Forall (fun u => exists t, holds u t) r /\ forall t, (exists u, u ∈ r /\ holds u t) <-> P t.

#[export] Instance lists_proper r : Proper (pointwise_relation Transaction iff ==> iff) (lists r).
Proof.
  intros P Q HPQ. unfold lists. apply and_iff_compat_l, forall_proper. intros t. by rewrite (HPQ t).
Qed.

Lemma lists_nil : lists [] (fun _ => False).
Proof. split; [constructor|]. intros t. apply ex_nil. Qed.

Lemma lists_cons u t0 r P : holds u t0 -> lists r P -> lists (u :: r) (fun t => t = t0 \/ P t).
Proof.
  intros Hu [HF Hr]. split; [constructor; [by exists t0|done]|]. intros t. rewrite ex_cons, Hr.
  apply or_iff_compat_r. unfold holds in *. rewrite Hu. split; congruence.
Qed.

Lemma lists_app r r' P Q : lists r P -> lists r' Q -> lists (r ++ r') (fun t => P t \/ Q t).
Proof.
  intros [HF Hr] [HF' Hr']. split; [by apply Forall_app|]. intros t. rewrite <- (Hr t), <- (Hr' t). split.
  - intros (u & [Hu|Hu]%elem_of_app & Ht); [left|right]; by exists u.
  - intros [(u & Hu & Ht)|(u & Hu & Ht)]; exists u; rewrite elem_of_app; auto.
Qed.

Lemma lists_ext r P Q : lists r P -> (forall t, P t <-> Q t) -> lists r Q.
Proof. intros [HF Hr] H'. split; [done|]. intros t. by rewrite (Hr t), H'. Qed.

Lemma lists_unconfirmed l : lists (map NewUnifiedUnconfirmedTx l) (fun t => t ∈ l).
Proof.
  induction l as [|t0 l IH]; simpl; [eapply lists_ext; [apply lists_nil|]; set_solver|].
  eapply lists_ext; [apply (lists_cons _ t0); [reflexivity|exact IH]|]. intros t. simpl. set_solver.
Qed.

Section Parts.
Variable filter : Transaction -> outcome bool.

Definition contract_of (l : list ExecutedSmcTx) (t : Transaction) : Prop :=
  exists x, x ∈ l /\ UnmarshalBinary (ex_Tx x) = Return t /\ filter t = Return true.
Definition payment_of (l : list pb_Node) (id : string) (t : Transaction) : Prop :=
  exists x, x ∈ l /\ pinned_id x = id /\ UnmarshalBinary (pb_n_Tx x) = Return t /\ filter t = Return true.

Lemma pin_smc_spec num hs nodes l : forall k gas r,
  pin_smc filter num hs nodes k gas l = Return r -> lists r (contract_of l).
Proof.
  induction l as [|x l IH]; intros k gas r; cbn [pin_smc].
  { intros [= <-]. eapply lists_ext; [apply lists_nil|]. intros t. unfold contract_of. by rewrite ex_nil. }
  destruct (UnmarshalBinary (ex_Tx x)) as [t0|] eqn:Et; cbn [outcome_bind]; [|done].
  destruct (GetHash t0); cbn [outcome_bind]; [|done].
  destruct (filter t0) as [b|] eqn:Eb; cbn [outcome_bind]; [|done].
  destruct (pin_smc _ _ _ _ _ _ l) as [more|] eqn:Em; cbn [outcome_bind]; [|done].
  intros [= <-]. apply IH in Em. destruct b.
  - eapply lists_ext; [apply (lists_cons _ t0); [reflexivity|exact Em]|]. intros t. unfold contract_of.
    rewrite ex_cons, Et. intuition congruence.
  - eapply lists_ext; [exact Em|]. intros t. unfold contract_of. rewrite ex_cons, Et. intuition congruence.
Qed.

Lemma payment_of_cons x l id t :
  payment_of (x :: l) id t <->
  (pinned_id x = id /\ UnmarshalBinary (pb_n_Tx x) = Return t /\ filter t = Return true) \/ payment_of l id t.
Proof. unfold payment_of. by rewrite ex_cons. Qed.

Lemma pin_payments_spec num hs l : forall k r,
  pin_payments filter num hs k l = Return r ->
  lists (map snd r) (fun t => exists id, payment_of l id t)
  /\ forall id, id ∈ map fst r <-> exists t, payment_of l id t.
Proof.
  induction l as [|x l IH]; intros k r; cbn [pin_payments].
  { intros [= <-]. assert (forall id t, ~ payment_of [] id t) as Hno by (intros id t Hp; by apply ex_nil in Hp).
    split; [eapply lists_ext; [apply lists_nil|]|]; intros z; (split; [set_solver|]);
      intros (y & Hy%Hno); done. }
  destruct (UnmarshalBinary (pb_n_Tx x)) as [t0|] eqn:Et; cbn [outcome_bind]; [|done].
  destruct (filter t0) as [b|] eqn:Eb; cbn [outcome_bind]; [|done].
  destruct (pin_payments _ _ _ _ l) as [more|] eqn:Em; cbn [outcome_bind]; [|done].
  intros [= <-]. apply IH in Em as [E1 E2]. setoid_rewrite payment_of_cons. rewrite Et.
  destruct b; split.
  - eapply lists_ext; [apply (lists_cons _ t0); [reflexivity|exact E1]|]. intros t. simpl. split.
    + intros [->|[id Hid]]; [eexists; left; done|eexists; right; exact Hid].
    + intros [id [(? & [= ->] & ?)|Hid]]; [by left|right; by exists id].
  - intros id. cbn [map fst]. rewrite elem_of_cons, E2. split.
    + intros [->|[t Ht]]; [exists t0; by left|exists t; by right].
    + intros [t [(<- & _)|Ht]]; [by left|right; by exists t].
  - eapply lists_ext; [exact E1|]. intros t. split; [intros [id ?]; exists id; by right|].
    intros [id [(? & [= ->] & ?)|Hid]]; [congruence|by exists id].
  - intros id. rewrite E2. split; [intros [t ?]; exists t; by right|].
    intros [t [(? & [= ->] & ?)|Hid]]; [congruence|by exists t].
Qed.

Definition pinned_contract (l : list TxPin) (t : Transaction) : Prop :=
  exists pin, pin ∈ l /\ contract_of (SmcTxs pin) t.
Definition pinned_payment (l : list TxPin) (id : string) (t : Transaction) : Prop :=
  exists pin, pin ∈ l /\ payment_of (Nodes pin) id t.

Lemma pinned_txs_spec wanted l : forall k r,
  pinned_txs filter wanted k l = Return r ->
  lists (fst r) (fun t => wanted = true /\ (pinned_contract l t \/ exists id, pinned_payment l id t))
  /\ forall id, id ∈ snd r <-> exists t, pinned_payment l id t.
Proof.
  induction l as [|pin l IH]; intros k r; cbn [pinned_txs].
  { intros [= <-]. unfold pinned_contract, pinned_payment.
    split; [eapply lists_ext; [apply lists_nil|]; intros t|intros id].
    - split; [done|]. by intros (_ & [?%ex_nil|(id & ?%ex_nil)]).
    - split; [set_solver|]. by intros (t & ?%ex_nil). }
  destruct (TxPin_GetHash pin) as [h|]; cbn [outcome_bind]; [|done].
  destruct (if wanted then _ else _) as [smc|] eqn:Es; cbn [outcome_bind]; [|done].
  destruct (pin_payments _ _ _ _ _) as [pays|] eqn:Ep; cbn [outcome_bind]; [|done].
  destruct (pinned_txs _ _ _ l) as [more|] eqn:Em; cbn [outcome_bind]; [|done].
  intros [= <-]. apply IH in Em as [E1 E2]. apply pin_payments_spec in Ep as [P1 P2]. cbn [fst snd].
  unfold pinned_contract, pinned_payment in *. split.
  - destruct wanted.
    + apply pin_smc_spec in Es. eapply lists_ext; [apply lists_app; [apply lists_app|]; eassumption|].
      intros t. simpl. setoid_rewrite ex_cons. rewrite exists_or. tauto.
    + eapply lists_ext; [exact E1|]. intros t. split; intros [[=] _].
  - intros id. rewrite elem_of_union, elem_of_list_to_set, P2, E2. setoid_rewrite ex_cons.
    by rewrite exists_or.
Qed.

Lemma dag_payments_spec processed h l : forall r,
  dag_payments filter processed h l = Return r ->
  lists r (fun t => exists x n, x ∈ l /\ h !! x = Some n /\ t = ntx n /\ filter t = Return true
                    /\ Node_Id n ∉ processed).
Proof.
  induction l as [|x l IH]; intros r; cbn [dag_payments].
  { intros [= <-]. eapply lists_ext; [apply lists_nil|]. intros t. split; [done|].
    intros (x & n & ?%not_elem_of_nil & _). done. }
  destruct (h !! x) as [n|] eqn:Ex; [|done].
  destruct (if bool_decide _ then _ else _) as [b|] eqn:Eb; cbn [outcome_bind]; [|done].
  destruct (dag_payments _ _ _ l) as [more|]; cbn [outcome_bind]; [|done]. intros [= <-].
  specialize (IH _ eq_refl). destruct b.
  - case_bool_decide; [done|]. eapply lists_ext; [apply (lists_cons _ (ntx n)); [reflexivity|exact IH]|].
    intros t. simpl. split.
    + intros [->|(y & m & Hy & ?)]; [exists x, n|exists y, m; split; [by right|done]].
      split_and!; [left|done..].
    + intros (y & m & [->|Hy]%elem_of_cons & Hm & -> & ?); [left; congruence|right; by exists y, m].
  - eapply lists_ext; [exact IH|]. intros t. split.
    { intros (y & m & Hy & ?). exists y, m. split; [by right|done]. }
    intros (y & m & [->|Hy]%elem_of_cons & Hm & -> & Hf & Hn); [|by exists y, m].
    simplify_eq. rewrite bool_decide_false in Eb by done. congruence.
Qed.

Lemma Find_loop_filter (l : list Transaction) : forall r,
  Find_loop (fun (u : unit) t => let! b := filter t in Return (b, u)) tt l = Return r ->
  forall t, t ∈ r <-> t ∈ l /\ filter t = Return true.
Proof.
  induction l as [|x l IH]; intros r; cbn [Find_loop]; [intros [= <-]; set_solver|].
  destruct (filter x) as [b|] eqn:Eb; cbn [outcome_bind snd fst]; [|done].
  destruct (Find_loop _ _ l) as [found|]; cbn [outcome_bind]; [|done]. intros [= <-] t.
  specialize (IH _ eq_refl t). destruct b; rewrite !elem_of_cons, ?IH; intuition congruence.
Qed.

Lemma collect_txs_spec s confirmed r :
  collect_txs s filter confirmed = Return r ->
  lists r (fun t => exists c, default c confirmed = c /\ located s filter c t).
Proof.
  unfold collect_txs. destruct (pinned_txs _ _ _ _) as [p|] eqn:Ep; cbn [outcome_bind]; [|done].
  apply pinned_txs_spec in Ep as [P1 P2].
  assert (Hpin : lists (fst p) (fun t => default true confirmed = true /\ located s filter true t)).
  { eapply lists_ext; [exact P1|]. intros t. apply and_iff_compat_l. split.
    - intros [(pin & ? & x & ? & ? & ?)|(id & pin & ? & x & ? & ? & ? & ?)];
        [by eapply in_pin_contract|by eapply in_pin_payment].
    - inversion 1; subst; [left|right]; unfold pinned_contract, pinned_payment, contract_of, payment_of; eauto 10. }
  destruct (default true (negb <$> confirmed)) eqn:Ec.
  - unfold Pool_Find. destruct (Find_loop _ _ _) as [smc|] eqn:Es; cbn [outcome_bind]; [|done].
    destruct (dag_payments _ _ _ _) as [pays|] eqn:Ed; cbn [outcome_bind]; [|done]. intros [= <-].
    apply dag_payments_spec in Ed. pose proof (Find_loop_filter _ _ Es) as Hsmc. cbn [objects] in Hsmc.
    eapply lists_ext; [apply lists_app; [exact Hpin|apply lists_app; [apply lists_unconfirmed|exact Ed]]|].
    intros t. simpl. split.
    + intros [[Hc Ht]|[Ht|Ht]]; [exists true; by destruct confirmed as [[]|]|exists false..];
        (split; [by destruct confirmed as [[]|]|]).
      * apply Hsmc in Ht as [[[id t'] [-> Hin]]%list_elem_of_fmap Hf].
        apply elem_of_map_range in Hin. by eapply in_pool.
      * destruct Ht as (x & n & Hx & Hn & -> & Hf & Hnot). apply (in_dag s filter x n); try done.
        intros pin y t' Hpin' Hy Hu Hf' Eid. apply Hnot, P2. exists t', pin. split; [done|]. by exists y.
    + intros ([] & Hc & Ht); [by left; destruct confirmed as [[]|]|right].
      inversion Ht as [| |id t' Hin Hf|x n Hx Hn Hf Hnot]; subst.
      * left. apply Hsmc. split; [|done]. apply list_elem_of_fmap. exists (id, t). split; [done|].
        by apply elem_of_map_range.
      * right. exists x, n. split_and!; try done. intros (t' & pin & Hpin' & y & Hy & Eid & Hu & Hf')%P2.
        by apply (Hnot pin y t').
  - intros [= <-]. eapply lists_ext; [exact Hpin|]. intros t. destruct confirmed as [[]|]; simpl in *; [|done|done].
    split; [intros [_ Ht]; by exists true|]. intros ([] & ? & Ht); done.
Qed.

(** ** When the search returns *)

Definition readable (t : Transaction) : Prop :=
  (exists h, GetHash t = Return h) /\ exists b, filter t = Return b.
Definition readable_pb (p : pb_Txv1) : Prop := exists t, UnmarshalBinary p = Return t /\ readable t.

(** Every transaction can be read, hashed and filtered. *)
Record searchable (s : DagWorld) : Prop := {
  se_pins : Forall (fun pin => (exists h, TxPin_GetHash pin = Return h)
              /\ Forall (fun x => readable_pb (ex_Tx x)) (SmcTxs pin)
              /\ Forall (fun x => readable_pb (pb_n_Tx x)) (Nodes pin)) (pins (w_pins (world s)));
  se_pool : forall id t, unconfirmedPool (w_smc (world s)) !! id = Some t -> readable t;
  se_dag : Forall (fun l => exists n, dheap s !! l = Some n /\ readable (ntx n)) (d_dag (dg s))
}.

Lemma pin_smc_total num hs nodes l : Forall (fun x => readable_pb (ex_Tx x)) l ->
  forall k gas, exists r, pin_smc filter num hs nodes k gas l = Return r.
Proof.
  induction 1 as [|x l (t & Et & (h & Eh) & b & Eb) _ IH]; intros k gas; cbn [pin_smc]; [by eexists|].
  rewrite Et. cbn [outcome_bind]. rewrite Eh. cbn [outcome_bind]. rewrite Eb. cbn [outcome_bind].
  match goal with |- context [pin_smc _ _ _ _ ?k ?g l] => destruct (IH k g) as [r ->] end. by eexists.
Qed.

Lemma pin_payments_total num hs l : Forall (fun x => readable_pb (pb_n_Tx x)) l ->
  forall k, exists r, pin_payments filter num hs k l = Return r.
Proof.
  induction 1 as [|x l (t & Et & _ & b & Eb) _ IH]; intros k; cbn [pin_payments]; [by eexists|].
  rewrite Et. cbn [outcome_bind]. rewrite Eb. cbn [outcome_bind]. destruct (IH (k + 1)) as [r ->]. by eexists.
Qed.

Lemma pinned_txs_total wanted l :
  Forall (fun pin => (exists h, TxPin_GetHash pin = Return h)
     /\ Forall (fun x => readable_pb (ex_Tx x)) (SmcTxs pin)
     /\ Forall (fun x => readable_pb (pb_n_Tx x)) (Nodes pin)) l ->
  forall k, exists r, pinned_txs filter wanted k l = Return r.
Proof.
  induction 1 as [|pin l ([h Eh] & Hs & Hn) _ IH]; intros k; cbn [pinned_txs]; [by eexists|].
  rewrite Eh. cbn [outcome_bind].
  destruct (pin_smc_total k (Hex_String (Some h)) (Z.of_nat (length (Nodes pin))) _ Hs 0 0) as [smc Es].
  assert (exists smc', (if wanted then pin_smc filter k (Hex_String (Some h)) (Z.of_nat (length (Nodes pin)))
             0 0 (SmcTxs pin) else Return []) = Return smc') as [smc' ->] by (destruct wanted; eauto).
  cbn [outcome_bind]. destruct (pin_payments_total k (Hex_String (Some h)) _ Hn 0) as [p ->].
  cbn [outcome_bind]. destruct (IH (k + 1)) as [m ->]. by eexists.
Qed.

Lemma dag_payments_total processed h l :
  Forall (fun x => exists n, h !! x = Some n /\ readable (ntx n)) l ->
  exists r, dag_payments filter processed h l = Return r.
Proof.
  induction 1 as [|x l (n & En & _ & b & Eb) _ IH]; cbn [dag_payments]; [by eexists|].
  rewrite En. destruct IH as [r ->]. case_bool_decide; cbn [outcome_bind]; [by eexists|]. rewrite Eb. by eexists.
Qed.

Lemma collect_txs_total s confirmed :
  searchable s -> exists r, collect_txs s filter confirmed = Return r.
Proof.
  intros [Hp Hq Hd]. unfold collect_txs. destruct (pinned_txs_total (default true confirmed) _ Hp 0) as [p ->].
  cbn [outcome_bind]. case_match; [|by eexists]. unfold Pool_Find.
  assert (exists r, Find_loop (fun (u : unit) t => let! b := filter t in Return (b, u)) tt
            (map snd (map_range (objects {| objects := unconfirmedPool (w_smc (world s)); held := false |})))
            = Return r) as [r ->].
  { assert (Forall readable (map snd (map_range (unconfirmedPool (w_smc (world s)))))) as HF.
    { apply Forall_fmap, Forall_forall. intros [id t] Hin%elem_of_map_range. by eapply Hq. }
    cbn [objects]. induction HF as [|t l (_ & b & Eb) _ IH]; cbn [Find_loop]; [by eexists|].
    rewrite Eb. cbn [outcome_bind snd]. destruct IH as [r ->]. by eexists. }
  cbn [outcome_bind]. destruct (dag_payments_total (snd p) _ _ Hd) as [r' ->]. by eexists.
Qed.

Lemma located_readable s c t : searchable s -> located s filter c t -> exists h, GetHash t = Return h.
Proof.
  intros [Hp Hq Hd]. pose proof (proj1 (Forall_forall _ _) Hp) as Hp'. pose proof (proj1 (Forall_forall _ _) Hd) as Hd'.
  destruct 1 as [pin x t Hpin Hx Hu Hf|pin x t Hpin Hx Hu Hf|id t Hin Hf|l n Hl Hn Hf _].
  - destruct (Hp' pin Hpin) as (_ & Hs & _). rewrite Forall_forall in Hs.
    destruct (Hs x Hx) as (t' & Hu' & Hh & _). by assert (t = t') as -> by congruence.
  - destruct (Hp' pin Hpin) as (_ & _ & Hs). rewrite Forall_forall in Hs.
    destruct (Hs x Hx) as (t' & Hu' & Hh & _). by assert (t = t') as -> by congruence.
  - by apply (Hq id t).
  - destruct (Hd' l Hl) as (n' & Hn' & Hh & _). by assert (n = n') as -> by congruence.
Qed.
End Parts.

(** ** Duplicates *)

Lemma unique_txs_spec txs : forall m,
  Forall (fun u => exists h, unified_hash u = Return h) txs ->
  exists m', unique_txs m txs = Return m'
  /\ (forall k, is_Some (m' !! k) <-> is_Some (m !! k) \/
        exists u h, u ∈ txs /\ unified_hash u = Return h /\ hex_EncodeToString h = k)
  /\ (forall k u, m' !! k = Some u -> m !! k = Some u \/
        u ∈ txs /\ exists h, unified_hash u = Return h /\ hex_EncodeToString h = k).
Proof.
  induction txs as [|u txs IH]; intros m Hok; cbn [unique_txs].
  { exists m. split; [done|]. split; [|auto]. intros k. split; [by left|].
    intros [?|(u & h & ?%not_elem_of_nil & _)]; done. }
  apply Forall_cons in Hok as [[h Eh] Hok]. rewrite Eh. cbn [outcome_bind].
  destruct (IH (<[hex_EncodeToString h := u]> m) Hok) as (m' & E & Hdom & Hval). exists m'.
  split; [done|]. split.
  - intros k. rewrite Hdom, lookup_insert_is_Some'. split.
    + intros [[<-|?]|(u' & h' & Hin & ?)]; [right; exists u, h; split; [left|done]|by left|].
      right. exists u', h'. split; [by right|done].
    + intros [?|(u' & h' & [->|Hin]%elem_of_cons & Eh' & Ek)]; [left; by right| |right; by exists u', h'].
      left. left. congruence.
  - intros k u' Hu'. destruct (Hval k u' Hu') as [[[<- <-]|[_ ?]]%lookup_insert_Some|[Hin ?]].
    + right. split; [left|by exists h].
    + by left.
    + right. split; [by right|done].
Qed.

Lemma deduplicate_spec txs :
  Forall (fun u => exists h, unified_hash u = Return h) txs ->
  exists l, deduplicate txs = Return l /\ NoDup (map unified_hash l) /\ (forall u, u ∈ l -> u ∈ txs)
  /\ forall h, Return h ∈ map unified_hash l <-> Return h ∈ map unified_hash txs.
Proof.
  intros Hok. unfold deduplicate. destruct (unique_txs_spec txs ∅ Hok) as (m & -> & Hdom & Hval).
  cbn [outcome_bind]. eexists. split; [reflexivity|].
  assert (Hkey : forall k u, (k, u) ∈ map_range m -> u ∈ txs /\ exists h, unified_hash u = Return h
            /\ hex_EncodeToString h = k).
  { intros k u Hin%elem_of_map_range. destruct (Hval k u Hin) as [?|?]; [by rewrite lookup_empty in *|done]. }
  split_and!.
  - pose proof (map_range_NoDup m) as Hnd. revert Hnd Hkey. generalize (map_range m). clear.
    induction l as [|[k u] l IH]; intros Hnd Hkey; simpl; [constructor|].
    apply NoDup_cons in Hnd as [Hk Hnd]. constructor.
    + intros (u' & Eu & ([k' u''] & -> & Hin)%list_elem_of_fmap)%list_elem_of_fmap. simpl in Eu. apply Hk.
      destruct (Hkey k u ltac:(left)) as (_ & h & Eh & <-).
      destruct (Hkey k' u'' ltac:(by right)) as (_ & h' & Eh' & <-).
      assert (h = h') as -> by congruence. apply list_elem_of_fmap. by exists (hex_EncodeToString h', u'').
    + apply IH; [done|]. intros k' u' Hin. apply Hkey. by right.
  - intros u ([k u'] & -> & Hin)%list_elem_of_fmap. by apply (Hkey k u').
  - intros h. split.
    + intros (u & Eu & ([k u'] & -> & Hin)%list_elem_of_fmap)%list_elem_of_fmap.
      apply list_elem_of_fmap. exists u'. split; [done|]. by apply (Hkey k u').
    + intros (u & Eu & Hin)%list_elem_of_fmap.
      destruct (proj2 (Hdom (hex_EncodeToString h))) as [u' Hu'].
      { right. by exists u, h. }
      destruct (Hkey (hex_EncodeToString h) u') as (_ & h' & Eh' & Ek); [by apply elem_of_map_range|].
      apply hex_EncodeToString_inj in Ek as ->. apply list_elem_of_fmap. exists u'. split; [done|].
      apply list_elem_of_fmap. exists (hex_EncodeToString h, u'). split; [done|]. by apply elem_of_map_range.
Qed.

(** ** The search *)

Section SearchTxs.
Variable order : bool -> list UnifiedTx -> list UnifiedTx.
Hypothesis order_perm : forall asc l, order asc l ≡ₚ l.

(** C10: a search returns what is there.  When every transaction of the node can
    be read, [SearchTxs] returns a page of a list in which every hash occurs
    once, and whose hashes are exactly those of the transactions that pass the
    filters and are confirmed (contracts and payments of the pins) or pending
    (pooled contracts and payments of the dag that no pin has), as requested.
    [order] is what the sort leaves. *)
Theorem SearchTxs_finds s accounts txType limit offset asc confirmed directionIsSent :
  let filter := fun t => accountFilter t accounts txType directionIsSent in
  searchable filter s -> 0 <= limit -> 0 <= offset ->
  exists l,
    SearchTxs order s accounts txType limit offset asc confirmed directionIsSent
    = Return (take (Z.to_nat limit) (drop (Z.to_nat offset) l))
    /\ NoDup (map unified_hash l)
    /\ forall h, Return h ∈ map unified_hash l <->
       exists c t, default c confirmed = c /\ located s filter c t /\ GetHash t = Return h.
Proof.
  intros filter Hs Hl Ho. unfold SearchTxs. fold filter.
  destruct (collect_txs_total filter s confirmed Hs) as [found Ef]. rewrite Ef. cbn [outcome_bind].
  pose proof (collect_txs_spec _ _ _ _ Ef) as [Hholds Hfound].
  assert (Forall (fun u => exists h, unified_hash u = Return h) found) as Hh.
  { rewrite Forall_forall in Hholds |- *. intros u Hu. unfold unified_hash.
    destruct (Hholds u Hu) as [t Ht]. unfold holds in Ht. rewrite Ht. cbn [outcome_bind].
    destruct (proj1 (Hfound t)) as (c & _ & Hloc); [by exists u|]. by eapply located_readable. }
  destruct (deduplicate_spec found Hh) as (l & -> & Hnd & _ & Hall). cbn [outcome_bind].
  exists (order asc l). split; [by apply paginate_spec|].
  assert (map unified_hash (order asc l) ≡ₚ map unified_hash l) as Hperm by (by rewrite (order_perm asc l)).
  split; [by rewrite Hperm|]. intros h. rewrite Hperm, Hall. split.
  - intros (u & Eu & Hu)%list_elem_of_fmap. unfold unified_hash in Eu.
    destruct (GetRawTx u) as [t|] eqn:Et; [|done]. cbn [outcome_bind] in Eu.
    destruct (proj1 (Hfound t)) as (c & Hc & Hloc); [by exists u|]. by exists c, t.
  - intros (c & t & Hc & Hloc & Et). destruct (proj2 (Hfound t)) as (u & Hu & Eu); [by exists c|].
    apply list_elem_of_fmap. exists u. split; [|done]. unfold unified_hash. by rewrite Eu.
Qed.
End SearchTxs.
End Found.

(** A leader whose genesis node and first payment are in its dag. *)
Lemma SearchTxs_finds_witness :
  exists l, SearchTxs (fun _ l => l) paying_dag [] (-1) 10 0 true None None = Return l
  /\ (length l <= 10)%nat.
Proof.
  destruct (SearchTxs_finds (fun _ l => l) (fun _ l => Permutation_refl l) paying_dag [] (-1) 10 0 true None None)
    as (l & E & _ & _).
  - split.
    + vm_compute. constructor; [|constructor]. split; [eexists; reflexivity|]. split; constructor.
    + intros id t Hin. vm_compute in Hin. discriminate Hin.
    + vm_compute. constructor; [|constructor]. eexists. split; [reflexivity|]. split; eexists; reflexivity.
  - lia.
  - lia.
  - eexists. split; [exact E|]. rewrite length_take. lia.
Defined.
