(* ===== verification/Diffusion.v ===== *)
(** Diffusion of transactions: [diffusion/publish.go] and
    [diffusion/subscribe.go], with the record's wire form of [tx/grapetx.go].

    The publisher, the subscriber and the inserter are goroutines around one
    operation each; an iteration of their loops is one definition here.  The
    publish queue and the inbound queue are the FIFO queues that the lock-free
    queue implements (see [LockFreeProps]).  The topic, its mesh, statistics
    and delay warnings are left out; whether [topic.Publish] succeeds, the
    clock, the uuids and the random draws are arguments. *)
From S2P Require Import Prelude GoLib Bytes StateMachine Tx TxRecords Storage Pool WalletCache Node Pin.
From S2P Require Import Confirmation Weights Dag.

(** ** State *)

Inductive SubInTxCmd := SUBINTX_INSERT | SUBINTX_STOP.

(** [vertex] is the address of the node, nil for the stop command. *)
Record SubInTx := {
  cmd : SubInTxCmd; vertex : option loc; sub_id : uuid; sub_idMajor : Z; sub_idMinor : Z;
  targetIds : list UuidSlice
}.

Section State.
Context `{!CollSet uuid}.

(** [prevMajor] and [prevMinor] are fields of the dag. *)
Record Peer := {
  p_dag : DagWorld; prevMajor : Z; prevMinor : Z; leaderReady : bool;
  publishQueue : list Transaction; subintxq : list SubInTx
}.

Definition with_p_dag (p : Peer) (x : DagWorld) : Peer :=
  {| p_dag := x; prevMajor := prevMajor p; prevMinor := prevMinor p; leaderReady := leaderReady p;
     publishQueue := publishQueue p; subintxq := subintxq p |}.
Definition next_major (p : Peer) : Peer :=
  {| p_dag := p_dag p; prevMajor := to_uint64 (prevMajor p + 1); prevMinor := prevMinor p;
     leaderReady := leaderReady p; publishQueue := publishQueue p; subintxq := subintxq p |}.
Definition with_leaderReady (p : Peer) (x : bool) : Peer :=
  {| p_dag := p_dag p; prevMajor := prevMajor p; prevMinor := prevMinor p; leaderReady := x;
     publishQueue := publishQueue p; subintxq := subintxq p |}.
Definition with_publishQueue (p : Peer) (x : list Transaction) : Peer :=
  {| p_dag := p_dag p; prevMajor := prevMajor p; prevMinor := prevMinor p;
     leaderReady := leaderReady p; publishQueue := x; subintxq := subintxq p |}.
Definition with_subintxq (p : Peer) (x : list SubInTx) : Peer :=
  {| p_dag := p_dag p; prevMajor := prevMajor p; prevMinor := prevMinor p;
     leaderReady := leaderReady p; publishQueue := publishQueue p; subintxq := x |}.
End State.

(** ** Wire form of a record *)

Class ProtoGrapeLib := {
  proto_Marshal_GrapeTx : pb_GrapeTxRecord -> option bytes;
  proto_Unmarshal_GrapeTx : bytes -> option pb_GrapeTxRecord
}.

Definition empty_GrapeTx : GrapeTx :=
  {| PeerID := ""; Seq := 0; g_Tx := []; Addrs := []; Version := 0;
     g_Ids := {| IDs := []; Signatures := ∅ |}; g_Transaction := None; TxIdMajor := 0;
     TxIdMinor := 0; TxIdId := uuid_Nil |}.

Section Record_.
Context `{CryptoLib} `{ProtoLib} `{TimestampLib} `{EthLib} `{Goterators} `{PeerLib} `{ProtoGrapeLib}.

(** The deferred [HandlePanic] turns a panic into an error; the payload is nil
    then. *)
Definition MarshalRecord (r : GrapeTx) (now : Z) : bytes * bool :=
  match GrapeTx_ToProtobuf r now with
  | Return (Some m) => match proto_Marshal_GrapeTx m with
                       | Some b => (b, true)
                       | None => ([], false)
                       end
  | _ => ([], false)
  end.

(** The record afterwards and whether there was no error. *)
Definition UnmarshalRecord (r : GrapeTx) (b : bytes) : GrapeTx * bool :=
  match proto_Unmarshal_GrapeTx b with
  | None => (r, false)
  | Some msg => match GrapeTxFromProtobuf msg with
                | Panic => (r, false)
                | Return r' => (r', true)
                end
  end.

(** [NewGrapeTx] with the publisher's transaction. *)
Definition ConvertToGrapeTx (peerId : string) (addrs : list bytes) (seq : Z) (t : Transaction)
  : GrapeTx :=
  {| PeerID := peerId; Seq := seq; g_Tx := []; Addrs := addrs; Version := TVX1;
     g_Ids := {| IDs := []; Signatures := ∅ |}; g_Transaction := Some t; TxIdMajor := 0;
     TxIdMinor := 0; TxIdId := uuid_Nil |}.

End Record_.

(** ** Publisher, subscriber, inserter *)

(** What the outside returns during one iteration. *)
Record pub_env := {
  pe_network : Z; pe_id : uuid; pe_weight : float64; pe_time : Z; pe_fuel : nat;
  pe_draws : add_draws; pe_now : Z; pe_peer : string; pe_addrs : list bytes; pe_seq : Z;
  pe_open : bool
}.

(** How an iteration of the publisher ends: the queue was empty, the stop
    command came, the transaction was dropped, or a record was handed to the
    topic. *)
Inductive pub_result :=
| PubIdle | PubStop | PubDiscarded
| PubSent (r : GrapeTx) (payload : bytes) (published : bool).

Section Diffusion.
Context `{CryptoLib} `{ProtoLib} `{TimestampLib} `{EthLib} `{UuidLib} `{ProtoPinLib}.
Context `{Goterators} `{MathLib} `{MapRange} `{!CollSet uuid} `{PeerLib} `{ProtoGrapeLib}.
Variable cfg : DagConfiguration.
Variable RunCall : Storage -> pb_Txv1 -> PinTxHeader -> Storage * (CallResponse + string).
Variable coinbase : string.
Variable dagWallet : Wallet.
Variable undef : string -> Z.
Variable maxFuel : Z.
Variable ReverseSlice : list loc -> list loc.
Variable base64 : bytes -> string.

(** [NewDagNode] with the dag's counters, and the address of the node. *)
Definition new_node_for (p : Peer) (network : Z) (id : uuid) (weight : float64) (time : Z)
    (t : Transaction) (verify : bool) : outcome (Peer * option loc) :=
  let p := next_major p in
  let! n := NewDagNode base64 network (prevMajor p) (prevMinor p) id weight time t verify in
  match n with
  | None => Return (p, None)
  | Some n => let '(s, l) := alloc (p_dag p) n in Return (with_p_dag p s, Some l)
  end.

(** [dag.GetDag().SyncUp()] of a leader. *)
Definition leader_sync (leader : bool) (now : Z) (p : Peer) : outcome Peer :=
  if leader then
    let! r := SyncUp RunCall coinbase dagWallet undef maxFuel now (p_dag p) (leaderReady p) in
    Return (with_leaderReady (with_p_dag p (fst r)) (snd r))
  else Return p.

(** The record the publisher sends for the node at [l]. *)
Definition published_record (e : pub_env) (t : Transaction) (n : Node) (ids : list uuid)
    (signatures : gmap string bytes) : GrapeTx :=
  let r := ConvertToGrapeTx (pe_peer e) (pe_addrs e) (pe_seq e) t in
  {| PeerID := PeerID r; Seq := Seq r; g_Tx := string_bytes (uuid_String (uid n));
     Addrs := Addrs r; Version := Version r;
     g_Ids := {| IDs := gt_ForEach (fun acc id =>
                          acc ++ [{| Is_empty := bool_decide (id = uuid_Nil); us_Id := id |}]) ids [];
                 Signatures := signatures |};
     g_Transaction := Some t; TxIdMajor := idMajor (nid n); TxIdMinor := idMinor (nid n);
     TxIdId := TxIdId r |}.

Definition TX_SERVICE_STOP : bytes := string_bytes "stop".

Definition publish (leader : bool) (e : pub_env) (p : Peer) : option (outcome (Peer * pub_result)) :=
  match publishQueue p with
  | [] => Some (Return (p, PubIdle))
  | t :: q =>
      let p := with_publishQueue p q in
      if IsService t && IsPayload t TX_SERVICE_STOP then Some (Return (p, PubStop))
      else
        match new_node_for p (pe_network e) (pe_id e) (pe_weight e) (pe_time e) t false with
        | Panic => Some Panic
        | Return (p, None) => Some (let! _ := print_tx t in Return (p, PubDiscarded))
        | Return (p, Some l) =>
            fuel_bind (AddTxDag cfg (pe_fuel e) (pe_draws e) (pe_now e) (p_dag p) l)
              (fun '(s, res) =>
                 let p := with_p_dag p s in
                 Some (
                   match res, dheap s !! l with
                   | None, _ => let! _ := print_tx t in Return (p, PubDiscarded)
                   | Some _, None => Panic
                   | Some (ids, signatures), Some n =>
                       let r := published_record e t n ids signatures in
                       let '(payload, ok) := MarshalRecord r (pe_now e) in
                       let! _ := if ok then Return tt else print_tx t in
                       let! p := if pe_open e then leader_sync leader (pe_now e) p else Return p in
                       Return (p, PubSent r payload (pe_open e))
                   end))
        end
  end.

(** What the outside returns while a message is handled. *)
Record sub_env := { se_network : Z; se_id : uuid; se_weight : float64; se_time : Z }.

(** One message: its sender and its data.  A record that could not be read has
    no transaction. *)
Definition subscribe (hostID : string) (e : sub_env) (p : Peer) (receivedFrom : string) (data : bytes)
  : outcome Peer :=
  if bool_decide (receivedFrom = hostID) then Return p
  else
    let '(r, _) := UnmarshalRecord empty_GrapeTx data in
    match g_Transaction r with
    | None => Panic
    | Some t =>
        let! q := new_node_for p (se_network e) (se_id e) (se_weight e) (se_time e) t true in
        match q with
        | (p, None) => let! _ := print_tx t in Return p
        | (p, Some l) =>
            match uuid_Parse (bytes_string (g_Tx r)) with
            | None => Panic
            | Some id =>
                Return (with_subintxq p
                  (subintxq p ++ [{| cmd := SUBINTX_INSERT; vertex := Some l; sub_id := id;
                                     sub_idMajor := TxIdMajor r; sub_idMinor := TxIdMinor r;
                                     targetIds := IDs (g_Ids r) |}]))
            end
        end
    end.

(** The last statement of a subscriber whose subscription was cancelled. *)
Definition unsubscribe (p : Peer) : Peer :=
  with_subintxq p (subintxq p ++ [{| cmd := SUBINTX_STOP; vertex := None; sub_id := uuid_Nil;
                                     sub_idMajor := 0; sub_idMinor := 0; targetIds := [] |}]).

Inductive insert_result := InsIdle | InsStop | InsDone | InsFailed (err : InsertError).

Definition runInsert (leader : bool) (now : Z) (p : Peer) : outcome (Peer * insert_result) :=
  match subintxq p with
  | [] => Return (p, InsIdle)
  | m :: q =>
      let p := with_subintxq p q in
      match cmd m, vertex m with
      | SUBINTX_STOP, _ => Return (p, InsStop)
      | SUBINTX_INSERT, None => Panic
      | SUBINTX_INSERT, Some l =>
          let! r := InsertTxDag cfg ReverseSlice now (p_dag p) l (sub_id m) (sub_idMajor m)
                      (sub_idMinor m) (map us_Id (targetIds m)) in
          let p := with_p_dag p (fst r) in
          match snd r with
          | Some err =>
              match dheap (fst r) !! l with
              | None => Panic
              | Some n => let! _ := print_tx (ntx n) in Return (p, InsFailed err)
              end
          | None => let! p := leader_sync leader now p in Return (p, InsDone)
          end
      end
  end.

(** The ticker of the watcher: a leader that is ready forms a pin. *)
Definition watch_tick (leader : bool) (now : Z) (p : Peer) : outcome Peer :=
  if leader && leaderReady p then
    let! s := genPinTx RunCall coinbase dagWallet undef maxFuel now (p_dag p) in
    Return (with_p_dag p s)
  else Return p.

(** The ticker of the subscriber. *)
Definition reconcile_tick (p : Peer) : outcome Peer :=
  let! r := ReconcileMissingTargets (p_dag p) in Return (with_p_dag p (fst r)).
End Diffusion.
