(* ===== verification/DiffusionProps.v ===== *)
(** A payment that one peer publishes reaches the dag of another, and what the
    goroutines of a peer keep. *)
From S2P Require Import Prelude GoLib Bytes Tx TxRecords Storage Pool WalletCache Node Pin.
From S2P Require Import PinProps PinSync Confirmation Weights Dag DagProps DagSteps Diffusion.

Section Insert.
Context `{CryptoLib} `{ProtoLib} `{TimestampLib} `{EthLib} `{UuidLib}.
Context `{Goterators} `{MathLib} `{MapRange} `{!CollSet uuid}.
Variable cfg : DagConfiguration.
Variable ReverseSlice : list loc -> list loc.
Hypothesis ReverseSlice_perm : forall l, ReverseSlice l ≡ₚ l.

(** The dag knows the node of each id. *)
Definition known (s : DagWorld) (ids : list uuid) (cs : list loc) : Prop :=
  Forall2 (fun id c => mapped_vertices (dg s) !! id = Some c) ids cs.

Lemma find_candidates_known s ids cs : known s ids cs -> find_candidates s ids = Return (s, cs, []).
Proof.
  induction 1 as [|id c ids cs Hc _ IH]; cbn [find_candidates]; [done|].
  unfold getById. rewrite Hc. cbn [outcome_bind]. by rewrite IH.
Qed.

Lemma known_exists s ids :
  Forall (fun id => is_Some (mapped_vertices (dg s) !! id)) ids -> exists cs, known s ids cs.
Proof.
  unfold known. induction 1 as [|id ids [c Hc] _ [cs IH]]; [by exists []; constructor|].
  exists (c :: cs). by constructor.
Qed.

Lemma known_ids s ids cs : dag_inv s -> known s ids cs ->
  node_ids (dheap s) cs = Return ids /\ Forall (fun c => c ∈ d_dag (dg s)) cs.
Proof.
  intros I. induction 1 as [|id c ids cs Hc _ [IH1 IH2]]; cbn [node_ids]; [done|].
  destruct (inv_mapped s I id c Hc) as [Hin Hu]. destruct (dheap s !! c) as [m|]; [|done].
  injection Hu as Hu. rewrite IH1. cbn [outcome_bind]. rewrite Hu. by split; [|constructor].
Qed.

(** The ledger of [s] accepts the payment [t] under the id [id]. *)
Definition covers (s : DagWorld) (id : uuid) (t : Transaction) : Prop :=
  forall n, uid n = id -> ntx n = t ->
  exists wc, UpdateBalanceIfValid (w_pins (world s)) (walletCache (world s)) n = Return (wc, true).

(** The dag has the transaction [t] under [id], with version [ver], and it
    approves the transactions [ids]. *)
Definition has_node (s : DagWorld) (id : uuid) (t : Transaction) (ver : Z * Z) (ids : list uuid) : Prop :=
  exists l n, getById (dheap s) (dg s) id true = Return (Some l) /\ dheap s !! l = Some n
  /\ uid n = id /\ ntx n = t /\ (idMajor (nid n), idMinor (nid n)) = ver
  /\ node_ids (dheap s) (targets n) = Return ids.

Lemma insert_tail s l cs :
  dag_inv s -> is_Some (dheap s !! l) -> Forall (fun c => is_Some (dheap s !! c)) cs ->
  exists s',
  (let s := with_dg s (set_links (dg s) (d_links (dg s) ++ links_from l cs)) in
   if bool_decide (Algorithm cfg = DagAlgo_Type DAG_ALGO_MCMCP) then
     let nodes := ReverseSlice (d_dag (dg s)) in
     let! h := updateCumWeights cfg (dheap s) nodes in
     Return (with_dg (with_dheap s h) (set_dag (dg s) (ReverseSlice nodes)), (None : option InsertError))
   else Return (s, None)) = Return (s', None)
  /\ dag_inv s' /\ mapped_vertices (dg s') = mapped_vertices (dg s) /\ same_shape (dheap s) (dheap s')
  /\ forall x, (fun m => (nid m, ntx m)) <$> dheap s !! x = (fun m => (nid m, ntx m)) <$> dheap s' !! x.
Proof.
  intros I [n Hn] Hcs.
  assert (dag_inv (with_dg s (set_links (dg s) (d_links (dg s) ++ links_from l cs)))) as I1.
  { apply inv_set_links; [done|]. apply Forall_app. split; [apply I|by eapply new_links_ok]. }
  cbv zeta. case_bool_decide; [|by eexists].
  destruct (cumWeights_total cfg (rev (ReverseSlice (d_dag (dg s)))) (dheap s)) as [h E].
  { rewrite <- Permutation_rev, ReverseSlice_perm. apply Forall_forall. intros x Hx.
    destruct (inv_dag s I x Hx) as (m & Hm & _). exists m. split; [done|]. apply Forall_forall.
    intros y Hy. destruct (inv_sources s I x m y Hm Hy) as (? & ? & _). by eexists. }
  assert (updateCumWeights cfg (dheap s) (ReverseSlice (d_dag (dg s))) = Return h) as E' by exact E.
  match goal with |- context [updateCumWeights cfg ?h0 ?l0] =>
    change (updateCumWeights cfg h0 l0)
      with (updateCumWeights cfg (dheap s) (ReverseSlice (d_dag (dg s)))) end.
  rewrite E'. cbn [outcome_bind]. eexists. split; [reflexivity|].
  assert (same_shape (dheap s) h) as Hsh by by apply cumWeights_shape in E.
  split; [|split; [done|]; split; [done|]; by eapply cumWeights_field].
  eapply (dag_inv_shape _ _ I1); try done. cbn. by rewrite !ReverseSlice_perm.
Qed.

(** A node whose targets are known is inserted, as its publisher has it. *)
Lemma InsertTxDag_inserts now s l n txId major minor ids cs :
  dag_inv s -> dheap s !! l = Some n -> isolated n -> l ∉ d_dag (dg s) ->
  mapped_vertices (dg s) !! txId = None -> known s ids cs -> Versioncollision cfg = false ->
  covers s txId (ntx n) ->
  exists s', InsertTxDag cfg ReverseSlice now s l txId major minor ids = Return (s', None)
  /\ dag_inv s' /\ has_node s' txId (ntx n) (major, minor) ids.
Proof.
  intros I Hl Hiso Hnin Hnew Hk Hvc Hcov. unfold InsertTxDag. rewrite Hl.
  set (iv := set_time (set_nid n _) now). set (s1 := with_dheap s (<[l := iv]> (dheap s))).
  assert (dag_inv s1) as I1 by (apply inv_set_isolated; eauto).
  change (getById (dheap s1) (dg s1) txId true) with (getById (dheap s1) (dg s) txId true).
  unfold getById. rewrite Hnew. cbn [outcome_bind].
  rewrite (find_candidates_known s1 ids cs Hk). cbn [outcome_bind].
  destruct (known_ids s1 ids cs I1 Hk) as [Hids Hcs].
  replace (length cs =? length ids)%nat with true by (symmetry; apply Nat.eqb_eq, eq_sym, (Forall2_length _ _ _ Hk)).
  cbn [negb]. rewrite Hvc. cbn [outcome_bind].
  assert (addable s1 l iv) as Ha by (split; [cbn; by rewrite lookup_insert_eq|done|done|done]).
  assert (l ∉ cs) as Hself by (intros Hin; rewrite Forall_forall in Hcs; by apply Hnin, Hcs).
  assert (Forall (fun c => is_Some (dheap s1 !! c)) cs) as Hsome.
  { eapply Forall_impl; [exact Hcs|]. intros c Hc. destruct (inv_dag s1 I1 c Hc) as (m & ? & _). by eexists. }
  destruct (Hcov iv eq_refl eq_refl) as [wc Hwc].
  destruct (addToDag_total now s1 l iv cs wc true) as [s2 E]; [done|done|done|done|done|by left|]. rewrite E. cbn [outcome_bind fst snd].
  apply (addToDag_spec now s1 l iv) in E as [_ (ts & Heq & Hadd)]; [|done|done|].
  2:{ simpl. intros (x & [= ->] & Hx)%list_elem_of_fmap. done. }
  simpl in Heq. apply (inj (map Some)) in Heq as <-.
  destruct Hadd as [I2 _ Hm2 _ (n2 & Hn2 & Hu2 & Ht2 & Hx2 & _ & _ & Hi2) _ L _].
  destruct (insert_tail s2 l cs I2) as (s3 & E3 & I3 & Hm3 & Hsh3 & Hf3).
  { by eexists. }
  { eapply Forall_impl; [exact Hsome|]. intros c Hc.
    destruct (decide (c = l)) as [->|]; [by eexists|]. destruct Hc as [m Hm].
    destruct (lh_lookup_fwd _ _ _ _ _ c m L) as (m' & ? & _); [done|done|by eexists]. }
  unfold links_from in E3. rewrite E3. exists s3. split; [done|]. split; [done|].
  destruct (shape_lookup _ _ l n2 (same_shape_sym _ _ Hsh3) Hn2) as (n3 & Hn3 & Hu3 & Ht3 & _).
  specialize (Hf3 l). rewrite Hn2, Hn3 in Hf3. injection Hf3 as Hni Hnt.
  exists l, n3. unfold getById. rewrite Hm3, Hm2. change (uid iv) with txId. rewrite lookup_insert_eq.
  split; [done|]. split; [done|]. split; [by rewrite Hu3, Hu2|]. split; [by rewrite <- Hnt, Hx2|].
  split; [by rewrite <- Hni, Hi2|].
  rewrite Ht3, Ht2, <- (node_ids_shape _ _ cs Hsh3), (lh_node_ids _ _ _ _ _ cs L) by done. exact Hids.
Qed.
End Insert.

Section Diffuse.
Context `{CryptoLib} `{ProtoLib} `{TimestampLib} `{EthLib} `{UuidLib} `{ProtoPinLib}.
Context `{Goterators} `{MathLib} `{MapRange} `{!CollSet uuid} `{PeerLib} `{ProtoGrapeLib}.
Variable RunCall : Storage -> pb_Txv1 -> PinTxHeader -> Storage * (CallResponse + string).
Variable coinbase : string.
Variable dagWallet : Wallet.
Variable undef : string -> Z.
Variable maxFuel : Z.
Variable base64 : bytes -> string.

(** ** The publisher *)

(** A payment between addresses. *)
Record payment (network : Z) (t : Txv1) : Prop := {
  pay_type : Tx_Type t = PAYMENT;
  pay_network : Chain_Type t = network;
  pay_sender : length (Sender t) = 20%nat;
  pay_recipient : length (Recepient t) = 20%nat;
  pay_ok : Txv1_ok t
}.

(** A peer that can publish a payment: its dag is well formed and readable, has
    the genesis node and, once it is wide, tips. *)
Record can_publish (cfg : DagConfiguration) (s : DagWorld) : Prop := {
  cp_inv : dag_inv s;
  cp_readable : readable (dheap s) (d_dag (dg s));
  cp_algorithm : Algorithm cfg <> DagAlgo_Type DAG_ALGO_RANDOM;
  cp_tips : exists g rest, d_dag (dg s) = g :: rest
    /\ (Z.of_nat (length rest) < width (dg s) \/ getTips (counter s) <> []);
  cp_ids : forall id l, mapped_vertices (dg s) !! id = Some l -> uuid_ok id
}.

Lemma new_node_for_Txv1 p network id w now t verify :
  Chain_Type t = network -> (verify = true -> VerifySignature_ok (ATxv1 t) = Return true) ->
  exists n s l, new_node_for base64 p network id w now (ATxv1 t) verify
    = Return (with_p_dag (next_major p) s, Some l)
  /\ alloc (p_dag p) n = (s, l) /\ isolated n /\ ntx n = ATxv1 t /\ uid n = id
  /\ (idMajor (nid n), idMinor (nid n)) = (to_uint64 (prevMajor p + 1), prevMinor p)
  /\ GetSignature (ntx n) = Return (Signature t).
Proof.
  intros Hc Hv. unfold new_node_for, NewDagNode. cbn [GetChainType outcome_bind]. rewrite Hc, Z.eqb_refl.
  cbn [negb]. destruct verify; [rewrite (Hv eq_refl); cbn [outcome_bind]|];
    unfold Node_GenerateAddress; cbn [ntx GetSignature outcome_bind];
    (destruct (alloc _ _) as [s l] eqn:E; eexists _, s, l; split; [reflexivity|]; by split; [exact E|]).
Qed.

Lemma for_each_ids ids :
  gt_ForEach (fun acc id => acc ++ [{| Is_empty := bool_decide (id = uuid_Nil); us_Id := id |}]) ids []
  = map (fun id => {| Is_empty := bool_decide (id = uuid_Nil); us_Id := id |}) ids.
Proof.
  rewrite gt_ForEach_spec. set (f := fun id => _ : UuidSlice).
  enough (forall acc, fold_left (fun acc id => acc ++ [f id]) ids acc = acc ++ map f ids) as E by apply E.
  induction ids as [|id ids IH]; intros acc; cbn [fold_left map]; [by rewrite app_nil_r|].
  by rewrite IH, <- app_assoc.
Qed.

Lemma tips_chosen_in s g rest ts :
  dag_inv s -> d_dag (dg s) = g :: rest -> tips_chosen s g rest ts -> Forall (fun t => t ∈ d_dag (dg s)) ts.
Proof.
  intros I Hd. unfold tips_chosen. destruct (_ <? _).
  { intros ->. rewrite Hd. constructor; [left|constructor]. }
  assert (forall x, x ∈ getTips (counter s) -> x ∈ d_dag (dg s)) as Hin.
  { intros x Hx. by destruct (elem_of_getTips s x I Hx) as (_ & _ & _ & ?). }
  destruct (getTips (counter s)) as [|a [|b l]]; [by intros ->| |].
  - intros ->. constructor; [|constructor; [|constructor]]; apply Hin; left.
  - intros (x & y & -> & Hx & Hy & _). constructor; [|constructor; [|constructor]]; by apply Hin.
Qed.

Lemma node_ids_mapped s ts : dag_inv s -> Forall (fun t => t ∈ d_dag (dg s)) ts -> forall ids,
  node_ids (dheap s) ts = Return ids -> Forall (fun id => is_Some (mapped_vertices (dg s) !! id)) ids.
Proof.
  intros I. induction 1 as [|x ts Hx _ IH]; intros ids; cbn [node_ids]; [by intros [= <-]|].
  destruct (inv_dag s I x Hx) as (m & -> & Hm). destruct (node_ids _ ts); cbn [outcome_bind]; [|done].
  intros [= <-]. constructor; [by eexists|by apply IH].
Qed.

Lemma publish_sends cfg e p t q :
  publishQueue p = ATxv1 t :: q -> payment (pe_network e) t -> can_publish cfg (p_dag p) ->
  mapped_vertices (dg (p_dag p)) !! pe_id e = None -> draws_ok (pe_draws e) ->
  covers (p_dag p) (pe_id e) (ATxv1 t) -> pe_open e = true ->
  exists p' n ids sigs,
    let r := published_record e (ATxv1 t) n ids sigs in
    publish cfg RunCall coinbase dagWallet undef maxFuel base64 false e p
    = Some (Return (p', PubSent r (fst (MarshalRecord r (pe_now e))) true))
    /\ publishQueue p' = q /\ dag_inv (p_dag p') /\ uid n = pe_id e
    /\ (idMajor (nid n), idMinor (nid n)) = (to_uint64 (prevMajor p + 1), prevMinor p)
    /\ has_node (p_dag p') (pe_id e) (ATxv1 t) (idMajor (nid n), idMinor (nid n)) ids
    /\ Forall uuid_ok ids.
Proof.
  intros Hq [Ht Hnet Hs Hr Hok] [I Hread Halg (g & rest & Hdag & Htips) Huids] Hnew Hd Hcov Hopen.
  unfold publish. rewrite Hq. cbn [IsService]. unfold Txv1_IsService. rewrite Ht. cbn [andb].
  destruct (new_node_for_Txv1 (with_publishQueue p q) (pe_network e) (pe_id e) (pe_weight e) (pe_time e) t false)
    as (n & s & l & E & Ea & Hiso & Hnt & Hid & Hver & Hsig); [done|done|]. rewrite E.
  cbn [p_dag with_publishQueue with_p_dag next_major] in *.
  pose proof Ea as Ea'. injection Ea' as Es _.
  assert (world s = with_heap (world (p_dag p)) (dheap s) /\ counter s = counter (p_dag p)) as [Hw Hcc]
    by by rewrite <- Es.
  apply alloc_spec in Ea as (I1 & Hnone & Hh & Hdg & _ & Hnin); [|done|done].
  assert (readable (dheap s) (d_dag (dg s))) as Hread1.
  { rewrite Hdg. eapply Forall_impl; [exact Hread|]. intros x (m & Hm & Hsm). exists m. split; [|done].
    rewrite Hh, lookup_insert_ne; [done|congruence]. }
  assert (signed_by_address n) as Hsba.
  { split; [exists (Sender t); by rewrite Hnt|by eexists]. }
  destruct (AddTxDag_pays cfg (pe_fuel e) (pe_draws e) (pe_now e) s l n g rest)
    as (ts & s' & r & wc & ok & Eadd & Hch & Hub & _ & I' & _ & Hres); try done.
  { split; [by rewrite Hh, lookup_insert_eq|done|by rewrite Hdg|by rewrite Hdg, Hid]. }
  { split; [done|by rewrite Hnt]. }
  { by rewrite Hnt. }
  { by rewrite Hdg. }
  { by rewrite Hdg, Hcc. }
  destruct (Hcov n Hid Hnt) as [wc1 Hcov1]. rewrite Hw in Hub. cbn in Hub. rewrite Hcov1 in Hub.
  injection Hub as <- <-. destruct Hres as [(ids & sigs & -> & Hids) _ Hf Htg Hnd Hpi].
  rewrite Eadd. cbn [fuel_bind]. destruct (dheap s' !! l) as [n'|] eqn:Hn'; [|done].
  injection Hnd as Hni Hnx. injection Htg as Htg.
  destruct (MarshalRecord _ _) as [payload okm] eqn:Em.
  assert (print_tx (ATxv1 t) = Return tt) as Hpr.
  { by apply (print_tx_addressed _ (Sender t)); [..|left]. }
  exists (with_p_dag (with_p_dag (next_major (with_publishQueue p q)) s) s'), n', ids, sigs.
  cbv zeta. rewrite Em, Hopen, Hpr. cbn [leader_sync].
  split; [by destruct okm|]. split; [done|]. split; [done|].
  assert (uid n' = pe_id e) as Hu by (unfold uid in *; by rewrite Hni).
  split; [done|]. split; [by rewrite Hni|]. split.
  - exists l, n'. rewrite <- Hid. split; [done|]. split; [done|]. split; [by rewrite Hu|].
    split; [by rewrite Hnx|]. split; [done|]. cbn [p_dag with_p_dag].
    by rewrite Htg, Hpi.
  - apply (tips_chosen_in s g rest) in Hch; [|done|by rewrite Hdg].
    eapply Forall_impl; [exact (node_ids_mapped s ts I1 Hch ids Hids)|]. intros id [x Hx].
    rewrite Hdg in Hx. by eapply Huids.
Qed.

(** ** The subscriber *)

Lemma bytes_string_bytes s : bytes_string (string_bytes s) = s.
Proof.
  unfold bytes_string, string_bytes. rewrite map_map.
  rewrite (map_ext _ id (fun c => Ascii.ascii_of_byte_of_ascii c)), map_id.
  apply String.string_of_list_ascii_of_string.
Qed.

(** A peer that can insert the node: it does not have it, knows its targets and
    accepts the payment. *)
Record can_insert (cfg : DagConfiguration) (s : DagWorld) (id : uuid) (t : Transaction) (ids : list uuid)
  : Prop := {
  ci_inv : dag_inv s;
  ci_new : mapped_vertices (dg s) !! id = None;
  ci_known : Forall (fun i => is_Some (mapped_vertices (dg s) !! i)) ids;
  ci_versions : Versioncollision cfg = false;
  ci_covers : covers s id t
}.

Lemma subscribe_inserts cfg ReverseSlice hostID e p from data now r t id :
  (forall l, ReverseSlice l ≡ₚ l) -> from <> hostID -> UnmarshalRecord empty_GrapeTx data = (r, true) ->
  g_Transaction r = Some (ATxv1 t) -> g_Tx r = string_bytes (uuid_String id) ->
  Chain_Type t = se_network e -> VerifySignature_ok (ATxv1 t) = Return true -> subintxq p = [] ->
  can_insert cfg (p_dag p) id (ATxv1 t) (map us_Id (IDs (g_Ids r))) ->
  exists p1 p2, subscribe base64 hostID e p from data = Return p1
  /\ runInsert cfg RunCall coinbase dagWallet undef maxFuel ReverseSlice false now p1 = Return (p2, InsDone)
  /\ subintxq p2 = [] /\ dag_inv (p_dag p2)
  /\ has_node (p_dag p2) id (ATxv1 t) (TxIdMajor r, TxIdMinor r) (map us_Id (IDs (g_Ids r))).
Proof.
  intros HR Hfrom Hu Ht Htx Hnet Hsig Hq [I Hnew Hk Hvc Hcov]. unfold subscribe.
  rewrite bool_decide_false, Hu, Ht by done.
  destruct (new_node_for_Txv1 p (se_network e) (se_id e) (se_weight e) (se_time e) t true)
    as (n & s & l & E & Ea & Hiso & Hnt & _); [done|done|]. rewrite E. cbn [outcome_bind].
  rewrite Htx, bytes_string_bytes, uuid_Parse_String.
  pose proof Ea as Ea'. injection Ea' as Es _.
  assert (world s = with_heap (world (p_dag p)) (dheap s)) as Hw by by rewrite <- Es.
  apply alloc_spec in Ea as (I1 & _ & Hh & Hdg & _ & Hnin); [|done|done].
  rewrite <- Hdg in Hk, Hnew. destruct (known_exists s _ Hk) as [cs Hcs].
  destruct (InsertTxDag_inserts cfg ReverseSlice HR now s l n id (TxIdMajor r) (TxIdMinor r)
              (map us_Id (IDs (g_Ids r))) cs) as (s' & Ei & I' & Hhas); try done.
  { by rewrite Hh, lookup_insert_eq. }
  { by rewrite Hdg. }
  { intros m Hm Hmt. rewrite Hw. apply Hcov; [done|]. by rewrite Hmt, Hnt. }
  eexists _, _. split; [reflexivity|]. unfold runInsert.
  cbn [subintxq with_subintxq with_p_dag next_major p_dag]. rewrite Hq. cbn [app cmd vertex sub_id sub_idMajor sub_idMinor targetIds].
  rewrite Ei. cbn [outcome_bind fst snd leader_sync]. split; [reflexivity|].
  split; [done|]. split; [done|]. by rewrite <- Hnt.
Qed.

(** The receiver reads the message that the publisher marshalled. *)
Definition transmitted (r : GrapeTx) (now : Z) (payload : bytes) : Prop :=
  exists m, GrapeTx_ToProtobuf r now = Return (Some m) /\ proto_Unmarshal_GrapeTx payload = Some m.

Lemma map_us_Id ids :
  map us_Id (map (fun id => {| Is_empty := bool_decide (id = uuid_Nil); us_Id := id |}) ids) = ids.
Proof. rewrite map_map. apply map_id. Qed.

(** C6: a payment reaches the other peers as its publisher has it.  Neither of
    two peers is a leader and they are on one network.  The publisher chooses
    tips by another algorithm than the random walk; its dag is well formed and
    readable, has the genesis node and, once it is wide, tips; its topic is
    open, and it takes a native payment between 20-byte addresses from its
    publish queue that its ledger covers.  Then it adds the payment to its dag
    under the new id and publishes a record.  If the other peer reads from the
    payload the message that was marshalled, has nothing waiting to be inserted,
    does not check for version collisions, has a well-formed dag without that id
    in which the approved transactions are found, and its ledger covers the
    payment as well, whose signature verifies, it inserts the payment: both
    dags, still well formed, have the same transaction under the same id with
    the same version, approving the same transactions. *)
Theorem payment_diffuses cfg cfg' ReverseSlice e p t q hostID e' p' from now :
  (forall l, ReverseSlice l ≡ₚ l) ->
  publishQueue p = ATxv1 t :: q -> payment (pe_network e) t -> can_publish cfg (p_dag p) ->
  mapped_vertices (dg (p_dag p)) !! pe_id e = None -> draws_ok (pe_draws e) ->
  covers (p_dag p) (pe_id e) (ATxv1 t) -> pe_open e = true ->
  se_network e' = pe_network e -> from <> hostID -> VerifySignature_ok (ATxv1 t) = Return true ->
  subintxq p' = [] ->
  exists p1 r payload ids ver,
    publish cfg RunCall coinbase dagWallet undef maxFuel base64 false e p
    = Some (Return (p1, PubSent r payload true))
    /\ publishQueue p1 = q /\ dag_inv (p_dag p1)
    /\ has_node (p_dag p1) (pe_id e) (ATxv1 t) ver ids
    /\ (transmitted r (pe_now e) payload -> can_insert cfg' (p_dag p') (pe_id e) (ATxv1 t) ids ->
        exists p2 p3, subscribe base64 hostID e' p' from payload = Return p2
        /\ runInsert cfg' RunCall coinbase dagWallet undef maxFuel ReverseSlice false now p2
           = Return (p3, InsDone)
        /\ subintxq p3 = [] /\ dag_inv (p_dag p3)
        /\ has_node (p_dag p3) (pe_id e) (ATxv1 t) ver ids).
Proof.
  intros HR Hq Hpay Hcp Hnew Hd Hcov Hopen Hnet Hfrom Hsig Hq'.
  destruct (publish_sends cfg e p t q) as (p1 & n & ids & sigs & E & Hp1 & I1 & Hid & _ & Hhas & Huid);
    [done..|]. cbv zeta in E. set (r := published_record e (ATxv1 t) n ids sigs) in *.
  exists p1, r, (fst (MarshalRecord r (pe_now e))), ids, (idMajor (nid n), idMinor (nid n)).
  split; [exact E|]. split; [done|]. split; [done|]. split; [done|].
  intros (m & Em & Eu) Hci.
  assert (IDs (g_Ids r) = map (fun id => {| Is_empty := bool_decide (id = uuid_Nil); us_Id := id |}) ids)
    as Hids by apply for_each_ids.
  destruct (grapetx_roundtrip r t (pe_now e) m) as (r' & Er & _ & Htx & _ & Hi & Ht & Hma & Hmi & _);
    try done; [apply Hpay| |].
  { rewrite Hids. apply Forall_fmap. eapply Forall_impl; [exact Huid|]. intros id Hok. split; [done|].
    apply bool_decide_eq_true_1. }
  destruct (subscribe_inserts cfg' ReverseSlice hostID e' p' from (fst (MarshalRecord r (pe_now e))) now r' t (pe_id e))
    as (p2 & p3 & E2 & E3 & Hq3 & I3 & Hhas3); try done.
  - unfold UnmarshalRecord. by rewrite Eu, Er.
  - by rewrite Htx, <- Hid.
  - by rewrite Hnet, (pay_network _ _ Hpay).
  - by rewrite Hi, Hids, map_us_Id.
  - exists p2, p3. do 4 (split; [done|]). rewrite Hi, Hids, map_us_Id, Hma, Hmi in Hhas3. exact Hhas3.
Qed.
End Diffuse.

(** ** Two peers with the same genesis *)

Definition signed_payment : Txv1 :=
  get_return (Txv1_Sign {| Tx_Type := PAYMENT; Chain_Type := PRIVATE_TESTNET;
    Sender_Pubk := replicate 32 x01; Sender := replicate 20 x01; Recepient := replicate 20 x02;
    Amount := [x05]; Nonce := 9; TimestampOf := 0; Fuel_Limit := []; Fuel_Price := [];
    Data := None; Signature := [] |} (replicate 32 x01)) sample_payment.

Definition sample_pub_env : pub_env :=
  {| pe_network := PRIVATE_TESTNET; pe_id := 9%N; pe_weight := S754_zero false; pe_time := 3;
     pe_fuel := 0; pe_draws := first_draws; pe_now := 4; pe_peer := "a"; pe_addrs := []; pe_seq := 1;
     pe_open := true |}.
Definition sample_sub_env : sub_env :=
  {| se_network := PRIVATE_TESTNET; se_id := 77%N; se_weight := S754_zero false; se_time := 5 |}.

Definition publisher : Peer :=
  {| p_dag := leader_dag; prevMajor := 0; prevMinor := 0; leaderReady := false;
     publishQueue := [ATxv1 signed_payment]; subintxq := [] |}.
Definition receiver : Peer :=
  {| p_dag := leader_dag; prevMajor := 0; prevMinor := 0; leaderReady := false;
     publishQueue := []; subintxq := [] |}.

Definition record_of (r : option (outcome (Peer * pub_result))) : GrapeTx :=
  match r with Some (Return (_, PubSent x _ _)) => x | _ => empty_GrapeTx end.

(** The record of the payment, and a wire format that carries it. *)
Definition no_codec : ProtoGrapeLib :=
  {| proto_Marshal_GrapeTx _ := None; proto_Unmarshal_GrapeTx _ := None |}.
Definition sent_record : GrapeTx :=
  record_of (publish (H9 := no_codec) sample_config sample_vm sample_account leader_wallet (fun _ => 0) 10
               hex_EncodeToString false sample_pub_env publisher).
#[export] Instance sample_codec : ProtoGrapeLib := {
  proto_Marshal_GrapeTx _ := Some [x01];
  proto_Unmarshal_GrapeTx _ := get_return (GrapeTx_ToProtobuf sent_record 4) None
}.

Lemma leader_covers : covers leader_dag 9%N (ATxv1 signed_payment).
Proof.
  intros n Hu Ht. unfold UpdateBalanceIfValid, Node_Id. rewrite Ht, Hu.
  eexists. vm_compute. reflexivity.
Qed.

Lemma leader_publishes : can_publish sample_config leader_dag.
Proof.
  split.
  - exact leader_dag_inv.
  - constructor; [|constructor]. eexists. split; [vm_compute; reflexivity|].
    split; eexists; vm_compute; [split; reflexivity|reflexivity].
  - discriminate.
  - exists 0%nat, []. split; [vm_compute; reflexivity|]. left. vm_compute. reflexivity.
  - intros id l Hl.
    assert (mapped_vertices (dg leader_dag) = {[uuid_Nil := 0%nat]}) as Hm by (vm_compute; reflexivity).
    rewrite Hm in Hl. apply lookup_singleton_Some in Hl as [<- _]. done.
Qed.

Lemma leader_inserts : can_insert sample_config leader_dag 9%N (ATxv1 signed_payment) [uuid_Nil].
Proof.
  split; [exact leader_dag_inv|vm_compute; reflexivity| |reflexivity|exact leader_covers].
  constructor; [|constructor]. eexists. vm_compute. reflexivity.
Qed.

Definition after_publish : option (outcome (Peer * pub_result)) :=
  publish sample_config sample_vm sample_account leader_wallet (fun _ => 0) 10
    hex_EncodeToString false sample_pub_env publisher.

Lemma publisher_has_node p r payload ids ver :
  after_publish = Some (Return (p, PubSent r payload true)) ->
  has_node (p_dag p) 9%N (ATxv1 signed_payment) ver ids ->
  r = sent_record /\ payload = [x01] /\ ver = (1, 0) /\ ids = [uuid_Nil].
Proof.
  intros E (l & n & Hg & Hn & _ & _ & <- & Hids).
  assert (record_of after_publish = sent_record) as Hr by (vm_compute; reflexivity).
  assert (match after_publish with
          | Some (Return (p, PubSent _ b _)) =>
              (b, getById (dheap (p_dag p)) (dg (p_dag p)) 9%N true,
               (fun n => (idMajor (nid n), idMinor (nid n), node_ids (dheap (p_dag p)) (targets n)))
                 <$> dheap (p_dag p) !! 1%nat)
          | _ => ([], Panic, None)
          end = ([x01], Return (Some 1%nat), Some (1, 0, Return [uuid_Nil]))) as Hp
    by (vm_compute; reflexivity).
  rewrite E in Hr, Hp. cbn [record_of] in Hr. injection Hp as -> Hg' Hn'. rewrite Hg' in Hg.
  injection Hg as <-. rewrite Hn in Hn'. injection Hn' as Hma Hmi Hi. rewrite Hi in Hids.
  injection Hids as <-. rewrite Hma, Hmi. split; [exact Hr|]. split; [|split]; reflexivity.
Qed.

Lemma payment_diffuses_witness :
  exists p2 p3, subscribe hex_EncodeToString "b" sample_sub_env receiver "a" [x01] = Return p2
  /\ runInsert sample_config sample_vm sample_account leader_wallet (fun _ => 0) 10 (@rev nat) false 6 p2
     = Return (p3, InsDone)
  /\ has_node (p_dag p3) 9%N (ATxv1 signed_payment) (1, 0) [uuid_Nil].
Proof.
  destruct (payment_diffuses sample_vm sample_account leader_wallet (fun _ => 0) 10 hex_EncodeToString
    sample_config sample_config (@rev nat) sample_pub_env publisher signed_payment [] "b" sample_sub_env
    receiver "a" 6) as (p1 & r & payload & ids & ver & E & _ & _ & Hhas & Hrest).
  - intros l. symmetry. apply Permutation_rev.
  - reflexivity.
  - split; vm_compute; try reflexivity. repeat split; vm_compute; congruence.
  - exact leader_publishes.
  - vm_compute. reflexivity.
  - exact first_draws_ok.
  - exact leader_covers.
  - reflexivity.
  - reflexivity.
  - discriminate.
  - vm_compute. reflexivity.
  - reflexivity.
  - destruct (publisher_has_node p1 r payload ids ver E Hhas) as (-> & -> & -> & ->).
    destruct Hrest as (p2 & p3 & E2 & E3 & _ & _ & H3).
    + eexists. split; vm_compute; reflexivity.
    + exact leader_inserts.
    + exists p2, p3. split; [exact E2|]. split; [exact E3|exact H3].
Defined.
