(* ===== verification/Services.v ===== *)
(** The services in front of a node: [services/transactions.go],
    [services/accounts.go] and the operations of [services/grpcpublish.go].

    The contract VM is another process: its answers to [RunCode] and
    [EstimateGas] are arguments, [inr] an error of the call.  An error a
    function returns is a value of an inductive type, its text left out. *)
From S2P Require Import Prelude GoLib Bytes StateMachine Tx TxRecords Storage Pool WalletCache Node Pin.
From S2P Require Import PinProps Confirmation Weights Dag Search Diffusion.

(** [config.GetConfig()] as the services read it. *)
Record ServiceConfig := {
  c_Network : Z; Maxfuellimit : Z; Maxfuelprice : Z; Coinbaseaccount : string
}.

Inductive SendError :=
| ErrHex | ErrParse | ErrNetwork | ErrSignature | ErrFuelPrice | ErrFuelLimit | ErrPrice
| ErrNoAccount | ErrFunds | ErrBalance | ErrPaymentFuel.

Definition no_result : ExecutionResult :=
  {| ex_Hash := ""; Successful_ := false; Output := ""; GasUsed := 0 |}.

Section Services.
Context `{CryptoLib} `{ProtoLib} `{TimestampLib} `{EthLib} `{UuidLib} `{ProtoPinLib}.
Context `{MapRange} `{!CollSet uuid}.
Variable cfg : ServiceConfig.
(** What [SetString] leaves for a text that is no number. *)
Variable undef : string -> Z.

(** ** Submission *)

Definition with_p_smc (p : Peer) (x : SmcStore) : Peer :=
  with_p_dag p (with_world (p_dag p) (with_smc (world (p_dag p)) x)).

(** [GetAmount + GetFuelLimit * GetFuelPrice]. *)
Definition txTotal (t : Transaction) : Z := GetAmount t + GetFuelLimit t * GetFuelPrice t.

Definition executePaymentTx (p : Peer) (t : Transaction) : outcome (Peer * ExecutionResult) :=
  let! _ := GetHash t in
  Return (with_publishQueue p (publishQueue p ++ [t]),
          {| ex_Hash := ""; Successful_ := true; Output := ""; GasUsed := 0 |}).

(** The checks of a contract transaction, in the order of the code. *)
Definition check_contract (p : Peer) (t : Transaction) : outcome (option SendError) :=
  let maxLimit := to_int64 (Maxfuellimit cfg) in
  let maxPrice := to_int64 (Maxfuelprice cfg) in
  if GetFuelPrice t <=? 0 then Return (Some ErrFuelPrice)
  else if Z.abs maxLimit <? Z.abs (GetFuelLimit t) then Return (Some ErrFuelLimit)
  else if maxLimit * maxPrice <? GetFuelPrice t * GetFuelLimit t then Return (Some ErrPrice)
  else
    let! sender := GetSender t in
    let! acc := SearchAccount undef (w_store (world (p_dag p))) (Hex_String (Some sender)) in
    match acc with
    | None => Return (Some ErrNoAccount)
    | Some a => Return (if ln_Balance a <? txTotal t then Some ErrFunds else None)
    end.

Definition check_payment (p : Peer) (t : Transaction) : outcome (option SendError) :=
  let! sender := GetSender t in
  let! b := NodeTxPin_GetBalance (w_pins (world (p_dag p))) (walletCache (world (p_dag p))) sender in
  if negb (snd b) then Return (Some ErrBalance)
  else if fst b <? txTotal t then Return (Some ErrFunds)
  else if negb (GetFuelLimit t =? 0) || negb (GetFuelPrice t =? 0) then Return (Some ErrPaymentFuel)
  else Return None.

Definition is_contract (t : Transaction) : bool :=
  (GetTransactionType t =? CALL_CONTRACT) || (GetTransactionType t =? PUBLISH_CONTRACT).

Definition with_Hash (r : ExecutionResult) (h : string) : ExecutionResult :=
  {| ex_Hash := h; Successful_ := Successful_ r; Output := Output r; GasUsed := GasUsed r |}.

(** The part of [SendRawTransaction] after parsing. *)
Definition send_transaction (p : Peer) (t : Transaction)
  : outcome (Peer * ExecutionResult * option SendError) :=
  let! sigOk := VerifySignature_ok t in
  let! ct := GetChainType t in
  if negb (ct =? c_Network cfg) then
    let! _ := print_tx t in Return (p, no_result, Some ErrNetwork)
  else
    let! hash := GetHash t in
    if negb sigOk then
      let! _ := GetSender t in Return (p, no_result, Some ErrSignature)
    else
      let hashStr := ("0x" ++ hex_EncodeToString hash)%string in
      if is_contract t then
        let! err := check_contract p t in
        match err with
        | Some e => Return (p, no_result, Some e)
        | None =>
            let! smc := AddUnconfirmed (w_smc (world (p_dag p))) t in
            Return (with_p_smc p smc,
                    {| ex_Hash := hashStr; Successful_ := true; Output := "0x";
                       GasUsed := to_int64 (big_Uint64 (GetFuelLimit t)) |}, None)
        end
      else
        let! err := check_payment p t in
        match err with
        | Some e => Return (p, no_result, Some e)
        | None => let! r := executePaymentTx p t in
                  Return (fst r, with_Hash (snd r) hashStr, None)
        end.

Definition SendRawTransaction (p : Peer) (pbTx : string)
  : outcome (Peer * ExecutionResult * option SendError) :=
  if bool_decide (pbTx = ""%string) then Panic
  else
    match hex_DecodeString pbTx with
    | (_, false) => Return (p, no_result, Some ErrHex)
    | (txBytes, true) =>
        match ParseTransaction txBytes with
        | None => Return (p, no_result, Some ErrParse)
        | Some t => send_transaction p t
        end
    end.

(** Whether a panic of [SendRawTransaction] has a text instead of an error: that
    of the signature library on a public key of a wrong length.  The signature is
    verified before anything else can panic. *)
Definition send_panics_text (pbTx : string) : bool :=
  if bool_decide (pbTx = ""%string) then false
  else match hex_DecodeString pbTx with
  | (txBytes, true) =>
      match ParseTransaction txBytes with Some (ATxv1 t) => key_panics t | _ => false end
  | _ => false
  end.

(** [PublishTx] of the gRPC service, whose [chaintype] is the private testnet. *)
Definition PublishTx (p : Peer) (m : pb_Txv1) : Peer :=
  with_publishQueue p (publishQueue p ++ [ATxv1 (Txv1_UnmarshalBinary m)]).

(** The goroutine that stops the service wakes the publisher. *)
Definition stop_service (p : Peer) (dagWallet : Wallet) : outcome Peer :=
  let! t := NewServiceTxv1 PRIVATE_TESTNET TX_SERVICE_STOP dagWallet in
  Return (with_publishQueue p (publishQueue p ++ [ATxv1 t])).

(** ** Queries *)

(** The transaction and whether it was found. *)
Definition GetTransactionByHash (p : Peer) (hash : string) : outcome (option ConfirmedTx * bool) :=
  match DecodeHexString hash with
  | (_, false) => Return (None, false)
  | (h, true) =>
      let! found := SearchTx (w_pins (world (p_dag p))) (w_smc (world (p_dag p))) h in
      Return (match found with None => (None, false) | Some c => (Some c, true) end)
  end.

Definition GetAnyTransactionByHash (p : Peer) (hash : string) : outcome (option UnifiedTx * bool) :=
  match DecodeHexString hash with
  | (_, false) => Return (None, false)
  | (h, true) =>
      let! r := SearchAnyTx (p_dag p) h in
      Return (if snd r then (None, false) else (fst r, true))
  end.

Definition GetTransactions (order : bool -> list UnifiedTx -> list UnifiedTx) (p : Peer)
    (accounts : list string) (txType : Z) (s : string) (pg : Page)
    (confirmed direction : option bool) : outcome (list UnifiedTx) :=
  SearchTxs order (p_dag p) accounts txType (Size pg) (Page_Offset pg) (isAsc s) confirmed direction.

Definition GetAccounts (p : Peer) (sort : string) (pg : Page) : outcome (list LnAccount) :=
  SearchAccounts undef (w_store (world (p_dag p))) (Size pg) (Page_Offset pg) (isAsc sort).

Definition GetAccountById (p : Peer) (id : string) : outcome (option LnAccount) :=
  if bool_decide (id = ""%string) then Panic else SearchAccount undef (w_store (world (p_dag p))) id.

Definition shortenString (s : string) (size : Z) : outcome string :=
  if size <? 2 then Return ""%string
  else if Z.of_nat (String.length s) <=? size then Return s
  else
    let! a := go_slice s 0 (size / 2) in
    let! b := go_slice s (Z.of_nat (String.length s) - size / 2) (Z.of_nat (String.length s)) in
    Return (a ++ "..." ++ b)%string.

(** ** Estimation and reading calls *)

Inductive VmError := ErrConnect | ErrVm (err : string) | ErrSystem (err : string) | ErrGas | ErrRead (err : string).

Definition analyzeCallResponse (r : CallResponse) : ExecutionResult + VmError :=
  if cr_Status r =? -2 then inr (ErrSystem (cr_Error r))
  else match ParseInt64 (cr_GasUsed r) with
       | None => inr ErrGas
       | Some gas =>
           if cr_Status r =? 0
           then inl {| ex_Hash := ""; Successful_ := true; Output := cr_Msg r; GasUsed := gas |}
           else inl {| ex_Hash := ""; Successful_ := false;
                       Output := (cr_Error r ++ ":" ++ cr_Msg r)%string; GasUsed := gas |}
       end.

(** [CoinbaseAccountAdress] and the other fields may be nil. *)
Record Message := {
  m_From : option bytes; m_To : option bytes; m_Data : option bytes; m_Amount : option bytes;
  m_Coinbase : option bytes; m_FixingTx : option bytes
}.
Record CallMessage := {
  cm_From : option bytes; cm_To : option bytes; cm_Amount : option bytes; cm_Data : option bytes;
  cm_Coinbase : option bytes; cm_Timestamp : Z; cm_FixingTx : option bytes
}.
(** [now] is the clock in seconds. *)
Definition toPb (m : Message) (now : Z) : CallMessage :=
  {| cm_From := m_From m; cm_To := m_To m; cm_Amount := m_Amount m; cm_Data := m_Data m;
     cm_Coinbase := m_Coinbase m; cm_Timestamp := now; cm_FixingTx := m_FixingTx m |}.

Record FuelEstimationRequest := { RawTx : option bytes; r_Message : option Message }.
Definition isMessageBased (r : FuelEstimationRequest) : bool := bool_decide (is_Some (r_Message r)).
Definition FuelEstimationRequest_validate (r : FuelEstimationRequest) : outcome unit :=
  match RawTx r, r_Message r with Some _, Some _ => Panic | _, _ => Return tt end.

Record EstimateGasRequest := { eg_Header : PinTxHeader; TxOrMessage : pb_Txv1 + CallMessage }.

(** The header of a call outside a pin. *)
Definition call_header (p : Peer) : outcome PinTxHeader :=
  match ParseEthAddress (Coinbaseaccount cfg) with
  | inr _ => Panic
  | inl a => Return {| CoinbaseAccountAddress := a;
                       h_Timestamp := CurrentTS (w_pins (world (p_dag p)));
                       h_TxNumber := to_int32 (CurrentHeight (w_pins (world (p_dag p)))) |}
  end.

Variable EstimateGas : Storage -> EstimateGasRequest -> CallResponse + string.

Definition doEstimate (p : Peer) (connected : bool) (q : EstimateGasRequest) : ExecutionResult + VmError :=
  if negb connected then inr ErrConnect
  else match EstimateGas (w_store (world (p_dag p))) q with
       | inr e => inr (ErrVm e)
       | inl r => analyzeCallResponse r
       end.

(** A request without either field unmarshals no bytes, the empty message. *)
Definition EstimateTxFuel (p : Peer) (connected : bool) (now : Z) (r : FuelEstimationRequest)
  : outcome (ExecutionResult + VmError) :=
  let! _ := FuelEstimationRequest_validate r in
  let! header := call_header p in
  match r_Message r with
  | Some m => Return (doEstimate p connected {| eg_Header := header; TxOrMessage := inr (toPb m now) |})
  | None =>
      match proto_Unmarshal_Txv1 (default [] (RawTx r)) with
      | None => Return (inr (ErrVm "unmarshal"))
      | Some t => Return (doEstimate p connected {| eg_Header := header; TxOrMessage := inl t |})
      end
  end.

Record ReadContractRequest := {
  rc_Header : PinTxHeader; rc_ContractAddress : bytes; rc_MethodSignature : string;
  rc_MethodParameters : string; rc_Sender : string
}.

Variable RunCode : Storage -> ReadContractRequest -> (string * string) + string.

(** The answer of the VM is a message and an error text. *)
Definition CallReadContract (p : Peer) (connected : bool)
    (contractAddress contractMethod methodParameters sender : string)
  : outcome (string + VmError) :=
  if negb connected then Return (inr ErrConnect)
  else if bool_decide (contractAddress = ""%string) || bool_decide (contractMethod = ""%string)
  then Panic
  else
    let! header := call_header p in
    let! a := AddressToBytes contractAddress in
    Return (match RunCode (w_store (world (p_dag p)))
                    {| rc_Header := header; rc_ContractAddress := a;
                       rc_MethodSignature := contractMethod;
                       rc_MethodParameters := methodParameters; rc_Sender := sender |} with
            | inr e => inr (ErrVm e)
            | inl (msg, err) =>
                if negb (bool_decide (err = ""%string)) && negb (bool_decide (err = "0x"%string))
                then inr (ErrRead err) else inl msg
            end).
End Services.
