(* ===== verification/ServicesProps.v ===== *)
(** Which transactions a node accepts from its clients, and how they are found
    afterwards. *)
From S2P Require Import Prelude GoLib Bytes StateMachine Tx TxRecords Storage Pool WalletCache Node Pin.
From S2P Require Import PinProps PinSync Confirmation Weights Dag DagSteps Search Diffusion DiffusionProps Services.

Section Submit.
Context `{CryptoLib} `{ProtoLib} `{TimestampLib} `{EthLib} `{UuidLib} `{ProtoPinLib}.
Context `{MapRange} `{!CollSet uuid}.
Variable cfg : ServiceConfig.
Variable undef : string -> Z.

(** What a contract transaction needs: fuel within the configured limits and an
    account that covers the amount and the whole fuel. *)
Definition contract_funded (p : Peer) (t : Transaction) : Prop :=
  let maxLimit := to_int64 (Maxfuellimit cfg) in
  0 < GetFuelPrice t /\ Z.abs (GetFuelLimit t) <= Z.abs maxLimit
  /\ GetFuelPrice t * GetFuelLimit t <= maxLimit * to_int64 (Maxfuelprice cfg)
  /\ exists sender a, GetSender t = Return sender
     /\ SearchAccount undef (w_store (world (p_dag p))) (Hex_String (Some sender)) = Return (Some a)
     /\ GetAmount t + GetFuelLimit t * GetFuelPrice t <= ln_Balance a.

(** What a payment needs: no fuel, and a balance that covers the amount. *)
Definition payment_funded (p : Peer) (t : Transaction) : Prop :=
  GetFuelLimit t = 0 /\ GetFuelPrice t = 0
  /\ exists sender b, GetSender t = Return sender
     /\ NodeTxPin_GetBalance (w_pins (world (p_dag p))) (walletCache (world (p_dag p))) sender = Return (b, true)
     /\ GetAmount t <= b.

Definition admissible (p : Peer) (t : Transaction) : Prop :=
  VerifySignature_ok t = Return true /\ GetChainType t = Return (c_Network cfg)
  /\ if is_contract t then contract_funded p t else payment_funded p t.

(** The peer after [t] was accepted: a contract transaction waits in the pool,
    anything else in the publish queue; nothing else changes. *)
Definition accepted (p : Peer) (t : Transaction) (hash : bytes) : Peer :=
  if is_contract t then
    let smc := w_smc (world (p_dag p)) in
    let id := Hex_String (Some hash) in
    with_p_smc p {| unconfirmedPool := <[id := t]> (unconfirmedPool smc);
                    confirmedPool := delete id (confirmedPool smc) |}
  else with_publishQueue p (publishQueue p ++ [t]).

Lemma check_contract_spec p t : forall e,
  check_contract cfg undef p t = Return e -> e = None <-> contract_funded p t.
Proof.
  intros e. unfold check_contract, contract_funded, txTotal.
  destruct (Z.leb_spec (GetFuelPrice t) 0); [intros [= <-]; split; [done|lia]|].
  destruct (Z.ltb_spec (Z.abs (to_int64 (Maxfuellimit cfg))) (Z.abs (GetFuelLimit t)));
    [intros [= <-]; split; [done|lia]|].
  destruct (Z.ltb_spec (to_int64 (Maxfuellimit cfg) * to_int64 (Maxfuelprice cfg))
              (GetFuelPrice t * GetFuelLimit t)); [intros [= <-]; split; [done|lia]|].
  destruct (GetSender t) as [sender|]; cbn [outcome_bind]; [|done].
  destruct (SearchAccount _ _ _) as [[a|]|] eqn:Ea; cbn [outcome_bind]; [| |done].
  - destruct (Z.ltb_spec (ln_Balance a) (GetAmount t + GetFuelLimit t * GetFuelPrice t)); intros [= <-].
    + split; [done|]. intros (_ & _ & _ & s & a' & [= <-] & Ea' & ?). rewrite Ea in Ea'. simplify_eq. lia.
    + split; [intros _|done]. do 3 (split; [lia|]). by exists sender, a.
  - intros [= <-]. split; [done|]. intros (_ & _ & _ & s & a' & [= <-] & Ea' & _). by rewrite Ea in Ea'.
Qed.

Lemma check_payment_spec p t : forall e,
  check_payment p t = Return e -> e = None <-> payment_funded p t.
Proof.
  intros e. unfold check_payment, payment_funded, txTotal.
  destruct (GetSender t) as [sender|]; cbn [outcome_bind]; [|done].
  destruct (NodeTxPin_GetBalance _ _ _) as [[b ok]|] eqn:Eb; cbn [outcome_bind fst snd]; [|done].
  assert (forall s b', Return sender = Return s ->
    NodeTxPin_GetBalance (w_pins (world (p_dag p))) (walletCache (world (p_dag p))) s = Return (b', true) ->
    b' = b /\ ok = true) as Hb.
  { intros s b' [= <-] E. rewrite Eb in E. by simplify_eq. }
  destruct ok; cbn [negb].
  2:{ intros [= <-]. split; [done|]. intros (_ & _ & s & b' & Es & Eb' & _). by destruct (Hb s b' Es Eb'). }
  destruct (Z.ltb_spec b (GetAmount t + GetFuelLimit t * GetFuelPrice t)).
  { intros [= <-]. split; [done|]. intros (Hl & _ & s & b' & Es & Eb' & ?).
    destruct (Hb s b' Es Eb') as [-> _]. rewrite Hl in *. lia. }
  destruct (Z.eqb_spec (GetFuelLimit t) 0) as [Hl|]; cbn [negb orb];
    [|intros [= <-]; split; [done|by intros (? & _)]].
  destruct (Z.eqb_spec (GetFuelPrice t) 0) as [Hp|]; cbn [negb];
    [|intros [= <-]; split; [done|by intros (_ & ? & _)]].
  intros [= <-]. split; [|done]. intros _. do 2 (split; [done|]). exists sender, b.
  do 2 (split; [done|]). rewrite Hl in *. lia.
Qed.

(** A native transaction whose addresses are well formed. *)
Definition addressed (t : Transaction) : Prop :=
  exists x, t = ATxv1 x /\ length (Sender x) = 20%nat
  /\ (length (Recepient x) = 20%nat \/ length (Recepient x) = 0%nat).

Lemma addressed_prints t : addressed t -> print_tx t = Return tt.
Proof. intros (x & -> & Hs & Hr). by apply (print_tx_addressed _ (Sender x)). Qed.

Lemma addressed_account s a : length a = 20%nat -> exists o, SearchAccount undef s (Hex_String (Some a)) = Return o.
Proof.
  intros Ha. unfold SearchAccount.
  rewrite (AddressToBytes_BytesToAddress a) by by apply BytesToAddress_20. by eexists.
Qed.

Lemma addressed_balance p wc a : length a = 20%nat -> exists o, NodeTxPin_GetBalance p wc a = Return o.
Proof.
  intros Ha. unfold NodeTxPin_GetBalance. cbn [GetBalances].
  destruct (wallet_balance_spec p wc a _ (BytesToAddress_20 a Ha)) as ([b|] & -> & _); by eexists.
Qed.

Lemma check_payment_total p t : addressed t ->
  (exists e, check_contract cfg undef p t = Return e) /\ exists e, check_payment p t = Return e.
Proof.
  intros (x & -> & Hs & _). unfold check_contract, check_payment. cbn [GetSender outcome_bind]. split.
  - do 3 (case_match; [by eexists|]).
    destruct (addressed_account (w_store (world (p_dag p))) (Sender x) Hs) as [[a|] ->]; by eexists.
  - destruct (addressed_balance (w_pins (world (p_dag p))) (walletCache (world (p_dag p))) (Sender x) Hs)
      as [[b []] ->]; cbn [outcome_bind negb fst snd]; [|by eexists].
    do 2 (case_match; [by eexists|]). by eexists.
Qed.

(** How a submission may end. *)
Definition submitted (p : Peer) (t : Transaction) (hash : bytes)
    (x : Peer * ExecutionResult * option SendError) : Prop :=
  let '(p', r, e) := x in
  (e = None <-> admissible p t)
  /\ match e with
     | None => p' = accepted p t hash /\ Successful_ r = true
               /\ ex_Hash r = ("0x" ++ hex_EncodeToString hash)%string
     | Some _ => p' = p /\ Successful_ r = false /\ ex_Hash r = ""%string
     end.

Lemma send_transaction_spec p t h x :
  GetHash t = Return h -> send_transaction cfg undef p t = Return x -> submitted p t h x.
Proof.
  intros Hh. unfold send_transaction, submitted, admissible, accepted.
  destruct (VerifySignature_ok t) as [sig|]; cbn [outcome_bind]; [|done].
  destruct (GetChainType t) as [ct|]; cbn [outcome_bind]; [|done].
  destruct (Z.eqb_spec ct (c_Network cfg)) as [->|Hne]; cbn [negb].
  2:{ destruct (print_tx t); cbn [outcome_bind]; [|done]. intros [= <-]. split; [|done].
      split; [done|]. intros (_ & [= ?] & _). done. }
  rewrite Hh. cbn [outcome_bind]. destruct sig; cbn [negb].
  2:{ destruct (GetSender t); cbn [outcome_bind]; [|done]. intros [= <-]. split; [|done].
      split; [done|]. by intros (? & _). }
  destruct (is_contract t).
  - destruct (check_contract _ _ _ _) as [e|] eqn:Ee; cbn [outcome_bind]; [|done].
    apply check_contract_spec in Ee. destruct e as [e|].
    + intros [= <-]. split; [|done]. rewrite Ee. tauto.
    + unfold AddUnconfirmed, IdentifiableTx_Id. rewrite Hh. cbn [outcome_bind]. intros [= <-].
      split; [|done]. rewrite Ee. tauto.
  - destruct (check_payment _ _) as [e|] eqn:Ee; cbn [outcome_bind]; [|done].
    apply check_payment_spec in Ee. destruct e as [e|].
    + intros [= <-]. split; [|done]. rewrite Ee. tauto.
    + unfold executePaymentTx. rewrite Hh. cbn [outcome_bind fst snd]. intros [= <-].
      split; [|done]. rewrite Ee. tauto.
Qed.

(** The library panics on the public key of the transaction. *)
Definition verify_panics (t : Transaction) : bool :=
  match t with ATxv1 x => key_panics x | AnEthTx _ => false end.

Lemma send_transaction_total p t h :
  GetHash t = Return h -> addressed t ->
  if verify_panics t then send_transaction cfg undef p t = Panic
  else exists x, send_transaction cfg undef p t = Return x.
Proof.
  intros Hh Ha. unfold send_transaction. pose proof (addressed_prints t Ha) as Hp.
  destruct (check_payment_total p t Ha) as [[e1 E1] [e2 E2]]. destruct Ha as (x & -> & _ & _).
  cbn [VerifySignature_ok GetChainType GetSender outcome_bind verify_panics].
  pose proof (Txv1_Verify_panics x Hp) as Hv. destruct (key_panics x); [by rewrite Hv|].
  destruct Hv as [v ->]. cbn [outcome_bind]. rewrite Hp, Hh, E1, E2.
  unfold AddUnconfirmed, IdentifiableTx_Id, executePaymentTx. rewrite Hh. cbn [outcome_bind].
  repeat case_match; by eexists.
Qed.

Lemma key_panics_Verify t : key_panics t = true -> Txv1_Verify t = Panic.
Proof using Type.
  unfold key_panics, Txv1_Verify. intros [[[Hl Hz]%andb_true_iff H32]%andb_true_iff Hh]%andb_true_iff.
  apply Nat.leb_le in Hl. apply bool_decide_eq_true_1 in Hh as [h Hh].
  destruct (Nat.ltb_spec (length (Signature t)) 64); [lia|]. rewrite Hh. unfold DSA_Verify. simpl.
  rewrite (Txv1_Hash_32 _ _ Hh). destruct (Nat.eqb_spec (length (Sender_Pubk t)) 0); [done|].
  destruct (Nat.eqb_spec (length (Signature t)) 0); [lia|]. simpl.
  by destruct (Nat.eqb_spec (length (Sender_Pubk t)) 32).
Qed.

Lemma send_panics_text_panics p x : send_panics_text x = true -> SendRawTransaction cfg undef p x = Panic.
Proof using Type.
  unfold send_panics_text, SendRawTransaction. case_bool_decide; [done|].
  destruct (hex_DecodeString x) as [b []]; [|done]. destruct (ParseTransaction b) as [[t|]|]; [|done|done].
  intros Hk. unfold send_transaction. cbn [VerifySignature_ok]. by rewrite key_panics_Verify.
Qed.

Lemma SendRawTransaction_spec p b t h x :
  b <> [] -> ParseTransaction b = Some t -> GetHash t = Return h ->
  SendRawTransaction cfg undef p (hex_EncodeToString b) = Return x -> submitted p t h x.
Proof.
  intros Hb Ht Hh. unfold SendRawTransaction.
  rewrite bool_decide_false by (by destruct b; [|cbn; discriminate]). rewrite hex_Decode_Encode, Ht.
  by apply send_transaction_spec.
Qed.

(** C8: what a node accepts from a client.  [SendRawTransaction] of the hex of a
    transaction that parses and can be hashed, when it returns, succeeds exactly
    when the transaction passes the verification of its signature, is of this
    network and funded: a contract transaction needs a positive fuel price, fuel
    and fee within the configured maxima and an account whose balance covers
    amount and fuel, anything else needs zero fuel and a balance that covers the
    amount.  On success the transaction's hash is returned and it waits in the
    contract pool or in the publish queue, and nothing else changes; on an error
    nothing changes at all.  A native transaction from an address of 20 bytes to
    one or to none gets an answer, unless its signature has 64 bytes or more, its
    public key neither 0 nor 32, and it can be hashed unsigned: then the
    signature library panics and there is no answer. *)
Theorem SendRawTransaction_admits p b t h :
  b <> [] -> ParseTransaction b = Some t -> GetHash t = Return h ->
  (forall x, SendRawTransaction cfg undef p (hex_EncodeToString b) = Return x -> submitted p t h x)
  /\ (addressed t ->
      if verify_panics t then SendRawTransaction cfg undef p (hex_EncodeToString b) = Panic
      else exists x, SendRawTransaction cfg undef p (hex_EncodeToString b) = Return x).
Proof.
  intros Hb Ht Hh. split; [intros x; by apply SendRawTransaction_spec|].
  unfold SendRawTransaction. rewrite bool_decide_false by (by destruct b; [|cbn; discriminate]).
  rewrite hex_Decode_Encode, Ht. by eapply send_transaction_total.
Qed.

(** ** Looking transactions up *)

Lemma DecodeHexString_Hex h : DecodeHexString ("0x" ++ hex_EncodeToString h) = (h, true).
Proof. unfold DecodeHexString. rewrite TrimPrefix_0x. apply hex_Decode_Encode. Qed.

(** No payment of a pin or of the dag has this hash. *)
Definition no_payment (s : DagWorld) (h : bytes) : Prop :=
  find_confirmed_payment h 0 (pins (w_pins (world s))) = Return None
  /\ find_unconfirmed h (dheap s) (d_dag (dg s)) = Return None.

(** A contract transaction can be looked up by the hash its submission
    returned: [GetAnyTransactionByHash] finds it as unconfirmed at once, also
    if an earlier transaction of this hash was confirmed, and
    [GetTransactionByHash], which asks for confirmed ones, does not. *)
Theorem submitted_contract_is_found p b t h p' r :
  b <> [] -> ParseTransaction b = Some t -> GetHash t = Return h -> is_contract t = true ->
  no_payment (p_dag p) h ->
  SendRawTransaction cfg undef p (hex_EncodeToString b) = Return (p', r, None) ->
  GetAnyTransactionByHash p' (ex_Hash r) = Return (Some (NewUnifiedUnconfirmedTx t), true)
  /\ GetTransactionByHash p' (ex_Hash r) = Return (None, false).
Proof.
  intros Hb Ht Hh Hc [Hn1 Hn2] E.
  apply (SendRawTransaction_spec _ _ _ _ _ Hb Ht Hh) in E as (_ & -> & _ & ->).
  unfold GetAnyTransactionByHash, GetTransactionByHash, SearchAnyTx, SearchTx, accepted.
  rewrite DecodeHexString_Hex, Hc. cbn [with_p_smc with_p_dag p_dag with_world world with_smc w_pins w_smc].
  change (dheap (with_world (p_dag p) _)) with (dheap (p_dag p)).
  change (dg (with_world (p_dag p) _)) with (dg (p_dag p)).
  rewrite Hn1. cbn [outcome_bind]. unfold FindAny, FindConfirmed. cbn [confirmedPool unconfirmedPool].
  rewrite lookup_delete_eq. rewrite Hn2. cbn [outcome_bind]. by rewrite lookup_insert_eq.
Qed.

(** A payment that is in the dag but not yet in a pin is not found by its
    hash: [SearchAnyTx] finds it but returns it together with the error of the
    search for confirmed transactions, and the service reports that there is no
    such transaction. *)
Theorem pending_payment_is_not_found p h t :
  find_confirmed_payment h 0 (pins (w_pins (world (p_dag p)))) = Return None ->
  FindConfirmed (w_smc (world (p_dag p))) (Hex_String (Some h)) = None ->
  find_unconfirmed h (dheap (p_dag p)) (d_dag (dg (p_dag p))) = Return (Some t) ->
  SearchAnyTx (p_dag p) h = Return (Some (NewUnifiedUnconfirmedTx t), true)
  /\ GetAnyTransactionByHash p ("0x" ++ hex_EncodeToString h) = Return (None, false).
Proof.
  intros Hp Hc Hu. unfold GetAnyTransactionByHash, SearchAnyTx, SearchTx.
  rewrite DecodeHexString_Hex, Hp. cbn [outcome_bind]. rewrite Hc, Hu. by cbn [outcome_bind].
Qed.
End Submit.

(** ** A client that calls a contract *)

Definition contract_call : Txv1 :=
  get_return (Txv1_Sign {| Tx_Type := CALL_CONTRACT; Chain_Type := PRIVATE_TESTNET;
    Sender_Pubk := replicate 32 x01; Sender := replicate 20 x01; Recepient := replicate 20 x02;
    Amount := [x05]; Nonce := 9; TimestampOf := 0; Fuel_Limit := [x0a]; Fuel_Price := [x01];
    Data := Some [x01]; Signature := [] |} (replicate 32 x01)) sample_payment.

(** A wire format that carries the call. *)
#[local] Instance proto_call : ProtoLib := {
  proto_Marshal_Txv1 := proto_Marshal_Txv1 (ProtoLib := proto_fields);
  proto_Unmarshal_Txv1 b := if decide (b = [x07]) then Some (Txv1_MarshalBinary contract_call) else None
}.

Definition sample_service : ServiceConfig :=
  {| c_Network := PRIVATE_TESTNET; Maxfuellimit := 1000; Maxfuelprice := 10;
     Coinbaseaccount := sample_account |}.

(** A leader whose sender has 100 in its account. *)
Definition funded_peer : Peer :=
  with_p_dag receiver (with_world leader_dag (with_store (world leader_dag)
    (putAccount NewStorage {| sa_Address := sample_sender; sa_PublicKey := ""; sa_Balance := "100";
                              sa_Nonce := "0"; sa_CodeHash := ""; sa_Code := ""; sa_Created := 0 |}))).

Definition call_hash : bytes := get_return (GetHash (ATxv1 contract_call)) [].

Definition after_call : Peer * ExecutionResult * option SendError :=
  get_return (SendRawTransaction sample_service (fun _ => 0) funded_peer (hex_EncodeToString [x07]))
    (receiver, no_result, Some ErrHex).

Lemma call_sent :
  SendRawTransaction sample_service (fun _ => 0) funded_peer (hex_EncodeToString [x07]) = Return after_call
  /\ snd after_call = None.
Proof. split; vm_compute; reflexivity. Qed.

Lemma SendRawTransaction_admits_witness :
  exists x, SendRawTransaction sample_service (fun _ => 0) funded_peer (hex_EncodeToString [x07]) = Return x
  /\ admissible sample_service (fun _ => 0) funded_peer (ATxv1 contract_call)
  /\ fst (fst x) = accepted funded_peer (ATxv1 contract_call) call_hash.
Proof.
  destruct (SendRawTransaction_admits sample_service (fun _ => 0) funded_peer [x07] (ATxv1 contract_call) call_hash)
    as [Hspec _].
  - discriminate.
  - vm_compute. reflexivity.
  - vm_compute. reflexivity.
  - destruct call_sent as [E En]. exists after_call. split; [exact E|]. specialize (Hspec _ E).
    destruct after_call as [[p' r] e]. cbn [snd] in En. subst e. destruct Hspec as [Ha [-> _]].
    split; [by apply Ha|reflexivity].
Defined.

Lemma submitted_contract_is_found_witness :
  GetAnyTransactionByHash (fst (fst after_call)) (ex_Hash (snd (fst after_call)))
  = Return (Some (NewUnifiedUnconfirmedTx (ATxv1 contract_call)), true).
Proof.
  destruct (submitted_contract_is_found sample_service (fun _ => 0) funded_peer [x07] (ATxv1 contract_call)
    call_hash (fst (fst after_call)) (snd (fst after_call))) as [E _].
  - discriminate.
  - vm_compute. reflexivity.
  - vm_compute. reflexivity.
  - vm_compute. reflexivity.
  - split; vm_compute; reflexivity.
  - destruct call_sent as [E En]. rewrite E. destruct after_call as [[p' r] e]. cbn [snd] in En.
    subst e. reflexivity.
  - exact E.
Defined.

(** The peer that published [signed_payment] cannot find it. *)
Definition publisher_after : Peer :=
  match after_publish with Some (Return (p, _)) => p | _ => publisher end.
Definition payment_hash : bytes := get_return (GetHash (ATxv1 signed_payment)) [].

Lemma pending_payment_is_not_found_witness :
  GetAnyTransactionByHash publisher_after ("0x" ++ hex_EncodeToString payment_hash) = Return (None, false).
Proof.
  destruct (pending_payment_is_not_found publisher_after payment_hash (ATxv1 signed_payment)) as [_ E].
  - vm_compute. reflexivity.
  - vm_compute. reflexivity.
  - vm_compute. reflexivity.
  - exact E.
Defined.
