(* ===== verification/PeerSteps.v ===== *)
(** A peer with its goroutines: clients submit transactions, the publisher, the
    subscriber, the inserter and the tickers of the watcher and of the subscriber
    run in any order.  The ticker of the subscriber is a step as long as it finds
    nothing to relink: relinking adds a target to a node without the source and
    the edge, so it breaks the invariant. *)
From S2P Require Import Prelude GoLib Bytes Tx TxRecords Storage Pool WalletCache Node Pin.
From S2P Require Import PinProps PinSync Confirmation Weights Dag DagProps DagSteps Search.
From S2P Require Import Diffusion DiffusionProps Services.

Section Peer.
Context `{CryptoLib} `{ProtoLib} `{TimestampLib} `{EthLib} `{UuidLib} `{ProtoPinLib}.
Context `{Goterators} `{MathLib} `{MapRange} `{!CollSet uuid} `{PeerLib} `{ProtoGrapeLib}.
Variable cfg : DagConfiguration.
Variable scfg : ServiceConfig.
Variable RunCall : Storage -> pb_Txv1 -> PinTxHeader -> Storage * (CallResponse + string).
Variable coinbase : string.
Variable dagWallet : Wallet.
Variable undef : string -> Z.
Variable maxFuel : Z.
Variable ReverseSlice : list loc -> list loc.
Variable base64 : bytes -> string.
Variable hostID : string.
Variable leader : bool.

(** A node of the dag waits for a target that is another node of the dag. *)
Definition relinks (s : DagWorld) : Prop :=
  exists l n t m, l ∈ d_dag (dg s) /\ dheap s !! l = Some n /\ t ∈ d_dag (dg s) /\ dheap s !! t = Some m
  /\ uid n <> uid m /\ is_Some (missingTargets n !! uuid_String (uid m)).

Inductive peer_step (p : Peer) : Peer -> Prop :=
| step_send raw x :
    SendRawTransaction scfg undef p raw = Return x -> peer_step p (fst (fst x))
| step_grpc m : peer_step p (PublishTx p m)
| step_stop p' : stop_service p dagWallet = Return p' -> peer_step p p'
| step_publish e p' r :
    draws_ok (pe_draws e) -> mapped_vertices (dg (p_dag p)) !! pe_id e = None ->
    publish cfg RunCall coinbase dagWallet undef maxFuel base64 leader e p = Some (Return (p', r)) ->
    peer_step p p'
| step_subscribe e from data p' :
    subscribe base64 hostID e p from data = Return p' -> peer_step p p'
| step_unsubscribe : peer_step p (unsubscribe p)
| step_runInsert now p' r :
    runInsert cfg RunCall coinbase dagWallet undef maxFuel ReverseSlice leader now p = Return (p', r) ->
    peer_step p p'
(** The watcher's ticker. *)
| step_watch now p' :
    watch_tick RunCall coinbase dagWallet undef maxFuel leader now p = Return p' -> peer_step p p'
(** The subscriber's ticker, with nothing to relink. *)
| step_reconcile p' : ~ relinks (p_dag p) -> reconcile_tick p = Return p' -> peer_step p p'.

(** ** The invariant *)

(** A queued node is on the heap, linked to nothing and not in the dag. *)
Definition queued (s : DagWorld) (m : SubInTx) : Prop :=
  match cmd m with
  | SUBINTX_INSERT => exists l, vertex m = Some l /\ outside s l
  | SUBINTX_STOP => vertex m = None
  end.

Record peer_inv (p : Peer) : Prop := {
  pi_dag : dag_inv (p_dag p);
  pi_queued : Forall (queued (p_dag p)) (subintxq p);
  pi_once : NoDup (omap vertex (subintxq p))
}.

Lemma queued_outside s m l : queued s m -> vertex m = Some l -> outside s l.
Proof. unfold queued. destruct (cmd m); [|congruence]. intros (x & Hx & Ho) Hl. congruence. Qed.

Lemma queued_kept s s' l m : kept s s' l -> (l = None \/ vertex m <> l) -> queued s m -> queued s' m.
Proof.
  intros [_ K] Hl. unfold queued. destruct (cmd m); [|done]. intros (x & Hx & Ho). exists x.
  split; [done|]. apply K; [|done]. destruct Hl as [->|Hl]; congruence.
Qed.

(** The queue keeps its meaning in a state that keeps what is outside. *)
Lemma queue_kept s s' l q :
  kept s s' l -> (l = None \/ forall x, l = Some x -> x ∉ omap vertex q) ->
  Forall (queued s) q -> Forall (queued s') q.
Proof.
  intros K Hl Hq. apply Forall_forall. intros m Hm. rewrite Forall_forall in Hq.
  eapply queued_kept; [exact K| |by apply Hq]. destruct Hl as [->|Hl]; [by left|].
  destruct l as [x|]; [|by left]. right. intros Hv. apply (Hl x eq_refl).
  apply list_elem_of_omap. by exists m.
Qed.

(** ** Nodes and pins *)

Lemma alloc_kept s n s' l :
  dag_inv s -> isolated n -> alloc s n = (s', l) ->
  kept s s' None /\ outside s' l /\ dheap s !! l = None
  /\ dheap s' !! l = Some n /\ mapped_vertices (dg s') = mapped_vertices (dg s).
Proof.
  intros I Hi Ha. destruct (alloc_spec s n s' l I Hi Ha) as (I' & Hnone & Hh & Hdg & _ & Hnin).
  split; [|split; [|split; [done|]; by rewrite Hh, Hdg, lookup_insert_eq]].
  - split; [done|]. intros x _ [(m & Hm & Hx) Hd]. split; [|by rewrite Hdg].
    exists m. rewrite Hh, lookup_insert_ne by congruence. done.
  - split; [|by rewrite Hdg]. exists n. by rewrite Hh, lookup_insert_eq.
Qed.

(** What [new_node_for] leaves. *)
Definition node_made (p p' : Peer) (id : uuid) (o : option loc) : Prop :=
  subintxq p' = subintxq p
  /\ match o with
     | None => p_dag p' = p_dag p
     | Some l => exists n, alloc (p_dag p) n = (p_dag p', l) /\ isolated n /\ uid n = id
     end.

Lemma new_node_for_spec p network id w now t verify p' o :
  new_node_for base64 p network id w now t verify = Return (p', o) -> node_made p p' id o.
Proof.
  unfold new_node_for, node_made. destruct (NewDagNode _ _ _ _ _ _ _ _ _) as [[n|]|] eqn:En;
    cbn [outcome_bind]; [| |done].
  - destruct (alloc _ _) as [s l] eqn:Ea. intros [= <- <-]. split; [done|].
    exists n. split; [exact Ea|]. revert En. unfold NewDagNode, Node_GenerateAddress.
    destruct (GetChainType t); cbn [outcome_bind]; [|done]. case_match; [done|].
    destruct verify; [destruct (VerifySignature_ok t) as [[]|]; cbn [outcome_bind]; [|done|done]|];
      (destruct (GetSignature _); cbn [outcome_bind]; [|done]); by intros [= <-].
  - by intros [= <- <-].
Qed.

Lemma leader_sync_kept now p p' :
  dag_inv (p_dag p) -> leader_sync RunCall coinbase dagWallet undef maxFuel leader now p = Return p' ->
  kept (p_dag p) (p_dag p') None /\ subintxq p' = subintxq p.
Proof.
  intros I. unfold leader_sync. destruct leader; [|by intros [= <-]].
  destruct (SyncUp _ _ _ _ _ _ _) as [[s b]|] eqn:E; cbn [outcome_bind fst snd]; [|done]. intros [= <-].
  split; [|done]. cbn. revert E. unfold SyncUp. destruct (d_dag (dg (p_dag p))); [done|].
  case_match; [|by intros [= <- <-]]. destruct (genPinTx _ _ _ _ _ _ _) as [s1|] eqn:Eg; cbn [outcome_bind]; [|done].
  intros [= <- _]. by eapply genPinTx_kept.
Qed.

Lemma queue_fresh s l q : Forall (queued s) q -> dheap s !! l = None -> l ∉ omap vertex q.
Proof.
  intros Hq Hl (m & Hm & Hv)%list_elem_of_omap. rewrite Forall_forall in Hq.
  destruct (queued_outside s m l (Hq m Hm) Hv) as [(n & Hn & _) _]. congruence.
Qed.

(** A state with the same queue whose dag kept what is outside. *)
Lemma peer_inv_kept p p' :
  peer_inv p -> kept (p_dag p) (p_dag p') None -> subintxq p' = subintxq p -> peer_inv p'.
Proof.
  intros [I Hq Hn] K Eq. split; [apply K| |by rewrite Eq]. rewrite Eq.
  eapply queue_kept; [exact K|by left|done].
Qed.

Lemma kept_new s s1 s2 l :
  kept s s1 None -> dheap s !! l = None -> kept s1 s2 (Some l) -> kept s s2 None.
Proof.
  intros [_ K1] Hl [I K2]. split; [done|]. intros x _ Ho. apply K2; [|by apply K1].
  destruct Ho as [(n & Hn & _) _]. congruence.
Qed.

(** ** Every step *)

Lemma publish_inv e p p' r :
  peer_inv p -> draws_ok (pe_draws e) -> mapped_vertices (dg (p_dag p)) !! pe_id e = None ->
  publish cfg RunCall coinbase dagWallet undef maxFuel base64 leader e p = Some (Return (p', r)) ->
  peer_inv p'.
Proof.
  intros PI Hd Hnew. unfold publish. destruct (publishQueue p) as [|t q]; [by intros [= <- _]|].
  destruct (IsService t && _); [by intros [= <- _]; destruct PI|].
  destruct (new_node_for _ _ _ _ _ _ t false) as [[p1 [l|]]|] eqn:En; [| |done];
    apply new_node_for_spec in En as [Hq Hm]; cbn in Hq.
  2:{ destruct (print_tx t); cbn [outcome_bind]; [|done]. intros [= <- _].
      eapply peer_inv_kept; [exact PI| |done]. rewrite Hm. apply kept_refl, PI. }
  destruct Hm as (n & Ha & Hi & Hid). cbn in Ha.
  destruct (alloc_kept _ _ _ _ (pi_dag p PI) Hi Ha) as (K1 & [_ Hnin] & Hnone & Hn & Hmv).
  destruct (AddTxDag _ _ _ _ _ l) as [[[s res]|]|] eqn:Ea; cbn [fuel_bind]; [|done|done].
  apply (AddTxDag_kept cfg _ _ _ _ l n) in Ea; [|apply K1| |done].
  2:{ split; [done|done|done|by rewrite Hmv, Hid]. }
  assert (peer_inv (with_p_dag p1 s)) as PI1.
  { eapply (peer_inv_kept p); [exact PI| |exact Hq]. by eapply kept_new. }
  destruct res as [[ids sigs]|].
  - destruct (dheap s !! l) as [n'|]; [|done]. destruct (MarshalRecord _ _) as [payload ok].
    destruct (if ok then _ else _); cbn [outcome_bind]; [|done]. destruct (pe_open e).
    + destruct (leader_sync _ _ _ _ _ _ _ _) as [p2|] eqn:El; cbn [outcome_bind]; [|done].
      intros [= <- _]. apply leader_sync_kept in El as [K2 Hq2]; [|apply PI1]. by eapply peer_inv_kept.
    + by intros [= <- _].
  - destruct (print_tx t); cbn [outcome_bind]; [|done]. by intros [= <- _].
Qed.

Lemma enqueue_inv p m :
  peer_inv p -> queued (p_dag p) m -> (forall l, vertex m = Some l -> l ∉ omap vertex (subintxq p)) ->
  peer_inv (with_subintxq p (subintxq p ++ [m])).
Proof.
  intros [I Hq Hn] Hm Hnew. split; [done| |]; cbn [p_dag subintxq with_subintxq].
  - apply Forall_app. by split; [|constructor].
  - rewrite omap_app. apply NoDup_app. split; [done|]. cbn. destruct (vertex m) as [l|]; cbn.
    + split; [|apply NoDup_singleton]. intros x Hx Hy%list_elem_of_singleton. subst. by apply (Hnew l).
    + split; [set_solver|constructor].
Qed.

Lemma subscribe_inv e p from data p' :
  peer_inv p -> subscribe base64 hostID e p from data = Return p' -> peer_inv p'.
Proof.
  intros PI. unfold subscribe. case_bool_decide; [by intros [= <-]|].
  destruct (UnmarshalRecord _ _) as [r ok]. destruct (g_Transaction r) as [t|]; [|done].
  destruct (new_node_for _ _ _ _ _ _ t true) as [[p1 [l|]]|] eqn:En; cbn [outcome_bind]; [| |done];
    apply new_node_for_spec in En as [Hq Hm].
  - destruct Hm as (n & Ha & Hi & _).
    destruct (alloc_kept _ _ _ _ (pi_dag p PI) Hi Ha) as (K1 & Ho & Hnone & _).
    destruct (uuid_Parse _); [|done]. intros [= <-].
    apply enqueue_inv; [by eapply peer_inv_kept|by exists l|].
    cbn. intros x [= <-]. rewrite Hq. eapply queue_fresh; [apply PI|done].
  - destruct (print_tx t); cbn [outcome_bind]; [|done]. intros [= <-].
    eapply peer_inv_kept; [exact PI| |done]. rewrite Hm. apply kept_refl, PI.
Qed.

Hypothesis ReverseSlice_perm : forall l, ReverseSlice l ≡ₚ l.

Lemma runInsert_inv now p p' r :
  peer_inv p ->
  runInsert cfg RunCall coinbase dagWallet undef maxFuel ReverseSlice leader now p = Return (p', r) ->
  peer_inv p'.
Proof.
  intros PI. unfold runInsert. destruct (subintxq p) as [|m q] eqn:Eq; [by intros [= <- _]|].
  destruct PI as [I Hq Hn]. rewrite Eq in Hq, Hn. apply Forall_cons in Hq as [Hm Hq]. cbn in Hn.
  unfold queued in Hm. destruct (cmd m).
  - destruct Hm as (l & Hv & (n & Hl & Hi) & Hd). rewrite Hv in Hn |- *. cbn in Hn.
    apply NoDup_cons in Hn as [Hlq Hn].
    destruct (InsertTxDag _ _ _ _ _ _ _ _ _) as [[s e]|] eqn:Ei; cbn [outcome_bind fst snd]; [|done].
    apply (InsertTxDag_kept cfg ReverseSlice ReverseSlice_perm now _ l n) in Ei; [|done..].
    assert (peer_inv (with_p_dag (with_subintxq p q) s)) as PI1.
    { split; [apply Ei| |done]. cbn. eapply queue_kept; [exact Ei| |exact Hq]. right. by intros x [= <-]. }
    destruct e as [e|].
    + destruct (dheap s !! l); [|done]. destruct (print_tx _); cbn [outcome_bind]; [|done]. by intros [= <- _].
    + destruct (leader_sync _ _ _ _ _ _ _ _) as [p2|] eqn:El; cbn [outcome_bind]; [|done].
      intros [= <- _]. apply leader_sync_kept in El as [K2 Hq2]; [|apply PI1]. by eapply peer_inv_kept.
  - rewrite Hm in Hn. intros [= <- _]. by split.
Qed.

(** A submission touches the pool or the publish queue only. *)
Lemma with_p_smc_inv p smc : peer_inv p -> peer_inv (with_p_smc p smc).
Proof.
  intros PI. eapply peer_inv_kept; [exact PI| |done]. split.
  - by apply (dag_inv_shape (p_dag p)); [apply PI|..].
  - intros x _. by apply outside_shape.
Qed.

Lemma send_transaction_inv p t x :
  peer_inv p -> send_transaction scfg undef p t = Return x -> peer_inv (fst (fst x)).
Proof.
  intros PI. unfold send_transaction, executePaymentTx.
  destruct (VerifySignature_ok t) as [sig|]; cbn [outcome_bind]; [|done].
  destruct (GetChainType t); cbn [outcome_bind]; [|done]. case_match.
  { destruct (print_tx t); cbn [outcome_bind]; [|done]. by intros [= <-]. }
  destruct (GetHash t); cbn [outcome_bind]; [|done]. destruct sig; cbn [negb].
  2:{ destruct (GetSender t); cbn [outcome_bind]; [|done]. by intros [= <-]. }
  destruct (is_contract t).
  - destruct (check_contract _ _ _ _) as [[e|]|]; cbn [outcome_bind]; [by intros [= <-]| |done].
    destruct (AddUnconfirmed _ _); cbn [outcome_bind]; [|done]. intros [= <-]. by apply with_p_smc_inv.
  - destruct (check_payment _ _) as [[e|]|]; cbn [outcome_bind]; [by intros [= <-]| |done].
    intros [= <-]. by destruct PI.
Qed.

Lemma SendRaw_inv p raw x : peer_inv p -> SendRawTransaction scfg undef p raw = Return x -> peer_inv (fst (fst x)).
Proof.
  intros PI. unfold SendRawTransaction. case_bool_decide; [done|].
  destruct (hex_DecodeString raw) as [b []]; [|by intros [= <-]].
  destruct (ParseTransaction b); [by apply send_transaction_inv|by intros [= <-]].
Qed.

Lemma watch_tick_inv now p p' :
  peer_inv p -> watch_tick RunCall coinbase dagWallet undef maxFuel leader now p = Return p' -> peer_inv p'.
Proof.
  intros PI. unfold watch_tick. destruct (leader && leaderReady p); [|by intros [= <-]].
  destruct (genPinTx _ _ _ _ _ _ _) as [s|] eqn:E; cbn [outcome_bind]; [|done]. intros [= <-].
  apply (peer_inv_kept p); [done| |done]. cbn. eapply genPinTx_kept; [apply PI|exact E].
Qed.

Lemma possible_targets_none s n l :
  (forall t m, t ∈ l -> dheap s !! t = Some m -> uid n <> uid m -> missingTargets n !! uuid_String (uid m) = None) ->
  possible_targets (dheap s) n l = Panic \/ possible_targets (dheap s) n l = Return [].
Proof using Type.
  induction l as [|t l IH]; intros Hl; cbn [possible_targets]; [by right|].
  destruct (dheap s !! t) as [m|] eqn:Hm; [|by left].
  destruct IH as [-> | ->]; [intros t' m' Ht'; apply Hl; by right|by left|]. cbn [outcome_bind]. right.
  case_bool_decide as Hu; [done|]. rewrite (Hl t m); [done|by left|done|done].
Qed.

(** A tick that finds nothing to relink changes nothing. *)
Lemma reconcile_quiet s l r :
  ~ relinks s -> (forall x, x ∈ l -> x ∈ d_dag (dg s)) -> reconcile s l = Return r -> fst r = s.
Proof using Type.
  intros Hq. revert r. induction l as [|x l IH]; intros r Hl; cbn [reconcile]; [by intros [= <-]|].
  destruct (dheap s !! x) as [n|] eqn:Hn; [|done].
  destruct (possible_targets_none s n (d_dag (dg s))) as [-> | ->]; [|done|].
  { intros t m Ht Hm Hu. destruct (missingTargets n !! _) eqn:E; [|done]. destruct Hq.
    exists x, n, t, m. split; [apply Hl; by left|]. by rewrite E. }
  cbn [outcome_bind relink fst snd].
  replace (with_dg (with_dheap s (dheap s)) (set_links (dg s) (d_links (dg s)))) with s
    by (by destruct s as [[] ? []]).
  rewrite Hn. destruct (reconcile s l) as [r'|] eqn:E; cbn [outcome_bind]; [|done]. intros [= <-]. simpl.
  apply IH; [|done]. intros y Hy. apply Hl. by right.
Qed.

Lemma incomplete_in (h : heap) l r : incomplete_vertices h l = Return r -> forall x, x ∈ r -> x ∈ l.
Proof using Type.
  revert r. induction l as [|y l IH]; intros r; cbn [incomplete_vertices]; [by intros [= <-]|].
  destruct (h !! y); [|done]. destruct (incomplete_vertices h l) as [q|]; cbn [outcome_bind]; [|done].
  specialize (IH q eq_refl). intros [= <-] x. case_match; [|intros Hx; right; by apply IH].
  intros [->|Hx]%elem_of_cons; [by left|right; by apply IH].
Qed.

Lemma reconcile_tick_quiet p p' : ~ relinks (p_dag p) -> reconcile_tick p = Return p' -> p' = p.
Proof using Type.
  intros Hq. unfold reconcile_tick, ReconcileMissingTargets.
  destruct (incomplete_vertices _ _) as [l|] eqn:El; cbn [outcome_bind]; [|done].
  destruct (reconcile (p_dag p) l) as [r|] eqn:Er; cbn [outcome_bind]; [|done]. intros [= <-].
  rewrite (reconcile_quiet (p_dag p) l r Hq (incomplete_in _ _ _ El) Er). by destruct p.
Qed.

Lemma peer_step_inv p p' : peer_inv p -> peer_step p p' -> peer_inv p'.
Proof.
  intros PI [raw x E|m|p1 E|e p1 r Hd Hid E|e from data p1 E| |now p1 r E|now p1 E|p1 Hq E].
  - by eapply SendRaw_inv.
  - by destruct PI.
  - revert E. unfold stop_service. destruct (NewServiceTxv1 _ _ _); cbn [outcome_bind]; [|done].
    intros [= <-]. by destruct PI.
  - by eapply publish_inv.
  - by eapply subscribe_inv.
  - apply enqueue_inv; [done|done|done].
  - by eapply runInsert_inv.
  - by eapply watch_tick_inv.
  - by rewrite (reconcile_tick_quiet p p1 Hq E).
Qed.
(** A peer that has just started. *)
Definition started (chaintype : Z) (p : Peer) : Prop :=
  subintxq p = [] /\ exists s0 now, initial s0 /\ newDag dagWallet cfg chaintype leader now s0 = Return (p_dag p).

Inductive peer_reachable (chaintype : Z) : Peer -> Prop :=
| peer_start p : started chaintype p -> peer_reachable chaintype p
| peer_next p p' : peer_reachable chaintype p -> peer_step p p' -> peer_reachable chaintype p'.

(** C7: whatever clients submit and whatever other peers publish, in any
    interleaving of the steps that return (submissions, publishing under new
    ids, receiving, inserting, forming pins on the leader after a step or by the
    watcher's ticker, and ticks of the relinking goroutine that find nothing to
    relink), the dag of a peer stays well formed, and every node that waits in
    the inbound queue is on the heap, is linked to nothing, is not in the dag and
    waits only once, so it can still be inserted.  A tick that relinks a node to
    a missing target is not among the steps: it adds the target on one side
    only.  Messages of the sync protocol are not among them either. *)
Theorem peer_stays_well_formed chaintype p : peer_reachable chaintype p -> peer_inv p.
Proof.
  induction 1 as [p [Hq (s0 & now & Hi & E)]|p p' _ IH Hs]; [|by eapply peer_step_inv].
  split; [by eapply newDag_inv|by rewrite Hq|rewrite Hq; constructor].
Qed.

(** A peer cannot survive a message it cannot read: data from another peer
    that is not a record of this protocol version makes the subscriber panic,
    in every state of the peer. *)
Theorem unreadable_record_panics e p from data :
  from <> hostID ->
  (proto_Unmarshal_GrapeTx data = None
   \/ exists m, proto_Unmarshal_GrapeTx data = Some m
      /\ (GrapeTxFromProtobuf m = Panic \/ to_uint8 (pb_Version m) <> TVX1)) ->
  subscribe base64 hostID e p from data = Panic.
Proof.
  intros Hf Hd. unfold subscribe, UnmarshalRecord. rewrite bool_decide_false by done.
  destruct Hd as [->|(m & -> & Hm)]; [done|].
  destruct (GrapeTxFromProtobuf m) as [r|] eqn:Er; [|done]. destruct Hm as [|Hv]; [done|].
  revert Er. unfold GrapeTxFromProtobuf. rewrite (proj2 (Z.eqb_neq _ _) Hv). cbn [outcome_bind].
  by intros [= <-].
Qed.
End Peer.

(** ** The two peers of the sample payment *)

Definition sample_scfg : ServiceConfig :=
  {| c_Network := PRIVATE_TESTNET; Maxfuellimit := 1000; Maxfuelprice := 10;
     Coinbaseaccount := sample_account |}.

Lemma peer_stays_well_formed_witness :
  exists p, peer_reachable sample_config sample_scfg sample_vm sample_account leader_wallet (fun _ => 0) 10
              (@rev nat) hex_EncodeToString "a" true PRIVATE_TESTNET p
  /\ peer_inv p /\ length (subintxq p) = 1%nat.
Proof.
  assert (peer_reachable sample_config sample_scfg sample_vm sample_account leader_wallet (fun _ => 0) 10
            (@rev nat) hex_EncodeToString "a" true PRIVATE_TESTNET receiver) as R0.
  { apply peer_start. split; [reflexivity|]. exists empty_world, 0. split; [split; reflexivity|exact leader_dag_new]. }
  assert (exists p, subscribe hex_EncodeToString "a" sample_sub_env receiver "b" [x01] = Return p
                    /\ length (subintxq p) = 1%nat) as (p & E & Hlen).
  { eexists. split; vm_compute; reflexivity. }
  exists p.
  pose proof (peer_next _ _ _ _ _ _ _ _ _ _ _ _ receiver p R0
                (step_subscribe _ _ _ _ _ _ _ _ _ _ _ receiver sample_sub_env "b" [x01] p E)) as R.
  split; [exact R|]. split; [|exact Hlen].
  exact (peer_stays_well_formed _ _ _ _ _ _ _ _ _ _ _ (fun l => Permutation_sym (Permutation_rev l)) _ p R).
Defined.

Lemma unreadable_record_panics_witness :
  subscribe (H9 := no_codec) hex_EncodeToString "a" sample_sub_env receiver "b" [x01] = Panic.
Proof. apply (unreadable_record_panics (H9 := no_codec)). discriminate. left. reflexivity. Defined.
