(* ===== verification/EthRpc.v ===== *)
(** The Ethereum JSON-RPC front end: [services/eth/rpc/api.go].

    A request has been read from JSON; a response is the structure that is
    written as JSON.  A type assertion on a parameter of another type and a
    slice bound outside a string panic, as in Go (the HTTP server recovers the
    connection's goroutine).  Error texts are left out, codes are kept. *)
From S2P Require Import Prelude GoLib Bytes StateMachine Tx TxRecords Storage Pool WalletCache Node Pin.
From S2P Require Import PinProps Confirmation Weights Dag Search Diffusion Services.

(** ** Numbers as text *)

(** [Text(16)] and [fmt.Sprintf("%X", _)] differ in the case of the letters. *)
Definition hex_digit_upper (n : N) : ascii :=
  Ascii.ascii_of_N (if (n <? 10)%N then n + 48 else n + 55).

Fixpoint hex_digits (digit : N -> ascii) (fuel : nat) (n : N) (acc : string) : string :=
  match fuel with
  | O => acc
  | S fuel =>
      let acc := String (digit (n mod 16)%N) acc in
      if (n / 16 =? 0)%N then acc else hex_digits digit fuel (n / 16)%N acc
  end.

Definition hex_text (digit : N -> ascii) (z : Z) : string :=
  let n := Z.abs_N z in
  let s := hex_digits digit (S (N.to_nat (N.size n))) n "" in
  if z <? 0 then String "-" s else s.

Definition bigIntToHex (i : Z) : string :=
  if i =? 0 then "0x0" else ("0x" ++ hex_text hex_digit i)%string.
Definition intToHex (i : Z) : string :=
  if i =? 0 then "0x0" else ("0x" ++ hex_text hex_digit_upper i)%string.
Definition int64ToHex (i : Z) : string :=
  if i =? 0 then "0x0" else ("0x" ++ hex_text hex_digit_upper i)%string.

(** The error is always nil: a text that is no number panics. *)
Definition hexToInt (h : string) : outcome Z :=
  let! b := HexToBytes h in Return (big_Int64 (SetBytes b)).

(** ** Requests and responses *)

Inductive json :=
| JNull | JBool (b : bool) | JNumber (z : Z) | JString (s : string) | JArray (l : list json)
| JObject (m : list (string * json)).

Record RPCRequest := { rq_ID : Z; Method : string; Params : list json; rq_JsonRpc : string }.
Record RPCError := { Code : Z }.

Record RpcLog := {
  LogIndex : string; lg_TransactionIndex : string; lg_TransactionHash : string;
  lg_BlockHash : string; lg_BlockNumber : string; lg_Address : string; lg_Data : string;
  lg_Topics : list string
}.
Record RpcReceipt := {
  rr_TransactionHash : string; rr_TransactionIndex : string; rr_BlockHash : string;
  rr_BlockNumber : string; rr_From : string; rr_To : option string;
  rr_CumulativeGasUsed : string; rr_EffectiveGasPrice : string; rr_GasUsed : string;
  rr_ContractAddress : option string; rr_Logs : list RpcLog; rr_LogsBloom : string;
  rr_Type : string; rr_Status : string
}.
Record TransactionResponse := {
  tr_Hash : string; tr_Index : option string; tr_BlockHash : option string;
  tr_BlockNumber : option string; tr_From : string; tr_To : option string; tr_Input : string;
  tr_Value : string; tr_Nonce : string; tr_Gas : string; tr_GasPrice : string;
  tr_V : string; tr_R : string; tr_S : string
}.
(** The constant fields of a block are left out. *)
Record BlockResponse := {
  br_Number : string; br_Hash : string; br_ParentHash : string; br_Miner : string;
  br_Size : string; br_GasLimit : string; br_GasUsed : string; br_Timestamp : string;
  br_Transactions : list TransactionResponse
}.

Inductive RPCResult :=
| RNil | RString (s : string) | RReceipt (r : RpcReceipt) | RTx (t : TransactionResponse)
| RBlock (b : BlockResponse).
Record RPCResponse := { Result : RPCResult; Error : option RPCError }.

Definition StatusBadRequest : Z := 400.
Definition StatusNotFound : Z := 404.
Definition StatusMethodNotAllowed : Z := 405.
Definition StatusInternalServerError : Z := 500.

Definition ok (r : RPCResult) : RPCResponse := {| Result := r; Error := None |}.
Definition failed (code : Z) : RPCResponse := {| Result := RNil; Error := Some {| Code := code |} |}.

(** ** Parameters of a call *)

(** [m[k]]: JSON keeps the last value of a repeated key. *)
Definition jfield (m : list (string * json)) (k : string) : json :=
  default JNull (last (omap (fun '(k', v) => if bool_decide (k' = k) then Some v else None) m)).

(** [if m[k] != nil { s = m[k].(string) }]. *)
Definition jstring (m : list (string * json)) (k : string) : outcome string :=
  match jfield m k with JNull => Return ""%string | JString s => Return s | _ => Panic end.

Record CallParams := {
  cp_From : string; cp_To : string; cp_Gas : string; cp_GasPrice : string; cp_Value : string;
  cp_Data : string
}.

Definition call_params (p : json) (to : list (string * json) -> outcome string) : outcome CallParams :=
  match p with
  | JObject m =>
      let! data := jstring m "data" in
      let! from := jstring m "from" in
      let! value := jstring m "value" in
      let! gas := jstring m "gas" in
      let! gasPrice := jstring m "gasPrice" in
      let! to := to m in
      Return {| cp_From := from; cp_To := to; cp_Gas := gas; cp_GasPrice := gasPrice;
                cp_Value := value; cp_Data := data |}
  | _ => Panic
  end.

(** ** Transactions and logs *)

Section Rpc.
Context `{CryptoLib} `{ProtoLib} `{TimestampLib} `{EthLib} `{UuidLib} `{ProtoPinLib}.
Context `{MapRange} `{!CollSet uuid}.
Variable cfg : ServiceConfig.
Variable undef : string -> Z.
Variable EstimateGas : Storage -> EstimateGasRequest -> CallResponse + string.
Variable RunCode : Storage -> ReadContractRequest -> (string * string) + string.
(** [crypto.CreateAddress] for a caller and the nonce 0. *)
Variable CreateAddress : bytes -> bytes.

(** [EthAddressFromCaller] does not use the nonce. *)
Definition EthAddressFromCaller (caller : bytes) (callerNonce : Z) : bytes := CreateAddress caller.

Definition mapTopic (topics : list bytes) : list string :=
  map (fun t => ("0x" ++ hex_EncodeToString t)%string) topics.

Fixpoint mapLogs_from (idx : Z) (logs : list Log) (c : ConfirmedTx) : outcome (list RpcLog) :=
  match logs with
  | [] => Return []
  | l :: rest =>
      let! h := GetHash (c_tx c) in
      let! a := BytesToAddress (ContractAddress l) in
      let! more := mapLogs_from (idx + 1) rest c in
      Return ({| LogIndex := intToHex idx; lg_TransactionIndex := intToHex (TxIndex c);
                 lg_TransactionHash := Hex_String (Some h); lg_BlockHash := PinTxHash c;
                 lg_BlockNumber := intToHex (PinTxNumber c); lg_Address := a;
                 lg_Data := ("0x" ++ hex_EncodeToString (l_Data l))%string;
                 lg_Topics := mapTopic (Topics l) |} :: more)
  end.
Definition mapLogs (logs : list Log) (c : ConfirmedTx) : outcome (list RpcLog) := mapLogs_from 0 logs c.

(** [random] are the texts [RandomHex] returns for a transaction without r and s. *)
Definition mapTx (random : string * string) (trx : UnifiedTx) : outcome TransactionResponse :=
  let! t := GetRawTx trx in
  let to := match GetRecipient t with [] => None | r => Some (Hex_String (Some r)) end in
  let! h := GetHash t in
  let! sig :=
    if GetType t =? 1 then
      let! s := GetSignature t in
      let! ct := GetChainType t in
      let! d := DecodeSignature s ct in
      let '(r, s, v) := d in
      Return (Hex_String (Some r), Hex_String (Some s), Hex_String (Some v))
    else Return (fst random, snd random, "0x26"%string) in
  let '(r, s, v) := sig in
  let! sender := GetSender t in
  let! from := BytesToAddress sender in
  Return {| tr_Hash := Hex_String (Some h);
            tr_Index := (fun c => intToHex (TxIndex c)) <$> confirmed trx;
            tr_BlockHash := PinTxHash <$> confirmed trx;
            tr_BlockNumber := (fun c => int64ToHex (PinTxNumber c)) <$> confirmed trx;
            tr_From := from; tr_To := to;
            tr_Input := match GetData t with
                        | None | Some [] => "0x0"%string
                        | Some d => Hex_String (Some d)
                        end;
            tr_Value := bigIntToHex (GetAmount t); tr_Nonce := int64ToHex (to_int64 (GetNonce t));
            tr_Gas := bigIntToHex (GetFuelLimit t); tr_GasPrice := bigIntToHex (GetFuelPrice t);
            tr_V := v; tr_R := r; tr_S := s |}.

(** ** Handlers *)

Definition handleNetVersion : RPCResponse := ok (RString (intToHex (c_Network cfg + 1))).
Definition handleEthCoinbase : RPCResponse := ok (RString (Coinbaseaccount cfg)).
Definition handleEthChainID : RPCResponse := ok (RString (intToHex (c_Network cfg + 1))).
Definition handleEthGasPrice : RPCResponse := ok (RString "0x1").
Definition handleEthBlockNumber (p : Peer) : RPCResponse :=
  ok (RString (intToHex (CurrentHeight (w_pins (world (p_dag p)))))).

(** The first parameter, which has to be a string. *)
Definition with_string (params : list json) (k : string -> outcome RPCResponse) : outcome RPCResponse :=
  match params with
  | JString s :: _ => k s
  | _ => Return (failed StatusBadRequest)
  end.

Definition handleEthGetBalance (p : Peer) (params : list json) : outcome RPCResponse :=
  with_string params (fun addressStr =>
    let st := w_store (world (p_dag p)) in
    let! account := SearchAccount undef st addressStr in
    let! balance :=
      match account with
      | None => Return 0
      | Some a =>
          let! sc := IsSCAccount st addressStr in
          if negb sc then
            let! byteAddress := AddressToBytes (ln_Id a) in
            let! b := NodeTxPin_GetBalance (w_pins (world (p_dag p))) (walletCache (world (p_dag p)))
                        byteAddress in
            Return (if snd b then fst b else 0)
          else Return (ln_Balance a)
      end in
    Return (ok (RString ("0x" ++ hex_text hex_digit balance)))).

Definition handleEthGetTransactionCount (p : Peer) (params : list json) : outcome RPCResponse :=
  with_string params (fun addressStr =>
    let! account := SearchAccount undef (w_store (world (p_dag p))) addressStr in
    Return (ok (RString (int64ToHex (match account with
                                     | None => 0
                                     | Some a => big_Int64 (ln_Nonce a)
                                     end))))).

Definition handleEthGetStorageAt (p : Peer) (params : list json) : outcome RPCResponse :=
  match params with
  | JString addressHex :: JString positionHex :: _ =>
      let! v := GetStorageAt (w_store (world (p_dag p))) addressHex positionHex in
      Return (ok (RString v))
  | _ => Return (failed StatusBadRequest)
  end.

Definition handleEthGetCode (p : Peer) (params : list json) : outcome RPCResponse :=
  with_string params (fun addressStr =>
    let! code := GetContractCode (w_store (world (p_dag p))) addressStr in
    Return (ok (RString ("0x" ++ code)))).

Definition handleEthSendRawTransaction (p : Peer) (params : list json) : outcome (Peer * RPCResponse) :=
  match params with
  | JString txHexStr :: _ =>
      let! raw := go_slice txHexStr 2 (Z.of_nat (String.length txHexStr)) in
      let! r := SendRawTransaction cfg undef p raw in
      let '(p, res, err) := r in
      Return (p, match err with
                 | Some _ => failed StatusBadRequest
                 | None => ok (RString (ex_Hash res))
                 end)
  | _ => Return (p, failed StatusBadRequest)
  end.

Definition handleEthCall (p : Peer) (connected : bool) (params : list json) : outcome RPCResponse :=
  match params with
  | [] => Return (failed StatusBadRequest)
  | call :: _ =>
      let! c := call_params call (fun m => match jfield m "to" with JString s => Return s | _ => Panic end) in
      let! methodId := go_slice (cp_Data c) 2 10 in
      let! data := go_slice (cp_Data c) 10 (Z.of_nat (String.length (cp_Data c))) in
      let! r := CallReadContract cfg RunCode p connected (cp_To c) methodId data (cp_From c) in
      Return (match r with
              | inr _ => failed StatusInternalServerError
              | inl res => ok (RString (if bool_decide (res = "null"%string) then "0x" else res))
              end)
  end.

(** [res.GasUsed * 11 / 10], truncated, at most the fuel limit. *)
Definition increasedGas (gasUsed : Z) : Z :=
  let g := Z.quot (to_int64 (gasUsed * 11)) 10 in
  if to_int64 (Maxfuellimit cfg) <? g then to_int64 (Maxfuellimit cfg) else g.

Definition handleEthEstimateGas (p : Peer) (connected : bool) (now : Z) (params : list json)
  : outcome RPCResponse :=
  match params with
  | [] => Return (failed StatusBadRequest)
  | call :: _ =>
      let! c := call_params call (fun m => jstring m "to") in
      let! from := AddressToBytes (cp_From c) in
      let! to := AddressToBytes (cp_To c) in
      let! data := HexToBytesNil (cp_Data c) in
      let! amount := HexToBytesNil (cp_Value c) in
      let! r := EstimateTxFuel cfg EstimateGas p connected now
                  {| RawTx := None;
                     r_Message := Some {| m_From := Some from; m_To := Some to; m_Data := data;
                                          m_Amount := amount; m_Coinbase := None; m_FixingTx := None |} |} in
      Return (match r with
              | inr _ => {| Result := RString "null"; Error := Some {| Code := 32000 |} |}
              | inl res => ok (RString (intToHex (increasedGas (GasUsed res))))
              end)
  end.

Definition handleEthGetTransactionReceipt (p : Peer) (params : list json) : outcome RPCResponse :=
  with_string params (fun txHashStr =>
    let! r := GetTransactionByHash p txHashStr in
    match r with
    | (Some c, true) =>
        let t := c_tx c in
        let! to := match GetRecipient t with
                   | [] => Return None
                   | a => let! s := BytesToAddress a in Return (Some s)
                   end in
        let! contractAddress :=
          if GetTransactionType t =? 1 then
            let! s := GetSender t in
            Return (Some (EthAddress_Hex (EthAddressFromCaller s (to_int64 (GetNonce t)))))
          else Return None in
        let! h := GetHash t in
        let logs := GetLogsForTx (w_store (world (p_dag p))) h in
        let! sender := GetSender t in
        let! from := BytesToAddress sender in
        let! ls := mapLogs logs c in
        Return (ok (RReceipt
          {| rr_TransactionHash := Hex_String (Some h); rr_TransactionIndex := intToHex (TxIndex c);
             rr_BlockHash := PinTxHash c; rr_BlockNumber := intToHex (PinTxNumber c);
             rr_From := from; rr_To := to; rr_CumulativeGasUsed := intToHex (CumulativeGasUsed c);
             rr_EffectiveGasPrice :=
               ("0x" ++ hex_text hex_digit (SetBytes (Bytes (GetFuelPrice t))))%string;
             rr_GasUsed := intToHex (UsedFuel c); rr_ContractAddress := contractAddress;
             rr_Logs := ls; rr_LogsBloom := ZeroHex 32; rr_Type := intToHex 0;
             rr_Status := intToHex (match c_Status c with Failed => 0 | Successful => 1 end) |}))
    | _ => Return (ok RNil)
    end).

Definition handleEthGetTransactionByHash (p : Peer) (random : string * string) (params : list json)
  : outcome RPCResponse :=
  with_string params (fun txHashStr =>
    let! r := GetAnyTransactionByHash p txHashStr in
    match r with
    | (Some t, true) => let! m := mapTx random t in Return (ok (RTx m))
    | (None, true) => Panic
    | (_, false) => Return (ok RNil)
    end).

(** A node that is no payment becomes a wrapper of a nil transaction, on which
    [mapTx] panics. *)
Fixpoint block_payments (random : Z -> string * string) (pin : TxPin) (hash : string) (idx : Z) (l : list pb_Node)
  : outcome (list TransactionResponse) :=
  match l with
  | [] => Return []
  | payment :: rest =>
      let! t := UnmarshalBinary (pb_n_Tx payment) in
      match NewPaymentConfirmedTx t (PinNumber pin) hash idx with
      | None => Panic
      | Some c =>
          let! m := mapTx (random idx) (NewUnifiedConfirmedTx c) in
          let! more := block_payments random pin hash (idx + 1) rest in
          Return (m :: more)
      end
  end.

Fixpoint block_calls (random : Z -> string * string) (pin : TxPin) (hash : string) (idx gas : Z)
    (l : list ExecutedSmcTx) : outcome (list TransactionResponse) :=
  match l with
  | [] => Return []
  | smcTx :: rest =>
      let r := ex_Receipt smcTx in
      let! t := UnmarshalBinary (ex_Tx smcTx) in
      let! m := mapTx (random (idx + Z.of_nat (length (Nodes pin)))) (NewUnifiedConfirmedTx
                  {| c_tx := t; UsedFuel := FuelUsed r; StatusMessage := rc_StatusMessage r;
                     c_Status := match rc_Status r with FAILED => Failed | SUCCESSFUL => Successful end;
                     PinTxNumber := PinNumber pin; PinTxHash := hash;
                     TxIndex := idx + Z.of_nat (length (Nodes pin)); CumulativeGasUsed := gas |}) in
      let! more := block_calls random pin hash (idx + 1) (to_int64 (gas + FuelUsed r)) rest in
      Return (m :: more)
  end.

(** The block of a pin. *)
Definition block_of (random : Z -> string * string) (ps : NodeTxPin) (pin : TxPin) (loadTxs : bool)
  : outcome BlockResponse :=
  let! prevHash := match GetPin ps (to_int64 (PinNumber pin - 1)) with
                   | None => Return None
                   | Some prev => let! h := TxPin_GetHash prev in Return (Some h)
                   end in
  let! h := TxPin_GetHash pin in
  let hash := Hex_String (Some h) in
  let! txs := if loadTxs then
                let! a := block_payments random pin hash 0 (Nodes pin) in
                let! b := block_calls random pin hash 0 0 (SmcTxs pin) in
                Return (a ++ b)
              else Return [] in
  let limit := ("0x" ++ hex_text hex_digit (to_int64 (Maxfuellimit cfg)))%string in
  Return {| br_Number := intToHex (PinNumber pin); br_Hash := hash; br_ParentHash := Hex_String prevHash;
            br_Miner := Coinbaseaccount cfg;
            br_Size := intToHex (Z.of_nat (length (Sites pin)) + Z.of_nat (length (SmcTxs pin)));
            br_GasLimit := limit; br_GasUsed := limit;
            br_Timestamp := int64ToHex (Unix (AsTime (Ts pin))); br_Transactions := txs |}.

Definition handleEthGetBlockByNumber (p : Peer) (random : Z -> string * string) (params : list json)
  : outcome RPCResponse :=
  match params with
  | JString blockNumStr :: JBool loadTxs :: _ =>
      let ps := w_pins (world (p_dag p)) in
      let! pin := if bool_decide (blockNumStr = "latest"%string) then Return (GetLastPin ps)
                  else let! n := hexToInt blockNumStr in Return (GetPin ps n) in
      match pin with
      | None => Return (failed StatusNotFound)
      | Some pin => let! b := block_of random ps pin loadTxs in Return (ok (RBlock b))
      end
  | _ => Return (failed StatusBadRequest)
  end.

(** What the outside returns during a call. *)
Record rpc_env := { re_connected : bool; re_now : Z; re_random : Z -> string * string }.

(** [body] is the decoded request, [None] a body that is not JSON; the result is
    an HTTP status or the response. *)
Definition RpcHandler (e : rpc_env) (p : Peer) (method : string) (body : option RPCRequest)
  : outcome (Peer * (Z + RPCResponse)) :=
  if negb (bool_decide (method = "POST"%string)) then Return (p, inl StatusMethodNotAllowed)
  else match body with
  | None => Return (p, inl StatusBadRequest)
  | Some r =>
      if negb (bool_decide (rq_JsonRpc r = "2.0"%string)) then Return (p, inl StatusBadRequest)
      else
        let pure_ x := Return (p, inr x) in
        let read (o : outcome RPCResponse) := let! x := o in Return (p, inr x) in
        let m := Method r in
        let ps := Params r in
        if bool_decide (m = "net_version"%string) then pure_ handleNetVersion
        else if bool_decide (m = "eth_coinbase"%string) then pure_ handleEthCoinbase
        else if bool_decide (m = "eth_chainId"%string) then pure_ handleEthChainID
        else if bool_decide (m = "eth_gasPrice"%string) then pure_ handleEthGasPrice
        else if bool_decide (m = "eth_blockNumber"%string) then pure_ (handleEthBlockNumber p)
        else if bool_decide (m = "eth_getBalance"%string) then read (handleEthGetBalance p ps)
        else if bool_decide (m = "eth_getStorageAt"%string) then read (handleEthGetStorageAt p ps)
        else if bool_decide (m = "eth_getCode"%string) then read (handleEthGetCode p ps)
        else if bool_decide (m = "eth_sendRawTransaction"%string) then
          let! x := handleEthSendRawTransaction p ps in Return (fst x, inr (snd x))
        else if bool_decide (m = "eth_call"%string) then read (handleEthCall p (re_connected e) ps)
        else if bool_decide (m = "eth_estimateGas"%string) then
          read (handleEthEstimateGas p (re_connected e) (re_now e) ps)
        else if bool_decide (m = "eth_getTransactionReceipt"%string) then
          read (handleEthGetTransactionReceipt p ps)
        else if bool_decide (m = "eth_getBlockByNumber"%string) then
          read (handleEthGetBlockByNumber p (re_random e) ps)
        else if bool_decide (m = "eth_getTransactionCount"%string) then
          read (handleEthGetTransactionCount p ps)
        else if bool_decide (m = "eth_getTransactionByHash"%string) then
          read (handleEthGetTransactionByHash p (re_random e 0) ps)
        else pure_ (failed StatusNotFound)
  end.
End Rpc.
