(* ===== verification/EthRpcProps.v ===== *)
(** What the JSON-RPC front end promises: blocks by number, and transactions
    that were sent through it. *)
From S2P Require Import Prelude GoLib Bytes StateMachine Tx TxRecords Storage Pool WalletCache Node Pin.
From S2P Require Import PinProps PinSync Confirmation Weights Dag DagSteps Search Diffusion DiffusionProps.
From S2P Require Import Services ServicesProps EthRpc.

(** ** Numbers *)

Lemma hex_val_upper n : (n < 16)%N -> hex_val (hex_digit_upper n) = Some n.
Proof.
  intros Hn. eapply bool_decide_eq_true_1.
  apply (digits_checked (fun k => bool_decide (hex_val (hex_digit_upper k) = Some k)) n); [|done].
  vm_compute. reflexivity.
Qed.

Lemma hex_digits_S digit fuel n acc :
  hex_digits digit (S fuel) n acc
  = if (n / 16 =? 0)%N then String (digit (n mod 16)%N) acc
    else hex_digits digit fuel (n / 16)%N (String (digit (n mod 16)%N) acc).
Proof. done. Qed.

Lemma hex_number_digits digit : (forall n, (n < 16)%N -> hex_val (digit n) = Some n) ->
  forall fuel n acc, (n < 2 ^ N.of_nat fuel)%N ->
  hex_number 0 (hex_digits digit (S fuel) n acc) = hex_number (Z.of_N n) acc.
Proof.
  intros Hd. induction fuel as [|fuel IH]; intros n acc Hn; rewrite hex_digits_S;
    pose proof (N.Div0.div_mod n 16); pose proof (N.mod_lt n 16 ltac:(lia));
    (destruct (N.eqb_spec (n / 16) 0) as [Hz|Hz];
      [cbn [hex_number]; rewrite Hd by done; f_equal; lia|]).
  - cbn in Hn. assert (n = 0)%N as -> by lia. done.
  - rewrite IH.
    + cbn [hex_number]. rewrite Hd by done. f_equal. lia.
    + apply N.Div0.div_lt_upper_bound. rewrite Nat2N.inj_succ, N.pow_succ_r' in Hn. lia.
Qed.

Lemma hex_val_lt c n : hex_val c = Some n -> (n < 16)%N.
Proof.
  unfold hex_val. set (m := N_of_ascii c).
  destruct ((48 <=? m) && (m <=? 57))%N eqn:E1; [intros [= <-]; apply andb_true_iff in E1 as [_ E%N.leb_le]; lia|].
  destruct ((97 <=? m) && (m <=? 102))%N eqn:E2; [intros [= <-]; apply andb_true_iff in E2 as [_ E%N.leb_le]; lia|].
  destruct ((65 <=? m) && (m <=? 70))%N eqn:E3; [intros [= <-]; apply andb_true_iff in E3 as [_ E%N.leb_le]; lia|done].
Qed.

Lemma hex_number_decode s : forall a v, Nat.even (String.length s) = true -> hex_number a s = Some v ->
  exists b, hex_DecodeString s = (b, true) /\ SetBytes_acc a b = v.
Proof.
  induction s as [s IH] using (induction_ltof1 _ String.length). unfold ltof in IH.
  intros a v He Hv. destruct s as [|c [|d s]]; [|done|].
  - injection Hv as <-. by exists [].
  - cbn [hex_number] in Hv. cbn [hex_DecodeString].
    destruct (hex_val c) as [x|] eqn:Ec; [|done]. destruct (hex_val d) as [y|] eqn:Ed; [|done].
    destruct (IH s ltac:(cbn; lia) ((a * 16 + Z.of_N x) * 16 + Z.of_N y) v He Hv) as (b & -> & Hb).
    eexists. split; [reflexivity|]. cbn [SetBytes_acc]. rewrite <- Hb. f_equal.
    apply hex_val_lt in Ec, Ed. unfold byte_to_Z, byte_of_N.
    destruct (Byte.of_N (16 * x + y)) as [z|] eqn:Ez; [apply Byte.to_of_N in Ez; cbn; lia|].
    apply Byte.of_N_None_iff in Ez. lia.
Qed.

Lemma hexToInt_intToHex i : 0 <= i < 2 ^ 63 -> hexToInt (intToHex i) = Return i.
Proof.
  intros Hi. unfold hexToInt, intToHex. destruct (Z.eqb_spec i 0) as [->|Hne]; [done|].
  unfold HexToBytes. rewrite TrimPrefix_0x. set (s := hex_text hex_digit_upper i).
  assert (hex_number 0 s = Some i) as Hs.
  { unfold s, hex_text. destruct (Z.ltb_spec i 0); [lia|]. rewrite hex_number_digits.
    - cbn. f_equal. lia.
    - apply hex_val_upper.
    - rewrite N2Nat.id. apply N.size_gt. }
  destruct s as [|c s'] eqn:Es; [injection Hs as <-; done|]. rewrite <- Es in *.
  replace (String.length s =? 0)%nat with false by by rewrite Es.
  assert (forall s, hex_number 0 ("0" ++ s) = hex_number 0 s) as H0 by done.
  set (s1 := if negb _ then _ else _).
  assert (Nat.even (String.length s1) = true /\ hex_number 0 s1 = Some i) as [He Hs1].
  { unfold s1. rewrite Nat.even_spec. destruct (Nat.eqb_spec (String.length s mod 2) 0) as [Hm|Hm]; cbn [negb].
    - split; [|done]. exists (String.length s / 2)%nat. pose proof (Nat.div_mod_eq (String.length s) 2). lia.
    - split; [|by rewrite H0]. change (String.length ("0" ++ s)) with (S (String.length s)).
      exists (S (String.length s / 2)).
      pose proof (Nat.div_mod_eq (String.length s) 2). pose proof (Nat.mod_upper_bound (String.length s) 2 ltac:(lia)). lia. }
  destruct (hex_number_decode s1 0 i He Hs1) as (b & -> & Hb). cbn [outcome_bind].
  unfold SetBytes. rewrite Hb. f_equal. unfold big_Int64. destruct (Z.ltb_spec i 0); [lia|].
  unfold to_uint64. rewrite wrap_small by lia. unfold to_int64, swrap.
  rewrite Z.mod_small by (cbn; lia). lia.
Qed.

(** ** Transactions *)

Section Transactions.
Context `{CryptoLib} `{ProtoLib} `{TimestampLib} `{EthLib} `{UuidLib} `{ProtoPinLib}.
Context `{MapRange} `{!CollSet uuid}.
Variable cfg : ServiceConfig.
Variable undef : string -> Z.
Variable CreateAddress : bytes -> bytes.

(** A transaction that the front end can show: its hash is [h], its sender the
    20-byte address [sender], and the signature and chain of an Ethereum
    transaction can be read. *)
Record presentable (t : Transaction) (h sender : bytes) : Prop := {
  pt_hash : GetHash t = Return h;
  pt_sender : GetSender t = Return sender;
  pt_address : length sender = 20%nat;
  pt_signature : GetType t = 1 ->
    exists sig ct, GetSignature t = Return sig /\ (64 <= length sig)%nat /\ GetChainType t = Return ct
}.

Lemma presentable_native x h :
  GetHash (ATxv1 x) = Return h -> length (Sender x) = 20%nat -> presentable (ATxv1 x) h (Sender x).
Proof using Type. by split. Qed.

(** The contents of the transaction, as the front end shows them. *)
Record tx_shown (t : Transaction) (h sender : bytes) (m : TransactionResponse) : Prop := {
  sh_hash : tr_Hash m = Hex_String (Some h);
  sh_from : tr_From m = ("0x" ++ hex_EncodeToString sender)%string;
  sh_to : tr_To m = match GetRecipient t with [] => None | r => Some (Hex_String (Some r)) end;
  sh_value : tr_Value m = bigIntToHex (GetAmount t);
  sh_gas : tr_Gas m = bigIntToHex (GetFuelLimit t) /\ tr_GasPrice m = bigIntToHex (GetFuelPrice t);
  sh_nonce : tr_Nonce m = int64ToHex (to_int64 (GetNonce t));
  sh_input : tr_Input m = match GetData t with None | Some [] => "0x0"%string | Some d => Hex_String (Some d) end
}.

(** Its place in a block. *)
Definition place_shown (u : UnifiedTx) (m : TransactionResponse) : Prop :=
  tr_Index m = (fun c => intToHex (TxIndex c)) <$> confirmed u
  /\ tr_BlockHash m = PinTxHash <$> confirmed u
  /\ tr_BlockNumber m = (fun c => int64ToHex (PinTxNumber c)) <$> confirmed u.

Lemma mapTx_presentable random u t h sender :
  GetRawTx u = Return t -> presentable t h sender ->
  exists m, mapTx random u = Return m /\ tx_shown t h sender m /\ place_shown u m.
Proof using Type.
  intros Hu [Hh Hs Ha Hsig]. unfold mapTx. rewrite Hu. cbn [outcome_bind]. rewrite Hh. cbn [outcome_bind].
  assert (exists r s v, (if GetType t =? 1 then
      let! s := GetSignature t in let! ct := GetChainType t in let! d := DecodeSignature s ct in
      let '(r, s, v) := d in Return (Hex_String (Some r), Hex_String (Some s), Hex_String (Some v))
    else Return (fst random, snd random, "0x26"%string)) = Return (r, s, v)) as (r & s & v & ->).
  { destruct (Z.eqb_spec (GetType t) 1) as [E|]; [|by do 3 eexists].
    destruct (Hsig E) as (sig & ct & -> & Hlen & ->). cbn [outcome_bind]. unfold DecodeSignature.
    destruct (Nat.ltb_spec (length sig) 64); [lia|]. cbn [outcome_bind]. by do 3 eexists. }
  cbn [outcome_bind]. rewrite Hs. cbn [outcome_bind]. rewrite (BytesToAddress_20 _ Ha). cbn [outcome_bind].
  eexists. split; [reflexivity|]. by split.
Qed.

(** C34: a contract transaction, of the network or of Ethereum, that was sent
    through the front end can be asked for through it.  Its sender is an address
    of 20 bytes, the signature and chain of an Ethereum transaction can be read,
    and no payment of the dag or of a pin has its hash.  If
    [eth_sendRawTransaction] accepts it, it returns the hash of the transaction,
    [eth_getTransactionByHash] then returns its sender, recipient, amount, nonce,
    data, fuel limit and price, in no block, and [eth_getTransactionReceipt]
    returns null because it is not confirmed. *)
Theorem sent_transaction_is_returned p b t h sender random p' s :
  b <> [] -> ParseTransaction b = Some t -> is_contract t = true ->
  presentable t h sender -> no_payment (p_dag p) h ->
  handleEthSendRawTransaction cfg undef p [JString ("0x" ++ hex_EncodeToString b)]
  = Return (p', ok (RString s)) ->
  s = Hex_String (Some h)
  /\ handleEthGetTransactionReceipt CreateAddress p' [JString s] = Return (ok RNil)
  /\ exists m, handleEthGetTransactionByHash p' random [JString s] = Return (ok (RTx m))
     /\ tx_shown t h sender m /\ place_shown (NewUnifiedUnconfirmedTx t) m.
Proof.
  intros Hb Ht Hc Hpr Hno. pose proof (pt_hash _ _ _ Hpr) as Hh. unfold handleEthSendRawTransaction.
  set (raw := hex_EncodeToString b).
  assert (go_slice ("0x" ++ raw) 2 (Z.of_nat (String.length ("0x" ++ raw))) = Return raw) as ->.
  { unfold go_slice. change (String.length ("0x" ++ raw)) with (S (S (String.length raw))).
    destruct (Z.ltb_spec (Z.of_nat (S (S (String.length raw)))) 2); [lia|]. rewrite Z.ltb_irrefl.
    cbn [orb Z.ltb Z.compare]. f_equal.
    replace (Z.to_nat (Z.of_nat (S (S (String.length raw))) - 2)) with (String.length raw) by lia.
    cbn. apply substring_0_length. }
  cbn [outcome_bind]. destruct (SendRawTransaction cfg undef p raw) as [[[p1 r] [e|]]|] eqn:E;
    cbn [outcome_bind]; [done| |done]. intros [= <- <-].
  destruct (submitted_contract_is_found cfg undef p b t h p1 r Hb Ht Hh Hc Hno E) as [Hany Hconf].
  assert (ex_Hash r = Hex_String (Some h)) as Hr.
  { destruct (SendRawTransaction_spec cfg undef p b t h _ Hb Ht Hh E) as (_ & _ & _ & ->). done. }
  split; [done|]. unfold handleEthGetTransactionReceipt, handleEthGetTransactionByHash, with_string.
  rewrite Hany, Hconf. cbn [outcome_bind]. split; [done|].
  destruct (mapTx_presentable random (NewUnifiedUnconfirmedTx t) t h sender) as (m & -> & Hm); [done..|].
  by exists m.
Qed.

(** ** The transactions of a block *)

Definition showable (m : pb_Txv1) : Prop :=
  exists t h sender, UnmarshalBinary m = Return t /\ presentable t h sender.

Definition showable_payment (n : pb_Node) : Prop :=
  showable (pb_n_Tx n) /\ forall t, UnmarshalBinary (pb_n_Tx n) = Return t -> GetTransactionType t = PAYMENT.

(** The response [r] shows the transaction of the message. *)
Definition shows (m : pb_Txv1) (r : TransactionResponse) : Prop :=
  exists t h sender, UnmarshalBinary m = Return t /\ GetHash t = Return h /\ GetSender t = Return sender
  /\ tx_shown t h sender r.

(** The transactions [ms] are numbered from [k] in the block [hash]. *)
Definition in_block (pin : TxPin) (hash : string) (k : nat) (ms : list TransactionResponse) : Prop :=
  forall i m, ms !! i = Some m -> tr_Index m = Some (intToHex (Z.of_nat (k + i)))
  /\ tr_BlockHash m = Some hash /\ tr_BlockNumber m = Some (int64ToHex (PinNumber pin)).

Lemma in_block_cons pin hash k m ms :
  tr_Index m = Some (intToHex (Z.of_nat k)) -> tr_BlockHash m = Some hash ->
  tr_BlockNumber m = Some (int64ToHex (PinNumber pin)) -> in_block pin hash (S k) ms ->
  in_block pin hash k (m :: ms).
Proof.
  intros H1' H2' H3' Hms [|i] y; cbn; [intros [= <-]; by rewrite Nat.add_0_r|].
  intros Hy. rewrite <- Nat.add_succ_comm. by apply Hms.
Qed.

Lemma in_block_app pin hash k a b :
  in_block pin hash k a -> in_block pin hash (k + length a) b -> in_block pin hash k (a ++ b).
Proof.
  intros Ha Hb i m. rewrite lookup_app_Some. intros [Hi|[Hi Hm]]; [by apply Ha|].
  replace (k + i)%nat with (k + length a + (i - length a))%nat by lia. by apply Hb.
Qed.

Lemma block_payments_spec random pin hash l : forall k,
  Forall showable_payment l ->
  exists ms, block_payments random pin hash (Z.of_nat k) l = Return ms
  /\ Forall2 (fun n r => shows (pb_n_Tx n) r) l ms /\ in_block pin hash k ms.
Proof using Type.
  induction l as [|n l IH]; intros k Hl; cbn [block_payments]; [by exists []|].
  apply Forall_cons in Hl as [[(t & h & sender & Hu & Hpt) Hp] Hl]. rewrite Hu. cbn [outcome_bind].
  unfold NewPaymentConfirmedTx. rewrite (Hp _ Hu), Z.eqb_refl. cbn [negb].
  match goal with |- context [mapTx ?r ?u] =>
    destruct (mapTx_presentable r u t h sender) as (m & -> & Hm & Hi & Hbh & Hbn) end; [done..|]. cbn [outcome_bind].
  destruct (IH (S k) Hl) as (ms & Ems & Hall & Hin). replace (Z.of_nat k + 1) with (Z.of_nat (S k)) by lia.
  rewrite Ems. cbn [outcome_bind]. exists (m :: ms). split; [done|]. split; [|by apply in_block_cons].
  constructor; [|done]. exists t, h, sender. destruct Hpt. by split_and!.
Qed.

Lemma block_calls_spec random pin hash l : forall k gas,
  Forall (fun c => showable (ex_Tx c)) l ->
  exists ms, block_calls random pin hash (Z.of_nat k) gas l = Return ms
  /\ Forall2 (fun c r => shows (ex_Tx c) r) l ms /\ in_block pin hash (k + length (Nodes pin)) ms.
Proof using Type.
  induction l as [|c l IH]; intros k gas Hl; cbn [block_calls]; [by exists []|].
  apply Forall_cons in Hl as [(t & h & sender & Hu & Hpt) Hl]. rewrite Hu. cbn [outcome_bind].
  match goal with |- context [mapTx ?r ?u] =>
    destruct (mapTx_presentable r u t h sender) as (m & -> & Hm & Hi & Hbh & Hbn) end; [done..|]. cbn [outcome_bind].
  destruct (IH (S k) (to_int64 (gas + FuelUsed (ex_Receipt c))) Hl) as (ms & Ems & Hall & Hin).
  replace (Z.of_nat k + 1) with (Z.of_nat (S k)) by lia.
  rewrite Ems. cbn [outcome_bind]. exists (m :: ms). split; [done|]. split.
  - constructor; [|done]. exists t, h, sender. destruct Hpt. by split_and!.
  - apply in_block_cons; [|done|done|done]. rewrite Hi. cbn. do 2 f_equal. lia.
Qed.
End Transactions.

(** ** Blocks *)

Section Blocks.
Context `{CryptoLib} `{ProtoLib} `{TimestampLib} `{EthLib} `{UuidLib} `{ProtoPinLib}.
Context `{MapRange} `{!CollSet uuid}.
Variable cfg : ServiceConfig.

(** The pins are numbered from 0 without gaps. *)
Definition numbered (l : list TxPin) : Prop :=
  Z.of_nat (length l) < 2 ^ 63 /\ forall i x, l !! i = Some x -> PinNumber x = Z.of_nat i.

Lemma GetPin_numbered p i x : numbered (pins p) -> pins p !! i = Some x -> GetPin p (Z.of_nat i) = Some x.
Proof.
  intros [_ Hn] Hx. pose proof (lookup_lt_Some _ _ _ Hx) as Hlt. unfold GetPin.
  destruct (Nat.ltb_spec 0 (length (pins p))); [|lia].
  destruct (Z.leb_spec (Z.of_nat (length (pins p))) (Z.of_nat i)); [lia|].
  destruct (Z.ltb_spec (Z.of_nat i) 0); [lia|]. cbn [orb]. rewrite Nat2Z.id, Hx.
  by rewrite (Hn i x Hx), Z.eqb_refl.
Qed.

(** A pin whose block can be shown. *)
Definition showable_pin (pin : TxPin) : Prop :=
  (exists h, TxPin_GetHash pin = Return h)
  /\ Forall showable_payment (Nodes pin) /\ Forall (fun c => showable (ex_Tx c)) (SmcTxs pin).

(** The block [b] of the pin [i] of [l]. *)
Record block_shows (l : list TxPin) (i : nat) (pin : TxPin) (loadTxs : bool) (b : BlockResponse) : Prop := {
  bs_number : br_Number b = intToHex (Z.of_nat i);
  bs_hash : exists h, TxPin_GetHash pin = Return h /\ br_Hash b = Hex_String (Some h);
  bs_parent : match i with
              | O => br_ParentHash b = "0x"%string
              | S j => exists prev h, l !! j = Some prev /\ TxPin_GetHash prev = Return h
                       /\ br_ParentHash b = Hex_String (Some h)
              end;
  bs_transactions : if loadTxs then
                      (exists pays calls, br_Transactions b = pays ++ calls
                       /\ Forall2 (fun n r => shows (pb_n_Tx n) r) (Nodes pin) pays
                       /\ Forall2 (fun c r => shows (ex_Tx c) r) (SmcTxs pin) calls)
                      /\ in_block pin (br_Hash b) 0 (br_Transactions b)
                    else br_Transactions b = []
}.

Lemma block_of_shows random ps i pin loadTxs :
  numbered (pins ps) -> pins ps !! i = Some pin -> Forall showable_pin (pins ps) ->
  exists b, block_of cfg random ps pin loadTxs = Return b /\ block_shows (pins ps) i pin loadTxs b.
Proof.
  intros Hn Hpin Hall. pose proof Hn as [Hlen Hnum]. pose proof (lookup_lt_Some _ _ _ Hpin).
  rewrite Forall_lookup in Hall. destruct (Hall i pin Hpin) as ([h Hh] & Hpay & Hcall).
  assert (exists o, match GetPin ps (to_int64 (PinNumber pin - 1)) with
                    | None => Return None
                    | Some prev => let! h := TxPin_GetHash prev in Return (Some h)
                    end = Return o
    /\ match i with
       | O => Hex_String o = "0x"%string
       | S j => exists prev h, pins ps !! j = Some prev /\ TxPin_GetHash prev = Return h
                /\ Hex_String o = Hex_String (Some h)
       end) as (o & Eo & Ho).
  { rewrite (Hnum i pin Hpin). destruct i as [|j].
    - exists None. split; [|done]. unfold GetPin.
      destruct (0 <? length (pins ps))%nat; [|done]. by rewrite orb_true_r.
    - replace (to_int64 (Z.of_nat (S j) - 1)) with (Z.of_nat j)
        by (unfold to_int64, swrap; rewrite Z.mod_small by (cbn; lia); lia).
      destruct (lookup_lt_is_Some_2 (pins ps) j ltac:(lia)) as [prev Hj].
      destruct (Hall j prev Hj) as ([h' Hh'] & _). exists (Some h').
      rewrite (GetPin_numbered ps j prev), Hh' by done. split; [done|]. by exists prev, h'. }
  unfold block_of. rewrite Eo, Hh. cbn [outcome_bind]. set (hash := Hex_String (Some h)).
  assert (exists txs, (if loadTxs then
                let! a := block_payments random pin hash 0 (Nodes pin) in
                let! b := block_calls random pin hash 0 0 (SmcTxs pin) in
                Return (a ++ b)
              else Return []) = Return txs
    /\ if loadTxs then (exists pays calls, txs = pays ++ calls
                       /\ Forall2 (fun n r => shows (pb_n_Tx n) r) (Nodes pin) pays
                       /\ Forall2 (fun c r => shows (ex_Tx c) r) (SmcTxs pin) calls) /\ in_block pin hash 0 txs
       else txs = []) as (txs & -> & Htxs).
  { destruct loadTxs; [|by exists []].
    destruct (block_payments_spec random pin hash (Nodes pin) 0 Hpay) as (a & Ea & Hla & Ha).
    destruct (block_calls_spec random pin hash (SmcTxs pin) 0 0 Hcall) as (b & Eb & Hlb & Hb).
    change (Z.of_nat 0) with 0 in Ea, Eb. rewrite Ea. cbn [outcome_bind]. rewrite Eb. cbn [outcome_bind].
    exists (a ++ b). split; [done|]. split; [by exists a, b|].
    apply in_block_app; [done|]. by rewrite <- (Forall2_length _ _ _ Hla). }
  cbn [outcome_bind]. eexists. split; [reflexivity|].
  split; [cbn; by rewrite (Hnum i pin Hpin)|by exists h|exact Ho|exact Htxs].
Qed.

End Blocks.


(** ** The sample peers *)

(** A pin with a payment and a contract call. *)
Definition full_pin : TxPin :=
  {| Prev := []; Ts := None; Sites := [];
     Nodes := [{| pb_n_NodeId := {| pb_n_Id := []; pb_n_Address := ""; pb_n_IdMajor := 0; pb_n_IdMinor := 0 |};
                  pb_n_CumWeight := f64_zero; pb_n_TxWeight := f64_zero; pb_n_Time := None; pb_n_Valid := true;
                  pb_n_Height := (0, 0); pb_n_Tx := Txv1_MarshalBinary sample_payment;
                  pb_n_MissingTargets := ∅ |}];
     Balance := ∅; Pk := []; Sign := replicate 5 x01;
     SmcTxs := [{| ex_Tx := Txv1_MarshalBinary contract_call;
                   ex_Receipt := {| FuelUsed := 21000; rc_Status := SUCCESSFUL; rc_StatusMessage := "0x"; rc_Logs := [] |} |}];
     pin_Diffs := []; PinNumber := 0 |}.

Definition pinned_peer : Peer :=
  with_p_dag receiver (with_world leader_dag (with_w_pins (world leader_dag) (with_pins newNodeTxPin [full_pin]))).

Lemma full_pin_showable : showable_pin full_pin.
Proof.
  split; [eexists; vm_compute; reflexivity|]. split.
  - constructor; [|constructor]. split.
    + eexists _, _, _. split; [vm_compute; reflexivity|]. split; [vm_compute; reflexivity..|discriminate].
    + intros t. vm_compute. intros [= <-]. reflexivity.
  - constructor; [|constructor]. eexists _, _, _. split; [vm_compute; reflexivity|].
    split; [vm_compute; reflexivity..|discriminate].
Qed.


#[local] Existing Instance proto_call.

Definition rpc_peer : Peer := fst (fst after_call).
Definition rpc_hash : string := ex_Hash (snd (fst after_call)).

Lemma rpc_sent :
  handleEthSendRawTransaction sample_service (fun _ => 0) funded_peer
    [JString ("0x" ++ hex_EncodeToString [x07])] = Return (rpc_peer, ok (RString rpc_hash)).
Proof. vm_compute. reflexivity. Qed.

(** A peer of the main network that knows the sender of the Ethereum call. *)
Definition eth_service : ServiceConfig :=
  {| c_Network := MAINNET; Maxfuellimit := 30000; Maxfuelprice := 10; Coinbaseaccount := sample_account |}.

Definition eth_sender : bytes := get_return (GetSender (AnEthTx known_eth)) [].
Definition eth_hash : bytes := get_return (GetHash (AnEthTx known_eth)) [].

Definition eth_peer : Peer :=
  with_p_dag receiver (with_world leader_dag (with_store (world leader_dag)
    (putAccount NewStorage {| sa_Address := hex_EncodeToString eth_sender; sa_PublicKey := ""; sa_Balance := "100000";
                              sa_Nonce := "0"; sa_CodeHash := ""; sa_Code := ""; sa_Created := 0 |}))).

Definition eth_answer : Peer * RPCResponse :=
  get_return (handleEthSendRawTransaction eth_service (fun _ => 0) eth_peer
                [JString ("0x" ++ hex_EncodeToString [xf8])]) (eth_peer, failed 0).

Lemma eth_sent :
  handleEthSendRawTransaction eth_service (fun _ => 0) eth_peer [JString ("0x" ++ hex_EncodeToString [xf8])]
  = Return (fst eth_answer, ok (RString (Hex_String (Some eth_hash)))).
Proof. vm_compute. reflexivity. Qed.

Lemma sent_transaction_is_returned_witness :
  (exists m, handleEthGetTransactionByHash rpc_peer (""%string, ""%string) [JString rpc_hash]
            = Return (ok (RTx m)) /\ tr_Hash m = rpc_hash)
  /\ exists m, handleEthGetTransactionByHash (fst eth_answer) (""%string, ""%string)
                 [JString (Hex_String (Some eth_hash))] = Return (ok (RTx m))
     /\ tr_Value m = "0x5"%string.
Proof.
  split.
  { destruct (sent_transaction_is_returned sample_service (fun _ => 0) (fun b => b) funded_peer [x07] (ATxv1 contract_call)
    call_hash (Sender contract_call) (""%string, ""%string) rpc_peer rpc_hash) as (Hs & _ & m & Em & Hm & _).
  - discriminate.
  - vm_compute. reflexivity.
  - vm_compute. reflexivity.
  - apply presentable_native; vm_compute; reflexivity.
  - split; vm_compute; reflexivity.
  - exact rpc_sent.
  - exists m. split; [exact Em|]. rewrite Hs. exact (sh_hash _ _ _ _ Hm). }
  destruct (sent_transaction_is_returned eth_service (fun _ => 0) (fun b => b) eth_peer [xf8] (AnEthTx known_eth)
    eth_hash eth_sender (""%string, ""%string) (fst eth_answer) (Hex_String (Some eth_hash))) as (_ & _ & m & Em & Hm & _).
  - discriminate.
  - vm_compute. reflexivity.
  - vm_compute. reflexivity.
  - split; [vm_compute; reflexivity..|]. intros _. eexists _, _. split; [vm_compute; reflexivity|].
    split; [|vm_compute; reflexivity]. apply Nat.leb_le. vm_compute. reflexivity.
  - split; vm_compute; reflexivity.
  - exact eth_sent.
  - exists m. split; [exact Em|]. rewrite (sh_value _ _ _ _ Hm). reflexivity.
Defined.
