(* ===== verification/Rest.v ===== *)
(** The REST front end: [services/rest/handlers.go], [services/rest/abi.go] and
    [services/rest/mapper/mapper.go].

    A handler ends with a reply or throws: Go's [panic] with an error, or with
    another value.  [ErrorRecovery] turns an error into a reply and itself
    panics on another value; a status that was written before the panic stays.
    A request comes decoded: its parameters as the
    generated wrapper binds them, its body as [encoding/json] reads it into the
    type the handler names ([None] for an error).  A reply is its status and the
    structure written as JSON.  The texts of errors are left out except for what
    [ErrorRecovery] looks for in them. *)
From S2P Require Import Prelude GoLib Bytes StateMachine Tx TxRecords Storage Pool WalletCache Node Pin.
From S2P Require Import PinProps Confirmation Weights Dag Search Diffusion Services.

(** ** Replies *)

Record api_Account := {
  a_Balance : string; a_Created : Z; a_Id : string; a_Nonce : Z; a_PublicKey : string
}.
Record api_Log := {
  al_Address : string; al_PinTxNumber : string; al_Topics : list string; al_Data : string;
  al_TransactionHash : string
}.
Inductive UnifiedTransactionStatus := FAILED | NOTEXECUTED | SUCCESSFULLYEXECUTED.
Record UnifiedTransaction := {
  ut_Amount : string; ut_ChainId : string; ut_Data : string; ut_Fee : string;
  ut_FuelLimit : string; ut_FuelPrice : string; ut_FuelUsed : string; ut_Nonce : Z;
  ut_Recipient : string; ut_Sender : string; ut_Signature : string;
  ut_Status : UnifiedTransactionStatus; ut_StatusMessage : string; ut_Timestamp : string;
  ut_TxHash : string; ut_Type : Z; ut_Version : Z; ut_PinTxNumber : Z
}.
Record TxReceipt := { tr_TxHash : string; ExecutionStatus : string; FuelUsed_ : Z }.

Inductive rest_body :=
| BNone | BError | BAccounts (l : list api_Account) | BAccount (a : api_Account)
| BCallResult (r : string) | BABI (content : string) | BABISaved | BNetwork (chainId : string)
| BCode (codeHash codeContract : string) | BPin (n : Z) | BReady
| BTransactions (l : list UnifiedTransaction) | BTransaction (t : UnifiedTransaction)
| BReceipt (r : TxReceipt) | BLogs (l : list api_Log) | BPeers (error : bool) (data : list string).

Record reply := { rp_Status : Z; rp_Body : rest_body }.

Definition OK (b : rest_body) : reply := {| rp_Status := 200; rp_Body := b |}.

(** ** Errors *)

Inductive rest_err :=
| ERuntime            (* of the language or of a helper *)
| EInput              (* a parameter that is not valid *)
| EABINotFound
| EService (e : SendError)
| EVm (e : VmError)
| EFaucet.

(** What a handler panics with: an error before or after it wrote the status
    200, or a value that is no error. *)
Inductive thrown := TError (e : rest_err) | TLate (e : rest_err) | TValue.

Abbreviation rest A := (A + thrown)%type.

Definition rest_bind {A B} (m : rest A) (k : A -> rest B) : rest B :=
  match m with inl a => k a | inr e => inr e end.

Notation "'let?' x ':=' m 'in' k" := (rest_bind m (fun x => k))
  (at level 10, x pattern, m at level 100, k at level 200) : go_scope.

Definition lift {A} (o : outcome A) : rest A :=
  match o with Return a => inl a | Panic => inr (TError ERuntime) end.

(** [text]: a panic here has a text and not an error. *)
Definition lift_text {A} (text : bool) (o : outcome A) : rest A :=
  match o with Return a => inl a | Panic => inr (if text then TValue else TError ERuntime) end.

(** A nil pointer is dereferenced. *)
Definition deref_ptr {A} (o : option A) : rest A :=
  match o with Some a => inl a | None => inr (TError ERuntime) end.

Definition throw {A} (e : rest_err) : rest A := inr (TError e).

(** The part of a handler after [WriteHeader(200)]. *)
Definition late {A} (m : rest A) : rest A :=
  match m with inr (TError e) => inr (TLate e) | _ => m end.

(** ** Validation *)

(** The text without its prefix. *)
Definition requireHex (s : string) : rest string :=
  if bool_decide (s = ""%string) then throw EInput
  else if negb (HasPrefix s "0x") then throw EInput
  else
    let s := TrimPrefix s "0x" in
    if snd (hex_DecodeString s) then inl s else throw EInput.

Definition requireHexWithPrefixOfSize (s : string) (size : Z) : rest string :=
  let? s := requireHex s in
  if negb (Z.of_nat (length (fst (hex_DecodeString s))) =? size) then throw EInput else inl s.

Definition requireHexWithPrefixOfMinSize (s : string) (size : Z) : rest string :=
  let? s := requireHex s in
  if Z.of_nat (length (fst (hex_DecodeString s))) <? size then throw EInput else inl s.

Definition parseHex (s : string) : rest bytes :=
  let? s := requireHex s in
  match hex_DecodeString s with (b, true) => inl b | _ => throw ERuntime end.

Fixpoint zeros (n : nat) (s : string) : string :=
  match n with O => s | S n => zeros n (String "0" s) end.

Definition pad32 (s : string) : rest string :=
  if 64 <? Z.of_nat (String.length s) then throw EInput
  else inl (zeros (64 - String.length s) s).

Fixpoint pad_params (l : list string) (acc : string) : rest string :=
  match l with
  | [] => inl acc
  | x :: rest => let? x := requireHex x in
                 let? x := pad32 x in pad_params rest (acc ++ x)%string
  end.

(** ** Contract ABIs *)

Definition GetABI (store : gmap string string) (contractAddress : string) : rest string :=
  match store !! contractAddress with Some a => inl a | None => throw EABINotFound end.

Definition PutABI (store : gmap string string) (contractAddress abi : string) : gmap string string :=
  <[contractAddress := abi]> store.

(** ** Logs *)

Definition LogToDto (l : Log) : api_Log :=
  {| al_Address := ("0x" ++ hex_EncodeToString (ContractAddress l))%string;
     al_PinTxNumber := dec_String (l_PinTxNumber l);
     al_Topics := map (fun t => ("0x" ++ hex_EncodeToString t)%string) (Topics l);
     al_Data := ("0x" ++ hex_EncodeToString (l_Data l))%string;
     al_TransactionHash := ("0x" ++ hex_EncodeToString (TransactionHash l))%string |}.
Definition LogsToDto (logs : list Log) : list api_Log := map LogToDto logs.

(** Pointers of the request are options. *)
Record GetLogsParams := {
  gl_Address : string; gl_Topics : list string; gl_Page : option Z; gl_PageSize : option Z;
  gl_PinFrom : option Z; gl_PinTo : option Z
}.
Record valid_logs := {
  vl_Topics : list string; vl_Page : Z; vl_PageSize : Z; vl_PinFrom : Z; vl_PinTo : Z
}.

Fixpoint require_topics (l : list string) : rest unit :=
  match l with
  | [] => inl tt
  | t :: rest =>
      let? _ := (if negb (bool_decide (t = "null"%string))
                 then requireHexWithPrefixOfSize t 32 else inl t) in
      require_topics rest
  end.

(** [validate] of the parameters of [GetLogs]; [lastPinTx] is the height. *)
Definition GetLogs_validate (lastPinTx : Z) (p : GetLogsParams) : rest valid_logs :=
  let? _ := requireHexWithPrefixOfSize (gl_Address p) 20 in
  let? _ := require_topics (gl_Topics p) in
  let page := default 0 (gl_Page p) in
  if page <? 0 then throw EInput
  else
    let size := default 15 (gl_PageSize p) in
    if size <=? 0 then throw EInput
    else
      let from := default 0 (gl_PinFrom p) in
      let from := if from <? 0 then 0 else from in
      let from := if lastPinTx <? from then lastPinTx else from in
      let to := default lastPinTx (gl_PinTo p) in
      let to := if to <? 0 then lastPinTx else to in
      let to := if lastPinTx <? to then lastPinTx else to in
      if to <? from then throw EInput
      else inl {| vl_Topics := gl_Topics p; vl_Page := page; vl_PageSize := size;
                  vl_PinFrom := from; vl_PinTo := to |}.

(** ** State *)

(** The node, the ABIs and the times of the faucet's payments. *)
Section RestState.
Context `{!CollSet uuid}.

Record RestState := {
  rs_peer : Peer; abi_store : gmap string string; received : gmap string Z
}.

Definition with_rs_peer (s : RestState) (p : Peer) : RestState :=
  {| rs_peer := p; abi_store := abi_store s; received := received s |}.
End RestState.

Record FaucetConfig := {
  FaucetPrivatekey : string; FaucetPublickey : string; FaucetWallet : string
}.

Section Rest.
Context `{CryptoLib} `{ProtoLib} `{TimestampLib} `{EthLib} `{UuidLib} `{ProtoPinLib}.
Context `{MapRange} `{!CollSet uuid}.
Variable cfg : ServiceConfig.
Variable faucet : FaucetConfig.
Variable undef : string -> Z.
Variable EstimateGas : Storage -> EstimateGasRequest -> CallResponse + string.
Variable RunCode : Storage -> ReadContractRequest -> (string * string) + string.
(** [Format(time.RFC3339)] of a time in milliseconds, in the local time zone. *)
Variable format_time : Z -> string.
(** Does the text of an error of the services contain "not found"? *)
Variable service_not_found : SendError -> bool.
Variable vm_not_found : VmError -> bool.

Definition rs_store (s : RestState) : Storage := w_store (world (p_dag (rs_peer s))).
Definition rs_pins (s : RestState) : NodeTxPin := w_pins (world (p_dag (rs_peer s))).

(** ** Mapping *)

Definition AccountToDto (p : Peer) (account : LnAccount) : outcome api_Account :=
  let w := world (p_dag p) in
  let! sc := IsSCAccount (w_store w) (ln_Id account) in
  let! balanceString :=
    if negb sc then
      let! byteAddress := AddressToBytes (ln_Id account) in
      let! b := NodeTxPin_GetBalance (w_pins w) (walletCache w) byteAddress in
      Return (if snd b then dec_String (fst b) else "0"%string)
    else Return (dec_String (ln_Balance account)) in
  Return {| a_Balance := balanceString; a_Created := ln_Created account;
            a_Id := if HasPrefix (ln_Id account) "0x" then ln_Id account
                    else ("0x" ++ ln_Id account)%string;
            a_Nonce := big_Int64 (ln_Nonce account); a_PublicKey := ln_PublicKey account |}.

Definition chain_name (t : Z) : outcome string :=
  if t =? MAINNET then Return "MAINNET"%string
  else if t =? PUBLIC_TESTNET then Return "TESTNET"%string
  else if t =? PRIVATE_TESTNET then Return "TESTNET0"%string
  else Panic.

Definition TxToDto (now : Z) (transaction : UnifiedTx) : outcome UnifiedTransaction :=
  let! t := GetRawTx transaction in
  let! ct := GetChainType t in
  let! chainType := chain_name ct in
  let c := confirmed transaction in
  let! recepient := match GetRecipient t with
                    | [] => Return ""%string
                    | r => BytesToAddress r
                    end in
  let! sender := GetSender t in
  let! signature := GetSignature t in
  let! txHash := GetHash t in
  Return {| ut_Amount := dec_String (GetAmount t); ut_ChainId := chainType;
            ut_Data := hex_EncodeToString (default [] (GetData t));
            ut_Fee := dec_String (match c with
                                  | Some c => to_int64 (UsedFuel c) * GetFuelPrice t
                                  | None => GetFuelLimit t * GetFuelPrice t
                                  end);
            ut_FuelLimit := dec_String (GetFuelLimit t); ut_FuelPrice := dec_String (GetFuelPrice t);
            ut_FuelUsed := match c with
                           | Some c => dec_String (to_int64 (UsedFuel c)) | None => "-1"%string end;
            ut_Nonce := to_int64 (GetNonce t); ut_Recipient := recepient;
            ut_Sender := Hex_String (Some sender); ut_Signature := Hex_String (Some signature);
            ut_Status := match c with
                         | Some c => match c_Status c with
                                     | Successful => SUCCESSFULLYEXECUTED | Failed => FAILED end
                         | None => NOTEXECUTED
                         end;
            ut_StatusMessage := match c with
                                | Some c => StatusMessage c
                                | None => "Not yet executed & confirmed"%string end;
            ut_Timestamp := format_time (to_int64 (GetTimestamp now t));
            ut_TxHash := ("0x" ++ hex_EncodeToString txHash)%string;
            ut_Type := GetTransactionType t; ut_Version := 1;
            ut_PinTxNumber := match c with Some c => PinTxNumber c | None => -1 end |}.

Fixpoint map_outcome {A B} (f : A -> outcome B) (l : list A) : outcome (list B) :=
  match l with
  | [] => Return []
  | x :: rest => let! y := f x in let! r := map_outcome f rest in Return (y :: r)
  end.

(** ** Queries *)

Definition rest_GetAccounts (s : RestState) (sortOrder : option string) (page pageSize : option Z) : rest reply :=
  let? sort := deref_ptr sortOrder in
  let? size := deref_ptr pageSize in
  let? number := deref_ptr page in
  let? accounts := lift (GetAccounts undef (rs_peer s) sort {| Number := number; Size := size |}) in
  let? l := lift (map_outcome (AccountToDto (rs_peer s)) accounts) in
  inl (OK (BAccounts l)).

(** An unknown account is shown empty, created now. *)
Definition rest_GetAccountsAccountId (s : RestState) (now : Z) (accountId : string) : rest reply :=
  let? _ := requireHexWithPrefixOfSize accountId 20 in
  let? found := lift (GetAccountById undef (rs_peer s) accountId) in
  let account := default {| ln_Id := accountId; ln_Balance := 0; ln_Created := now; ln_Nonce := 0;
                            ln_PublicKey := "" |} found in
  let? a := late (lift (AccountToDto (rs_peer s) account)) in
  inl (OK (BAccount a)).

Definition sender_param (sender : option string) : rest string :=
  match sender with
  | Some x => if bool_decide (x = ""%string) then inl ""%string else requireHex x
  | None => inl ""%string
  end.

Definition read_contract (s : RestState) (connected : bool) (contractId methodId inParams sender : string)
  : rest reply :=
  let? r := lift (CallReadContract cfg RunCode (rs_peer s) connected contractId methodId inParams sender) in
  match r with
  | inr e => throw (EVm e)
  | inl res => inl (OK (BCallResult res))
  end.

Definition GetContractsContractId (s : RestState) (connected : bool) (contractId : string)
    (params sender : option string) : rest reply :=
  let? contractId := requireHexWithPrefixOfSize contractId 20 in
  let? params := deref_ptr params in
  let? allParams := requireHexWithPrefixOfMinSize params 4 in
  let? methodId := lift (go_slice allParams 0 8) in
  let? inParams := lift (go_slice allParams 8 (Z.of_nat (String.length allParams))) in
  let? sender := sender_param sender in
  read_contract s connected contractId methodId inParams sender.

(** One parameter of 66 characters or more is taken as it is. *)
Definition merge_params (params : list string) : rest string :=
  match params with
  | [x] => if 66 <=? Z.of_nat (String.length x) then requireHex x else pad_params [x] ""
  | _ => pad_params params ""
  end.

Definition GetContractsContractIdMethodsMethodId (s : RestState) (connected : bool)
    (contractId methodId : string) (params : option (list string)) (sender : option string) : rest reply :=
  let? contractId := requireHexWithPrefixOfSize contractId 20 in
  let? methodId := requireHexWithPrefixOfSize methodId 4 in
  let? params := deref_ptr params in
  let? allParamsMerged := merge_params params in
  let? sender := sender_param sender in
  read_contract s connected contractId methodId allParamsMerged sender.

Definition GetContractsContractIdAbi (s : RestState) (contractId : string) : rest reply :=
  let? contractId := requireHexWithPrefixOfSize contractId 20 in
  let? abi := GetABI (abi_store s) contractId in
  inl (OK (BABI abi)).

(** A body that is no ABI panics with a string; a missing content is a nil
    pointer. *)
Definition PutContractsContractIdAbi (s : RestState) (contractId : string)
    (body : option (option string)) : RestState * rest reply :=
  match requireHexWithPrefixOfSize contractId 20 with
  | inr e => (s, inr e)
  | inl contractId =>
      match body with
      | None => (s, inr TValue)
      | Some None => (s, throw ERuntime)
      | Some (Some content) =>
          ({| rs_peer := rs_peer s; abi_store := PutABI (abi_store s) contractId content;
              received := received s |}, inl (OK BABISaved))
      end
  end.

Definition GetNetworkInfo : rest reply :=
  if c_Network cfg =? 0 then inl (OK (BNetwork "MAINNET"))
  else if c_Network cfg =? 1 then inl (OK (BNetwork "TESTNET1"))
  else if c_Network cfg =? 2 then inl (OK (BNetwork "TESTNET2"))
  else throw EInput.

Definition GetContractsContractIdCode (s : RestState) (contractId : string) : rest reply :=
  let? contractId := requireHexWithPrefixOfSize contractId 20 in
  let? codeHash := lift (GetCodeHash (rs_store s) contractId) in
  let? codeContract := lift (GetContractCode (rs_store s) contractId) in
  inl (OK (BCode codeHash codeContract)).

Definition GetPinNumber (s : RestState) : rest reply :=
  let currentPin := CurrentHeight (rs_pins s) in
  if currentPin <? 0 then throw EInput else inl (OK (BPin currentPin)).

Definition GetPubsub (haveJoined : bool) : rest reply :=
  inl (if haveJoined then OK BReady else {| rp_Status := 404; rp_Body := BNone |}).

(** The two words of a filter; other words leave it open. *)
Definition two_words (yes no : string) (x : option string) : option bool :=
  match x with
  | None => None
  | Some x => if bool_decide (ToUpper x = yes) then Some true
              else if bool_decide (ToUpper x = no) then Some false else None
  end.

Record TransactionsParams := {
  tp_TxType : option Z; tp_ConfirmationStatus : option string; tp_Direction : option string;
  tp_Accounts : option (list string); tp_SortOrder : option string; tp_Page : option Z;
  tp_PageSize : option Z
}.

Definition GetFilteredTransactions (order : bool -> list UnifiedTx -> list UnifiedTx) (now : Z)
    (s : RestState) (params : TransactionsParams) : rest reply :=
  let txType := default (-1) (tp_TxType params) in
  if (CALL_CONTRACT <? txType) || (txType <? -1) then throw EInput
  else
    let confirmed := two_words "CONFIRMED" "UNCONFIRMED" (tp_ConfirmationStatus params) in
    let directionIsSent := two_words "SENT" "RECEIVED" (tp_Direction params) in
    let accounts := default [] (tp_Accounts params) in
    let? sort := deref_ptr (tp_SortOrder params) in
    let? number := deref_ptr (tp_Page params) in
    let? size := deref_ptr (tp_PageSize params) in
    let? found := lift (GetTransactions order (rs_peer s) accounts txType sort
                          {| Number := number; Size := size |} confirmed directionIsSent) in
    let? l := lift (map_outcome (TxToDto now) found) in
    inl (OK (BTransactions l)).

(** The hash is looked up before it is compared with the empty text. *)
Definition rest_GetTransactionByHash (now : Z) (s : RestState) (txHash : string) : rest reply :=
  let? r := lift (GetTransactionByHash (rs_peer s) txHash) in
  if bool_decide (txHash = ""%string) then throw EInput
  else match r with
       | (Some c, true) =>
           let? t := lift (TxToDto now {| confirmed := Some c; unconfirmed := None |}) in
           inl (OK (BTransaction t))
       | (None, true) => throw ERuntime
       | (_, false) => inl {| rp_Status := 404; rp_Body := BError |}
       end.

Definition GetLogs (s : RestState) (params : GetLogsParams) : rest reply :=
  let? v := GetLogs_validate (CurrentHeight (rs_pins s)) params in
  let? logs := lift (SearchLogs (rs_store s)
      {| r_Address := gl_Address params; r_Topics := vl_Topics v; r_Limit := vl_PageSize v;
         r_Offset := to_int64 (vl_Page v * vl_PageSize v);
         r_PinFrom := vl_PinFrom v; r_PinTo := vl_PinTo v |}) in
  inl (OK (BLogs (LogsToDto logs))).

(** ** Submission and estimation *)

Definition receipt (r : ExecutionResult) : TxReceipt :=
  {| tr_TxHash := ex_Hash r;
     ExecutionStatus := if Successful_ r then "SUCCESSFUL"%string else Output r;
     FuelUsed_ := GasUsed r |}.

(** [body] is the encoded transaction of the request. *)
Definition rest_SendRawTransaction (s : RestState) (body : option string) : RestState * rest reply :=
  match body with
  | None => (s, throw EInput)
  | Some encodedTx =>
      if bool_decide (encodedTx = ""%string) then (s, throw EInput)
      else match SendRawTransaction cfg undef (rs_peer s) (TrimPrefix encodedTx "0x") with
           | Panic => (s, lift_text (send_panics_text (TrimPrefix encodedTx "0x")) Panic)
           | Return (p, r, Some e) => (with_rs_peer s p, throw (EService e))
           | Return (p, r, None) => (with_rs_peer s p, inl (OK (BReceipt (receipt r))))
           end
  end.

Record CallMessageDto := {
  cd_Amount : option string; cd_Data : option string; cd_Recipient : option string;
  cd_Sender : option string
}.

Definition isValid (m : CallMessageDto) : bool :=
  match cd_Data m, cd_Amount m with
  | Some d, Some a => negb (String.length d =? 0)%nat && negb (bool_decide (a = ""%string))
  | _, _ => false
  end.

Definition optional_hex (x : option string) : rest (option bytes) :=
  match x with None => inl None | Some x => let? b := parseHex x in inl (Some b) end.

(** The body is read as a call message and, failing that, as a transaction. *)
Definition parseEstimationRequest (call : option CallMessageDto) (raw : option string)
  : rest FuelEstimationRequest :=
  let as_raw :=
    match raw with
    | None => throw EInput
    | Some encodedTx =>
        if bool_decide (encodedTx = ""%string) then throw EInput
        else let? b := parseHex encodedTx in inl {| RawTx := Some b; r_Message := None |}
    end in
  match call with
  | None => as_raw
  | Some m =>
      if negb (isValid m) then as_raw
      else
        let? from := optional_hex (cd_Sender m) in
        let? to := optional_hex (cd_Recipient m) in
        match dec_Parse (default ""%string (cd_Amount m)) with
        | None => throw EInput
        | Some amount =>
            let? data := parseHex (default ""%string (cd_Data m)) in
            inl {| RawTx := None;
                   r_Message := Some {| m_From := from; m_To := to; m_Data := Some data;
                                        m_Amount := Some (Bytes amount); m_Coinbase := None;
                                        m_FixingTx := None |} |}
        end
  end.

Definition rest_EstimateTxFuel (s : RestState) (connected : bool) (now : Z)
    (call : option CallMessageDto) (raw : option string) : rest reply :=
  let? q := parseEstimationRequest call raw in
  let? r := lift (EstimateTxFuel cfg EstimateGas (rs_peer s) connected now q) in
  match r with
  | inr e => throw (EVm e)
  | inl r => inl (OK (BReceipt (receipt r)))
  end.

(** ** Faucet *)

(** [strings.Split(s, sep)]: the part before the first separator, and whether
    there is one. *)
Definition split_first (sep s : string) : string * bool :=
  match String.index 0 sep s with
  | Some i => (String.substring 0 i s, true)
  | None => (s, false)
  end.

(** [time.Since(t).Hours() > 24], in nanoseconds. *)
Definition day : Z := 24 * 60 * 60 * 1000000000.
Definition eligible (recv : gmap string Z) (now : Z) (key : string) : bool :=
  match recv !! key with None => true | Some t => day <? now - t end.

(** [forwarded] is the header X-Forwarded-For, empty when it is missing. *)
Definition findKey (recv : gmap string Z) (now : Z) (remoteAddr forwarded : string)
  : rest (string * bool) :=
  let '(ip, two) := split_first ":" remoteAddr in
  if negb two then throw EInput
  else if eligible recv now ip then inl (ip, true)
  else if bool_decide (forwarded = ""%string) then inl (ip, false)
  else
    let key := fst (split_first ", " forwarded) in
    inl (key, eligible recv now key).

Definition faucet_amount : Z := 1000000000000000000000.

Record FaucetRequest := {
  fq_addresses : list string; fq_RemoteAddr : string; fq_Forwarded : string
}.

(** Whether a panic of [faucet_tx] has a text: the addresses are decoded, then the
    transaction is signed, which panics with a text on a key of a wrong length. *)
Definition faucet_panics_text (address : string) : bool :=
  match AddressToBytes (FaucetWallet faucet), AddressToBytes address with Return _, Return _ => true | _, _ => false end.

(** The transaction, with the nonce and the time of the payment. *)
Definition faucet_tx (address : string) (nonce now : Z) : outcome Txv1 :=
  Txv1_GeneratePayment (NewTxv1 0)
    {| senderPrivateKey := default [] (ParsePrivateKey (FaucetPrivatekey faucet));
       senderPublicKey := default [] (ParsePublicKey (FaucetPublickey faucet));
       senderAddress := FaucetWallet faucet; receiverAddress := address; wt_amount := faucet_amount |}
    (to_uint8 (c_Network cfg)) nonce now.

Definition send_faucet_tx (p : Peer) (t : Txv1) (now : Z) : rest Peer :=
  match proto_Marshal_Txv1 (Txv1_MarshalBinary t) with
  | None => throw ERuntime
  | Some b =>
      let? r := lift_text (send_panics_text (hex_EncodeToString b)) (SendRawTransaction cfg undef p (hex_EncodeToString b)) in
      match r with (_, _, Some e) => throw (EService e) | (p, _, None) => inl p end
  end.

(** [now] is when the request is checked, [later] when the payment is recorded. *)
Definition Faucet (s : RestState) (now later nonce : Z) (q : FaucetRequest) : RestState * rest reply :=
  if bool_decide (FaucetPrivatekey faucet = ""%string) || bool_decide (FaucetPublickey faucet = ""%string)
     || bool_decide (FaucetWallet faucet = ""%string)
  then (s, throw EFaucet)
  else match fq_addresses q with
  | [] => (s, inl {| rp_Status := 400; rp_Body := BError |})
  | address :: _ =>
      match (let? address := requireHexWithPrefixOfSize address 20 in
             let? k := findKey (received s) now (fq_RemoteAddr q) (fq_Forwarded q) in
             inl (address, k)) with
      | inr e => (s, inr e)
      | inl (_, (_, false)) => (s, inl {| rp_Status := 400; rp_Body := BError |})
      | inl (address, (key, true)) =>
          match (let? acc := lift (GetAccountById undef (rs_peer s) (FaucetWallet faucet)) in
                 match acc with
                 | None => throw EFaucet
                 | Some a =>
                     if ln_Balance a <? faucet_amount then throw EFaucet
                     else
                       let? t := lift_text (faucet_panics_text address) (faucet_tx address nonce now) in
                       let? p := send_faucet_tx (rs_peer s) t now in
                       inl (t, p)
                 end) with
          | inr e => (s, inr e)
          | inl (t, p) =>
              let s := with_rs_peer s p in
              match late (lift (TxToDto now (NewUnifiedUnconfirmedTx (ATxv1 t)))) with
              | inr e => (s, inr e)
              | inl d => ({| rs_peer := rs_peer s; abi_store := abi_store s;
                             received := <[key := later]> (received s) |},
                          inl (OK (BTransaction d)))
              end
          end
      end
  end.

(** ** Requests *)

(** [QPeers] has the answer of the discovery, [QPubsub] the manager's flag. *)
Inductive RestRequest :=
| QAccounts (sortOrder : option string) (page pageSize : option Z)
| QAccount (accountId : string)
| QContract (contractId : string) (params sender : option string)
| QMethod (contractId methodId : string) (params : option (list string)) (sender : option string)
| QGetAbi (contractId : string)
| QPutAbi (contractId : string) (body : option (option string))
| QNetwork
| QCode (contractId : string)
| QPin
| QPeers (found : list string + string)
| QSystem
| QPubsub (haveJoined : bool)
| QTransactions (params : TransactionsParams)
| QSend (body : option string)
| QEstimate (call : option CallMessageDto) (raw : option string)
| QTransaction (txHash : string)
| QLogs (params : GetLogsParams)
| QFaucet (q : FaucetRequest).

(** What the clock, the random source, the sorting and the VM's connection give
    during a request. *)
Record rest_env := {
  re_now : Z; re_later : Z; re_nonce : Z; re_connected : bool;
  re_order : bool -> list UnifiedTx -> list UnifiedTx
}.

Definition GetPeers (found : list string + string) : reply :=
  {| rp_Status := 202;
     rp_Body := match found with inl l => BPeers false l | inr e => BPeers true [e] end |}.

Definition handle (e : rest_env) (s : RestState) (q : RestRequest) : RestState * rest reply :=
  match q with
  | QAccounts so pg sz => (s, rest_GetAccounts s so pg sz)
  | QAccount id => (s, rest_GetAccountsAccountId s (re_now e) id)
  | QContract id ps sender => (s, GetContractsContractId s (re_connected e) id ps sender)
  | QMethod id m ps sender => (s, GetContractsContractIdMethodsMethodId s (re_connected e) id m ps sender)
  | QGetAbi id => (s, GetContractsContractIdAbi s id)
  | QPutAbi id body => PutContractsContractIdAbi s id body
  | QNetwork => (s, GetNetworkInfo)
  | QCode id => (s, GetContractsContractIdCode s id)
  | QPin => (s, GetPinNumber s)
  | QPeers found => (s, inl (GetPeers found))
  | QSystem => (s, inl (OK BNone))
  | QPubsub j => (s, GetPubsub j)
  | QTransactions ps => (s, GetFilteredTransactions (re_order e) (re_now e) s ps)
  | QSend body => rest_SendRawTransaction s body
  | QEstimate call raw => (s, rest_EstimateTxFuel s (re_connected e) (re_now e) call raw)
  | QTransaction h => (s, rest_GetTransactionByHash (re_now e) s h)
  | QLogs ps => (s, GetLogs s ps)
  | QFaucet q => Faucet s (re_now e) (re_later e) (re_nonce e) q
  end.

(** Does the text contain "not found"? *)
Definition says_not_found (e : rest_err) : bool :=
  match e with
  | EABINotFound => true
  | EService e => service_not_found e
  | EVm e => vm_not_found e
  | ERuntime | EInput | EFaucet => false
  end.

(** [ErrorRecovery.ServeHTTP]: [None] when the type assertion on what was
    recovered panics, so that the server drops the connection. *)
Definition ServeHTTP (e : rest_env) (s : RestState) (q : RestRequest) : RestState * option reply :=
  match handle e s q with
  | (s, inl r) => (s, Some r)
  | (s, inr (TError err)) =>
      (s, Some {| rp_Status := if says_not_found err then 404 else 400; rp_Body := BError |})
  | (s, inr (TLate _)) => (s, Some {| rp_Status := 200; rp_Body := BError |})
  | (s, inr TValue) => (s, None)
  end.
End Rest.
