(* ===== verification/RestProps.v ===== *)
(** The REST front end: a request is answered unless a handler panics with a text
    ([rest_always_answers]), the faucet pays a client once a day
    ([faucet_once_a_day]), the pages of logs are complete ([GetLogs_pages]) and a stored
    ABI is returned ([stored_abi_is_returned]). *)
From S2P Require Import Prelude GoLib Bytes StateMachine Tx TxRecords Storage StorageProps Pool WalletCache Node Pin.
From S2P Require Import PinProps Confirmation Weights Dag DagProps DagSteps Search Diffusion DiffusionProps Services ServicesProps Rest.

(** ** Errors *)

(** A result with the property [P], or a panic with an error. *)
Definition fine {A} (P : A -> Prop) (m : rest A) : Prop :=
  match m with inl a => P a | inr e => e <> TValue end.

Abbreviation errs := (fine (fun _ => True)).

Lemma fine_throw {A} (P : A -> Prop) e : fine P (throw e).
Proof. done. Qed.

Lemma errs_inl {A} (a : A) : errs (inl a).
Proof. done. Qed.

Lemma errs_lift {A} (o : outcome A) : errs (lift o).
Proof. by destruct o. Qed.

Lemma errs_deref {A} (o : option A) : errs (deref_ptr o).
Proof. by destruct o. Qed.

Lemma errs_late {A} (m : rest A) : errs m -> errs (late m).
Proof. by destruct m as [a|[]]. Qed.

Lemma fine_bind {A B} (P : B -> Prop) (m : rest A) (k : A -> rest B) :
  errs m -> (forall a, fine P (k a)) -> fine P (rest_bind m k).
Proof. intros Hm Hk. destruct m as [a|e]; [apply Hk|exact Hm]. Qed.

(** Every reply has one of these statuses. *)
Definition status_ok (r : reply) : Prop := rp_Status r ∈ [200; 202; 400; 404].

Lemma status_OK b : status_ok (OK b).
Proof. left. Qed.

Lemma fine_OK b : fine status_ok (inl (OK b)).
Proof. apply status_OK. Qed.

Lemma fine_not_found b : fine status_ok (inl {| rp_Status := 404; rp_Body := b |}).
Proof. unfold fine, status_ok. cbn. set_solver. Qed.

Lemma fine_bad_request b : fine status_ok (inl {| rp_Status := 400; rp_Body := b |}).
Proof. unfold fine, status_ok. cbn. set_solver. Qed.

Create HintDb rest.
#[local] Hint Resolve errs_inl fine_throw errs_lift errs_deref errs_late fine_OK fine_not_found fine_bad_request : rest.

(** The common shape of a handler: binds, tests and cases. *)
Ltac errs :=
  repeat match goal with
  | |- fine _ (rest_bind _ _) => apply fine_bind; [|intros ?]
  | |- fine _ (match ?x with _ => _ end) => destruct x
  | |- fine _ _ => solve [eauto with rest]
  end.

Lemma errs_requireHex s : errs (requireHex s).
Proof. unfold requireHex. errs. Qed.
#[local] Hint Resolve errs_requireHex : rest.

Lemma errs_sized s n : errs (requireHexWithPrefixOfSize s n).
Proof. unfold requireHexWithPrefixOfSize. errs. Qed.
Lemma errs_min_sized s n : errs (requireHexWithPrefixOfMinSize s n).
Proof. unfold requireHexWithPrefixOfMinSize. errs. Qed.
Lemma errs_parseHex s : errs (parseHex s).
Proof. unfold parseHex. errs. Qed.
Lemma errs_pad32 s : errs (pad32 s).
Proof. unfold pad32. errs. Qed.
#[local] Hint Resolve errs_sized errs_min_sized errs_parseHex errs_pad32 : rest.

Lemma errs_pad_params l : forall acc, errs (pad_params l acc).
Proof. induction l as [|x l IH]; intros acc; cbn [pad_params]; errs. Qed.
Lemma errs_topics l : errs (require_topics l).
Proof. induction l as [|x l IH]; cbn [require_topics]; errs. Qed.
Lemma errs_optional_hex x : errs (optional_hex x).
Proof. unfold optional_hex. errs. Qed.
Lemma errs_sender_param x : errs (sender_param x).
Proof. unfold sender_param. errs. Qed.
#[local] Hint Resolve errs_pad_params errs_topics errs_optional_hex errs_sender_param : rest.

Lemma errs_validate n p : errs (GetLogs_validate n p).
Proof. unfold GetLogs_validate. errs. Qed.
Lemma errs_merge_params l : errs (merge_params l).
Proof. unfold merge_params. errs. Qed.
Lemma errs_parseEstimationRequest c r : errs (parseEstimationRequest c r).
Proof. unfold parseEstimationRequest. errs. Qed.
Lemma errs_findKey recv now a f : errs (findKey recv now a f).
Proof. unfold findKey. errs. Qed.
#[local] Hint Resolve errs_validate errs_merge_params errs_parseEstimationRequest errs_findKey : rest.

Section Answers.
Context `{CryptoLib} `{ProtoLib} `{TimestampLib} `{EthLib} `{UuidLib} `{ProtoPinLib}.
Context `{MapRange} `{!CollSet uuid}.
Variable cfg : ServiceConfig.
Variable faucet : FaucetConfig.
Variable undef : string -> Z.
Variable EstimateGas : Storage -> EstimateGasRequest -> CallResponse + string.
Variable RunCode : Storage -> ReadContractRequest -> (string * string) + string.
Variable format_time : Z -> string.
Variable service_not_found : SendError -> bool.
Variable vm_not_found : VmError -> bool.

Abbreviation rest_serve := (ServeHTTP cfg faucet undef EstimateGas RunCode format_time service_not_found vm_not_found).
Abbreviation handle_ := (handle cfg faucet undef EstimateGas RunCode format_time).

Lemma fine_read_contract s c a b d e : fine status_ok (read_contract cfg RunCode s c a b d e).
Proof using Type. unfold read_contract. errs. Qed.
#[local] Hint Resolve fine_read_contract : rest.

(** The text of a wrong ABI, with a well-formed address of the contract. *)
Definition bad_abi (q : RestRequest) : Prop :=
  exists id, q = QPutAbi id None /\ exists s, requireHexWithPrefixOfSize id 20 = inl s.

(** A transaction whose public key makes the signature library panic. *)
Definition bad_key (q : RestRequest) : Prop :=
  exists x, q = QSend (Some x) /\ x <> ""%string /\ send_panics_text (TrimPrefix x "0x") = true.

(** The same of the faucet: its private key is not of 32 bytes, or a transaction
    it makes for an address has such a public key. *)
Definition bad_faucet (e : rest_env) (q : RestRequest) : Prop :=
  exists f, q = QFaucet f /\
  (length (default [] (ParsePrivateKey (FaucetPrivatekey faucet))) <> 32%nat
   \/ exists address t b, faucet_tx cfg faucet address (re_nonce e) (re_now e) = Return t
      /\ proto_Marshal_Txv1 (Txv1_MarshalBinary t) = Some b /\ send_panics_text (hex_EncodeToString b) = true).

(** With a key of 32 bytes making the transaction panics on an address only. *)
Lemma errs_faucet_tx address nonce now :
  length (default [] (ParsePrivateKey (FaucetPrivatekey faucet))) = 32%nat ->
  errs (lift_text (faucet_panics_text faucet address) (faucet_tx cfg faucet address nonce now)).
Proof using Type.
  intros Hk. unfold faucet_panics_text, faucet_tx, Txv1_GeneratePayment. cbn [senderAddress receiverAddress].
  destruct (AddressToBytes (FaucetWallet faucet)) as [a|]; cbn [outcome_bind]; [|done].
  destruct (AddressToBytes address) as [r|]; cbn [outcome_bind]; [|done].
  unfold Txv1_Sign, Txv1_generateSignature. destruct (Txv1_Hash _); cbn [outcome_bind]; [|done].
  unfold DSA_Sign. cbn [senderPrivateKey]. by rewrite Hk.
Qed.

(** A request of the faucet: a reply has a status of the list, and a text is
    thrown only with bad keys. *)
Lemma Faucet_answers e s q :
  match snd (Faucet cfg faucet undef format_time s (re_now e) (re_later e) (re_nonce e) q) with
  | inl r => status_ok r
  | inr TValue => bad_faucet e (QFaucet q)
  | inr _ => True
  end.
Proof using Type.
  unfold Faucet. destruct (_ || _); [done|]. destruct (fq_addresses q) as [|a l]; [apply (fine_bad_request BError)|].
  match goal with |- context [match ?m with inl _ => _ | inr _ => _ end] =>
    assert (errs m) as Hm by errs; destruct m as [[a' [k []]]|err] end;
    [|apply (fine_bad_request BError)|cbn [snd]; by destruct err].
  destruct (GetAccountById _ _ _) as [[acc|]|]; cbn [lift rest_bind]; [|done|done].
  destruct (_ <? _); [done|].
  destruct (decide (length (default [] (ParsePrivateKey (FaucetPrivatekey faucet))) = 32%nat)) as [Hk|Hk].
  2:{ assert (bad_faucet e (QFaucet q)) as Hbad by (exists q; auto). repeat case_match; simplify_eq/=; try done; apply status_OK. }
  pose proof (errs_faucet_tx a' (re_nonce e) (re_now e) Hk) as Ht.
  destruct (faucet_tx cfg faucet a' (re_nonce e) (re_now e)) as [t|] eqn:Et; cbn [lift_text rest_bind snd] in *.
  2:{ by destruct (faucet_panics_text _ _). }
  unfold send_faucet_tx. destruct (proto_Marshal_Txv1 _) as [b|] eqn:Eb; cbn [rest_bind throw]; [|done].
  destruct (SendRawTransaction _ _ _ _) as [[[p r] [err|]]|]; cbn [lift_text rest_bind throw]; [done| |].
  - destruct (TxToDto _ _ _); [apply status_OK|done].
  - destruct (send_panics_text _) eqn:Es; [|done]. exists q. split; [done|]. right. by exists a', t, b.
Qed.

(** A text is thrown for these requests. *)
Lemma bad_handle e s q : bad_abi q \/ bad_key q -> snd (handle_ e s q) = inr TValue.
Proof using Type.
  intros [(id & -> & x & Hx)|(x & -> & Hne & Hp)]; cbn [handle].
  - unfold PutContractsContractIdAbi. by rewrite Hx.
  - unfold rest_SendRawTransaction. rewrite bool_decide_false by done. rewrite Hp.
    assert (SendRawTransaction cfg undef (rs_peer s) (TrimPrefix x "0x") = Panic) as ->; [|done].
    by apply send_panics_text_panics.
Qed.

Lemma handle_answers e s q :
  match snd (handle_ e s q) with
  | inl r => status_ok r
  | inr TValue => bad_abi q \/ bad_key q \/ bad_faucet e q
  | inr _ => True
  end.
Proof using Type.
  assert (forall r : rest reply, fine status_ok r ->
    match r with inl r => status_ok r | inr TValue => bad_abi q \/ bad_key q \/ bad_faucet e q | inr _ => True end) as Hfine
    by by intros [r|[]].
  destruct q; cbn [handle snd].
  - apply Hfine. unfold rest_GetAccounts. errs.
  - apply Hfine. unfold rest_GetAccountsAccountId. errs.
  - apply Hfine. unfold GetContractsContractId. errs.
  - apply Hfine. unfold GetContractsContractIdMethodsMethodId. errs.
  - apply Hfine. unfold GetContractsContractIdAbi, GetABI. errs.
  - unfold PutContractsContractIdAbi. pose proof (errs_sized contractId 20) as Hs.
    destruct (requireHexWithPrefixOfSize contractId 20) as [x|err] eqn:E; [|by apply Hfine].
    destruct body as [[c|]|]; [apply status_OK|done|]. left. exists contractId. eauto.
  - apply Hfine. unfold GetNetworkInfo. errs.
  - apply Hfine. unfold GetContractsContractIdCode. errs.
  - apply Hfine. unfold GetPinNumber. errs.
  - unfold GetPeers, status_ok. cbn. set_solver.
  - apply status_OK.
  - apply Hfine. unfold GetPubsub. destruct haveJoined; [apply fine_OK|apply fine_not_found].
  - apply Hfine. unfold GetFilteredTransactions. errs.
  - unfold rest_SendRawTransaction. destruct body as [x|]; [|done]. case_bool_decide; [done|].
    destruct (SendRawTransaction _ _ _ _) as [[[p r] [err|]]|]; [done|apply status_OK|].
    cbn [snd lift_text]. destruct (send_panics_text _) eqn:Es; [|done]. right. left. by exists x.
  - apply Hfine. unfold rest_EstimateTxFuel. errs.
  - apply Hfine. unfold rest_GetTransactionByHash. errs.
  - apply Hfine. unfold GetLogs. errs.
  - pose proof (Faucet_answers e s q) as Hf. destruct (snd (Faucet _ _ _ _ _ _ _ _ _)) as [r|[]]; auto.
Qed.

End Answers.

(** ** ABIs *)

Section Abi.
Context `{!CollSet uuid}.

(** A stored ABI is returned, whichever ABIs are stored for other contracts in
    between. *)
Theorem stored_abi_is_returned (s : RestState) id x content rest_ :
  requireHexWithPrefixOfSize id 20 = inl x ->
  Forall (fun '(id', _) => requireHexWithPrefixOfSize id' 20 <> inl x) rest_ ->
  GetContractsContractIdAbi
    (fold_left (fun s '(id', c) => fst (PutContractsContractIdAbi s id' (Some (Some c)))) rest_
       (fst (PutContractsContractIdAbi s id (Some (Some content))))) id
  = inl (OK (BABI content)).
Proof.
  intros Hx Hr. unfold GetContractsContractIdAbi. rewrite Hx. cbn [rest_bind]. unfold GetABI.
  set (s1 := fst (PutContractsContractIdAbi s id _)).
  assert (abi_store s1 !! x = Some content) as Hs1.
  { unfold s1, PutContractsContractIdAbi. rewrite Hx. cbn [fst abi_store]. unfold PutABI. by rewrite lookup_insert_eq. }
  clearbody s1. revert s1 Hs1. induction rest_ as [|[id' c] l IH]; intros s1 Hs1; cbn [fold_left].
  - by rewrite Hs1.
  - apply Forall_cons in Hr as [Hne Hl]. apply IH; [done|]. unfold PutContractsContractIdAbi.
    destruct (requireHexWithPrefixOfSize id' 20) as [y|]; cbn [fst abi_store]; [|done].
    unfold PutABI. rewrite lookup_insert_ne; [done|]. intros ->. by apply Hne.
Qed.
End Abi.

(** ** Logs *)

(** The window of pins and the page of a request that is accepted. *)
Lemma validate_window n p v :
  GetLogs_validate n p = inl v ->
  0 <= vl_Page v /\ 0 < vl_PageSize v /\ vl_PinFrom v <= vl_PinTo v <= n /\ vl_Topics v = gl_Topics p.
Proof.
  unfold GetLogs_validate.
  destruct (requireHexWithPrefixOfSize _ _); cbn [rest_bind]; [|done].
  destruct (require_topics _); cbn [rest_bind]; [|done].
  destruct (Z.ltb_spec (default 0 (gl_Page p)) 0); [done|].
  destruct (Z.leb_spec (default 15 (gl_PageSize p)) 0); [done|].
  repeat match goal with |- context [if ?a <? ?b then _ else _] => destruct (Z.ltb_spec a b) end;
    intros [= <-]; cbn [vl_Page vl_PageSize vl_PinFrom vl_PinTo vl_Topics]; split_and!; try lia; done.
Qed.

(** The same request for another page. *)
Definition on_page (p : GetLogsParams) (i : nat) : GetLogsParams :=
  {| gl_Address := gl_Address p; gl_Topics := gl_Topics p; gl_Page := Some (Z.of_nat i);
     gl_PageSize := gl_PageSize p; gl_PinFrom := gl_PinFrom p; gl_PinTo := gl_PinTo p |}.

Lemma validate_on_page n p v i :
  GetLogs_validate n p = inl v ->
  GetLogs_validate n (on_page p i)
  = inl {| vl_Topics := vl_Topics v; vl_Page := Z.of_nat i; vl_PageSize := vl_PageSize v;
           vl_PinFrom := vl_PinFrom v; vl_PinTo := vl_PinTo v |}.
Proof.
  unfold GetLogs_validate. cbv zeta. cbn [on_page gl_Address gl_Topics gl_Page gl_PageSize gl_PinFrom gl_PinTo].
  destruct (requireHexWithPrefixOfSize _ _); cbn [rest_bind]; [|done].
  destruct (require_topics _); cbn [rest_bind]; [|done].
  destruct (default 0 (gl_Page p) <? 0); [done|].
  change (default 0 (Some (Z.of_nat i))) with (Z.of_nat i). destruct (Z.ltb_spec (Z.of_nat i) 0); [lia|].
  destruct (default 15 (gl_PageSize p) <=? 0); [done|].
  match goal with |- (if ?b then _ else _) = _ -> _ => destruct b; [done|] end. by intros [= <-].
Qed.

(** Consecutive pages of a list. *)
Lemma concat_pages {A} (l : list A) size k :
  concat (map (fun i => take size (drop (i * size) l)) (seq 0 k)) = take (k * size) l.
Proof.
  induction k as [|k IH]; [done|]. rewrite seq_S, map_app, concat_app, IH. cbn [map concat].
  rewrite app_nil_r. cbn [Nat.mul Nat.add]. rewrite (Nat.add_comm size). apply take_take_drop.
Qed.

Section Logs.
Context `{!CollSet uuid}.

(** The logs of the contract that the request asks for, newest first. *)
Definition requested_logs (s : RestState) (p : GetLogsParams) (v : valid_logs) : list Log :=
  List.filter (log_matches {| r_Address := ""; r_Topics := vl_Topics v; r_Limit := 0; r_Offset := 0;
                              r_PinFrom := vl_PinFrom v; r_PinTo := vl_PinTo v |})
    (rev (default [] (logs (rs_store s) !! TrimPrefix (gl_Address p) "0x"))).

(** The pages of logs.  For a valid request whose pages do not overflow an
    int, every page is answered, and the first [k] pages together are the first
    [k] times the page size of the contract's logs that lie in the window of
    pins and match the topics, newest first: no log is skipped or repeated. *)
Theorem GetLogs_pages s p v k :
  GetLogs_validate (CurrentHeight (rs_pins s)) p = inl v -> Z.of_nat k * vl_PageSize v < 2 ^ 63 ->
  exists pages, map (fun i => GetLogs s (on_page p i)) (seq 0 k)
                = map (fun l => inl (OK (BLogs (LogsToDto l)))) pages
  /\ concat pages = take (k * Z.to_nat (vl_PageSize v)) (requested_logs s p v).
Proof.
  intros Hv Hk. pose proof (validate_window _ _ _ Hv) as (_ & Hs & _ & _).
  exists (map (fun i => take (Z.to_nat (vl_PageSize v)) (drop (i * Z.to_nat (vl_PageSize v)) (requested_logs s p v)))
            (seq 0 k)).
  split; [|apply concat_pages]. rewrite map_map. apply map_ext_in. intros i Hi%in_seq.
  unfold GetLogs. rewrite (validate_on_page _ _ _ _ Hv). cbn [rest_bind vl_Topics vl_Page vl_PageSize vl_PinFrom vl_PinTo].
  assert (to_int64 (Z.of_nat i * vl_PageSize v) = Z.of_nat i * vl_PageSize v) as ->.
  { apply swrap_small; [lia|]. nia. }
  rewrite SearchLogs_pages; [|cbn; lia|cbn; nia]. cbn [lift rest_bind r_Limit r_Offset r_Address on_page gl_Address].
  do 4 f_equal. f_equal. rewrite Z2Nat.inj_mul by lia. by rewrite Nat2Z.id.
Qed.
End Logs.

(** ** The faucet *)

Section FaucetRuns.
Context `{CryptoLib} `{ProtoLib} `{TimestampLib} `{EthLib} `{UuidLib} `{ProtoPinLib}.
Context `{MapRange} `{!CollSet uuid}.
Variable cfg : ServiceConfig.
Variable faucet : FaucetConfig.
Variable undef : string -> Z.
Variable EstimateGas : Storage -> EstimateGasRequest -> CallResponse + string.
Variable RunCode : Storage -> ReadContractRequest -> (string * string) + string.
Variable format_time : Z -> string.
Variable service_not_found : SendError -> bool.
Variable vm_not_found : VmError -> bool.

Abbreviation serve_ := (ServeHTTP cfg faucet undef EstimateGas RunCode format_time service_not_found vm_not_found).

(** The key under which a request to the faucet is paid: the payment was sent, and
    answered or, when the mapping of the transaction panics afterwards, not. *)
Definition paid_key (e : rest_env) (s : RestState) (q : RestRequest) : option string :=
  match q with
  | QFaucet f =>
      match findKey (received s) (re_now e) (fq_RemoteAddr f) (fq_Forwarded f),
            snd (Faucet cfg faucet undef format_time s (re_now e) (re_later e) (re_nonce e) f) with
      | inl (k, _), inl r => match rp_Body r with BTransaction _ => Some k | _ => None end
      | inl (k, _), inr (TLate _) => Some k
      | _, _ => None
      end
  | _ => None
  end.

(** The payments of a sequence of requests: the key, when the request was
    checked and when the payment was recorded. *)
Fixpoint payments (s : RestState) (l : list (rest_env * RestRequest)) : list (string * Z * Z) :=
  match l with
  | [] => []
  | (e, q) :: l =>
      match paid_key e s q with Some k => [(k, re_now e, re_later e)] | None => [] end
      ++ payments (fst (serve_ e s q)) l
  end.

(** The clock does not go back. *)
Fixpoint timely (now : Z) (l : list (rest_env * RestRequest)) : Prop :=
  match l with
  | [] => True
  | (e, _) :: l => now <= re_now e /\ re_now e <= re_later e /\ timely (re_later e) l
  end.

(** A network that the REST interface has a name for. *)
Hypothesis network_named : exists name, chain_name (to_uint8 (to_uint8 (c_Network cfg))) = Return name.

Lemma AddressToBytes_hex s b : hex_DecodeString s = (b, true) -> b <> [] -> AddressToBytes s = Return b.
Proof using Type.
  intros Hd Hb. unfold AddressToBytes. assert (TrimPrefix s "0x" = s) as ->.
  { unfold TrimPrefix. destruct (HasPrefix s "0x") eqn:Ep; [|done]. unfold HasPrefix in Ep.
    destruct s as [|c1 [|c2 s]]; [done|cbn [String.prefix] in Ep; by destruct (ascii_dec _ _)|].
    cbn [String.prefix] in Ep. destruct (ascii_dec "0" c1) as [<-|]; [|done]. destruct (ascii_dec "x" c2) as [<-|]; [|done].
    by cbn in Hd. }
  destruct s; [by injection Hd as <-|]. cbn [String.length Nat.eqb]. by rewrite Hd.
Qed.

Lemma requireHex_20 a x : requireHexWithPrefixOfSize a 20 = inl x ->
  exists b, AddressToBytes x = Return b /\ length b = 20%nat.
Proof using Type.
  unfold requireHexWithPrefixOfSize, requireHex. destruct (bool_decide _); [done|].
  destruct (negb (HasPrefix a "0x")); [done|].
  destruct (hex_DecodeString (TrimPrefix a "0x")) as [b []] eqn:Ed; cbn [snd rest_bind throw]; [|done]. rewrite Ed.
  cbn [fst]. destruct (Z.eqb_spec (Z.of_nat (length b)) 20) as [Hl|]; [|done]. intros [= <-].
  exists b. split; [|lia]. apply AddressToBytes_hex; [done|]. intros ->. done.
Qed.

(** The transaction that the faucet has sent can be mapped. *)
Lemma faucet_tx_mapped a x nonce now later t b :
  requireHexWithPrefixOfSize a 20 = inl x -> faucet_tx cfg faucet x nonce now = Return t ->
  proto_Marshal_Txv1 (Txv1_MarshalBinary t) = Some b ->
  exists d, TxToDto format_time later (NewUnifiedUnconfirmedTx (ATxv1 t)) = Return d.
Proof using network_named.
  intros Ha Ht Hb. destruct (requireHex_20 _ _ Ha) as (r & Hr & Hl). destruct network_named as [name Hn].
  unfold faucet_tx, Txv1_GeneratePayment in Ht. cbn [senderAddress receiverAddress] in Ht.
  destruct (AddressToBytes (FaucetWallet faucet)) as [w|]; [|done]. rewrite Hr in Ht. cbn [outcome_bind] in Ht.
  assert (Chain_Type t = to_uint8 (to_uint8 (c_Network cfg)) /\ Recepient t = r) as [Hc Hrec].
  { unfold Txv1_Sign, Txv1_generateSignature in Ht. destruct (Txv1_Hash _); cbn [outcome_bind] in Ht.
    - destruct (DSA_Sign _ _); [|done]. by injection Ht as <-.
    - by injection Ht as <-. }
  unfold TxToDto. cbn [GetRawTx NewUnifiedUnconfirmedTx confirmed unconfirmed outcome_bind GetChainType GetRecipient
    GetSender GetSignature GetHash].
  rewrite Hc, Hn, Hrec. cbn [outcome_bind]. unfold Txv1_GetHash, Txv1_Hash. rewrite Hb.
  destruct r as [|r0 r]; [done|]. unfold BytesToAddress. rewrite Hl. cbn. by eexists.
Qed.

Lemma requireHex_throws a n e : requireHexWithPrefixOfSize a n = inr e -> exists x, e = TError x.
Proof using Type.
  unfold requireHexWithPrefixOfSize, requireHex. repeat case_match; cbn [rest_bind]; try case_match; intros [= <-]; by eexists.
Qed.

Lemma findKey_throws recv now a f e : findKey recv now a f = inr e -> exists x, e = TError x.
Proof using Type. unfold findKey. repeat case_match; intros [= <-]. by eexists. Qed.

Lemma Faucet_received s now later nonce f :
  let '(s', r) := Faucet cfg faucet undef format_time s now later nonce f in
  match r with
  | inr (TLate _) => False
  | inl {| rp_Body := BTransaction _ |} =>
      exists k, findKey (received s) now (fq_RemoteAddr f) (fq_Forwarded f) = inl (k, true)
      /\ received s' = <[k := later]> (received s)
  | _ => received s' = received s
  end.
Proof using network_named.
  unfold Faucet. destruct (_ || _); [done|]. destruct (fq_addresses f) as [|a l]; [done|].
  destruct (requireHexWithPrefixOfSize a 20) as [x|ex] eqn:Ex; cbn [rest_bind].
  2:{ destruct (requireHex_throws _ _ _ Ex) as [e ->]. done. }
  destruct (findKey _ _ _ _) as [[k []]|ek] eqn:Ek; cbn [rest_bind]; [|done|].
  2:{ destruct (findKey_throws _ _ _ _ _ Ek) as [e ->]. done. }
  destruct (GetAccountById _ _ _) as [[acc|]|]; cbn [lift rest_bind throw]; [|done|done].
  destruct (_ <? _); cbn [throw]; [done|].
  destruct (faucet_tx cfg faucet x nonce now) as [t|] eqn:Et; cbn [lift_text rest_bind].
  2:{ by destruct (faucet_panics_text _ _). }
  unfold send_faucet_tx. destruct (proto_Marshal_Txv1 _) as [b|] eqn:Eb; cbn [rest_bind throw]; [|done].
  destruct (SendRawTransaction _ _ _ _) as [[[p r] [err|]]|]; cbn [lift_text rest_bind throw]; [done| |].
  - destruct (faucet_tx_mapped a x nonce now now t b Ex Et Eb) as [d ->]. cbn. by exists k.
  - by destruct (send_panics_text _).
Qed.

Lemma findKey_eligible recv now a f k : findKey recv now a f = inl (k, true) -> eligible recv now k = true.
Proof using Type.
  unfold findKey. destruct (split_first ":" a) as [ip two]. destruct (negb two); [done|].
  destruct (eligible recv now ip) eqn:E; [by intros [= <-]|]. case_bool_decide; [done|]. by intros [= <- ->].
Qed.

(** A request changes the times only by a payment to an eligible key. *)
Lemma serve_received e s q :
  match paid_key e s q with
  | Some k => eligible (received s) (re_now e) k = true
              /\ received (fst (serve_ e s q)) = <[k := re_later e]> (received s)
  | None => received (fst (serve_ e s q)) = received s
  end.
Proof using network_named.
  assert (forall r : RestState * rest reply, received (fst (match r with
     | (s, inl r) => (s, Some r)
     | (s, inr (TError err)) => (s, Some {| rp_Status := if says_not_found service_not_found vm_not_found err then 404 else 400; rp_Body := BError |})
     | (s, inr (TLate _)) => (s, Some {| rp_Status := 200; rp_Body := BError |})
     | (s, inr TValue) => (s, None) end)) = received (fst r)) as Hserve by by intros [? [?|[?|?|]]].
  unfold ServeHTTP. rewrite Hserve. destruct q; cbn [paid_key handle fst]; try done.
  - unfold PutContractsContractIdAbi. destruct (requireHexWithPrefixOfSize _ _); [|done].
    by destruct body as [[?|]|].
  - unfold rest_SendRawTransaction. destruct body; [|done]. case_bool_decide; [done|].
    by destruct (SendRawTransaction _ _ _ _) as [[[p r] [err|]]|].
  - pose proof (Faucet_received s (re_now e) (re_later e) (re_nonce e) q) as HF.
    destruct (Faucet _ _ _ _ _ _ _ _ q) as [s' r]. cbn [fst snd].
    destruct (findKey _ _ _ _) as [[k b]|] eqn:Ek.
    + destruct r as [[st []]|[]]; try exact HF; [|done]. destruct HF as (k' & [= -> ->] & Hr). cbn [rp_Body].
      split; [by eapply findKey_eligible|done].
    + destruct r as [[st []]|[]]; try exact HF; [|done]. by destruct HF as (k' & [=] & _).
Qed.

(** A key that was paid at [t] is not paid again within a day. *)
Lemma payments_after s l now k t :
  timely now l -> received s !! k = Some t ->
  forall n r, (k, n, r) ∈ payments s l -> day < n - t.
Proof using network_named.
  revert s now t. induction l as [|[e q] l IH]; intros s now t; cbn [payments timely].
  { intros _ _ n r ?%not_elem_of_nil. done. }
  intros (Hn & Hr & Htl) Ht n r. pose proof (serve_received e s q) as HS.
  destruct (paid_key e s q) as [k'|].
  - destruct HS as [He Hs]. intros [[= -> -> ->]%list_elem_of_singleton|Hin]%elem_of_app.
    + unfold eligible in He. rewrite Ht in He. by apply Z.ltb_lt in He.
    + destruct (decide (k' = k)) as [->|Hne].
      * assert (day < re_now e - t) as Hd by (unfold eligible in He; rewrite Ht in He; by apply Z.ltb_lt in He).
        assert (0 < day) by (unfold day; lia).
        enough (day < n - re_later e) by lia.
        eapply IH; [exact Htl| |exact Hin]. rewrite Hs. by rewrite lookup_insert_eq.
      * eapply IH; [exact Htl| |exact Hin]. rewrite Hs. by rewrite lookup_insert_ne.
  - intros Hin. eapply IH; [exact Htl| |exact Hin]. by rewrite HS.
Qed.

(** C36: the faucet pays a key once a day.  On a network that the REST interface
    has a name for, in any sequence of requests of any kind, under a clock that
    does not go back, two payments that the faucet has sent to the same key,
    answered or not, are more than a day apart, counted from the record of the
    first to the check of the second.  The key is the address of the client, or
    the first name of its X-Forwarded-For header when that address was paid. *)
Theorem faucet_once_a_day s l now i j k n1 r1 n2 r2 :
  timely now l -> (i < j)%nat ->
  payments s l !! i = Some (k, n1, r1) -> payments s l !! j = Some (k, n2, r2) ->
  day < n2 - r1.
Proof using network_named.
  revert s now i j. induction l as [|[e q] l IH]; intros s now i j; cbn [payments timely]; [done|].
  intros (Hn & Hr & Htl) Hij Hi Hj. pose proof (serve_received e s q) as HS.
  destruct (paid_key e s q) as [k'|]; cbn [app] in Hi, Hj; [|by eapply IH].
  destruct j as [|j]; [lia|]. cbn in Hj. destruct i as [|i]; [|eapply (IH _ _ i j); [exact Htl|lia|done|done]].
  cbn in Hi. injection Hi as <- <- <-. destruct HS as [_ Hs].
  apply list_elem_of_lookup_2 in Hj. eapply payments_after; [exact Htl| |exact Hj].
  rewrite Hs. by rewrite lookup_insert_eq.
Qed.

(** A client that names another host in the header X-Forwarded-For is eligible
    again at once. *)
Theorem forwarded_client_is_eligible recv now remote ip name :
  split_first ":" remote = (ip, true) -> split_first ", " name = (name, false) ->
  name <> ""%string -> recv !! name = None ->
  exists k, findKey recv now remote name = inl (k, true).
Proof using Type.
  intros Hip Hname Hne Hnew. unfold findKey. rewrite Hip. cbn [negb].
  destruct (eligible recv now ip); [by eexists|]. rewrite bool_decide_false by done. rewrite Hname. cbn [fst].
  unfold eligible. rewrite Hnew. by eexists.
Qed.
End FaucetRuns.

(** ** Examples *)

(** A wire format in which every message is the signed payment of the leader. *)
#[local] Instance proto_payment : ProtoLib := {
  proto_Marshal_Txv1 := proto_Marshal_Txv1 (ProtoLib := proto_fields);
  proto_Unmarshal_Txv1 b := Some (Txv1_MarshalBinary signed_payment)
}.

Definition faucet_keys : FaucetConfig :=
  {| FaucetPrivatekey := hex_EncodeToString (replicate 32 x03);
     FaucetPublickey := hex_EncodeToString (replicate 32 x03); FaucetWallet := sample_sender |}.

(** The leader, whose account has the coins of the faucet. *)
Definition faucet_state : RestState :=
  {| rs_peer := with_p_dag receiver (with_world leader_dag (with_store (world leader_dag)
       (putAccount NewStorage {| sa_Address := sample_sender; sa_PublicKey := ""; 
          sa_Balance := dec_String faucet_amount; sa_Nonce := "0"; sa_CodeHash := ""; sa_Code := "";
          sa_Created := 0 |})));
     abi_store := ∅; received := ∅ |}.

Definition rest_env_at (now : Z) : rest_env :=
  {| re_now := now; re_later := now + 1; re_nonce := 7; re_connected := true; re_order _ l := l |}.

Definition faucet_request : RestRequest :=
  QFaucet {| fq_addresses := [sample_receiver]; fq_RemoteAddr := "10.0.0.1:4000"; fq_Forwarded := "" |}.

Definition two_days : list (rest_env * RestRequest) :=
  [(rest_env_at 5, faucet_request); (rest_env_at 100, faucet_request); (rest_env_at (day + 7), faucet_request)].

Definition run_payments : list (string * Z * Z) :=
  payments sample_service faucet_keys (fun _ => 0) (fun _ _ => inr ""%string) (fun _ _ => inr ""%string)
    (fun _ => ""%string) (fun _ => false) (fun _ => false) faucet_state two_days.

Lemma run_paid : run_payments = [("10.0.0.1", 5, 6); ("10.0.0.1", day + 7, day + 8)]%string.
Proof. vm_compute. reflexivity. Qed.

Lemma faucet_once_a_day_witness : day < day + 7 - 6.
Proof.
  apply (faucet_once_a_day sample_service faucet_keys (fun _ => 0) (fun _ _ => inr ""%string)
    (fun _ _ => inr ""%string) (fun _ => ""%string) (fun _ => false) (fun _ => false)
    (ex_intro _ "TESTNET0"%string eq_refl) faucet_state two_days 0 0 1 "10.0.0.1" 5 6 (day + 7) (day + 8)).
  - unfold two_days, rest_env_at, day. cbn. lia.
  - lia.
  - fold run_payments. rewrite run_paid. reflexivity.
  - fold run_payments. rewrite run_paid. reflexivity.
Defined.

(** A contract with two logs, asked for with one log per page. *)
Definition log_address : bytes := replicate 20 xab.
Definition logged_state : RestState :=
  {| rs_peer := with_p_dag receiver (with_world leader_dag (with_store (world leader_dag)
       (with_logs NewStorage {[hex_EncodeToString log_address :=
          [Build_Log log_address [[x01]] [] 0 []; Build_Log log_address [[x02]] [] 0 []]]})));
     abi_store := ∅; received := ∅ |}.
Definition logs_request : GetLogsParams :=
  {| gl_Address := ("0x" ++ hex_EncodeToString log_address)%string; gl_Topics := ["null"%string];
     gl_Page := None; gl_PageSize := Some 1; gl_PinFrom := None; gl_PinTo := Some 5 |}.
Definition logs_window : valid_logs :=
  {| vl_Topics := ["null"%string]; vl_Page := 0; vl_PageSize := 1; vl_PinFrom := 0; vl_PinTo := 0 |}.

Lemma logs_window_valid : GetLogs_validate (CurrentHeight (rs_pins logged_state)) logs_request = inl logs_window.
Proof. vm_compute. reflexivity. Qed.

Lemma logs_requested :
  requested_logs logged_state logs_request logs_window
  = [Build_Log log_address [[x02]] [] 0 []; Build_Log log_address [[x01]] [] 0 []].
Proof. vm_compute. reflexivity. Qed.

Lemma GetLogs_pages_witness :
  exists pages, map (fun i => GetLogs logged_state (on_page logs_request i)) (seq 0 2)
                = map (fun l => inl (OK (BLogs (LogsToDto l)))) pages
  /\ concat pages = [Build_Log log_address [[x02]] [] 0 []; Build_Log log_address [[x01]] [] 0 []].
Proof.
  destruct (GetLogs_pages logged_state logs_request logs_window 2) as (pages & E & Ec).
  - exact logs_window_valid.
  - cbn. lia.
  - exists pages. split; [exact E|]. rewrite Ec, logs_requested. reflexivity.
Defined.
