(* ===== verification/Events.v ===== *)
(** Events of contracts over websockets: [services/ws/events.go] and
    [vm/events.go].

    A connection is a number; what a client sends arrives decoded ([None] for
    JSON of another form) and writing to a connection succeeds or fails as the
    argument [write_ok] says for the connection and the message.  The operations
    below run one at a time: the locks are left out, and with them what another
    goroutine may do while [TriggerSubscriptions] has released the read lock of
    [triggerSubscriptions] and not yet taken the lock of
    [deleteStaleSubscriptions]. *)
From S2P Require Import Prelude GoLib Bytes Tx Storage Pool WalletCache Node Pin Search Services Rest.

Record EventSubscriptionCreateRequest := { es_Address : string; es_Topics : list string }.
Record EventSubscriptionChangeRequest := { ec_Id : string; ec_Sub : EventSubscriptionCreateRequest }.

Record ActiveSubscription := {
  as_id : string; as_conn : nat; as_sub : EventSubscriptionCreateRequest
}.

Abbreviation subscriptions := (gmap string ActiveSubscription).

(** What is written to a connection. *)
Inductive ws_message := WRegistered (id : string) | WError | WEcho | WEvent (l : api_Log).

Definition trimPrefix (strs : list string) : list string := map (fun s => TrimPrefix s "0x") strs.

Definition trimmed (r : EventSubscriptionCreateRequest) : EventSubscriptionCreateRequest :=
  {| es_Address := TrimPrefix (es_Address r) "0x"; es_Topics := trimPrefix (es_Topics r) |}.

Definition stringTopics (topics : list bytes) : list string := map hex_EncodeToString topics.

Section Events.
Context `{MapRange}.
Variable write_ok : nat -> ws_message -> bool.

(** [reader] up to the registration: the subscriptions and what was written.
    [id] is the new uuid as text. *)
Definition register (subs : subscriptions) (id : string) (conn : nat)
    (first : option (option EventSubscriptionCreateRequest)) : subscriptions * list (nat * ws_message) :=
  match first with
  | None => (subs, [])
  | Some None => (subs, [(conn, WEcho)])
  | Some (Some req) =>
      if negb (write_ok conn (WRegistered id)) then (subs, [])
      else (<[id := {| as_id := id; as_conn := conn; as_sub := trimmed req |}]> subs,
            [(conn, WRegistered id)])
  end.

(** The change acts on the subscription object, which the map shares. *)
Definition processSubscriptionChange (subs : subscriptions) (id : string)
    (message : option EventSubscriptionChangeRequest) : outcome (subscriptions * list (nat * ws_message)) :=
  match subs !! id with
  | None => Return (subs, [])
  | Some s =>
      match message with
      | None => Panic
      | Some req =>
          if negb (bool_decide (ec_Id req = id)) then Return (subs, [(as_conn s, WError)])
          else Return (<[id := {| as_id := as_id s; as_conn := as_conn s; as_sub := trimmed (ec_Sub req) |}]> subs, [])
      end
  end.

(** Does the log have the required topics?  The code indexes the topics of the
    log with the position of the required one. *)
Fixpoint has_topics (required topics : list string) : outcome bool :=
  match required, topics with
  | [], _ => Return true
  | r :: required, t :: topics => if bool_decide (r = t) then has_topics required topics else Return false
  | _ :: _, [] => Panic
  end.

(** What was delivered, and the ids whose connection failed. *)
Abbreviation routed := (list (string * api_Log) * list string)%type.

Definition writeEvent (l : Log) (s : ActiveSubscription) (r : routed) : routed :=
  if write_ok (as_conn s) (WEvent (LogToDto l))
  then (fst r ++ [(as_id s, LogToDto l)], snd r)
  else (fst r, snd r ++ [as_id s]).

Fixpoint route_log (l : Log) (subs : list (string * ActiveSubscription)) (r : routed) : outcome routed :=
  match subs with
  | [] => Return r
  | (_, s) :: subs =>
      if bool_decide (es_Address (as_sub s) = hex_EncodeToString (ContractAddress l)) then
        let! b := has_topics (es_Topics (as_sub s)) (stringTopics (Topics l)) in
        route_log l subs (if b then writeEvent l s r else r)
      else route_log l subs r
  end.

Fixpoint triggerSubscriptions (subs : subscriptions) (logs : list Log) (r : routed) : outcome routed :=
  match logs with
  | [] => Return r
  | l :: logs => let! r := route_log l (map_range subs) r in triggerSubscriptions subs logs r
  end.

(** An id that was deleted before is only logged. *)
Definition deleteStaleSubscriptions (subs : subscriptions) (ids : list string) : subscriptions :=
  fold_left (fun subs id => delete id subs) ids subs.

Definition TriggerSubscriptions (subs : subscriptions) (logs : list Log)
  : outcome (subscriptions * list (string * api_Log)) :=
  let! r := triggerSubscriptions subs logs ([], []) in
  Return (deleteStaleSubscriptions subs (snd r), fst r).
End Events.
