(* ===== verification/EventsProps.v ===== *)
(** Events reach the subscriptions they match ([events_delivered]); a
    subscription with more topics than an event of its contract panics
    ([long_subscription_panics]). *)
From S2P Require Import Prelude GoLib Bytes Tx Storage Pool WalletCache Node Pin Search Services Rest Events.

Section Delivery.
Context `{MapRange}.
Variable write_ok : nat -> ws_message -> bool.

(** Subscriptions are kept under their own ids. *)
Definition keyed (subs : subscriptions) : Prop := forall id s, subs !! id = Some s -> as_id s = id.

(** A log of the subscribed contract that begins with the subscribed topics. *)
Definition matches (s : ActiveSubscription) (l : Log) : bool :=
  bool_decide (es_Address (as_sub s) = hex_EncodeToString (ContractAddress l))
  && bool_decide (take (length (es_Topics (as_sub s))) (stringTopics (Topics l)) = es_Topics (as_sub s)).

Definition writes (s : ActiveSubscription) (l : Log) : bool := write_ok (as_conn s) (WEvent (LogToDto l)).

(** No subscription to the contract of a log asks for more topics than it has. *)
Definition enough_topics (subs : subscriptions) (logs : list Log) : Prop :=
  forall id s l, subs !! id = Some s -> l ∈ logs ->
    es_Address (as_sub s) = hex_EncodeToString (ContractAddress l) ->
    (length (es_Topics (as_sub s)) <= length (Topics l))%nat.

Lemma has_topics_spec r : forall t,
  (length r <= length t)%nat -> has_topics r t = Return (bool_decide (take (length r) t = r)).
Proof using Type.
  induction r as [|x r IH]; intros [|y t] Hl; simpl in *; try done; [lia|].
  case_bool_decide as Hxy.
  - rewrite IH by lia. f_equal. apply bool_decide_ext. subst. split; [by intros ->|by intros [=]].
  - rewrite bool_decide_false; [done|]. intros [= ? _]. congruence.
Qed.

(** What a log adds for one subscription. *)
Definition deliver (l : Log) (x : string * ActiveSubscription) : option (string * api_Log) :=
  if matches (snd x) l && writes (snd x) l then Some (as_id (snd x), LogToDto l) else None.
Definition fail_of (l : Log) (x : string * ActiveSubscription) : option string :=
  if matches (snd x) l && negb (writes (snd x) l) then Some (as_id (snd x)) else None.

Lemma route_log_spec l subs : forall r,
  (forall x, x ∈ subs -> es_Address (as_sub (snd x)) = hex_EncodeToString (ContractAddress l) ->
             (length (es_Topics (as_sub (snd x))) <= length (Topics l))%nat) ->
  route_log write_ok l subs r
  = Return (fst r ++ omap (deliver l) subs, snd r ++ omap (fail_of l) subs).
Proof using Type.
  induction subs as [|[k s] subs IH]; intros r Hs; cbn [route_log omap list_omap].
  { rewrite !app_nil_r. by destruct r. }
  assert (forall r, route_log write_ok l subs r
    = Return (fst r ++ omap (deliver l) subs, snd r ++ omap (fail_of l) subs)) as IH'
    by (intros; apply IH; intros; apply Hs; [by right|done]).
  unfold deliver at 1, fail_of at 1, matches. cbn [snd].
  case_bool_decide as Ha; cbn [andb]; [|by rewrite IH'].
  rewrite has_topics_spec.
  2:{ unfold stringTopics. rewrite length_map. apply (Hs (k, s)); [left|done]. }
  cbn [outcome_bind]. rewrite IH'. case_bool_decide; [|done]. cbn [andb].
  unfold writeEvent, writes. destruct (write_ok _ _); cbn [fst snd negb]; by rewrite <- !app_assoc.
Qed.

Lemma triggerSubscriptions_spec subs logs : forall r,
  enough_topics subs logs ->
  triggerSubscriptions write_ok subs logs r
  = Return (fst r ++ concat (map (fun l => omap (deliver l) (map_range subs)) logs),
            snd r ++ concat (map (fun l => omap (fail_of l) (map_range subs)) logs)).
Proof using Type.
  induction logs as [|l logs IH]; intros r Hen; cbn [triggerSubscriptions map concat].
  { rewrite !app_nil_r. by destruct r. }
  rewrite route_log_spec.
  2:{ intros [k s] Hx. apply elem_of_map_range in Hx. eapply Hen; [exact Hx|left]. }
  cbn [outcome_bind]. rewrite IH; [cbn [fst snd]; by rewrite !app_assoc|].
  intros id s l' Hs Hl'. eapply Hen; [exact Hs|by right].
Qed.

(** What is gathered for one key of a map. *)
Lemma omap_range_key {B} (m : subscriptions) (f : string * ActiveSubscription -> option B) (key : B -> string) id s :
  (forall k v b, m !! k = Some v -> f (k, v) = Some b -> key b = k) -> m !! id = Some s ->
  List.filter (fun b => bool_decide (key b = id)) (omap f (map_range m))
  = match f (id, s) with Some b => [b] | None => [] end.
Proof using Type.
  intros Hf Hs.
  assert (omap f (map_range m) ≡ₚ omap f ((id, s) :: map_to_list (delete id m))) as Hp.
  { apply omap_Permutation. rewrite map_range_perm. symmetry. by apply map_to_list_delete. }
  assert (List.filter (fun b => bool_decide (key b = id)) (omap f (map_to_list (delete id m))) = []) as Hnil.
  { assert (Forall (fun b => key b <> id) (omap f (map_to_list (delete id m)))) as F.
    { apply Forall_forall. intros b ([k v] & Hkv & Hb)%list_elem_of_omap. apply elem_of_map_to_list in Hkv.
      apply lookup_delete_Some in Hkv as [Hne Hkv]. rewrite (Hf k v b Hkv Hb). done. }
    induction F as [|b l Hb _ IH]; simpl; [done|]. by rewrite bool_decide_false. }
  apply (filterb_perm (fun b => bool_decide (key b = id))) in Hp. cbn [omap list_omap] in Hp. destruct (f (id, s)) as [b|] eqn:E.
  - cbn [List.filter] in Hp. rewrite (Hf _ _ _ Hs E), bool_decide_true, Hnil in Hp by done.
    by apply Permutation_singleton_r in Hp.
  - rewrite Hnil in Hp. by apply Permutation_nil_r in Hp.
Qed.

(** The events delivered to a subscription. *)
Definition events_for (id : string) (out : list (string * api_Log)) : list api_Log :=
  map snd (List.filter (fun b => bool_decide (fst b = id)) out).

Lemma filter_concat {B} (p : B -> bool) (ls : list (list B)) :
  List.filter p (concat ls) = concat (map (List.filter p) ls).
Proof using Type. induction ls as [|l ls IH]; simpl; [done|]. by rewrite List.filter_app, IH. Qed.

Lemma delivered_to subs logs id s :
  keyed subs -> subs !! id = Some s ->
  events_for id (concat (map (fun l => omap (deliver l) (map_range subs)) logs))
  = map LogToDto (List.filter (fun l => matches s l && writes s l) logs).
Proof using Type.
  intros Hk Hs. unfold events_for. rewrite filter_concat, map_map.
  induction logs as [|l logs IH]; simpl; [done|].
  rewrite (omap_range_key subs (deliver l) fst id s); [|unfold deliver; intros k v b Hv Hb|done].
  - rewrite map_app, IH. unfold deliver. cbn [snd]. by destruct (_ && _).
  - cbn [snd] in Hb. destruct (_ && _); simplify_eq. by apply Hk.
Qed.

Lemma failed_of subs logs id s :
  keyed subs -> subs !! id = Some s ->
  id ∈ concat (map (fun l => omap (fail_of l) (map_range subs)) logs)
  <-> exists l, l ∈ logs /\ matches s l = true /\ writes s l = false.
Proof using Type.
  intros Hk Hs. rewrite list_elem_of_In, in_concat. setoid_rewrite in_map_iff. split.
  - intros (x & (l & <- & Hl) & Hin). apply list_elem_of_In in Hl, Hin.
    apply list_elem_of_omap in Hin as ([k v] & Hkv & Hf). apply elem_of_map_range in Hkv.
    unfold fail_of in Hf. cbn [snd] in Hf.
    destruct (matches v l) eqn:Em, (writes v l) eqn:Ew; cbn in Hf; simplify_eq.
    assert (k = as_id v) by (symmetry; by apply Hk). simplify_eq. eauto.
  - intros (l & Hl & Hm & Hw). eexists. split; [exists l; split; [done|by apply list_elem_of_In]|].
    apply list_elem_of_In, list_elem_of_omap. exists (id, s). split; [by apply elem_of_map_range|].
    unfold fail_of. cbn [snd]. rewrite Hm, Hw. cbn. f_equal. by apply Hk.
Qed.

Lemma deleteStale_lookup ids : forall subs id,
  deleteStaleSubscriptions subs ids !! id = if decide (id ∈ ids) then None else subs !! id.
Proof using Type.
  unfold deleteStaleSubscriptions. induction ids as [|i ids IH]; intros subs id; cbn [fold_left].
  { by rewrite decide_False by set_solver. }
  rewrite IH. destruct (decide (id = i)) as [->|Hne].
  - rewrite lookup_delete_eq, (decide_True (P := i ∈ i :: ids)) by set_solver. by destruct (decide _).
  - rewrite lookup_delete_ne by done. apply decide_ext. set_solver.
Qed.

(** Registration, changes and the events keep subscriptions under their ids. *)
Lemma register_keyed subs id conn first :
  keyed subs -> keyed (fst (register write_ok subs id conn first)).
Proof using Type.
  intros Hk. unfold register. destruct first as [[req|]|]; [|done..].
  destruct (write_ok _ _); cbn; [|done]. intros i s Hs.
  apply lookup_insert_Some in Hs as [[<- <-]|[_ Hs]]; [done|by apply Hk].
Qed.

Lemma change_keyed subs id message subs' out :
  keyed subs -> processSubscriptionChange subs id message = Return (subs', out) -> keyed subs'.
Proof using Type.
  intros Hk. unfold processSubscriptionChange. destruct (subs !! id) as [s|] eqn:Es; [|by intros [= <- <-]].
  destruct message as [req|]; [|done]. case_bool_decide; cbn; intros [= <- <-]; [|done].
  intros i s' Hs'. apply lookup_insert_Some in Hs' as [[<- <-]|[_ Hs']]; [exact (Hk _ _ Es)|by apply Hk].
Qed.

Lemma trigger_keyed subs logs subs' out :
  keyed subs -> TriggerSubscriptions write_ok subs logs = Return (subs', out) -> keyed subs'.
Proof using Type.
  intros Hk. unfold TriggerSubscriptions. destruct (triggerSubscriptions _ _ _ _) as [r|]; cbn; [|done].
  intros [= <- <-] i s Hs. rewrite deleteStale_lookup in Hs. destruct (decide _); [done|by apply Hk].
Qed.

(** C22: The events of a pinned transaction reach the subscriptions they
    match.  When no subscription to the contract of a log names more topics
    than the log has, routing the logs never panics; every subscription gets,
    in the order of the logs and nothing else, the logs of its contract that
    begin with its topics and whose write succeeded, and it survives exactly
    when no such write failed. *)
Theorem events_delivered (subs : subscriptions) (logs : list Log) :
  keyed subs -> enough_topics subs logs ->
  exists subs' out, TriggerSubscriptions write_ok subs logs = Return (subs', out)
  /\ keyed subs'
  /\ (forall id s, subs !! id = Some s ->
        events_for id out = map LogToDto (List.filter (fun l => matches s l && writes s l) logs)
        /\ (subs' !! id = Some s <-> forall l, l ∈ logs -> matches s l = true -> writes s l = true))
  /\ (forall id, subs !! id = None -> subs' !! id = None).
Proof using Type.
  intros Hk Hen. unfold TriggerSubscriptions. rewrite triggerSubscriptions_spec by done. cbn [outcome_bind fst snd].
  eexists _, _. split_and!; [done|..].
  - intros i s Hs. rewrite deleteStale_lookup in Hs. destruct (decide _); [done|by apply Hk].
  - intros id s Hs. split; [by apply delivered_to|]. rewrite deleteStale_lookup, Hs.
    pose proof (failed_of subs logs id s Hk Hs) as Hf. cbn [app]. destruct (decide _) as [Hd|Hd].
    + split; [done|]. intros Ha. apply Hf in Hd as (l & Hl & Hm & Hw). rewrite (Ha l Hl Hm) in Hw. done.
    + split; [|done]. intros _ l Hl Hm. destruct (writes s l) eqn:Ew; [done|]. destruct Hd. apply Hf. eauto.
  - intros id Hn. rewrite deleteStale_lookup, Hn. by destruct (decide _).
Qed.

Lemma has_topics_long t : forall r, has_topics (t ++ r) t = if decide (r = []) then Return true else Panic.
Proof using Type.
  induction t as [|x t IH]; intros r; simpl; [|by rewrite bool_decide_true, IH].
  by destruct r.
Qed.

Lemma route_log_panics l subs : forall r x,
  x ∈ subs -> es_Address (as_sub (snd x)) = hex_EncodeToString (ContractAddress l) ->
  has_topics (es_Topics (as_sub (snd x))) (stringTopics (Topics l)) = Panic ->
  route_log write_ok l subs r = Panic.
Proof using Type.
  induction subs as [|[k s] subs IH]; intros r x Hx Ha Hp; [by apply not_elem_of_nil in Hx|].
  cbn [route_log]. apply elem_of_cons in Hx as [->|Hx].
  - cbn [snd] in *. by rewrite bool_decide_true, Hp.
  - case_bool_decide; [|by eapply IH]. destruct (has_topics (es_Topics (as_sub s)) (stringTopics (Topics l))) eqn:E; cbn [outcome_bind]; [by eapply IH|reflexivity].
Qed.

(** A subscription whose topics are those of a log of its contract and at
    least one more makes routing that log panic.  The callback runs in a
    goroutine of its own with no recovery, so a client can end the node by
    subscribing. *)
Theorem long_subscription_panics (subs : subscriptions) (l : Log) (logs : list Log) id s more :
  subs !! id = Some s -> es_Address (as_sub s) = hex_EncodeToString (ContractAddress l) ->
  es_Topics (as_sub s) = stringTopics (Topics l) ++ more -> more <> [] ->
  TriggerSubscriptions write_ok subs (l :: logs) = Panic.
Proof using Type.
  intros Hs Ha Ht Hm. unfold TriggerSubscriptions. cbn [triggerSubscriptions].
  rewrite (route_log_panics _ _ _ (id, s)); [done|by apply elem_of_map_range|done|].
  cbn [snd]. by rewrite Ht, has_topics_long, decide_False.
Qed.
End Delivery.

(** A subscription to contract [1] with the topic [2], and its logs. *)
Definition demo_log (topic : bytes) : Log :=
  {| ContractAddress := [Byte.x01]; Topics := [topic]; l_Data := []; l_PinTxNumber := 3; TransactionHash := [] |}.
Definition demo_subs : subscriptions :=
  fst (register (fun _ _ => true) ∅ "sub" 0%nat
        (Some (Some {| es_Address := "0x01"; es_Topics := ["0x02"] |}))).

Lemma demo_keyed : keyed demo_subs.
Proof. apply register_keyed. intros id s Hs. by rewrite lookup_empty in Hs. Qed.

Lemma demo_enough : enough_topics demo_subs [demo_log [Byte.x02]; demo_log [Byte.x04]].
Proof.
  intros id s l Hs Hl _. unfold demo_subs, register in Hs. cbn [negb fst] in Hs. apply lookup_insert_Some in Hs as [[<- <-]|[_ Hs]]; [|by rewrite lookup_empty in Hs].
  apply elem_of_cons in Hl as [->|Hl%list_elem_of_singleton]; [cbn; lia|subst; cbn; lia].
Qed.

Lemma events_delivered_witness :
  exists subs' out,
    TriggerSubscriptions (fun _ _ => true) demo_subs [demo_log [Byte.x02]; demo_log [Byte.x04]] = Return (subs', out)
    /\ events_for "sub" out = [LogToDto (demo_log [Byte.x02])].
Proof.
  destruct (events_delivered (fun _ _ => true) demo_subs [demo_log [Byte.x02]; demo_log [Byte.x04]]
              demo_keyed demo_enough) as (subs' & out & Ht & _ & Hs & _).
  exists subs', out. split; [exact Ht|].
  destruct (Hs "sub" _ eq_refl) as [-> _]. vm_compute. reflexivity.
Defined.

Lemma long_subscription_panics_witness :
  exists subs, TriggerSubscriptions (fun _ _ => true) subs [demo_log [Byte.x02]] = Panic.
Proof.
  exists (fst (register (fun _ _ => true) ∅ "sub" 0%nat
                 (Some (Some {| es_Address := "0x01"; es_Topics := ["0x02"; "0x03"] |})))).
  eapply (long_subscription_panics (fun _ _ => true) _ (demo_log [Byte.x02]) [] "sub" _ ["03"]);
    [reflexivity|reflexivity|reflexivity|discriminate].
Defined.
