(* ===== verification/Keys.v ===== *)
(** The key file and the hash builder: [utils/pk.go], [utils/wpk.go] and
    [utils/hashing.go].

    The home directory holds a directory with one JSON file, which maps names of
    peers and wallets to keys.  The file is kept decoded: an object, the value
    [null], or text that is not valid.  Every call of the operating system may
    fail; which do is the argument [io].  Keys of peers belong to libp2p and
    their text form to base58: [PeerKeyLib]. *)
From S2P Require Import Prelude GoLib Bytes Tx.

(** ** Hashes *)

Inductive Hash :=
| MD5 | SHA1 | SHA224 | SHA256 | SHA384 | SHA512 | SHA3_224 | SHA3_256 | SHA3_384 | SHA3_512
| OtherHash (n : nat).
#[export] Instance Hash_eq_dec : EqDecision Hash.
Proof. solve_decision. Defined.

(** The hash functions of the standard library. *)
Class HashLib := {
  digest : Hash -> bytes -> bytes;
  digest_size : Hash -> nat;
  digest_length : forall a b, length (digest a b) = digest_size a
}.

(** [HashBuffer] and the type that embeds it. *)
Record Hashable := { h_algo : Hash; h_t : string; h_buf : bytes }.

Definition newHash (a : Hash) (t : string) : Hashable := {| h_algo := a; h_t := t; h_buf := [] |}.

Definition Build (algo : Hash) : option Hashable :=
  match algo with
  | MD5 => Some (newHash MD5 "MD5")
  | SHA1 => Some (newHash SHA1 "SHA1")
  | SHA224 => Some (newHash SHA224 "SHA224")
  | SHA256 => Some (newHash SHA256 "SHA256")
  | SHA384 => Some (newHash SHA384 "SHA384")
  | SHA512 => Some (newHash SHA512 "SHA512")
  | SHA3_224 => Some (newHash SHA3_224 "SHA3-224")
  | SHA3_384 => Some (newHash SHA3_384 "SHA3-384")
  | SHA3_512 => Some (newHash SHA3_512 "SHA3-512")
  | SHA3_256 | OtherHash _ => None
  end.

(** SHA1 and SHA224 call [Sum] of a new hash, which appends the hash of nothing
    to its argument. *)
Definition Hashable_Hash `{HashLib} (h : Hashable) (x : bytes) : bytes * Hashable :=
  let b := match h_algo h with
           | SHA1 => x ++ digest SHA1 []
           | SHA224 => x ++ digest SHA224 []
           | a => digest a x
           end in
  (b, {| h_algo := h_algo h; h_t := h_t h; h_buf := b |}).

Definition Hashable_String (h : Hashable) : string :=
  (h_t h ++ ": " ++ hex_EncodeToString (h_buf h))%string.

(** ** The key file *)

Inductive jvalue := JString (s : string) | JOther (n : nat).
Inductive content := CKeys (payload : gmap string jvalue) | CNull | CText (n : nat).

Record KeyFs := { kf_dir : bool; kf_file : option content }.

(** Which calls work. *)
Record Io := {
  stat_dir : bool; mkdir : bool; open_file : bool; read_file : bool; stat_file : bool;
  read_all : bool; create_file : bool; write_file : bool
}.

Definition made_dir (fs : KeyFs) : KeyFs := {| kf_dir := true; kf_file := kf_file fs |}.
Definition with_file (fs : KeyFs) (c : content) : KeyFs := {| kf_dir := kf_dir fs; kf_file := Some c |}.

(** The file as it is found by [os.Open] and [ioutil.ReadAll]. *)
Definition file_text (io : Io) (fs : KeyFs) : option content :=
  if negb (open_file io) || negb (read_file io) || negb (kf_dir fs) then None else kf_file fs.

(** [strings.Split] with a separator of one character. *)
Fixpoint Split (s : string) (sep : ascii) : list string :=
  match s with
  | EmptyString => [""%string]
  | String c s =>
      if Ascii.eqb c sep then ""%string :: Split s sep
      else match Split s sep with
           | [] => [String c ""]
           | x :: l => String c x :: l
           end
  end.

(** What [saveKey] and [SaveWalletKey] start from: the decoded payload, [None]
    for an error.  A file that is not found gives an empty payload; the payload of
    the file [null] is a nil map. *)
Definition stored_payload (io : Io) (fs : KeyFs) : option (option (gmap string jvalue)) :=
  let file := if kf_dir fs then kf_file fs else None in
  match stat_file io, file with
  | true, None => Some (Some ∅)
  | _, _ =>
      if negb (read_all io) then None
      else match file with
           | Some (CKeys m) => Some (Some m)
           | Some CNull => Some None
           | Some (CText _) | None => None
           end
  end.

(** Truncates the file and writes the payload: the file system and whether it
    worked.  A write that fails leaves a part of the text. *)
Definition write_payload (io : Io) (fs : KeyFs) (m : gmap string jvalue) : KeyFs * bool :=
  if negb (create_file io) || negb (kf_dir fs) then (fs, false)
  else if negb (write_file io) then (with_file fs (CText 0), false)
  else (with_file fs (CKeys m), true).

(** [payload[name] = value] panics on a nil map. *)
Definition save_value (io : Io) (fs : KeyFs) (payload : option (gmap string jvalue)) (name value : string)
  : outcome (KeyFs * bool) :=
  match payload with
  | None => Panic
  | Some m => Return (write_payload io fs (<[name := JString value]> m))
  end.

(** ** Keys of peers *)

(** A private key; [None] is the nil interface. *)
Class PeerKeyLib (PrivKey : Type) := {
  MarshalPrivateKey : option PrivKey -> outcome (option bytes);
  UnmarshalPrivateKey : bytes -> option PrivKey;
  base58_Encode : bytes -> string;
  base58_Decode : string -> option bytes;
  base58_Decode_Encode : forall b, base58_Decode (base58_Encode b) = Some b;
  Marshal_PrivateKey : forall k, exists b, MarshalPrivateKey (Some k) = Return (Some b) /\ UnmarshalPrivateKey b = Some k
}.

Section PeerKeys.
Context {PrivKey : Type} `{!PeerKeyLib PrivKey}.

Definition loadKey (io : Io) (fs : KeyFs) (peer_id : string) : option PrivKey :=
  match file_text io fs with
  | Some (CKeys payload) =>
      match payload !! peer_id with
      | Some (JString s) =>
          match base58_Decode s with
          | None => None
          | Some keybytes => UnmarshalPrivateKey keybytes
          end
      | Some (JOther _) | None => None
      end
  | Some CNull | Some (CText _) | None => None
  end.

(** The new file system, and [false] for an error. *)
Definition saveKey (io : Io) (fs : KeyFs) (peer_id : string) (prvkey : option PrivKey) : outcome (KeyFs * bool) :=
  match stored_payload io fs with
  | None => Return (fs, false)
  | Some payload =>
      let! r := MarshalPrivateKey prvkey in
      match r with
      | None => Return (fs, false)
      | Some keybytes => save_value io fs payload peer_id (base58_Encode keybytes)
      end
  end.

(** [generated] is what [generatePk] gives, [None] when it fails. *)
Definition ManagePK (io : Io) (fs : KeyFs) (peerID : string) (generated : option PrivKey)
  : outcome (KeyFs * option PrivKey) :=
  let generate fs :=
    let! r := saveKey io fs peerID generated in
    Return (fst r, if snd r then generated else None) in
  if negb (stat_dir io) then generate fs
  else if negb (kf_dir fs) then generate (if mkdir io then made_dir fs else fs)
  else match loadKey io fs peerID with
       | Some prvkey => Return (fs, Some prvkey)
       | None => generate fs
       end.
End PeerKeys.

(** ** Keys of wallets *)

(** The file system and whether the requirements hold. *)
Definition checkFsRequirements (io : Io) (fs : KeyFs) : KeyFs * bool :=
  if negb (stat_dir io) then (fs, true)
  else if kf_dir fs then (fs, true)
  else if mkdir io then (made_dir fs, true) else (fs, false).

Definition LoadWalletKey (io : Io) (fs : KeyFs) (wallet : string) : KeyFs * option (bytes * bytes) :=
  let '(fs, ok) := checkFsRequirements io fs in
  if negb ok then (fs, None)
  else
    (fs, match file_text io fs with
         | Some (CKeys payload) =>
             match payload !! wallet with
             | Some (JString s) =>
                 match Split s "|" with
                 | [prv; pub] =>
                     match ParsePrivateKey prv with
                     | None => None
                     | Some privkey =>
                         match ParsePublicKey pub with
                         | None => None
                         | Some pubkey => Some (privkey, pubkey)
                         end
                     end
                 | _ => None
                 end
             | Some (JOther _) | None => None
             end
         | Some CNull | Some (CText _) | None => None
         end).

(** [true] for the error [nil]: also when the directory could not be made. *)
Definition SaveWalletKey (io : Io) (fs : KeyFs) (wallet prvkey pubkey : string) : outcome (KeyFs * bool) :=
  let '(fs, ok) := checkFsRequirements io fs in
  if negb ok then Return (fs, true)
  else match stored_payload io fs with
       | None => Return (fs, false)
       | Some payload => save_value io fs payload wallet (prvkey ++ "|" ++ pubkey)%string
       end.

(** [TxGenerator.GenWallet]: the keys of a new wallet are saved under its
    address. *)
Definition GenWallet (io : Io) (fs : KeyFs) (w : Wallet) : outcome (KeyFs * bool) :=
  SaveWalletKey io fs (walletAddress w) (Wallet_PrivateKeyStr w) (Wallet_PublicKeyStr w).
