(* ===== verification/KeysProps.v ===== *)
(** Keys survive in the key file ([peer_key_is_stable], [wallet_keys_are_kept]),
    a write that fails makes the file useless for good
    ([failed_write_loses_keys]), and what the hash builder makes
    ([built_hashes]). *)
From S2P Require Import Prelude GoLib Bytes Tx Keys.

(** ** The key file *)

(** Every call of the operating system works. *)
Definition io_ok : Io :=
  {| stat_dir := true; mkdir := true; open_file := true; read_file := true; stat_file := true;
     read_all := true; create_file := true; write_file := true |}.

(** There is no file without its directory, and the file, if there is one, holds
    a JSON object: not another text, and not [null], which is decoded to no map
    and makes the next write to it panic. *)
Definition readable (fs : KeyFs) : Prop :=
  (kf_dir fs = false -> kf_file fs = None) /\
  match kf_file fs with Some CNull | Some (CText _) => False | _ => True end.

Definition keys_of (fs : KeyFs) : gmap string jvalue :=
  match kf_file fs with Some (CKeys m) => m | _ => ∅ end.

(** The home directory with the keys [m]. *)
Definition with_keys (m : gmap string jvalue) : KeyFs := {| kf_dir := true; kf_file := Some (CKeys m) |}.

(** What a readable home directory looks like. *)
Lemma readable_cases fs :
  readable fs -> fs = {| kf_dir := false; kf_file := None |} \/ fs = {| kf_dir := true; kf_file := None |}
                 \/ fs = with_keys (keys_of fs).
Proof.
  destruct fs as [[] [[m| |n]|]]; intros [Hd Hf]; cbn in *; try done; eauto. by specialize (Hd eq_refl).
Qed.

Lemma SaveWalletKey_keys fs w p q :
  readable fs -> SaveWalletKey io_ok fs w p q
                 = Return (with_keys (<[w := JString (p ++ "|" ++ q)%string]> (keys_of fs)), true).
Proof. by intros [->|[->| ->]]%readable_cases. Qed.

Section PeerFile.
Context {PrivKey : Type} `{!PeerKeyLib PrivKey}.

(** The text [s] stands for the key [k]. *)
Definition key_text (k : PrivKey) (s : string) : Prop :=
  exists b, base58_Decode s = Some b /\ UnmarshalPrivateKey b = Some k.

Lemma loadKey_keys m peer k :
  loadKey io_ok (with_keys m) peer = Some k <-> exists s, m !! peer = Some (JString s) /\ key_text k s.
Proof using Type.
  unfold loadKey, file_text. cbn. split.
  - destruct (m !! peer) as [[s|]|]; [|done..]. destruct (base58_Decode s) as [b|] eqn:Eb; [|done].
    intros Hb. exists s. split; [done|]. by exists b.
  - intros (s & -> & b & -> & ->). done.
Qed.

Lemma ManagePK_known m peer k g :
  loadKey io_ok (with_keys m) peer = Some k ->
  ManagePK io_ok (with_keys m) peer g = Return (with_keys m, Some k).
Proof using Type. intros Hl. unfold ManagePK. cbn [io_ok stat_dir negb with_keys kf_dir]. fold (with_keys m). by rewrite Hl. Qed.

(** A start keeps the other keys, and a key for the peer: the stored one if there
    is one, and else the generated one. *)
Lemma ManagePK_keys fs peer g :
  readable fs ->
  exists m, ManagePK io_ok fs peer (Some g) = Return (with_keys m, Some (default g (loadKey io_ok fs peer)))
  /\ loadKey io_ok (with_keys m) peer = Some (default g (loadKey io_ok fs peer))
  /\ forall n, n <> peer -> m !! n = keys_of fs !! n.
Proof using Type.
  intros Hr. destruct (Marshal_PrivateKey g) as (b & Hm & Hu).
  assert (forall m, loadKey io_ok (with_keys (<[peer := JString (base58_Encode b)]> m)) peer = Some g) as Hload.
  { intros m. apply loadKey_keys. exists (base58_Encode b). rewrite lookup_insert_eq. split; [done|].
    exists b. by rewrite base58_Decode_Encode. }
  destruct (loadKey io_ok fs peer) as [k|] eqn:El.
  { apply readable_cases in Hr as [->|[->| Hfs]]; [done..|]. rewrite Hfs in El.
    exists (keys_of fs). rewrite Hfs at 1. by rewrite (ManagePK_known _ _ _ _ El). }
  exists (<[peer := JString (base58_Encode b)]> (keys_of fs)). split; [|split; [apply Hload|]].
  - unfold ManagePK, saveKey. rewrite El, Hm. by apply readable_cases in Hr as [->|[->| ->]].
  - intros n Hn. by rewrite lookup_insert_ne.
Qed.

(** What the processes of a node do with the file. *)
Inductive KeyOp := OWallet (wallet prv pub : string) | OPeer (peer : string) (generated : PrivKey).

Definition op_name (o : KeyOp) : string := match o with OWallet w _ _ => w | OPeer p _ => p end.

Definition run_op (fs : KeyFs) (o : KeyOp) : outcome KeyFs :=
  match o with
  | OWallet w prv pub => let! r := SaveWalletKey io_ok fs w prv pub in Return (fst r)
  | OPeer p g => let! r := ManagePK io_ok fs p (Some g) in Return (fst r)
  end.

Fixpoint run_ops (fs : KeyFs) (l : list KeyOp) : outcome KeyFs :=
  match l with [] => Return fs | o :: l => let! fs := run_op fs o in run_ops fs l end.

Lemma readable_keys m : readable (with_keys m).
Proof using Type. split; [done|done]. Qed.

Lemma run_op_keys m o :
  exists m', run_op (with_keys m) o = Return (with_keys m') /\ forall n, n <> op_name o -> m' !! n = m !! n.
Proof using Type.
  destruct o as [w p q|p g]; cbn [run_op op_name].
  - rewrite SaveWalletKey_keys by apply readable_keys. eexists. split; [done|]. intros n Hn. by rewrite lookup_insert_ne.
  - destruct (ManagePK_keys (with_keys m) p g (readable_keys m)) as (m' & -> & _ & Hm'). by exists m'.
Qed.

Lemma run_ops_keys l : forall m,
  exists m', run_ops (with_keys m) l = Return (with_keys m') /\ forall n, n ∉ map op_name l -> m' !! n = m !! n.
Proof using Type.
  induction l as [|o l IH]; intros m; cbn [run_ops map]; [by exists m|].
  destruct (run_op_keys m o) as (m1 & -> & H1). cbn [outcome_bind].
  destruct (IH m1) as (m2 & -> & H2). exists m2. split; [done|].
  intros n [Hn Hl]%not_elem_of_cons. by rewrite H2, H1.
Qed.

(** C18: the key of a peer is stable as long as every call of the operating
    system works (a write that fails loses the keys).  From a home directory
    whose key file, if there is one, holds a JSON object (not [null]), a start
    gives the peer its stored key, or the
    generated one when none is stored; and after any other peers and wallets have
    saved their keys in the same file, every later start gives the peer the same
    key, whatever it would generate. *)
Theorem peer_key_is_stable fs peer g :
  readable fs ->
  exists fs1, ManagePK io_ok fs peer (Some g) = Return (fs1, Some (default g (loadKey io_ok fs peer)))
  /\ forall ops g', peer ∉ map op_name ops ->
       exists fs2, run_ops fs1 ops = Return fs2
       /\ ManagePK io_ok fs2 peer g' = Return (fs2, Some (default g (loadKey io_ok fs peer))).
Proof using Type.
  intros Hr. destruct (ManagePK_keys fs peer g Hr) as (m & Hm & Hl & _).
  exists (with_keys m). split; [done|]. intros ops g' Hn.
  destruct (run_ops_keys ops m) as (m2 & -> & H2). exists (with_keys m2). split; [done|].
  apply ManagePK_known. apply loadKey_keys in Hl as (s & Hs & Hk). apply loadKey_keys. exists s. by rewrite H2.
Qed.

(** ** Wallets *)

Lemma Split_nosep s : forall t, (forall c, c ∈ String.list_ascii_of_string s -> c <> "|"%char) ->
  Split (s ++ String "|" t) "|" = s :: Split t "|".
Proof using Type.
  induction s as [|c s IH]; intros t Hs; [done|].
  change (String c s ++ String "|" t)%string with (String c (s ++ String "|" t))%string. cbn [Split].
  destruct (Ascii.eqb_spec c "|") as [->|Hc]; [by destruct (Hs "|"%char); [left|]|].
  rewrite IH; [done|]. intros c' Hc'. apply Hs. by right.
Qed.

Lemma Split_one s : (forall c, c ∈ String.list_ascii_of_string s -> c <> "|"%char) -> Split s "|" = [s].
Proof using Type.
  induction s as [|c s IH]; intros Hs; [done|]. cbn [Split].
  destruct (Ascii.eqb_spec c "|") as [->|Hc]; [by destruct (Hs "|"%char); [left|]|].
  rewrite IH; [done|]. intros c' Hc'. apply Hs. by right.
Qed.

Lemma hex_digit_nosep n : (n < 16)%N -> hex_digit n <> "|"%char.
Proof using Type.
  intros Hn. eapply bool_decide_eq_true_1.
  apply (digits_checked (fun k => bool_decide (hex_digit k <> "|"%char)) n); [|done]. vm_compute. reflexivity.
Qed.

Lemma hex_nosep b c : c ∈ String.list_ascii_of_string (hex_EncodeToString b) -> c <> "|"%char.
Proof using Type.
  induction b as [|x b IH]; cbn; [by intros ?%not_elem_of_nil|].
  pose proof (Byte.to_N_bounded x).
  intros [->|[->|Hc]%elem_of_cons]%elem_of_cons; [apply hex_digit_nosep..|by apply IH].
  - apply N.Div0.div_lt_upper_bound. lia.
  - apply N.mod_lt. lia.
Qed.

(** The keys of a generated wallet can be loaded after other peers and wallets have
    saved theirs. *)
Theorem wallet_keys_are_kept fs w :
  readable fs ->
  exists fs1, GenWallet io_ok fs w = Return (fs1, true)
  /\ forall ops, walletAddress w ∉ map op_name ops ->
       exists fs2, run_ops fs1 ops = Return fs2
       /\ LoadWalletKey io_ok fs2 (walletAddress w) = (fs2, Some (privateKey w, publicKey w)).
Proof using Type.
  intros Hr. unfold GenWallet. rewrite SaveWalletKey_keys by done. eexists. split; [done|].
  intros ops Hn. match goal with |- context [with_keys ?m] => destruct (run_ops_keys ops m) as (m2 & -> & H2) end.
  exists (with_keys m2). split; [done|]. unfold LoadWalletKey. cbn. rewrite H2 by done. rewrite lookup_insert_eq.
  unfold Wallet_PrivateKeyStr, Wallet_PublicKeyStr. 
  match goal with |- context [Split (?a ++ "|" ++ ?b)%string _] =>
    change (Split (a ++ "|" ++ b)%string "|") with (Split (a ++ String "|" b)%string "|") end.
  rewrite Split_nosep by apply hex_nosep.
  rewrite Split_one by apply hex_nosep. unfold ParsePrivateKey, ParsePublicKey. by rewrite !hex_Decode_Encode.
Qed.

(** ** Failures *)

(** The write of the key file fails, every other call works. *)
Definition io_full : Io :=
  {| stat_dir := true; mkdir := true; open_file := true; read_file := true; stat_file := true;
     read_all := true; create_file := true; write_file := false |}.

(** A write that fails loses every key for good.  When the first start of a
    peer cannot write the key file, the file has already been truncated: the
    start gives no key, and from then on, with every call working again, no peer
    gets a key, no wallet is loaded or saved, and nothing repairs the file. *)
Theorem failed_write_loses_keys fs peer g :
  readable fs -> loadKey io_full fs peer = None ->
  exists fs1, ManagePK io_full fs peer (Some g) = Return (fs1, None)
  /\ forall name g' prv pub,
       ManagePK io_ok fs1 name g' = Return (fs1, None)
       /\ LoadWalletKey io_ok fs1 name = (fs1, None)
       /\ SaveWalletKey io_ok fs1 name prv pub = Return (fs1, false).
Proof using Type.
  intros Hr Hl. exists {| kf_dir := true; kf_file := Some (CText 0) |}. split; [|done].
  destruct (Marshal_PrivateKey g) as (b & Hm & _). unfold ManagePK, saveKey. rewrite Hl, Hm.
  by apply readable_cases in Hr as [->|[->| ->]].
Qed.
End PeerFile.

(** A save that cannot make the directory reports success. *)
Theorem save_without_directory io w prv pub :
  stat_dir io = true -> mkdir io = false ->
  SaveWalletKey io {| kf_dir := false; kf_file := None |} w prv pub
  = Return ({| kf_dir := false; kf_file := None |}, true).
Proof. intros Hs Hm. unfold SaveWalletKey, checkFsRequirements. by rewrite Hs, Hm. Qed.

(** A hexadecimal form stands in for base58, and the bytes of a key for the key. *)
#[export] Program Instance demo_keys : PeerKeyLib bytes := {
  MarshalPrivateKey := fun k => match k with Some b => Return (Some b) | None => Panic end;
  UnmarshalPrivateKey := fun b => Some b;
  base58_Encode := hex_EncodeToString;
  base58_Decode := ParsePrivateKey
}.
Next Obligation. intros b. unfold ParsePrivateKey. by rewrite hex_Decode_Encode. Qed.
Next Obligation. intros k. by exists k. Qed.

Lemma peer_key_is_stable_witness :
  exists fs1, ManagePK io_ok {| kf_dir := false; kf_file := None |} "peer" (Some [Byte.x01]) = Return (fs1, Some [Byte.x01])
  /\ exists fs2, run_ops fs1 [OWallet "w" "aa" "bb"; OPeer "other" [Byte.x02]] = Return fs2
     /\ ManagePK io_ok fs2 "peer" (Some [Byte.x03]) = Return (fs2, Some [Byte.x01]).
Proof.
  destruct (peer_key_is_stable {| kf_dir := false; kf_file := None |} "peer" [Byte.x01]) as (fs1 & H1 & H2);
    [split; [reflexivity|exact I]|].
  exists fs1. split; [exact H1|]. apply H2. cbn. set_solver.
Defined.

Lemma failed_write_loses_keys_witness :
  exists fs1, ManagePK io_full (with_keys {["w" := JString "aa|bb"]}) "peer" (Some [Byte.x01]) = Return (fs1, None)
  /\ LoadWalletKey io_ok fs1 "w" = (fs1, None).
Proof.
  destruct (failed_write_loses_keys (with_keys {["w" := JString "aa|bb"]}) "peer" [Byte.x01]) as (fs1 & H1 & H2);
    [split; [discriminate|exact I]|reflexivity|].
  exists fs1. split; [exact H1|]. destruct (H2 "w" None "" "") as (_ & H & _). exact H.
Defined.

(** ** Hashes *)

Section Hashes.
Context `{HashLib}.

(** Every supported algorithm but two gives its digest; SHA1 and SHA224 give the
    input with the digest of nothing behind it, so that the text of the input can
    be read off.  SHA3-256 is not supported. *)
Theorem built_hashes a x :
  match Build a with
  | Some h =>
      h_algo h = a
      /\ (a = SHA1 \/ a = SHA224 -> fst (Hashable_Hash h x) = x ++ digest a [])
      /\ (a <> SHA1 -> a <> SHA224 -> fst (Hashable_Hash h x) = digest a x)
      /\ length (fst (Hashable_Hash h x))
         = ((if decide (a = SHA1 \/ a = SHA224) then length x else 0) + digest_size a)%nat
  | None => a = SHA3_256 \/ exists n, a = OtherHash n
  end.
Proof using Type.
  destruct a; cbn; split_and?; try done; eauto; try (by intros [|]); rewrite ?length_app, digest_length; done.
Qed.
End Hashes.
