(* ===== verification/Listeners.v ===== *)
(** Listeners of connections: [Notifees] of [discovery/discovery.go] and
    [waitForConnection] of [dag/sync.go].

    Calls run in threads that share the slice of listeners, its mutex and the
    channels.  The bodies of [AddNotifee] and [RemoveNotifee] cannot block, so
    each is one step that needs the mutex free; a notification holds the mutex
    while it sends to one listener after the other, a step for each.  [run] is
    one step of a thread: [None] when the thread is blocked or has returned. *)
From S2P Require Import Prelude GoLib.

(** ** Channels of capacity one *)

Record conn_chan := { c_buf : list bool; c_closed : bool }.

Definition make_chan : conn_chan := {| c_buf := []; c_closed := false |}.

Definition chan_send (ch : conn_chan) (v : bool) : option (outcome conn_chan) :=
  if c_closed ch then Some Panic
  else if (length (c_buf ch) <? 1)%nat
  then Some (Return {| c_buf := c_buf ch ++ [v]; c_closed := false |})
  else None.

Definition chan_recv (ch : conn_chan) : option (bool * conn_chan) :=
  match c_buf ch with
  | v :: b => Some (v, {| c_buf := b; c_closed := c_closed ch |})
  | [] => if c_closed ch then Some (false, ch) else None
  end.

Definition chan_close (ch : conn_chan) : outcome conn_chan :=
  if c_closed ch then Panic else Return {| c_buf := c_buf ch; c_closed := true |}.

(** ** The slice of listeners; a listener is the address of its object *)

Definition AddNotifee (ns : list nat) (n : nat) : list nat := ns ++ [n].

Definition RemoveNotifee (ns : list nat) (n : nat) : list nat :=
  match list_find (fun i => i = n) ns with
  | None => ns
  | Some (idx, _) => if (length ns =? 1)%nat then [] else take idx ns ++ drop (S idx) ns
  end.

(** ** Threads *)

(** A call of [waitForConnection]: before each of its calls, and its result. *)
Inductive waiter_pc := WAdd | WRecv | WRemove (flag : bool) | WClose (flag : bool) | WReturned (flag : bool).

(** A call of [NotifyConnected] or [NotifyDisconnected]: before the lock,
    with the listeners still to be told, and after it. *)
Inductive notifier_pc := NLock | NSend (rest : list nat) | NReturned.

Inductive thread := Waiter (l : nat) (pc : waiter_pc) | Notifier (connected : bool) (pc : notifier_pc).

Record notify_state := {
  mx : option nat;                 (** the thread that holds the mutex *)
  notifees : list nat;
  chans : gmap nat conn_chan;
  threads : list thread
}.

(** [dag/sync.go]: a step of [waitForConnection] with its listener [l]. *)
Definition run_waiter (c : notify_state) (i l : nat) (pc : waiter_pc) : option (outcome notify_state) :=
  let go ns chs pc' :=
    {| mx := mx c; notifees := ns; chans := chs; threads := <[i := Waiter l pc']> (threads c) |} in
  match pc with
  | WAdd =>
      match mx c with
      | Some _ => None
      | None => Some (Return (go (AddNotifee (notifees c) l) (<[l := make_chan]> (chans c)) WRecv))
      end
  | WRecv =>
      match chans c !! l with
      | None => None
      | Some ch =>
          match chan_recv ch with
          | None => None
          | Some (flag, ch') => Some (Return (go (notifees c) (<[l := ch']> (chans c)) (WRemove flag)))
          end
      end
  | WRemove flag =>
      match mx c with
      | Some _ => None
      | None => Some (Return (go (RemoveNotifee (notifees c) l) (chans c) (WClose flag)))
      end
  | WClose flag =>
      match chans c !! l with
      | None => Some Panic
      | Some ch =>
          match chan_close ch with
          | Panic => Some Panic
          | Return ch' => Some (Return (go (notifees c) (<[l := ch']> (chans c)) (WReturned flag)))
          end
      end
  | WReturned _ => None
  end.

(** A step of [NotifyConnected] ([v = true]) or [NotifyDisconnected]; the
    listener is told by a send on its channel. *)
Definition run_notifier (c : notify_state) (i : nat) (v : bool) (pc : notifier_pc)
    : option (outcome notify_state) :=
  let go m chs pc' :=
    {| mx := m; notifees := notifees c; chans := chs; threads := <[i := Notifier v pc']> (threads c) |} in
  match pc with
  | NLock =>
      match mx c with
      | Some _ => None
      | None => Some (Return (go (Some i) (chans c) (NSend (notifees c))))
      end
  | NSend [] => Some (Return (go None (chans c) NReturned))
  | NSend (l :: rest) =>
      match chans c !! l with
      | None => None
      | Some ch =>
          match chan_send ch v with
          | None => None
          | Some Panic => Some Panic
          | Some (Return ch') => Some (Return (go (mx c) (<[l := ch']> (chans c)) (NSend rest)))
          end
      end
  | NReturned => None
  end.

Definition run (c : notify_state) (i : nat) : option (outcome notify_state) :=
  match threads c !! i with
  | None => None
  | Some (Waiter l pc) => run_waiter c i l pc
  | Some (Notifier v pc) => run_notifier c i v pc
  end.

Definition step (c c' : notify_state) : Prop := exists i, run c i = Some (Return c').

(** Calls of [waitForConnection] with listeners [ls], and one event for each
    of [vs]: whether it is a connection. *)
Definition start (ls : list nat) (vs : list bool) : notify_state :=
  {| mx := None; notifees := []; chans := ∅;
     threads := map (fun l => Waiter l WAdd) ls ++ map (fun v => Notifier v NLock) vs |}.

(** Threads run in the given order; [None] when one of them is blocked or panics. *)
Fixpoint run_all (c : notify_state) (order : list nat) : option notify_state :=
  match order with
  | [] => Some c
  | i :: order' => match run c i with Some (Return c') => run_all c' order' | _ => None end
  end.

Definition stuck (c : notify_state) : Prop := forall i, run c i = None.

(** Nothing is left to do: events are announced, and a caller has returned or
    waits for an event that did not come. *)
Definition settled (c : notify_state) (t : thread) : Prop :=
  match t with
  | Waiter l WRecv => exists ch, chans c !! l = Some ch /\ c_buf ch = []
  | Waiter _ (WReturned _) | Notifier _ NReturned => True
  | _ => False
  end.

Definition quiescent (c : notify_state) : Prop := forall i t, threads c !! i = Some t -> settled c t.

Lemma run_all_rtc c order c' : run_all c order = Some c' -> rtc step c c'.
Proof.
  revert c. induction order as [|i order IH]; intros c H; simpl in H; [by simplify_eq|].
  destruct (run c i) as [[c1|]|] eqn:E; try done. eapply rtc_l; [by exists i|by apply IH].
Qed.

(** ** The invariant *)

Definition registered (pc : waiter_pc) : bool :=
  match pc with WRecv | WRemove _ => true | _ => false end.

Definition waiter_chan (c : notify_state) (l : nat) (pc : waiter_pc) : Prop :=
  match pc with
  | WAdd => True
  | WRecv | WRemove _ | WClose _ =>
      exists b, chans c !! l = Some {| c_buf := b; c_closed := false |} /\ (length b <= 1)%nat
  | WReturned _ => True
  end.

Record notify_inv (c : notify_state) : Prop := {
  own_listener : forall i j l p q,
    threads c !! i = Some (Waiter l p) -> threads c !! j = Some (Waiter l q) -> i = j;
  registered_once : NoDup (notifees c);
  registered_iff : forall l,
    l ∈ notifees c <-> exists i pc, threads c !! i = Some (Waiter l pc) /\ registered pc = true;
  open_channels : forall i l pc, threads c !! i = Some (Waiter l pc) -> waiter_chan c l pc;
  mutex_holder : forall i,
    mx c = Some i <-> exists v rest, threads c !! i = Some (Notifier v (NSend rest));
  told_listeners : forall i v rest,
    threads c !! i = Some (Notifier v (NSend rest)) -> NoDup rest /\ forall l, l ∈ rest -> l ∈ notifees c
}.

(** ** Preservation *)

Lemma RemoveNotifee_delete ns n :
  RemoveNotifee ns n = match list_find (fun i => i = n) ns with Some (idx, _) => delete idx ns | None => ns end.
Proof.
  unfold RemoveNotifee. destruct (list_find _ ns) as [[idx y]|] eqn:E; [|done].
  apply list_find_Some in E as (Hl & _ & _). apply lookup_lt_Some in Hl.
  rewrite delete_take_drop. destruct (Nat.eqb_spec (length ns) 1); [|done].
  destruct ns as [|? [|? ?]]; simpl in *; try lia. by destruct idx; [|lia].
Qed.

Lemma RemoveNotifee_Permutation ns n : n ∈ ns -> ns ≡ₚ n :: RemoveNotifee ns n.
Proof.
  intros Hn. rewrite RemoveNotifee_delete. destruct (list_find _ ns) as [[idx y]|] eqn:E.
  - apply list_find_Some in E as (Hl & -> & _). by rewrite <- (delete_Permutation _ _ _ Hl).
  - apply list_find_None in E. rewrite Forall_forall in E. by destruct (E n Hn).
Qed.

Lemma RemoveNotifee_spec ns n :
  NoDup ns -> n ∈ ns ->
  NoDup (RemoveNotifee ns n) /\ forall l, l ∈ RemoveNotifee ns n <-> l ∈ ns /\ l <> n.
Proof.
  intros Hd Hn. pose proof (RemoveNotifee_Permutation ns n Hn) as Hp.
  rewrite Hp in Hd. apply NoDup_cons in Hd as [Hni Hd']. split; [done|].
  intros l. assert (l ∈ ns <-> l ∈ n :: RemoveNotifee ns n) as -> by (by rewrite <- Hp).
  rewrite elem_of_cons. set_solver.
Qed.

(** A thread of the list after one of them has moved. *)
Ltac moved :=
  repeat match goal with
  | H : <[_ := _]> _ !! _ = Some _ |- _ =>
      apply list_lookup_insert_Some in H as [(?&?&?)|(?&?)]; simplify_eq
  end.

Lemma thread_moved (ts : list thread) i t u :
  ts !! i = Some t -> <[i := u]> ts !! i = Some u.
Proof. intros H. apply list_lookup_insert_eq. by eapply lookup_lt_Some. Qed.
#[local] Hint Resolve thread_moved : core.

(** Which listeners are registered, when thread [i] moves to [pc']. *)
Lemma registered_moved (ts : list thread) i l pc pc' k :
  ts !! i = Some (Waiter l pc) ->
  (forall i j l p q, ts !! i = Some (Waiter l p) -> ts !! j = Some (Waiter l q) -> i = j) ->
  (exists j q, <[i := Waiter l pc']> ts !! j = Some (Waiter k q) /\ registered q = true)
  <-> (k = l /\ registered pc' = true \/ k <> l /\ exists j q, ts !! j = Some (Waiter k q) /\ registered q = true).
Proof.
  intros Hi Hown. split.
  - intros (j & q & Hj & Hq). moved; [by left|]. right. split; [|by eauto].
    intros ->. by pose proof (Hown _ _ _ _ _ Hi H0).
  - intros [[-> Hr]|[Hk (j & q & Hj & Hq)]]; [by eauto|]. exists j, q. split; [|done].
    rewrite list_lookup_insert_ne; [done|]. intros ->. congruence.
Qed.

Lemma registered_unmoved (ts : list thread) i v npc npc' k :
  ts !! i = Some (Notifier v npc) ->
  (exists j q, <[i := Notifier v npc']> ts !! j = Some (Waiter k q) /\ registered q = true)
  <-> exists j q, ts !! j = Some (Waiter k q) /\ registered q = true.
Proof.
  intros Hi. split; intros (j & q & Hj & Hq).
  - moved. by eauto.
  - exists j, q. split; [|done]. rewrite list_lookup_insert_ne; [done|]. intros ->. congruence.
Qed.

(** A waiter moves: its listener is registered as its new place says, its
    channel is as it should be, and the other channels stay. *)
Lemma waiter_moves c i l pc pc' ns chs :
  notify_inv c -> threads c !! i = Some (Waiter l pc) ->
  NoDup ns -> (forall k, k ∈ ns <-> (k = l /\ registered pc' = true) \/ (k <> l /\ k ∈ notifees c)) ->
  (mx c = None \/ ns = notifees c) ->
  (forall k, k <> l -> chs !! k = chans c !! k) ->
  waiter_chan {| mx := mx c; notifees := ns; chans := chs; threads := <[i := Waiter l pc']> (threads c) |} l pc' ->
  notify_inv {| mx := mx c; notifees := ns; chans := chs; threads := <[i := Waiter l pc']> (threads c) |}.
Proof.
  intros Hinv Hi Hd Hns Hmx Hchs Hch. constructor; simpl.
  - intros a b k p q Ha Hb. destruct Hinv. moved; eauto.
  - done.
  - intros k. rewrite (registered_moved _ _ _ pc); [|done|apply Hinv].
    rewrite Hns, (registered_iff _ Hinv). naive_solver.
  - intros j k q Hj. moved; [done|].
    assert (k <> l) as Hk by (intros ->; by pose proof (own_listener _ Hinv _ _ _ _ _ Hi H0)).
    pose proof (open_channels _ Hinv _ _ _ H0) as Ho.
    destruct q; simpl in *; rewrite ?(Hchs k Hk); done.
  - intros j. rewrite (mutex_holder _ Hinv). split; intros (v & rest & Hj).
    + exists v, rest. rewrite list_lookup_insert_ne; [done|]. intros ->. congruence.
    + moved. by eauto.
  - intros j v rest Hj. moved. destruct (told_listeners _ Hinv _ _ _ H0) as [H1 H2]. split; [done|].
    destruct Hmx as [Hmx| ->]; [|done].
    exfalso. assert (mx c = Some j) by (apply Hinv; eauto). congruence.
Qed.

(** A notification moves: the mutex is held as its new place says, open
    channels stay open and hold at most one value. *)
Lemma notifier_moves c i v pc pc' m chs :
  notify_inv c -> threads c !! i = Some (Notifier v pc) ->
  (forall j, m = Some j <->
     (j = i /\ exists rest, pc' = NSend rest) \/
     (j <> i /\ exists w rest, threads c !! j = Some (Notifier w (NSend rest)))) ->
  (forall rest, pc' = NSend rest -> NoDup rest /\ forall l, l ∈ rest -> l ∈ notifees c) ->
  (forall k b, chans c !! k = Some {| c_buf := b; c_closed := false |} -> (length b <= 1)%nat ->
     exists b', chs !! k = Some {| c_buf := b'; c_closed := false |} /\ (length b' <= 1)%nat) ->
  notify_inv {| mx := m; notifees := notifees c; chans := chs; threads := <[i := Notifier v pc']> (threads c) |}.
Proof.
  intros Hinv Hi Hm Hrest Hch. constructor; simpl.
  - intros a b k p q Ha Hb. moved. by eapply (own_listener _ Hinv).
  - apply Hinv.
  - intros k. rewrite (registered_unmoved _ _ _ pc) by done. apply Hinv.
  - intros j k q Hj. moved. pose proof (open_channels _ Hinv _ _ _ H0) as Ho.
    destruct q; simpl in *; try done; destruct Ho as (b & Hb & Hlen); eauto.
  - intros j. rewrite Hm. split.
    + intros [[-> [rest ->]]|[Hj (w & rest & Hw)]]; [by eauto|].
      exists w, rest. by rewrite list_lookup_insert_ne.
    + intros (w & rest & Hw). moved; [by eauto|]. right. split; [congruence|by eauto].
  - intros j w rest Hj. moved; [by apply Hrest|]. by eapply (told_listeners _ Hinv).
Qed.

Lemma run_waiter_inv c i l pc c' :
  notify_inv c -> threads c !! i = Some (Waiter l pc) ->
  run_waiter c i l pc = Some (Return c') -> notify_inv c'.
Proof.
  intros Hinv Hi Hrun.
  pose proof (registered_iff _ Hinv l) as Hreg. pose proof (open_channels _ Hinv _ _ _ Hi) as Ho.
  assert (l ∈ notifees c <-> registered pc = true) as Hl.
  { rewrite Hreg. split; [|by eauto]. intros (j & q & Hj & Hq).
    pose proof (own_listener _ Hinv _ _ _ _ _ Hi Hj) as ->. congruence. }
  destruct pc; simpl in *.
  - destruct (mx c) eqn:Hm; [done|]. simplify_eq. rewrite <- Hm.
    apply waiter_moves with (pc := WAdd); try done; simpl; auto.
    + apply NoDup_app. split_and!; [apply Hinv| |apply NoDup_singleton].
      intros k Hk. rewrite list_elem_of_singleton. intros ->. by apply Hl in Hk.
    + intros k. unfold AddNotifee. rewrite elem_of_app, list_elem_of_singleton.
      destruct (decide (k = l)) as [->|]; naive_solver.
    + intros k Hk. by rewrite lookup_insert_ne.
    + exists []. rewrite lookup_insert_eq. split; [done|simpl; lia].
  - destruct Ho as (b & Hb & Hlen). rewrite Hb in Hrun. destruct b as [|v b]; simpl in *; [done|]. simplify_eq.
    apply waiter_moves with (pc := WRecv); try done; simpl; auto.
    + apply Hinv.
    + intros k. destruct (decide (k = l)) as [->|]; naive_solver.
    + intros k Hk. by rewrite lookup_insert_ne.
    + exists b. rewrite lookup_insert_eq. split; [done|lia].
  - destruct (mx c) eqn:Hm; [done|]. simplify_eq. rewrite <- Hm.
    destruct (RemoveNotifee_spec (notifees c) l) as [Hd Hn]; [apply Hinv|by apply Hl|].
    apply waiter_moves with (pc := WRemove flag); try done; simpl; auto.
    intros k. rewrite Hn. naive_solver.
  - destruct Ho as (b & Hb & Hlen). rewrite Hb in Hrun. simpl in Hrun. simplify_eq.
    apply waiter_moves with (pc := WClose flag); try done; simpl; auto.
    + apply Hinv.
    + intros k. destruct (decide (k = l)) as [->|]; naive_solver.
    + intros k Hk. by rewrite lookup_insert_ne.
  - done.
Qed.

Lemma run_notifier_inv c i v pc c' :
  notify_inv c -> threads c !! i = Some (Notifier v pc) ->
  run_notifier c i v pc = Some (Return c') -> notify_inv c'.
Proof.
  intros Hinv Hi Hrun.
  assert (forall j w rest, threads c !! j = Some (Notifier w (NSend rest)) -> mx c = Some j) as Hm
    by (intros; apply Hinv; eauto).
  destruct pc as [|[|l rest]|]; simpl in *.
  - destruct (mx c) eqn:E; [done|]. simplify_eq.
    apply notifier_moves with (pc := NLock); try done; simpl; eauto.
    + intros j. split; [naive_solver|]. intros [[-> _]|[_ (w & r & Hw)]]; [done|]. by apply Hm in Hw.
    + intros rest [= <-]. split; [apply Hinv|done].
  - simplify_eq. apply notifier_moves with (pc := NSend []); try done; simpl; eauto.
    intros j. split; [done|]. intros [[_ [? ?]]|[Hj (w & r & Hw)]]; [done|].
    apply Hm in Hw, Hi. congruence.
  - destruct (told_listeners _ Hinv _ _ _ Hi) as [Hd Hin].
    destruct (chans c !! l) as [ch|] eqn:El; [|done].
    unfold chan_send in Hrun. destruct (c_closed ch) eqn:Ec; [done|].
    destruct (Nat.ltb_spec (length (c_buf ch)) 1); [|done]. simplify_eq.
    apply NoDup_cons in Hd as [_ Hd].
    apply notifier_moves with (pc := NSend (l :: rest)); try done; simpl.
    + intros j. split.
      * intros Hj. left. split; [|by eauto]. apply Hm in Hi. congruence.
      * intros [[-> _]|[_ (w & r & Hw)]]; eauto.
    + intros r [= <-]. split; [done|set_solver].
    + intros k b Hk Hb. destruct (decide (k = l)) as [->|].
      * rewrite lookup_insert_eq. eexists. split; [done|]. rewrite length_app. simpl. lia.
      * rewrite lookup_insert_ne by done. by eauto.
  - done.
Qed.

Lemma step_inv c c' : notify_inv c -> step c c' -> notify_inv c'.
Proof.
  intros Hinv [i Hi]. unfold run in Hi. destruct (threads c !! i) as [[l pc|v pc]|] eqn:E; [| |done].
  - by eapply run_waiter_inv.
  - by eapply run_notifier_inv.
Qed.

Lemma start_inv ls vs : NoDup ls -> notify_inv (start ls vs).
Proof.
  intros Hd.
  assert (forall i t, threads (start ls vs) !! i = Some t ->
    (exists l, ls !! i = Some l /\ t = Waiter l WAdd) \/ exists v, t = Notifier v NLock) as Ht.
  { intros i t. simpl. rewrite lookup_app_Some, !list_lookup_fmap, !fmap_Some. naive_solver. }
  constructor; simpl.
  - intros i j l p q Hi Hj. apply Ht in Hi as [(?&?&?)|(?&?)], Hj as [(?&?&?)|(?&?)]; simplify_eq.
    by eapply NoDup_lookup.
  - constructor.
  - intros l. split; [by intros ?%elem_of_nil|]. intros (i & pc & Hi & Hr).
    apply Ht in Hi as [(?&?&?)|(?&?)]; by simplify_eq.
  - intros i l pc Hi. apply Ht in Hi as [(?&?&?)|(?&?)]; by simplify_eq.
  - intros i. split; [done|]. intros (v & r & Hi). apply Ht in Hi as [(?&?&?)|(?&?)]; simplify_eq.
  - intros i v r Hi. apply Ht in Hi as [(?&?&?)|(?&?)]; simplify_eq.
Qed.

Lemma reachable_inv ls vs c : NoDup ls -> rtc step (start ls vs) c -> notify_inv c.
Proof.
  intros Hd Hr. pose proof (start_inv ls vs Hd) as Hinv. revert Hinv.
  induction Hr; eauto using step_inv.
Qed.

(** ** Deadlock *)

(** The only way to be stuck before the end: a notification holds the mutex
    and waits for room at a listener whose caller wants the mutex to leave. *)
Lemma stuck_jammed c :
  notify_inv c -> stuck c -> quiescent c \/
  exists i l rest v, threads c !! i = Some (Notifier v (NSend (l :: rest))) /\
    exists j flag b, threads c !! j = Some (Waiter l (WRemove flag)) /\
      chans c !! l = Some {| c_buf := [b]; c_closed := false |}.
Proof.
  intros Hinv Hst. unfold stuck, run in Hst.
  destruct (mx c) as [i|] eqn:Hm.
  - destruct (proj1 (mutex_holder _ Hinv i) Hm) as (v & rest & Hi).
    pose proof (Hst i) as Hsi. rewrite Hi in Hsi. destruct rest as [|l rest]; simpl in Hsi; [done|].
    right. exists i, l, rest, v. split; [done|].
    destruct (told_listeners _ Hinv _ _ _ Hi) as [_ Hin].
    destruct (proj1 (registered_iff _ Hinv l) (Hin l ltac:(set_solver))) as (j & pc & Hj & Hpc).
    pose proof (open_channels _ Hinv _ _ _ Hj) as Ho. pose proof (Hst j) as Hsj. rewrite Hj in Hsj.
    assert (exists b, chans c !! l = Some {| c_buf := b; c_closed := false |} /\ (length b <= 1)%nat)
      as (b & Hb & Hlen) by (destruct pc; done).
    rewrite Hb in Hsi. unfold chan_send in Hsi. simpl in Hsi.
    destruct b as [|b0 [|? ?]]; simpl in *; [done| |lia].
    destruct pc; simpl in *; try done; [by rewrite Hb in Hsj|by eauto].
  - left. intros i t Hi. pose proof (Hst i) as Hsi. rewrite Hi in Hsi.
    destruct t as [l pc|v pc].
    + pose proof (open_channels _ Hinv _ _ _ Hi) as Ho.
      destruct pc; simpl in *; rewrite ?Hm in Hsi; try done;
        destruct Ho as (b & Hb & Hlen); rewrite Hb in Hsi; simpl in Hsi; [|done].
      exists {| c_buf := b; c_closed := false |}. split; [done|]. by destruct b.
    + destruct pc as [|rest|]; simpl in *; rewrite ?Hm in Hsi; try done.
      assert (mx c = Some i) by (apply Hinv; eauto). congruence.
Qed.

(** Values that listener [l] can still get or has taken, by thread. *)
Definition load (l : nat) (t : thread) : nat :=
  match t with
  | Waiter k (WRemove _ | WClose _ | WReturned _) => if decide (k = l) then 1 else 0
  | Waiter _ _ | Notifier _ NReturned => 0
  | Notifier _ NLock => 1
  | Notifier _ (NSend rest) => if decide (l ∈ rest) then 1 else 0
  end%nat.

Definition buffered (c : notify_state) (l : nat) : nat :=
  match chans c !! l with Some ch => length (c_buf ch) | None => 0%nat end.

Definition loads (c : notify_state) (l : nat) : nat :=
  (buffered c l + sum_list_with (load l) (threads c))%nat.

Lemma sum_list_with_moved {A} (f : A -> nat) ts i t u :
  ts !! i = Some t -> (sum_list_with f (<[i := u]> ts) + f t = sum_list_with f ts + f u)%nat.
Proof.
  revert i. induction ts as [|a ts IH]; intros [|i] H; simplify_eq/=; [lia|].
  specialize (IH i H). lia.
Qed.

Lemma sum_list_with_lookup {A} (f : A -> nat) ts i t :
  ts !! i = Some t -> (f t <= sum_list_with f ts)%nat.
Proof. revert i. induction ts as [|a ts IH]; intros [|i] H; simplify_eq/=; [lia|]. specialize (IH i H). lia. Qed.

Lemma sum_list_with_two {A} (f : A -> nat) ts i j t u :
  i <> j -> ts !! i = Some t -> ts !! j = Some u -> (f t + f u <= sum_list_with f ts)%nat.
Proof.
  revert i j. induction ts as [|a ts IH]; intros [|i] [|j] Hij Ht Hu; simplify_eq/=; try done.
  - pose proof (sum_list_with_lookup f ts j u Hu). lia.
  - pose proof (sum_list_with_lookup f ts i t Ht). lia.
  - specialize (IH i j ltac:(lia) Ht Hu). lia.
Qed.

(** The values a listener gets are bounded by the events. *)
Lemma step_loads c c' l : notify_inv c -> step c c' -> (loads c' l <= loads c l)%nat.
Proof.
  intros Hinv [i Hi]. unfold run in Hi.
  destruct (threads c !! i) as [t|] eqn:E; [|done].
  assert (forall u, sum_list_with (load l) (<[i := u]> (threads c)) + load l t
    = sum_list_with (load l) (threads c) + load l u)%nat as Hsum by (intros; by apply sum_list_with_moved).
  unfold loads, buffered. destruct t as [k pc|v pc].
  - pose proof (open_channels _ Hinv _ _ _ E) as Ho.
    destruct pc; simpl in Hi; [| | | |done].
    + destruct (mx c); [done|]. simplify_eq. simpl. pose proof (Hsum (Waiter k WRecv)). simpl in *.
      destruct (decide (k = l)) as [->|]; [rewrite lookup_insert_eq|rewrite lookup_insert_ne by done]; simpl; lia.
    + destruct Ho as (b & Hb & Hlen). rewrite Hb in Hi. destruct b as [|x b]; simpl in *; [done|]. simplify_eq.
      simpl. pose proof (Hsum (Waiter k (WRemove x))). simpl in *.
      destruct (decide (k = l)) as [->|]; [rewrite lookup_insert_eq, Hb|rewrite lookup_insert_ne by done]; simpl; lia.
    + destruct (mx c); [done|]. simplify_eq. simpl. pose proof (Hsum (Waiter k (WClose flag))). simpl in *. lia.
    + destruct Ho as (b & Hb & Hlen). rewrite Hb in Hi. simpl in Hi. simplify_eq.
      simpl. pose proof (Hsum (Waiter k (WReturned flag))). simpl in *.
      destruct (decide (k = l)) as [->|]; [rewrite lookup_insert_eq, Hb|rewrite lookup_insert_ne by done]; simpl; lia.
  - destruct pc as [|[|k rest]|]; simpl in Hi; [| | |done].
    + destruct (mx c); [done|]. simplify_eq. simpl. pose proof (Hsum (Notifier v (NSend (notifees c)))). simpl in *.
      destruct (decide (l ∈ notifees c)); lia.
    + simplify_eq. simpl. pose proof (Hsum (Notifier v NReturned)). simpl in *. lia.
    + destruct (told_listeners _ Hinv _ _ _ E) as [[Hk _]%NoDup_cons _].
      destruct (chans c !! k) as [ch|] eqn:Ek; [|done]. unfold chan_send in Hi.
      destruct (c_closed ch); [done|]. destruct (_ <? _)%nat; [|done]. simplify_eq. simpl.
      pose proof (Hsum (Notifier v (NSend rest))) as Hs. simpl in Hs.
      destruct (decide (k = l)) as [->|].
      * rewrite lookup_insert_eq, Ek. simpl. rewrite length_app. simpl.
        rewrite decide_True in Hs by set_solver. rewrite decide_False in Hs by done. lia.
      * rewrite lookup_insert_ne by done.
        rewrite (decide_ext (l ∈ k :: rest) (l ∈ rest)) in Hs by (rewrite elem_of_cons; naive_solver). lia.
Qed.

Lemma start_loads ls vs l : loads (start ls vs) l = length vs.
Proof.
  unfold loads, buffered. simpl. rewrite lookup_empty, sum_list_with_app.
  induction ls as [|k ls IH]; simpl; [|done].
  induction vs as [|v vs IH]; simpl in *; lia.
Qed.

Lemma reachable_loads ls vs c l :
  NoDup ls -> rtc step (start ls vs) c -> (loads c l <= length vs)%nat.
Proof.
  intros Hd Hr. rewrite <- (start_loads ls vs l). pose proof (start_inv ls vs Hd) as Hinv.
  induction Hr as [|c0 c1 c2 H1 H2 IH]; [done|].
  pose proof (step_loads _ _ l Hinv H1). specialize (IH (step_inv _ _ Hinv H1)). lia.
Qed.

(** ** Properties *)

(** However the calls of [waitForConnection] and the notifications of
    connections interleave, none of them sends on a closed channel or closes
    one twice. *)
Theorem notify_never_panics ls vs c i :
  NoDup ls -> rtc step (start ls vs) c -> run c i <> Some Panic.
Proof.
  intros Hd Hr Hp. pose proof (reachable_inv _ _ _ Hd Hr) as Hinv. unfold run in Hp.
  destruct (threads c !! i) as [[l pc|v pc]|] eqn:E; [| |done].
  - pose proof (open_channels _ Hinv _ _ _ E) as Ho.
    destruct pc; simpl in *; try done; [by destruct (mx c)|..|by destruct (mx c)|];
      destruct Ho as (b & Hb & _); rewrite Hb in Hp; simpl in Hp; [|done].
    unfold chan_recv in Hp. by destruct b.
  - destruct pc as [|[|l rest]|]; simpl in Hp; try done; [by destruct (mx c)|].
    destruct (told_listeners _ Hinv _ _ _ E) as [_ Hin].
    destruct (proj1 (registered_iff _ Hinv l) (Hin l ltac:(set_solver))) as (j & pc & Hj & Hpc).
    pose proof (open_channels _ Hinv _ _ _ Hj) as Ho.
    destruct pc; simpl in *; try done; destruct Ho as (b & Hb & _); rewrite Hb in Hp;
      unfold chan_send in Hp; simpl in Hp; by destruct (_ <? _)%nat.
Qed.

(** With at most two events, the calls cannot block each other: when no thread
    can take a step, every event is announced and every call of
    [waitForConnection] has returned or waits with no event for it. *)
Lemma stuck_quiescent ls vs c :
  NoDup ls -> (length vs <= 2)%nat -> rtc step (start ls vs) c -> stuck c -> quiescent c.
Proof.
  intros Hd Hlen Hr Hst.
  pose proof (reachable_inv _ _ _ Hd Hr) as Hinv.
  destruct (stuck_jammed c Hinv Hst) as [Hq|(i & l & rest & v & Hi & j & flag & b & Hj & Hb)]; [done|].
  exfalso. pose proof (reachable_loads _ _ _ l Hd Hr) as Hload. unfold loads, buffered in Hload. rewrite Hb in Hload.
  assert (i <> j) as Hij by congruence.
  pose proof (sum_list_with_two (load l) _ _ _ _ _ Hij Hi Hj) as H2. simpl in *.
  rewrite !decide_True in H2 by set_solver. lia.
Qed.

Lemma notify_never_panics_witness : run (start [7%nat] [true]) 1 <> Some Panic.
Proof. apply (notify_never_panics [7%nat] [true]); [apply NoDup_singleton|apply rtc_refl]. Defined.

(** Three events can block everything: the first wakes the caller, the second
    fills the channel, the third waits for room while it holds the mutex that
    the caller needs to leave. *)
Lemma three_events_may_deadlock l v1 v2 v3 vs :
  exists c, rtc step (start [l] (v1 :: v2 :: v3 :: vs)) c /\ stuck c /\
    threads c !! 0%nat = Some (Waiter l (WRemove v1)).
Proof.
  eexists. split_and!.
  - apply (run_all_rtc _ [0; 1; 1; 1; 0; 2; 2; 2; 3]%nat). unfold start, run_all, run. simpl.
    do 3 (rewrite lookup_insert_eq; simpl). reflexivity.
  - intros [|[|[|[|i]]]]; unfold run; simpl; [done..|by rewrite lookup_insert_eq|].
    rewrite list_lookup_fmap. by destruct (vs !! i).
  - done.
Qed.

(** C21: Waiting for a connection can deadlock exactly when three events come. From
    the start of a call of waitForConnection and of one notification for each
    event, a state where no thread can move, and where yet an event is not
    announced or the caller has a value and has not returned, is reachable if
    and only if there are at least three events. *)
Theorem waitForConnection_deadlock l vs :
  (exists c, rtc step (start [l] vs) c /\ stuck c /\ ~ quiescent c) <-> (3 <= length vs)%nat.
Proof.
  split.
  - intros (c & Hr & Hst & Hq). destruct (decide (3 <= length vs)%nat) as [|Hlt]; [done|].
    exfalso. apply Hq. eapply stuck_quiescent; eauto using NoDup_singleton. lia.
  - intros Hlen. destruct vs as [|v1 [|v2 [|v3 vs]]]; simpl in Hlen; try lia.
    destruct (three_events_may_deadlock l v1 v2 v3 vs) as (c & Hr & Hst & Hw).
    exists c. split_and!; [done..|]. intros Hq. by specialize (Hq _ _ Hw).
Qed.
