(* ===== verification/Discovery.v ===== *)
(** Discovery of peers: [discovery/mesh.go], [discovery/dht.go] and
    [discovery/handler.go].

    Addresses and identifiers belong to libp2p: [PeerLib].  What a host answers
    ([Connect], [Reserve], [Connectedness]) and what the discovery service
    finds are arguments; every dial is recorded in the result.  An address list
    that the host is given may hold a nil address, [None].  The goroutines of
    the bootstrap are threads that share the table of connections; those of
    [nsSpecificDiscovery] share one flag that they only set. *)
From S2P Require Import Prelude GoLib Listeners.

Class PeerLib := {
  multiaddr : Type;
  ma_Equal : multiaddr -> multiaddr -> bool;
  ma_String : multiaddr -> string;
  NewMultiaddr : string -> option multiaddr;
  ID_String : string -> string;
  (** [peer.AddrInfoFromP2pAddr]: the identifier and the transport part *)
  split_p2p : multiaddr -> option (string * list multiaddr);
  ma_Equal_spec : forall a b, ma_Equal a b = true <-> a = b;
  ID_String_inj : forall a b, ID_String a = ID_String b -> a = b
}.

Definition RELAY_SRV_1 : string :=
  "/dns4/bootstrap1/udp/43431/quic-v1/p2p/12D3KooWLMy6TucfkW55NmYH9FGwfSnLPZPiEEicqyJzfubfLob1".
Definition MAX_CONN_LIMIT : nat := 100.

Section Discovery.
Context `{PeerLib}.

Record AddrInfo := { ai_ID : string; ai_Addrs : list multiaddr }.

Definition AddrInfoFromP2pAddr (a : multiaddr) : option AddrInfo :=
  match split_p2p a with
  | None => None
  | Some (id, addrs) => Some {| ai_ID := id; ai_Addrs := addrs |}
  end.

(** ** The mesh *)

Abbreviation Mesh := (gmap string (list AddrInfo)).

Definition Mesh_In (m : Mesh) (topic id : string) : bool :=
  match m !! topic with
  | Some v => existsb (fun n => bool_decide (ai_ID n = id)) v
  | None => false
  end.

Definition Mesh_Get (m : Mesh) (topic : string) : list AddrInfo := default [] (m !! topic).

Definition Mesh_Add (m : Mesh) (topic : string) (p : list AddrInfo) : Mesh := <[topic := p]> m.

(** ** The state of the package *)

Record discovery := {
  mesh : Mesh;
  connections : gmap string (list multiaddr);   (** by the text of the identifier *)
  relayTemplate : string;
  relayBootstrap : AddrInfo;
  bootstrapReady : bool;
  peer_discovered : bool
}.

Definition set_mesh (d : discovery) (m : Mesh) : discovery :=
  {| mesh := m; connections := connections d; relayTemplate := relayTemplate d;
     relayBootstrap := relayBootstrap d; bootstrapReady := bootstrapReady d; peer_discovered := peer_discovered d |}.
Definition set_discovered (d : discovery) : discovery :=
  {| mesh := mesh d; connections := connections d; relayTemplate := relayTemplate d;
     relayBootstrap := relayBootstrap d; bootstrapReady := bootstrapReady d; peer_discovered := true |}.
Definition set_relay (d : discovery) (template : string) (info : AddrInfo) : discovery :=
  {| mesh := mesh d; connections := connections d; relayTemplate := template;
     relayBootstrap := info; bootstrapReady := true; peer_discovered := peer_discovered d |}.

(** [connections[id] = append(connections[id], addrs...)] *)
Definition add_connection (d : discovery) (id : string) (addrs : list multiaddr) : discovery :=
  {| mesh := mesh d;
     connections := <[id := default [] (connections d !! id) ++ addrs]> (connections d);
     relayTemplate := relayTemplate d; relayBootstrap := relayBootstrap d;
     bootstrapReady := bootstrapReady d; peer_discovered := peer_discovered d |}.

(** A dial: the peer and the addresses. *)
Record dial := { d_ID : string; d_Addrs : list (option multiaddr) }.

Definition dial_of (i : AddrInfo) : dial := {| d_ID := ai_ID i; d_Addrs := Some <$> ai_Addrs i |}.

(** ** Bootstrap *)

(** Where a goroutine of [connectToBootstrap] is. *)
Inductive boot_pc :=
| BStart (addr : multiaddr)
| BDial (addr : multiaddr) (info : AddrInfo) (retries : nat)
| BRecord (addr : multiaddr) (info : AddrInfo)
| BReserve (info : AddrInfo)
| BDone.

(** What the network answers: a dial succeeds or not; a reservation fails, or
    comes with a voucher or without one. *)
Record boot_answer := { connect_ok : bool; reserve : option (option string) }.

(** One step of [connectToBootstrap] up to the next use of the shared table or
    of the network. *)
Definition boot_step (self : string) (relays : bool) (ans : boot_answer) (d : discovery) (pc : boot_pc)
    : outcome (discovery * boot_pc) :=
  match pc with
  | BStart addr =>
      match AddrInfoFromP2pAddr addr with
      | None => Panic
      | Some info =>
          match connections d !! ID_String (ai_ID info) with
          | Some _ => Return (d, BDone)
          | None => Return (d, BDial addr info 0)
          end
      end
  | BDial addr info retries =>
      if connect_ok ans then Return (d, BRecord addr info)
      else if (retries =? 10)%nat then Return (d, BDone)
      else Return (d, BDial addr info (S retries))
  | BRecord addr info =>
      Return (add_connection d (ID_String (ai_ID info)) [addr], if relays then BReserve info else BDone)
  | BReserve info =>
      match reserve ans with
      | None => Return (d, BDone)
      | Some None => Panic
      | Some (Some _) =>
          let template := "/p2p/" ++ ID_String (ai_ID info) ++ "/p2p-circuit/p2p/" in
          match NewMultiaddr (template ++ ID_String self) with
          | None => Panic
          | Some relayaddr => Return (set_relay d template {| ai_ID := ai_ID info; ai_Addrs := [relayaddr] |}, BDone)
          end
      end
  | BDone => Return (d, BDone)
  end%string.

(** The goroutines of [connectBootstrapPeers] with what they share. *)
Record bootstrap := { b_disc : discovery; b_threads : list boot_pc; b_dialed : list dial }.

Definition connectBootstrapPeers (d : discovery) (bootstrapPeers : list multiaddr) : bootstrap :=
  {| b_disc := d; b_threads := BStart <$> bootstrapPeers; b_dialed := [] |}.

Definition dialed_by (pc : boot_pc) : list dial :=
  match pc with BDial _ info _ => [dial_of info] | _ => [] end.

Definition bootstrap_move (self : string) (relays : bool) (b : bootstrap) (i : nat) (ans : boot_answer)
    : outcome bootstrap :=
  match b_threads b !! i with
  | None => Return b
  | Some pc =>
      match boot_step self relays ans (b_disc b) pc with
      | Panic => Panic
      | Return (d', pc') =>
          Return {| b_disc := d'; b_threads := <[i := pc']> (b_threads b); b_dialed := b_dialed b ++ dialed_by pc |}
      end
  end.

(** A goroutine that has not returned takes a step. *)
Definition bootstrap_step (self : string) (relays : bool) (b b' : bootstrap) : Prop :=
  exists i pc ans, b_threads b !! i = Some pc /\ pc <> BDone /\ bootstrap_move self relays b i ans = Return b'.

(** [wg.Wait] returns; the error is the initial nil. *)
Definition bootstrap_done (b : bootstrap) : Prop := Forall (eq BDone) (b_threads b).

(** One goroutine alone, with the answers in order: the whole of
    [connectToBootstrap].  [None] when the answers do not suffice. *)
Fixpoint connectToBootstrap (self : string) (relays : bool) (d : discovery) (pc : boot_pc)
    (answers : list boot_answer) : option (outcome (discovery * list dial)) :=
  match pc, answers with
  | BDone, _ => Some (Return (d, []))
  | _, [] => None
  | _, ans :: rest =>
      match boot_step self relays ans d pc with
      | Panic => Some Panic
      | Return (d', pc') =>
          match connectToBootstrap self relays d' pc' rest with
          | Some (Return (d'', ds)) => Some (Return (d'', dialed_by pc ++ ds))
          | r => r
          end
      end
  end.

(** ** Peers of a topic *)

Inductive Connectedness := NotConnected | Connected_ | CanConnect | CannotConnect.

(** Both empty, or every address of the first list occurs in the second. *)
Definition compareMultiAddrs (addrs1 addrs2 : list multiaddr) : bool :=
  if (length addrs1 =? length addrs2)%nat && (length addrs1 =? 0)%nat then true
  else forallb (fun addr1 => existsb (fun addr2 => ma_Equal addr1 addr2) addrs2) addrs1.

Section Host.
Variable self : string.                    (** [host.ID()] *)
Variable Connect : dial -> bool.           (** [host.Connect], true for no error *)
Variable connectedness : string -> Connectedness.

(** Directly, or else through a relay: the dials and whether the last one succeeded. *)
Definition connectRemoteHost (d : discovery) (info : AddrInfo) : outcome (list dial * bool) :=
  if Connect (dial_of info) then Return ([dial_of info], true)
  else
    let via relayID :=
      let relay := {| d_ID := ai_ID info;
        d_Addrs := [NewMultiaddr ("/p2p/" ++ ID_String relayID ++ "/p2p-circuit/p2p/" ++ ID_String (ai_ID info))] |} in
      Return ([dial_of info; relay], Connect relay) in
    if bool_decide (ai_ID (relayBootstrap d) = "") then
      match NewMultiaddr RELAY_SRV_1 with
      | None => Panic
      | Some a =>
          match AddrInfoFromP2pAddr a with
          | None => Return ([dial_of info], false)
          | Some i => via (ai_ID i)
          end
      end
    else via (ai_ID (relayBootstrap d)).

(** The body of the loop of [nsSpecificDiscovery]. *)
Definition discover_peer (d : discovery) (info : AddrInfo) : outcome (discovery * list dial) :=
  if (length (ai_Addrs info) =? 0)%nat || bool_decide (ai_ID info = self) then Return (d, [])
  else
    match connectedness (ai_ID info) with
    | Connected_ => Return (set_discovered d, [])
    | CannotConnect => Return (d, [])
    | CanConnect => Return (d, [])
    | NotConnected =>
        match connectRemoteHost d info with
        | Panic => Panic
        | Return (ds, ok) => Return (if ok then set_discovered d else d, ds)
        end
    end.

Fixpoint discover_peers (d : discovery) (infos : list AddrInfo) : outcome (discovery * list dial) :=
  match infos with
  | [] => Return (d, [])
  | i :: infos' =>
      match discover_peer d i with
      | Panic => Panic
      | Return (d1, ds1) =>
          match discover_peers d1 infos' with
          | Panic => Panic
          | Return (d2, ds2) => Return (d2, ds1 ++ ds2)
          end
      end
  end.

Definition nsSpecificDiscovery (d : discovery) (FindPeers : string -> option (list AddrInfo)) (rendezvous : string)
    : outcome (discovery * list dial) :=
  match FindPeers rendezvous with
  | None | Some [] => Return (d, [])
  | Some infos => discover_peers (set_mesh d (Mesh_Add (mesh d) rendezvous infos)) infos
  end.

Fixpoint peerDiscovery (d : discovery) (FindPeers : string -> option (list AddrInfo)) (rendezvous : list string)
    : outcome (discovery * list dial) :=
  match rendezvous with
  | [] => Return (d, [])
  | r :: rs =>
      match nsSpecificDiscovery d FindPeers r with
      | Panic => Panic
      | Return (d1, ds1) =>
          match peerDiscovery d1 FindPeers rs with
          | Panic => Panic
          | Return (d2, ds2) => Return (d2, ds1 ++ ds2)
          end
      end
  end.

(** A peer found by mDNS. *)
Definition mdns_peer (d : discovery) (info : AddrInfo) : discovery * list dial :=
  let peerID := ID_String (ai_ID info) in
  match connections d !! peerID with
  | Some _ => (d, [])
  | None =>
      if Connect (dial_of info) then (add_connection d peerID (ai_Addrs info), [dial_of info])
      else (d, [dial_of info])
  end.

(** The peers in the order of the channel, until it is closed. *)
Fixpoint HandlemDns (d : discovery) (peerChan : list AddrInfo) : discovery * list dial :=
  match peerChan with
  | [] => (d, [])
  | i :: rest =>
      let '(d1, ds1) := mdns_peer d i in
      let '(d2, ds2) := HandlemDns d1 rest in (d2, ds1 ++ ds2)
  end.
End Host.

(** ** Streams and connections *)

Record stream := { s_Protocol : string; s_RemotePeer : string; s_RemoteMultiaddr : multiaddr; s_id : nat }.

(** What [HandleStream] changes: the table, the streams, the peer store. *)
Record stream_state := {
  st_disc : discovery; rwstreams : gmap string nat; peerstore : list AddrInfo
}.

Definition HandleStream (protocolID : string) (st : stream_state) (peerID : string) (s : stream) : stream_state :=
  if negb (bool_decide (s_Protocol s = protocolID)) then st
  else
    let remotePeerID := ID_String (s_RemotePeer s) in
    let allowNewStream :=
      match connections (st_disc st) !! remotePeerID with
      | Some addrs => negb (compareMultiAddrs addrs [s_RemoteMultiaddr s])
      | None => true
      end in
    if allowNewStream then
      let d' := add_connection (st_disc st) remotePeerID [s_RemoteMultiaddr s] in
      let streams' := <[peerID := s_id s]> (rwstreams st) in
      match NewMultiaddr (ma_String (s_RemoteMultiaddr s) ++ "/p2p/" ++ peerID) with
      | None => {| st_disc := d'; rwstreams := streams'; peerstore := peerstore st |}
      | Some maddr =>
          match AddrInfoFromP2pAddr maddr with
          | None => {| st_disc := d'; rwstreams := streams'; peerstore := peerstore st |}
          | Some info => {| st_disc := d'; rwstreams := streams'; peerstore := peerstore st ++ [info] |}
          end
      end
    else st.
End Discovery.

(** What the callbacks of a connection do, in order. *)
Inductive conn_effect := EClose | ENotify (connected : bool) | EForget.

(** [n] connections are open, the new one included. *)
Definition Connected (n : nat) : list conn_effect :=
  (if (MAX_CONN_LIMIT <? n)%nat then [EClose] else []) ++ [ENotify true].

(** [my_peer] is set once discovery runs. *)
Definition Disconnected (my_peer : bool) : list conn_effect :=
  [ENotify false] ++ (if my_peer then [EForget] else []).

(** The threads that tell the listeners of these effects. *)
Definition notifications (es : list conn_effect) : list thread :=
  omap (fun e => match e with ENotify v => Some (Notifier v NLock) | _ => None end) es.
