(* ===== verification/DiscoveryProps.v ===== *)
(** Properties of the discovery of peers: the bootstrap ends within its
    retries, which peers are dialed, and what the table of connections keeps. *)
From S2P Require Import Prelude GoLib Listeners Discovery.

Section Props.
Context `{PeerLib}.
Implicit Types d : discovery.

(** ** The bootstrap ends *)

(** Steps a goroutine has left. *)
Definition boot_left (pc : boot_pc) : nat :=
  match pc with
  | BStart _ => 14 | BDial _ _ r => 13 - r | BRecord _ _ => 2 | BReserve _ => 1 | BDone => 0
  end%nat.

(** Dials a goroutine has left. *)
Definition dials_left (pc : boot_pc) : nat :=
  match pc with BStart _ => 11 | BDial _ _ r => 11 - r | _ => 0 end%nat.

Definition boot_ok (pc : boot_pc) : Prop :=
  match pc with BDial _ _ r => (r <= 10)%nat | _ => True end.

Lemma boot_step_left self relays ans d pc d' pc' :
  boot_ok pc -> pc <> BDone -> boot_step self relays ans d pc = Return (d', pc') ->
  boot_ok pc' /\ (boot_left pc' < boot_left pc)%nat
  /\ (length (dialed_by pc) + dials_left pc' <= dials_left pc)%nat.
Proof using Type.
  intros Hok Hnd Hs. destruct pc as [a|a i r|a i|i|]; simpl in *; [| | | |done].
  - destruct (AddrInfoFromP2pAddr a) as [info|]; [|done].
    destruct (connections d !! _); simplify_eq; simpl; lia.
  - destruct (connect_ok ans); simplify_eq; simpl; [lia|].
    destruct (Nat.eqb_spec r 10); simplify_eq; simpl; lia.
  - destruct relays; simplify_eq; simpl; lia.
  - destruct (reserve ans) as [[v|]|]; simplify_eq; simpl; [|lia].
    destruct (NewMultiaddr _); simplify_eq; simpl; lia.
Qed.

Definition total_left (b : bootstrap) : nat := sum_list_with boot_left (b_threads b).
Definition total_dials (b : bootstrap) : nat :=
  (length (b_dialed b) + sum_list_with dials_left (b_threads b))%nat.

Lemma bootstrap_step_left self relays b b' :
  Forall boot_ok (b_threads b) -> bootstrap_step self relays b b' ->
  Forall boot_ok (b_threads b') /\ (total_left b' < total_left b)%nat /\ (total_dials b' <= total_dials b)%nat.
Proof using Type.
  intros Hok (i & pc & ans & Hi & Hnd & Hm). unfold bootstrap_move in Hm. rewrite Hi in Hm.
  destruct (boot_step self relays ans (b_disc b) pc) as [[d' pc']|] eqn:E; [|done]. simplify_eq.
  destruct (boot_step_left _ _ _ _ _ _ _ (Forall_lookup_1 _ _ _ _ Hok Hi) Hnd E) as (H1 & H2 & H3).
  unfold total_left, total_dials. simpl.
  pose proof (sum_list_with_moved boot_left _ _ _ pc' Hi).
  pose proof (sum_list_with_moved dials_left _ _ _ pc' Hi).
  split_and!; [by apply Forall_insert|lia|]. rewrite length_app. lia.
Qed.

Lemma bootstrap_run_left self relays n b b' :
  Forall boot_ok (b_threads b) -> nsteps (bootstrap_step self relays) n b b' ->
  Forall boot_ok (b_threads b') /\ (n + total_left b' <= total_left b)%nat /\ (total_dials b' <= total_dials b)%nat.
Proof using Type.
  intros Hok Hr. revert Hok. induction Hr as [|n b0 b1 b2 H1 H2 IH]; intros Hok; [done|].
  destruct (bootstrap_step_left _ _ _ _ Hok H1) as (Hok' & Hl & Hd).
  destruct (IH Hok') as (? & ? & ?). split_and!; [done|lia|lia].
Qed.

Lemma start_left d addrs :
  Forall boot_ok (b_threads (connectBootstrapPeers d addrs)) /\
  total_left (connectBootstrapPeers d addrs) = (14 * length addrs)%nat /\
  total_dials (connectBootstrapPeers d addrs) = (11 * length addrs)%nat.
Proof using Type.
  unfold total_left, total_dials. split; [simpl; by apply Forall_fmap, Forall_true|].
  assert (forall f k, (forall a : multiaddr, f (BStart a) = k) ->
    sum_list_with f (BStart <$> addrs) = (k * length addrs)%nat) as Hsum.
  { intros f k Hf. induction addrs as [|a addrs IH]; [simpl; lia|]. rewrite fmap_cons. simpl. rewrite Hf, IH. lia. }
  split; [exact (Hsum boot_left 14%nat (fun _ => eq_refl))|exact (Hsum dials_left 11%nat (fun _ => eq_refl))].
Qed.

(** The goroutines that have not started have addresses that can be parsed. *)
Definition startable (pc : boot_pc) : Prop :=
  match pc with BStart a => is_Some (AddrInfoFromP2pAddr a) | _ => True end.

Lemma boot_step_startable self relays ans d pc d' pc' :
  boot_step self relays ans d pc = Return (d', pc') -> startable pc'.
Proof using Type.
  destruct pc; simpl; intros Hs; repeat case_match; simplify_eq; try done; by destruct relays.
Qed.

Lemma bootstrap_run_startable self relays n b b' :
  Forall startable (b_threads b) -> nsteps (bootstrap_step self relays) n b b' -> Forall startable (b_threads b').
Proof using Type.
  intros Hok Hr. revert Hok. induction Hr as [|n b0 b1 b2 (i & pc & ans & Hi & _ & Hm) H2 IH]; intros Hok; [done|].
  apply IH. unfold bootstrap_move in Hm. rewrite Hi in Hm.
  destruct (boot_step self relays ans (b_disc b0) pc) as [[d' pc']|] eqn:E; [|done]. simplify_eq. simpl.
  apply Forall_insert; [done|]. by eapply boot_step_startable.
Qed.

(** The network does not answer. *)
Definition silence : boot_answer := {| connect_ok := false; reserve := None |}.

Lemma boot_step_silence self relays d pc :
  startable pc -> exists r, boot_step self relays silence d pc = Return r.
Proof using Type.
  destruct pc as [a|a i r|a i|i|]; simpl; intros Hs; eauto.
  - destruct Hs as [info ->]. destruct (connections d !! _); eauto.
  - destruct (r =? 10)%nat; eauto.
Qed.

Lemma not_done_dec (ts : list boot_pc) : Forall (eq BDone) ts \/ exists i pc, ts !! i = Some pc /\ pc <> BDone.
Proof using Type.
  induction ts as [|t ts [IH|(i & pc & Hi & Hp)]]; [by left| |].
  - destruct t; [right; by exists 0%nat; eexists..|left; by constructor].
  - right. by exists (S i), pc.
Qed.

(** C39: Connecting to the bootstrap peers ends. With addresses that can be parsed,
    in every interleaving of the goroutines and whatever the network answers,
    at most 14 steps are taken and 11 dials made for each address, and as long
    as a goroutine has not returned one of them can go on, even if nothing
    answers. *)
Theorem bootstrap_ends self relays d addrs n b :
  Forall (fun a => is_Some (AddrInfoFromP2pAddr a)) addrs ->
  nsteps (bootstrap_step self relays) n (connectBootstrapPeers d addrs) b ->
  (n <= 14 * length addrs)%nat /\ (length (b_dialed b) <= 11 * length addrs)%nat /\
  (bootstrap_done b \/ exists b', bootstrap_step self relays b b').
Proof using Type.
  intros Hp Hr. destruct (start_left d addrs) as (Hok & Hl & Hd).
  destruct (bootstrap_run_left _ _ _ _ _ Hok Hr) as (_ & Hl' & Hd').
  split_and!; [lia|unfold total_dials in Hd' at 1; lia|].
  destruct (not_done_dec (b_threads b)) as [Hdone|(i & pc & Hi & Hpc)]; [by left|]. right.
  assert (Forall startable (b_threads b)) as Hst.
  { eapply bootstrap_run_startable; [|done]. simpl. by apply Forall_fmap. }
  destruct (boot_step_silence self relays (b_disc b) pc (Forall_lookup_1 _ _ _ _ Hst Hi)) as [[d' pc'] E].
  eexists. exists i, pc, silence. split_and!; [done..|]. unfold bootstrap_move. by rewrite Hi, E.
Qed.

(** ** One bootstrap peer *)

Lemma connectToBootstrap_done self relays d answers :
  connectToBootstrap self relays d BDone answers = Some (Return (d, [])).
Proof using Type. by destruct answers. Qed.

Lemma connectToBootstrap_failing self relays d addr info fails rest k :
  (k + length fails <= 10)%nat -> Forall (fun a => connect_ok a = false) fails ->
  connectToBootstrap self relays d (BDial addr info k) (fails ++ rest)
  = match connectToBootstrap self relays d (BDial addr info (k + length fails)) rest with
    | Some (Return (d', ds)) => Some (Return (d', replicate (length fails) (dial_of info) ++ ds))
    | r => r
    end.
Proof using Type.
  intros Hk Hf. revert k Hk. induction Hf as [|a fails Ha Hf IH]; intros k Hk; simpl in *.
  - rewrite Nat.add_0_r. by destruct (connectToBootstrap _ _ _ _ _) as [[[? ?]|]|].
  - rewrite Ha. destruct (Nat.eqb_spec k 10); [lia|]. rewrite IH by lia.
    replace (S k + length fails)%nat with (k + S (length fails))%nat by lia.
    by destruct (connectToBootstrap _ _ _ _ _) as [[[? ?]|]|].
Qed.

(** What connecting to one bootstrap peer does. A peer that is recorded is not
    dialed. Another one is dialed until it answers: when it answers within
    eleven dials its address is recorded, and a reservation at it makes it the
    relay; when it does not, nothing changes. *)
Theorem connectToBootstrap_spec self d addr info a0 fails ok a1 a2 rest :
  AddrInfoFromP2pAddr addr = Some info ->
  Forall (fun a => connect_ok a = false) fails -> connect_ok ok = true ->
  let key := ID_String (ai_ID info) in
  (forall relays l, connections d !! key = Some l ->
     connectToBootstrap self relays d (BStart addr) (a0 :: rest) = Some (Return (d, []))) /\
  (connections d !! key = None ->
     (forall relays, length fails = 11%nat ->
        connectToBootstrap self relays d (BStart addr) (a0 :: fails ++ rest)
        = Some (Return (d, replicate 11 (dial_of info)))) /\
     ((length fails <= 10)%nat ->
        let d1 := add_connection d key [addr] in
        let dials := replicate (S (length fails)) (dial_of info) in
        connectToBootstrap self false d (BStart addr) (a0 :: fails ++ ok :: a1 :: rest) = Some (Return (d1, dials)) /\
        connectToBootstrap self true d (BStart addr) (a0 :: fails ++ ok :: a1 :: a2 :: rest) =
          match reserve a2 with
          | None => Some (Return (d1, dials))
          | Some None => Some Panic
          | Some (Some _) =>
              let template := ("/p2p/" ++ key ++ "/p2p-circuit/p2p/")%string in
              match NewMultiaddr (template ++ ID_String self)%string with
              | None => Some Panic
              | Some ra => Some (Return (set_relay d1 template {| ai_ID := ai_ID info; ai_Addrs := [ra] |}, dials))
              end
          end)).
Proof using Type.
  intros Hp Hf Hok key. split.
  - intros relays l Hl. simpl. rewrite Hp. unfold key in Hl. by rewrite Hl, connectToBootstrap_done.
  - intros Hnone. unfold key in Hnone. split.
    + intros relays Hlen. destruct (exists_last (l := fails)) as (fs & f & ->); [by intros ->|].
      rewrite length_app in Hlen. simpl in Hlen. apply Forall_app in Hf as [Hfs Hf]. inversion_clear Hf as [|? ? Hff _].
      simpl. rewrite Hp, Hnone, <- (assoc_L (++)), connectToBootstrap_failing by (done || lia). simpl.
      replace (length fs) with 10%nat by lia. rewrite Hff. simpl. by rewrite connectToBootstrap_done.
    + intros Hlen d1 dials.
      assert (dials = replicate (length fails) (dial_of info) ++ [dial_of info]) as ->
        by (unfold dials; by rewrite replicate_S_end).
      simpl. rewrite Hp, Hnone, !connectToBootstrap_failing by (done || lia). simpl. rewrite Hok. simpl.
      rewrite connectToBootstrap_done. split; [done|].
      destruct (reserve a2) as [[v|]|]; [|done|by rewrite connectToBootstrap_done].
      destruct (NewMultiaddr _); [by rewrite connectToBootstrap_done|done].
Qed.

(** ** Peers of a topic *)

Section Host.
Variable self : string.
Variable Connect : dial -> bool.
Variable connectedness : string -> Connectedness.

(** A relay is known, or the address of the static one can be parsed. *)
Definition relay_known (d : discovery) : Prop :=
  ai_ID (relayBootstrap d) <> "" \/ is_Some (NewMultiaddr RELAY_SRV_1).

(** A peer that the loop considers, with how the host is connected to it. *)
Definition found_as (c : Connectedness) (info : AddrInfo) : Prop :=
  ai_Addrs info <> [] /\ ai_ID info <> self /\ connectedness (ai_ID info) = c.

Lemma connectRemoteHost_spec d info :
  relay_known d ->
  exists ds ok, connectRemoteHost Connect d info = Return (ds, ok) /\
    ds <> [] /\ Forall (fun x => d_ID x = ai_ID info) ds /\
    (ok = true <-> exists x, x ∈ ds /\ Connect x = true).
Proof using Type.
  clear self connectedness. intros Hr. unfold connectRemoteHost. destruct (Connect (dial_of info)) eqn:E.
  { do 2 eexists. split_and!; [done..|by repeat constructor|]. split; [|done]. intros _. exists (dial_of info). set_solver. }
  assert (forall r, d_ID r = ai_ID info -> exists ds ok, Return ([dial_of info; r], Connect r) = Return (ds, ok) /\
    ds <> [] /\ Forall (fun x => d_ID x = ai_ID info) ds /\ (ok = true <-> exists x, x ∈ ds /\ Connect x = true)) as Hvia.
  { intros r Hid. do 2 eexists. split_and!; [done..|by repeat constructor|].
    split; [intros; exists r; set_solver|].
    intros (x & [-> | ->%list_elem_of_singleton]%elem_of_cons & Hx); congruence. }
  case_bool_decide as Hb; [|by apply Hvia].
  destruct Hr as [|[a Ha]]; [done|]. rewrite Ha.
  destruct (AddrInfoFromP2pAddr a); [by apply Hvia|].
  do 2 eexists. split_and!; [done..|by repeat constructor|]. split; [done|].
  intros (x & ->%list_elem_of_singleton & Hx). congruence.
Qed.

Lemma discover_peer_spec d info :
  relay_known d ->
  exists d' ds, discover_peer self Connect connectedness d info = Return (d', ds) /\
    (d' = d \/ d' = set_discovered d) /\
    (forall id, id ∈ d_ID <$> ds <-> ai_ID info = id /\ found_as NotConnected info) /\
    (peer_discovered d' = true <->
       peer_discovered d = true \/ found_as Connected_ info \/ exists x, x ∈ ds /\ Connect x = true).
Proof using Type.
  intros Hr. unfold discover_peer, found_as.
  destruct ((length (ai_Addrs info) =? 0)%nat || bool_decide (ai_ID info = self)) eqn:Eskip.
  - do 2 eexists. split; [done|]. split; [by left|].
    apply orb_true_iff in Eskip as [Hz%Nat.eqb_eq%length_zero_iff_nil | Hs%bool_decide_eq_true]; set_solver.
  - apply orb_false_iff in Eskip as [Hz%Nat.eqb_neq Hs%bool_decide_eq_false].
    assert (ai_Addrs info <> []) as Hne by (by destruct (ai_Addrs info)).
    destruct (connectedness (ai_ID info)) eqn:Ec; [| do 2 eexists; split; [done|]; split; [auto|]; set_solver..].
    destruct (connectRemoteHost_spec d info Hr) as (ds & ok & -> & Hds & Hall & Hok).
    do 2 eexists. split; [done|]. split; [destruct ok; auto|]. split.
    + intros id. rewrite list_elem_of_fmap. rewrite Forall_forall in Hall. split.
      * intros (x & -> & Hx). by rewrite (Hall x Hx).
      * intros [<- _]. destruct ds as [|x ds]; [done|]. exists x. split; [|set_solver]. symmetry. apply Hall. set_solver.
    + destruct ok; simpl; naive_solver.
Qed.

Lemma discover_peers_spec infos d :
  relay_known d ->
  exists d' ds, discover_peers self Connect connectedness d infos = Return (d', ds) /\
    (d' = d \/ d' = set_discovered d) /\
    (forall id, id ∈ d_ID <$> ds <-> exists info, info ∈ infos /\ ai_ID info = id /\ found_as NotConnected info) /\
    (peer_discovered d' = true <->
       peer_discovered d = true \/ (exists info, info ∈ infos /\ found_as Connected_ info) \/
       exists x, x ∈ ds /\ Connect x = true).
Proof using Type.
  revert d. induction infos as [|i infos IH]; intros d Hr; simpl.
  - do 2 eexists. split; [done|]. split; [by left|]. set_solver.
  - destruct (discover_peer_spec d i Hr) as (d1 & ds1 & -> & H1 & H2 & H3).
    assert (relay_known d1) as Hr1 by (by destruct H1 as [-> | ->]).
    destruct (IH d1 Hr1) as (d2 & ds2 & -> & H4 & H5 & H6).
    do 2 eexists. split; [done|]. split; [destruct H1 as [-> | ->], H4 as [-> | ->]; auto|]. split.
    + intros id. rewrite fmap_app, elem_of_app, H2, H5. clear. setoid_rewrite elem_of_cons. split.
      * intros [[? ?]|(i' & ? & ? & ?)]; eauto 8.
      * intros (i' & [-> |?] & ? & ?); eauto 8.
    + rewrite H6, H3. clear. setoid_rewrite elem_of_app. setoid_rewrite elem_of_cons. split.
      * intros [[?|[?|(x & ? & ?)]]|[(i' & ? & ?)|(x & ? & ?)]]; eauto 8.
      * intros [?|[(i' & [-> |?] & ?)|(x & [?|?] & ?)]]; eauto 8.
Qed.

(** C40: The peers of a topic that get dialed. When a search for the topic finds
    peers, they become the mesh of the topic, and the peers that are dialed
    are exactly those with an address, other than the host itself, that the
    host counts as not connected; a peer it could connect to is not among
    them. The flag for the start-up is set exactly when a peer of the topic is
    connected or one of the dials succeeds, and no connection is recorded. *)
Theorem discovery_dials_unconnected d FindPeers topic infos :
  relay_known d -> FindPeers topic = Some infos -> infos <> [] ->
  exists d' ds, nsSpecificDiscovery self Connect connectedness d FindPeers topic = Return (d', ds) /\
    mesh d' = <[topic := infos]> (mesh d) /\ connections d' = connections d /\
    (forall id, id ∈ d_ID <$> ds <-> exists info, info ∈ infos /\ ai_ID info = id /\ found_as NotConnected info) /\
    (peer_discovered d' = true <->
       peer_discovered d = true \/ (exists info, info ∈ infos /\ found_as Connected_ info) \/
       exists x, x ∈ ds /\ Connect x = true).
Proof using Type.
  intros Hr Hf Hne. unfold nsSpecificDiscovery. rewrite Hf. destruct infos as [|i0 infos]; [done|].
  destruct (discover_peers_spec (i0 :: infos) (set_mesh d (Mesh_Add (mesh d) topic (i0 :: infos)))) as (d' & ds & -> & H1 & H2 & H3);
    [done|].
  exists d', ds. split; [done|]. by destruct H1 as [-> | ->].
Qed.

End Host.

(** ** Peers of the local network *)

Definition recorded (d : discovery) (id : string) : Prop := is_Some (connections d !! ID_String id).

Lemma recorded_added d id addrs id' :
  recorded (add_connection d (ID_String id) addrs) id' <-> recorded d id' \/ id' = id.
Proof using Type.
  unfold recorded. simpl. destruct (decide (id' = id)) as [->|Hne].
  - rewrite lookup_insert_eq. naive_solver.
  - rewrite lookup_insert_ne; [naive_solver|]. intros Heq%ID_String_inj. congruence.
Qed.

(** Peers of the local network are dialed until they answer, once. In any
    sequence of peers that mDNS finds, a peer that is recorded is not dialed;
    one that is not is dialed as often as it is found until a dial succeeds,
    and after that never again, whatever happens to the connection. The peers
    recorded in the end are those recorded before and those that answered. *)
Theorem HandlemDns_dials Connect infos d d' ds :
  HandlemDns Connect d infos = (d', ds) ->
  (forall id, recorded d id -> id ∉ d_ID <$> ds) /\
  (forall id, recorded d' id <-> recorded d id \/ exists x, x ∈ ds /\ d_ID x = id /\ Connect x = true) /\
  (forall id, ~ recorded d' id -> filter (fun x => d_ID x = id) ds = dial_of <$> filter (fun i => ai_ID i = id) infos) /\
  (forall i x, ds !! i = Some x -> Connect x = true -> d_ID x ∉ d_ID <$> drop (S i) ds).
Proof using Type.
  revert d d' ds. induction infos as [|info infos IH]; intros d d' ds Hm; simpl in Hm.
  { simplify_eq. split_and!; try done; set_solver. }
  destruct (mdns_peer Connect d info) as [d1 ds1] eqn:E1.
  destruct (HandlemDns Connect d1 infos) as [d2 ds2] eqn:E2. simplify_eq.
  destruct (IH _ _ _ E2) as (H1 & H2 & H3 & H4). unfold mdns_peer in E1.
  destruct (connections d !! ID_String (ai_ID info)) eqn:Ec.
  { simplify_eq. simpl. split_and!; [done..| |done]. intros id Hn. rewrite filter_cons_False; [by apply H3|].
    intros <-. apply Hn, H2. left. by eexists. }
  assert (~ recorded d (ai_ID info)) as Hnew by (unfold recorded; rewrite Ec; by intros [? ?]).
  destruct (Connect (dial_of info)) eqn:Eok; simplify_eq; simpl.
  - split_and!.
    + intros id Hid [-> |Hin]%elem_of_cons; [done|]. apply (H1 id); [|done]. apply recorded_added. by left.
    + intros id. rewrite H2, recorded_added. setoid_rewrite elem_of_cons. split.
      * intros [[?| ->]|(x & ? & ?)]; eauto 6.
      * intros [?|(x & [-> |?] & <- & ?)]; eauto 6.
    + intros id Hn. assert (ai_ID info <> id) as Hne.
      { intros <-. apply Hn, H2. left. apply recorded_added. by right. }
      rewrite !filter_cons_False by done. by apply H3.
    + intros [|i] x Hx Hok; simplify_eq/=; [|by apply (H4 i)]. rewrite drop_0. apply H1, recorded_added. by right.
  - split_and!.
    + intros id Hid [-> |Hin]%elem_of_cons; [done|]. by apply (H1 id).
    + intros id. rewrite H2. setoid_rewrite elem_of_cons. split.
      * intros [?|(x & ? & ?)]; eauto 6.
      * intros [?|(x & [-> |?] & ? & ?)]; [eauto|congruence|eauto 6].
    + intros id Hn. rewrite !filter_cons. simpl. destruct (decide (ai_ID info = id)); simpl; by rewrite H3.
    + intros [|i] x Hx Hok; simplify_eq/=; [congruence|by apply (H4 i)].
Qed.

(** ** The same peer twice *)

Lemma bootstrap_moved self relays b i pc ans d' pc' :
  b_threads b !! i = Some pc -> pc <> BDone -> boot_step self relays ans (b_disc b) pc = Return (d', pc') ->
  bootstrap_step self relays b
    {| b_disc := d'; b_threads := <[i := pc']> (b_threads b); b_dialed := b_dialed b ++ dialed_by pc |}.
Proof using Type. intros Hi Hn Hs. exists i, pc, ans. split_and!; [done..|]. unfold bootstrap_move. by rewrite Hi, Hs. Qed.

(** Two addresses of one bootstrap peer may both be dialed. The goroutines
    look at the table before they dial and write to it after, so both may find
    the peer missing: each then dials it and both addresses are recorded. *)
Theorem bootstrap_may_connect_twice self d a1 a2 i1 i2 :
  AddrInfoFromP2pAddr a1 = Some i1 -> AddrInfoFromP2pAddr a2 = Some i2 -> ai_ID i2 = ai_ID i1 ->
  connections d !! ID_String (ai_ID i1) = None ->
  exists b, rtc (bootstrap_step self false) (connectBootstrapPeers d [a1; a2]) b /\ bootstrap_done b /\
    b_dialed b = [dial_of i1; dial_of i2] /\ connections (b_disc b) !! ID_String (ai_ID i1) = Some [a1; a2].
Proof using Type.
  intros H1 H2 Hid Hnone. set (yes := {| connect_ok := true; reserve := None |}).
  eexists. split_and!.
  - eapply rtc_l; [eapply (bootstrap_moved _ _ _ 0%nat _ yes); [done..|simpl; by rewrite H1, Hnone]|].
    eapply rtc_l; [eapply (bootstrap_moved _ _ _ 1%nat _ yes); [done..|simpl; by rewrite H2, Hid, Hnone]|].
    eapply rtc_l; [by eapply (bootstrap_moved _ _ _ 0%nat _ yes)|].
    eapply rtc_l; [by eapply (bootstrap_moved _ _ _ 1%nat _ yes)|].
    eapply rtc_l; [by eapply (bootstrap_moved _ _ _ 0%nat _ yes)|].
    eapply rtc_l; [by eapply (bootstrap_moved _ _ _ 1%nat _ yes)|]. apply rtc_refl.
  - by repeat constructor.
  - done.
  - simpl. rewrite Hid, !lookup_insert_eq, Hnone. done.
Qed.

(** ** Streams *)

Lemma compareMultiAddrs_singleton addrs a :
  compareMultiAddrs addrs [a] = true <-> forall x, x ∈ addrs -> x = a.
Proof using Type.
  unfold compareMultiAddrs. simpl. destruct addrs as [|y addrs]; [set_solver|].
  rewrite andb_false_r, forallb_forall. setoid_rewrite <- list_elem_of_In. setoid_rewrite orb_false_r.
  by setoid_rewrite ma_Equal_spec.
Qed.

(** A stream of the protocol is taken unless every recorded address of its
    peer is the address it comes from. So once a peer has two addresses, each
    further stream from it is taken, replaces the stream that is kept and
    records its address again. *)
Theorem HandleStream_takes protocolID st peerID s addrs :
  s_Protocol s = protocolID ->
  connections (st_disc st) !! ID_String (s_RemotePeer s) = Some addrs ->
  let st' := HandleStream protocolID st peerID s in
  ((forall x, x ∈ addrs -> x = s_RemoteMultiaddr s) -> st' = st) /\
  ((exists x, x ∈ addrs /\ x <> s_RemoteMultiaddr s) ->
     rwstreams st' !! peerID = Some (s_id s) /\
     connections (st_disc st') !! ID_String (s_RemotePeer s) = Some (addrs ++ [s_RemoteMultiaddr s])).
Proof using Type.
  intros Hp Hc st'. unfold st', HandleStream. rewrite bool_decide_true by done. simpl. rewrite Hc.
  destruct (compareMultiAddrs addrs [s_RemoteMultiaddr s]) eqn:E; simpl.
  - pose proof (proj1 (compareMultiAddrs_singleton _ _) E) as E'. split; [done|]. intros (x & Hx & Hne). by destruct (Hne (E' x Hx)).
  - split.
    + intros Hall. rewrite (proj2 (compareMultiAddrs_singleton _ _) Hall) in E. done.
    + intros _. repeat case_match; simpl; by rewrite !lookup_insert_eq, Hc.
Qed.
End Props.

(** ** Concrete peers *)

(** Addresses as their transport and the identifier of the peer. *)
#[local] Instance sample_peers : PeerLib.
Proof.
  refine {| multiaddr := string * string;
    ma_Equal := fun a b => bool_decide (a = b);
    ma_String := fun a => (a.1 ++ "/p2p/" ++ a.2)%string;
    NewMultiaddr := fun s => Some (s, "relay"%string);
    ID_String := fun s => s;
    split_p2p := fun a => if bool_decide (a.2 = "") then None else Some (a.2, [(a.1, "")]) |}.
  - intros a b. apply bool_decide_eq_true.
  - done.
Defined.

Definition sample_disc : discovery :=
  {| mesh := ∅; connections := ∅; relayTemplate := ""; relayBootstrap := {| ai_ID := ""; ai_Addrs := [] |};
     bootstrapReady := false; peer_discovered := false |}.
Definition sample_at (transport id : string) : AddrInfo := {| ai_ID := id; ai_Addrs := [(transport, "")] |}.
Definition sample_info : string -> AddrInfo := sample_at "/ip4/10.0.0.1".

Lemma bootstrap_ends_witness :
  (0 <= 14 * 1)%nat /\ (0 <= 11 * 1)%nat /\
  (bootstrap_done (connectBootstrapPeers sample_disc [("/ip4/10.0.0.1", "QmA")]) \/
   exists b', bootstrap_step "QmMe" true (connectBootstrapPeers sample_disc [("/ip4/10.0.0.1", "QmA")]) b').
Proof.
  apply (bootstrap_ends "QmMe" true sample_disc [("/ip4/10.0.0.1", "QmA")] 0
    (connectBootstrapPeers sample_disc [("/ip4/10.0.0.1", "QmA")])).
  - constructor; [|constructor]. by eexists.
  - constructor.
Defined.

Lemma connectToBootstrap_spec_witness :
  connectToBootstrap "QmMe" false sample_disc (BStart ("/ip4/10.0.0.1", "QmA")) (silence :: replicate 11 silence ++ [])
  = Some (Return (sample_disc, replicate 11 (dial_of (sample_info "QmA")))).
Proof.
  destruct (connectToBootstrap_spec "QmMe" sample_disc ("/ip4/10.0.0.1", "QmA") (sample_info "QmA") silence
    (replicate 11 silence) {| connect_ok := true; reserve := None |} silence silence []) as [_ Hnew].
  - reflexivity.
  - by repeat constructor.
  - reflexivity.
  - apply Hnew; reflexivity.
Defined.

Lemma discovery_dials_unconnected_witness :
  exists d' ds, nsSpecificDiscovery "QmMe" (fun _ => true) (fun _ => NotConnected) sample_disc
    (fun _ => Some [sample_info "QmA"]) "dag" = Return (d', ds) /\ "QmA" ∈ d_ID <$> ds.
Proof.
  destruct (discovery_dials_unconnected "QmMe" (fun _ => true) (fun _ => NotConnected) sample_disc
    (fun _ => Some [sample_info "QmA"]) "dag" [sample_info "QmA"]) as (d' & ds & H1 & _ & _ & H2 & _).
  - right. by eexists.
  - reflexivity.
  - done.
  - exists d', ds. split; [exact H1|]. apply H2. exists (sample_info "QmA").
    split; [by apply list_elem_of_singleton|]. split; [done|]. by split_and!.
Defined.

Lemma HandlemDns_dials_witness :
  filter (fun x => d_ID x = "QmA") (HandlemDns (fun _ => false) sample_disc [sample_info "QmA"; sample_info "QmA"]).2
  = dial_of <$> filter (fun i => ai_ID i = "QmA") [sample_info "QmA"; sample_info "QmA"].
Proof.
  destruct (HandlemDns_dials (fun _ => false) [sample_info "QmA"; sample_info "QmA"] sample_disc _ _ eq_refl)
    as (_ & _ & H & _).
  apply H. by intros [? ?].
Defined.

Lemma HandleStream_takes_witness :
  let s := {| s_Protocol := "p"; s_RemotePeer := "QmA"; s_RemoteMultiaddr := ("a", ""); s_id := 3 |} in
  connections (st_disc (HandleStream "p" {| st_disc := add_connection sample_disc "QmA" [("a", ""); ("b", "")];
    rwstreams := ∅; peerstore := [] |} "QmA" s)) !! "QmA" = Some [("a", ""); ("b", ""); ("a", "")].
Proof.
  intros s. refine (proj2 (proj2 (HandleStream_takes "p" {| st_disc := add_connection sample_disc "QmA" [("a", ""); ("b", "")];
    rwstreams := ∅; peerstore := [] |} "QmA" s [("a", ""); ("b", "")] eq_refl eq_refl) _)).
  exists ("b", ""). split; [|done]. apply list_elem_of_further, list_elem_of_here.
Defined.

Lemma bootstrap_may_connect_twice_witness :
  exists b, rtc (bootstrap_step "QmMe" false)
    (connectBootstrapPeers sample_disc [("/ip4/10.0.0.1", "QmA"); ("/ip4/10.0.0.2", "QmA")]) b /\
    length (b_dialed b) = 2%nat.
Proof.
  destruct (bootstrap_may_connect_twice "QmMe" sample_disc ("/ip4/10.0.0.1", "QmA") ("/ip4/10.0.0.2", "QmA")
    (sample_info "QmA") (sample_at "/ip4/10.0.0.2" "QmA")) as (b & Hr & _ & Hd & _); [reflexivity..|].
  exists b. split; [exact Hr|]. by rewrite Hd.
Defined.

(** A connection over the limit is closed, and its listeners are told of it as
    of any other. *)
Lemma refused_connection_is_announced n :
  (MAX_CONN_LIMIT < n)%nat -> Connected n = [EClose; ENotify true] /\ notifications (Connected n) = notifications (Connected 1).
Proof. intros Hn. unfold Connected. destruct (Nat.ltb_spec MAX_CONN_LIMIT n); [done|lia]. Qed.
