(* ===== verification/Startup.v ===== *)
(** The start of a peer: the activation of a leader ([run/activation.go], with
    the tool that makes the activation file, [cmd/secret/main.go]), the
    configuration ([run/gearup.go], [config/config.go]) and the relays of the
    host ([peer/peer.go]).

    AES, scrypt, base64 and the message format are [ActivationLib]; random
    bytes, the contents of files and the loaded configuration are arguments. *)
From S2P Require Import Prelude GoLib Bytes Tx Storage Keys Listeners Discovery.

(** ** Activation *)

Record pb_Secret := { sec_Id : string; sec_Ico : bytes; sec_Sign : bytes }.

Class ActivationLib := {
  b64_EncodeToString : bytes -> string;
  b64_DecodeString : string -> option bytes;
  scrypt_Key : string -> bytes -> bytes;
  cfb_Encrypt : bytes -> bytes -> bytes -> bytes;     (** key, initial vector, text *)
  cfb_Decrypt : bytes -> bytes -> bytes -> bytes;
  proto_Marshal_Secret : pb_Secret -> option bytes;
  (** what the message holds afterwards; the error is ignored *)
  proto_Unmarshal_Secret : bytes -> pb_Secret;
  b64_Decode_Encode : forall b, b64_DecodeString (b64_EncodeToString b) = Some b;
  scrypt_length : forall p s, length (scrypt_Key p s) = 32%nat;
  cfb_Decrypt_Encrypt : forall k iv m, cfb_Decrypt k iv (cfb_Encrypt k iv m) = m;
  Secret_Unmarshal_Marshal : forall m b, proto_Marshal_Secret m = Some b -> proto_Unmarshal_Secret b = m
}.

Definition ACTIVATION_OK : Z := 16.
Definition USE_ACTIVATION : bool := false.
Definition aes_BlockSize : nat := 16.

(** The keys that [aes.NewCipher] takes. *)
Definition aes_key (k : bytes) : bool :=
  (length k =? 16)%nat || (length k =? 24)%nat || (length k =? 32)%nat.

Section Activation.
Context `{CryptoLib} `{ActivationLib}.

Definition unsigned (m : pb_Secret) : pb_Secret :=
  {| sec_Id := sec_Id m; sec_Ico := sec_Ico m; sec_Sign := [] |}.

Definition marshalled (m : pb_Secret) : bytes := default [] (proto_Marshal_Secret m).

(** The tool: the secret key and the activation file, or [None] when it exits
    without one.  A seed that is not 32 bytes long panics. *)
Definition secret_main (ico_value leader_id leader_pk : string) (secret_seed salt iv : bytes)
    : outcome (option (string * bytes)) :=
  if bool_decide (leader_id = "") || bool_decide (leader_pk = "") then Return None
  else
    match ParsePrivateKey leader_pk, dec_Parse ico_value with
    | None, _ | _, None => Return None
    | Some pk, Some ico =>
        if ico <=? 0 then Return None
        else
          let dk := scrypt_Key (b64_EncodeToString secret_seed) salt in
          let secret := {| sec_Id := leader_id; sec_Ico := Bytes ico; sec_Sign := [] |} in
          let msg := marshalled secret in
          if negb (length pk =? 32)%nat then Panic
          else
            let signature := ed25519_Sign pk msg in
            let z := ed25519_Public pk in
            if negb (ed25519_Verify z msg signature) then Return None
            else
              let msg := marshalled {| sec_Id := leader_id; sec_Ico := Bytes ico; sec_Sign := signature |} in
              if negb (aes_key dk) then Panic
              else
                let ciphertext := iv ++ cfb_Encrypt dk iv msg in
                let payload := proto_Unmarshal_Secret (cfb_Decrypt dk iv (drop aes_BlockSize ciphertext)) in
                if negb (ed25519_Verify z (marshalled (unsigned payload)) signature) then Return None
                else Return (Some (b64_EncodeToString dk, ciphertext))
    end.

(** The proof of activation: sixteen bits set, in shuffled bytes. *)
Definition act_buf : bytes := [xc3; xb4; xf0; xa5] ++ replicate 60 x00.

Variable shuffle : bytes -> bytes.     (** [rng.Shuffle] *)

(** [ProcessActivation.validate]; [None] is an error. *)
Definition ProcessActivation_validate (act : bytes) (secret : string) (privatekey peer_id : string) : outcome (option bytes) :=
  match b64_DecodeString secret with
  | None => Return None
  | Some dk =>
      if negb (aes_key dk) then Panic
      else if (length act <? aes_BlockSize)%nat then Panic
      else
        let iv := take aes_BlockSize act in
        let payload := proto_Unmarshal_Secret (cfb_Decrypt dk iv (drop aes_BlockSize act)) in
        if (length (sec_Ico payload) =? 0)%nat || bool_decide (sec_Id payload = "")
           || (length (sec_Sign payload) =? 0)%nat then Return None
        else
          match ParsePrivateKey privatekey with
          | None => Return None
          | Some pk =>
              if negb (length pk =? 32)%nat then Panic
              else if negb (ed25519_Verify (ed25519_Public pk) (marshalled (unsigned payload)) (sec_Sign payload))
              then Return None
              else if negb (bool_decide (sec_Id payload = peer_id)) then Return None
              else Return (Some (shuffle act_buf))
          end
  end.

(** [ProcessActivation.process] with the flags of the host: the proof to keep,
    [inl None] when there is nothing to do, [inr] an error. *)
Definition process (use leader : bool) (activation secret privatekey peer_id : string)
    (ReadFile : string -> option bytes) : outcome (option bytes + unit) :=
  if negb use then Return (inl None)
  else if negb leader then Return (inl None)
  else if bool_decide (activation = "") then Return (inr tt)
  else
    match ReadFile activation with
    | None => Return (inr tt)
    | Some act =>
        let! r := ProcessActivation_validate act secret privatekey peer_id in
        Return (match r with None => inr tt | Some p => inl (Some p) end)
    end.
End Activation.

Definition bit_count (b : byte) : Z :=
  fold_left (fun z y => z + Z.land (Z.shiftr (byte_to_Z b) y) 1) (map Z.of_nat (seq 0 8)) 0.

(** [validateActivation]: the first 64 bytes are read. *)
Definition validateActivation (use leader : bool) (check : bytes) : outcome bool :=
  if negb use then Return true
  else if negb leader then Return true
  else if (length check =? 0)%nat then Return false
  else if (length check <? 64)%nat then Panic
  else Return (to_uint64 (fold_left (fun z x => z + bit_count x) (take 64 check) 0) =? ACTIVATION_OK).

(** ** Configuration *)

(** The flags that [GearUpConfig] reads. *)
Record HostConfig := {
  help : bool; PeerID : string; Home : bool; Port : Z; hc_VmServerPort : Z; hc_StateServerPort : Z;
  hc_NodeType : Z; hc_SnapshotSync : bool; hc_Grpc : bool; hc_Grpcport : Z; hc_Leader : bool; hc_Apiport : Z;
  hc_Purge : bool
}.

(** The part of the loaded configuration that they change. *)
Record PeerConfiguration := {
  pc_Id : string; pc_VmServerPort : Z; pc_StateServerPort : Z; pc_NodeType : Z; pc_SnapshotSync : bool;
  pc_Grpc : bool; pc_Grpcport : Z; pc_Leader : bool; pc_Apiport : Z; pc_Purge : Z
}.

Inductive gear := Exit | Configured (c : PeerConfiguration).

(** A configuration that was not loaded is a nil pointer, which the code reads. *)
Definition GearUpConfig (cfg : HostConfig) (loaded : option PeerConfiguration) : outcome gear :=
  if help cfg || bool_decide (PeerID cfg = "") then Return Exit
  else if Home cfg && (Port cfg <? 1023) then Return Exit
  else
    match loaded with
    | None => Panic
    | Some c =>
        let state := if (1023 <? hc_StateServerPort cfg) && (hc_StateServerPort cfg <=? 65535)
                     then hc_StateServerPort cfg else pc_StateServerPort c in
        Return (Configured {|
          pc_Id := PeerID cfg;
          pc_VmServerPort := if (1023 <? hc_VmServerPort cfg) && (hc_VmServerPort cfg <=? 65535)
                             then hc_VmServerPort cfg else pc_VmServerPort c;
          pc_StateServerPort := if (1023 <? hc_VmServerPort cfg) && (hc_VmServerPort cfg <? 65535)
                                then hc_VmServerPort cfg else state;
          pc_NodeType := if 0 <? hc_NodeType cfg then hc_NodeType cfg else pc_NodeType c;
          pc_SnapshotSync := hc_SnapshotSync cfg || pc_SnapshotSync c;
          pc_Grpc := hc_Grpc cfg || pc_Grpc c;
          pc_Grpcport := if 1023 <? hc_Grpcport cfg then hc_Grpcport cfg else pc_Grpcport c;
          pc_Leader := hc_Leader cfg || pc_Leader c;
          pc_Apiport := if 1023 <? hc_Apiport cfg then hc_Apiport cfg else pc_Apiport c;
          pc_Purge := if hc_Purge cfg then 1 else pc_Purge c |})
    end.

(** [ConfigProcessor.Process]: an error panics; [false] is one. *)
Fixpoint ConfigProcessor_Process {A} (handlers : list (A -> outcome bool)) (c : A) : outcome unit :=
  match handlers with
  | [] => Return tt
  | h :: rest => let! ok := h c in if ok then ConfigProcessor_Process rest c else Panic
  end.

(** ** Bootstrap peers and relays *)

(** [strings.Trim] with a set of characters. *)
Fixpoint TrimLeft (cut : list ascii) (s : string) : string :=
  match s with
  | EmptyString => ""
  | String a s' => if existsb (Ascii.eqb a) cut then TrimLeft cut s' else s
  end.

Fixpoint TrimRight (cut : list ascii) (s : string) : string :=
  match s with
  | EmptyString => ""
  | String a s' =>
      match TrimRight cut s' with
      | EmptyString => if existsb (Ascii.eqb a) cut then "" else String a ""
      | t => String a t
      end
  end.

Definition Trim (cut : list ascii) (s : string) : string := TrimRight cut (TrimLeft cut s).

Definition PRE_RENDEZVOUS_ID : string := "/GrapeOne/43312633-80cf-429d-bc92-a17ca501aa5b".
Definition PRE_DAGSYNC_ID : string := "/dagsync/0.0.1".

(** The topics that [ParseCliArgs] sets. *)
Definition RENDEZVOUS (rendezvous : string) : list string :=
  [(PRE_RENDEZVOUS_ID ++ "/" ++ rendezvous)%string; (PRE_DAGSYNC_ID ++ "/" ++ rendezvous)%string].

(** A value of the bootstrap file; the file is an object, or something else. *)
Inductive bootstrap_file := NoFile | NotObject | Object (payload : gmap string (option string)).

Definition RELAY_SRV_2 : string :=
  "/dns4/bootstrap2/udp/43431/quic-v1/p2p/12D3KooWQYaGFAHo5zSsJR4Sgdpv9AoCWU9y6aTdAvmVjg6rcmzf".

Section Peers.
Context `{PeerLib} `{MapRange}.

(** The flag with the bootstrap nodes in [ParseCliArgs]; an address that cannot be parsed is skipped. *)
Definition bootstrap_flag (bs_peers : string) : list multiaddr :=
  if bool_decide (bs_peers = "") then []
  else omap (fun p => NewMultiaddr (Trim [" "; "009"; "010"]%char p)) (Split bs_peers ",").

Definition LoadBootstrap (file : bootstrap_file) : list multiaddr :=
  match file with
  | NoFile | NotObject => []
  | Object payload =>
      omap (fun p => match snd p with None => None | Some v => NewMultiaddr v end) (map_range payload)
  end.

(** The list that [PeerDHT] connects to. *)
Definition bootstrap_list (flag : list multiaddr) (file : bootstrap_file) : list multiaddr :=
  match flag with [] => LoadBootstrap file | _ => flag end.
End Peers.

(** [seen] and [candidates] of [getRelayCandidates]. *)
Definition add_candidate (st : gset string * list string) (relay : string) : gset string * list string :=
  let '(seen, candidates) := st in
  if decide (relay ∈ seen) then st else ({[relay]} ∪ seen, candidates ++ [relay]).

Definition getRelayCandidates (bootstrap_peers : list string) : list string :=
  let st := fold_left (fun st relay => if (String.length relay =? 0)%nat then st else add_candidate st relay)
              bootstrap_peers (∅, []) in
  snd (fold_left add_candidate [RELAY_SRV_1; RELAY_SRV_2] st).
