(* ===== verification/StartupProps.v ===== *)
(** Properties of the start of a peer: the activation file is accepted by the
    peer it was made for, what the flags configure, and the relays. *)
From S2P Require Import Prelude GoLib Bytes Tx Storage Keys Listeners Discovery Startup.

(** ** The proof of activation *)

Definition total_bits (b : bytes) : Z := fold_left (fun z x => z + bit_count x) b 0.

Lemma total_bits_acc b z : fold_left (fun z x => z + bit_count x) b z = z + total_bits b.
Proof.
  unfold total_bits. revert z. induction b as [|x b IH]; intros z; simpl; [lia|].
  rewrite IH, (IH (0 + bit_count x)). lia.
Qed.

Lemma total_bits_cons x b : total_bits (x :: b) = bit_count x + total_bits b.
Proof. unfold total_bits at 1. simpl. apply total_bits_acc. Qed.

#[local] Instance total_bits_perm : Proper ((≡ₚ) ==> eq) total_bits.
Proof. intros b b'. induction 1; rewrite ?total_bits_cons; lia. Qed.

(** Shuffling the bytes keeps the proof valid. *)
Lemma shuffled_activation shuffle :
  shuffle act_buf ≡ₚ act_buf -> validateActivation true true (shuffle act_buf) = Return true.
Proof.
  intros Hp. assert (length (shuffle act_buf) = 64%nat) as Hlen by (by rewrite Hp).
  unfold validateActivation. rewrite Hlen. simpl. f_equal.
  rewrite take_ge by lia. fold (total_bits (shuffle act_buf)). rewrite Hp. reflexivity.
Qed.

Section Props.
Context `{CryptoLib} `{ActivationLib}.
Variable shuffle : bytes -> bytes.

(** The message of an activation: what the tool signs and encrypts. *)
Definition activation_message (leader_id : string) (ico : Z) (pk : bytes) : pb_Secret :=
  {| sec_Id := leader_id; sec_Ico := Bytes ico;
     sec_Sign := ed25519_Sign pk (marshalled {| sec_Id := leader_id; sec_Ico := Bytes ico; sec_Sign := [] |}) |}.

Lemma Bytes_nonempty z : 0 < z -> length (Bytes z) <> 0%nat.
Proof using Type.
  intros Hz E. apply length_zero_iff_nil in E. pose proof (SetBytes_Bytes z) as Hs. rewrite E in Hs.
  change (SetBytes []) with 0 in Hs. lia.
Qed.

(** Which activation files the tool makes, when the random bytes have their
    lengths and messages can be marshalled. *)
Lemma secret_main_spec ico_value leader_id leader_pk seed salt iv key file :
  length iv = aes_BlockSize -> (forall m, is_Some (proto_Marshal_Secret m)) ->
  secret_main ico_value leader_id leader_pk seed salt iv = Return (Some (key, file)) ->
  exists pk ico dk, ParsePrivateKey leader_pk = Some pk /\ length pk = 32%nat /\ leader_id <> "" /\ 0 < ico /\
    length dk = 32%nat /\ key = b64_EncodeToString dk /\
    file = iv ++ cfb_Encrypt dk iv (marshalled (activation_message leader_id ico pk)).
Proof using Type.
  intros Hiv Hm. unfold secret_main.
  destruct (bool_decide (leader_id = "") || bool_decide (leader_pk = "")) eqn:E0; [done|].
  apply orb_false_iff in E0 as [Hid%bool_decide_eq_false _].
  destruct (ParsePrivateKey leader_pk) as [pk|] eqn:Epk; [|done]. destruct (dec_Parse ico_value) as [ico|]; [|done].
  destruct (Z.leb_spec ico 0); [done|]. destruct (Nat.eqb_spec (length pk) 32) as [Hpk|]; simpl; [|done].
  rewrite ed25519_Verify_Sign. simpl. unfold aes_key. rewrite scrypt_length. simpl.
  destruct (negb _); [done|]. intros [= <- <-].
  exists pk, ico, (scrypt_Key (b64_EncodeToString seed) salt). rewrite scrypt_length. by split_and!.
Qed.

(** An activation file activates the peer it was made for. When the tool
    makes a file and its key for a leader, a peer that has the leader's
    private key and the leader's id as its own accepts them, and the proof it
    keeps is valid however its bytes are shuffled; a peer of another id
    rejects them. *)
Theorem activation_roundtrip ico_value leader_id leader_pk seed salt iv key file peer_id :
  length iv = aes_BlockSize -> (forall m, is_Some (proto_Marshal_Secret m)) -> shuffle act_buf ≡ₚ act_buf ->
  secret_main ico_value leader_id leader_pk seed salt iv = Return (Some (key, file)) ->
  ProcessActivation_validate shuffle file key leader_pk peer_id
    = Return (if bool_decide (leader_id = peer_id) then Some (shuffle act_buf) else None) /\
  validateActivation true true (shuffle act_buf) = Return true.
Proof using Type.
  intros Hiv Hm Hp Hmain. split; [|by apply shuffled_activation].
  destruct (secret_main_spec _ _ _ _ _ _ _ _ Hiv Hm Hmain) as (pk & ico & dk & Epk & Hpk & Hid & Hico & Hdk & -> & ->).
  unfold ProcessActivation_validate. rewrite b64_Decode_Encode. unfold aes_key. rewrite Hdk. simpl.
  rewrite length_app, Hiv. simpl.
  rewrite take_app_length', drop_app_length' by (by rewrite Hiv). rewrite cfb_Decrypt_Encrypt.
  destruct (Hm (activation_message leader_id ico pk)) as [b Hb].
  assert (proto_Unmarshal_Secret (marshalled (activation_message leader_id ico pk)) = activation_message leader_id ico pk)
    as -> by (unfold marshalled; rewrite Hb; by apply Secret_Unmarshal_Marshal).
  simpl. destruct (Nat.eqb_spec (length (Bytes ico)) 0) as [E|_]; [by apply Bytes_nonempty in E|].
  rewrite bool_decide_false by done. rewrite ed25519_Sign_length. simpl. rewrite Epk, Hpk. simpl.
  unfold unsigned. simpl. rewrite ed25519_Verify_Sign. simpl. by case_bool_decide.
Qed.
End Props.

(** ** Configuration *)

(** The port of the state server. With both ports given on the command line,
    the flag of the state server has no effect: the port of the VM server is
    taken for both, unless it is 65535. *)
Theorem state_port_follows_vm_port cfg c g :
  GearUpConfig cfg (Some c) = Return (Configured g) -> 1023 < hc_VmServerPort cfg <= 65535 ->
  pc_VmServerPort g = hc_VmServerPort cfg /\
  (hc_VmServerPort cfg < 65535 -> pc_StateServerPort g = hc_VmServerPort cfg).
Proof.
  unfold GearUpConfig. destruct (help cfg || _); [done|]. destruct (Home cfg && _); [done|].
  intros [= <-] Hp. simpl. destruct (Z.ltb_spec 1023 (hc_VmServerPort cfg)); [|lia].
  destruct (Z.leb_spec (hc_VmServerPort cfg) 65535); [|lia]. split; [done|]. intros Hlt. simpl.
  destruct (Z.ltb_spec (hc_VmServerPort cfg) 65535); [done|lia].
Qed.

(** A configuration file that cannot be loaded stops the peer with a panic
    after the warning, whatever the flags, unless they make it exit. *)
Theorem missing_config_panics cfg :
  help cfg = false -> PeerID cfg <> "" -> (Home cfg = true -> 1023 <= Port cfg) -> GearUpConfig cfg None = Panic.
Proof.
  intros Hh Hid Hp. unfold GearUpConfig. rewrite Hh, bool_decide_false by done. simpl.
  destruct (Home cfg); simpl; [|done]. destruct (Z.ltb_spec (Port cfg) 1023); [|done].
  specialize (Hp eq_refl). lia.
Qed.

(** ** Relays *)

(** The first occurrences of the elements, in order. *)
Fixpoint firsts (seen l : list string) : list string :=
  match l with
  | [] => []
  | x :: l' => if decide (x ∈ seen) then firsts seen l' else x :: firsts (seen ++ [x]) l'
  end.

Lemma add_candidates_firsts l : forall (seen : gset string) cs,
  (forall x, x ∈ seen <-> x ∈ cs) ->
  exists seen', fold_left add_candidate l (seen, cs) = (seen', cs ++ firsts cs l)
    /\ forall x, x ∈ seen' <-> x ∈ cs ++ firsts cs l.
Proof.
  induction l as [|x l IH]; intros seen cs Hs; simpl; [exists seen; by rewrite app_nil_r|].
  destruct (decide (x ∈ seen)) as [Hx|Hx].
  - rewrite decide_True by (by apply Hs). by apply IH.
  - rewrite decide_False by (by rewrite <- Hs).
    destruct (IH ({[x]} ∪ seen) (cs ++ [x])) as (seen' & E & Hs').
    + intros y. rewrite elem_of_union, elem_of_app, Hs, elem_of_singleton, list_elem_of_singleton. tauto.
    + exists seen'. rewrite E. rewrite <- (assoc_L (++)) in Hs' |- *. done.
Qed.

Lemma firsts_app l1 : forall seen l2, firsts seen (l1 ++ l2) = firsts seen l1 ++ firsts (seen ++ firsts seen l1) l2.
Proof.
  induction l1 as [|x l1 IH]; intros seen l2; simpl; [by rewrite app_nil_r|].
  destruct (decide (x ∈ seen)); [apply IH|]. rewrite IH. simpl. by rewrite <- (assoc_L (++)).
Qed.

Lemma firsts_spec l : forall seen, NoDup (firsts seen l) /\ forall x, x ∈ firsts seen l <-> x ∈ l /\ x ∉ seen.
Proof.
  induction l as [|y l IH]; intros seen; simpl; [split; [constructor|set_solver]|].
  destruct (decide (y ∈ seen)) as [Hy|Hy].
  - destruct (IH seen) as [Hd Hx]. split; [done|]. intros x. rewrite Hx. set_solver.
  - destruct (IH (seen ++ [y])) as [Hd Hx]. split.
    + constructor; [|done]. rewrite Hx. set_solver.
    + intros x. rewrite elem_of_cons, Hx, elem_of_app, list_elem_of_singleton.
      destruct (decide (x = y)) as [->|]; set_solver.
Qed.

Lemma skip_empty l : forall st,
  fold_left (fun st relay => if (String.length relay =? 0)%nat then st else add_candidate st relay) l st
  = fold_left add_candidate (filter (fun r => r <> "") l) st.
Proof.
  induction l as [|[|a r] l IH]; intros st; [done|..].
  - rewrite filter_cons_False by (by intros []). apply IH.
  - rewrite filter_cons_True by done. simpl. apply IH.
Qed.

(** The relays of a host. The candidates are the bootstrap peers with an
    address and then the two static relays, each once and in this order. *)
Theorem getRelayCandidates_spec peers :
  getRelayCandidates peers = firsts [] (filter (fun r => r <> "") peers ++ [RELAY_SRV_1; RELAY_SRV_2]) /\
  NoDup (getRelayCandidates peers) /\
  forall x, x ∈ getRelayCandidates peers <-> (x ∈ peers /\ x <> "") \/ x = RELAY_SRV_1 \/ x = RELAY_SRV_2.
Proof.
  assert (getRelayCandidates peers = firsts [] (filter (fun r => r <> "") peers ++ [RELAY_SRV_1; RELAY_SRV_2])) as E.
  { unfold getRelayCandidates. rewrite skip_empty.
    destruct (add_candidates_firsts (filter (fun r => r <> "") peers) ∅ []) as (seen & -> & Hs); [set_solver|].
    destruct (add_candidates_firsts [RELAY_SRV_1; RELAY_SRV_2] seen ([] ++ firsts [] (filter (fun r => r <> "") peers)) Hs)
      as (seen' & -> & _). simpl snd. by rewrite firsts_app. }
  split; [done|]. rewrite E. destruct (firsts_spec (filter (fun r => r <> "") peers ++ [RELAY_SRV_1; RELAY_SRV_2]) []) as [Hd Hx].
  split; [done|]. intros x. rewrite Hx, elem_of_app, list_elem_of_filter, elem_of_cons, list_elem_of_singleton.
  split; [|intros Hor; split; [tauto|apply not_elem_of_nil]]. tauto.
Qed.

(** ** Concrete activation *)

Definition secret_fields (m : pb_Secret) : string * string * string :=
  (sec_Id m, hex_EncodeToString (sec_Ico m), hex_EncodeToString (sec_Sign m)).

#[local] Instance sample_activation : ActivationLib.
Proof.
  refine {| b64_EncodeToString := hex_EncodeToString;
    b64_DecodeString := fun s => match hex_DecodeString s with (b, true) => Some b | _ => None end;
    scrypt_Key := fun _ salt => pad_to 32 salt;
    cfb_Encrypt := fun _ _ m => rev m; cfb_Decrypt := fun _ _ m => rev m;
    proto_Marshal_Secret := fun m => Some (Bytes (Z.pos (encode (secret_fields m))));
    proto_Unmarshal_Secret := fun b =>
      match decode (Z.to_pos (SetBytes b)) with
      | Some (i, x, y) => {| sec_Id := i; sec_Ico := fst (hex_DecodeString x); sec_Sign := fst (hex_DecodeString y) |}
      | None => {| sec_Id := ""; sec_Ico := []; sec_Sign := [] |}
      end |}.
  - intros b. by rewrite hex_Decode_Encode.
  - intros. apply pad_to_length.
  - intros. apply rev_involutive.
  - intros [i x y] b [= <-]. rewrite SetBytes_Bytes. simpl Z.to_pos. rewrite decode_encode.
    unfold secret_fields. simpl. by rewrite !hex_Decode_Encode.
Defined.

Definition leader_seed : string := hex_EncodeToString (replicate 32 x07).

Lemma activation_roundtrip_witness :
  exists key file,
    secret_main "1000" "QmL" leader_seed [x01] [x02] (replicate 16 x03) = Return (Some (key, file)) /\
    ProcessActivation_validate (@rev byte) file key leader_seed "QmL" = Return (Some (rev act_buf)).
Proof.
  destruct (secret_main "1000" "QmL" leader_seed [x01] [x02] (replicate 16 x03)) as [[[key file]|]|] eqn:E;
    [|vm_compute in E; discriminate E..].
  exists key, file. split; [reflexivity|].
  apply (activation_roundtrip (@rev byte) "1000" "QmL" leader_seed [x01] [x02] (replicate 16 x03) key file "QmL").
  - reflexivity.
  - intros m. by eexists.
  - symmetry. apply Permutation_rev.
  - exact E.
Defined.

Definition both_ports : HostConfig :=
  {| help := false; PeerID := "peer"; Home := false; Port := 0; hc_VmServerPort := 4000; hc_StateServerPort := 5000;
     hc_NodeType := 0; hc_SnapshotSync := false; hc_Grpc := false; hc_Grpcport := 0; hc_Leader := false; hc_Apiport := 0;
     hc_Purge := false |}.
Definition file_config : PeerConfiguration :=
  {| pc_Id := ""; pc_VmServerPort := 1; pc_StateServerPort := 2; pc_NodeType := 0; pc_SnapshotSync := false;
     pc_Grpc := false; pc_Grpcport := 0; pc_Leader := false; pc_Apiport := 0; pc_Purge := 0 |}.

Lemma state_port_follows_vm_port_witness :
  exists g, GearUpConfig both_ports (Some file_config) = Return (Configured g) /\ pc_StateServerPort g = 4000.
Proof.
  eexists. split; [reflexivity|].
  apply (state_port_follows_vm_port both_ports file_config _ eq_refl); simpl; lia.
Defined.

Lemma missing_config_panics_witness : GearUpConfig both_ports None = Panic.
Proof. apply (missing_config_panics both_ports); [reflexivity|done|done]. Defined.
