(* ===== verification/Trader.v ===== *)
(** Generated payments: the gRPC service of [services/grpcpublish.go] with its
    load generator, and the client side of [tools/txgen/generator.go].

    Time enters as arguments: a round of the generator is a [tick] with what the
    timers, the clock and the random source gave.  New wallets are arguments too.
    The microseconds between two ticks that the rate asks for are computed in
    floating point and are the argument [base]. *)
From S2P Require Import Prelude GoLib Bytes StateMachine Tx TxRecords Storage Pool WalletCache Node Pin.
From S2P Require Import PinProps Confirmation Weights Dag Search Diffusion Services.

(** ** Payments of wallets: [wallet/wallet.go] *)

Definition NewTransaction (priv pub : bytes) (sender recipient : string) (amount : Z) : WalletTransaction :=
  {| senderPrivateKey := priv; senderPublicKey := pub; senderAddress := sender;
     receiverAddress := recipient; wt_amount := amount |}.

Definition GenServiceTransaction (w : Wallet) : WalletTransaction :=
  NewTransaction (privateKey w) (publicKey w) (walletAddress w) (walletAddress w) 0.

Definition GenPaymentTransaction (ws wr : Wallet) (amount : Z) : WalletTransaction :=
  NewTransaction (privateKey ws) (publicKey ws) (walletAddress ws) (walletAddress wr) amount.

Definition GenPaymentEx (ws : Wallet) (wr : string) (amount : Z) : WalletTransaction :=
  NewTransaction (privateKey ws) (publicKey ws) (walletAddress ws) wr amount.

Record TransactionRequest := {
  tq_SenderPrivateKey : option string; tq_SenderAddress : option string; tq_ReceiverAddress : option string;
  tq_SenderPublicKey : option string; tq_Amount : option string
}.

Definition TransactionRequest_Validate (tr : TransactionRequest) : bool :=
  match tq_SenderPrivateKey tr, tq_SenderAddress tr, tq_ReceiverAddress tr, tq_SenderPublicKey tr, tq_Amount tr with
  | Some _, Some _, Some _, Some _, Some _ => true
  | _, _, _, _, _ => false
  end.

Section Trader.
Context `{CryptoLib} `{ProtoLib} `{TimestampLib} `{EthLib} `{UuidLib} `{ProtoPinLib}.
Context `{MapRange} `{!CollSet uuid}.

(** ** The load generator of the service *)

(** [g_duration] in seconds. *)
Record TxGeneration := {
  g_duration : Z; g_txrate : Z; g_txmax : Z; g_wallet : Wallet; g_network : Z
}.

(** The peer with one more queued payment of one coin, and the length of the
    queue. *)
Definition Trade (g : TxGeneration) (p : Peer) (wrb : Wallet) (nonce now : Z) : outcome (Peer * Z) :=
  let! t := Txv1_GeneratePayment (NewTxv1 (g_network g)) (GenPaymentTransaction (g_wallet g) wrb 1)
              (g_network g) nonce now in
  let! t := Txv1_Sign t (privateKey (g_wallet g)) in
  let q := publishQueue p ++ [ATxv1 t] in
  Return (with_publishQueue p q, Z.of_nat (length q)).

Definition QUEUE_GEN_SIZE : Z := 100.

(** [time.NewTicker(time.Duration(tkr) * time.Microsecond)]: an interval that is
    not positive panics.  The result is the interval in microseconds. *)
Definition new_ticker (tkr : Z) : outcome Z :=
  if to_int64 (to_int64 tkr * 1000) <=? 0 then Panic else Return tkr.

(** What converting a positive infinity to an int64 gives; the language leaves it
    to the machine, amd64 gives [-2^63]. *)
Variable inf_int64 : Z.

(** [time.Duration(M1 / float64(txrate) * float64(time.Microsecond)).Microseconds()].
    The quotient of a rate that does not divide 10^6 is further from the next
    integer than the rounding of the two operations, so the result is that of the
    integer division; a rate of 0 gives an infinity. *)
Definition requested_tick (txrate : Z) : Z :=
  if txrate =? 0 then Z.quot inf_int64 1000 else 1000000 / txrate.

(** The microseconds to the next tick, from the length of the queue and the time
    the last payment took.  A change of the interval makes a new ticker. *)
Definition next_tick (base sz txtime tkr : Z) : outcome Z :=
  if QUEUE_GEN_SIZE <? sz then new_ticker (tkr + (sz - QUEUE_GEN_SIZE) * 100)
  else if tkr <? txtime then new_ticker (tkr + ((txtime - tkr) + 500))
  else if txtime <? tkr then (if base <? tkr then new_ticker base else Return tkr)
  else Return tkr.

(** [k_up]: the timer of the duration has set the flag when the loop tests it. *)
Record tick := { k_up : bool; k_wallet : Wallet; k_nonce : Z; k_now : Z; k_txtime : Z }.

(** The peer, the number of payments, the microseconds between ticks and whether
    the loop has ended. *)
Fixpoint generate_loop (g : TxGeneration) (base : Z) (ticks : list tick) (p : Peer) (count tkr : Z)
  : outcome (Peer * Z * Z * bool) :=
  match ticks with
  | [] => Return (p, count, tkr, false)
  | k :: ticks =>
      if (0 <? g_duration g) && k_up k then Return (p, count, tkr, true)
      else
        let count := count + 1 in
        let! r := Trade g p (k_wallet k) (k_nonce k) (k_now k) in
        let! tkr := next_tick base (snd r) (k_txtime k) tkr in
        if (g_duration g =? 0) && (count =? g_txmax g) then Return (fst r, count, tkr, true)
        else generate_loop g base ticks (fst r) count tkr
  end.

Definition generate (g : TxGeneration) (ticks : list tick) (p : Peer) : outcome (Peer * Z * Z * bool) :=
  let base := requested_tick (g_txrate g) in
  let! tkr := new_ticker base in
  generate_loop g base ticks p 0 tkr.

(** The request; the response has the number of payments as an int32. *)
Record TxGenerateRequest := {
  gr_Duration : Z; gr_Txrate : Z; gr_Txmax : Z; gr_Publickey : string; gr_Privatekey : string; gr_Network : Z
}.

Definition GenerateTx (req : TxGenerateRequest) (ticks : list tick) (p : Peer)
  : outcome (Peer * option Z) :=
  let! w := LoadWallet (gr_Publickey req) (gr_Privatekey req) in
  let! r := generate {| g_duration := gr_Duration req; g_txrate := gr_Txrate req; g_txmax := gr_Txmax req;
                        g_wallet := w; g_network := to_uint8 (gr_Network req) |} ticks p in
  match r with (p, count, _, ended) => Return (p, if ended then Some (to_int32 count) else None) end.

(** ** Queries of the service *)

Definition rpc_GetBalances (p : Peer) (wallets : list bytes) : outcome (option (list bytes)) :=
  GetBalances (w_pins (world (p_dag p))) (walletCache (world (p_dag p))) wallets.

Definition Size (p : Peer) : Z := Z.of_nat (length (d_dag (dg (p_dag p)))).

(** ** The watchdog *)

Inductive PEER_STATUS := RUNNING | KILLED.

(** [joined i] is whether the node has joined at tick [i]; [None] when the ticks
    considered are used up. *)
Fixpoint watch (fuel : nat) (joined : nat -> bool) (i : nat) (count retries : Z) : option PEER_STATUS :=
  match fuel with
  | O => None
  | S fuel =>
      if joined i then Some RUNNING
      else if count =? retries then Some KILLED
      else watch fuel joined (S i) (count + 1) retries
  end.

(** [joined 0] is asked at once.  A division by zero and a ticker that is not
    positive panic. *)
Definition WatchDog (fuel : nat) (timeout retries : Z) (joined : nat -> bool) : option (outcome PEER_STATUS) :=
  if joined 0%nat then Some (Return RUNNING)
  else if retries =? 0 then Some Panic
  else if to_int64 (Z.quot timeout retries) <=? 0 then Some Panic
  else Return <$> watch fuel joined 1 0 retries.

(** ** The client *)

(** What the client gets from a call, and what the node does before it. *)
Record rpc_network := { n_fails : nat -> bool; n_node : nat -> Peer -> Peer }.

(** [None]: the call failed or the service returned an error. *)
Definition call_balance (net : rpc_network) (k : nat) (p : Peer) (wallet : string) : outcome (Peer * option bytes) :=
  let p := n_node net k p in
  let! w := AddressToBytes wallet in
  if n_fails net k then Return (p, None)
  else
    let! r := rpc_GetBalances p [w] in
    match r with
    | None => Return (p, None)
    | Some [] => Panic
    | Some (b :: _) => Return (p, Some b)
    end.

Definition call_publish (net : rpc_network) (k : nat) (p : Peer) (t : Txv1) : Peer * bool :=
  let p := n_node net k p in
  if n_fails net k then (p, false) else (PublishTx p (Txv1_MarshalBinary t), true).

Inductive payment_result :=
| PayBalanceError | PayExceeds | PayVerifyError | PayPublishError | PayQueryError
| Paid (newBalance lastKnownBalance : Z).

(** The new balances are asked for after the payment is published; the amount is
    compared with the balance the node knew before. *)
Definition make_payment (net : rpc_network) (p : Peer) (chain : Z) (wsb : Wallet) (walletto : string) (amount nonce now : Z)
  : outcome (Peer * payment_result) :=
  let! r := call_balance net 0 p (walletAddress wsb) in
  match r with
  | (p, None) => Return (p, PayBalanceError)
  | (p, Some b) =>
      if SetBytes b <? amount then Return (p, PayExceeds)
      else
        let! t := Txv1_GeneratePayment (NewTxv1 chain) (GenPaymentEx wsb walletto amount) chain nonce now in
        let! t := Txv1_Sign t (privateKey wsb) in
        let! v := Txv1_Verify t in
        match v with
        | (_, Some _) => Return (p, PayVerifyError)
        | (t, None) =>
            let '(p, ok) := call_publish net 1 p t in
            if negb ok then Return (p, PayPublishError)
            else
              let! r := call_balance net 2 p walletto in
              match r with
              | (p, None) => Return (p, PayQueryError)
              | (p, Some nb) =>
                  let! r := call_balance net 3 p (walletAddress wsb) in
                  match r with
                  | (p, None) => Return (p, PayQueryError)
                  | (p, Some lb) => Return (p, Paid (SetBytes nb) (SetBytes lb))
                  end
              end
        end
  end.

(** [Trade1]: one coin to a new wallet, without asking for the balance. *)
Definition Trade1 (net : rpc_network) (p : Peer) (chain : Z) (wsb wrb : Wallet) (nonce now : Z)
  : outcome (Peer * option payment_result) :=
  let! t := Txv1_GeneratePayment (NewTxv1 chain) (GenPaymentTransaction wsb wrb 1) chain nonce now in
  let! t := Txv1_Sign t (privateKey wsb) in
  let! v := Txv1_Verify t in
  match v with
  | (_, Some _) => Return (p, Some PayVerifyError)
  | (t, None) =>
      let '(p, ok) := call_publish net 0 p t in
      Return (p, if ok then None else Some PayPublishError)
  end.

(** [Payment]: every wallet is paid in turn, errors are printed.  Every payment
    has its own answers of the node, nonce and time. *)
Fixpoint Payment (p : Peer) (chain : Z) (wsb : Wallet) (amount : Z)
    (wallets : list (string * (rpc_network * Z * Z))) : outcome (Peer * list payment_result) :=
  match wallets with
  | [] => Return (p, [])
  | (walletto, (net, nonce, now)) :: rest =>
      let! r := make_payment net p chain wsb walletto amount nonce now in
      let! r' := Payment (fst r) chain wsb amount rest in
      Return (fst r', snd r :: snd r')
  end.

(** The check of [Balance] and at the end of [Generate]: the sum of the balances,
    and whether it is the initial offering. *)
Definition total_balance (balances : list bytes) : Z := fold_left (fun s b => s + SetBytes b) balances 0.

Definition check_total (ico : string) (balances : option (list bytes)) : Z * bool :=
  let total := match balances with Some l => total_balance l | None => 0 end in
  (total, bool_decide (ico = dec_String total)).
End Trader.
