(* ===== verification/TraderProps.v ===== *)
(** The gRPC service and its client: the load generator queues the number of
    payments it was asked for and never runs faster than asked
    ([generate_queues]), the watchdog answers after a bounded number of ticks
    ([WatchDog_answers]) and the client publishes a payment exactly when the
    balance covers it ([make_payment_publishes]). *)
From S2P Require Import Prelude GoLib Bytes StateMachine Tx TxRecords Storage Pool WalletCache Node Pin.
From S2P Require Import PinProps PinSync Confirmation Weights Dag DagProps DagSteps Search Diffusion DiffusionProps Services Trader.

(** ** Payments *)

Section Payments.
Context `{CryptoLib} `{ProtoLib} `{TimestampLib} `{EthLib} `{UuidLib} `{ProtoPinLib}.
Context `{MapRange} `{!CollSet uuid}.
(** Marshalling a transaction does not fail. *)
Hypothesis hashes : forall t, is_Some (Txv1_Hash t).
Variable inf_int64 : Z.

(** A wallet made from a seed. *)
Definition wallet_ok (w : Wallet) : Prop :=
  exists k, length k = 32%nat /\ w = creatWallet (ed25519_Public k) k.

(** A payment signed with the keys of [w]. *)
Record payment_of (w : Wallet) (to : bytes) (amount : Z) (t : Txv1) : Prop := {
  sp_type : Tx_Type t = PAYMENT;
  sp_sender : AddressToBytes (walletAddress w) = Return (Sender t);
  sp_recipient : Recepient t = to;
  sp_amount : Amount t = Bytes amount;
  sp_verified : Txv1_Verify t = Return (t, None)
}.

Lemma wallet_address w : wallet_ok w -> exists a, AddressToBytes (walletAddress w) = Return a.
Proof using Type.
  intros (k & _ & ->). cbn. unfold AddressFromPulicKey. set (a := drop 12 _). exists a.
  apply AddressToBytes_BytesToAddress. unfold BytesToAddress.
  assert (length a = 20%nat) as -> by (unfold a; by rewrite length_drop, keccak256_length). done.
Qed.

(** A generated payment that is signed once more. *)
Lemma payment_generated w to r amount chain nonce now :
  wallet_ok w -> AddressToBytes to = Return r ->
  exists t, (let! t := Txv1_GeneratePayment (NewTxv1 chain) (GenPaymentEx w to amount) chain nonce now in
             Txv1_Sign t (privateKey w)) = Return t
  /\ payment_of w r amount t /\ Chain_Type t = to_uint8 chain /\ Nonce t = nonce mod 200000.
Proof using hashes.
  intros Hw Hto. destruct (wallet_address w Hw) as [s Hs]. destruct Hw as (k & Hk & ->).
  unfold Txv1_GeneratePayment. cbn [GenPaymentEx NewTransaction senderAddress receiverAddress senderPublicKey
    senderPrivateKey wt_amount]. rewrite Hs, Hto. cbn [outcome_bind creatWallet privateKey publicKey NewTxv1 Data Signature].
  match goal with |- context [Txv1_Sign ?t0 k] => set (t1 := t0) end.
  destruct (hashes (set_Signature t1 [])) as [hh Hh].
  rewrite (Txv1_Sign_signature t1 k hh Hk Hh). cbn [outcome_bind].
  rewrite (Txv1_Sign_signature (set_Signature t1 (ed25519_Sign k hh)) k hh Hk Hh).
  eexists. split; [done|]. split; [|done].
  split; [done|exact Hs|done|done|]. unfold Txv1_Verify. cbn [Signature set_Signature].
  rewrite ed25519_Sign_length. cbn [Nat.ltb Nat.leb].
  match goal with |- context [Txv1_Hash ?x] => change x with (set_Signature t1 []) end. rewrite Hh.
  match goal with |- context [DSA_Verify ?a ?b ?c] => assert (DSA_Verify a b c = Return true) as -> end; [|done].
  cbn. apply (DSA_Verify_Sign k hh); [by rewrite (Txv1_Hash_32 _ _ Hh)|]. unfold DSA_Sign. by rewrite Hk.
Qed.

(** ** The load generator *)

Lemma Trade_queues g p wrb nonce now r :
  wallet_ok (g_wallet g) -> AddressToBytes (walletAddress wrb) = Return r ->
  exists t, Trade g p wrb nonce now
    = Return (with_publishQueue p (publishQueue p ++ [ATxv1 t]), Z.of_nat (S (length (publishQueue p))))
  /\ payment_of (g_wallet g) r 1 t.
Proof using hashes.
  intros Hw Hr. destruct (payment_generated (g_wallet g) (walletAddress wrb) r 1 (g_network g) nonce now Hw Hr)
    as (t & Ht & Hs & _).
  exists t. split; [|done]. unfold Trade. change (GenPaymentTransaction (g_wallet g) wrb 1)
    with (GenPaymentEx (g_wallet g) (walletAddress wrb) 1).
  destruct (Txv1_GeneratePayment _ _ _ _ _) as [t0|]; [|done]. cbn [outcome_bind] in *. rewrite Ht. cbn [outcome_bind].
  rewrite length_app. cbn [length]. by rewrite Nat.add_1_r.
Qed.

(** The longest interval the ticker can have: 2^63 nanoseconds. *)
Definition max_interval : Z := (2 ^ 63 - 1) / 1000.

Lemma new_ticker_ok tkr : 0 < tkr <= max_interval -> new_ticker tkr = Return tkr.
Proof using Type.
  unfold max_interval. change ((2 ^ 63 - 1) / 1000) with 9223372036854775. intros Ht. unfold new_ticker, to_int64.
  rewrite (swrap_small _ tkr) by (simpl; lia). rewrite swrap_small by (simpl; lia).
  destruct (Z.leb_spec (tkr * 1000) 0); [lia|done].
Qed.

(** Over a tick the interval grows by no more than this above what the last
    payment took. *)
Definition slower (sz : Z) : Z := 500 + 100 * sz.

Lemma next_tick_ok base sz txtime tkr :
  0 < base <= tkr -> 0 <= sz -> Z.max tkr txtime + slower sz <= max_interval ->
  exists tkr', next_tick base sz txtime tkr = Return tkr' /\ base <= tkr' <= Z.max tkr txtime + slower sz.
Proof using Type.
  intros Hb Hsz Hm. unfold next_tick, QUEUE_GEN_SIZE, slower in *. destruct (Z.ltb_spec 100 sz).
  { rewrite new_ticker_ok by lia. eexists. split; [done|lia]. }
  destruct (Z.ltb_spec tkr txtime); [rewrite new_ticker_ok by lia; eexists; split; [done|lia]|].
  destruct (txtime <? tkr); [|eexists; split; [done|lia]].
  destruct (base <? tkr); [rewrite new_ticker_ok by lia|]; eexists; (split; [done|lia]).
Qed.

Lemma generate_loop_spec g base T ticks : forall p count tkr,
  wallet_ok (g_wallet g) -> g_duration g = 0 -> count < g_txmax g -> 0 < base <= tkr ->
  Forall (fun k => wallet_ok (k_wallet k) /\ k_txtime k <= T) ticks ->
  Z.max tkr T + Z.of_nat (length ticks) * slower (Z.of_nat (length (publishQueue p) + length ticks)) <= max_interval ->
  exists txs tkr', generate_loop g base ticks p count tkr
    = Return (with_publishQueue p (publishQueue p ++ map ATxv1 txs), count + Z.of_nat (length txs), tkr',
              (g_txmax g - count <=? Z.of_nat (length ticks)))
  /\ Z.of_nat (length txs) = Z.min (g_txmax g - count) (Z.of_nat (length ticks)) /\ base <= tkr'
  /\ Forall (fun t => exists r, payment_of (g_wallet g) r 1 t) txs.
Proof using hashes.
  induction ticks as [|k ticks IH]; intros p count tkr Hw Hd Hc Hb Hk Hmax; cbn [generate_loop].
  { exists [], tkr. split; [|split; [cbn; lia|split; [lia|done]]]. cbn. rewrite app_nil_r, Z.add_0_r.
    destruct (Z.leb_spec (g_txmax g - count) (Z.of_nat 0)); [lia|]. by destruct p. }
  apply Forall_cons in Hk as [[Hk HT] Hks]. rewrite Hd. cbn [Z.ltb Z.compare andb].
  destruct (wallet_address _ Hk) as [r Hr].
  destruct (Trade_queues g p (k_wallet k) (k_nonce k) (k_now k) r Hw Hr) as (t & -> & Ht). cbn [outcome_bind fst snd].
  unfold slower in Hmax. cbn [length] in Hmax.
  destruct (next_tick_ok base (Z.of_nat (S (length (publishQueue p)))) (k_txtime k) tkr) as (tkr1 & -> & Hb1 & Hb2);
    [lia|lia|unfold slower; nia|]. unfold slower in Hb2. cbn [outcome_bind].
  cbn [Z.eqb andb]. destruct (Z.eqb_spec (count + 1) (g_txmax g)) as [He|He].
  - exists [t], tkr1. cbn [length map]. split; [|split; [lia|split; [done|repeat constructor; by exists r]]].
    repeat f_equal; try lia. symmetry. apply Z.leb_le. lia.
  - destruct (IH (with_publishQueue p (publishQueue p ++ [ATxv1 t])) (count + 1) tkr1) as (txs & tkr' & -> & Hl & Hb' & Hall);
      [done|done|lia|lia|done| |].
    { cbn [publishQueue with_publishQueue]. rewrite length_app. cbn [length]. unfold slower. nia. }
    exists (t :: txs), tkr'. cbn [length map publishQueue with_publishQueue]. split; [|split; [lia|split; [done|]]].
    + rewrite <- app_assoc. cbn [app].
      replace (g_txmax g - (count + 1) <=? Z.of_nat (length ticks)) with (g_txmax g - count <=? Z.of_nat (S (length ticks)))
        by (destruct (Z.leb_spec (g_txmax g - (count + 1)) (Z.of_nat (length ticks)));
            [apply Z.leb_le; lia|apply Z.leb_gt; lia]).
      by replace (count + 1 + Z.of_nat (length txs)) with (count + Z.of_nat (S (length txs))) by lia.
    + constructor; [by exists r|done].
Qed.

(** C38: the load generator queues exactly the payments it was asked for.  The
    given wallet and those drawn as recipients are made of a 32-byte seed and its
    public key, and marshalling a transaction does not fail; the rate is between
    1 and 10^6 payments a second, there is no duration and a positive limit, and
    while nothing else uses the queue, no payment takes longer than [T]
    microseconds, a time for which the pauses stay below 2^63 nanoseconds.  Then
    the loop has ended exactly when there were as many ticks as payments asked
    for; it then has queued that many payments, and before one for each tick, all
    of one coin, signed by the given wallet and verifying, behind what was queued,
    and nothing else of the peer changes; the pause between two payments is never
    below the requested one.  A rate above 10^6, and one of 0 where an infinity is
    converted to no positive number of microseconds, panics. *)
Theorem generate_queues g ticks p :
  (wallet_ok (g_wallet g) -> 1 <= g_txrate g <= 1000000 -> g_duration g = 0 -> 0 < g_txmax g ->
   forall T, Forall (fun k => wallet_ok (k_wallet k) /\ k_txtime k <= T) ticks ->
   Z.max 1000000 T + Z.of_nat (length ticks) * slower (Z.of_nat (length (publishQueue p) + length ticks)) <= max_interval ->
   exists txs tkr, generate inf_int64 g ticks p
     = Return (with_publishQueue p (publishQueue p ++ map ATxv1 txs), Z.of_nat (length txs), tkr,
               (g_txmax g <=? Z.of_nat (length ticks)))
   /\ Z.of_nat (length txs) = Z.min (g_txmax g) (Z.of_nat (length ticks))
   /\ 1000000 / g_txrate g <= tkr
   /\ Forall (fun t => exists r, payment_of (g_wallet g) r 1 t) txs)
  /\ (1000000 < g_txrate g \/ (g_txrate g = 0 /\ - 2 ^ 63 <= inf_int64 < 1000) ->
      generate inf_int64 g ticks p = Panic).
Proof using hashes.
  unfold generate, requested_tick. split.
  - intros Hw Hr Hd Hm T Hk Hmax. destruct (Z.eqb_spec (g_txrate g) 0); [lia|].
    assert (1 <= 1000000 / g_txrate g <= 1000000) as Hbase.
    { split; [apply Z.div_le_lower_bound; lia|]. apply Z.div_le_upper_bound; lia. }
    rewrite new_ticker_ok by (change max_interval with 9223372036854775; lia). cbn [outcome_bind].
    destruct (generate_loop_spec g (1000000 / g_txrate g) T ticks p 0 (1000000 / g_txrate g) Hw Hd Hm)
      as (txs & tkr & -> & Hl & Hb & Hall); [lia|done|lia|].
    rewrite Z.sub_0_r in *. by exists txs, tkr.
  - intros Hr. assert (forall t, -9223372036854775 <= t <= 0 -> new_ticker t = Panic) as Hp.
    { intros t Ht. unfold new_ticker, to_int64. rewrite (swrap_small _ t) by (simpl; lia).
      rewrite swrap_small by (simpl; lia). destruct (Z.leb_spec (t * 1000) 0); [done|lia]. }
    destruct Hr as [Hr|[-> Hi]].
    + destruct (Z.eqb_spec (g_txrate g) 0); [lia|]. rewrite Z.div_small by lia. by rewrite Hp by lia.
    + cbn [Z.eqb]. rewrite Hp; [done|]. Z.quot_rem_to_equations. lia.
Qed.

(** ** The client *)

(** Every call succeeds, and the node does nothing in between. *)
Definition idle : rpc_network := {| n_fails := fun _ => false; n_node := fun _ p => p |}.

Lemma call_balance_idle k p wallet w :
  AddressToBytes wallet = Return w ->
  call_balance idle k p wallet
  = (let! r := rpc_GetBalances p [w] in
     match r with None => Return (p, None) | Some [] => Panic | Some (b :: _) => Return (p, Some b) end).
Proof using Type. intros Hw. unfold call_balance. by rewrite Hw. Qed.

Lemma payment_ok w to amount t chain nonce :
  payment_of w to amount t -> Chain_Type t = to_uint8 chain -> Nonce t = nonce mod 200000 -> Txv1_ok t.
Proof using Type.
  intros [Ht _ _ _ _] Hc Hn. unfold Txv1_ok. rewrite Ht, Hc, Hn.
  pose proof (Z.mod_pos_bound nonce 200000). pose proof (Z.mod_pos_bound chain (2 ^ 8)).
  unfold to_uint8, wrap, PAYMENT. lia.
Qed.

(** The client publishes a payment exactly when the balance covers it.  When
    the node answers, a wallet whose balance is below the amount changes nothing;
    otherwise one payment of the amount to the recipient, signed and verifying, is
    behind the queue of the node and nothing else changes.  The result is the two
    balances as the node still knows them, or an error, although the payment is
    queued, when the node does not know the recipient yet. *)
Theorem make_payment_publishes p chain wsb walletto amount nonce now s r b :
  wallet_ok wsb -> AddressToBytes (walletAddress wsb) = Return s -> AddressToBytes walletto = Return r ->
  length r = 20%nat -> rpc_GetBalances p [s] = Return (Some [b]) ->
  if SetBytes b <? amount then make_payment idle p chain wsb walletto amount nonce now = Return (p, PayExceeds)
  else exists t res, payment_of wsb r amount t
  /\ make_payment idle p chain wsb walletto amount nonce now
     = Return (with_publishQueue p (publishQueue p ++ [ATxv1 t]), res)
  /\ (rpc_GetBalances p [r] = Return None /\ res = PayQueryError
      \/ exists nb, rpc_GetBalances p [r] = Return (Some [nb]) /\ res = Paid (SetBytes nb) (SetBytes b)).
Proof using hashes.
  intros Hw Hs Hr Hl Hb. unfold make_payment. rewrite (call_balance_idle _ _ _ _ Hs), Hb. cbn [outcome_bind].
  destruct (SetBytes b <? amount); [done|].
  destruct (payment_generated wsb walletto r amount chain nonce now Hw Hr) as (t & Ht & Hsp & Hc & Hn).
  destruct (Txv1_GeneratePayment _ _ _ _ _) as [t0|]; [|done]. cbn [outcome_bind] in Ht |- *. rewrite Ht. cbn [outcome_bind].
  rewrite (sp_verified _ _ _ _ Hsp). cbn [outcome_bind]. change (call_publish idle 1 p t) with (PublishTx p (Txv1_MarshalBinary t), true). cbn [negb].
  unfold PublishTx. rewrite (Txv1_Unmarshal_Marshal t) by by eapply payment_ok.
  set (p' := with_publishQueue p _). rewrite (call_balance_idle _ _ _ _ Hr).
  change (rpc_GetBalances p' [r]) with (rpc_GetBalances p [r]).
  assert (exists o, rpc_GetBalances p [r] = Return o /\ (o = None \/ exists nb, o = Some [nb])) as (o & Ho & Hcases).
  { unfold rpc_GetBalances. cbn [GetBalances].
    match goal with |- context [wallet_balance ?x ?y r] =>
      assert (exists o, wallet_balance x y r = Return o) as [[nb|] ->]
        by (unfold wallet_balance, BytesToAddress; rewrite Hl; eexists; reflexivity) end;
      cbn [outcome_bind]; eauto. }
  rewrite Ho. cbn [outcome_bind]. destruct Hcases as [->|[nb ->]].
  - exists t, PayQueryError. split; [done|]. split; [done|]. by left.
  - cbn [outcome_bind]. rewrite (call_balance_idle _ _ _ _ Hs). change (rpc_GetBalances p' [s]) with (rpc_GetBalances p [s]). rewrite Hb.
    do 2 cbn [outcome_bind]. exists t, (Paid (SetBytes nb) (SetBytes b)). split; [done|]. split; [done|]. right. by exists nb.
Qed.
End Payments.

(** ** The watchdog *)

Lemma watch_spec retries joined fuel : forall i count,
  count <= retries -> retries - count < Z.of_nat fuel ->
  watch fuel joined i count retries
  = Some (if existsb joined (seq i (Z.to_nat (retries - count) + 1)) then RUNNING else KILLED).
Proof.
  induction fuel as [|fuel IH]; intros i count Hc Hf; [lia|]. cbn [watch].
  rewrite Nat.add_1_r. cbn [seq existsb]. destruct (joined i); [done|]. cbn [orb].
  destruct (Z.eqb_spec count retries) as [->|Hne].
  - by rewrite Z.sub_diag.
  - rewrite IH by lia. replace (Z.to_nat (retries - (count + 1)) + 1)%nat with (Z.to_nat (retries - count)) by lia. done.
Qed.

(** The watchdog answers: with a positive number of retries and a timeout of at
    least as many nanoseconds it asks the node at once and at most one more time
    than there are retries, and reports that it runs exactly when one of these
    finds it joined. *)
Theorem WatchDog_answers timeout retries joined :
  0 < retries -> retries <= timeout < 2 ^ 63 ->
  WatchDog (Z.to_nat retries + 1) timeout retries joined
  = Some (Return (if existsb joined (seq 0 (Z.to_nat retries + 2)) then RUNNING else KILLED)).
Proof.
  intros Hr Ht. unfold WatchDog.
  replace (Z.to_nat retries + 2)%nat with (S (Z.to_nat retries + 1)) by lia. cbn [seq existsb].
  destruct (joined 0%nat); [done|]. cbn [orb].
  destruct (Z.eqb_spec retries 0); [lia|].
  assert (1 <= Z.quot timeout retries <= timeout) as [H1 H2].
  { split; [apply Z.quot_le_lower_bound; lia|]. apply Z.quot_le_upper_bound; nia. }
  unfold to_int64. rewrite swrap_small by (simpl; lia). destruct (Z.leb_spec (Z.quot timeout retries) 0); [lia|].
  rewrite watch_spec by lia. by rewrite Z.sub_0_r.
Qed.

(** A wallet, and a peer whose cache holds its balance. *)
Definition demo_wallet (b : byte) : Wallet := creatWallet (ed25519_Public (replicate 32 b)) (replicate 32 b).

Lemma demo_wallet_ok b : wallet_ok (demo_wallet b).
Proof. exists (replicate 32 b). split; [apply length_replicate|done]. Qed.

Lemma demo_hashes t : is_Some (Txv1_Hash t).
Proof. eexists. reflexivity. Qed.

Lemma WatchDog_answers_witness : WatchDog 4 30 3 (fun i => (i =? 4)%nat) = Some (Return RUNNING).
Proof. exact (WatchDog_answers 30 3 (fun i => (i =? 4)%nat) ltac:(lia) ltac:(lia)). Defined.

Definition demo_generation : TxGeneration :=
  {| g_duration := 0; g_txrate := 10; g_txmax := 2; g_wallet := demo_wallet x01; g_network := PRIVATE_TESTNET |}.
Definition demo_tick : tick := {| k_up := false; k_wallet := demo_wallet x02; k_nonce := 7; k_now := 3; k_txtime := 9 |}.

Lemma generate_queues_witness :
  exists txs tkr, generate (- 2 ^ 63) demo_generation [demo_tick; demo_tick; demo_tick] receiver
    = Return (with_publishQueue receiver (map ATxv1 txs), 2, tkr, true) /\ length txs = 2%nat.
Proof.
  destruct (generate_queues demo_hashes (- 2 ^ 63) demo_generation [demo_tick; demo_tick; demo_tick] receiver)
    as [Hq _].
  destruct Hq with (T := 9) as (txs & tkr & Hg & Hl & _).
  - apply demo_wallet_ok.
  - cbn. lia.
  - reflexivity.
  - reflexivity.
  - repeat constructor; cbn; try lia; apply demo_wallet_ok.
  - vm_compute. discriminate.
  - exists txs, tkr. change (Z.min _ _) with 2 in Hl. split; [rewrite Hg, Hl; reflexivity|lia].
Defined.

(** The receiver of the example, which knows ten coins of the wallet. *)
Definition rich_peer : Peer :=
  with_p_dag receiver (with_world leader_dag (with_walletCache (world leader_dag)
    {[walletAddress (demo_wallet x01) := [newPair "t" 10]]})).

Lemma rich_balance a :
  AddressToBytes (walletAddress (demo_wallet x01)) = Return a -> rpc_GetBalances rich_peer [a] = Return (Some [[x0a]]).
Proof. intros Ha. vm_compute in Ha. injection Ha as <-. vm_compute. reflexivity. Qed.

Lemma make_payment_publishes_witness :
  exists t res, payment_of (demo_wallet x01) (replicate 20 x05) 4 t
  /\ make_payment idle rich_peer 2 (demo_wallet x01) ("0x" ++ hex_EncodeToString (replicate 20 x05)) 4 7 3
     = Return (with_publishQueue rich_peer (publishQueue rich_peer ++ [ATxv1 t]), res).
Proof.
  destruct (wallet_address (demo_wallet x01) (demo_wallet_ok x01)) as [a Ha].
  destruct (make_payment_publishes demo_hashes rich_peer 2 (demo_wallet x01)
    ("0x" ++ hex_EncodeToString (replicate 20 x05)) 4 7 3 a (replicate 20 x05) [x0a])
    as (t & res & Ht & Hm & _).
  - apply demo_wallet_ok.
  - exact Ha.
  - reflexivity.
  - reflexivity.
  - exact (rich_balance a Ha).
  - exists t, res. split; [exact Ht|exact Hm].
Defined.
