(* ===== verification/Stats.v ===== *)
(** Statistics: the session of [stats/stats.go], its queue and the goroutine that
    writes to the database.

    The queue is the lock-free queue with a channel, taken at its contract: what
    was enqueued comes out in order, and [Dequeue] waits while there is nothing.
    The texts of times and of peers are arguments.  No payment that was enqueued
    is lost or repeated ([stats_in_order]); a session never stops
    ([stats_never_stop]). *)
From S2P Require Import Prelude GoLib Bytes StateMachine Tx TxRecords Storage Pool WalletCache Node Pin.
From S2P Require Import PinProps Confirmation Weights Dag Search Diffusion.

Inductive StatsDataType := TX_TYPE_PUB | TX_TYPE_SUB.

Definition StatsDataType_String (tp : StatsDataType) : string :=
  match tp with TX_TYPE_PUB => "PUB-TX" | TX_TYPE_SUB => "SUB-TX" end.

Record StatsData := {
  sd_tx : GrapeTx; sd_type : StatsDataType; sd_rctime : Z; sd_sz : Z; sd_diff : Z
}.

Record TxStats := {
  ts_PeerID : string; ts_TxID : bytes; ts_TxSender : string; ts_TxRecipient : string; ts_TxAmount : string;
  ts_TxType : string; ts_TxTime : string; ts_RcTime : string; ts_DbTime : string; ts_DiffTime : string;
  ts_MsgQueue : Z
}.

Section Stats.
Context `{CryptoLib} `{ProtoLib} `{TimestampLib} `{EthLib}.
(** [peer.ID.String()], the local text of a time and of a duration, in nanoseconds. *)
Variable peer_String : string -> string.
Variable time_String : Z -> string.
Variable duration_String : Z -> string.

(** A transaction of the record that is nil panics; [now] is when it is written. *)
Definition TxToStats (now : Z) (sd : StatsData) : outcome TxStats :=
  match g_Transaction (sd_tx sd) with
  | None => Panic
  | Some t =>
      let! sender := GetSender t in
      let! s := BytesToAddress sender in
      let! r := BytesToAddress (GetRecipient t) in
      Return {| ts_PeerID := match sd_type sd with
                             | TX_TYPE_PUB => PeerID (sd_tx sd)
                             | TX_TYPE_SUB => peer_String (PeerID (sd_tx sd)) end;
                ts_TxID := g_Tx (sd_tx sd); ts_TxSender := s; ts_TxRecipient := r;
                ts_TxAmount := dec_String (Z.abs (GetAmount t)); ts_TxType := StatsDataType_String (sd_type sd);
                ts_TxTime := time_String (1000000 * GetTimestamp now t); ts_RcTime := time_String (sd_rctime sd);
                ts_DbTime := time_String now; ts_DiffTime := duration_String (sd_diff sd);
                ts_MsgQueue := sd_sz sd |}
  end.

(** ** The session *)

(** Where the goroutine is: at the [select], in [Dequeue], or ended. *)
Inductive stats_pc := AtSelect | InDequeue | Ended.

(** [ss_stopping]: callers of [StopSession] that wait to send on [statsCh];
    [ss_sent]: those that have sent and wait for the goroutine to end. *)
Record StatsSession := {
  ss_queue : list StatsData; ss_pc : stats_pc; ss_stopFlag : bool; ss_stopping : nat; ss_sent : nat;
  ss_written : list TxStats
}.

Definition NewStatsSession : StatsSession :=
  {| ss_queue := []; ss_pc := AtSelect; ss_stopFlag := false; ss_stopping := 0; ss_sent := 0; ss_written := [] |}.

Definition at_pc (s : StatsSession) (pc : stats_pc) : StatsSession :=
  {| ss_queue := ss_queue s; ss_pc := pc; ss_stopFlag := ss_stopFlag s; ss_stopping := ss_stopping s;
     ss_sent := ss_sent s; ss_written := ss_written s |}.

(** [Enqueue] of an existing session whose id is not nil: only payments count. *)
Definition stats_Enqueue (s : StatsSession) (rec : GrapeTx) (tp : StatsDataType) (sz dur now : Z)
  : outcome StatsSession :=
  match g_Transaction rec with
  | None => Panic
  | Some t =>
      if GetTransactionType t =? PAYMENT then
        let sz := if sz =? 0 then Z.of_nat (length (ss_queue s)) else sz in
        Return {| ss_queue := ss_queue s ++ [{| sd_tx := rec; sd_type := tp; sd_rctime := now; sd_sz := sz; sd_diff := dur |}];
                  ss_pc := ss_pc s; ss_stopFlag := ss_stopFlag s; ss_stopping := ss_stopping s;
                  ss_sent := ss_sent s; ss_written := ss_written s |}
      else Return s
  end.

(** [Enqueue] by the id of the session. *)
Definition Enqueue_session (sessions : gmap uuid StatsSession) (id : uuid) (rec : GrapeTx) (tp : StatsDataType)
    (sz dur now : Z) : outcome (gmap uuid StatsSession) :=
  if bool_decide (id = uuid_Nil) then Return sessions
  else match g_Transaction rec, sessions !! id with
       | None, _ => Panic
       | Some _, None => Return sessions
       | Some _, Some s => let! s := stats_Enqueue s rec tp sz dur now in Return (<[id := s]> sessions)
       end.

(** [StopSession] begins to wait. *)
Definition StopSession (s : StatsSession) : StatsSession :=
  {| ss_queue := ss_queue s; ss_pc := ss_pc s; ss_stopFlag := ss_stopFlag s; ss_stopping := S (ss_stopping s);
     ss_sent := ss_sent s; ss_written := ss_written s |}.

(** [Dequeue] of a queue with a channel: it waits, [None], while the queue is empty,
    and so never returns nil. *)
Definition sync_Dequeue (q : list StatsData) : option (option StatsData * list StatsData) :=
  match q with [] => None | sd :: q => Some (Some sd, q) end.

(** One step of [processStatsQueue]; [None] when it waits.  The bulk of documents is
    never filled. *)
Definition stats_step (now : Z) (s : StatsSession) : option (outcome StatsSession) :=
  match ss_pc s with
  | AtSelect =>
      match ss_stopping s with
      | S n => Some (Return {| ss_queue := ss_queue s; ss_pc := AtSelect; ss_stopFlag := true; ss_stopping := n;
                               ss_sent := S (ss_sent s); ss_written := ss_written s |})
      | O => Some (Return (at_pc s InDequeue))
      end
  | InDequeue =>
      match sync_Dequeue (ss_queue s) with
      | None => None
      | Some (None, _) => Some (Return (at_pc s (if ss_stopFlag s then Ended else AtSelect)))
      | Some (Some sd, rest) => Some (
          let! doc := TxToStats now sd in
          Return {| ss_queue := rest; ss_pc := AtSelect; ss_stopFlag := ss_stopFlag s; ss_stopping := ss_stopping s;
                    ss_sent := ss_sent s; ss_written := ss_written s ++ [doc] |})
      end
  | Ended => None
  end.

(** ** Runs *)

Inductive stats_action := SEnqueue (rec : GrapeTx) (tp : StatsDataType) (sz dur now : Z) | SStop | SWork (now : Z).

Fixpoint stats_run (s : StatsSession) (acts : list stats_action) : outcome StatsSession :=
  match acts with
  | [] => Return s
  | a :: acts =>
      let! s := match a with
                | SEnqueue rec tp sz dur now => stats_Enqueue s rec tp sz dur now
                | SStop => Return (StopSession s)
                | SWork now => default (Return s) (stats_step now s)
                end in
      stats_run s acts
  end.

(** The records of payments in the order they are enqueued. *)
Definition payment_records (acts : list stats_action) : list GrapeTx :=
  omap (fun a => match a with
                 | SEnqueue rec _ _ _ _ =>
                     match g_Transaction rec with
                     | Some t => if GetTransactionType t =? PAYMENT then Some rec else None
                     | None => None
                     end
                 | _ => None
                 end) acts.

Lemma TxToStats_id now sd d : TxToStats now sd = Return d -> ts_TxID d = g_Tx (sd_tx sd).
Proof using Type.
  unfold TxToStats. destruct (g_Transaction _) as [t|]; [|done].
  destruct (GetSender t) as [x|]; cbn [outcome_bind]; [|done].
  destruct (BytesToAddress x); cbn [outcome_bind]; [|done].
  destruct (BytesToAddress (GetRecipient t)); cbn [outcome_bind]; [|done]. by intros [= <-].
Qed.

(** The transactions that were written and that wait, by their ids. *)
Definition seen (s : StatsSession) : list bytes :=
  map ts_TxID (ss_written s) ++ map (fun sd => g_Tx (sd_tx sd)) (ss_queue s).

Lemma stats_run_seen acts : forall s s',
  stats_run s acts = Return s' -> ss_pc s <> Ended ->
  seen s' = seen s ++ map g_Tx (payment_records acts) /\ ss_pc s' <> Ended
  /\ (ss_stopping s' + ss_sent s' = ss_stopping s + ss_sent s + length (List.filter (fun a => match a with SStop => true | _ => false end) acts))%nat.
Proof using Type.
  induction acts as [|a acts IH]; intros s s'; cbn [stats_run].
  { intros [= <-] Hpc. cbn. rewrite app_nil_r. split; [done|]. split; [done|lia]. }
  destruct a as [rec tp sz dur now| |now].
  - unfold stats_Enqueue. cbn [payment_records omap list_omap List.filter].
    destruct (g_Transaction rec) as [t|]; [|done].
    destruct (GetTransactionType t =? PAYMENT); cbn [outcome_bind]; intros Hr Hpc; apply IH in Hr as (Hs & Hp & Hn); try done.
    split; [|done]. rewrite Hs. unfold seen. cbn [ss_written ss_queue map].
    rewrite map_app. cbn [map sd_tx]. by rewrite <- !app_assoc.
  - cbn [outcome_bind payment_records omap list_omap List.filter length]. intros Hr Hpc. apply IH in Hr as (Hs & Hp & Hn); [|done].
    split; [done|]. split; [done|]. cbn in Hn. lia.
  - cbn [payment_records omap list_omap List.filter]. intros Hr Hpc.
    destruct (stats_step now s) as [o|] eqn:Eo; cbn [default outcome_bind] in Hr; [|by apply IH in Hr].
    unfold stats_step in Eo. destruct (ss_pc s) eqn:Ep; [| |done].
    + destruct (ss_stopping s) as [|n] eqn:En; injection Eo as <-; cbn [outcome_bind] in Hr; apply IH in Hr as (Hs & Hp & Hn); try done.
      * split; [done|]. split; [done|]. cbn in Hn. lia.
      * split; [done|]. split; [done|]. cbn in Hn. lia.
    + destruct (ss_queue s) as [|sd rest] eqn:Eq; [done|]. cbn [sync_Dequeue] in Eo. injection Eo as <-.
      destruct (TxToStats now sd) as [d|] eqn:Ed; cbn [outcome_bind] in Hr; [|done].
      apply IH in Hr as (Hs & Hp & Hn); [|done]. split; [|done]. rewrite Hs. unfold seen. cbn [ss_written ss_queue].
      rewrite Eq, map_app. cbn [map]. rewrite (TxToStats_id _ _ _ Ed). by rewrite <- !app_assoc.
Qed.

(** What is written and what waits, together, are the enqueued payments in their
    order: none is lost or written twice. *)
Theorem stats_in_order acts s :
  stats_run NewStatsSession acts = Return s ->
  map ts_TxID (ss_written s) ++ map (fun sd => g_Tx (sd_tx sd)) (ss_queue s) = map g_Tx (payment_records acts).
Proof using Type. intros Hr. by apply stats_run_seen in Hr as (Hs & _ & _). Qed.

(** A statistics session never stops.  Whatever is enqueued and however often
    [StopSession] is called, the goroutine does not end, and every caller is still
    waiting, to send its request or for the end; and once the queue is empty and
    no request is left to receive the goroutine waits in [Dequeue], where the
    request it received has no effect. *)
Theorem stats_never_stop acts s :
  stats_run NewStatsSession acts = Return s ->
  ss_pc s <> Ended
  /\ (ss_stopping s + ss_sent s)%nat = length (List.filter (fun a => match a with SStop => true | _ => false end) acts)
  /\ (ss_queue s = [] -> ss_stopping s = 0%nat ->
      exists s1, stats_run s [SWork 0; SWork 0; SWork 0] = Return s1 /\ ss_pc s1 = InDequeue
      /\ forall now, stats_step now s1 = None).
Proof using Type.
  intros Hr. apply stats_run_seen in Hr as (_ & Hp & Hn); [|done]. split; [done|]. split; [done|].
  intros Hq Hs. exists (at_pc s InDequeue). unfold stats_run, stats_step. destruct (ss_pc s) eqn:Ep; [| |done].
  - rewrite Hs. cbn. rewrite Hq. cbn. rewrite Hq. done.
  - rewrite Hq. cbn. rewrite Ep, Hq. cbn. rewrite Ep, Hq. cbn.
    split; [|split; [done|done]]. f_equal. unfold at_pc. rewrite <- Ep. by destruct s.
Qed.
End Stats.

(** Two requests to stop an idle session. *)
Lemma stats_never_stop_witness :
  exists s, stats_run (fun x => x) (fun _ => "") (fun _ => "") NewStatsSession [SStop; SStop; SWork 0; SWork 0] = Return s
  /\ ss_pc s <> Ended.
Proof.
  eexists. split; [reflexivity|].
  apply (stats_never_stop (fun x => x) (fun _ => "") (fun _ => "") [SStop; SStop; SWork 0; SWork 0]). reflexivity.
Defined.
