(* ===== verification/PubQueue.v ===== *)
(** The priority queue of [queues/txqueue.go], with the functions of Go's
    [container/heap] it is used with.

    Items are pointers in the code; nothing but the slice keeps them between
    calls, so a queue is a list of items.  Indices beyond the slice panic.  The
    overflow test of [heap.down] is left out: a slice is shorter than half of the
    largest int. *)
From Equations Require Import Equations.
From S2P Require Import Prelude GoLib.

Section PriorityQueue.
Context {V : Type}.

Record Item := { value : V; priority : Z; index : Z }.

Definition set_index (x : Item) (i : Z) : Item := {| value := value x; priority := priority x; index := i |}.

Abbreviation PriorityQueue := (list Item).

Definition Less (pq : PriorityQueue) (i j : nat) : outcome bool :=
  match pq !! i, pq !! j with
  | Some a, Some b => Return (priority b <? priority a)
  | _, _ => Panic
  end.

Definition Swap (pq : PriorityQueue) (i j : nat) : outcome PriorityQueue :=
  match pq !! i, pq !! j with
  | Some a, Some b =>
      Return (<[j := set_index a (Z.of_nat j)]> (<[i := set_index b (Z.of_nat i)]> pq))
  | _, _ => Panic
  end.

Definition PriorityQueue_Push (pq : PriorityQueue) (x : Item) : PriorityQueue :=
  pq ++ [set_index x (Z.of_nat (length pq))].

Definition PriorityQueue_Pop (pq : PriorityQueue) : outcome (PriorityQueue * Item) :=
  match last pq with
  | Some item => Return (take (length pq - 1) pq, set_index item (-1))
  | None => Panic
  end.

(** ** container/heap *)

Equations? heap_up (pq : PriorityQueue) (j : nat) : outcome PriorityQueue by wf j lt :=
  heap_up pq j with decide ((j - 1) / 2 = j)%nat => {
    | left _ := Return pq;
    | right _ := outcome_bind (Less pq j ((j - 1) / 2)) (fun less =>
        if less then outcome_bind (Swap pq ((j - 1) / 2) j) (fun pq => heap_up pq ((j - 1) / 2))
        else Return pq) }.
Proof. destruct j as [|j]; [done|]. apply Nat.Div0.div_lt_upper_bound. lia. Qed.

(** The child with the higher priority, the left one when they are equal. *)
Definition best_child (pq : PriorityQueue) (i n : nat) : outcome nat :=
  let j1 := (2 * i + 1)%nat in
  if (j1 + 1 <? n)%nat then
    let! less := Less pq (j1 + 1) j1 in Return (if less then (j1 + 1)%nat else j1)
  else Return j1.

(** The index at which the item comes to rest comes with the queue.  Each round
    moves to a child; [n] of them are more than enough. *)
Fixpoint heap_down (rounds : nat) (pq : PriorityQueue) (i n : nat) : outcome (PriorityQueue * nat) :=
  match rounds with
  | O => Return (pq, i)
  | S rounds =>
      if (n <=? 2 * i + 1)%nat then Return (pq, i)
      else
        let! j := best_child pq i n in
        let! less := Less pq j i in
        if less then let! pq := Swap pq i j in heap_down rounds pq j n else Return (pq, i)
  end.

Fixpoint heap_Init_from (pq : PriorityQueue) (k n : nat) : outcome PriorityQueue :=
  match k with
  | O => Return pq
  | S i => let! r := heap_down n pq i n in heap_Init_from (fst r) i n
  end.

Definition heap_Init (pq : PriorityQueue) : outcome PriorityQueue :=
  heap_Init_from pq (length pq / 2) (length pq).

Definition heap_Push (pq : PriorityQueue) (x : Item) : outcome PriorityQueue :=
  let pq := PriorityQueue_Push pq x in heap_up pq (length pq - 1).

(** [h.Swap(0, n)] panics on an empty queue. *)
Definition heap_Pop (pq : PriorityQueue) : outcome (PriorityQueue * Item) :=
  let n := (length pq - 1)%nat in
  let! pq := Swap pq 0 n in
  let! r := heap_down n pq 0 n in
  PriorityQueue_Pop (fst r).

Definition heap_Fix (pq : PriorityQueue) (i : nat) : outcome PriorityQueue :=
  let! r := heap_down (length pq) pq i (length pq) in
  if (i <? snd r)%nat then Return (fst r) else heap_up (fst r) i.

(** [update] of the item at position [i]. *)
Definition update (pq : PriorityQueue) (i : nat) (v : V) (p : Z) : outcome PriorityQueue :=
  match pq !! i with
  | Some item => heap_Fix (<[i := {| value := v; priority := p; index := index item |}]> pq) i
  | None => Panic
  end.

(** [test]: the items of the argument and one more, taken out again. *)
Fixpoint drain (rounds : nat) (pq : PriorityQueue) : outcome (list Item) :=
  match rounds with
  | O => Return []
  | S rounds =>
      if (0 <? length pq)%nat then
        let! r := heap_Pop pq in let! l := drain rounds (fst r) in Return (snd r :: l)
      else Return []
  end.

Definition test (items : list (V * Z)) (v : V) : outcome (list Item) :=
  let pq := imap (fun i x => {| value := fst x; priority := snd x; index := Z.of_nat i |}) items in
  let! pq := heap_Init pq in
  let! pq := heap_Push pq {| value := v; priority := 1; index := 0 |} in
  drain (length pq) pq.

(** ** The publish queue *)

Definition PUB_QUEUE_CAPACITY : nat := 999999%nat.

(** The queue and the tokens of its channel; the callers of [Enqueue] that have
    passed the test of the length, with what they enqueue, and that have pushed
    but not sent their token; the callers of [Dequeue] that hold a token. *)
Record PublishQueue := {
  pq_q : PriorityQueue; pq_c : nat; pq_ready : list (V * Z); pq_pushed : nat; pq_taken : nat
}.

Definition GetPublishQueueEx : PublishQueue :=
  {| pq_q := []; pq_c := 0; pq_ready := []; pq_pushed := 0; pq_taken := 0 |}.

(** One step of a caller: the mutex is held for each of the first two steps of
    [Enqueue] and for the last one of [Dequeue]. *)
Inductive pq_action := PCheck (v : V) (p : Z) | PPush (k : nat) | PSend | PReceive | PPop.

(** [None]: the step is not possible now.  The result of a [Dequeue] comes with
    the queue. *)
Definition PublishQueue_step (s : PublishQueue) (a : pq_action) : option (outcome (PublishQueue * option Item)) :=
  match a with
  | PCheck v p =>
      if (length (pq_q s) <? PUB_QUEUE_CAPACITY)%nat then
        Some (Return ({| pq_q := pq_q s; pq_c := pq_c s; pq_ready := pq_ready s ++ [(v, p)];
                         pq_pushed := pq_pushed s; pq_taken := pq_taken s |}, None))
      else None
  | PPush k =>
      match pq_ready s !! k with
      | None => None
      | Some x => Some (
          let! q := heap_Push (pq_q s) {| value := fst x; priority := snd x; index := 0 |} in
          Return ({| pq_q := q; pq_c := pq_c s; pq_ready := delete k (pq_ready s);
                     pq_pushed := S (pq_pushed s); pq_taken := pq_taken s |}, None))
      end
  | PSend =>
      match pq_pushed s with
      | O => None
      | S n => if (pq_c s <? PUB_QUEUE_CAPACITY)%nat then
                 Some (Return ({| pq_q := pq_q s; pq_c := S (pq_c s); pq_ready := pq_ready s;
                                  pq_pushed := n; pq_taken := pq_taken s |}, None))
               else None
      end
  | PReceive =>
      match pq_c s with
      | O => None
      | S c => Some (Return ({| pq_q := pq_q s; pq_c := c; pq_ready := pq_ready s;
                                pq_pushed := pq_pushed s; pq_taken := S (pq_taken s) |}, None))
      end
  | PPop =>
      match pq_taken s with
      | O => None
      | S n => Some (
          let! r := heap_Pop (pq_q s) in
          Return ({| pq_q := fst r; pq_c := pq_c s; pq_ready := pq_ready s;
                     pq_pushed := pq_pushed s; pq_taken := n |}, Some (snd r)))
      end
  end.
End PriorityQueue.
Arguments Item : clear implicits.
Arguments PublishQueue : clear implicits.
Arguments pq_action : clear implicits.
