(* ===== verification/PubQueueProps.v ===== *)
(** The priority queue: the functions of [container/heap] keep the heap order and
    the items, taking out gives the highest priority
    ([publish_queue_priorities]), and [test] prints in decreasing order
    ([test_decreasing]). *)
From Equations Require Import Equations.
From S2P Require Import Prelude GoLib PubQueue.

Section Heap.
Context {V : Type}.
Implicit Types pq : list (Item V).

(** ** The heap order *)

Definition key pq (i : nat) : Z := default 0 (priority <$> pq !! i).
Definition child (i c : nat) : Prop := (c = 2 * i + 1 \/ c = 2 * i + 2)%nat.

(** The parents from [lo] on are not below their children before [n]. *)
Definition heap_from pq (lo n : nat) : Prop :=
  forall i c, child i c -> (c < n)%nat -> (lo <= i)%nat -> key pq c <= key pq i.
Definition heap pq : Prop := heap_from pq 0 (length pq).

(** The values with their priorities, and the positions kept in the items. *)
Definition contents pq : list (V * Z) := (fun x => (value x, priority x)) <$> pq.
Definition indexed pq : Prop := forall i x, pq !! i = Some x -> index x = Z.of_nat i.

(** [pq'] has the items of [pq], in other places. *)
Record rearranged pq pq' : Prop := {
  r_contents : contents pq' ≡ₚ contents pq;
  r_indexed : indexed pq -> indexed pq'
}.

Lemma rearranged_refl pq : rearranged pq pq.
Proof using Type. by split. Qed.

Lemma rearranged_trans a b c : rearranged a b -> rearranged b c -> rearranged a c.
Proof using Type. intros [H1 H2] [H3 H4]. split; [by rewrite H3|auto]. Qed.

Lemma rearranged_length pq pq' : rearranged pq pq' -> length pq' = length pq.
Proof using Type. intros [Hp _]. apply Permutation_length in Hp. unfold contents in Hp. by rewrite !length_fmap in Hp. Qed.

Lemma key_lookup pq i x : pq !! i = Some x -> key pq i = priority x.
Proof using Type. intros H. unfold key. by rewrite H. Qed.

Lemma Less_in pq i j :
  (i < length pq)%nat -> (j < length pq)%nat -> Less pq i j = Return (key pq j <? key pq i).
Proof using Type.
  intros [a Ha]%lookup_lt_is_Some [b Hb]%lookup_lt_is_Some. unfold Less, key. by rewrite Ha, Hb.
Qed.

Lemma Swap_in pq i j :
  (i < length pq)%nat -> (j < length pq)%nat ->
  exists pq', Swap pq i j = Return pq' /\ rearranged pq pq'
  /\ (forall x, pq !! i = Some x -> pq' !! j = Some (set_index x (Z.of_nat j)))
  /\ (forall k, k <> i -> k <> j -> pq' !! k = pq !! k)
  /\ forall k, key pq' k = if decide (k = j) then key pq i else if decide (k = i) then key pq j else key pq k.
Proof using Type.
  intros Hi Hj. pose proof Hi as [a Ha]%lookup_lt_is_Some. pose proof Hj as [b Hb]%lookup_lt_is_Some.
  unfold Swap. rewrite Ha, Hb. eexists. split; [done|].
  assert (forall k, <[j:=set_index a (Z.of_nat j)]> (<[i:=set_index b (Z.of_nat i)]> pq) !! k
    = if decide (k = j) then Some (set_index a (Z.of_nat j))
      else if decide (k = i) then Some (set_index b (Z.of_nat i)) else pq !! k) as Hk.
  { intros k. destruct (decide (k = j)) as [->|Hkj]; [rewrite list_lookup_insert_eq; [done|by rewrite length_insert]|].
    rewrite list_lookup_insert_ne by done.
    destruct (decide (k = i)) as [->|Hki]; [by rewrite list_lookup_insert_eq|by rewrite list_lookup_insert_ne]. }
  split_and!.
  - split.
    + unfold contents. etransitivity; [|apply (Permutation_insert_swap _ i j (value a, priority a) (value b, priority b))].
      * by rewrite !list_fmap_insert.
      * by rewrite list_lookup_fmap, Ha.
      * by rewrite list_lookup_fmap, Hb.
    + intros Hx k x. rewrite Hk. repeat case_decide; intros [= <-] || intros ?; subst; [done..|by apply Hx].
  - intros x Hx. rewrite Hk, decide_True by done. congruence.
  - intros k Hki Hkj. by rewrite Hk, !decide_False.
  - intros k. unfold key. rewrite Hk. repeat case_decide; subst; rewrite ?Ha, ?Hb; done.
Qed.

(** ** Moving up *)

(** The order holds but for the item at [j] and its parent, and the children of [j]
    are not above its parent. *)
Definition weak_up pq (j : nat) : Prop :=
  (forall i c, child i c -> (c < length pq)%nat -> c <> j -> key pq c <= key pq i)
  /\ (forall i c, child i j -> child j c -> (c < length pq)%nat -> key pq c <= key pq i).

Lemma parent_child j : (0 < j)%nat -> child ((j - 1) / 2) j /\ ((j - 1) / 2 < j)%nat.
Proof using Type.
  intros Hj. pose proof (Nat.div_mod_eq (j - 1) 2). pose proof (Nat.mod_upper_bound (j - 1) 2). unfold child. lia.
Qed.

Lemma child_parent i j : child i j -> ((j - 1) / 2 = i)%nat.
Proof using Type.
  intros Hc. destruct (parent_child j) as [Hp _]; [unfold child in Hc; lia|]. unfold child in *. lia.
Qed.

Lemma heap_up_eq pq j :
  heap_up pq j
  = if decide ((j - 1) / 2 = j)%nat then Return pq
    else let! less := Less pq j ((j - 1) / 2) in
         if less then let! pq := Swap pq ((j - 1) / 2) j in heap_up pq ((j - 1) / 2) else Return pq.
Proof using Type. simp heap_up. unfold heap_up_unfold_clause_1 || idtac. by destruct (decide _). Qed.

Lemma heap_up_spec j : forall pq,
  (j < length pq)%nat -> weak_up pq j -> exists pq', heap_up pq j = Return pq' /\ rearranged pq pq' /\ heap pq'.
Proof using Type.
  induction j as [j IH] using lt_wf_ind. intros pq Hj [Hw1 Hw2]. rewrite heap_up_eq.
  destruct (decide _) as [He|He].
  { exists pq. split; [done|]. split; [apply rearranged_refl|]. intros i c Hc Hl _. apply Hw1; [done..|].
    destruct j; [unfold child in Hc; lia|]. destruct (parent_child (S j)); lia. }
  destruct (parent_child j) as [Hp Hlt]; [destruct j; [done|lia]|].
  set (p := ((j - 1) / 2)%nat) in *. rewrite Less_in by lia. cbn [outcome_bind].
  destruct (Z.ltb_spec (key pq p) (key pq j)) as [Hk|Hk].
  - destruct (Swap_in pq p j) as (pq' & -> & Hr & _ & _ & Hkey); [lia..|]. cbn [outcome_bind].
    pose proof (rearranged_length _ _ Hr) as Hlen.
    destruct (IH p Hlt pq') as (pq2 & -> & Hr2 & Hh); [lia| |].
    2:{ exists pq2. split; [done|]. split; [by eapply rearranged_trans|done]. }
    split.
    + intros i c Hc Hl Hcp. rewrite !Hkey. rewrite Hlen in Hl.
      destruct (decide (c = j)) as [->|Hcj].
      { rewrite (decide_False (P := i = j)) by (unfold child in *; lia).
        rewrite decide_True by (unfold child in *; lia). lia. }
      rewrite (decide_False (P := c = p)) by done. destruct (decide (i = j)) as [->|Hij]; [by apply (Hw2 p)|].
      destruct (decide (i = p)) as [->|Hip]; [|by apply Hw1]. specialize (Hw1 p c Hc Hl Hcj). lia.
    + intros i c Hi Hc Hl. rewrite !Hkey. rewrite Hlen in Hl.
      rewrite (decide_False (P := i = j)), (decide_False (P := i = p)) by (unfold child in *; lia).
      assert (key pq p <= key pq i) as Hpi by (apply Hw1; [done|lia|lia]).
      destruct (decide (c = j)) as [->|Hcj]; [done|].
      rewrite decide_False by (unfold child in *; lia). specialize (Hw1 p c Hc Hl Hcj). lia.
  - exists pq. split; [done|]. split; [apply rearranged_refl|]. intros i c Hc Hl _.
    destruct (decide (c = j)) as [->|Hcj]; [|by apply Hw1].
    apply child_parent in Hc. fold p in Hc. subst i. lia.
Qed.

(** ** Moving down *)

(** The order holds from [lo] on but for the item at [i] and its children, and these
    are not above its parent. *)
Definition weak_down pq (lo n i : nat) : Prop :=
  (forall k c, child k c -> (c < n)%nat -> (lo <= k)%nat -> k <> i -> key pq c <= key pq k)
  /\ (forall k c, child k i -> child i c -> (c < n)%nat -> (lo <= k)%nat -> key pq c <= key pq k).

Lemma best_child_spec pq i n :
  (2 * i + 1 < n)%nat -> (n <= length pq)%nat ->
  exists j, best_child pq i n = Return j /\ child i j /\ (j < n)%nat
  /\ forall c, child i c -> (c < n)%nat -> key pq c <= key pq j.
Proof using Type.
  intros Hi Hn. unfold best_child. destruct (Nat.ltb_spec (2 * i + 1 + 1) n) as [H2|H2].
  - rewrite Less_in by lia. cbn [outcome_bind]. eexists. split; [done|].
    destruct (Z.ltb_spec (key pq (2 * i + 1)) (key pq (2 * i + 1 + 1))) as [Hk|Hk];
      (split; [unfold child; lia|]; split; [lia|]); intros c [->| ->] Hc; try lia;
      replace (2 * i + 2)%nat with (2 * i + 1 + 1)%nat by lia; lia.
  - eexists. split; [done|]. split; [by left|]. split; [done|]. intros c [->| ->] Hc; lia.
Qed.

Lemma heap_down_spec lo n rounds : forall pq i,
  (n <= length pq)%nat -> (n <= i + rounds)%nat -> (lo <= i)%nat -> weak_down pq lo n i ->
  exists pq' i', heap_down rounds pq i n = Return (pq', i') /\ rearranged pq pq' /\ heap_from pq' lo n
  /\ (forall k, (n <= k)%nat -> pq' !! k = pq !! k) /\ (i <= i')%nat /\ (i' = i -> pq' = pq).
Proof using Type.
  induction rounds as [|rounds IH]; intros pq i Hn Hrounds Hlo [Hw1 Hw2]; cbn [heap_down].
  { exists pq, i. split_and!; try done. intros k c Hc Hl Hk. apply Hw1; try done.
    unfold child in Hc. lia. }
  destruct (Nat.leb_spec n (2 * i + 1)) as [Hle|Hgt].
  { exists pq, i. split_and!; try done. intros k c Hc Hl Hk. apply Hw1; try done.
    unfold child in Hc. lia. }
  destruct (best_child_spec pq i n) as (j & -> & Hj & Hjn & Hbest); [done..|]. cbn [outcome_bind].
  assert (i < j)%nat as Hij by (unfold child in Hj; lia).
  rewrite Less_in by lia. cbn [outcome_bind]. destruct (Z.ltb_spec (key pq i) (key pq j)) as [Hk|Hk].
  - destruct (Swap_in pq i j) as (pq' & -> & Hr & _ & Hsame & Hkey); [lia..|]. cbn [outcome_bind].
    pose proof (rearranged_length _ _ Hr) as Hlen.
    destruct (IH pq' j) as (pq2 & i2 & -> & Hr2 & Hh & Hs2 & Hi2 & _); [lia|lia|lia| |].
    2:{ exists pq2, i2. split_and!; [done|by eapply rearranged_trans|done| |lia|lia].
        intros k Hkn. rewrite Hs2 by done. apply Hsame; lia. }
    split.
    + intros k c Hc Hl Hlok Hkj. rewrite !Hkey. rewrite (decide_False (P := k = j)) by done.
      destruct (decide (c = j)) as [->|Hcj].
      { rewrite decide_True by (unfold child in *; lia). lia. }
      destruct (decide (c = i)) as [->|Hci].
      { rewrite decide_False by (unfold child in *; lia). by apply Hw2. }
      destruct (decide (k = i)) as [->|Hki]; [by apply Hbest|by apply Hw1].
    + intros k c Hkj Hc Hl Hlok. rewrite !Hkey.
      assert (k = i) as -> by (unfold child in *; lia).
      rewrite (decide_False (P := c = j)), (decide_False (P := c = i)) by (unfold child in *; lia).
      rewrite decide_False, decide_True by (done || lia). apply Hw1; try done; lia.
  - exists pq, i. split_and!; try done. intros k c Hc Hl Hlok.
    destruct (decide (k = i)) as [->|Hki]; [|by apply Hw1]. specialize (Hbest c Hc Hl). lia.
Qed.

(** An item that is not below its children stays. *)
Lemma heap_down_stays pq i n rounds :
  (n <= length pq)%nat -> (forall c, child i c -> (c < n)%nat -> key pq c <= key pq i) ->
  heap_down rounds pq i n = Return (pq, i).
Proof using Type.
  intros Hn Hc. destruct rounds as [|rounds]; cbn [heap_down]; [done|].
  destruct (Nat.leb_spec n (2 * i + 1)); [done|].
  destruct (best_child_spec pq i n) as (j & -> & Hj & Hjn & _); [done..|]. cbn [outcome_bind].
  rewrite Less_in by (unfold child in Hj; lia). cbn [outcome_bind]. specialize (Hc j Hj Hjn).
  destruct (Z.ltb_spec (key pq i) (key pq j)); [lia|done].
Qed.

(** ** The operations *)

Lemma heap_Init_from_spec n k : forall pq,
  n = length pq -> heap_from pq k n ->
  exists pq', heap_Init_from pq k n = Return pq' /\ rearranged pq pq' /\ heap pq'.
Proof using Type.
  induction k as [|i IH]; intros pq -> Hh; cbn [heap_Init_from].
  { exists pq. split; [done|]. split; [apply rearranged_refl|done]. }
  destruct (heap_down_spec i (length pq) (length pq) pq i) as (pq1 & i1 & -> & Hr & Hh1 & _); [lia..| |].
  { split; [|intros k c Hk; unfold child in Hk; lia]. intros k c Hc Hl Hk Hne. apply Hh; [done..|lia]. }
  cbn [outcome_bind fst]. pose proof (rearranged_length _ _ Hr) as Hlen.
  destruct (IH pq1) as (pq2 & Hp2 & Hr2 & Hh2); [done|done|].
  exists pq2. split; [done|]. split; [by eapply rearranged_trans|done].
Qed.

Lemma heap_Init_spec pq : exists pq', heap_Init pq = Return pq' /\ rearranged pq pq' /\ heap pq'.
Proof using Type.
  apply heap_Init_from_spec; [done|]. intros i c Hc Hl Hi.
  pose proof (Nat.div_mod_eq (length pq) 2). pose proof (Nat.mod_upper_bound (length pq) 2). unfold child in Hc. lia.
Qed.

Lemma key_app pq x i : key (pq ++ [x]) i = if decide (i = length pq) then priority x else key pq i.
Proof using Type.
  unfold key. destruct (decide (i = length pq)) as [->|Hi]; [by rewrite list_lookup_middle|].
  destruct (decide (i < length pq)%nat); [by rewrite lookup_app_l|].
  rewrite lookup_ge_None_2 by (rewrite length_app; simpl; lia). by rewrite lookup_ge_None_2 by lia.
Qed.

Lemma heap_Push_spec pq x :
  heap pq -> exists pq', heap_Push pq x = Return pq' /\ heap pq'
  /\ contents pq' ≡ₚ (value x, priority x) :: contents pq /\ (indexed pq -> indexed pq').
Proof using Type.
  intros Hh. unfold heap_Push, PriorityQueue_Push. set (y := set_index x _).
  rewrite length_app. cbn [length]. replace (length pq + 1 - 1)%nat with (length pq) by lia.
  destruct (heap_up_spec (length pq) (pq ++ [y])) as (pq' & -> & [Hc Hi] & Hh').
  - rewrite length_app. simpl. lia.
  - split.
    + intros i c Hic Hl Hne. rewrite length_app in Hl. simpl in Hl. rewrite !key_app.
      rewrite !decide_False by (unfold child in Hic; lia). apply Hh; [done|lia|lia].
    + intros i c _ Hic Hl. rewrite length_app in Hl. simpl in Hl. unfold child in Hic. lia.
  - exists pq'. split; [done|]. split; [done|]. split.
    + rewrite Hc. unfold contents. rewrite fmap_app. cbn. by rewrite Permutation_app_comm.
    + intros Hx. apply Hi. intros i z Hz. apply lookup_snoc_Some in Hz as [[_ Hz]|[-> <-]]; [by apply Hx|done].
Qed.

(** The root of a heap is not below any item. *)
Lemma heap_root pq n i : heap_from pq 0 n -> (i < n)%nat -> key pq i <= key pq 0.
Proof using Type.
  intros Hh. induction i as [i IH] using lt_wf_ind. intros Hi. destruct i as [|i]; [done|].
  destruct (parent_child (S i)) as [Hc Hlt]; [lia|].
  etransitivity; [apply (Hh _ _ Hc); lia|]. apply IH; lia.
Qed.

Lemma contents_le pq p : (forall i, (i < length pq)%nat -> key pq i <= p) -> Forall (fun x => snd x <= p) (contents pq).
Proof using Type.
  intros Hk. apply Forall_fmap, Forall_lookup. intros i x Hx. cbn. rewrite <- (key_lookup _ _ _ Hx).
  apply Hk. by eapply lookup_lt_Some.
Qed.

Lemma heap_Pop_spec pq :
  heap pq -> pq <> [] ->
  exists pq' x, heap_Pop pq = Return (pq', x) /\ heap pq'
  /\ (value x, priority x) :: contents pq' ≡ₚ contents pq
  /\ Forall (fun y => snd y <= priority x) (contents pq') /\ (indexed pq -> indexed pq').
Proof using Type.
  intros Hh Hne. assert (0 < length pq)%nat as Hl by (destruct pq; [done|simpl; lia]).
  pose proof Hl as [r Hr0]%lookup_lt_is_Some. unfold heap_Pop. set (n := (length pq - 1)%nat).
  destruct (Swap_in pq 0 n) as (pq1 & -> & Hr1 & Hroot & _ & Hkey); [lia..|]. cbn [outcome_bind].
  pose proof (rearranged_length _ _ Hr1) as Hlen1.
  destruct (heap_down_spec 0 n n pq1 0) as (pq2 & i2 & -> & Hr2 & Hh2 & Hsame & _); [lia..| |].
  { split; [|intros k c Hk; unfold child in Hk; lia]. intros k c Hc Hcn Hk Hk0. rewrite !Hkey.
    rewrite !decide_False by (unfold child in Hc; lia). apply Hh; [done|lia|lia]. }
  cbn [outcome_bind fst]. unfold PriorityQueue_Pop.
  pose proof (rearranged_length _ _ Hr2) as Hlen2.
  assert (pq2 !! n = Some (set_index r (Z.of_nat n))) as Hlast by (rewrite Hsame by lia; by apply Hroot).
  assert (pq2 = take n pq2 ++ [set_index r (Z.of_nat n)]) as Hsplit.
  { rewrite <- (take_drop n pq2) at 1. f_equal. rewrite (drop_S _ _ _ Hlast). f_equal. apply drop_ge. lia. }
  rewrite last_lookup. replace (Nat.pred (length pq2)) with n by lia. rewrite Hlast.
  replace (length pq2 - 1)%nat with n by lia.
  eexists _, _. split; [done|].
  assert (length (take n pq2) = n) as Hlt by (rewrite length_take; lia).
  assert (forall i, (i < n)%nat -> key (take n pq2) i = key pq2 i) as Hkt by (intros i Hi; unfold key; by rewrite lookup_take_lt).
  assert ((value r, priority r) :: contents (take n pq2) ≡ₚ contents pq) as Hperm.
  { rewrite <- (r_contents _ _ Hr1), <- (r_contents _ _ Hr2). rewrite Hsplit at 2. unfold contents.
    rewrite fmap_app. cbn. by rewrite Permutation_app_comm. }
  split_and!.
  - intros i c Hc Hcl Hi. rewrite Hlt in Hcl. rewrite !Hkt by (unfold child in Hc; lia). by apply Hh2.
  - exact Hperm.
  - cbn [set_index priority]. rewrite <- (key_lookup _ _ _ Hr0).
    assert (Forall (fun y => snd y <= key pq 0) (contents pq)) as Hall.
    { apply contents_le. intros i Hi. by eapply heap_root. }
    rewrite <- Hperm in Hall. by apply Forall_cons in Hall as [_ Hall].
  - intros Hx i x Hxi. apply lookup_take_Some in Hxi as [Hxi _].
    by apply (r_indexed _ _ Hr2 (r_indexed _ _ Hr1 Hx)).
Qed.

(** [heap.Fix] restores the order around one changed item. *)
Lemma heap_Fix_spec pq i :
  (i < length pq)%nat ->
  (forall k c, child k c -> (c < length pq)%nat -> k <> i -> c <> i -> key pq c <= key pq k) ->
  (forall k c, child k i -> child i c -> (c < length pq)%nat -> key pq c <= key pq k) ->
  exists pq', heap_Fix pq i = Return pq' /\ rearranged pq pq' /\ heap pq'.
Proof using Type.
  intros Hi Hrest Hgrand. unfold heap_Fix.
  destruct (decide ((0 < i)%nat /\ key pq ((i - 1) / 2) < key pq i)) as [[H0 Hlt]|Hn].
  - destruct (parent_child i H0) as [Hp _].
    assert (forall c, child i c -> (c < length pq)%nat -> key pq c <= key pq i) as Hch
      by (intros c Hc Hl; specialize (Hgrand _ c Hp Hc Hl); lia).
    rewrite heap_down_stays by done. cbn [outcome_bind fst snd]. rewrite Nat.ltb_irrefl.
    apply heap_up_spec; [done|]. split; [|by apply Hgrand]. intros k c Hc Hl Hci.
    destruct (decide (k = i)) as [->|Hk]; [by apply Hch|by apply Hrest].
  - destruct (heap_down_spec 0 (length pq) (length pq) pq i) as (pq1 & i1 & -> & Hr & Hh & _ & Hle & Hsame); [lia..| |].
    { split; [|by intros k c Hk Hc Hl _; apply Hgrand]. intros k c Hc Hl _ Hk.
      destruct (decide (c = i)) as [->|Hci]; [|by apply Hrest]. apply child_parent in Hc as Hk2. subst k.
      destruct (decide (0 < i)%nat); [|unfold child in Hc; lia]. lia. }
    cbn [outcome_bind fst snd]. destruct (Nat.ltb_spec i i1) as [Hlt|Hge].
    { exists pq1. split; [done|]. split; [done|]. unfold heap. by rewrite (rearranged_length _ _ Hr). }
    rewrite (Hsame ltac:(lia)) in *. apply heap_up_spec; [done|]. split; [|by apply Hgrand].
    intros k c Hc Hl _. apply Hh; [done|done|lia].
Qed.

Lemma update_spec pq i v p :
  heap pq -> (i < length pq)%nat ->
  exists pq', update pq i v p = Return pq' /\ heap pq' /\ contents pq' ≡ₚ <[i := (v, p)]> (contents pq).
Proof using Type.
  intros Hh Hi. pose proof Hi as [x Hx]%lookup_lt_is_Some. unfold update. rewrite Hx.
  set (y := {| value := v; priority := p; index := index x |}).
  assert (forall k, k <> i -> key (<[i := y]> pq) k = key pq k) as Hkey
    by (intros k Hk; unfold key; by rewrite list_lookup_insert_ne).
  destruct (heap_Fix_spec (<[i := y]> pq) i) as (pq' & -> & [Hc _] & Hh'); rewrite ?length_insert.
  - done.
  - intros k c Hkc Hl Hk Hci. rewrite !Hkey by done. apply Hh; [done|done|lia].
  - intros k c Hk Hc Hl. rewrite !Hkey by (unfold child in *; lia).
    etransitivity; [apply (Hh i c); [done|done|lia]|apply (Hh k i); [done|done|lia]].
  - exists pq'. split; [done|]. split; [done|]. rewrite Hc. unfold contents. by rewrite list_fmap_insert.
Qed.

(** ** Taking everything out *)

(** The priorities decrease. *)
Definition decreasing (l : list (Item V)) : Prop := StronglySorted (fun a b => priority b <= priority a) l.

Lemma drain_spec rounds : forall pq,
  heap pq -> (length pq <= rounds)%nat ->
  exists l, drain rounds pq = Return l /\ contents l ≡ₚ contents pq /\ decreasing l.
Proof using Type.
  induction rounds as [|rounds IH]; intros pq Hh Hl; cbn [drain].
  { assert (pq = []) as -> by (apply nil_length_inv; lia). exists []. split; [done|]. split; [done|constructor]. }
  destruct (Nat.ltb_spec 0 (length pq)) as [Hpos|Hz].
  2:{ assert (pq = []) as -> by (apply nil_length_inv; lia). exists []. split; [done|]. split; [done|constructor]. }
  destruct (heap_Pop_spec pq Hh) as (pq' & x & -> & Hh' & Hp & Hall & _); [intros ->; simpl in Hpos; lia|].
  cbn [outcome_bind fst snd].
  assert (length pq = S (length pq')) as Hlen.
  { apply Permutation_length in Hp. cbn in Hp. unfold contents in Hp. rewrite !length_fmap in Hp. lia. }
  destruct (IH pq' Hh') as (l & -> & Hc & Hs); [lia|]. cbn [outcome_bind].
  exists (x :: l). split; [done|]. split; [cbn; by rewrite Hc, Hp|].
  constructor; [done|]. rewrite <- Hc in Hall. by apply (Forall_fmap (fun x => (value x, priority x)) (fun y => snd y <= priority x)) in Hall.
Qed.

(** Items leave the priority queue in decreasing order of priority.  Whatever
    items the queue is built from with [heap.Init], after one more is pushed all of
    them are taken out again, without a panic, none lost or repeated, with
    priorities that never increase. *)
Theorem test_decreasing (items : list (V * Z)) (v : V) :
  exists l, test items v = Return l /\ contents l ≡ₚ (v, 1) :: items /\ decreasing l.
Proof using Type.
  unfold test. set (pq := imap _ items).
  assert (contents pq = items) as Hc.
  { unfold contents, pq. rewrite fmap_imap. cbn.
    rewrite (imap_ext _ (const id)); [by rewrite imap_const, list_fmap_id|]. by intros i []. }
  destruct (heap_Init_spec pq) as (pq1 & -> & Hr1 & Hh1). cbn [outcome_bind].
  destruct (heap_Push_spec pq1 {| value := v; priority := 1; index := 0 |} Hh1) as (pq2 & -> & Hh2 & Hc2 & _).
  cbn [outcome_bind]. destruct (drain_spec (length pq2) pq2 Hh2) as (l & -> & Hl & Hs); [done|].
  exists l. split; [done|]. split; [|done]. rewrite Hl, Hc2. cbn. by rewrite (r_contents _ _ Hr1), Hc.
Qed.

(** ** Concurrent callers *)

(** What a priority queue promises: a push adds an item, a pop takes out one that
    no other item is above. *)
Inductive pq_event := EPush (x : V * Z) | EPop (x : V * Z).

Inductive spec_step : list (V * Z) -> pq_event -> list (V * Z) -> Prop :=
| spec_push l x l' : l' ≡ₚ x :: l -> spec_step l (EPush x) l'
| spec_pop l x l' : l ≡ₚ x :: l' -> Forall (fun y => snd y <= snd x) l' -> spec_step l (EPop x) l'.

Inductive spec_run : list (V * Z) -> list pq_event -> list (V * Z) -> Prop :=
| spec_nil l : spec_run l [] l
| spec_cons l e l1 es l2 : spec_step l e l1 -> spec_run l1 es l2 -> spec_run l (e :: es) l2.

(** What a step shows of itself. *)
Definition event_of (s : PublishQueue V) (a : pq_action V) (r : option (Item V)) : list pq_event :=
  match a, r with
  | PPush k, _ => match pq_ready s !! k with Some x => [EPush x] | None => [] end
  | PPop, Some x => [EPop (value x, priority x)]
  | _, _ => []
  end.

(** The callers' steps in some order, those that are not possible left out. *)
Fixpoint pq_run (s : PublishQueue V) (acts : list (pq_action V)) : outcome (PublishQueue V * list pq_event) :=
  match acts with
  | [] => Return (s, [])
  | a :: acts =>
      match PublishQueue_step s a with
      | None => pq_run s acts
      | Some o => let! r := o in
                  let! r' := pq_run (fst r) acts in
                  Return (fst r', event_of s a (snd r) ++ snd r')
      end
  end.

(** There is one token, sent or due or held, for every item. *)
Record pq_ok (s : PublishQueue V) : Prop := {
  pq_heap : heap (pq_q s);
  pq_indexed : indexed (pq_q s);
  pq_tokens : length (pq_q s) = (pq_c s + pq_pushed s + pq_taken s)%nat
}.

Lemma contents_length pq : length (contents pq) = length pq.
Proof using Type. apply length_fmap. Qed.

Lemma PublishQueue_step_ok s a o :
  pq_ok s -> PublishQueue_step s a = Some o ->
  exists s' r, o = Return (s', r) /\ pq_ok s' /\ spec_run (contents (pq_q s)) (event_of s a r) (contents (pq_q s')).
Proof using Type.
  intros [Hh Hx Ht]. destruct a as [v p|k| | |]; cbn [PublishQueue_step].
  - destruct (_ <? _)%nat; intros [= <-]. eexists _, _. split; [done|]. split; [by split|constructor].
  - destruct (pq_ready s !! k) as [x|] eqn:Ek; intros [= <-].
    destruct (heap_Push_spec (pq_q s) {| value := fst x; priority := snd x; index := 0 |} Hh) as (q & -> & Hh' & Hc & Hi).
    cbn [outcome_bind]. eexists _, _. split; [done|]. cbn [pq_q event_of]. rewrite Ek. split.
    + split; cbn [pq_q pq_c pq_pushed pq_taken]; [done|by apply Hi|].
      apply Permutation_length in Hc. cbn in Hc. rewrite !contents_length in Hc. lia.
    + econstructor; [|constructor]. constructor. rewrite Hc. by destruct x.
  - destruct (pq_pushed s) as [|n] eqn:En; [done|]. destruct (_ <? _)%nat; intros [= <-].
    eexists _, _. split; [done|]. split; [split; cbn; [done|done|lia]|constructor].
  - destruct (pq_c s) as [|n] eqn:En; intros [= <-].
    eexists _, _. split; [done|]. split; [split; cbn; [done|done|lia]|constructor].
  - destruct (pq_taken s) as [|n] eqn:En; intros [= <-].
    destruct (heap_Pop_spec (pq_q s) Hh) as (q & x & -> & Hh' & Hc & Hall & Hi); [intros Hq; rewrite Hq in Ht; simpl in Ht; lia|].
    cbn [outcome_bind]. eexists _, _. split; [done|]. cbn [pq_q event_of fst snd]. split.
    + split; cbn [pq_q pq_c pq_pushed pq_taken]; [done|by apply Hi|].
      apply Permutation_length in Hc. cbn in Hc. rewrite !contents_length in Hc. lia.
    + econstructor; [|constructor]. by constructor.
Qed.

Lemma spec_run_app l1 e1 l2 e2 l3 : spec_run l1 e1 l2 -> spec_run l2 e2 l3 -> spec_run l1 (e1 ++ e2) l3.
Proof using Type. induction 1; intros Hr; cbn [app]; [done|]. econstructor; [done|auto]. Qed.

Lemma pq_run_ok acts : forall s,
  pq_ok s -> exists s' es, pq_run s acts = Return (s', es) /\ pq_ok s'
             /\ spec_run (contents (pq_q s)) es (contents (pq_q s')).
Proof using Type.
  induction acts as [|a acts IH]; intros s Hs; cbn [pq_run].
  { exists s, []. split; [done|]. split; [done|constructor]. }
  destruct (PublishQueue_step s a) as [o|] eqn:Eo; [|by apply IH].
  destruct (PublishQueue_step_ok s a o Hs Eo) as (s1 & r & -> & Hs1 & Hr1). cbn [outcome_bind fst snd].
  destruct (IH s1 Hs1) as (s2 & es & -> & Hs2 & Hr2). cbn [outcome_bind fst snd].
  exists s2, (event_of s a r ++ es). split; [done|]. split; [done|by eapply spec_run_app].
Qed.

(** C17: the publish queue implements a priority queue for concurrent callers.  In
    every interleaving of the steps of any number of callers no call panics, in
    particular [Dequeue] never finds the queue empty; there is exactly one token
    for every item; and what was pushed and popped is a run of the abstract
    queue, in which every pop takes an item of the highest priority present. *)
Theorem publish_queue_priorities (acts : list (pq_action V)) :
  exists s es, pq_run GetPublishQueueEx acts = Return (s, es)
  /\ heap (pq_q s) /\ indexed (pq_q s) /\ length (pq_q s) = (pq_c s + pq_pushed s + pq_taken s)%nat
  /\ spec_run [] es (contents (pq_q s)).
Proof using Type.
  destruct (pq_run_ok acts GetPublishQueueEx) as (s & es & Hr & [Hh Hx Ht] & Hs).
  { split; cbn; [|done|done]. intros i c _ Hc. simpl in Hc. lia. }
  exists s, es. by split_and!.
Qed.
End Heap.

(** Three items enter, the two with the highest priorities leave. *)
Example publish_queue_run :
  pq_run GetPublishQueueEx
    [PCheck "a" 1; PCheck "b" 4; PCheck "c" 2; PPush 0; PPush 0; PPush 0; PSend; PSend; PReceive; PPop; PReceive; PPop]
  = Return ({| pq_q := [{| value := "a"; priority := 1; index := 0 |}]; pq_c := 0; pq_ready := []; pq_pushed := 1; pq_taken := 0 |},
            [EPush ("a", 1); EPush ("b", 4); EPush ("c", 2); EPop ("b", 4); EPop ("c", 2)]).
Proof. vm_compute. reflexivity. Qed.
