(* ===== verification/LockFree.v ===== *)
(** The lock-free queue: [queues/lfqueue.go].

    The queue is a linked list of holders with a pointer to its head and one to
    its tail.  Its callers interleave: a call is a program counter with the
    local variables that are live there, and [step] is what one goroutine does
    up to and including its next access to shared memory.  A pointer is an
    optional location, [None] for nil; a value of type [interface{}] is an
    [option V], [None] for nil. *)
From S2P Require Import Prelude.

Section LockFree.
Context {V : Type}.

Record holder := { _next_ : option nat; _value_ : option V }.

(** [_ch_] is the number of tokens in the channel. *)
Record LockFreeQueue := {
  _head_ : option nat; _tail_ : option nat; _sz_ : Z; _ch_ : Z; _synch_ : bool
}.

(** The shared memory: the holders and the queue. *)
Record memory := { holders : gmap nat holder; queue : LockFreeQueue }.

(** [make(chan bool, 1<<15)] *)
Definition ch_capacity : Z := Z.shiftl 1 15.

Definition NewLockFreeQueue (synchr : bool) : memory :=
  {| holders := {[ 0%nat := {| _next_ := None; _value_ := None |} ]};
     queue := {| _head_ := Some 0%nat; _tail_ := Some 0%nat; _sz_ := 0; _ch_ := 0;
                 _synch_ := synchr |} |}.

(** ** Atomic accesses *)

(** The addresses the code passes to [__LOAD__] and [__CAS__]. *)
Inductive pointer := PHead | PTail | PNext (l : nat).

Definition __LOAD__ (m : memory) (p : pointer) : option nat :=
  match p with
  | PHead => _head_ (queue m)
  | PTail => _tail_ (queue m)
  | PNext l => holders m !! l ≫= _next_
  end.

Definition set_queue (m : memory) (q : LockFreeQueue) : memory :=
  {| holders := holders m; queue := q |}.
Definition set_head (q : LockFreeQueue) (x : option nat) : LockFreeQueue :=
  {| _head_ := x; _tail_ := _tail_ q; _sz_ := _sz_ q; _ch_ := _ch_ q; _synch_ := _synch_ q |}.
Definition set_tail (q : LockFreeQueue) (x : option nat) : LockFreeQueue :=
  {| _head_ := _head_ q; _tail_ := x; _sz_ := _sz_ q; _ch_ := _ch_ q; _synch_ := _synch_ q |}.
Definition set_sz (q : LockFreeQueue) (x : Z) : LockFreeQueue :=
  {| _head_ := _head_ q; _tail_ := _tail_ q; _sz_ := x; _ch_ := _ch_ q; _synch_ := _synch_ q |}.
Definition set_ch (q : LockFreeQueue) (x : Z) : LockFreeQueue :=
  {| _head_ := _head_ q; _tail_ := _tail_ q; _sz_ := _sz_ q; _ch_ := x; _synch_ := _synch_ q |}.

Definition store (m : memory) (p : pointer) (x : option nat) : memory :=
  match p with
  | PHead => set_queue m (set_head (queue m) x)
  | PTail => set_queue m (set_tail (queue m) x)
  | PNext l =>
      {| holders := alter (fun h => {| _next_ := x; _value_ := _value_ h |}) l (holders m);
         queue := queue m |}
  end.

Definition __CAS__ (m : memory) (p : pointer) (old new : option nat) : bool * memory :=
  if decide (__LOAD__ m p = old) then (true, store m p new) else (false, m).

(** [q._sz_.Add(d)], with the new size. *)
Definition sz_Add (m : memory) (d : Z) : Z * memory :=
  let n := to_int64 (_sz_ (queue m) + d) in (n, set_queue m (set_sz (queue m) n)).

Definition Len (m : memory) : Z := _sz_ (queue m).

(** ** Calls *)

(** Where a call stands: before the named access, with its local variables.
    [Panicked] is a nil dereference. *)
Inductive pc :=
| Idle
| E_tail (h : nat)
| E_next (h : nat) (tail : option nat)
| E_check (h : nat) (tail next : option nat)
| E_link (h : nat) (tail next : option nat)
| E_swing (h : nat) (tail : option nat)
| E_help (h : nat) (tail next : option nat)
| E_count
| E_send
| D_recv
| D_head
| D_tail (head : option nat)
| D_next (head tail : option nat)
| D_check (head tail next : option nat)
| D_help (tail next : option nat)
| D_value (head next : option nat)
| D_take (head next : option nat) (v : option V)
| D_count (v : option V)
| Panicked.

Inductive op := Enqueue_op (v : option V) | Dequeue_op.
Inductive result := Enqueued | Dequeued (v : option V) (sz : Z).

(** One access of [Enqueue]; the call returns when a result is given, and is
    blocked when there is no step. *)
Definition Enqueue_step (m : memory) (p : pc) : option (memory * pc * option result) :=
  match p with
  | E_tail h => Some (m, E_next h (__LOAD__ m PTail), None)
  | E_next h tail =>
      match tail with
      | Some l => Some (m, E_check h tail (__LOAD__ m (PNext l)), None)
      | None => Some (m, Panicked, None)
      end
  | E_check h tail next =>
      if decide (tail = __LOAD__ m PTail) then
        match next with
        | None => Some (m, E_link h tail next, None)
        | Some _ => Some (m, E_help h tail next, None)
        end
      else Some (m, E_tail h, None)
  | E_link h tail next =>
      match tail with
      | Some l =>
          let '(ok, m') := __CAS__ m (PNext l) next (Some h) in
          if ok then Some (m', E_swing h tail, None) else Some (m', E_tail h, None)
      | None => Some (m, Panicked, None)
      end
  | E_swing h tail => let '(_, m') := __CAS__ m PTail tail (Some h) in Some (m', E_count, None)
  | E_count =>
      let '(_, m') := sz_Add m 1 in
      if _synch_ (queue m') then Some (m', E_send, None) else Some (m', Idle, Some Enqueued)
  | E_send =>
      let q := queue m in
      if _ch_ q <? ch_capacity
      then Some (set_queue m (set_ch q (_ch_ q + 1)), Idle, Some Enqueued) else None
  | E_help h tail next => let '(_, m') := __CAS__ m PTail tail next in Some (m', E_tail h, None)
  | _ => None
  end.

(** One access of [Dequeue]. *)
Definition Dequeue_step (m : memory) (p : pc) : option (memory * pc * option result) :=
  match p with
  | D_recv =>
      let q := queue m in
      if _synch_ q then
        if 0 <? _ch_ q then Some (set_queue m (set_ch q (_ch_ q - 1)), D_head, None) else None
      else Some (m, D_head, None)
  | D_head => Some (m, D_tail (__LOAD__ m PHead), None)
  | D_tail head => Some (m, D_next head (__LOAD__ m PTail), None)
  | D_next head tail =>
      match head with
      | Some l => Some (m, D_check head tail (__LOAD__ m (PNext l)), None)
      | None => Some (m, Panicked, None)
      end
  | D_check head tail next =>
      if decide (head = __LOAD__ m PHead) then
        if decide (head = tail) then
          match next with
          | None => Some (m, Idle, Some (Dequeued None 0))
          | Some _ => Some (m, D_help tail next, None)
          end
        else Some (m, D_value head next, None)
      else Some (m, D_recv, None)
  | D_help tail next => let '(_, m') := __CAS__ m PTail tail next in Some (m', D_recv, None)
  | D_value head next =>
      match next ≫= (holders m !!.) with
      | Some h => Some (m, D_take head next (_value_ h), None)
      | None => Some (m, Panicked, None)
      end
  | D_take head next v =>
      let '(ok, m') := __CAS__ m PHead head next in
      if ok then Some (m', D_count v, None) else Some (m', D_recv, None)
  | D_count v =>
      let '(n, m') := sz_Add m (-1) in Some (m', Idle, Some (Dequeued v n))
  | _ => None
  end.

Definition step (m : memory) (p : pc) : option (memory * pc * option result) :=
  match p with
  | E_tail _ | E_next _ _ | E_check _ _ _ | E_link _ _ _ | E_swing _ _ | E_help _ _ _
  | E_count | E_send => Enqueue_step m p
  | _ => Dequeue_step m p
  end.

(** The start of a call; [Enqueue] allocates the holder of its value. *)
Definition call (m : memory) (o : op) : memory * pc :=
  match o with
  | Enqueue_op v =>
      let h := fresh (dom (holders m)) in
      ({| holders := <[ h := {| _next_ := None; _value_ := v |} ]> (holders m);
          queue := queue m |}, E_tail h)
  | Dequeue_op => (m, D_recv)
  end.

(** ** Goroutines that share the queue *)

Inductive event := Call (t : nat) (o : op) | Ret (t : nat) (r : result).

Record sys := { mem : memory; threads : list pc }.

(** Goroutine [t] starts a call, or goes on with the one it is in. *)
Definition sys_step (s : sys) (t : nat) (c : option op) : option (sys * option event) :=
  match threads s !! t, c with
  | Some Idle, Some o =>
      let '(m, p) := call (mem s) o in
      Some ({| mem := m; threads := <[ t := p ]> (threads s) |}, Some (Call t o))
  | Some p, None =>
      match step (mem s) p with
      | Some (m, p', r) =>
          Some ({| mem := m; threads := <[ t := p' ]> (threads s) |}, Ret t <$> r)
      | None => None
      end
  | _, _ => None
  end.

Definition sys_init (synchr : bool) (n : nat) : sys :=
  {| mem := NewLockFreeQueue synchr; threads := replicate n Idle |}.

(** The events of a schedule, and the state after it; [None] when the schedule
    asks for a step that is blocked. *)
Fixpoint sys_exec (s : sys) (l : list (nat * option op)) : option (sys * list event) :=
  match l with
  | [] => Some (s, [])
  | (t, c) :: l' =>
      match sys_step s t c with
      | Some (s', e) =>
          match sys_exec s' l' with
          | Some (s'', es) => Some (s'', option_list e ++ es)
          | None => None
          end
      | None => None
      end
  end.

(** ** The contract: a queue whose operations are atomic

    A call takes effect once between its start and its return.  A dequeue may
    return nil only when the queue was empty at some moment of the call. *)
Inductive status :=
| Out
| Enqueuing (v : option V)
| EnqueueDone
| Dequeuing (was_empty : bool)
| DequeueDone (v : option V).

Record fifo := { items : list (option V); callers : list status }.

Definition fifo_init (n : nat) : fifo := {| items := []; callers := replicate n Out |}.

Inductive fifo_step : fifo -> option event -> fifo -> Prop :=
| fifo_call_enqueue a t v :
    callers a !! t = Some Out ->
    fifo_step a (Some (Call t (Enqueue_op v)))
      {| items := items a; callers := <[ t := Enqueuing v ]> (callers a) |}
| fifo_call_dequeue a t :
    callers a !! t = Some Out ->
    fifo_step a (Some (Call t Dequeue_op))
      {| items := items a; callers := <[ t := Dequeuing false ]> (callers a) |}
| fifo_enqueue a t v :
    callers a !! t = Some (Enqueuing v) ->
    fifo_step a None
      {| items := items a ++ [v]; callers := <[ t := EnqueueDone ]> (callers a) |}
| fifo_dequeue a t b v rest :
    callers a !! t = Some (Dequeuing b) -> items a = v :: rest ->
    fifo_step a None
      {| items := rest; callers := <[ t := DequeueDone v ]> (callers a) |}
| fifo_empty a t b :
    callers a !! t = Some (Dequeuing b) -> items a = [] ->
    fifo_step a None
      {| items := []; callers := <[ t := Dequeuing true ]> (callers a) |}
| fifo_ret_enqueue a t :
    callers a !! t = Some EnqueueDone ->
    fifo_step a (Some (Ret t Enqueued))
      {| items := items a; callers := <[ t := Out ]> (callers a) |}
| fifo_ret_dequeue a t v n :
    callers a !! t = Some (DequeueDone v) ->
    fifo_step a (Some (Ret t (Dequeued v n)))
      {| items := items a; callers := <[ t := Out ]> (callers a) |}
| fifo_ret_nil a t :
    callers a !! t = Some (Dequeuing true) ->
    fifo_step a (Some (Ret t (Dequeued None 0)))
      {| items := items a; callers := <[ t := Out ]> (callers a) |}.

(** The runs of the contract with their visible events. *)
Inductive fifo_run (a : fifo) : list event -> fifo -> Prop :=
| fifo_run_nil : fifo_run a [] a
| fifo_run_step es b e c :
    fifo_run a es b -> fifo_step b e c -> fifo_run a (es ++ option_list e) c.

(** The runs of goroutines on the queue, by induction on the schedule from the
    right; [sys_exec_run] relates the two. *)
Inductive sys_run (s : sys) : list event -> sys -> Prop :=
| sys_run_nil : sys_run s [] s
| sys_run_step es s1 t c s2 e :
    sys_run s es s1 -> sys_step s1 t c = Some (s2, e) -> sys_run s (es ++ option_list e) s2.

End LockFree.
Arguments holder : clear implicits.
Arguments memory : clear implicits.
Arguments pc : clear implicits.
Arguments op : clear implicits.
Arguments event : clear implicits.
Arguments sys : clear implicits.
Arguments fifo : clear implicits.
