(* ===== verification/LockFreeProps.v ===== *)
(** The lock-free queue refines a first-in first-out queue with atomic
    operations, under every interleaving of its callers. *)
From S2P Require Import Prelude LockFree.

Section Invariant.
Context {V : Type}.
Implicit Types (hs : gmap nat (holder V)) (c : list nat) (i j k : nat).

(** ** The chain of holders

    [c] lists every holder that was ever linked, oldest first; the head of the
    queue is its [i]th element and the tail its [j]th. *)

Definition chain_ok hs c : Prop :=
  forall k l, c !! k = Some l ->
    exists h, hs !! l = Some h /\ _next_ h = c !! S k.

Definition value_at hs (l : nat) : option V := hs !! l ≫= _value_.

Definition contents hs c i : list (option V) := value_at hs <$> drop (S i) c.

(** The holder a caller has allocated and not linked yet. *)
Definition own (p : pc V) : option nat :=
  match p with
  | E_tail h | E_next h _ | E_check h _ _ | E_link h _ _ | E_help h _ _ => Some h
  | _ => None
  end.

Definition owned hs c (h : nat) (v : option V) : Prop :=
  hs !! h = Some {| _next_ := None; _value_ := v |} /\ h ∉ c.

(** [x] is the pointer to the [k]th holder, and [y] to the one after it. *)
Definition at_pos c (x : option nat) k : Prop := c !! k = x /\ is_Some x.
Definition after c (x y : option nat) : Prop :=
  exists k, at_pos c x k /\ at_pos c y (S k).

(** What the local variables of a call say of the chain, and what the call has
    done of its contract. *)
Definition pc_ok hs c i j (p : pc V) (st : status) : Prop :=
  match p, st with
  | Idle, Out => True
  | E_tail h, Enqueuing v => owned hs c h v
  | E_next h tail, Enqueuing v => owned hs c h v /\ exists k, at_pos c tail k /\ (k <= j)%nat
  | E_check h tail next, Enqueuing v =>
      owned hs c h v /\ (exists k, at_pos c tail k /\ (k <= j)%nat) /\
      (next = None \/ after c tail next)
  | E_link h tail next, Enqueuing v =>
      owned hs c h v /\ next = None /\ exists k, at_pos c tail k /\ (k <= j)%nat
  | E_help h tail next, Enqueuing v => owned hs c h v /\ after c tail next
  | E_swing h tail, EnqueueDone => after c tail (Some h)
  | E_count, EnqueueDone | E_send, EnqueueDone => True
  | D_recv, Dequeuing _ | D_head, Dequeuing _ => True
  | D_tail head, Dequeuing _ => exists k, at_pos c head k /\ (k <= i)%nat
  | D_next head tail, Dequeuing _ =>
      exists k n, at_pos c head k /\ at_pos c tail n /\ (k <= i)%nat /\ (k <= n <= j)%nat
  | D_check head tail next, Dequeuing b =>
      exists k n, at_pos c head k /\ at_pos c tail n /\ (k <= n <= j)%nat /\
        ((next = None /\ k = n /\ b = true) \/ at_pos c next (S k))
  | D_help tail next, Dequeuing _ => after c tail next
  | D_value head next, Dequeuing _ =>
      exists k, at_pos c head k /\ at_pos c next (S k) /\ (S k <= j)%nat
  | D_take head next v, Dequeuing _ =>
      exists k, at_pos c head k /\ at_pos c next (S k) /\ (S k <= j)%nat /\
        (next ≫= value_at hs) = v
  | D_count v, DequeueDone w => v = w
  | _, _ => False
  end.

(** What changes of the shared memory keep for a caller [p]. *)
Record extends (p : pc V) hs c i j hs' c' i' j' : Prop := {
  ext_prefix : c `prefix_of` c';
  ext_head : (i <= i')%nat;
  ext_tail : (j <= j')%nat;
  ext_values : forall l h, hs !! l = Some h -> value_at hs' l = _value_ h;
  ext_own : forall h v, own p = Some h -> owned hs c h v -> owned hs' c' h v
}.

Lemma at_pos_extends c c' x k : c `prefix_of` c' -> at_pos c x k -> at_pos c' x k.
Proof.
  intros [d ->] [H [l ->]]. split; [|done]. by apply lookup_app_l_Some.
Qed.

Lemma after_extends c c' x y : c `prefix_of` c' -> after c x y -> after c' x y.
Proof. intros Hp (k & Hx & Hy). exists k. eauto using at_pos_extends. Qed.

Lemma at_pos_inj c x k k' : NoDup c -> at_pos c x k -> at_pos c x k' -> k = k'.
Proof. intros Hn [H [l ->]] [H' _]. by eapply NoDup_lookup. Qed.

(** Other callers do not disturb [p]. *)
Lemma pc_ok_extends p st hs c i j hs' c' i' j' :
  chain_ok hs c -> extends p hs c i j hs' c' i' j' ->
  pc_ok hs c i j p st -> pc_ok hs' c' i' j' p st.
Proof.
  intros Hc [Hp Hi Hj Hv Ho] H.
  destruct p, st; simpl in *; try done;
    repeat match goal with
    | H : _ /\ _ |- _ => destruct H
    | H : exists _, _ |- _ => destruct H
    end; split_and?; eauto using after_extends.
  - eexists. split; [by eapply at_pos_extends|lia].
  - eexists. split; [by eapply at_pos_extends|lia].
  - match goal with H : _ \/ _ |- _ => destruct H as [?|?] end; eauto using after_extends.
  - eexists. split; [by eapply at_pos_extends|lia].
  - eexists. split; [by eapply at_pos_extends|lia].
  - eexists _, _. split_and!; try (by eapply at_pos_extends); lia.
  - eexists _, _. split_and!; try (by eapply at_pos_extends); try lia.
    match goal with H : _ \/ _ |- _ => destruct H as [(?&?&?)|?] end;
      [by left|right; by eapply at_pos_extends].
  - eexists. split_and!; try (by eapply at_pos_extends); lia.
  - eexists. split_and!; try (by eapply at_pos_extends); try lia.
    match goal with H : at_pos _ ?n (S _) |- context [?n ≫= _] => destruct H as [Hn [l ->]] end.
    simpl in *. destruct (Hc _ _ Hn) as (h & Hh & _).
    rewrite (Hv _ _ Hh). subst. unfold value_at. by rewrite Hh.
Qed.

(** ** The relation between goroutines on the queue and the contract *)

(** Enqueues that are linked and not counted yet, dequeues likewise. *)
Definition uncounted (p : pc V) : Z :=
  match p with E_swing _ _ | E_count => 1 | D_count _ => -1 | _ => 0 end.
Definition total_uncounted (l : list (pc V)) : Z := foldr (fun p n => uncounted p + n) 0 l.

Record memory_ok (m : memory V) c i j : Prop := {
  mo_head : _head_ (queue m) = c !! i;
  mo_tail : _tail_ (queue m) = c !! j;
  mo_order : (i <= j)%nat;
  mo_bound : (j < length c)%nat;
  mo_lag : (length c <= j + 2)%nat;
  mo_nodup : NoDup c;
  mo_chain : chain_ok (holders m) c
}.

Record related_at (s : sys V) (a : fifo V) c i j : Prop := {
  ra_memory : memory_ok (mem s) c i j;
  ra_items : items a = contents (holders (mem s)) c i;
  ra_pcs : Forall2 (pc_ok (holders (mem s)) c i j) (threads s) (callers a);
  ra_own : forall t t' p p' h,
    threads s !! t = Some p -> threads s !! t' = Some p' ->
    own p = Some h -> own p' = Some h -> t = t';
  ra_size : _sz_ (queue (mem s))
            = to_int64 (Z.of_nat (length (items a)) - total_uncounted (threads s))
}.

Definition related (s : sys V) (a : fifo V) : Prop := exists c i j, related_at s a c i j.

(** ** How a step keeps the relation *)

Lemma total_uncounted_insert (l : list (pc V)) t p p' :
  l !! t = Some p ->
  total_uncounted (<[ t := p' ]> l) = total_uncounted l - uncounted p + uncounted p'.
Proof.
  revert t. induction l as [|q l IH]; intros [|t] H; simplify_eq/=; [lia|].
  rewrite (IH _ H). lia.
Qed.

Lemma swrap_add w x d : 0 < w -> swrap w (swrap w x + d) = swrap w (x + d).
Proof.
  intros. unfold swrap. set (n := 2 ^ w). set (k := 2 ^ (w - 1)).
  replace ((x + k) mod n - k + d + k) with ((x + k) mod n + d) by lia.
  rewrite Zplus_mod_idemp_l. do 2 f_equal. lia.
Qed.

Lemma size_kept x d : to_int64 (to_int64 x + (d - d)) = to_int64 x.
Proof. unfold to_int64. rewrite swrap_add by lia. f_equal. lia. Qed.

Lemma extends_refl (p : pc V) hs c i j : extends p hs c i j hs c i j.
Proof.
  split; [done|lia|lia| |done]. intros l h H. unfold value_at. by rewrite H.
Qed.

Lemma pc_ok_own p st hs c i j h :
  pc_ok hs c i j p st -> own p = Some h -> exists v, owned hs c h v.
Proof.
  intros H Ho. destruct p, st; simplify_eq/=; try done;
    first [by eexists | destruct H as [H _]; by eexists].
Qed.

(** The goroutine [t] goes on from [p] to [p']. *)
Lemma related_update s a c i j t p st m' p' st' its c' i' j' :
  related_at s a c i j -> threads s !! t = Some p -> callers a !! t = Some st ->
  memory_ok m' c' i' j' ->
  (forall q st0, pc_ok (holders (mem s)) c i j q st0 ->
     (forall h, own q = Some h -> own p <> Some h) ->
     extends q (holders (mem s)) c i j (holders m') c' i' j') ->
  pc_ok (holders m') c' i' j' p' st' ->
  (forall h, own p' = Some h -> own p = Some h \/ holders (mem s) !! h = None) ->
  its = contents (holders m') c' i' ->
  _sz_ (queue m') = to_int64 (Z.of_nat (length its)
                              - (total_uncounted (threads s) - uncounted p + uncounted p')) ->
  related_at {| mem := m'; threads := <[ t := p' ]> (threads s) |}
             {| items := its; callers := <[ t := st' ]> (callers a) |} c' i' j'.
Proof.
  intros [Hm Hits Hpc Hown Hsz] Ht Hst Hm' Hext Hok Hown' Hits' Hsz'.
  assert (Hfresh : forall t' q h, threads s !! t' = Some q -> own q = Some h ->
            own p' = Some h -> t' = t).
  { intros t' q h Hq Ho Ho'. destruct (Hown' h Ho') as [Hp|Hn]; [by eapply Hown|].
    destruct (Forall2_lookup_l _ _ _ _ _ Hpc Hq) as (st0 & _ & Hok0).
    destruct (pc_ok_own _ _ _ _ _ _ _ Hok0 Ho) as (v & Hv & _). congruence. }
  split; simpl; [done|done| | |by rewrite (total_uncounted_insert _ _ _ _ Ht)].
  - apply Forall2_same_length_lookup. split.
    { rewrite !length_insert. by eapply Forall2_length. }
    intros t' q st0 Hq Hq'. destruct (decide (t = t')) as [->|Hne].
    + rewrite list_lookup_insert_eq in Hq by (by eapply lookup_lt_Some).
      rewrite list_lookup_insert_eq in Hq' by (by eapply lookup_lt_Some).
      by simplify_eq.
    + rewrite list_lookup_insert_ne in Hq by done.
      rewrite list_lookup_insert_ne in Hq' by done.
      pose proof (Forall2_lookup_lr _ _ _ _ _ _ Hpc Hq Hq') as H0.
      eapply pc_ok_extends; [apply Hm| |exact H0].
      eapply Hext; [exact H0|]. intros h Ho Hp. by destruct Hne; eapply Hown.
  - intros t1 t2 p1 p2 h H1 H2 Ho1 Ho2.
    apply list_lookup_insert_Some in H1, H2.
    destruct H1 as [(->&->&_)|[Hne1 H1]], H2 as [(->&->&_)|[Hne2 H2]];
      [done|symmetry; by eapply Hfresh|by eapply Hfresh|by eapply Hown].
Qed.

(** A step that changes neither the holders nor the head and the tail. *)
Lemma related_local s a c i j t p st m' p' st' :
  related_at s a c i j -> threads s !! t = Some p -> callers a !! t = Some st ->
  holders m' = holders (mem s) -> _head_ (queue m') = _head_ (queue (mem s)) ->
  _tail_ (queue m') = _tail_ (queue (mem s)) ->
  pc_ok (holders (mem s)) c i j p' st' -> (own p' = own p \/ own p' = None) ->
  _sz_ (queue m') = to_int64 (_sz_ (queue (mem s)) + (uncounted p - uncounted p')) ->
  related_at {| mem := m'; threads := <[ t := p' ]> (threads s) |}
             {| items := items a; callers := <[ t := st' ]> (callers a) |} c i j.
Proof.
  intros R Ht Hst Hh Hhd Htl Hok Hown Hsz. pose proof R as [Hm Hits _ _ Hs].
  eapply related_update; try done.
  - destruct Hm. split; by rewrite ?Hh, ?Hhd, ?Htl.
  - intros q st0 _ _. rewrite Hh. apply extends_refl.
  - by rewrite Hh.
  - intros h Ho. destruct Hown as [E|E]; rewrite E in Ho; [by left|done].
  - by rewrite Hh.
  - rewrite Hsz, Hs. unfold to_int64. rewrite swrap_add by lia. f_equal. lia.
Qed.

(** The tail moves from a holder to the next. *)
Lemma related_tail s a c i j t p st old new p' :
  related_at s a c i j -> threads s !! t = Some p -> callers a !! t = Some st ->
  after c old new ->
  (forall j', (j <= j')%nat -> pc_ok (holders (mem s)) c i j' p' st) ->
  (own p' = own p \/ own p' = None) -> uncounted p' = uncounted p ->
  exists j', related_at
    {| mem := (__CAS__ (mem s) PTail old new).2; threads := <[ t := p' ]> (threads s) |}
    {| items := items a; callers := <[ t := st ]> (callers a) |} c i j'.
Proof.
  intros R Ht Hst (k & Ho & Hn) Hok Hown Hu. pose proof R as [Hm Hits _ _ Hs].
  unfold __CAS__. case_decide as E; simpl in E.
  - assert (k = j) as ->.
    { destruct Hm. eapply at_pos_inj; [done|exact Ho|]. split; [congruence|apply Ho]. }
    exists (S j). eapply related_update; try done; simpl.
    + destruct Hm. destruct Hn as [Hn [l ->]]. pose proof (lookup_lt_Some _ _ _ Hn).
      split; simpl; try done; lia.
    + intros q st0 _ _. destruct (extends_refl q (holders (mem s)) c i j).
      split; try done; lia.
    + apply Hok. lia.
    + intros h Ho'. destruct Hown as [E'|E']; rewrite E' in Ho'; [by left|done].
    + rewrite Hs, Hu. f_equal. lia.
  - exists j. eapply related_local; try done; simpl; [by apply Hok|].
    by rewrite Hu, Hs, size_kept.
Qed.

(** The head moves to the next holder: its value leaves the queue. *)
Lemma contents_cons hs c i l :
  c !! S i = Some l -> contents hs c i = value_at hs l :: contents hs c (S i).
Proof. intros H. unfold contents. by rewrite (drop_S c l (S i) H). Qed.

Lemma related_head s a c i j t head next v b :
  related_at s a c i j -> threads s !! t = Some (D_take head next v) ->
  callers a !! t = Some (Dequeuing b) -> __LOAD__ (mem s) PHead = head ->
  exists rest, items a = v :: rest /\
    related_at
      {| mem := store (mem s) PHead next; threads := <[ t := D_count v ]> (threads s) |}
      {| items := rest; callers := <[ t := DequeueDone v ]> (callers a) |} c (S i) j.
Proof.
  intros R Ht Hst E. pose proof R as [Hm Hits Hpc _ Hs].
  destruct (Forall2_lookup_lr _ _ _ _ _ _ Hpc Ht Hst) as (k & Hk & [Hn [l ->]] & Hj & Hv).
  simpl in E, Hv. pose proof Hm as [Hhd Htl Hij Hb Hlag Hnd Hch].
  assert (k = i) as ->.
  { eapply at_pos_inj; [done|exact Hk|]. split; [congruence|apply Hk]. }
  exists (contents (holders (mem s)) c (S i)).
  assert (Hc : items a = v :: contents (holders (mem s)) c (S i)).
  { rewrite Hits, (contents_cons _ _ _ _ Hn). by rewrite Hv. }
  split; [done|]. eapply related_update; try done; simpl.
  - intros q st0 _ _. destruct (extends_refl q (holders (mem s)) c i j).
    split; try done; lia.
  - rewrite Hs, Hc. f_equal. simpl length. lia.
Qed.

(** A holder is linked behind the last one: its value enters the queue. *)
Lemma chain_ok_link hs c k l h v :
  NoDup c -> chain_ok hs c -> c !! k = Some l -> length c = S k -> owned hs c h v ->
  chain_ok (alter (fun x => {| _next_ := Some h; _value_ := _value_ x |}) l hs) (c ++ [h]).
Proof.
  intros Hnd Hc Hl Hlen [Hh Hni] k' l' Hl'.
  assert (Hne : h <> l) by (intros ->; apply Hni; by eapply list_elem_of_lookup_2).
  apply lookup_app_Some in Hl' as [Hl'|[Hge Hl']].
  - destruct (Hc _ _ Hl') as (x & Hx & Hnx). destruct (decide (l' = l)) as [->|Hne'].
    + assert (k' = k) as -> by (by eapply NoDup_lookup).
      eexists. rewrite lookup_alter_eq, Hx. split; [done|]. simpl.
      rewrite lookup_app_r by lia. by rewrite Hlen, Nat.sub_diag.
    + exists x. rewrite lookup_alter_ne by done. split; [done|].
      rewrite Hnx, lookup_app_l; [done|].
      apply lookup_lt_Some in Hl' as Hlt. assert (k' <> k) by congruence. lia.
  - destruct (k' - length c)%nat as [|n] eqn:E; [|by destruct n].
    simplify_eq/=. eexists. rewrite lookup_alter_ne by done. split; [done|].
    simpl. symmetry. apply lookup_ge_None. rewrite length_app. simpl. lia.
Qed.

Lemma value_at_alter hs l x l' :
  value_at (alter (fun h => {| _next_ := x; _value_ := _value_ h |}) l hs) l' = value_at hs l'.
Proof.
  unfold value_at. destruct (decide (l = l')) as [->|Hne].
  - rewrite lookup_alter_eq. by destruct (hs !! l').
  - by rewrite lookup_alter_ne.
Qed.

Lemma related_link s a c i j t h l v :
  related_at s a c i j -> threads s !! t = Some (E_link h (Some l) None) ->
  callers a !! t = Some (Enqueuing v) -> __LOAD__ (mem s) (PNext l) = None ->
  related_at
    {| mem := store (mem s) (PNext l) (Some h);
       threads := <[ t := E_swing h (Some l) ]> (threads s) |}
    {| items := items a ++ [v]; callers := <[ t := EnqueueDone ]> (callers a) |}
    (c ++ [h]) i j.
Proof.
  intros R Ht Hst E. pose proof R as [Hm Hits Hpc _ Hs].
  destruct (Forall2_lookup_lr _ _ _ _ _ _ Hpc Ht Hst) as (Hown & _ & k & [Hk _] & Hkj).
  pose proof Hm as [Hhd Htl Hij Hb Hlag Hnd Hch]. pose proof Hown as [Hh Hni].
  destruct (Hch _ _ Hk) as (x & Hx & Hnx). simpl in E. rewrite Hx in E. simpl in E.
  assert (length c = S k).
  { rewrite E in Hnx. symmetry in Hnx. apply lookup_ge_None in Hnx.
    apply lookup_lt_Some in Hk. lia. }
  assert (k = j) as -> by lia.
  eapply related_update; try done; simpl.
  - split; simpl; try done; rewrite ?length_app; simpl; try lia.
    + by rewrite lookup_app_l by lia.
    + by rewrite lookup_app_l by lia.
    + apply NoDup_app. split_and!; [done| |apply NoDup_singleton].
      intros y Hy ->%list_elem_of_singleton. done.
    + by eapply chain_ok_link.
  - intros q st0 Hq Hne. split; [by eexists|lia|lia| |].
    + intros l' h' Hl'. rewrite value_at_alter. unfold value_at. by rewrite Hl'.
    + intros h' v' Ho [Hh' Hni']. split.
      * rewrite lookup_alter_ne; [done|]. intros ->. apply Hni'.
        by eapply list_elem_of_lookup_2.
      * intros [Hin|Hin]%elem_of_app; [done|].
        apply list_elem_of_singleton in Hin as ->. by eapply Hne.
  - exists j. split; split; try by eexists.
    + by rewrite lookup_app_l by lia.
    + rewrite lookup_app_r by lia. by replace (S j - length c)%nat with 0%nat by lia.
  - rewrite Hits. unfold contents. rewrite drop_app_le by lia.
    rewrite fmap_app. f_equal.
    + apply list_fmap_ext. intros. symmetry. apply value_at_alter.
    + simpl. rewrite value_at_alter. unfold value_at. by rewrite Hh.
  - rewrite Hs, length_app. f_equal. simpl length. lia.
Qed.

(** A call of [Enqueue] allocates a holder. *)
Lemma related_alloc s a c i j t h v :
  related_at s a c i j -> threads s !! t = Some Idle -> callers a !! t = Some Out ->
  holders (mem s) !! h = None ->
  related_at
    {| mem := {| holders := <[ h := {| _next_ := None; _value_ := v |} ]> (holders (mem s));
                 queue := queue (mem s) |};
       threads := <[ t := E_tail h ]> (threads s) |}
    {| items := items a; callers := <[ t := Enqueuing v ]> (callers a) |} c i j.
Proof.
  intros R Ht Hst Hn. pose proof R as [Hm Hits Hpc _ Hs].
  pose proof Hm as [Hhd Htl Hij Hb Hlag Hnd Hch].
  assert (Hold : forall l x, holders (mem s) !! l = Some x -> l <> h) by congruence.
  assert (Hin : forall k l, c !! k = Some l -> l <> h).
  { intros k l Hl. destruct (Hch _ _ Hl) as (x & Hx & _). eauto. }
  eapply related_update; try done; simpl.
  - split; simpl; try done. intros k l Hl. destruct (Hch _ _ Hl) as (x & Hx & Hnx).
    exists x. split; [|done]. rewrite lookup_insert_ne; [done|]. symmetry. eauto.
  - intros q st0 _ _. split; [done|lia|lia| |].
    + intros l x Hl. unfold value_at. rewrite lookup_insert_ne by (symmetry; eauto).
      by rewrite Hl.
    + intros h' v' _ [Hh' ?]. split; [|done].
      rewrite lookup_insert_ne by (symmetry; eauto). done.
  - split; [by rewrite lookup_insert_eq|]. intros [k Hk]%list_elem_of_lookup. by eapply Hin.
  - intros h' ?. simplify_eq. by right.
  - rewrite Hits. unfold contents. apply list_fmap_ext. intros k l Hl.
    rewrite lookup_drop in Hl. unfold value_at. by rewrite lookup_insert_ne by (symmetry; eauto).
  - rewrite Hs. f_equal. lia.
Qed.

(** ** Simulation *)

(** A step of the goroutine [t] with the outcome [r] is at most one step of
    the contract. *)
Definition simulated (a : fifo V) (t : nat) (r : option result) (s' : sys V) : Prop :=
  exists a', related s' a' /\ (fifo_step a (Ret t <$> r) a' \/ (r = None /\ a' = a)).

Lemma fifo_same (a : fifo V) t st :
  callers a !! t = Some st -> {| items := items a; callers := <[ t := st ]> (callers a) |} = a.
Proof. intros. destruct a. simpl in *. by rewrite list_insert_id. Qed.

Lemma simulated_local s a c i j t p st m' p' :
  related_at s a c i j -> threads s !! t = Some p -> callers a !! t = Some st ->
  holders m' = holders (mem s) -> _head_ (queue m') = _head_ (queue (mem s)) ->
  _tail_ (queue m') = _tail_ (queue (mem s)) -> _sz_ (queue m') = _sz_ (queue (mem s)) ->
  pc_ok (holders (mem s)) c i j p' st -> (own p' = own p \/ own p' = None) ->
  uncounted p' = uncounted p ->
  simulated a t None {| mem := m'; threads := <[ t := p' ]> (threads s) |}.
Proof.
  intros R Ht Hst Hh Hhd Htl Hsz Hok Ho Hu. exists a. split; [|by right].
  exists c, i, j. rewrite <- (fifo_same a t st) by done.
  eapply related_local; try done. destruct R as [_ _ _ _ Hs].
  by rewrite Hsz, Hu, Hs, size_kept.
Qed.

Lemma simulated_tail s a c i j t p st old new p' :
  related_at s a c i j -> threads s !! t = Some p -> callers a !! t = Some st ->
  after c old new ->
  (forall j', (j <= j')%nat -> pc_ok (holders (mem s)) c i j' p' st) ->
  (own p' = own p \/ own p' = None) -> uncounted p' = uncounted p ->
  simulated a t None
    {| mem := (__CAS__ (mem s) PTail old new).2; threads := <[ t := p' ]> (threads s) |}.
Proof.
  intros R Ht Hst Ha Hok Ho Hu. exists a. split; [|by right].
  destruct (related_tail s a c i j t p st old new p') as [j' R']; try done.
  rewrite (fifo_same a t st) in R' by done. by exists c, i, j'.
Qed.

(** A call that returns without a change of the chain. *)
Lemma simulated_return s a c i j t p st m' r :
  related_at s a c i j -> threads s !! t = Some p -> callers a !! t = Some st ->
  holders m' = holders (mem s) -> _head_ (queue m') = _head_ (queue (mem s)) ->
  _tail_ (queue m') = _tail_ (queue (mem s)) ->
  _sz_ (queue m') = to_int64 (_sz_ (queue (mem s)) + uncounted p) ->
  fifo_step a (Some (Ret t r))
    {| items := items a; callers := <[ t := Out ]> (callers a) |} ->
  simulated a t (Some r) {| mem := m'; threads := <[ t := Idle ]> (threads s) |}.
Proof.
  intros R Ht Hst Hh Hhd Htl Hsz Hf. eexists. split; [|by left].
  exists c, i, j. eapply related_local; try done; [by right|].
  rewrite Hsz. f_equal. simpl. lia.
Qed.

(** The pointer a goroutine loads from the tail, or from a holder of the
    chain. *)
Lemma load_tail m c i j : memory_ok m c i j -> at_pos c (__LOAD__ m PTail) j.
Proof.
  intros []. split; [done|]. simpl. rewrite mo_tail0. by apply lookup_lt_is_Some_2.
Qed.

Lemma load_head m c i j : memory_ok m c i j -> at_pos c (__LOAD__ m PHead) i.
Proof.
  intros []. split; [done|]. simpl. rewrite mo_head0. apply lookup_lt_is_Some_2. lia.
Qed.

Lemma load_next m c i j k l :
  memory_ok m c i j -> c !! k = Some l -> __LOAD__ m (PNext l) = c !! S k.
Proof. intros [] H. destruct (mo_chain0 _ _ H) as (h & Hh & Hn). simpl. by rewrite Hh. Qed.

Lemma next_cases c k : c !! S k = None \/ at_pos c (c !! S k) (S k).
Proof. destruct (c !! S k) eqn:E; [right|by left]. by split; [|eexists]. Qed.

Lemma Enqueue_simulated s a c i j t p st m' p' r :
  related_at s a c i j -> threads s !! t = Some p -> callers a !! t = Some st ->
  pc_ok (holders (mem s)) c i j p st ->
  Enqueue_step (mem s) p = Some (m', p', r) ->
  simulated a t r {| mem := m'; threads := <[ t := p' ]> (threads s) |}.
Proof.
  intros R Ht Hst Hok E. pose proof (ra_memory _ _ _ _ _ R) as Hm.
  destruct p; try done; destruct st; try done; cbn [Enqueue_step] in E; cbn [pc_ok] in Hok.
  - simplify_eq. eapply simulated_local; try done; [|by left].
    split; [done|]. exists j. split; [by eapply load_tail|done].
  - destruct Hok as (Ho & k & Hk & Hkj). destruct Hk as [Hk [l ->]]. simplify_eq.
    eapply simulated_local; try done; [|by left]. split_and!; [done|by eexists|].
    rewrite (load_next _ _ _ _ _ _ Hm Hk).
    destruct (next_cases c k); [by left|right]. exists k. by split; [split; [|eexists]|].
  - destruct Hok as (Ho & Hk & Hn).
    case_decide; [destruct next|]; simplify_eq;
      (eapply simulated_local; try done; try (by left)); simpl; split_and?; try done.
    by destruct Hn.
  - destruct Hok as (Ho & -> & k & [Hk [l ->]] & Hkj). unfold __CAS__ in E.
    case_decide; simplify_eq.
    + eexists. split; [|left; by eapply fifo_enqueue]. exists (c ++ [h]), i, j.
      by eapply related_link.
    + by eapply simulated_local; try done; left.
  - destruct (__CAS__ _ _ _ _) as [b m1] eqn:C. simplify_eq.
    replace m' with (__CAS__ (mem s) PTail tail (Some h)).2 by (by rewrite C).
    by eapply simulated_tail; try done; right.
  - destruct (__CAS__ _ _ _ _) as [b m1] eqn:C. simplify_eq. destruct Hok as [Ho Ha].
    replace m' with (__CAS__ (mem s) PTail tail next).2 by (by rewrite C).
    by eapply simulated_tail; try done; left.
  - simpl in E. destruct (_synch_ (queue (mem s))); simplify_eq.
    + exists a. split; [|by right]. exists c, i, j.
      rewrite <- (fifo_same a t EnqueueDone) by done.
      by eapply related_local; try done; right.
    + eapply simulated_return; try done. by apply fifo_ret_enqueue.
  - case_match; simplify_eq. eapply simulated_return; try done; [|by apply fifo_ret_enqueue].
    destruct R as [_ _ _ _ Hs]. simpl. rewrite Hs. by rewrite (size_kept _ 0).
Qed.

(** The holder after the head is missing only when the queue is empty. *)
Lemma next_missing m c i j k n :
  memory_ok m c i j -> c !! S k = None -> (k <= i)%nat -> (k <= n <= j)%nat ->
  k = n /\ contents (holders m) c i = [].
Proof.
  intros [] Hn%lookup_ge_None Hi Hj. split; [lia|].
  unfold contents. by rewrite drop_ge by lia.
Qed.

Lemma D_next_simulated s a c i j t l tail b :
  related_at s a c i j -> threads s !! t = Some (D_next (Some l) tail) ->
  callers a !! t = Some (Dequeuing b) ->
  pc_ok (holders (mem s)) c i j (D_next (Some l) tail) (Dequeuing b) ->
  simulated a t None
    {| mem := mem s;
       threads := <[ t := D_check (Some l) tail (__LOAD__ (mem s) (PNext l)) ]> (threads s) |}.
Proof.
  intros R Ht Hst (k & n & Hk & Hn & Hi & Hkn). pose proof (ra_memory _ _ _ _ _ R) as Hm.
  rewrite (load_next _ _ _ _ _ _ Hm (proj1 Hk)). destruct (next_cases c k) as [E|E].
  - rewrite E. destruct (next_missing _ _ _ _ _ _ Hm E Hi Hkn) as [<- He].
    rewrite <- (ra_items _ _ _ _ _ R) in He. eexists. split; [|left; by eapply fifo_empty].
    exists c, i, j. rewrite <- He. eapply related_local; try done.
    + exists k, k. by split_and!; try apply Hkn; try done; left.
    + by right.
    + destruct R as [_ _ _ _ ->]. by rewrite size_kept.
  - eapply simulated_local; try done; [|by left]. exists k, n. by split_and!; try apply Hkn; auto.
Qed.

Lemma D_check_simulated s a c i j t head tail next b m' p' r :
  related_at s a c i j -> threads s !! t = Some (D_check head tail next) ->
  callers a !! t = Some (Dequeuing b) ->
  pc_ok (holders (mem s)) c i j (D_check head tail next) (Dequeuing b) ->
  Dequeue_step (mem s) (D_check head tail next) = Some (m', p', r) ->
  simulated a t r {| mem := m'; threads := <[ t := p' ]> (threads s) |}.
Proof.
  intros R Ht Hst (k & n & Hk & Hn & Hkn & Hnext) E. cbn [Dequeue_step] in E.
  pose proof (mo_nodup _ _ _ _ (ra_memory _ _ _ _ _ R)) as Hnd.
  case_decide; [case_decide as D; [destruct next|]|]; simplify_eq.
  - eapply simulated_local; try done; [|by left].
    destruct Hnext as [(?&_)|Hnext]; [done|]. by exists k.
  - destruct Hnext as [(_ & _ & ->)|[_ [? ?]]]; [|done].
    eapply simulated_return; try done; [|by apply fifo_ret_nil].
    destruct R as [_ _ _ _ ->]. by rewrite (size_kept _ 0).
  - eapply simulated_local; try done; [|by left].
    destruct Hnext as [(_ & -> & _)|Hnext].
    { destruct D. destruct Hk as [<- _], Hn as [<- _]. done. }
    exists k. split_and!; [done|done|]. destruct (decide (k = n)) as [->|]; [|lia].
    destruct D. destruct Hk as [<- _], Hn as [<- _]. done.
  - by eapply simulated_local; try done; left.
Qed.

Lemma Dequeue_simulated s a c i j t p st m' p' r :
  related_at s a c i j -> threads s !! t = Some p -> callers a !! t = Some st ->
  pc_ok (holders (mem s)) c i j p st ->
  Dequeue_step (mem s) p = Some (m', p', r) ->
  simulated a t r {| mem := m'; threads := <[ t := p' ]> (threads s) |}.
Proof.
  intros R Ht Hst Hok E. pose proof (ra_memory _ _ _ _ _ R) as Hm.
  destruct p; try done; destruct st; try done.
  - simpl in E. go_cases; by eapply simulated_local; try done; left.
  - simpl in E. simplify_eq. eapply simulated_local; try done; [|by left].
    exists i. split; [by eapply load_head|done].
  - cbn [Dequeue_step] in E. simplify_eq. eapply simulated_local; try done; [|by left].
    destruct Hok as (k & Hk & Hi). exists k, j. pose proof (mo_order _ _ _ _ Hm).
    split_and!; [done|by eapply load_tail|lia|lia|lia].
  - destruct head as [l|]; [|by destruct Hok as (?&?&[_ [? ?]]&_)].
    cbn [Dequeue_step] in E. simplify_eq. by eapply D_next_simulated.
  - by eapply D_check_simulated.
  - cbn [Dequeue_step] in E. destruct (__CAS__ _ _ _ _) as [b m1] eqn:C. simplify_eq.
    replace m' with (__CAS__ (mem s) PTail tail next).2 by (by rewrite C).
    by eapply simulated_tail; try done; left.
  - cbn [Dequeue_step] in E. destruct Hok as (k & Hk & [Hn [l ->]] & Hj).
    destruct (mo_chain _ _ _ _ Hm _ _ Hn) as (h & Hh & _). simpl in E. rewrite Hh in E.
    simplify_eq. eapply simulated_local; try done; [|by left].
    exists k. split_and!; try done. simpl. unfold value_at. by rewrite Hh.
  - cbn [Dequeue_step] in E. unfold __CAS__ in E. case_decide as D; simplify_eq.
    + destruct (related_head s a c i j t (__LOAD__ (mem s) PHead) next v was_empty) as (rest & Hi & R'); try done.
      eexists. split; [by exists c, (S i), j|]. left. by eapply fifo_dequeue.
    + by eapply simulated_local; try done; left.
  - simpl in E. simplify_eq. simpl in Hok. subst.
    eapply simulated_return; try done. by apply fifo_ret_dequeue.
Qed.

Lemma related_step s a t o s' e :
  related s a -> sys_step s t o = Some (s', e) ->
  exists a', related s' a' /\ (fifo_step a e a' \/ (e = None /\ a' = a)).
Proof.
  intros (c & i & j & R) E. unfold sys_step in E.
  destruct (threads s !! t) as [p|] eqn:Ht; [|done].
  destruct (Forall2_lookup_l _ _ _ _ _ (ra_pcs _ _ _ _ _ R) Ht) as (st & Hst & Hok).
  destruct o as [o|].
  - destruct p; try done. destruct st; try done. destruct o as [v|]; simpl in E; simplify_eq.
    + eexists. split; [|left; by apply fifo_call_enqueue]. exists c, i, j.
      apply related_alloc; try done. apply not_elem_of_dom, is_fresh.
    + eexists. split; [|left; by apply fifo_call_dequeue]. exists c, i, j.
      eapply related_local; try done; [by left|].
      destruct R as [_ _ _ _ ->]. by rewrite size_kept.
  - assert (S : forall m' p' r, step (mem s) p = Some (m', p', r) ->
              simulated a t r {| mem := m'; threads := <[ t := p' ]> (threads s) |}).
    { intros m' p' r Hs. destruct p; first
        [ by eapply Enqueue_simulated | by eapply Dequeue_simulated ]. }
    destruct (step (mem s) p) as [[[m' p'] r]|] eqn:Es; [|by destruct p].
    destruct (S _ _ _ eq_refl) as (a' & R' & Hf).
    exists a'. destruct p; simplify_eq; (split; [done|]);
      (destruct Hf as [Hf|[-> ->]]; [by left|by right]).
Qed.

(** ** The values in the list *)

(** The values of the holders from [p] on. *)
Fixpoint follow (fuel : nat) hs (p : option nat) : list (option V) :=
  match fuel, p with
  | S fuel', Some l =>
      match hs !! l with
      | Some h => _value_ h :: follow fuel' hs (_next_ h)
      | None => []
      end
  | _, _ => []
  end.

Definition queue_values (m : memory V) : list (option V) :=
  match _head_ (queue m) with
  | Some l => follow (size (holders m)) (holders m) (__LOAD__ m (PNext l))
  | None => []
  end.

Lemma follow_chain fuel hs c k :
  chain_ok hs c -> (length c - k <= fuel)%nat ->
  follow fuel hs (c !! k) = value_at hs <$> drop k c.
Proof.
  intros Hc. revert k. induction fuel as [|fuel IH]; intros k Hk.
  - by rewrite drop_ge by lia.
  - destruct (c !! k) as [l|] eqn:E; simpl.
    + destruct (Hc _ _ E) as (h & Hh & Hn). rewrite (drop_S _ _ _ E), Hh, Hn, IH by lia.
      simpl. f_equal. unfold value_at. by rewrite Hh.
    + by rewrite drop_ge by (by apply lookup_ge_None).
Qed.

Lemma queue_values_items s a : related s a -> queue_values (mem s) = items a.
Proof.
  intros (c & i & j & R). pose proof R as [Hm -> _ _ _].
  pose proof Hm as [Hhd _ Hij Hb _ Hnd Hch]. unfold queue_values. rewrite Hhd.
  destruct (c !! i) as [l|] eqn:E; [|apply lookup_ge_None in E; lia].
  rewrite (load_next _ _ _ _ _ _ Hm E). apply follow_chain; [done|].
  enough (length c <= size (holders (mem s)))%nat by lia.
  rewrite <- size_dom, <- (size_list_to_set (C := gset nat)) by done.
  apply subseteq_size. intros l' [k Hk]%elem_of_list_to_set%list_elem_of_lookup.
  destruct (Hch _ _ Hk) as (h & Hh & _). by eapply elem_of_dom_2.
Qed.

Lemma total_uncounted_idle (l : list (pc V)) :
  Forall (eq Idle) l -> total_uncounted l = 0.
Proof. induction 1 as [|p l <- _ IH]; simpl; [done|lia]. Qed.

Lemma related_init b n : related (@sys_init V b n) (fifo_init n).
Proof.
  exists [0%nat], 0%nat, 0%nat. split.
  - split; simpl; try done; [lia|lia|apply NoDup_singleton|].
    intros [|k] l H; [|done]. simplify_eq/=. by eexists.
  - done.
  - apply Forall2_same_length_lookup. simpl. rewrite !length_replicate. split; [done|].
    intros t p st [-> _]%lookup_replicate [-> _]%lookup_replicate. done.
  - intros t t' p p' h Hp _ Ho. apply lookup_replicate in Hp as [-> _]. done.
  - simpl. replace (total_uncounted _) with 0; [done|]. induction n; simpl; [done|lia].
Qed.

Lemma related_run b n es s :
  sys_run (@sys_init V b n) es s ->
  exists a, fifo_run (fifo_init n) es a /\ related s a.
Proof.
  induction 1 as [|es s1 t o s2 e _ IH E].
  - exists (fifo_init n). split; [constructor|apply related_init].
  - destruct IH as (a & Ha & R). destruct (related_step _ _ _ _ _ _ R E) as (a' & R' & Hf).
    exists a'. split; [|done]. destruct Hf as [Hf|[-> ->]].
    + by eapply fifo_run_step.
    + by rewrite app_nil_r.
Qed.

Lemma sys_exec_run (s0 s s' : sys V) l es es' :
  sys_run s0 es s -> sys_exec s l = Some (s', es') -> sys_run s0 (es ++ es') s'.
Proof.
  revert s es es'. induction l as [|[t o] l IH]; intros s es es' R E; simplify_eq/=.
  - by rewrite app_nil_r.
  - destruct (sys_step s t o) as [[s1 e]|] eqn:E1; [|done].
    destruct (sys_exec s1 l) as [[s2 es2]|] eqn:E2; simplify_eq.
    rewrite app_assoc. eapply IH; [|done]. by eapply sys_run_step.
Qed.

(** C23: Goroutines that share a lock-free queue, in any number and with any
    interleaving of their accesses to memory, observe a first-in first-out queue
    whose operations are atomic: every sequence of calls and returns is one of
    the contract, in which each enqueue appends its value and each dequeue takes
    the oldest value, once, between the call and the return, and a dequeue
    returns nil for an empty queue only if the queue was empty at a moment of
    the call.  No nil pointer is ever dereferenced. *)
Theorem lock_free_queue_linearizable (b : bool) (n : nat) (es : list (event V)) (s : sys V) :
  sys_run (sys_init b n) es s ->
  (exists a, fifo_run (fifo_init n) es a /\ items a = queue_values (mem s)) /\
  forall t, threads s !! t <> Some Panicked.
Proof.
  intros H. destruct (related_run _ _ _ _ H) as (a & Ha & R). split.
  { exists a. split; [done|]. symmetry. by apply queue_values_items. }
  intros t Ht. destruct R as (c & i & j & R).
  by destruct (Forall2_lookup_l _ _ _ _ _ (ra_pcs _ _ _ _ _ R) Ht) as (st & _ & Hok).
Qed.

(** The size of a lock-free queue is the number of values in it, as a 64 bit
    integer, corrected by the calls that have changed the list and not yet the
    size; when no call is in progress it is exact. *)
Theorem Len_counts_values (b : bool) (n : nat) (es : list (event V)) (s : sys V) :
  sys_run (sys_init b n) es s ->
  Len (mem s) = to_int64 (Z.of_nat (length (queue_values (mem s)))
                          - total_uncounted (threads s)) /\
  (Forall (eq Idle) (threads s) ->
   Len (mem s) = to_int64 (Z.of_nat (length (queue_values (mem s))))).
Proof.
  intros H. destruct (related_run _ _ _ _ H) as (a & _ & R).
  rewrite (queue_values_items _ _ R). destruct R as (c & i & j & R).
  unfold Len. rewrite (ra_size _ _ _ _ _ R). split; [done|].
  intros Hi. rewrite total_uncounted_idle by done. by rewrite Z.sub_0_r.
Qed.

End Invariant.

(** ** A concrete run: two enqueues, then two dequeues that race *)

(** [k] accesses of goroutine [t]. *)
Definition go_on (t k : nat) : list (nat * option (op Z)) := replicate k (t, None).

(** Goroutine 0 enqueues 7 and 8; goroutines 1 and 2 both read the head, then
    1 takes a value, and 2 fails to. *)
Definition race : list (nat * option (op Z)) :=
  (0%nat, Some (Enqueue_op (Some 7))) :: go_on 0 7 ++
  (0%nat, Some (Enqueue_op (Some 8))) :: go_on 0 7 ++
  (1%nat, Some Dequeue_op) :: go_on 1 6 ++
  (2%nat, Some Dequeue_op) :: go_on 2 6 ++
  go_on 1 2 ++ go_on 2 1.

Definition race_end : sys Z * list (event Z) :=
  default (sys_init true 3, []) (sys_exec (sys_init true 3) race).

Lemma race_exec : sys_exec (sys_init true 3) race = Some race_end.
Proof. vm_compute. reflexivity. Qed.

Lemma race_run : sys_run (sys_init true 3) race_end.2 race_end.1.
Proof.
  pose proof race_exec as H. destruct race_end as [s es].
  exact (sys_exec_run _ _ _ _ [] es (sys_run_nil _) H).
Qed.

Lemma lock_free_queue_linearizable_witness :
  race_end.2 = [Call 0 (Enqueue_op (Some 7)); Ret 0 Enqueued;
                Call 0 (Enqueue_op (Some 8)); Ret 0 Enqueued;
                Call 1 Dequeue_op; Call 2 Dequeue_op; Ret 1 (Dequeued (Some 7) 1)] /\
  exists a, fifo_run (fifo_init 3) race_end.2 a /\ items a = queue_values (mem race_end.1).
Proof.
  split; [vm_compute; reflexivity|].
  exact (proj1 (lock_free_queue_linearizable true 3 race_end.2 race_end.1 race_run)).
Defined.

Lemma Len_counts_values_witness :
  Len (mem race_end.1) = 1 /\
  Len (mem race_end.1)
  = to_int64 (Z.of_nat (length (queue_values (mem race_end.1)))
              - total_uncounted (threads race_end.1)).
Proof.
  split; [vm_compute; reflexivity|].
  exact (proj1 (Len_counts_values true 3 race_end.2 race_end.1 race_run)).
Defined.

(** A dequeue takes a token of the channel in every attempt, and an attempt
    that loses the race for the head does not give its token back: there is a
    run of two enqueues and two dequeues after which a value is in the queue and
    the second dequeue waits for a token, of which there is none. *)
Theorem lost_token_blocks_dequeue :
  exists l s es, sys_exec (@sys_init Z true 3) l = Some (s, es) /\
    threads s = [Idle; Idle; D_recv] /\ queue_values (mem s) = [Some 8] /\
    _ch_ (queue (mem s)) = 0 /\ sys_step s 2 None = None.
Proof.
  exists race, race_end.1, race_end.2.
  split_and!; [rewrite race_exec; by destruct race_end|vm_compute; reflexivity..].
Qed.
