(* ===== verification/LockFreeProgress.v ===== *)
(** A call of the lock-free queue that runs alone comes to its end: whatever
    state other callers left, it needs a bounded number of accesses. *)
From S2P Require Import Prelude LockFree LockFreeProps.

Section Progress.
Context {V : Type}.
Implicit Types (m : memory V) (p : pc V).

(** The goroutine goes on alone until the call returns or is blocked; [None]
    when the fuel runs out. *)
Fixpoint alone (fuel : nat) m p : option (memory V * pc V * option (@result V)) :=
  match fuel with
  | O => None
  | S fuel' =>
      match step m p with
      | None => Some (m, p, None)
      | Some (m', p', Some r) => Some (m', p', Some r)
      | Some (m', p', None) => alone fuel' m' p'
      end
  end.

(** ** A measure of the accesses left *)

(** The holder [x] points to has a successor. *)
Definition has_next m (x : option nat) : bool :=
  match x ≫= fun l => __LOAD__ m (PNext l) with Some _ => true | None => false end.

(** The tail is not the last holder. *)
Definition lag m : nat := if has_next m (_tail_ (queue m)) then 1 else 0.

Definition at_tail m (x : option nat) : bool := bool_decide (x = _tail_ (queue m)).
Definition at_head m (x : option nat) : bool := bool_decide (x = _head_ (queue m)).

Definition left_after_help m (tail : option nat) (done again : nat) : nat :=
  S (if at_tail m tail then done else done + again * lag m).

Definition measure m p : nat :=
  match p with
  | E_tail _ => 7 + 4 * lag m
  | E_next _ tail => if at_tail m tail then 6 + 4 * lag m else 9 + 4 * lag m
  | E_check _ tail next =>
      if at_tail m tail then
        match next with
        | None => if has_next m tail then 13 else 5
        | Some _ => 9
        end
      else 8 + 4 * lag m
  | E_link _ tail _ => if has_next m tail then 8 + 4 * lag m else 4
  | E_help _ tail _ => left_after_help m tail 7 4
  | E_swing _ _ => 3
  | E_count => 2
  | E_send => 1
  | D_recv => 8 + 6 * lag m
  | D_head => 7 + 6 * lag m
  | D_tail head => if at_head m head then 6 + 6 * lag m else 12 + 6 * lag m
  | D_next head tail =>
      if at_head m head && at_tail m tail then 5 + 6 * lag m else 11 + 6 * lag m
  | D_check head tail next =>
      if at_head m head then
        if bool_decide (head = tail) then
          match next with
          | None => 1
          | Some _ => S (left_after_help m tail 8 6)
          end
        else 4
      else 9 + 6 * lag m
  | D_help tail _ => left_after_help m tail 8 6
  | D_value head _ => if at_head m head then 3 else 10 + 6 * lag m
  | D_take head _ _ => if at_head m head then 2 else 9 + 6 * lag m
  | D_count _ => 1
  | Idle | Panicked => 0
  end%nat.

Lemma lag_bound m : (lag m <= 1)%nat.
Proof. unfold lag. case_match; lia. Qed.

Lemma measure_bound m p : (measure m p <= 18)%nat.
Proof.
  pose proof (lag_bound m). destruct p; simpl; unfold left_after_help;
    repeat case_match; lia.
Qed.

(** Moving the tail to the next holder leaves it at the last one. *)
Lemma help_ends_lag m c i j tail next m' :
  memory_ok m c i j -> after c tail next -> __CAS__ m PTail tail next = (true, m') ->
  lag m' = 0%nat.
Proof.
  intros [] (k & Hk & [Hn [l ->]]) E. unfold __CAS__ in E. case_decide as D; simplify_eq.
  simpl in Hk. assert (k = j) as ->.
  { eapply at_pos_inj; [done|exact Hk|]. split; [congruence|apply Hk]. }
  unfold lag, has_next. simpl. destruct (mo_chain _ _ Hn) as (h & Hh & Hnx).
  rewrite Hh. simpl. rewrite Hnx.
  by rewrite (lookup_ge_None_2 c (S (S j))) by lia.
Qed.

Lemma help_decreases m c i j tail next d k :
  memory_ok m c i j -> after c tail next ->
  (d + k * lag (__CAS__ m PTail tail next).2 < left_after_help m tail d k)%nat.
Proof.
  intros Hm Ha. unfold left_after_help, at_tail. case_bool_decide as D.
  - rewrite (help_ends_lag m c i j tail next); [lia|done|done|].
    unfold __CAS__. by rewrite decide_True.
  - unfold __CAS__. rewrite decide_False by (by intros <-). simpl. lia.
Qed.

Lemma at_tail_load m : at_tail m (__LOAD__ m PTail) = true.
Proof. by apply bool_decide_eq_true. Qed.
Lemma at_head_load m : at_head m (__LOAD__ m PHead) = true.
Proof. by apply bool_decide_eq_true. Qed.

(** At the tail, the holder that was loaded as its successor tells the lag. *)
Lemma at_tail_lag m tail :
  at_tail m tail = true -> lag m = if has_next m tail then 1%nat else 0%nat.
Proof. intros ->%bool_decide_eq_true. done. Qed.

Lemma has_next_load m l :
  has_next m (Some l) = match __LOAD__ m (PNext l) with Some _ => true | None => false end.
Proof. done. Qed.

Lemma Enqueue_decreases m c i j p st m' p' :
  memory_ok m c i j -> pc_ok (holders m) c i j p st ->
  Enqueue_step m p = Some (m', p', None) -> (measure m' p' < measure m p)%nat.
Proof.
  intros Hm Hok E. destruct p; try done; destruct st; try done;
    cbn [Enqueue_step] in E; cbn [pc_ok] in Hok.
  - simplify_eq. cbn [measure]. rewrite at_tail_load. lia.
  - destruct Hok as (_ & k & [_ [l ->]] & _). simplify_eq. cbn [measure].
    destruct (at_tail m' (Some l)) eqn:T; [|lia].
    rewrite (at_tail_lag _ _ T), has_next_load. destruct (__LOAD__ m' (PNext l)); lia.
  - case_decide as D; [subst tail; destruct next|]; simplify_eq; cbn [measure];
      rewrite ?at_tail_load; unfold left_after_help; rewrite ?at_tail_load.
    + lia.
    + rewrite (at_tail_lag m' (__LOAD__ m' PTail) (at_tail_load m')). case_match; lia.
    + unfold at_tail. rewrite bool_decide_false by done. lia.
  - destruct Hok as (_ & -> & k & [_ [l ->]] & _). unfold __CAS__ in E.
    cbn [measure]. rewrite has_next_load. case_decide as D; simplify_eq; cbn [measure].
    + rewrite D. lia.
    + destruct (__LOAD__ m' (PNext l)); [lia|done].
  - destruct (__CAS__ _ _ _ _) as [b m1]. simplify_eq. cbn [measure]. lia.
  - destruct Hok as [_ Ha]. pose proof (help_decreases m c i j tail next 7 4 Hm Ha).
    destruct (__CAS__ _ _ _ _) as [b m1]. simplify_eq. done.
  - simpl in E. case_match; simplify_eq. simpl. lia.
  - case_match; simplify_eq.
Qed.

Lemma Dequeue_decreases m c i j p st m' p' :
  memory_ok m c i j -> pc_ok (holders m) c i j p st ->
  Dequeue_step m p = Some (m', p', None) -> (measure m' p' < measure m p)%nat.
Proof.
  intros Hm Hok E. destruct p; try done; destruct st; try done;
    cbn [Dequeue_step] in E; cbn [pc_ok] in Hok.
  - repeat case_match; simplify_eq; cbn [measure]; unfold lag, has_next; simpl; lia.
  - simplify_eq. cbn [measure]. rewrite at_head_load. lia.
  - simplify_eq. cbn [measure]. rewrite at_tail_load. destruct (at_head m' _); simpl; lia.
  - destruct Hok as (k & n & [_ [l ->]] & _). simplify_eq. cbn [measure].
    unfold left_after_help. destruct (at_head m' (Some l)); cbn [andb]; [|repeat case_match; lia].
    case_bool_decide as D; [subst tail|repeat case_match; lia].
    destruct (at_tail m' (Some l)) eqn:T; [|repeat case_match; lia].
    rewrite (at_tail_lag _ _ T), has_next_load. destruct (__LOAD__ m' (PNext l)); lia.
  - case_decide as D; [case_decide as D'; [destruct next|]|]; simplify_eq; cbn [measure];
      rewrite ?at_head_load.
    + rewrite bool_decide_true by done. lia.
    + rewrite bool_decide_false by done. lia.
    + unfold at_head. rewrite bool_decide_false by done. lia.
  - pose proof (help_decreases m c i j tail next 8 6 Hm Hok).
    destruct (__CAS__ _ _ _ _) as [b m1]. simplify_eq. done.
  - case_match; simplify_eq; cbn [measure]; case_match; lia.
  - unfold __CAS__ in E. case_decide as D; simplify_eq; cbn [measure].
    + rewrite at_head_load. lia.
    + unfold at_head. rewrite bool_decide_false by (by intros ->). lia.
Qed.

(** ** Runs alone *)

(** Every outcome of a step from [p]. *)
Ltac step_cases p E :=
  destruct p; simpl in E; try (unfold __CAS__ in E); simplify_eq/=; try done; go_cases.

(** Only a synchronised queue sends tokens. *)
Lemma step_synch m p m' p' r :
  step m p = Some (m', p', r) ->
  _synch_ (queue m') = _synch_ (queue m) /\ (p' = E_send -> _synch_ (queue m) = true).
Proof.
  intros E. step_cases p E.
Qed.

Lemma run_synch b n es (s : sys V) :
  sys_run (sys_init b n) es s ->
  _synch_ (queue (mem s)) = b /\ (E_send ∈ threads s -> b = true).
Proof.
  induction 1 as [|es s1 t o s2 e _ [Hb He] E].
  - split; [done|]. intros [? _]%elem_of_replicate. done.
  - unfold sys_step in E. destruct (threads s1 !! t) as [p|] eqn:Ht; [|done].
    assert (Hin : forall p', E_send ∈ <[ t := p' ]> (threads s1) -> p' = E_send \/ b = true).
    { intros p' [t' H']%list_elem_of_lookup. apply list_lookup_insert_Some in H'.
      destruct H' as [(_ & -> & _)|[_ H']]; [by left|right].
      apply He. by eapply list_elem_of_lookup_2. }
    destruct o as [o|].
    + destruct p; try done. destruct o; simplify_eq/=; (split; [done|]);
        intros [H0|H0]%Hin; done.
    + assert (Hs : forall m' p' r, step (mem s1) p = Some (m', p', r) ->
                _synch_ (queue m') = b /\ (E_send ∈ <[ t := p' ]> (threads s1) -> b = true)).
      { intros m' p' r [H1 H2]%step_synch. split; [congruence|].
        intros [H0|H0]%Hin; [rewrite <- Hb; by apply H2|done]. }
      destruct (step (mem s1) p) as [[[m' p'] r]|] eqn:Es; [|by destruct p].
      destruct p; simplify_eq; by eapply Hs.
Qed.

(** A call without a next access waits for the channel. *)
Definition blocked m p : Prop :=
  _synch_ (queue m) = true /\
  ((p = E_send /\ ch_capacity <= _ch_ (queue m)) \/ (p = D_recv /\ _ch_ (queue m) <= 0)).

Lemma no_step_blocked m c i j p st :
  pc_ok (holders m) c i j p st -> p <> Idle -> step m p = None ->
  (p = E_send -> _synch_ (queue m) = true) -> blocked m p.
Proof.
  intros Hok Hp E Hs. destruct p; try done; destruct st; try done; simpl in E;
    try (unfold __CAS__ in E); repeat (case_match; try done); unfold blocked.
  - split; [by apply Hs|left]. split; [done|]. apply Z.ltb_ge. congruence.
  - split; [done|right]. split; [done|]. by apply Z.ltb_ge.
Qed.

Lemma step_decreases m c i j p st m' p' :
  memory_ok m c i j -> pc_ok (holders m) c i j p st ->
  step m p = Some (m', p', None) -> (measure m' p' < measure m p)%nat.
Proof.
  intros Hm Hok E. destruct p; first
    [ by eapply Enqueue_decreases | by eapply Dequeue_decreases ].
Qed.

Lemma step_not_idle m p m' p' : step m p = Some (m', p', None) -> p' <> Idle.
Proof.
  intros E. step_cases p E.
Qed.

Lemma alone_ends b n fuel : forall es (s : sys V) t p,
  sys_run (sys_init b n) es s -> threads s !! t = Some p -> p <> Idle ->
  (measure (mem s) p < fuel)%nat ->
  exists m' p' r, alone fuel (mem s) p = Some (m', p', r) /\ (r = None -> blocked m' p').
Proof.
  induction fuel as [|fuel IH]; [lia|]. intros es s t p R Ht Hp Hf. simpl.
  destruct (related_run _ _ _ _ R) as (a & _ & c & i & j & Ra).
  destruct (Forall2_lookup_l _ _ _ _ _ (ra_pcs _ _ _ _ _ Ra) Ht) as (st & _ & Hok).
  destruct (step (mem s) p) as [[[m' p'] [r|]]|] eqn:E.
  - by exists m', p', (Some r).
  - pose proof (step_decreases _ _ _ _ _ _ _ _ (ra_memory _ _ _ _ _ Ra) Hok E).
    apply (IH (es ++ []) {| mem := m'; threads := <[ t := p' ]> (threads s) |} t).
    + eapply (sys_run_step _ _ s t None _ None); [done|]. unfold sys_step. rewrite Ht.
      destruct p; try done; by rewrite E.
    + apply list_lookup_insert_eq. by eapply lookup_lt_Some.
    + by eapply step_not_idle.
    + simpl. lia.
  - exists (mem s), p, None. split; [done|]. intros _.
    eapply no_step_blocked; try done. intros ->.
    destruct (run_synch _ _ _ _ R) as [-> He]. apply He. by eapply list_elem_of_lookup_2.
Qed.

(** C30: No caller of the lock-free queue waits for another: in every state that
    goroutines reach, a call that goes on alone returns after at most 19
    accesses to memory, or waits for the channel of a synchronised queue, an
    enqueue because the channel is full, a dequeue because it is empty. *)
Theorem call_alone_ends (b : bool) (n : nat) (es : list (event V)) (s : sys V) (t : nat) p :
  sys_run (sys_init b n) es s -> threads s !! t = Some p -> p <> Idle ->
  exists m' p' r, alone 19 (mem s) p = Some (m', p', r) /\ (r = None -> blocked m' p').
Proof.
  intros R Ht Hp. eapply alone_ends; try done. pose proof (measure_bound (mem s) p). lia.
Qed.

End Progress.

Lemma call_alone_ends_witness :
  exists m' p' r, alone 19 (mem race_end.1) D_recv = Some (m', p', r) /\
    (r = None -> blocked m' p').
Proof.
  apply (call_alone_ends true 3 race_end.2 race_end.1 2 D_recv race_run); [|done].
  vm_compute. reflexivity.
Defined.
