(* ===== verification/Queues.v ===== *)
(** The queues behind a mutex: [queues/basicqueue.go] and
    [queues/syncqueue.go].

    The critical section of each operation is atomic.  A [SyncQueue] counts its
    values in a channel; sending and receiving a token are steps of their own,
    so that other goroutines run between the token and the critical section.
    The queue inside is the library's, [CollQueue]. *)
From S2P Require Import Prelude GoLib.

(** ** BasicQueue *)

Section Basic.
Context `{CollQueue} {V : Type}.

(** A value is an [interface{}]: [None] is nil. *)
Definition BasicQueue : Type := cq (option V).

Definition NewBasicQueue : BasicQueue := cq_New.
Definition BasicQueue_Enqueue (bq : BasicQueue) (value : option V) : BasicQueue :=
  cq_Enqueue bq value.
Definition BasicQueue_Len (bq : BasicQueue) : Z := cq_Len bq.
Definition BasicQueue_Dequeue (bq : BasicQueue) : option V * BasicQueue :=
  if 0 <? cq_Len bq then let '(v, q) := cq_Dequeue bq in (mjoin v, q) else (None, bq).

End Basic.

(** ** SyncQueue *)

Section Sync.
Context `{CollQueue} {V : Type}.

Record SyncQueue := { sq_q : cq (option V); sq_c : Z }.

(** [make(chan bool, 100)] *)
Definition sq_capacity : Z := 100.

Definition GetSyncQueue : SyncQueue := {| sq_q := cq_New; sq_c := 0 |}.

(** Where a call stands: before the channel operation or, with the token sent
    or received, before the critical section. *)
Inductive sync_pc :=
| Outside
| Sending (value : option V)
| Putting (value : option V)
| Receiving
| Getting.

(** What is visible: a value was put, a value was taken, and a dequeue that
    found the queue empty. *)
Inductive sync_event := Put (value : option V) | Got (value : option V) | GotNothing.

(** One step of a call; [None] when the channel blocks it. *)
Definition SyncQueue_step (q : SyncQueue) (p : sync_pc)
    : option (SyncQueue * sync_pc * option sync_event) :=
  match p with
  | Outside => None
  | Sending v =>
      if sq_c q <? sq_capacity
      then Some ({| sq_q := sq_q q; sq_c := sq_c q + 1 |}, Putting v, None) else None
  | Putting v =>
      Some ({| sq_q := cq_Enqueue (sq_q q) v; sq_c := sq_c q |}, Outside, Some (Put v))
  | Receiving =>
      if 0 <? sq_c q
      then Some ({| sq_q := sq_q q; sq_c := sq_c q - 1 |}, Getting, None) else None
  | Getting =>
      if 0 <? cq_Len (sq_q q) then
        let '(v, q') := cq_Dequeue (sq_q q) in
        Some ({| sq_q := q'; sq_c := sq_c q |}, Outside, Some (Got (mjoin v)))
      else Some (q, Outside, Some GotNothing)
  end.

(** Goroutines that share the queue. *)
Record sync_sys := { sq : SyncQueue; sq_threads : list sync_pc }.

Inductive sync_op := SyncQueue_Enqueue (value : option V) | SyncQueue_Dequeue.

Definition sync_call (o : sync_op) : sync_pc :=
  match o with SyncQueue_Enqueue v => Sending v | SyncQueue_Dequeue => Receiving end.

Definition sync_sys_step (s : sync_sys) (t : nat) (c : option sync_op)
    : option (sync_sys * option sync_event) :=
  match sq_threads s !! t, c with
  | Some Outside, Some o =>
      Some ({| sq := sq s; sq_threads := <[ t := sync_call o ]> (sq_threads s) |}, None)
  | Some p, None =>
      match SyncQueue_step (sq s) p with
      | Some (q, p', e) =>
          Some ({| sq := q; sq_threads := <[ t := p' ]> (sq_threads s) |}, e)
      | None => None
      end
  | _, _ => None
  end.

Fixpoint sync_exec (s : sync_sys) (l : list (nat * option sync_op))
    : option (sync_sys * list sync_event) :=
  match l with
  | [] => Some (s, [])
  | (t, c) :: l' =>
      match sync_sys_step s t c with
      | Some (s', e) =>
          match sync_exec s' l' with
          | Some (s'', es) => Some (s'', option_list e ++ es)
          | None => None
          end
      | None => None
      end
  end.

Definition sync_init (n : nat) : sync_sys :=
  {| sq := GetSyncQueue; sq_threads := replicate n Outside |}.

(** ** What the events say *)

Definition puts (es : list sync_event) : list (option V) :=
  omap (fun e => match e with Put v => Some v | _ => None end) es.
Definition gots (es : list sync_event) : list (option V) :=
  omap (fun e => match e with Got v => Some v | _ => None end) es.
Definition nothings (es : list sync_event) : Z :=
  foldr (fun e n => match e with GotNothing => n + 1 | _ => n end) 0 es.

(** Tokens that are sent and whose value is not put yet, less the tokens that
    are received and whose value is not taken yet. *)
Definition ahead (p : sync_pc) : Z :=
  match p with Putting _ => 1 | Getting => -1 | _ => 0 end.
Definition total_ahead (l : list sync_pc) : Z := foldr (fun p n => ahead p + n) 0 l.

Record sync_inv (s : sync_sys) (es : list sync_event) : Prop := {
  si_order : puts es = gots es ++ cq_elems (sq_q (sq s));
  si_tokens : Z.of_nat (length (cq_elems (sq_q (sq s))))
              = sq_c (sq s) - total_ahead (sq_threads s) + nothings es;
  si_range : 0 <= sq_c (sq s) <= sq_capacity
}.

Lemma total_ahead_insert l t p p' :
  l !! t = Some p -> total_ahead (<[ t := p' ]> l) = total_ahead l - ahead p + ahead p'.
Proof.
  revert t. induction l as [|q l IH]; intros [|t] E; simplify_eq/=; [lia|].
  rewrite (IH _ E). lia.
Qed.

Lemma nothings_app es es' : nothings (es ++ es') = nothings es + nothings es'.
Proof. induction es as [|[] es IH]; simpl; lia. Qed.

Lemma puts_app es es' : puts (es ++ es') = puts es ++ puts es'.
Proof. apply omap_app. Qed.
Lemma gots_app es es' : gots (es ++ es') = gots es ++ gots es'.
Proof. apply omap_app. Qed.

Lemma sync_step_inv s es t c s' e :
  sync_inv s es -> sync_sys_step s t c = Some (s', e) -> sync_inv s' (es ++ option_list e).
Proof.
  intros [Ho Ht Hr] E. unfold sync_sys_step in E.
  destruct (sq_threads s !! t) as [p|] eqn:Hp; [|done].
  pose proof (fun p' => total_ahead_insert _ _ _ p' Hp) as Ha.
  destruct c as [o|].
  { destruct p; simplify_eq. rewrite app_nil_r. split; simpl; [done| |done].
    rewrite Ha. destruct o; simpl; lia. }
  destruct p as [|v|v| |]; simpl in E; [done| | | |].
  - destruct (Z.ltb_spec (sq_c (sq s)) sq_capacity); simplify_eq. rewrite app_nil_r.
    split; simpl; [done|rewrite Ha; simpl; lia|lia].
  - simplify_eq. split; simpl; rewrite ?puts_app, ?gots_app, ?nothings_app, ?Ha; simpl; [| |done].
    + rewrite Ho, cq_Enqueue_spec, app_nil_r. by rewrite app_assoc.
    + rewrite cq_Enqueue_spec, length_app. simpl. lia.
  - destruct (Z.ltb_spec 0 (sq_c (sq s))); simplify_eq. rewrite app_nil_r.
    split; simpl; [done|rewrite Ha; simpl; lia|lia].
  - rewrite cq_Len_spec in E.
    pose proof (cq_Dequeue_fst (sq_q (sq s))) as Hf.
    pose proof (cq_Dequeue_snd (sq_q (sq s))) as Hs.
    destruct (cq_elems (sq_q (sq s))) as [|v l] eqn:L; simpl in *.
    + simplify_eq. split; rewrite ?puts_app, ?gots_app, ?nothings_app; simpl; rewrite ?L, ?Ha;
        simpl; [by rewrite !app_nil_r in *|lia|done].
    + destruct (cq_Dequeue (sq_q (sq s))) as [w q]. simplify_eq/=.
      split; simpl; rewrite ?puts_app, ?gots_app, ?nothings_app, ?Ha, ?Hs; simpl; [|lia|done].
      rewrite Ho, app_nil_r. by rewrite <- app_assoc.
Qed.

Lemma sync_exec_inv l : forall s es s' es',
  sync_inv s es -> sync_exec s l = Some (s', es') -> sync_inv s' (es ++ es').
Proof.
  induction l as [|[t o] l IH]; intros s es s' es' I E; simplify_eq/=.
  - by rewrite app_nil_r.
  - destruct (sync_sys_step s t o) as [[s1 e]|] eqn:E1; [|done].
    destruct (sync_exec s1 l) as [[s2 es2]|] eqn:E2; simplify_eq.
    rewrite app_assoc. eapply IH; [|done]. by eapply sync_step_inv.
Qed.

Lemma sync_init_inv n : sync_inv (sync_init n) [].
Proof.
  split; simpl; rewrite ?cq_New_spec; [done| |done].
  replace (total_ahead _) with 0; [done|]. induction n; simpl; [done|lia].
Qed.

(** Goroutines that share a [SyncQueue] take the values in the order in which
    they were put, each once.  The channel counts the values: when no call is
    between its token and its critical section, the queue holds one value per
    token and one more for each dequeue that found the queue empty, because
    such a dequeue used the token of a value that was put after it; no token is
    left for that value. *)
Theorem SyncQueue_order_and_tokens (n : nat) (l : list (nat * option sync_op))
    (s : sync_sys) (es : list sync_event) :
  sync_exec (sync_init n) l = Some (s, es) ->
  puts es = gots es ++ cq_elems (sq_q (sq s)) /\
  (total_ahead (sq_threads s) = 0 ->
   Z.of_nat (length (cq_elems (sq_q (sq s)))) = sq_c (sq s) + nothings es) /\
  0 <= sq_c (sq s) <= sq_capacity.
Proof.
  intros E. destruct (sync_exec_inv _ _ [] _ _ (sync_init_inv n) E) as [Ho Ht Hr].
  split_and!; [done| |apply Hr|apply Hr]. simpl in *. lia.
Qed.

End Sync.

(** A dequeue receives the token between the two halves of the enqueue. *)
Definition early_dequeue : list (nat * option (@sync_op Z)) :=
  [(0%nat, Some (SyncQueue_Enqueue (Some 7))); (1%nat, Some SyncQueue_Dequeue);
   (0%nat, None); (1%nat, None); (1%nat, None); (0%nat, None)].

Definition early_end : sync_sys :=
  (default (sync_init 2, []) (sync_exec (sync_init 2) early_dequeue)).1.

Lemma SyncQueue_order_and_tokens_witness :
  cq_elems (sq_q (sq early_end)) = [Some 7] /\ sq_c (sq early_end) = 0 /\
  Z.of_nat (length (cq_elems (sq_q (sq early_end))))
  = sq_c (sq early_end) + nothings (V := Z) [GotNothing; Put (Some 7)].
Proof.
  split; [reflexivity|]. split; [reflexivity|].
  apply (SyncQueue_order_and_tokens 2 early_dequeue early_end [GotNothing; Put (Some 7)]);
    vm_compute; reflexivity.
Defined.
