(* ===== verification/TxGen.v ===== *)
(** The command line client: [cmd/txgen/main.go], its commands
    ([tools/txgen/command.go], [watchdog.go], [misc.go]) and the loop that
    generates payments ([Generate] and [Trade0] of [tools/txgen/generator.go]).

    The answers of the node come through the calls of [Trader].  The logarithm
    and the power of ten in floating point are parameters. *)
From S2P Require Import Prelude GoLib Bytes StateMachine Tx TxRecords Storage Pool WalletCache Node Pin.
From S2P Require Import PinProps Confirmation Weights Dag Search Diffusion Services Keys Startup Trader.

(** ** Modes *)

Inductive GenMode :=
| GEN_MODE_GENESIS | GEN_MODE_TRADER | GEN_MODE_LOCAL | GEN_MODE_BALANCE | GEN_MODE_PAYMENT
| GEN_MODE_WALLET | GEN_MODE_COUNT | GEN_MODE_CHECK | GEN_MODE_WATCHDOG.

#[export] Instance GenMode_eq : EqDecision GenMode.
Proof. solve_decision. Defined.

Definition GenMode_Type (m : GenMode) : string :=
  match m with
  | GEN_MODE_GENESIS => "genesis" | GEN_MODE_TRADER => "trader" | GEN_MODE_LOCAL => "local"
  | GEN_MODE_BALANCE => "balance" | GEN_MODE_PAYMENT => "payment" | GEN_MODE_WALLET => "wallet"
  | GEN_MODE_COUNT => "count" | GEN_MODE_CHECK => "check" | GEN_MODE_WATCHDOG => "watchdog"
  end.

Definition gen_modes : list GenMode :=
  [GEN_MODE_GENESIS; GEN_MODE_TRADER; GEN_MODE_LOCAL; GEN_MODE_BALANCE; GEN_MODE_PAYMENT;
   GEN_MODE_WALLET; GEN_MODE_COUNT; GEN_MODE_CHECK; GEN_MODE_WATCHDOG].

Definition ModeMapper (k : string) : option GenMode := List.find (fun m => String.eqb (GenMode_Type m) k) gen_modes.

Definition IsProcessCommand (m : GenMode) : bool :=
  match m with GEN_MODE_COUNT | GEN_MODE_WALLET | GEN_MODE_WATCHDOG => true | _ => false end.

Definition SpinMode (m : GenMode) : bool :=
  match m with GEN_MODE_TRADER | GEN_MODE_LOCAL | GEN_MODE_GENESIS | GEN_MODE_WATCHDOG => true | _ => false end.

Definition GenesisWalletMode (m : GenMode) : bool :=
  match m with GEN_MODE_TRADER | GEN_MODE_LOCAL | GEN_MODE_GENESIS | GEN_MODE_PAYMENT => true | _ => false end.

(** ** Arguments *)

Record CommandArgs := {
  ca_Mode : string; ca_To : string; ca_From : string; ca_Amount : string; ca_Wallets : string;
  ca_Timeout : Z; ca_Retries : Z
}.

(** The flags in the order of the command line. *)
Inductive cli_flag :=
| FMode (s : string) | FPort (z : Z) | FTo (s : string) | FFrom (s : string) | FAmount (s : string)
| FWallets (s : string) | FTimeout (z : Z) | FRetries (z : Z).

Definition default_args : CommandArgs :=
  {| ca_Mode := "trader"; ca_To := ""; ca_From := ""; ca_Amount := "0"; ca_Wallets := "";
     ca_Timeout := 0; ca_Retries := 0 |}.

(** Both [-to] and [-from] are bound to the receivers. *)
Definition apply_flag (c : CommandArgs * Z) (f : cli_flag) : CommandArgs * Z :=
  let '(a, port) := c in
  let set mode to amount wallets timeout retries :=
    {| ca_Mode := mode; ca_To := to; ca_From := ca_From a; ca_Amount := amount; ca_Wallets := wallets;
       ca_Timeout := timeout; ca_Retries := retries |} in
  match f with
  | FMode s => (set s (ca_To a) (ca_Amount a) (ca_Wallets a) (ca_Timeout a) (ca_Retries a), port)
  | FPort z => (a, z)
  | FTo s | FFrom s => (set (ca_Mode a) s (ca_Amount a) (ca_Wallets a) (ca_Timeout a) (ca_Retries a), port)
  | FAmount s => (set (ca_Mode a) (ca_To a) s (ca_Wallets a) (ca_Timeout a) (ca_Retries a), port)
  | FWallets s => (set (ca_Mode a) (ca_To a) (ca_Amount a) s (ca_Timeout a) (ca_Retries a), port)
  | FTimeout z => (set (ca_Mode a) (ca_To a) (ca_Amount a) (ca_Wallets a) z (ca_Retries a), port)
  | FRetries z => (set (ca_Mode a) (ca_To a) (ca_Amount a) (ca_Wallets a) (ca_Timeout a) z, port)
  end.

Definition ParseCmdArgs (flags : list cli_flag) : option (CommandArgs * Z) :=
  let '(a, port) := fold_left apply_flag flags (default_args, 0) in
  let mode := ToLower (Trim ["010"; "009"; " "]%char (ca_Mode a)) in
  match ModeMapper mode with
  | None => None
  | Some _ =>
      if ((0 <? port) && (port <? 49152)) || (64353 <? port) then None
      else Some ({| ca_Mode := mode; ca_To := ca_To a; ca_From := ca_From a; ca_Amount := ca_Amount a;
                    ca_Wallets := ca_Wallets a; ca_Timeout := ca_Timeout a; ca_Retries := ca_Retries a |}, port)
  end.

(** What [main] makes of the arguments before it dials: the wallets and the
    amount, or [None] when it prints what is missing and returns. *)
Definition main_args (m : GenMode) (c : CommandArgs) : option (list string * Z) :=
  match m with
  | GEN_MODE_PAYMENT =>
      if bool_decide (ca_To c = "") then None
      else match dec_Parse (ca_Amount c) with
           | None => None
           | Some amount => Some (Split (ca_To c) ",", amount)
           end
  | GEN_MODE_CHECK => if bool_decide (ca_Wallets c = "") then None else Some (Split (ca_Wallets c) ",", 0)
  | GEN_MODE_WATCHDOG => if (ca_Timeout c <=? 0) || (ca_Retries c <=? 0) then None else Some ([], 0)
  | _ => Some ([], 0)
  end.

(** ** Commands *)

Inductive CommandStatus := CS_OK | CS_ER.

Inductive Command :=
| PaymentCommand | WalletCommand | CountCommand | WatchDogCommand (timeout retries : Z).

Definition Create (m : GenMode) : option Command :=
  match m with
  | GEN_MODE_PAYMENT => Some PaymentCommand
  | GEN_MODE_WALLET => Some WalletCommand
  | GEN_MODE_COUNT => Some CountCommand
  | GEN_MODE_WATCHDOG => Some (WatchDogCommand 0 0)
  | _ => None
  end.

Definition SECOND : Z := 1000000000.

(** [Init]; the one of payments, which main does not call, is left out. *)
Definition Command_Init (c : Command) (args : CommandArgs) : Command :=
  match c with
  | WatchDogCommand _ _ => WatchDogCommand (to_int64 (SECOND * ca_Timeout args)) (to_int32 (ca_Retries args))
  | c => c
  end.

(** The watchdog of the client: the call to the service, and the status. *)
Definition watchdog_status (r : option PEER_STATUS) : CommandStatus :=
  match r with Some RUNNING => CS_OK | Some KILLED => CS_ER | None => CS_ER end.

(** The goroutine of main for a command against the service of the node. *)
Definition watchdog_command (fuel : nat) (args : CommandArgs) (joined : nat -> bool) : option (outcome CommandStatus) :=
  match Create GEN_MODE_WATCHDOG with
  | Some c =>
      match Command_Init c args with
      | WatchDogCommand timeout retries =>
          match WatchDog fuel timeout retries joined with
          | None => None
          | Some Panic => Some Panic
          | Some (Return r) => Some (Return (watchdog_status (Some r)))
          end
      | _ => Some Panic
      end
  | None => Some Panic
  end.

(** The command that main runs for a process command: a missing one is a nil
    interface. *)
Definition main_command (m : GenMode) (args : CommandArgs) : outcome Command :=
  match Create m with Some c => Return (Command_Init c args) | None => Panic end.

(** ** Generated payments *)

Record GenConfiguration := {
  gc_Txmax : Z; gc_Duration : Z; gc_Width : Z; gc_Network : Z; gc_Trader : bool
}.

(** How a payment ends: the process exits when the node does not take it. *)
Inductive pay_end := PayOk | PayError | PayExit.

(** What the select of the loop takes, or the end of the timer of the duration. *)
Inductive gen_event := Stop (v : bool) | Tick | Up.

(** The loop still runs, has ended and goes on to the check of the balances, or
    the process has exited. *)
Inductive gen_end := GenRuns | GenEnds | GenExits (code : Z).

Record gen_state (St : Type) := {
  gn_txCounter : Z; gn_count : Z; gn_skips : Z; gn_state : St
}.
Arguments gn_txCounter {St}. Arguments gn_count {St}. Arguments gn_skips {St}. Arguments gn_state {St}.

Section Generate.
Context {St : Type}.
(** The payment of the mode: [runTx], [Trade0] or [Trade1]. *)
Variable pay : St -> outcome (St * pay_end).
Variable mode : GenMode.
Variable cfg : GenConfiguration.

Definition infinite : bool :=
  (gc_Txmax cfg <=? 0) || ((0 <? gc_Duration cfg) && bool_decide (mode = GEN_MODE_TRADER)).

Definition gen_start (s : St) : gen_state St :=
  {| gn_txCounter := 0; gn_count := if bool_decide (mode = GEN_MODE_GENESIS) then gc_Width cfg else gc_Txmax cfg;
     gn_skips := 0; gn_state := s |}.

(** A tick; every thousandth waits instead. *)
Definition gen_tick (g : gen_state St) : outcome (gen_state St * gen_end) :=
  let c := to_uint64 (gn_txCounter g + 1) in
  if c mod 1000 =? 0 then
    Return ({| gn_txCounter := c; gn_count := gn_count g; gn_skips := gn_skips g + 1; gn_state := gn_state g |}, GenRuns)
  else
    let! r := pay (gn_state g) in
    let after count := {| gn_txCounter := c; gn_count := count; gn_skips := gn_skips g; gn_state := fst r |} in
    match snd r with
    | PayExit => Return (after (gn_count g), GenExits 1)
    | PayError => Return (after (gn_count g), GenEnds)
    | PayOk =>
        if infinite then Return (after (gn_count g), GenRuns)
        else let count := to_uint64 (gn_count g - 1) in
             Return (after count, if count =? 0 then GenExits 0 else GenRuns)
    end.

Definition gen_step (g : gen_state St) (e : gen_event) : outcome (gen_state St * gen_end) :=
  match e with
  | Stop v => Return (g, if v then GenEnds else GenRuns)
  | Up => Return (g, if infinite && bool_decide (mode = GEN_MODE_TRADER) then GenExits 0 else GenRuns)
  | Tick => gen_tick g
  end.

Fixpoint gen_loop (events : list gen_event) (g : gen_state St) : outcome (gen_state St * gen_end) :=
  match events with
  | [] => Return (g, GenRuns)
  | e :: rest =>
      let! r := gen_step g e in
      match snd r with GenRuns => gen_loop rest (fst r) | _ => Return r end
  end.

Definition Generate (events : list gen_event) (s : St) : outcome (gen_state St * gen_end) :=
  gen_loop events (gen_start s).
End Generate.

(** ** The payments of the genesis mode *)

Section Trade0.
Context `{CryptoLib} `{ProtoLib} `{TimestampLib} `{EthLib} `{UuidLib} `{ProtoPinLib}.
Context `{MapRange} `{!CollSet uuid}.
(** [int(math.Log10(float64(u))) - 1]. *)
Variable log10_less_1 : Z -> Z.
(** [int64(math.Pow10(e))] when the power is not a number of 64 bits. *)
Variable machine : Z.

(** [int64(math.Pow10(e))]: a fraction is cut off. *)
Definition pow10_int (e : Z) : Z := if e <? 0 then 0 else if e <=? 18 then 10 ^ e else machine.

(** [Div] of [big.Int] is Euclidean. *)
Definition big_Div (a b : Z) : outcome Z :=
  if b =? 0 then Panic else Return (if 0 <? b then a / b else - (a / - b)).

(** About the leading digits of the balance, of which only 64 bits are used. *)
Definition trade_amount (lastKnownBalance : Z) : outcome Z :=
  big_Div (to_int64 lastKnownBalance) (pow10_int (log10_less_1 (to_uint64 lastKnownBalance))).

(** The client: the node behind the network and the wallets; a round has the
    network, the new wallet, the nonce and the time. *)
Record client := { c_peer : Peer; c_wallets : list Wallet }.
Record round_env := { re_net : rpc_network; re_new : Wallet; re_nonce : Z; re_now : Z }.

Definition Trade0 (chain : Z) (e : round_env) (c : client) : outcome (client * pay_end) :=
  match c_wallets c with
  | [] => Panic
  | wsb :: _ =>
      let! r := call_balance (re_net e) 0 (c_peer c) (walletAddress wsb) in
      match r with
      | (p, None) => Return ({| c_peer := p; c_wallets := c_wallets c |}, PayError)
      | (p, Some b) =>
          let ws := c_wallets c ++ [re_new e] in
          let! delta := trade_amount (SetBytes b) in
          let! t := Txv1_GeneratePayment (NewTxv1 chain) (GenPaymentTransaction wsb (re_new e) delta) chain (re_nonce e) (re_now e) in
          let! t := Txv1_Sign t (privateKey wsb) in
          let! v := Txv1_Verify t in
          match v with
          | (_, Some _) => Return ({| c_peer := p; c_wallets := ws |}, PayError)
          | (t, None) =>
              let '(p, ok) := call_publish (re_net e) 1 p t in
              Return ({| c_peer := p; c_wallets := ws |}, if ok then PayOk else PayExit)
          end
      end
  end.

(** [Trade1] of a client, with the exit of the process when the node refuses. *)
Definition Trade1_client (chain : Z) (e : round_env) (c : client) : outcome (client * pay_end) :=
  match c_wallets c with
  | [] => Panic
  | wsb :: _ =>
      let! r := Trade1 (re_net e) (c_peer c) chain wsb (re_new e) (re_nonce e) (re_now e) in
      Return ({| c_peer := fst r; c_wallets := c_wallets c |},
              match snd r with None => PayOk | Some PayPublishError => PayExit | Some _ => PayError end)
  end.

(** The payment of a tick for a trader; [env i] is what the [i]th payment meets. *)
Definition trader_pay (mode : GenMode) (chain : Z) (env : nat -> round_env) (st : client * nat)
  : outcome ((client * nat) * pay_end) :=
  let! r := (if bool_decide (mode = GEN_MODE_GENESIS) then Trade0 chain (env (snd st)) (fst st)
             else Trade1_client chain (env (snd st)) (fst st)) in
  Return ((fst r, S (snd st)), snd r).

(** [check_balance]: the balance, or [None] for the error. *)
Definition check_balance (net : rpc_network) (p : Peer) (wallet : string) : outcome (Peer * option Z) :=
  let! r := call_balance net 0 p wallet in
  Return (fst r, SetBytes <$> snd r).

(** [Check]: errors are printed and the next wallet is asked for. *)
Fixpoint Check_wallets (p : Peer) (wallets : list (string * rpc_network)) : outcome (Peer * list (option Z)) :=
  match wallets with
  | [] => Return (p, [])
  | (w, net) :: rest =>
      let! r := check_balance net p w in
      let! r' := Check_wallets (fst r) rest in
      Return (fst r', snd r :: snd r')
  end.
End Trade0.
