(* ===== verification/TxGenProps.v ===== *)
(** The command line client: the loop that generates payments makes as many as
    it was asked for and skips every thousandth tick ([Generate_counts]), a
    width of zero never ends ([zero_width_never_ends]), the amount of a payment
    of the genesis mode ([Trade0_publishes], [small_balance_panics]) and the
    watchdog command against the service ([watchdog_command_answers]). *)
From S2P Require Import Prelude GoLib Bytes StateMachine Tx TxRecords Storage Pool WalletCache Node Pin.
From S2P Require Import PinProps PinSync Confirmation Weights Dag DagProps DagSteps Search Diffusion DiffusionProps.
From S2P Require Import Services Keys Startup Trader TraderProps TxGen.

(** ** Modes and flags *)

Lemma ModeMapper_Type m : ModeMapper (GenMode_Type m) = Some m.
Proof. by destruct m. Qed.

Lemma ModeMapper_Some k m : ModeMapper k = Some m <-> k = GenMode_Type m.
Proof.
  split; [|intros ->; apply ModeMapper_Type]. intros E. apply List.find_some in E as [_ E].
  by apply String.eqb_eq in E.
Qed.

(** Main never calls a nil command: a mode that is run as a command has one. *)
Lemma process_command_exists m args : IsProcessCommand m = true -> exists c, main_command m args = Return c.
Proof. destruct m; try done; intros _; by eexists. Qed.

(** The flag for the sender sets the receivers: with both flags the payment goes
    to the wallets of the one that comes last, and the sender stays empty. *)
Theorem from_flag_sets_to to from amount :
  exists c, ParseCmdArgs [FMode "payment"; FTo to; FAmount amount; FFrom from] = Some (c, 0)
    /\ ca_To c = from /\ ca_From c = ""
    /\ main_args GEN_MODE_PAYMENT c =
         if bool_decide (from = "") then None else (fun z => (Split from ",", z)) <$> dec_Parse amount.
Proof.
  eexists. split; [reflexivity|]. split_and!; [done..|]. unfold main_args. cbn [ca_To ca_Amount].
  case_bool_decide; [done|]. by destruct (dec_Parse amount).
Qed.

(** ** The watchdog command *)

(** The watchdog command and the service together: with arguments that main
    accepts, retries of 31 bits and a timeout whose nanoseconds fit 63 bits, the
    command is answered after at most one more question than there are retries,
    and reports success exactly when one of them found the node joined. *)
Theorem watchdog_command_answers args joined :
  main_args GEN_MODE_WATCHDOG args <> None ->
  ca_Retries args < 2 ^ 31 -> ca_Retries args <= SECOND * ca_Timeout args < 2 ^ 63 ->
  watchdog_command (Z.to_nat (ca_Retries args) + 1) args joined
  = Some (Return (if existsb joined (seq 0 (Z.to_nat (ca_Retries args) + 2)) then CS_OK else CS_ER)).
Proof.
  intros Hm Hr Ht. unfold main_args in Hm.
  destruct (Z.leb_spec (ca_Timeout args) 0); [done|]. destruct (Z.leb_spec (ca_Retries args) 0); [done|].
  unfold watchdog_command. cbn [Create Command_Init]. unfold to_int64, to_int32.
  rewrite !swrap_small by (simpl; lia). rewrite WatchDog_answers by lia. by destruct (existsb _ _).
Qed.

(** Retries that do not fit 32 bits: main accepts 2^32 retries, the request has
    none, and the service divides by zero. *)
Example many_retries_panic :
  let args := {| ca_Mode := "watchdog"; ca_To := ""; ca_From := ""; ca_Amount := "0"; ca_Wallets := "";
                 ca_Timeout := 60; ca_Retries := 2 ^ 32 |} in
  main_args GEN_MODE_WATCHDOG args = Some ([], 0) /\ watchdog_command 5 args (fun _ => false) = Some Panic.
Proof. by vm_compute. Qed.

(** ** The loop of payments *)

Section Counts.
Context {St : Type}.
Variable pay : St -> outcome (St * pay_end).

(** [n] payments that all succeed. *)
Fixpoint pay_n (n : nat) (s : St) : outcome St :=
  match n with
  | O => Return s
  | S n => let! r := pay s in match snd r with PayOk => pay_n n (fst r) | _ => Panic end
  end.

(** The payments among the first ticks. *)
Definition paid (ticks : Z) : Z := ticks - ticks / 1000.

Lemma paid_next t : 0 <= t -> paid (t + 1) = paid t + (if (t + 1) mod 1000 =? 0 then 0 else 1).
Proof using Type.
  intros Ht. unfold paid. pose proof (Z.div_mod t 1000). pose proof (Z.mod_pos_bound t 1000).
  destruct (Z.eqb_spec ((t + 1) mod 1000) 0) as [E|E];
    pose proof (Z.div_mod (t + 1) 1000); pose proof (Z.mod_pos_bound (t + 1) 1000); lia.
Qed.

Lemma paid_mono a b : 0 <= a <= b -> paid a <= paid b.
Proof using Type.
  intros [Ha Hab]. unfold paid. assert (b / 1000 - a / 1000 <= b - a); [|lia].
  pose proof (Z.div_mod a 1000). pose proof (Z.mod_pos_bound a 1000).
  pose proof (Z.div_mod b 1000). pose proof (Z.mod_pos_bound b 1000). lia.
Qed.

Variable mode : GenMode.
Variable cfg : GenConfiguration.

(** From any tick on, with [m] payments left: as many ticks as there are pay, but
    for the thousandth ones, until the payments are made. The counter that holds
    [m] modulo 2^64 is zero only after [m] payments. *)
Lemma gen_loop_ticks k : forall g m s', infinite mode cfg = false ->
  0 <= gn_txCounter g -> gn_txCounter g + Z.of_nat k < 2 ^ 64 -> 0 < m <= 2 ^ 64 -> gn_count g = m mod 2 ^ 64 ->
  let made := Z.min m (paid (gn_txCounter g + Z.of_nat k) - paid (gn_txCounter g)) in
  pay_n (Z.to_nat made) (gn_state g) = Return s' ->
  exists g', gen_loop pay mode cfg (replicate k Tick) g = Return (g', if made =? m then GenExits 0 else GenRuns)
    /\ gn_state g' = s'.
Proof using Type.
  induction k as [|k IH]; intros g m s' Hinf H0 Hk Hm Hc; cbn zeta.
  { rewrite Z.add_0_r, Z.sub_diag, Z.min_r by lia. intros [= <-].
    destruct (Z.eqb_spec 0 m); [lia|]. by exists g. }
  set (c := gn_txCounter g) in *.
  assert (to_uint64 (c + 1) = c + 1) as Hu by (unfold to_uint64; apply wrap_small; simpl; lia).
  pose proof (paid_next c H0) as Hp. pose proof (paid_mono (c + 1) (c + Z.of_nat (S k)) ltac:(lia)) as Hmono.
  replace (c + Z.of_nat (S k)) with (c + 1 + Z.of_nat k) in * by lia.
  cbn [replicate gen_loop gen_step]. unfold gen_tick. fold c. rewrite Hu.
  destruct (Z.eqb_spec ((c + 1) mod 1000) 0) as [E|E].
  { intros Hpay. cbn [outcome_bind fst snd].
    rewrite (ltac:(lia) : paid c = paid (c + 1)) in *.
    eapply (IH {| gn_txCounter := c + 1 |} m s'); cbn [gn_txCounter gn_count gn_state]; try done; lia. }
  set (d := paid (c + 1 + Z.of_nat k) - paid c) in *.
  replace (Z.to_nat (Z.min m d)) with (S (Z.to_nat (Z.min (m - 1) (d - 1)))) by lia.
  cbn [pay_n]. destruct (pay (gn_state g)) as [[s1 e]|]; cbn [outcome_bind fst snd]; [|done].
  destruct e; try done. intros Hpay. rewrite Hinf.
  assert (to_uint64 (gn_count g - 1) = (m - 1) mod 2 ^ 64) as Hc1.
  { unfold to_uint64, wrap. rewrite Hc. by rewrite Zminus_mod_idemp_l. }
  rewrite Hc1. destruct (Z.eqb_spec ((m - 1) mod 2 ^ 64) 0) as [Ez|Ez].
  - assert (m = 1) as -> by (rewrite Z.mod_small in Ez by lia; lia).
    rewrite (ltac:(lia) : Z.min 1 d = 1), Z.eqb_refl. rewrite (ltac:(lia) : Z.min (1 - 1) (d - 1) = 0) in Hpay.
    injection Hpay as <-. by eexists.
  - assert (m <> 1) by (intros ->; by rewrite Z.mod_0_l in Ez).
    destruct (IH {| gn_txCounter := c + 1; gn_count := (m - 1) mod 2 ^ 64; gn_skips := gn_skips g; gn_state := s1 |} (m - 1) s')
      as (g' & Hg & Hs); cbn [gn_txCounter gn_count gn_state]; try done; [lia..| |].
    + by rewrite (ltac:(lia) : paid (c + 1 + Z.of_nat k) - paid (c + 1) = d - 1).
    + cbn [gn_txCounter] in Hg. rewrite (ltac:(lia) : paid (c + 1 + Z.of_nat k) - paid (c + 1) = d - 1) in Hg.
      exists g'. cbn [outcome_bind fst snd]. rewrite Hg. split; [|done]. do 2 f_equal.
      destruct (Z.eqb_spec (Z.min (m - 1) (d - 1)) (m - 1)), (Z.eqb_spec (Z.min m d) m); try done; lia.
Qed.
End Counts.

(** The number of payments. The loop with a limit and no duration makes as many
    payments as ticks have passed, but for every thousandth tick, until the
    limit is reached, and exits with the last one; so it exits by the tick
    after which the limit is paid, and not before. *)
Theorem Generate_counts {St} (pay : St -> outcome (St * pay_end)) cfg k s s' :
  0 < gc_Txmax cfg < 2 ^ 64 -> gc_Duration cfg = 0 -> Z.of_nat k < 2 ^ 64 ->
  pay_n pay (Z.to_nat (Z.min (gc_Txmax cfg) (paid (Z.of_nat k)))) s = Return s' ->
  exists g', Generate pay GEN_MODE_TRADER cfg (replicate k Tick) s
      = Return (g', if paid (Z.of_nat k) <? gc_Txmax cfg then GenRuns else GenExits 0)
    /\ gn_state g' = s'.
Proof.
  intros Hm Hd Hk Hpay.
  destruct (gen_loop_ticks pay GEN_MODE_TRADER cfg k (gen_start GEN_MODE_TRADER cfg s) (gc_Txmax cfg) s')
    as (g' & Hg & Hs); cbn [gen_start gn_txCounter gn_count gn_state]; try lia.
  - unfold infinite. rewrite Hd. destruct (Z.leb_spec (gc_Txmax cfg) 0); [lia|done].
  - by rewrite bool_decide_false, Z.mod_small by (done || lia).
  - unfold paid at 2. by rewrite Z.sub_0_r.
  - exists g'. split; [|done]. unfold Generate. rewrite Hg. cbn [gen_start gn_txCounter]. unfold paid at 2.
    rewrite Z.sub_0_r, Z.add_0_l. do 2 f_equal.
    destruct (Z.eqb_spec (Z.min (gc_Txmax cfg) (paid (Z.of_nat k))) (gc_Txmax cfg)),
      (Z.ltb_spec (paid (Z.of_nat k)) (gc_Txmax cfg)); try done; lia.
Qed.

(** A width of zero: the genesis mode counts down from the width, and the first
    payment takes the counter below zero, so however many ticks pass the loop
    goes on paying. *)
Theorem zero_width_never_ends {St} (pay : St -> outcome (St * pay_end)) cfg k s s' :
  gc_Width cfg = 0 -> 0 < gc_Txmax cfg -> Z.of_nat k < 2 ^ 64 ->
  pay_n pay (Z.to_nat (paid (Z.of_nat k))) s = Return s' ->
  exists g', Generate pay GEN_MODE_GENESIS cfg (replicate k Tick) s = Return (g', GenRuns) /\ gn_state g' = s'.
Proof.
  intros Hw Hm Hk Hpay.
  assert (0 <= paid (Z.of_nat k) <= Z.of_nat k) as Hp.
  { unfold paid. pose proof (Z.div_mod (Z.of_nat k) 1000). pose proof (Z.mod_pos_bound (Z.of_nat k) 1000). lia. }
  destruct (gen_loop_ticks pay GEN_MODE_GENESIS cfg k (gen_start GEN_MODE_GENESIS cfg s) (2 ^ 64) s')
    as (g' & Hg & Hs); cbn [gen_start gn_txCounter gn_count gn_state]; try lia.
  - unfold infinite. rewrite bool_decide_false by done. rewrite andb_false_r, orb_false_r. by apply Z.leb_gt.
  - by rewrite bool_decide_true, Z.mod_same.
  - unfold paid at 2. rewrite Z.sub_0_r, Z.add_0_l, Z.min_r by lia. done.
  - exists g'. split; [|done]. unfold Generate. rewrite Hg. cbn [gen_start gn_txCounter]. unfold paid at 2.
    rewrite Z.sub_0_r, Z.add_0_l, Z.min_r by lia. do 2 f_equal.
    destruct (Z.eqb_spec (paid (Z.of_nat k)) (2 ^ 64)); [lia|done].
Qed.

(** ** The amounts of the genesis mode *)

Section Amounts.
Context `{CryptoLib} `{ProtoLib} `{TimestampLib} `{EthLib} `{UuidLib} `{ProtoPinLib}.
Context `{MapRange} `{!CollSet uuid}.
Hypothesis hashes : forall t, is_Some (Txv1_Hash t).
Variable log10_less_1 : Z -> Z.
Variable machine : Z.

(** The logarithm is right up to one: [e] is the exponent less one, or off by one. *)
Definition about_log10 (u e : Z) : Prop := 0 <= e <= 18 /\ 10 ^ e <= u < 10 ^ (e + 3).

Lemma trade_amount_digits u : 0 < u < 2 ^ 63 -> about_log10 u (log10_less_1 u) ->
  exists delta, trade_amount log10_less_1 machine u = Return delta /\ 1 <= delta < 1000 /\ delta <= u.
Proof using Type.
  intros Hu [He [Hlo Hhi]]. unfold trade_amount, to_int64, to_uint64.
  rewrite swrap_small, wrap_small by (simpl; lia). set (e := log10_less_1 u) in *.
  unfold pow10_int. destruct (Z.ltb_spec e 0); [lia|]. destruct (Z.leb_spec e 18); [|lia].
  assert (0 < 10 ^ e) as Hpow by (apply Z.pow_pos_nonneg; lia).
  unfold big_Div. destruct (Z.eqb_spec (10 ^ e) 0); [lia|]. destruct (Z.ltb_spec 0 (10 ^ e)); [|lia].
  exists (u / 10 ^ e). split; [done|]. rewrite Z.pow_add_r in Hhi by lia. split; [split|].
  - apply Z.div_le_lower_bound; lia.
  - apply Z.div_lt_upper_bound; lia.
  - apply Z.div_le_upper_bound; nia.
Qed.

(** A payment of the genesis mode. When the node answers that the first wallet
    has a balance below 2^63 and the logarithm is right up to one, the payment
    of its leading digits, from 1 to 999 coins and not more than the balance, is
    signed and verifying behind the queue of the node, and the new wallet is
    kept. *)
Theorem Trade0_publishes p chain wsb rest new net_nonce now s r b :
  wallet_ok wsb -> AddressToBytes (walletAddress wsb) = Return s -> AddressToBytes (walletAddress new) = Return r ->
  rpc_GetBalances p [s] = Return (Some [b]) ->
  0 < SetBytes b < 2 ^ 63 -> about_log10 (SetBytes b) (log10_less_1 (SetBytes b)) ->
  exists t delta, payment_of wsb r delta t /\ 1 <= delta < 1000 /\ delta <= SetBytes b
  /\ Trade0 log10_less_1 machine chain {| re_net := idle; re_new := new; re_nonce := net_nonce; re_now := now |}
       {| c_peer := p; c_wallets := wsb :: rest |}
     = Return ({| c_peer := with_publishQueue p (publishQueue p ++ [ATxv1 t]); c_wallets := wsb :: rest ++ [new] |}, PayOk).
Proof using hashes.
  intros Hw Hs Hr Hb Hu He. destruct (trade_amount_digits _ Hu He) as (delta & Hd & Hrange & Hle).
  destruct (payment_generated hashes wsb (walletAddress new) r delta chain net_nonce now Hw Hr) as (t & Ht & Hsp & Hc & Hn).
  exists t, delta. split_and!; [done|lia..|]. unfold Trade0. cbn [c_wallets c_peer re_net re_new re_nonce re_now].
  rewrite (call_balance_idle _ _ _ _ Hs), Hb. cbn [outcome_bind]. rewrite Hd. cbn [outcome_bind].
  change (GenPaymentTransaction wsb new delta) with (GenPaymentEx wsb (walletAddress new) delta).
  destruct (Txv1_GeneratePayment _ _ _ _ _) as [t0|]; [|done]. cbn [outcome_bind] in Ht |- *. rewrite Ht. cbn [outcome_bind].
  rewrite (sp_verified _ _ _ _ Hsp). cbn [outcome_bind]. change (call_publish idle 1 p t) with (PublishTx p (Txv1_MarshalBinary t), true).
  unfold PublishTx. by rewrite (Txv1_Unmarshal_Marshal t) by by eapply payment_ok.
Qed.

(** ** A run of the trader *)

(** A client whose first wallet was made from a seed, and whose node answers. *)
Definition trader_env (env : nat -> round_env) : Prop :=
  forall i, re_net (env i) = idle /\ exists r, AddressToBytes (walletAddress (re_new (env i))) = Return r.

Lemma trader_pay_publishes chain env p ws wsb i :
  trader_env env -> wallet_ok wsb ->
  exists t r, payment_of wsb r 1 t
  /\ trader_pay log10_less_1 machine GEN_MODE_TRADER chain env ({| c_peer := p; c_wallets := wsb :: ws |}, i)
     = Return (({| c_peer := with_publishQueue p (publishQueue p ++ [ATxv1 t]); c_wallets := wsb :: ws |}, S i), PayOk).
Proof using hashes.
  intros Henv Hw. destruct (Henv i) as (Hnet & r & Hr).
  destruct (payment_generated hashes wsb _ r 1 chain (re_nonce (env i)) (re_now (env i)) Hw Hr) as (t & Ht & Hsp & Hc & Hn).
  exists t, r. split; [done|]. unfold trader_pay. rewrite bool_decide_false by done. cbn [fst snd].
  unfold Trade1_client, Trade1. cbn [c_wallets c_peer]. rewrite Hnet.
  change (GenPaymentTransaction wsb (re_new (env i)) 1) with (GenPaymentEx wsb (walletAddress (re_new (env i))) 1).
  destruct (Txv1_GeneratePayment _ _ _ _ _) as [t0|]; [|done]. cbn [outcome_bind] in Ht |- *. rewrite Ht. cbn [outcome_bind].
  rewrite (sp_verified _ _ _ _ Hsp). cbn [outcome_bind]. change (call_publish idle 0 p t) with (PublishTx p (Txv1_MarshalBinary t), true).
  unfold PublishTx. by rewrite (Txv1_Unmarshal_Marshal t) by by eapply payment_ok.
Qed.

Lemma trader_pays chain env ws wsb n : trader_env env -> wallet_ok wsb -> forall p i,
  exists txs, length txs = n /\ Forall (fun t => exists r, payment_of wsb r 1 t) txs
  /\ pay_n (trader_pay log10_less_1 machine GEN_MODE_TRADER chain env) n ({| c_peer := p; c_wallets := wsb :: ws |}, i)
     = Return ({| c_peer := with_publishQueue p (publishQueue p ++ map ATxv1 txs); c_wallets := wsb :: ws |}, (i + n)%nat).
Proof using hashes.
  intros Henv Hw. induction n as [|n IH]; intros p i.
  - exists []. split_and!; [done..|]. simpl. rewrite app_nil_r, Nat.add_0_r. by destruct p.
  - destruct (trader_pay_publishes chain env p ws wsb i Henv Hw) as (t & r & Ht & E).
    destruct (IH (with_publishQueue p (publishQueue p ++ [ATxv1 t])) (S i)) as (txs & Hl & HF & E').
    exists (t :: txs). split_and!; [simpl; by rewrite Hl|constructor; [by exists r|done]|].
    cbn [pay_n]. rewrite E. cbn [outcome_bind fst snd]. rewrite E'.
    rewrite <- Nat.add_succ_comm. do 3 f_equal. destruct p. unfold with_publishQueue. simpl. by rewrite <- app_assoc.
Qed.

(** A run of the trader. With a limit, no duration and a node that answers, the
    client leaves exactly the limit of payments behind the queue of the node,
    each of one coin, signed and verifying, and exits by itself; the balances
    are not checked, since the check comes after the loop. *)
Theorem trader_run chain env p ws wsb cfg k :
  trader_env env -> wallet_ok wsb -> 0 < gc_Txmax cfg < 2 ^ 64 -> gc_Duration cfg = 0 ->
  Z.of_nat k < 2 ^ 64 -> gc_Txmax cfg <= paid (Z.of_nat k) ->
  exists txs g', Generate (trader_pay log10_less_1 machine GEN_MODE_TRADER chain env) GEN_MODE_TRADER cfg (replicate k Tick)
      ({| c_peer := p; c_wallets := wsb :: ws |}, 0%nat) = Return (g', GenExits 0)
    /\ c_peer (fst (gn_state g')) = with_publishQueue p (publishQueue p ++ map ATxv1 txs)
    /\ Z.of_nat (length txs) = gc_Txmax cfg /\ Forall (fun t => exists r, payment_of wsb r 1 t) txs.
Proof using hashes.
  intros Henv Hw Hm Hd Hk Hpaid.
  destruct (trader_pays chain env ws wsb (Z.to_nat (gc_Txmax cfg)) Henv Hw p 0%nat) as (txs & Hl & HF & E).
  edestruct (Generate_counts (trader_pay log10_less_1 machine GEN_MODE_TRADER chain env) cfg k) as (g' & Hg & Hs);
    [done..|rewrite Z.min_l by lia; exact E|].
  destruct (Z.ltb_spec (paid (Z.of_nat k)) (gc_Txmax cfg)); [lia|].
  exists txs, g'. split_and!; [done|by rewrite Hs|lia|done].
Qed.

(** A balance of one digit: the logarithm less one is negative, the power is a
    fraction that becomes 0, and the client panics with a division by zero. *)
Theorem small_balance_panics p chain wsb rest e s b :
  re_net e = idle -> AddressToBytes (walletAddress wsb) = Return s ->
  rpc_GetBalances p [s] = Return (Some [b]) -> 0 < SetBytes b < 10 -> log10_less_1 (SetBytes b) = -1 ->
  Trade0 log10_less_1 machine chain e {| c_peer := p; c_wallets := wsb :: rest |} = Panic.
Proof using Type.
  intros Hn Hs Hb Hu He. unfold Trade0. cbn [c_wallets c_peer]. rewrite Hn, (call_balance_idle _ _ _ _ Hs), Hb.
  cbn [outcome_bind]. unfold trade_amount, to_uint64. rewrite wrap_small by (simpl; lia). rewrite He.
  unfold pow10_int, big_Div. done.
Qed.
End Amounts.

(** The balance of the genesis wallet, the whole offering, does not fit 64 bits:
    what is left of it reads as a negative number, and so does the amount. *)
Example offering_amount_negative : trade_amount (fun _ => 18) 0 INITIAL_OFFERING = Return (-5).
Proof. vm_compute. reflexivity. Qed.

Lemma Trade0_publishes_witness :
  exists t delta, payment_of (demo_wallet x01) (replicate 20 x05) delta t /\ 1 <= delta < 1000 /\ delta <= 10
  /\ Trade0 (fun _ => 0) 0 2
       {| re_net := idle; re_nonce := 7; re_now := 3;
          re_new := {| privateKey := []; publicKey := [];
                       walletAddress := "0x" ++ hex_EncodeToString (replicate 20 x05) |} |}
       {| c_peer := rich_peer; c_wallets := [demo_wallet x01] |}
     = Return ({| c_peer := with_publishQueue rich_peer (publishQueue rich_peer ++ [ATxv1 t]);
                  c_wallets := [demo_wallet x01; {| privateKey := []; publicKey := [];
                    walletAddress := "0x" ++ hex_EncodeToString (replicate 20 x05) |}] |}, PayOk).
Proof.
  destruct (wallet_address (demo_wallet x01) (demo_wallet_ok x01)) as [a Ha].
  apply (Trade0_publishes demo_hashes (fun _ => 0) 0 rich_peer 2 (demo_wallet x01) []
    {| privateKey := []; publicKey := []; walletAddress := "0x" ++ hex_EncodeToString (replicate 20 x05) |}
    7 3 a (replicate 20 x05) [x0a]).
  - apply demo_wallet_ok.
  - exact Ha.
  - reflexivity.
  - exact (rich_balance a Ha).
  - split; reflexivity.
  - by vm_compute.
Defined.

Lemma Generate_counts_witness :
  exists g, Generate (fun n : nat => Return (S n, PayOk)) GEN_MODE_TRADER
      {| gc_Txmax := 1200; gc_Duration := 0; gc_Width := 4; gc_Network := 2; gc_Trader := true |}
      (replicate 1201 Tick) 0%nat = Return (g, GenExits 0) /\ gn_state g = 1200%nat.
Proof.
  apply (Generate_counts (fun n : nat => Return (S n, PayOk))
    {| gc_Txmax := 1200; gc_Duration := 0; gc_Width := 4; gc_Network := 2; gc_Trader := true |} 1201 0%nat 1200%nat).
  - split; reflexivity.
  - reflexivity.
  - reflexivity.
  - vm_compute. reflexivity.
Defined.
