(* ===== verification/Handshake.v ===== *)
(** The handshake over a stream: [stream/handshake.go].

    An endpoint is the sequence of its sends and reads; each may fail, and the
    endpoint goes on with what it got.  [WriteString] and [Flush] are one send,
    since both errors end the call in the same way.  Two endpoints run against
    each other over two reliable streams of characters, in any order; a read
    waits until its delimiter has arrived. *)
From stdpp Require Import relations.
From Stdlib Require Import Ascii.
From S2P Require Import Prelude GoLib Keys.
Open Scope string_scope.

(** ** Texts *)

(** [strings.Contains]. *)
Definition Contains (s sub : string) : bool :=
  match String.index 0 sub s with Some _ => true | None => false end.

(** [strings.SplitAfter] with a separator of one character. *)
Fixpoint SplitAfter (s : string) (sep : ascii) : list string :=
  match s with
  | EmptyString => [""]
  | String c s =>
      if Ascii.eqb c sep then String c "" :: SplitAfter s sep
      else match SplitAfter s sep with
           | [] => [String c ""]
           | x :: l => String c x :: l
           end
  end.

(** [ReadString]: the text up to the delimiter and what is left; [None] while
    the delimiter has not arrived. *)
Fixpoint read_until (d : ascii) (s : string) : option (string * string) :=
  match s with
  | EmptyString => None
  | String c s =>
      if Ascii.eqb c d then Some (String c "", s)
      else match read_until d s with
           | Some (x, rest) => Some (String c x, rest)
           | None => None
           end
  end.

(** The character does not occur. *)
Fixpoint lacks (d : ascii) (s : string) : bool :=
  match s with EmptyString => true | String c s => negb (Ascii.eqb c d) && lacks d s end.

(** ** Endpoints *)

(** The result is the text, or [None] for an error. *)
Inductive endpoint :=
| Send (s : string) (k : bool -> endpoint)
| Recv (d : ascii) (k : option string -> endpoint)
| End (r : outcome (option string)).

Definition handshake_failed : endpoint := End (Return None).

(** The id in a response, as [HandshakeTo] takes it apart. *)
Definition parse_response (str : string) : outcome (option string) :=
  if Contains str "RESPONSE_PEER_ID:" then
    match SplitAfter str ":" !! 1%nat with
    | None => Panic
    | Some payload => match Split payload "<" !! 0%nat with
                      | None => Panic
                      | Some id => Return (Some id)
                      end
    end
  else Return None.

Definition HandshakeTo : endpoint :=
  Send "REQUEST_PEER_ID>" (fun ok => if negb ok then handshake_failed else
  Recv "<" (fun r => match r with
  | None => handshake_failed
  | Some str => Send "RESPONSE_PEER_ID:ACK>" (fun ok => if negb ok then handshake_failed else End (parse_response str))
  end)).

Definition HandshakeFrom (peerID : string) : endpoint :=
  Recv ">" (fun r => match r with
  | None => handshake_failed
  | Some str =>
      if String.eqb str "REQUEST_PEER_ID>" then
        Send ("RESPONSE_PEER_ID:" ++ peerID ++ "<") (fun ok => if negb ok then handshake_failed else
        Recv ">" (fun r => match r with None => handshake_failed | Some str => End (Return (Some str)) end))
      else End (Return (Some str))
  end).

(** ** One endpoint on a stream that may fail *)

(** What a stream gives to the next operation: whether a send works, and the
    text of a read or its error. *)
Record stream_answer := { sa_ok : bool; sa_text : option string }.

Fixpoint run_endpoint (answers : list stream_answer) (e : endpoint) : option (outcome (option string)) :=
  match e with
  | End r => Some r
  | Send _ k => match answers with [] => None | a :: rest => run_endpoint rest (k (sa_ok a)) end
  | Recv _ k => match answers with [] => None | a :: rest => run_endpoint rest (k (sa_text a)) end
  end.

(** ** Two endpoints *)

Record session := { s_to : endpoint; s_from : endpoint; to_from : string; from_to : string }.

(** A step of one endpoint with its inbox: the endpoint, the inbox, what it sent. *)
Definition endpoint_step (e : endpoint) (inbox : string) : option (endpoint * string * string) :=
  match e with
  | Send s k => Some (k true, inbox, s)
  | Recv d k => match read_until d inbox with
                | Some (str, rest) => Some (k (Some str), rest, "")
                | None => None
                end
  | End _ => None
  end.

Inductive session_step (c : session) : session -> Prop :=
| step_to e inbox sent : endpoint_step (s_to c) (from_to c) = Some (e, inbox, sent) ->
    session_step c {| s_to := e; s_from := s_from c; to_from := to_from c ++ sent; from_to := inbox |}
| step_from e inbox sent : endpoint_step (s_from c) (to_from c) = Some (e, inbox, sent) ->
    session_step c {| s_to := s_to c; s_from := e; to_from := inbox; from_to := from_to c ++ sent |}.

Definition opened (peerID : string) : session :=
  {| s_to := HandshakeTo; s_from := HandshakeFrom peerID; to_from := ""; from_to := "" |}.

(** ** Lemmas on texts *)

Lemma read_until_app d s rest : lacks d s = true ->
  read_until d (s ++ String d rest) = Some (s ++ String d "", rest).
Proof.
  induction s as [|c s IH]; simpl; [intros _; by rewrite Ascii.eqb_refl|].
  destruct (Ascii.eqb c d); simpl; [done|]. intros Hs. by rewrite IH.
Qed.

Lemma lacks_app d a b : lacks d (a ++ b) = lacks d a && lacks d b.
Proof. induction a as [|c a IH]; simpl; [done|]. by rewrite IH, andb_assoc. Qed.

Lemma SplitAfter_app sep s rest : lacks sep s = true ->
  SplitAfter (s ++ String sep rest) sep = (s ++ String sep "") :: SplitAfter rest sep.
Proof.
  induction s as [|c s IH]; simpl; [intros _; by rewrite Ascii.eqb_refl|].
  destruct (Ascii.eqb c sep); simpl; [done|]. intros Hs. by rewrite IH.
Qed.

Lemma SplitAfter_lacks sep s : lacks sep s = true -> SplitAfter s sep = [s].
Proof.
  induction s as [|c s IH]; simpl; [done|]. destruct (Ascii.eqb c sep); simpl; [done|]. intros Hs. by rewrite IH.
Qed.

Lemma SplitAfter_two sep s : lacks sep s = false -> exists a b l, SplitAfter s sep = a :: b :: l.
Proof.
  induction s as [|c s IH]; simpl; [done|]. destruct (Ascii.eqb c sep); simpl.
  - intros _. destruct s as [|c' s]; simpl; [by eexists _, _, _|].
    destruct (Ascii.eqb c' sep); [by eexists _, _, _|]. destruct (SplitAfter s sep); by eexists _, _, _.
  - intros Hs. destruct (IH Hs) as (a & b & l & ->). by eexists _, _, _.
Qed.

Lemma Split_head_lacks sep s : lacks sep s = true -> forall rest, Split (s ++ String sep rest) sep !! 0%nat = Some s.
Proof.
  induction s as [|c s IH]; simpl; [intros _ rest; by rewrite Ascii.eqb_refl|].
  destruct (Ascii.eqb c sep); simpl; [done|]. intros Hs rest. specialize (IH Hs rest).
  destruct (Split _ sep) as [|x l]; [done|]. by injection IH as ->.
Qed.

Lemma Split_nonempty s sep : exists x l, Split s sep = x :: l.
Proof.
  induction s as [|c s (x & l & E)]; simpl; [by eexists _, _|]. destruct (Ascii.eqb c sep); [by eexists _, _|].
  rewrite E. by eexists _, _.
Qed.

Lemma Split_lacks sep s : lacks sep s = true -> Split s sep = [s].
Proof.
  induction s as [|c s IH]; simpl; [done|]. destruct (Ascii.eqb c sep); simpl; [done|]. intros Hs. by rewrite IH.
Qed.

(** A text with the tag has a colon. *)
Lemma prefix_lacks d t : forall s, String.prefix t s = true -> lacks d t = false -> lacks d s = false.
Proof.
  induction t as [|c t IH]; intros [|c' s]; simpl; try done. destruct (ascii_dec c c') as [->|]; [|done].
  destruct (Ascii.eqb c' d); simpl; [done|]. apply IH.
Qed.

Lemma Contains_lacks d t : forall s, Contains s t = true -> lacks d t = false -> lacks d s = false.
Proof.
  unfold Contains. induction s as [|c s IH]; intros Hc Hd.
  - destruct t; [done|]. simpl in Hc. done.
  - cbn [String.index] in Hc. destruct (String.prefix t (String c s)) eqn:Ep; [by eapply prefix_lacks|].
    simpl. destruct (Ascii.eqb c d); [done|]. simpl. apply IH; [|done].
    by destruct (String.index 0 t s).
Qed.

Lemma Contains_prefix t rest : t <> "" -> Contains (t ++ rest) t = true.
Proof.
  intros Ht. unfold Contains. destruct t as [|c t]; [done|]. cbn [String.append String.index].
  assert (forall u v, String.prefix u (u ++ v) = true) as Hp.
  { induction u as [|a u IH]; intros v; simpl; [by destruct v|]. destruct (ascii_dec a a); [apply IH|done]. }
  specialize (Hp (String c t) rest). simpl in Hp |- *. by rewrite Hp.
Qed.

(** ** What an endpoint returns *)

Lemma parse_response_returns str : exists r, parse_response str = Return r
  /\ (is_Some r <-> Contains str "RESPONSE_PEER_ID:" = true).
Proof.
  unfold parse_response. destruct (Contains str _) eqn:E.
  - destruct (SplitAfter_two ":" str) as (a & b & l & ->); [by eapply Contains_lacks|]. simpl.
    destruct (Split_nonempty b "<") as (x & k & ->). simpl. by exists (Some x).
  - exists None. split; [done|]. split; [by intros [? ?]|done].
Qed.

(** A stream that may fail: the endpoint that opens it never panics, and returns
    an id exactly when both sends work and the answer has the tag; otherwise it
    returns an error. *)
Theorem HandshakeTo_result a1 a2 a3 rest :
  exists r, run_endpoint (a1 :: a2 :: a3 :: rest) HandshakeTo = Some (Return r)
    /\ (is_Some r <-> sa_ok a1 = true /\ sa_ok a3 = true
         /\ exists str, sa_text a2 = Some str /\ Contains str "RESPONSE_PEER_ID:" = true).
Proof.
  destruct a1 as [[] t1]; cbn; [|exists None; split; [done|split; [by intros [? ?]|by intros (? & _)]]].
  destruct a2 as [ok2 [str|]]; cbn; [|exists None; split; [done|split; [by intros [? ?]|by intros (_ & _ & ? & ? & _)]]].
  destruct a3 as [[] t3]; cbn; [|exists None; split; [by destruct rest|split; [by intros [? ?]|by intros (_ & ? & _)]]].
  destruct (parse_response_returns str) as (r & E & Hr). exists r. rewrite E. split; [by destruct rest|]. rewrite Hr.
  split; [intros; split_and!; [done..|by exists str]|]. by intros (_ & _ & s & [= <-] & Hs).
Qed.

(** ** Two endpoints agree *)

Lemma parse_response_id id : lacks ":" id = true -> lacks "<" id = true ->
  parse_response ("RESPONSE_PEER_ID:" ++ id ++ "<") = Return (Some id).
Proof.
  intros Hc Hl. unfold parse_response. rewrite Contains_prefix by done.
  change ("RESPONSE_PEER_ID:" ++ id ++ "<") with ("RESPONSE_PEER_ID" ++ String ":" (id ++ "<")).
  rewrite SplitAfter_app, SplitAfter_lacks by (try done; by rewrite lacks_app, Hc). simpl.
  by rewrite Split_head_lacks.
Qed.

(** An id with a colon is cut after it. *)
Lemma parse_response_cut a b : lacks ":" a = true -> lacks "<" a = true ->
  parse_response ("RESPONSE_PEER_ID:" ++ a ++ ":" ++ b ++ "<") = Return (Some (a ++ ":")).
Proof.
  intros Hc Hl. unfold parse_response. rewrite Contains_prefix by done.
  change ("RESPONSE_PEER_ID:" ++ a ++ ":" ++ b ++ "<") with ("RESPONSE_PEER_ID" ++ String ":" (a ++ String ":" (b ++ "<"))).
  rewrite SplitAfter_app, SplitAfter_app by done. cbn [lookup list_lookup].
  rewrite Split_lacks by (by rewrite lacks_app, Hl). done.
Qed.

Section Agree.
Variable peerID : string.
Hypothesis no_colon : lacks ":" peerID = true.
Hypothesis no_bracket : lacks "<" peerID = true.

(** The session after each step: at every moment one endpoint waits for the other. *)
Definition await_response : endpoint :=
  Recv "<" (fun r => match r with
  | None => handshake_failed
  | Some str => Send "RESPONSE_PEER_ID:ACK>" (fun ok => if negb ok then handshake_failed else End (parse_response str))
  end).
Definition await_ack : endpoint :=
  Recv ">" (fun r => match r with None => handshake_failed | Some str => End (Return (Some str)) end).
Definition peer_response : string := "RESPONSE_PEER_ID:" ++ peerID ++ "<".

Definition sessions : list session :=
  [ opened peerID;
    {| s_to := await_response; s_from := HandshakeFrom peerID; to_from := "REQUEST_PEER_ID>"; from_to := "" |};
    {| s_to := await_response; s_from := Send peer_response (fun ok => if negb ok then handshake_failed else await_ack);
       to_from := ""; from_to := "" |};
    {| s_to := await_response; s_from := await_ack; to_from := ""; from_to := peer_response |};
    {| s_to := Send "RESPONSE_PEER_ID:ACK>" (fun ok => if negb ok then handshake_failed else End (parse_response peer_response));
       s_from := await_ack; to_from := ""; from_to := "" |};
    {| s_to := End (Return (Some peerID)); s_from := await_ack; to_from := "RESPONSE_PEER_ID:ACK>"; from_to := "" |};
    {| s_to := End (Return (Some peerID)); s_from := End (Return (Some "RESPONSE_PEER_ID:ACK>"));
       to_from := ""; from_to := "" |} ].

Lemma read_response : read_until "<" peer_response = Some (peer_response, "").
Proof using no_bracket.
  unfold peer_response. change ("RESPONSE_PEER_ID:" ++ peerID ++ "<") with (("RESPONSE_PEER_ID:" ++ peerID) ++ String "<" "").
  by rewrite read_until_app by (by rewrite lacks_app).
Qed.

Ltac next_step := cbn; rewrite ?read_response; cbn.

(** Each session of the list but the last has exactly one step, to the next. *)
Lemma session_next n c : sessions !! n = Some c ->
  forall c', session_step c c' <-> sessions !! S n = Some c'.
Proof using no_colon no_bracket.
  intros Hc c'.
  assert (parse_response peer_response = Return (Some peerID)) as Hp by by apply parse_response_id.
  destruct n as [|[|[|[|[|[|[|n]]]]]]]; [..|done]; injection Hc as <-; split.
  all: try (inversion 1 as [e i s E|e i s E]; revert E; next_step; intros [= <- <- <-]; simpl; rewrite ?Hp; reflexivity).
  all: intros [= <-].
  - exact (step_to (opened peerID) await_response "" "REQUEST_PEER_ID>" eq_refl).
  - by apply (step_from (Build_session await_response (HandshakeFrom peerID) "REQUEST_PEER_ID>" "")
      (Send peer_response (fun ok => if negb ok then handshake_failed else await_ack)) "" "").
  - by apply (step_from (Build_session await_response (Send peer_response (fun ok => if negb ok then handshake_failed else await_ack)) "" "")
      await_ack "" peer_response).
  - apply (step_to (Build_session await_response await_ack "" peer_response)
      (Send "RESPONSE_PEER_ID:ACK>" (fun ok => if negb ok then handshake_failed else End (parse_response peer_response))) "" "").
    cbn. by rewrite read_response.
  - rewrite <- Hp. by apply (step_to (Build_session
      (Send "RESPONSE_PEER_ID:ACK>" (fun ok => if negb ok then handshake_failed else End (parse_response peer_response))) await_ack "" "")
      (End (parse_response peer_response)) "" "RESPONSE_PEER_ID:ACK>").
  - by apply (step_from (Build_session (End (Return (Some peerID))) await_ack "RESPONSE_PEER_ID:ACK>" "")
      (End (Return (Some "RESPONSE_PEER_ID:ACK>"))) "" "").
Qed.

Lemma session_reached n c : nsteps session_step n (opened peerID) c -> sessions !! n = Some c.
Proof using no_colon no_bracket.
  revert c. induction n as [|n IH]; intros c Hn; [by inversion_clear Hn|].
  apply nsteps_inv_r in Hn as (c0 & H0 & Hs). by apply (session_next n c0); [apply IH|].
Qed.

Lemma session_path n : forall c, sessions !! n = Some c -> nsteps session_step n (opened peerID) c.
Proof using no_colon no_bracket.
  induction n as [|n IH]; intros c Hc; [injection Hc as <-; constructor|].
  destruct (lookup_lt_is_Some_2 sessions n) as [c0 H0]; [apply lookup_lt_Some in Hc; lia|].
  eapply nsteps_r; [by apply IH|]. by apply (session_next n c0).
Qed.
End Agree.

(** The handshake. For an id without a colon and without the delimiter, two
    endpoints over reliable streams always finish after six steps, in whatever
    order they run: before that some endpoint can go on, and then the one that
    opened the stream has the id of the other, which has the acknowledgement. *)
Theorem handshake_agrees peerID n c :
  lacks ":" peerID = true -> lacks "<" peerID = true -> nsteps session_step n (opened peerID) c ->
  (n <= 6)%nat
  /\ ((n < 6)%nat -> exists c', session_step c c')
  /\ (n = 6%nat -> s_to c = End (Return (Some peerID)) /\ s_from c = End (Return (Some "RESPONSE_PEER_ID:ACK>"))).
Proof.
  intros Hc Hl Hn. pose proof (session_reached peerID Hc Hl n c Hn) as Hs.
  assert (n < 7)%nat as Hlt by (change 7%nat with (length (sessions peerID)); by eapply lookup_lt_Some).
  split_and!; [lia| |].
  - intros H6. destruct (lookup_lt_is_Some_2 (sessions peerID) (S n)) as [c' Hc']; [simpl; lia|].
    exists c'. by apply (session_next peerID Hc Hl n c Hs).
  - intros ->. by injection Hs as <-.
Qed.

Lemma handshake_agrees_witness :
  exists c, nsteps session_step 6 (opened "QmPeer") c
    /\ s_to c = End (Return (Some "QmPeer")) /\ s_from c = End (Return (Some "RESPONSE_PEER_ID:ACK>")).
Proof.
  assert (exists c, nsteps session_step 6 (opened "QmPeer") c) as [c Hc].
  { eexists. apply (session_path "QmPeer" eq_refl eq_refl 6). reflexivity. }
  exists c. split; [exact Hc|].
  exact (proj2 (proj2 (handshake_agrees "QmPeer" 6 c eq_refl eq_refl Hc)) eq_refl).
Defined.

(** An id with a colon, such as an address with a port, is cut there, and both
    endpoints report success. *)
Example handshake_cuts_colon :
  parse_response ("RESPONSE_PEER_ID:" ++ "10.0.0.1:4001" ++ "<") = Return (Some "10.0.0.1:").
Proof. exact (parse_response_cut "10.0.0.1" "4001" eq_refl eq_refl). Qed.

(** The endpoint that was asked takes any first text for a success. *)
Theorem HandshakeFrom_takes_anything peerID ok str rest :
  str <> "REQUEST_PEER_ID>" ->
  run_endpoint ({| sa_ok := ok; sa_text := Some str |} :: rest) (HandshakeFrom peerID) = Some (Return (Some str)).
Proof. intros Hs. cbn. rewrite (proj2 (String.eqb_neq _ _) Hs). by destruct rest. Qed.
