(* ===== verification/Topics.v ===== *)
(** Joining the topics of the network: [NewDagSyncSub], [DagSync] and the events
    of the topic ([dag/sync.go], [subEvHndlr] of [dag/syncmngr.go]), and
    [Diffusion] of [diffusion/diffusion.go].

    The library gives out handles: the topic, a relay, a handler of events and a
    subscription.  The model keeps which are held; whether a call works is an
    argument.  Waiting until the mesh knows the peer asks once a round. *)
From S2P Require Import Prelude GoLib.

(** Whether the calls of the library work, and in which round the mesh knows the
    peer. *)
Record topic_env := {
  te_Join : bool; te_Relay : bool; te_EventHandler : bool; te_Subscribe : bool; te_mesh : nat -> bool
}.

(** The handles that are held. *)
Record handles := { h_topic : bool; h_relay : bool; h_handler : bool; h_sub : bool }.

Definition no_handles : handles := {| h_topic := false; h_relay := false; h_handler := false; h_sub := false |}.

(** The rounds until the mesh knows the peer; [None] while it does not. *)
Fixpoint wait_mesh (mesh : nat -> bool) (fuel i : nat) : option nat :=
  match fuel with
  | O => None
  | S fuel => if mesh i then Some i else wait_mesh mesh fuel (S i)
  end.

(** [destroy]: the handler, the subscription and the topic. *)
Definition destroy (h : handles) : handles :=
  {| h_topic := false; h_relay := h_relay h; h_handler := false; h_sub := false |}.

(** The handles and whether there is a subscription to the synchronisation;
    [None] while the call waits for the mesh. *)
Definition NewDagSyncSub (fuel : nat) (e : topic_env) (bs : bool) : option (handles * bool) :=
  if negb (te_Join e) then Some (destroy no_handles, false)
  else
    let h := {| h_topic := true; h_relay := false; h_handler := false; h_sub := false |} in
    match (if bs then Some 0%nat else wait_mesh (te_mesh e) fuel 0) with
    | None => None
    | Some _ =>
        if negb (te_Relay e) then Some (destroy h, false)
        else
          let h := {| h_topic := true; h_relay := true; h_handler := false; h_sub := false |} in
          if negb (te_EventHandler e) then Some (destroy h, false)
          else
            let h := {| h_topic := true; h_relay := true; h_handler := true; h_sub := false |} in
            if negb (te_Subscribe e) then Some (destroy h, false)
            else Some ({| h_topic := true; h_relay := true; h_handler := true; h_sub := true |}, true)
    end.

(** The routines of the manager: the last one synchronises from snapshots or
    from pins. *)
Inductive sync_routine := SubEvHndlr | SyncPublish | SyncSubscribe | SyncSnapshotLoop | SyncPinLoop.

Definition DagSync (fuel : nat) (e : topic_env) (snapshot leader bs : bool) : option (handles * option (list sync_routine)) :=
  match NewDagSyncSub fuel e bs with
  | None => None
  | Some (h, false) => Some (h, None)
  | Some (h, true) =>
      match wait_mesh (te_mesh e) fuel 0 with
      | None => None
      | Some _ => Some (h, Some [SubEvHndlr; SyncPublish; SyncSubscribe;
                                 if snapshot && negb leader then SyncSnapshotLoop else SyncPinLoop])
      end
  end.

(** [Start] uses the manager without looking at it: a nil manager panics. *)
Definition start_sync (fuel : nat) (e : topic_env) (snapshot leader : bool) : option (outcome (handles * list sync_routine)) :=
  match DagSync fuel e snapshot leader false with
  | None => None
  | Some (_, None) => Some Panic
  | Some (h, Some rs) => Some (Return (h, rs))
  end.

(** [Diffusion]: a failed join ends the process, a failed subscription closes the
    topic; a relay or a handler that cannot be had is only logged. The routines
    are those for events, publishing and subscribing. *)
Inductive diffusion_result := DiffusionFatal | DiffusionNil | DiffusionRuns (events : bool).

Definition Diffusion (fuel : nat) (e : topic_env) : option (handles * diffusion_result) :=
  if negb (te_Join e) then Some (no_handles, DiffusionFatal)
  else if negb (te_Subscribe e) then Some (no_handles, DiffusionNil)
  else match wait_mesh (te_mesh e) fuel 0 with
       | None => None
       | Some _ => Some ({| h_topic := true; h_relay := te_Relay e; h_handler := te_EventHandler e; h_sub := true |},
                         DiffusionRuns (te_EventHandler e))
       end.

(** ** The events of the topic *)

Inductive topic_event := PeerJoin (p : string) | PeerLeave (p : string).

(** [syncTopicPeerCount], a signed counter of 64 bits, and [track_peers] with the
    times of the joins. *)
Record topic_peers := { syncTopicPeerCount : Z; track_peers : gmap string Z }.

Definition subEv_step (verbosity now : Z) (s : topic_peers) (ev : topic_event) : topic_peers :=
  match ev with
  | PeerJoin p =>
      {| syncTopicPeerCount := to_int64 (syncTopicPeerCount s + 1);
         track_peers := if 0 <? verbosity then <[p := now]> (track_peers s) else track_peers s |}
  | PeerLeave p =>
      {| syncTopicPeerCount := to_int64 (syncTopicPeerCount s - 1); track_peers := delete p (track_peers s) |}
  end.

(** The loop over the events and their times. *)
Definition subEvHndlr (verbosity : Z) (events : list (Z * topic_event)) : topic_peers :=
  fold_left (fun s e => subEv_step verbosity (fst e) s (snd e)) events {| syncTopicPeerCount := 0; track_peers := ∅ |}.

(** ** The mesh *)

Lemma wait_mesh_enough mesh k : mesh k = true -> forall fuel i, (i <= k)%nat -> (k < fuel + i)%nat ->
  exists j, wait_mesh mesh fuel i = Some j /\ mesh j = true /\ (j <= k)%nat.
Proof.
  intros Hk. induction fuel as [|fuel IH]; intros i Hi Hf; [lia|]. simpl. destruct (mesh i) eqn:E.
  - exists i. split_and!; [done..|lia].
  - destruct (decide (i = k)) as [->|]; [congruence|]. apply IH; lia.
Qed.

Lemma wait_mesh_never mesh : (forall i, mesh i = false) -> forall fuel i, wait_mesh mesh fuel i = None.
Proof. intros Hm. induction fuel as [|fuel IH]; intros i; [done|]. simpl. by rewrite Hm. Qed.

(** ** Failures *)

(** The handles of a failed start of the synchronisation. When the mesh comes to
    know the peer, the start succeeds with all four handles exactly when every
    call works, and starts the four routines; a failure closes the topic, the
    handler and the subscription, but a relay that was already had is kept, for
    no handle to it is left. *)
Theorem NewDagSyncSub_handles e bs k fuel :
  te_mesh e k = true -> (k < fuel)%nat ->
  exists h ok, NewDagSyncSub fuel e bs = Some (h, ok)
    /\ ok = te_Join e && te_Relay e && te_EventHandler e && te_Subscribe e
    /\ h = (if ok then {| h_topic := true; h_relay := true; h_handler := true; h_sub := true |}
            else {| h_topic := false; h_relay := te_Join e && te_Relay e; h_handler := false; h_sub := false |}).
Proof.
  intros Hk Hf. unfold NewDagSyncSub. destruct (wait_mesh_enough _ _ Hk fuel 0) as (j & -> & _); [lia..|].
  destruct e as [jo re ev su me], bs; cbn; destruct jo, re, ev, su; cbn; by eexists _, _.
Qed.

(** The start of the peer panics exactly when one of the calls of the library
    fails: the manager is nil then and is used all the same. *)
Theorem start_sync_panics_iff e snapshot leader k fuel :
  te_mesh e k = true -> (k < fuel)%nat ->
  if te_Join e && te_Relay e && te_EventHandler e && te_Subscribe e
  then exists h, start_sync fuel e snapshot leader
       = Some (Return (h, [SubEvHndlr; SyncPublish; SyncSubscribe;
                           if snapshot && negb leader then SyncSnapshotLoop else SyncPinLoop]))
  else start_sync fuel e snapshot leader = Some Panic.
Proof.
  intros Hk Hf. destruct (NewDagSyncSub_handles e false k fuel Hk Hf) as (h & ok & E & Hok & _).
  unfold start_sync, DagSync. rewrite E, <- Hok. destruct ok; [|done].
  destruct (wait_mesh_enough _ _ Hk fuel 0) as (j & -> & _); [lia..|]. by eexists.
Qed.

(** A peer that the mesh never comes to know waits forever. *)
Theorem unknown_peer_waits e snapshot leader fuel :
  (forall i, te_mesh e i = false) -> te_Join e = true -> te_Subscribe e = true ->
  start_sync fuel e snapshot leader = None /\ Diffusion fuel e = None.
Proof.
  intros Hm Hj Hs. unfold start_sync, DagSync, NewDagSyncSub, Diffusion. rewrite Hj, Hs. simpl.
  by rewrite !(wait_mesh_never _ Hm).
Qed.

(** ** The peers of the topic *)

(** The peers that have joined and not left. *)
Definition present_step (s : gset string) (ev : topic_event) : gset string :=
  match ev with PeerJoin p => s ∪ {[p]} | PeerLeave p => s ∖ {[p]} end.

Definition present (events : list topic_event) : gset string := fold_left present_step events ∅.

(** The library fires the joins and leaves of a peer in order: a peer joins when
    it is absent and leaves when it is present. *)
Fixpoint in_order (s : gset string) (events : list topic_event) : bool :=
  match events with
  | [] => true
  | PeerJoin p :: rest => bool_decide (p ∉ s) && in_order (s ∪ {[p]}) rest
  | PeerLeave p :: rest => bool_decide (p ∈ s) && in_order (s ∖ {[p]}) rest
  end.

Definition counts (verbosity : Z) (s : topic_peers) (ps : gset string) : Prop :=
  syncTopicPeerCount s = Z.of_nat (size ps) /\ dom (track_peers s) = (if 0 <? verbosity then ps else ∅).

Lemma subEv_counts verbosity events : forall s ps,
  in_order ps (map snd events) = true -> Z.of_nat (size ps) + Z.of_nat (length events) < 2 ^ 63 ->
  counts verbosity s ps ->
  counts verbosity (fold_left (fun s e => subEv_step verbosity (fst e) s (snd e)) events s)
    (fold_left present_step (map snd events) ps).
Proof.
  induction events as [|[now ev] events IH]; intros s ps Ho Hsz [Hc Hd]; [done|]. cbn [map snd fst fold_left length in_order present_step subEv_step] in *.
  destruct ev as [p|p]; apply andb_true_iff in Ho as [Hp Ho]; apply bool_decide_eq_true in Hp.
  - assert (size (ps ∪ {[p]}) = S (size ps)) as Hs1 by (rewrite size_union by set_solver; rewrite size_singleton; lia).
    apply IH; unfold present_step; [done|lia|]. split; simpl.
    + rewrite Hc, Hs1. unfold to_int64. rewrite swrap_small by (simpl; lia). lia.
    + destruct (0 <? verbosity); [rewrite dom_insert_L, Hd; set_solver|done].
  - assert (S (size (ps ∖ {[p]})) = size ps) as Hs1.
    { rewrite size_difference by set_solver. rewrite size_singleton.
      assert (size ps <> 0%nat); [|lia]. intros H0. apply size_empty_inv in H0. set_solver. }
    apply IH; unfold present_step; [done|lia|]. split; simpl.
    + rewrite Hc. unfold to_int64. rewrite swrap_small by (simpl; lia). lia.
    + rewrite dom_delete_L, Hd. destruct (0 <? verbosity); set_solver.
Qed.

(** The counter of the topic is the number of the peers that have joined and not
    left, and the table of times, which a verbose peer keeps, has exactly these
    peers. *)
Theorem topic_counter_exact verbosity events :
  in_order ∅ (map snd events) = true -> Z.of_nat (length events) < 2 ^ 63 ->
  syncTopicPeerCount (subEvHndlr verbosity events) = Z.of_nat (size (present (map snd events)))
  /\ dom (track_peers (subEvHndlr verbosity events)) = (if 0 <? verbosity then present (map snd events) else ∅).
Proof.
  intros Ho Hl. apply subEv_counts; [done|by rewrite size_empty|]. split; [by rewrite size_empty|].
  simpl. rewrite dom_empty_L. by case_match.
Qed.

Lemma topic_counter_exact_witness :
  syncTopicPeerCount (subEvHndlr 1 [(3, PeerJoin "a"); (5, PeerJoin "b"); (9, PeerLeave "a")]) = 1.
Proof.
  refine (eq_trans (proj1 (topic_counter_exact 1 [(3, PeerJoin "a"); (5, PeerJoin "b"); (9, PeerLeave "a")] _ _)) _);
    by vm_compute.
Defined.
