(* ===== verification/Teardown.v ===== *)
(** The end of a process: [Terminate] of [app/app.go] and of [peer/peer.go], with
    the goroutines that they stop: the services of the hash table
    ([discovery/dht.go], [ping.go], [routing.go], [discovery.go]), the monitor of
    the event bus ([peer/event.go]) and the discovery on the local network
    ([discovery/mdns.go]).

    The goroutines take turns in any order; a step is one operation on a channel,
    a flag or a wait group.  A ticker or an event of the host may come at any
    time. *)
From stdpp Require Import relations.
From S2P Require Import Prelude GoLib.

(** ** The components of the process: [App] *)

(** The channel of the discovery on the local network, open or closed. *)
Inductive mdns_chan := MdnsOpen | MdnsClosed.

Record App := {
  App_globalStop : bool; App_topic : bool; App_sub : bool; App_mdnsDiscovery : option mdns_chan;
  App_grpcPublishDone : bool; App_dbmngr : bool; App_dagsyncmgr : bool; App_kdht : bool; App_TopicRelayCsl : bool
}.

(** [InitMDNS]: when the service does not start, the channel is closed and
    returned with the error. *)
Definition InitMDNS (starts : bool) : mdns_chan * bool := (if starts then MdnsOpen else MdnsClosed, starts).

(** The start of the discovery: the channel is kept in both cases; the routine
    that reads it runs only without an error. *)
Definition start_mdns (wanted starts : bool) : option mdns_chan * bool :=
  if wanted then let '(ch, ok) := InitMDNS starts in (Some ch, ok) else (None, false).

(** What [Terminate] does, in order; [StopSync] and [StopDht] are waits of their
    own. *)
Inductive stop_action :=
| SetGlobalStop | EndPortMappings | StopGrpc | CloseGrpc | CloseMdns | CancelSub | CancelRelay | CloseTopic
| StopSync | DisconnectDb | StopDht.

Definition when (b : bool) (l : list stop_action) : list stop_action := if b then l else [].

(** [grpc]: the service is configured. *)
Definition App_Terminate (grpc : bool) (a : App) : outcome (list stop_action) :=
  let before := [SetGlobalStop; EndPortMappings] ++ when (grpc && App_grpcPublishDone a) [StopGrpc; CloseGrpc] in
  let after := when (App_sub a) [CancelSub] ++ when (App_TopicRelayCsl a) [CancelRelay] ++ when (App_topic a) [CloseTopic]
    ++ when (App_dagsyncmgr a) [StopSync] ++ when (App_dbmngr a) [DisconnectDb] ++ when (App_kdht a) [StopDht] in
  match App_mdnsDiscovery a with
  | None => Return (before ++ after)
  | Some MdnsOpen => Return (before ++ [CloseMdns] ++ after)
  | Some MdnsClosed => Panic
  end.

Lemma elem_of_when x b l : x ∈ when b l <-> b = true /\ x ∈ l.
Proof. unfold when. destruct b; [tauto|]. rewrite elem_of_nil. split; [done|by intros [? _]]. Qed.

(** The process cannot stop cleanly after the discovery on the local network
    failed to start: the channel was closed then, and closing it again panics
    before the subscription, the synchronisation and the services of the hash
    table are stopped. Otherwise everything that runs is stopped. *)
Theorem Terminate_panics_iff grpc a wanted starts ran :
  start_mdns wanted starts = (App_mdnsDiscovery a, ran) ->
  (App_Terminate grpc a = Panic <-> wanted = true /\ starts = false)
  /\ forall l, App_Terminate grpc a = Return l ->
       (StopSync ∈ l <-> App_dagsyncmgr a = true) /\ (StopDht ∈ l <-> App_kdht a = true)
       /\ (CancelSub ∈ l <-> App_sub a = true) /\ (CloseTopic ∈ l <-> App_topic a = true).
Proof.
  destruct a as [gs tp sb md gr db sy kd rl]. cbn [App_mdnsDiscovery]. intros Hm. split.
  - destruct wanted, starts; injection Hm as <- _; cbn; split; try done; by intros [? ?].
  - intros l Hl. assert (forall x, x <> CloseMdns -> x ∈ l <->
      x ∈ [SetGlobalStop; EndPortMappings] \/ (grpc && gr = true /\ x ∈ [StopGrpc; CloseGrpc])
      \/ (sb = true /\ x = CancelSub) \/ (rl = true /\ x = CancelRelay) \/ (tp = true /\ x = CloseTopic)
      \/ (sy = true /\ x = StopSync) \/ (db = true /\ x = DisconnectDb) \/ (kd = true /\ x = StopDht)) as Hx.
    { intros x Hx. unfold App_Terminate in Hl. cbv zeta in Hl.
      cbn [App_mdnsDiscovery App_grpcPublishDone App_sub App_TopicRelayCsl App_topic App_dagsyncmgr App_dbmngr App_kdht] in Hl.
      destruct md as [[]|]; simplify_eq; repeat setoid_rewrite elem_of_cons; rewrite ?elem_of_app, ?elem_of_when, ?elem_of_cons, ?elem_of_app, ?elem_of_when, ?elem_of_cons, ?elem_of_nil; tauto. }
    split_and!; rewrite Hx by done; rewrite !elem_of_cons, elem_of_nil; intuition congruence.
Qed.

(** ** The services of the hash table *)

(** The buffered channel [done] with its tokens, whether it is closed, and the
    two routines that each end with one token or with the close; the routine
    that refreshes the table ends with a token of an unbuffered channel. *)
Inductive dht_pc := SendFirst | SendSecond | CloseDone | WaitBoth | SendRefresh | WaitRefresh | CloseRefresh | DhtStopped.

Record dht_services := {
  d_tokens : nat; d_closed : bool; d_ping : bool; d_discovery : bool; d_refresh : bool; d_pc : dht_pc
}.

Definition DONE_CAPACITY : nat := 2.

Definition dht_at (s : dht_services) (pc : dht_pc) : dht_services :=
  {| d_tokens := d_tokens s; d_closed := d_closed s; d_ping := d_ping s; d_discovery := d_discovery s;
     d_refresh := d_refresh s; d_pc := pc |}.

(** A send into the buffer; [None] when it is full. *)
Definition send_done (s : dht_services) (pc : dht_pc) : option dht_services :=
  if (d_tokens s <? DONE_CAPACITY)%nat then
    Some {| d_tokens := S (d_tokens s); d_closed := d_closed s; d_ping := d_ping s; d_discovery := d_discovery s;
            d_refresh := d_refresh s; d_pc := pc |}
  else None.

(** A receive from [done]: the tokens that are left. *)
Definition recv_done (s : dht_services) : option nat :=
  match d_tokens s with S n => Some n | O => if d_closed s then Some 0%nat else None end.

(** A step of [Terminate]; [None] while it waits. *)
Definition terminate_step (s : dht_services) : option dht_services :=
  match d_pc s with
  | SendFirst => send_done s SendSecond
  | SendSecond => send_done s CloseDone
  | CloseDone => Some {| d_tokens := d_tokens s; d_closed := true; d_ping := d_ping s; d_discovery := d_discovery s;
                         d_refresh := d_refresh s; d_pc := WaitBoth |}
  | WaitBoth => if d_ping s || d_discovery s then None else Some (dht_at s SendRefresh)
  | SendRefresh => (* rendezvous with the routine, which ends *)
      if d_refresh s then Some {| d_tokens := d_tokens s; d_closed := d_closed s; d_ping := d_ping s;
                                  d_discovery := d_discovery s; d_refresh := false; d_pc := WaitRefresh |}
      else None
  | WaitRefresh => if d_refresh s then None else Some (dht_at s CloseRefresh)
  | CloseRefresh => Some (dht_at s DhtStopped)
  | DhtStopped => None
  end.

Definition ping_step (s : dht_services) : option dht_services :=
  if d_ping s then
    match recv_done s with
    | Some n => Some {| d_tokens := n; d_closed := d_closed s; d_ping := false; d_discovery := d_discovery s;
                        d_refresh := d_refresh s; d_pc := d_pc s |}
    | None => None
    end
  else None.

Definition discovery_step (s : dht_services) : option dht_services :=
  if d_discovery s then
    match recv_done s with
    | Some n => Some {| d_tokens := n; d_closed := d_closed s; d_ping := d_ping s; d_discovery := false;
                        d_refresh := d_refresh s; d_pc := d_pc s |}
    | None => None
    end
  else None.

(** Ticks of the routines leave the state as it is. *)
Inductive dht_step (s : dht_services) : dht_services -> Prop :=
| dht_terminate s' : terminate_step s = Some s' -> dht_step s s'
| dht_ping s' : ping_step s = Some s' -> dht_step s s'
| dht_discovery s' : discovery_step s = Some s' -> dht_step s s'.

Definition dht_running : dht_services :=
  {| d_tokens := 0; d_closed := false; d_ping := true; d_discovery := true; d_refresh := true; d_pc := SendFirst |}.

Definition alive (b : bool) : nat := if b then 1%nat else 0%nat.

(** The tokens are those sent and not taken. *)
Definition dht_inv (s : dht_services) : Prop :=
  match d_pc s with
  | SendFirst => d_tokens s = 0%nat /\ d_ping s = true /\ d_discovery s = true /\ d_closed s = false
  | SendSecond => (d_tokens s + 2 = 1 + alive (d_ping s) + alive (d_discovery s))%nat /\ d_closed s = false
  | CloseDone => d_tokens s = (alive (d_ping s) + alive (d_discovery s))%nat /\ d_closed s = false
  | _ => d_tokens s = (alive (d_ping s) + alive (d_discovery s))%nat /\ d_closed s = true
  end
  /\ match d_pc s with
     | SendFirst | SendSecond | CloseDone | WaitBoth => d_refresh s = true
     | SendRefresh => d_refresh s = true /\ d_ping s = false /\ d_discovery s = false
     | _ => d_refresh s = false /\ d_ping s = false /\ d_discovery s = false
     end.

Definition pc_left (pc : dht_pc) : nat :=
  match pc with SendFirst => 7 | SendSecond => 6 | CloseDone => 5 | WaitBoth => 4 | SendRefresh => 3 | WaitRefresh => 2
  | CloseRefresh => 1 | DhtStopped => 0 end.

Definition dht_left (s : dht_services) : nat := (pc_left (d_pc s) + alive (d_ping s) + alive (d_discovery s))%nat.

Lemma recv_done_inv s n : recv_done s = Some n -> d_tokens s = S n \/ (d_tokens s = 0%nat /\ n = 0%nat /\ d_closed s = true).
Proof. unfold recv_done. destruct (d_tokens s), (d_closed s); intros [= <-]; auto. Qed.

Lemma dht_step_inv s s' : dht_inv s -> dht_step s s' -> dht_inv s' /\ (dht_left s' < dht_left s)%nat.
Proof.
  destruct s as [tk cl pg ds rf pc]. unfold dht_inv, dht_left. cbn. intros [Hi Hr] Hs. inversion_clear Hs as [? E|? E|? E].
  - revert E. unfold terminate_step, send_done. cbn.
    destruct pc, pg, ds, rf; cbn in *; try (case_match; [|done]); intros [= <-]; cbn; intuition lia.
  - revert E. unfold ping_step. cbn. destruct pg; [|done]. destruct (recv_done _) as [n|] eqn:E; [|done].
    apply recv_done_inv in E. cbn in E. intros [= <-]. destruct E as [->|(-> & -> & ->)], pc, ds; cbn in *; intuition (try lia; try done).
  - revert E. unfold discovery_step. cbn. destruct ds; [|done]. destruct (recv_done _) as [n|] eqn:E; [|done].
    apply recv_done_inv in E. cbn in E. intros [= <-]. destruct E as [->|(-> & -> & ->)], pc, pg; cbn in *; intuition (try lia; try done).
Qed.

Lemma dht_progress s : dht_inv s -> d_pc s <> DhtStopped -> exists s', dht_step s s'.
Proof.
  destruct s as [tk cl pg ds rf pc]. unfold dht_inv. cbn. intros [Hi Hr] Hpc.
  destruct (terminate_step {| d_tokens := tk; d_closed := cl; d_ping := pg; d_discovery := ds; d_refresh := rf; d_pc := pc |})
    as [s'|] eqn:E; [exists s'; by apply dht_terminate|]. revert E. unfold terminate_step, send_done, DONE_CAPACITY.
  destruct pc; try done; cbn -[Nat.ltb] in *.
  - destruct Hi as (-> & _). done.
  - destruct (Nat.ltb_spec tk 2); [done|]. destruct pg, ds; cbn in *; lia.
  - destruct Hi as [-> ->]. destruct pg; [intros _; eexists; by apply dht_ping|].
    destruct ds; [intros _; eexists; by apply dht_discovery|done].
  - by destruct Hr as (-> & _).
  - by destruct Hr as (-> & _).
Qed.

(** The services of the hash table always stop. Whatever the routines do, the
    part of Terminate for the hash table makes at most nine steps and never
    waits for something that does not come: while it has not ended some routine
    can go on, and at the end all three routines have ended. *)
Theorem dht_stops n s :
  nsteps dht_step n dht_running s ->
  (n <= 9)%nat /\ (d_pc s <> DhtStopped -> exists s', dht_step s s')
  /\ (d_pc s = DhtStopped -> d_ping s = false /\ d_discovery s = false /\ d_refresh s = false).
Proof.
  intros Hn. assert (dht_inv s /\ (n + dht_left s <= 9)%nat) as [Hi Hl].
  { assert (forall m a b, nsteps dht_step m a b -> dht_inv a -> dht_inv b /\ (m + dht_left b <= dht_left a)%nat) as H.
    { clear. induction 1 as [a|m a b c Hab _ IH]; intros Ha; [split; [done|lia]|].
      destruct (dht_step_inv a b Ha Hab) as [Hb Hlt]. destruct (IH Hb). split; [done|lia]. }
    by apply (H n dht_running s Hn). }
  split_and!; [lia|by apply dht_progress|]. intros E. destruct Hi as [_ Hi]. rewrite E in Hi. tauto.
Qed.

(** ** The monitor of the event bus *)

(** The monitor tests the flag, waits for an event or for the channel, and clears
    its status when it ends; [Terminate] reads the status, sets the flag and
    sends on the channel, which has no buffer.  Nothing is added to the wait
    group, so the wait returns at once. *)
Inductive bus_pc := MonStart | MonTest | MonSelect | MonEnded.
Inductive stopper_pc := ReadStatus | StoreStop | SendStop | WaitGroup | CloseC | MonStopped.

Record evt_monitor := { m_stop : bool; m_status : bool; m_pc : bus_pc; m_stopper : stopper_pc }.

(** What moves: the monitor on its own, an event of the host, [Terminate], or the
    rendezvous on the channel. *)
Inductive monitor_move := MoveMonitor | MoveEvent | MoveStopper | MoveRendezvous.

#[export] Instance monitor_move_eq : EqDecision monitor_move.
Proof. solve_decision. Defined.

Definition monitor_step (s : evt_monitor) (m : monitor_move) : option evt_monitor :=
  let mon pc status := {| m_stop := m_stop s; m_status := status; m_pc := pc; m_stopper := m_stopper s |} in
  let stop pc flag := {| m_stop := flag; m_status := m_status s; m_pc := m_pc s; m_stopper := pc |} in
  match m, m_pc s, m_stopper s with
  | MoveMonitor, MonStart, _ => Some (mon MonTest true)
  | MoveMonitor, MonTest, _ => Some (if m_stop s then mon MonEnded false else mon MonSelect (m_status s))
  | MoveEvent, MonSelect, _ => Some (mon MonTest (m_status s))
  | MoveStopper, _, ReadStatus => Some (if m_status s then stop StoreStop (m_stop s) else stop MonStopped (m_stop s))
  | MoveStopper, _, StoreStop => Some (stop SendStop true)
  | MoveStopper, _, WaitGroup => Some (stop CloseC (m_stop s))
  | MoveStopper, _, CloseC => Some (stop MonStopped (m_stop s))
  | MoveRendezvous, MonSelect, SendStop =>
      Some {| m_stop := m_stop s; m_status := false; m_pc := MonEnded; m_stopper := WaitGroup |}
  | _, _, _ => None
  end.

Fixpoint monitor_run (moves : list monitor_move) (s : evt_monitor) : option evt_monitor :=
  match moves with
  | [] => Some s
  | m :: rest => match monitor_step s m with Some s => monitor_run rest s | None => None end
  end.

(** The monitor waits for events and [Terminate] is called. *)
Definition monitoring : evt_monitor :=
  {| m_stop := false; m_status := true; m_pc := MonSelect; m_stopper := ReadStatus |}.

(** The send waits and the monitor has ended. *)
Definition monitor_dead (s : evt_monitor) : Prop := m_stopper s = SendStop /\ m_pc s = MonEnded.

Lemma monitor_dead_stays moves : forall s s', monitor_dead s -> monitor_run moves s = Some s' -> s' = s.
Proof.
  induction moves as [|m moves IH]; intros [fl st mp sp] s' [Hs Hm]; simpl in *; [congruence|].
  subst. by destruct m.
Qed.

Definition monitor_inv (s : evt_monitor) : Prop :=
  match m_stopper s with
  | ReadStatus | StoreStop => m_stop s = false /\ (m_pc s = MonTest \/ m_pc s = MonSelect) /\ m_status s = true
  | SendStop => m_stop s = true
  | WaitGroup | CloseC | MonStopped => m_pc s = MonEnded
  end /\ m_pc s <> MonStart.

Lemma monitor_run_inv moves : forall s s', monitor_inv s -> monitor_run moves s = Some s' -> monitor_inv s'.
Proof.
  induction moves as [|m moves IH]; intros s s' Hi; simpl; [by intros [= <-]|].
  destruct (monitor_step s m) as [s1|] eqn:E; [|done]. apply IH. revert Hi E.
  destruct s as [fl st mp sp]; unfold monitor_inv; simpl. intros [Hi Hne].
  destruct m, mp, sp; simpl in *; intros E; simplify_eq; simpl; destruct_and?; subst; simpl; intuition (try done; try congruence).
  all: case_match; simpl in *; intuition congruence.
Qed.

(** Without an event the monitor does not come to the test of the flag. *)
Lemma monitor_no_event moves : forall s s', MoveEvent ∉ moves -> monitor_run moves s = Some s' ->
  m_pc s <> MonTest -> m_pc s <> MonStart -> m_pc s' <> MonTest.
Proof.
  induction moves as [|m moves IH]; intros s s' Hm; simpl; [by intros [= <-]|].
  apply not_elem_of_cons in Hm as [Hm Hms]. destruct (monitor_step s m) as [s1|] eqn:E; [|done].
  intros Hb H1 H2. eapply IH; [done|exact Hb|..]; revert E; destruct s as [fl st mp sp], m, mp, sp; simpl in *;
    intros; simplify_eq; simpl; try done; by destruct st.
Qed.

(** Terminate may wait forever for the monitor. If an event of the host comes
    after the flag is set and before the send, the monitor leaves its loop by the
    test of the flag and nobody receives: from then on nothing moves. That is
    the only way: every other run can still be completed so that Terminate ends,
    and it ends at once when no event comes. *)
Theorem monitor_stop moves s :
  monitor_run moves monitoring = Some s ->
  (monitor_dead s /\ forall moves' s', monitor_run moves' s = Some s' -> s' = s)
  \/ (m_stopper s = SendStop /\ m_pc s = MonTest
      /\ (exists s', monitor_run [MoveMonitor] s = Some s' /\ monitor_dead s') /\ MoveEvent ∈ moves)
  \/ exists moves' s', monitor_run moves' s = Some s' /\ m_stopper s' = MonStopped /\ m_pc s' = MonEnded.
Proof.
  intros Hr. assert (monitor_inv s) as Hi by (eapply monitor_run_inv; [|exact Hr]; unfold monitor_inv; simpl; auto).
  assert (MoveEvent ∈ moves \/ m_stopper s <> SendStop \/ m_pc s <> MonTest) as Hev.
  { destruct (decide (MoveEvent ∈ moves)) as [|Hno]; [by left|right].
    right. by eapply (monitor_no_event moves monitoring). }
  destruct s as [fl st mp sp]. unfold monitor_inv in Hi. simpl in *. destruct Hi as [Hi Hne].
  destruct sp; simpl in *.
  - right; right. destruct Hi as (-> & Hp & ->). destruct Hp as [-> | ->].
    + by eexists [MoveMonitor; MoveStopper; MoveStopper; MoveRendezvous; MoveStopper; MoveStopper], _.
    + by eexists [MoveStopper; MoveStopper; MoveRendezvous; MoveStopper; MoveStopper], _.
  - right; right. destruct Hi as (-> & Hp & ->). destruct Hp as [-> | ->].
    + by eexists [MoveMonitor; MoveStopper; MoveRendezvous; MoveStopper; MoveStopper], _.
    + by eexists [MoveStopper; MoveRendezvous; MoveStopper; MoveStopper], _.
  - subst fl. destruct mp; [done|..].
    + right; left. destruct Hev as [Hev|[?|?]]; [|done..]. split_and!; [done..|by eexists|done].
    + right; right. by eexists [MoveRendezvous; MoveStopper; MoveStopper], _.
    + left. split; [done|]. intros moves' s'. by apply monitor_dead_stays.
  - right; right. subst mp. by eexists [MoveStopper; MoveStopper], _.
  - right; right. subst mp. by eexists [MoveStopper], _.
  - right; right. subst mp. by eexists [], _.
Qed.

(** The run that waits forever. *)
Example monitor_deadlock :
  exists s, monitor_run [MoveStopper; MoveStopper; MoveEvent; MoveMonitor] monitoring = Some s /\ monitor_dead s.
Proof. by eexists. Qed.
