(* ===== verification/NatMappings.v ===== *)
(** Port mappings of the gateway: [network/network.go].

    The answers of a gateway are arguments.  Every discovered gateway has a
    routine of its own; its entries in the table, behind the mutex, are its
    steps, and the routines take turns in any order.  [prepareUPnPAddresses] has
    one gateway, whose table of rules is kept by its routine until the stop. *)
From S2P Require Import Prelude GoLib Bytes Storage.
Open Scope string_scope.

Record PortMapping := { iaddr : string; iport : Z; eaddr : string; eport : Z; prot : string }.

(** What a gateway answers: its device, internal and external address, and the
    external port of each mapping. *)
Record nat_answers := {
  na_device : option string; na_internal : option string; na_external : option string;
  na_tcp : option Z; na_udp : option Z
}.

Definition mapping_id (proto addr : string) (port : Z) : string :=
  "grapeone-" ++ proto ++ "-" ++ addr ++ ":" ++ dec_String port.

(** The routine of a gateway: the entries it makes, in order.  Each is announced
    to the listeners after it is made.  A gateway that cannot map the first port
    is not asked for the second. *)
Definition nat_routine (port : Z) (a : option nat_answers) : list (string * PortMapping) :=
  match a with
  | None => []
  | Some a =>
      match na_device a, na_internal a, na_external a with
      | Some _, Some ia, Some ea =>
          match na_tcp a with
          | None => []
          | Some ep =>
              (mapping_id "tcp" ia port, {| iaddr := ia; iport := port; eaddr := ea; eport := ep; prot := "tcp" |}) ::
              match na_udp a with
              | None => []
              | Some ep => [(mapping_id "udp" ia port, {| iaddr := ia; iport := port; eaddr := ea; eport := ep; prot := "udp" |})]
              end
          end
      | _, _, _ => []
      end
  end.

(** The table and the calls of the listeners. *)
Record nat_table := { port_mappings : gmap string PortMapping; notified : list PortMapping }.

Definition add_mapping (s : nat_table) (e : string * PortMapping) : nat_table :=
  {| port_mappings := <[fst e := snd e]> (port_mappings s); notified := (notified s ++ [snd e])%list |}.

(** The loop of [natPortMappings]: a routine for every receive; after the channel
    is closed a receive gives nil at once. *)
Fixpoint nat_loop (rounds : nat) (found : list nat_answers) : list (option nat_answers) :=
  match rounds with
  | O => []
  | S n => match found with
           | [] => None :: nat_loop n []
           | a :: rest => Some a :: nat_loop n rest
           end
  end.

(** The entries of several routines, each in its own order. *)
Inductive interleaved {A} : list (list A) -> list A -> Prop :=
| inter_nil ls : Forall (fun l => l = []) ls -> interleaved ls []
| inter_step ls i x l out : ls !! i = Some (x :: l) -> interleaved (<[i := l]> ls) out -> interleaved ls (x :: out).

(** ** One gateway, kept alive *)

(** A rule of the gateway is known by its protocol and internal port. *)
Record gateway := { gw_rules : gmap (string * Z) Z }.

(** [AddPortMapping] of the library: the gateway gives an external port, or
    refuses and keeps its rules. *)
Definition AddPortMapping (ep : option Z) (pr : string) (port : Z) (g : gateway) : gateway * option Z :=
  match ep with
  | Some e => ({| gw_rules := <[(pr, port) := e]> (gw_rules g) |}, Some e)
  | None => (g, None)
  end.

Definition DeletePortMapping (pr : string) (port : Z) (g : gateway) : gateway :=
  {| gw_rules := delete (pr, port) (gw_rules g) |}.

Definition upnp_id (proto : string) (port : Z) : string := "grapeone-" ++ proto ++ "-" ++ dec_String port.

(** The part of [prepareUPnPAddresses] before the routine: the table, the gateway
    and whether there was an error.  An entry that was made before an error is
    kept. *)
Definition prepareUPnPAddresses (port : Z) (a : nat_answers) (g : gateway) (m : gmap string PortMapping)
    : gmap string PortMapping * gateway * bool :=
  match na_device a, na_internal a, na_external a with
  | Some _, Some ia, Some ea =>
      match AddPortMapping (na_tcp a) "tcp" port g with
      | (g, None) => (m, g, false)
      | (g, Some ep) =>
          let m := <[upnp_id "tcp" port := {| iaddr := ia; iport := port; eaddr := ea; eport := ep; prot := "tcp" |}]> m in
          match AddPortMapping (na_udp a) "udp" port g with
          | (g, None) => (m, g, false)
          | (g, Some ep) =>
              (<[upnp_id "udp" port := {| iaddr := ia; iport := port; eaddr := ea; eport := ep; prot := "udp" |}]> m, g, true)
          end
      end
  | _, _, _ => (m, g, false)
  end.

(** One entry of a tick: the rule is asked for again; an external port that has
    changed is written to the table. *)
Definition refresh_one (answer : string -> option Z) (s : gmap string PortMapping * gateway) (e : string * PortMapping)
    : gmap string PortMapping * gateway :=
  let '(m, g) := s in
  let '(id, pm) := e in
  match AddPortMapping (answer id) (prot pm) (iport pm) g with
  | (g, None) => (m, g)
  | (g, Some ep) =>
      if (ep =? eport pm)%Z then (m, g)
      else (<[id := {| iaddr := iaddr pm; iport := iport pm; eaddr := eaddr pm; eport := ep; prot := prot pm |}]> m, g)
  end.

Definition refresh (answer : string -> option Z) (m : gmap string PortMapping) (g : gateway)
    : gmap string PortMapping * gateway :=
  fold_left (refresh_one answer) (map_to_list m) (m, g).

(** After the stop every rule of the table is deleted. *)
Definition delete_all (m : gmap string PortMapping) (g : gateway) : gateway :=
  fold_left (fun g e => DeletePortMapping (prot (snd e)) (iport (snd e)) g) (map_to_list m) g.

(** The routine: ticks until the stop. *)
Definition keep_alive (ticks : list (string -> option Z)) (m : gmap string PortMapping) (g : gateway)
    : gmap string PortMapping * gateway :=
  let '(m, g) := fold_left (fun s answer => refresh answer (fst s) (snd s)) ticks (m, g) in (m, delete_all m g).

(** ** The routines of the gateways *)

Open Scope list_scope.

Lemma interleaved_perm {A} (ls : list (list A)) out : interleaved ls out -> out ≡ₚ concat ls.
Proof.
  induction 1 as [ls Hn|ls i x l out Hi _ IH].
  - assert (concat ls = []) as ->; [|done]. induction Hn as [|l ls -> _ IH]; [reflexivity|exact IH].
  - assert (concat ls = concat (take i ls) ++ x :: l ++ concat (drop (S i) ls)) as ->.
    { rewrite <- (take_drop_middle ls i (x :: l) Hi) at 1. by rewrite concat_app. }
    rewrite IH, insert_take_drop by (eapply lookup_lt_Some; exact Hi). rewrite concat_app. simpl.
    by rewrite Permutation_middle.
Qed.

Lemma add_mappings_fold out : forall s,
  port_mappings (fold_left add_mapping out s) = list_to_map (rev out) ∪ port_mappings s
  /\ notified (fold_left add_mapping out s) = notified s ++ map snd out.
Proof.
  induction out as [|[k v] out IH]; intros s; simpl.
  - by rewrite (left_id_L ∅ (∪)), app_nil_r.
  - destruct (IH (add_mapping s (k, v))) as [-> ->]. simpl. split; [|by rewrite <- app_assoc].
    rewrite list_to_map_app. rewrite <- (assoc_L (∪)). f_equal. simpl.
    by rewrite insert_empty, insert_union_singleton_l.
Qed.

Lemma string_app_inj_r c : forall a b, (a ++ c = b ++ c)%string -> a = b.
Proof.
  assert (forall a b, String.length (a ++ b)%string = (String.length a + String.length b)%nat) as Hl.
  { induction a as [|x a IH]; intros b; simpl; [done|]. by rewrite IH. }
  induction a as [|x a IH]; intros [|y b] E; [done|..].
  - apply (f_equal String.length) in E. rewrite !Hl in E. simpl in E. lia.
  - apply (f_equal String.length) in E. rewrite !Hl in E. simpl in E. lia.
  - simpl in E. injection E as -> E. f_equal. by apply IH.
Qed.

Lemma mapping_id_inj port p1 a1 p2 a2 : p1 = "tcp" \/ p1 = "udp" -> p2 = "tcp" \/ p2 = "udp" ->
  mapping_id p1 a1 port = mapping_id p2 a2 port -> p1 = p2 /\ a1 = a2.
Proof.
  assert (forall q, mapping_id q a1 port = mapping_id q a2 port -> a1 = a2) as Hq.
  { unfold mapping_id. intros q E. do 3 apply string_app_inj_l in E. by apply string_app_inj_r in E. }
  intros [-> | ->] [-> | ->] E; try discriminate; (split; [done|by eapply Hq]).
Qed.

Lemma elem_of_concat {A} (x : A) ls : x ∈ concat ls <-> exists l, x ∈ l /\ l ∈ ls.
Proof.
  rewrite list_elem_of_In, in_concat. split; intros (l & H1 & H2); exists l; rewrite !list_elem_of_In in *; tauto.
Qed.

Lemma nat_routine_entry port a id pm : (id, pm) ∈ nat_routine port (Some a) ->
  na_internal a = Some (iaddr pm) /\ id = mapping_id (prot pm) (iaddr pm) port /\ (prot pm = "tcp" \/ prot pm = "udp").
Proof.
  unfold nat_routine. destruct (na_device a), (na_internal a), (na_external a); try by rewrite elem_of_nil.
  destruct (na_tcp a); [|by rewrite elem_of_nil]. destruct (na_udp a); rewrite ?elem_of_cons, elem_of_nil.
  - intros [E|[E|[]]]; injection E as -> ->; auto.
  - intros [E|[]]; injection E as -> ->; auto.
Qed.

Lemma nat_routine_nodup port a : NoDup (map fst (nat_routine port (Some a))).
Proof.
  unfold nat_routine. destruct (na_device a), (na_internal a) as [ia|], (na_external a); try constructor.
  destruct (na_tcp a); [|constructor]. destruct (na_udp a); simpl; [|apply NoDup_singleton].
  constructor; [|apply NoDup_singleton]. rewrite list_elem_of_singleton. intros E.
  apply mapping_id_inj in E as [? _]; [done|auto..].
Qed.

Lemma nat_routines_nodup port gs : NoDup (omap na_internal gs) ->
  NoDup (map fst (concat (map (fun a => nat_routine port (Some a)) gs))).
Proof.
  induction gs as [|a gs IH]; [constructor|]. cbn [map concat]. rewrite map_app. intros Hd.
  assert (NoDup (omap na_internal gs) /\ forall ia, na_internal a = Some ia -> ia ∉ omap na_internal gs) as [Hd' Ha].
  { simpl in Hd. destruct (na_internal a) as [ia|]; [|done]. apply NoDup_cons in Hd as [Hn Hd].
    split; [done|]. by intros ? [= <-]. }
  apply NoDup_app. split_and!; [apply nat_routine_nodup| |by apply IH].
  intros id H1 H2. apply list_elem_of_fmap in H1 as ([i1 p1] & -> & H1), H2 as ([i2 p2] & Ei & H2). simpl in Ei. subst i2.
  apply elem_of_concat in H2 as (l & H2 & Hl). apply list_elem_of_fmap in Hl as (b & -> & Hb).
  apply nat_routine_entry in H1 as (Hi1 & E1 & Hp1), H2 as (Hi2 & E2 & Hp2). rewrite E1 in E2.
  apply mapping_id_inj in E2 as [_ E2]; [|done..]. apply (Ha _ Hi1). rewrite E2. apply list_elem_of_omap. by exists b.
Qed.

(** The table of the mappings. Whatever the order in which the routines of the
    discovered gateways run, gateways with different internal addresses leave
    the same table: exactly the mappings that each of them granted, under an id
    of their own; and the listeners hear of each of these once. *)
Theorem nat_table_exact port gs out s :
  NoDup (omap na_internal gs) ->
  interleaved (map (fun a => nat_routine port (Some a)) gs) out ->
  s = fold_left add_mapping out {| port_mappings := ∅; notified := [] |} ->
  (forall id pm, port_mappings s !! id = Some pm <-> exists a, a ∈ gs /\ (id, pm) ∈ nat_routine port (Some a))
  /\ notified s ≡ₚ concat (map (fun a => map snd (nat_routine port (Some a))) gs).
Proof.
  intros Hd Hi ->. apply interleaved_perm in Hi. pose proof (nat_routines_nodup port gs Hd) as Hk.
  destruct (add_mappings_fold out {| port_mappings := ∅; notified := [] |}) as [-> ->]. simpl.
  rewrite (right_id_L ∅ (∪)). split.
  - intros id pm. rewrite <- elem_of_list_to_map.
    + rewrite <- (Permutation_rev out), Hi, elem_of_concat. split.
      * intros (l & Hl & Hin). apply list_elem_of_fmap in Hin as (a & -> & Ha). by exists a.
      * intros (a & Ha & Hl). eexists; split; [exact Hl|]. apply list_elem_of_fmap. by exists a.
    + rewrite <- (Permutation_rev out), Hi. exact Hk.
  - rewrite Hi, concat_map, map_map. done.
Qed.

(** The loop of the discovery never ends: when no gateway is left, every round
    starts a routine that returns at once. *)
Theorem nat_loop_spins n found :
  nat_loop n found = map Some (take n found) ++ replicate (n - length found) None.
Proof.
  revert found. induction n as [|n IH]; intros [|a found]; simpl; try done.
  - by rewrite IH, take_nil, Nat.sub_0_r.
  - by rewrite IH.
Qed.

(** ** The gateway that is kept alive *)

(** The gateway has the rules of the table with their external ports, and no two
    entries are for one rule. *)
Record nat_synced (m : gmap string PortMapping) (g : gateway) : Prop := {
  sy_rules : forall id pm, m !! id = Some pm -> gw_rules g !! (prot pm, iport pm) = Some (eport pm);
  sy_distinct : forall id id' pm pm', m !! id = Some pm -> m !! id' = Some pm' ->
    (prot pm, iport pm) = (prot pm', iport pm') -> id = id'
}.

(** The rules of the table, without their external ports. *)
Definition rule_keys (m : gmap string PortMapping) : gmap string (string * Z) := (fun pm => (prot pm, iport pm)) <$> m.

(** A rule that is not one of the table. *)
Definition foreign (m : gmap string PortMapping) (r : string * Z) : Prop :=
  forall i q, m !! i = Some q -> (prot q, iport q) <> r.

Lemma foreign_keys m m' r : rule_keys m' = rule_keys m -> foreign m r -> foreign m' r.
Proof.
  intros Hk Hf i q Hq E. assert (rule_keys m' !! i = Some r) as Hi by (unfold rule_keys; rewrite lookup_fmap, Hq; by rewrite <- E).
  rewrite Hk in Hi. unfold rule_keys in Hi. rewrite lookup_fmap in Hi. destruct (m !! i) as [w|] eqn:Ew; [|done].
  injection Hi as Hi. by apply (Hf i w).
Qed.

Lemma refresh_one_synced answer m g id pm m' g' :
  nat_synced m g -> m !! id = Some pm -> refresh_one answer (m, g) (id, pm) = (m', g') ->
  nat_synced m' g' /\ rule_keys m' = rule_keys m /\ (forall i, i <> id -> m' !! i = m !! i)
  /\ (forall r, foreign m r -> gw_rules g' !! r = gw_rules g !! r).
Proof.
  intros [Hr Hd] Hid. unfold refresh_one, AddPortMapping.
  destruct (answer id) as [ep|]; [|by intros [= <- <-]]. destruct (Z.eqb_spec ep (eport pm)) as [->|Hne].
  - intros [= <- <-]. split_and!; [|done..|].
    + split; [|done]. intros i q Hq. cbn [gw_rules]. destruct (decide (i = id)) as [->|Hi].
      * rewrite Hid in Hq. injection Hq as <-. by rewrite lookup_insert_eq.
      * rewrite lookup_insert_ne; [by eapply Hr|]. intros E. by apply Hi, (Hd i id q pm).
    + intros r Hno. cbn [gw_rules]. rewrite lookup_insert_ne; [done|]. by eapply Hno.
  - intros [= <- <-]. split_and!.
    + split; cbn [gw_rules].
      * intros i q Hq. destruct (decide (i = id)) as [->|Hi].
        -- rewrite lookup_insert_eq in Hq. injection Hq as <-. cbn. by rewrite lookup_insert_eq.
        -- rewrite lookup_insert_ne in Hq by done. rewrite lookup_insert_ne; [by eapply Hr|].
           intros E. by apply Hi, (Hd i id q pm).
      * intros i i' q q' Hq Hq' E.
        assert (forall j w, <[id := {| iaddr := iaddr pm; iport := iport pm; eaddr := eaddr pm; eport := ep; prot := prot pm |}]> m !! j
          = Some w -> exists w', m !! j = Some w' /\ (prot w', iport w') = (prot w, iport w)) as Hold.
        { intros j w Hw. destruct (decide (j = id)) as [->|Hj].
          - rewrite lookup_insert_eq in Hw. injection Hw as <-. by exists pm.
          - rewrite lookup_insert_ne in Hw by done. by exists w. }
        destruct (Hold i q Hq) as (w & Hw & Ew), (Hold i' q' Hq') as (w' & Hw' & Ew').
        eapply Hd; [exact Hw|exact Hw'|congruence].
    + unfold rule_keys. rewrite fmap_insert. cbn. apply insert_id. by rewrite lookup_fmap, Hid.
    + intros i Hi. by rewrite lookup_insert_ne.
    + intros r Hno. cbn [gw_rules]. rewrite lookup_insert_ne; [done|]. by eapply Hno.
Qed.

Lemma refresh_synced_list answer l : forall m g m' g',
  NoDup (map fst l) -> (forall e, e ∈ l -> m !! fst e = Some (snd e)) -> nat_synced m g ->
  fold_left (refresh_one answer) l (m, g) = (m', g') ->
  nat_synced m' g' /\ rule_keys m' = rule_keys m /\ (forall r, foreign m r -> gw_rules g' !! r = gw_rules g !! r).
Proof.
  induction l as [|[id pm] l IH]; intros m g m' g' Hn Hl Hs; cbn [fold_left]; [by intros [= <- <-]|].
  destruct (refresh_one answer (m, g) (id, pm)) as [m1 g1] eqn:E.
  apply refresh_one_synced in E as (Hs1 & Hk1 & Ho1 & Hf1); [|done|by apply (Hl (id, pm)), list_elem_of_here].
  apply NoDup_cons in Hn as [Hnin Hn]. intros E'.
  apply IH in E' as (Hs' & Hk' & Hf'); [|done| |done].
  - split_and!; [done|congruence|]. intros r Hr. rewrite Hf' by (by eapply foreign_keys). by apply Hf1.
  - intros [i q] Hi. cbn. rewrite Ho1; [by apply (Hl (i, q)), list_elem_of_further|]. intros ->.
    apply Hnin. apply list_elem_of_fmap. by exists (id, q).
Qed.

Lemma refresh_synced answer m g m' g' : nat_synced m g -> refresh answer m g = (m', g') ->
  nat_synced m' g' /\ rule_keys m' = rule_keys m /\ (forall r, foreign m r -> gw_rules g' !! r = gw_rules g !! r).
Proof.
  intros Hs. apply refresh_synced_list; [apply NoDup_fst_map_to_list| |done].
  intros [i q]. apply elem_of_map_to_list.
Qed.

Lemma delete_all_rules l : forall g r, gw_rules (fold_left (fun g e => DeletePortMapping (prot (snd e)) (iport (snd e)) g) l g) !! r
  = if bool_decide (r ∈ map (fun e : string * PortMapping => (prot (snd e), iport (snd e))) l) then None else gw_rules g !! r.
Proof.
  induction l as [|e l IH]; intros g r; cbn [fold_left map]; [rewrite bool_decide_false; [done|apply not_elem_of_nil]|].
  rewrite IH. unfold DeletePortMapping. cbn [gw_rules]. case_bool_decide as Hin.
  - rewrite bool_decide_true; [done|]. by apply list_elem_of_further.
  - destruct (decide (r = (prot (snd e), iport (snd e)))) as [->|Hr].
    + rewrite lookup_delete_eq, bool_decide_true; [done|]. apply list_elem_of_here.
    + rewrite lookup_delete_ne by congruence. rewrite bool_decide_false; [done|]. rewrite elem_of_cons. by intros [?|?].
Qed.

(** The routine that keeps the mappings alive. However often it asks, and
    whatever the gateway answers, the table and the gateway agree on the
    external ports, and the rules stay the same; after the stop the gateway has
    none of the rules of the table, and all its other rules as before. *)
Theorem keep_alive_cleans ticks m g m' g' :
  nat_synced m g -> keep_alive ticks m g = (m', g') ->
  rule_keys m' = rule_keys m
  /\ (exists g1, nat_synced m' g1 /\ g' = delete_all m' g1)
  /\ (forall i r, rule_keys m !! i = Some r -> gw_rules g' !! r = None)
  /\ (forall r, foreign m r -> gw_rules g' !! r = gw_rules g !! r).
Proof.
  intros Hs. unfold keep_alive.
  assert (forall ts m g m1 g1, nat_synced m g -> fold_left (fun s answer => refresh answer (fst s) (snd s)) ts (m, g) = (m1, g1) ->
    nat_synced m1 g1 /\ rule_keys m1 = rule_keys m /\ (forall r, foreign m r -> gw_rules g1 !! r = gw_rules g !! r)) as Hfold.
  { clear. induction ts as [|t ts IH]; intros m g m1 g1 Hs; cbn [fold_left fst snd]; [by intros [= <- <-]|].
    destruct (refresh t m g) as [m2 g2] eqn:E. apply refresh_synced in E as (Hs2 & Hk2 & Hf2); [|done].
    intros E'. apply IH in E' as (Hs1 & Hk1 & Hf1); [|done]. split_and!; [done|congruence|].
    intros r Hr. rewrite Hf1 by (by eapply foreign_keys). by apply Hf2. }
  destruct (fold_left _ ticks (m, g)) as [m1 g1] eqn:E. apply Hfold in E as (Hs1 & Hk1 & Hf1); [|done].
  intros [= <- <-]. split_and!; [done|by exists g1|..].
  - intros i r Hi. unfold delete_all. rewrite delete_all_rules, bool_decide_true; [done|].
    rewrite <- Hk1 in Hi. unfold rule_keys in Hi. rewrite lookup_fmap in Hi. destruct (m1 !! i) as [pm|] eqn:Em; [|done].
    injection Hi as <-. apply list_elem_of_fmap. exists (i, pm). split; [done|]. by apply elem_of_map_to_list.
  - intros r Hr. unfold delete_all. rewrite delete_all_rules, bool_decide_false; [by apply Hf1|].
    intros Hin. apply list_elem_of_fmap in Hin as ([i pm] & -> & Hin). apply elem_of_map_to_list in Hin.
    by apply (foreign_keys m m1 _ Hk1 Hr i pm).
Qed.

(** The mappings of a gateway that grants both: the table of a fresh process and
    the gateway agree, so the routine above cleans up after it. *)
Theorem upnp_synced port a g m g' :
  prepareUPnPAddresses port a g ∅ = (m, g', true) ->
  nat_synced m g' /\ rule_keys m = {[upnp_id "tcp" port := ("tcp", port); upnp_id "udp" port := ("udp", port)]}.
Proof.
  unfold prepareUPnPAddresses, AddPortMapping.
  destruct (na_device a), (na_internal a) as [ia|], (na_external a) as [ea|]; try done.
  destruct (na_tcp a) as [e1|]; [|done]. destruct (na_udp a) as [e2|]; [|done]. intros [= <- <-].
  assert (upnp_id "tcp" port <> upnp_id "udp" port) as Hne by done.
  split; [split|].
  - intros id pm. cbn [gw_rules]. intros [[<- <-]|[_ [[<- <-]|[_ ?]]%lookup_insert_Some]]%lookup_insert_Some; cbn; [..|done].
    + by rewrite lookup_insert_eq.
    + by rewrite lookup_insert_ne, lookup_insert_eq.
  - intros id id' pm pm'.
    intros [[<- <-]|[_ [[<- <-]|[_ ?]]%lookup_insert_Some]]%lookup_insert_Some; [..|done];
    intros [[<- <-]|[_ [[<- <-]|[_ ?]]%lookup_insert_Some]]%lookup_insert_Some; cbn; done.
  - unfold rule_keys. rewrite !fmap_insert, fmap_empty. cbn. rewrite insert_insert_ne by done. done.
Qed.
