(* ===== verification/ProcTool.v ===== *)
(** Processes of the node: the tool that starts and stops it
    ([tools/proc/mng.go]) and the file with its own process id ([run/misc.go]).

    The state is the file with the process id, the processes that run and the
    interrupts that were sent.  [log.Fatalf] ends the tool: [None] with the state
    it leaves.  Whether a call of the operating system works is an argument. *)
From S2P Require Import Prelude GoLib Storage StorageProps.
Open Scope string_scope.

Record proc_state := { pid_file : option string; running_pids : gset Z; interrupted : list Z }.

Inductive GOOS := windows | linux | darwin | other_os.

(** What the calls give: [pe_stat] is whether the test for the file works at all,
    [pe_start] the process id of a started command, [pe_kill] whether the signal
    is delivered. *)
Record proc_env := {
  pe_stat : bool; pe_read : bool; pe_create : bool; pe_write : bool; pe_remove : bool;
  pe_start : option Z; pe_kill : bool; pe_GOOS : GOOS
}.

Definition with_pid_file (s : proc_state) (f : option string) : proc_state :=
  {| pid_file := f; running_pids := running_pids s; interrupted := interrupted s |}.

(** The result of a step of the tool: the state, and the value unless it ended. *)
Definition tool (A : Type) : Type := proc_state * option A.

Definition tool_bind {A B} (m : tool A) (k : proc_state -> A -> tool B) : tool B :=
  match m with (s, Some a) => k s a | (s, None) => (s, None) end.

Definition fileExist (e : proc_env) (s : proc_state) : tool bool :=
  if negb (pe_stat e) then (s, None)
  else (s, Some (match pid_file s with Some _ => true | None => false end)).

Definition readFile (e : proc_env) (s : proc_state) : tool string :=
  if negb (pe_read e) then (s, None) else (s, pid_file s).

(** A file that cannot be written after it was created is empty. *)
Definition writeFile (e : proc_env) (content : string) (s : proc_state) : tool unit :=
  if negb (pe_create e) then (s, None)
  else if negb (pe_write e) then (with_pid_file s (Some ""), None)
  else (with_pid_file s (Some content), Some tt).

(** [strconv.Atoi], whose error is ignored: 0 for a text that is no number, the
    nearest number of 64 bits for one that is too large. *)
Definition Atoi (s : string) : Z :=
  match dec_Parse s with
  | None => 0
  | Some z => if (z <? - 2 ^ 63)%Z then (- 2 ^ 63)%Z else if (2 ^ 63 <=? z)%Z then (2 ^ 63 - 1)%Z else z
  end.

Definition readPid (e : proc_env) (s : proc_state) : tool Z :=
  tool_bind (fileExist e s) (fun s ok =>
  if negb ok then (s, None)
  else tool_bind (readFile e s) (fun s content => (s, Some (Atoi content)))).

(** The signal, or [taskkill]; the process 0 cannot be signalled. *)
Definition killProcessByPID (e : proc_env) (pid : Z) (s : proc_state) : proc_state * bool :=
  let sent := {| pid_file := pid_file s; running_pids := running_pids s; interrupted := interrupted s ++ [pid] |} in
  match pe_GOOS e with
  | windows => if pe_kill e then (sent, true) else (s, false)
  | linux | darwin => if negb (pid =? 0)%Z && pe_kill e then (sent, true) else (s, false)
  | other_os => (s, false)
  end.

Definition startNode (e : proc_env) (s : proc_state) : tool unit :=
  tool_bind (fileExist e s) (fun s exist =>
  if exist then (s, None)
  else match pe_start e with
       | None => (s, None)
       | Some pid =>
           writeFile e (dec_String pid)
             {| pid_file := pid_file s; running_pids := running_pids s ∪ {[pid]}; interrupted := interrupted s |}
       end).

Definition stopNode (e : proc_env) (s : proc_state) : tool unit :=
  tool_bind (readPid e s) (fun s pid =>
  let '(s, _) := killProcessByPID e pid s in
  (if pe_remove e then with_pid_file s None else s, Some tt)).

Inductive proc_command := START_COMMAND | STOP_COMMAND | RESTART_COMMAND.

(** [main]; [ParseCmdArgs] lets only these commands through. *)
Definition proc_main (c : proc_command) (e e' : proc_env) (s : proc_state) : tool unit :=
  match c with
  | STOP_COMMAND => stopNode e s
  | START_COMMAND => startNode e s
  | RESTART_COMMAND =>
      tool_bind (fileExist e s) (fun s exist =>
      if exist then tool_bind (stopNode e s) (fun s _ => startNode e' s) else startNode e' s)
  end.

(** ** The file of the process itself *)

(** Writing at the start of a file that is not cut: what was there after the new
    text stays. *)
Definition overwrite (old new : string) : string :=
  new ++ String.substring (String.length new) (String.length old - String.length new) old.

(** [postProcessId]: errors are logged. *)
Definition postProcessId (opens writes : bool) (pid : Z) (file : option string) : option string :=
  if negb opens then file
  else Some (overwrite (default "" file) (if writes then dec_String pid else "")).

Definition cleanProcessId (removes : bool) (file : option string) : option string := if removes then None else file.

(** ** Starting and stopping *)

Lemma Atoi_dec_String z : - 2 ^ 63 <= z < 2 ^ 63 -> Atoi (dec_String z) = z.
Proof.
  intros Hz. unfold Atoi. rewrite dec_Parse_String. destruct (Z.ltb_spec z (- 2 ^ 63)); [lia|].
  destruct (Z.leb_spec (2 ^ 63) z); [lia|done].
Qed.

(** The calls of the operating system work. *)
Definition os_works (e : proc_env) : Prop :=
  pe_stat e = true /\ pe_read e = true /\ pe_create e = true /\ pe_write e = true /\ pe_remove e = true.

Definition unix (e : proc_env) : Prop := pe_GOOS e = linux \/ pe_GOOS e = darwin.

(** The file names the process that the tool last started. *)
Definition owns (s : proc_state) (pid : Z) : Prop := pid_file s = Some (dec_String pid) /\ pid ∈ running_pids s.

Lemma startNode_starts e s pid : os_works e -> pe_start e = Some pid -> pid_file s = None ->
  exists s', startNode e s = (s', Some tt) /\ owns s' pid /\ interrupted s' = interrupted s
    /\ running_pids s' = running_pids s ∪ {[pid]}.
Proof.
  intros (Hs & _ & Hc & Hw & _) Hp Hf. unfold startNode, fileExist, writeFile. rewrite Hs. cbn [negb tool_bind].
  rewrite Hf, Hp, Hc, Hw. cbn. eexists; split; [done|]. split_and!; [|done..]. split; [done|]. cbn. set_solver.
Qed.

Lemma stopNode_stops e s pid : os_works e -> unix e -> 0 < pid < 2 ^ 63 -> pid_file s = Some (dec_String pid) ->
  stopNode e s = ({| pid_file := None; running_pids := running_pids s;
                     interrupted := interrupted s ++ (if pe_kill e then [pid] else []) |}, Some tt).
Proof.
  intros (Hs & Hr & _ & _ & Hm) Hu Hp Hf. unfold stopNode, readPid, fileExist, readFile. rewrite Hs, Hr.
  cbn [negb tool_bind]. rewrite Hf. cbn [tool_bind negb].
  rewrite Atoi_dec_String by lia. unfold killProcessByPID. rewrite Hm.
  assert ((pid =? 0)%Z = false) as -> by (apply Z.eqb_neq; lia).
  destruct Hu as [-> | ->]; cbn [negb andb]; destruct (pe_kill e); cbn; by rewrite ?app_nil_r.
Qed.

(** Starting and stopping a node. With an operating system that works, a node
    that the tool started is the one that stop interrupts, and the file is gone
    afterwards; a second start before that is refused and changes nothing. *)
Theorem start_stop e e' s pid :
  os_works e -> os_works e' -> unix e' -> pe_kill e' = true -> pe_start e = Some pid -> 0 < pid < 2 ^ 63 ->
  pid_file s = None ->
  exists s1, proc_main START_COMMAND e e s = (s1, Some tt) /\ owns s1 pid
    /\ (forall e2 e3, proc_main START_COMMAND e2 e3 s1 = (s1, None))
    /\ exists s2, proc_main STOP_COMMAND e' e' s1 = (s2, Some tt) /\ pid_file s2 = None
       /\ interrupted s2 = (interrupted s ++ [pid])%list.
Proof.
  intros He He' Hu Hk Hp Hr Hf. destruct (startNode_starts e s pid He Hp Hf) as (s1 & E & Ho & Hi & _).
  exists s1. split; [done|]. split; [done|]. destruct Ho as [Hpf Hrun]. split.
  - intros e2 e3. cbn [proc_main]. unfold startNode, fileExist. destruct (pe_stat e2); cbn [negb tool_bind]; [by rewrite Hpf|done].
  - rewrite <- Hi. eexists. cbn [proc_main]. rewrite (stopNode_stops e' s1 pid He' Hu Hr Hpf), Hk. split; [done|]. by split.
Qed.

(** Restarting, also when the node is gone already: the old process is
    interrupted if it still takes signals, and the new one is the one that the
    file names. When the file cannot be removed the node is stopped and no new
    one is started. *)
Theorem restart_replaces e e' s old new :
  os_works e -> os_works e' -> unix e -> 0 < old < 2 ^ 63 -> pid_file s = Some (dec_String old) -> pe_start e' = Some new ->
  (exists s', proc_main RESTART_COMMAND e e' s = (s', Some tt) /\ owns s' new
     /\ interrupted s' = (interrupted s ++ (if pe_kill e then [old] else []))%list)
  /\ forall e1, pe_stat e1 = true -> pe_read e1 = true -> pe_remove e1 = false ->
       exists s', proc_main RESTART_COMMAND e1 e' s = (s', None) /\ running_pids s' = running_pids s
         /\ pid_file s' = pid_file s.
Proof.
  intros He He' Hu Hr Hf Hn. cbn [proc_main]. split.
  - assert (fileExist e s = (s, Some true)) as -> by (unfold fileExist; destruct He as [-> _]; by rewrite Hf).
    cbn [tool_bind]. rewrite (stopNode_stops e s old He Hu Hr Hf). cbn [tool_bind].
    edestruct (startNode_starts e') as (s' & E & Ho & Hi & _); [done|exact Hn| |exists s'; split; [exact E|]]; [done|].
    split; [done|]. by rewrite Hi.
  - intros e1 H1 H2 H3. unfold fileExist at 1. rewrite H1. cbn [negb tool_bind]. rewrite Hf.
    unfold stopNode, readPid, fileExist, readFile. rewrite H1, H2. cbn [negb tool_bind]. rewrite Hf. cbn [tool_bind negb].
    rewrite H3. unfold killProcessByPID.
    assert (forall s1, pid_file s1 = pid_file s -> startNode e' s1 = (s1, None)) as Hst.
    { intros s1 E1. unfold startNode, fileExist. destruct He' as [-> _]. cbn. by rewrite E1, Hf. }
    destruct (pe_GOOS e1), (pe_kill e1); cbn [andb negb tool_bind];
      try (destruct (negb (Atoi (dec_String old) =? 0)%Z); cbn [andb tool_bind]);
      (rewrite Hst by done; eexists; split; [done|]; by split).
Qed.

(** A node whose file could not be written is lost: the tool ends with an error
    while the node runs, the next start does not know it and starts another one,
    and stop only ever interrupts that one. *)
Theorem lost_node_runs_twice e e' s p1 p2 :
  pe_stat e = true -> pe_create e = false -> pe_start e = Some p1 ->
  os_works e' -> pe_start e' = Some p2 -> pid_file s = None ->
  exists s1 s2, proc_main START_COMMAND e e s = (s1, None) /\ proc_main START_COMMAND e' e' s1 = (s2, Some tt)
    /\ p1 ∈ running_pids s2 /\ owns s2 p2.
Proof.
  intros Hs Hc Hp He' Hp' Hf. cbn [proc_main]. unfold startNode at 1, fileExist, writeFile. rewrite Hs, Hc, Hp. cbn [negb tool_bind].
  rewrite Hf. eexists. edestruct (startNode_starts e') as (s2 & E & Ho & _ & Hr); [done|exact Hp'| |exists s2; split; [done|split; [exact E|]]].
  - done.
  - split; [|done]. rewrite Hr. cbn. set_solver.
Qed.

(** ** The file of the process itself *)

Lemma string_length_app a b : String.length (a ++ b) = (String.length a + String.length b)%nat.
Proof. induction a as [|x a IH]; simpl; [done|]. by rewrite IH. Qed.

Lemma string_app_nothing s : s ++ "" = s.
Proof. induction s as [|c s IH]; [done|]. change (String c (s ++ "") = String c s). by rewrite IH. Qed.

Lemma substring_nothing s : forall n, String.substring n 0 s = "".
Proof. induction s as [|c s IH]; intros [|n]; simpl; done. Qed.

Lemma substring_some s : forall n k, (0 < k)%nat -> (n + k <= String.length s)%nat -> String.length (String.substring n k s) = k.
Proof.
  induction s as [|c s IH]; intros n k Hk Hl; simpl in *; [lia|]. destruct n, k; simpl; try lia.
  - f_equal. destruct k; [by rewrite substring_nothing|]. apply IH; lia.
  - apply IH; lia.
Qed.

(** The file of a process names it exactly when the old contents are not longer
    than the new id: the file is not cut, and after a longer id its last digits
    stay. *)
Theorem pid_file_exact pid old :
  postProcessId true true pid (Some old) = Some (dec_String pid)
  <-> (String.length old <= String.length (dec_String pid))%nat.
Proof.
  unfold postProcessId, overwrite. cbn [negb]. change (default "" (Some old)) with old. split.
  - intros [= E]. destruct (Nat.le_gt_cases (String.length old) (String.length (dec_String pid))) as [|Hgt]; [done|exfalso].
    apply (f_equal String.length) in E. rewrite string_length_app in E.
    rewrite substring_some in E by lia. lia.
  - intros Hle. replace (String.length old - String.length (dec_String pid))%nat with 0%nat by lia.
    by rewrite substring_nothing, string_app_nothing.
Qed.

Example pid_file_leftover : postProcessId true true 99 (Some "12345") = Some "99345".
Proof. reflexivity. Qed.
