(* ===== verification/VmContext.v ===== *)
(** Calls of the contract VM: [vm/coms.go], with the state server that the VM
    calls back and the receipt that the peer makes of a call.

    [RunCall] remembers the transaction for the time of the call; the state
    server reads it when the VM saves logs.  The requests of the VM come while
    the call runs, and calls of several goroutines may overlap: the events are
    the start of a call, a request of the VM and the end of a call. *)
From S2P Require Import Prelude GoLib Bytes Tx Storage StorageProps StateServer WalletCache Node Pin.

(** ** The context *)

Record vm_peer := { vp_store : Storage; execTx : option Txv1 }.

Definition setTx (s : vm_peer) (t : option Txv1) : vm_peer := {| vp_store := vp_store s; execTx := t |}.
Definition CurrentExecutingTx (s : vm_peer) : option Txv1 := execTx s.

Inductive vm_event := CallStarts (in_ : pb_Txv1) | Asked (r : request) | CallEnds.

Section Context_.
Context `{CryptoLib} `{ProtoLib} `{TimestampLib}.
Variable undef : string -> Z.
Variable now : Z.

(** A start or an end has no response. *)
Definition vm_step (s : vm_peer) (e : vm_event) : outcome (vm_peer * option response) :=
  match e with
  | CallStarts in_ => Return (setTx s (Some (Txv1_UnmarshalBinary in_)), None)
  | Asked r =>
      let! x := serve undef (CurrentExecutingTx s) now (vp_store s) r in
      Return ({| vp_store := fst x; execTx := execTx s |}, Some (snd x))
  | CallEnds => Return (setTx s None, None)
  end.

Fixpoint vm_run (s : vm_peer) (l : list vm_event) : outcome (vm_peer * list response) :=
  match l with
  | [] => Return (s, [])
  | e :: rest =>
      let! x := vm_step s e in
      let! y := vm_run (fst x) rest in
      Return (fst y, option_list (snd x) ++ snd y)
  end.

(** The events of one call of [RunCall]. *)
Definition RunCall_events (in_ : pb_Txv1) (l : list request) : list vm_event :=
  CallStarts in_ :: map Asked l ++ [CallEnds].
End Context_.

(** [ConnectToVm]: the cached client, the port of a new connection and whether
    the connection could be made. *)
Definition default_port : Z := 29299.

Definition ConnectToVm (cached : bool) (VmServerPort : Z) (dial : Z -> bool) : bool * option Z * bool :=
  if cached then (true, None, true)
  else
    let port := if VmServerPort =? 0 then default_port else VmServerPort in
    if dial port then (true, Some port, true) else (false, Some port, false).

(** ** Logs are only added *)

Definition all_logs (s : Storage) : list Log := concat (map snd (map_to_list (logs s))).

(** Every account with logs has storage, so its logs are not started anew. *)
Definition logs_kept (s : Storage) : Prop := forall k, is_Some (logs s !! k) -> is_Some (mappings s !! k).

Record log_inv (s : Storage) : Prop := { log_server : server_inv s; log_kept : logs_kept s }.

Lemma log_inv_new : log_inv NewStorage.
Proof. split; [apply server_inv_new|]. intros k. simpl. by rewrite lookup_empty. Qed.

Lemma all_logs_insert (m : gmap string (list Log)) k x :
  concat (map snd (map_to_list (<[k := default [] (m !! k) ++ [x]]> m))) ≡ₚ concat (map snd (map_to_list m)) ++ [x].
Proof.
  destruct (m !! k) as [old|] eqn:E; simpl.
  - rewrite <- insert_delete_eq, map_to_list_insert by apply lookup_delete_eq.
    rewrite <- (map_to_list_delete m k old) by done. simpl.
    rewrite <- !app_assoc. by rewrite (Permutation_app_comm [x]).
  - rewrite map_to_list_insert by done. simpl. by rewrite Permutation_cons_append.
Qed.

Lemma all_logs_start (m : gmap string (list Log)) k : m !! k = None ->
  concat (map snd (map_to_list (<[k := []]> m))) ≡ₚ concat (map snd (map_to_list m)).
Proof. intros E. by rewrite map_to_list_insert. Qed.

(** The store afterwards has the same logs. *)
Definition same_logs_store (s t : Storage) : Prop := logs_kept t /\ all_logs t ≡ₚ all_logs s.

Lemma putAccount_logs s a : logs_kept s -> same_logs_store s (putAccount s a).
Proof.
  intros Hk. assert (logs (putAccount s a) = match mappings s !! TrimPrefix (sa_Address a) "0x" with
    | Some _ => logs s | None => <[TrimPrefix (sa_Address a) "0x" := []]> (logs s) end) as E.
  { unfold putAccount. simpl. destruct (collectDiffs s); simpl; by case_match. }
  split.
  - intros k Hl. apply putAccount_mappings. rewrite E in Hl. destruct (mappings s !! _) eqn:Em; [by left; apply Hk|].
    apply lookup_insert_is_Some in Hl as [->|[_ Hl]]; [by right|left; by apply Hk].
  - unfold all_logs. rewrite E. destruct (mappings s !! _) eqn:Em; [done|]. apply all_logs_start.
    destruct (logs s !! _) eqn:El; [|done]. destruct (Hk _ (mk_is_Some _ _ El)) as [? Hm]. congruence.
Qed.

Lemma putValue_logs s a k v : logs_kept s -> same_logs_store s (putValue s a k v).
Proof.
  intros Hk. assert (same_logs_store s (ensured s a)) as [Hk' Hp].
  { unfold ensured. case_match; [by split|]. by apply putAccount_logs. }
  assert (logs (putValue s a k v) = logs (ensured s a)) as El by (unfold putValue, ensured; simpl; by repeat case_match).
  assert (forall x, is_Some (mappings (ensured s a) !! x) -> is_Some (mappings (putValue s a k v) !! x)) as Hm.
  { intros x Hx. unfold putValue. fold (ensured s a). 
    assert (forall (b : bool) (u v : Storage), mappings u = mappings v -> mappings (if b then u else v) = mappings v) as Hif
      by (by intros []).
    rewrite Hif by done. simpl. apply lookup_insert_is_Some'. by right. }
  split; [|unfold all_logs in *; by rewrite El]. intros x. rewrite El. eauto.
Qed.

Lemma revert_loop_logs ms : forall s t, revert_loop s ms = Return t ->
  logs t = logs s /\ (forall k, is_Some (mappings s !! k) -> is_Some (mappings t !! k)).
Proof.
  induction ms as [|m ms IH]; intros s t; simpl; [by intros [= ->]|].
  destruct (revert_one s m) as [u|] eqn:E; [|done]. simpl. intros [Hl Hm]%IH.
  assert (logs u = logs s /\ (forall k, is_Some (mappings s !! k) -> is_Some (mappings u !! k))) as [Hl' Hm'].
  { unfold revert_one in E. repeat case_match; simplify_eq/=; split; try done; intros x Hx;
      apply lookup_insert_is_Some'; by right. }
  split; [congruence|eauto].
Qed.

Lemma revert_logs s t : logs_kept s -> revert s = Return t -> same_logs_store s t.
Proof.
  intros Hk. unfold revert. repeat case_match; try done.
  destruct (revert_loop s _) as [u|] eqn:E; [|done]. intros [= <-].
  destruct (revert_loop_logs _ _ _ E) as [El Em]. unfold same_logs_store, logs_kept, all_logs. simpl. rewrite El.
  split; [|done]. eauto.
Qed.

Section Logs.
Context `{CryptoLib} `{ProtoLib} `{TimestampLib}.
Variable undef : string -> Z.
Variable now : Z.

(** The log that is stored for a log of the VM while [t] is executed. *)
Definition log_of (t : Txv1) (x : pb_Log) : Log :=
  {| ContractAddress := default [] (pb_ContractAddress x); Topics := pb_Topics x; l_Data := pb_l_Data x;
     l_PinTxNumber := pb_Block x; TransactionHash := default [] (Txv1_Hash t) |}.

Definition requested (r : request) : list pb_Log := match r with SaveLogs l => l | _ => [] end.
Definition saved (l : list request) : list pb_Log := concat (map requested l).

Lemma putLogs_loop_logs t l : forall s stored u r,
  (forall k, is_Some (accounts s !! k) -> is_Some (mappings s !! k)) -> logs_kept s ->
  putLogs_loop (Some t) s stored l = Return (u, r) ->
  logs_kept u /\ exists n, all_logs u ≡ₚ all_logs s ++ map (log_of t) (take n l)
    /\ (forall st, r = inl st -> take n l = l).
Proof using Type.
  induction l as [|x l IH]; intros s stored u r Ha Hk; simpl.
  { intros [= <- <-]. split; [done|]. exists 0%nat. by rewrite app_nil_r. }
  destruct (pb_ContractAddress x) as [a|] eqn:Ea; simpl; [|done].
  destruct (accounts s !! _) eqn:E; simpl.
  - match goal with |- context [putLogs_loop _ ?s1 ?st l] => set (s1' := s1); set (st' := st) end. intros Hr.
    destruct (IH s1' st' u r) as (Hu & n & Hn & Hin); [done| |exact Hr|].
    { intros k. simpl. intros Hl%lookup_insert_is_Some'. destruct Hl as [<-|Hl]; [apply Ha; by eexists|by apply Hk]. }
    split; [done|]. exists (S n). split; [|intros st ->; simpl; by erewrite Hin].
    rewrite Hn. unfold all_logs at 1. unfold s1'. simpl. rewrite all_logs_insert. rewrite <- app_assoc. simpl.
    unfold log_of at 2. by rewrite Ea.
  - intros [= <- <-]. split; [done|]. exists 0%nat. by rewrite app_nil_r.
Qed.

(** A request keeps the logs and adds those it brings, all when it is answered. *)
Lemma serve_logs t s r u x :
  log_inv s -> request_ok r -> serve undef (Some t) now s r = Return (u, x) ->
  log_inv u /\ exists n, all_logs u ≡ₚ all_logs s ++ map (log_of t) (take n (requested r))
    /\ (x = OpResult -> take n (requested r) = requested r).
Proof using Type.
  intros [Hi Hk] Hok E.
  assert (server_inv u) as Hu.
  { pose proof (serve_outcome undef (Some t) now s r Hi Hok) as Hs. destruct (fatal _ s r); [by rewrite Hs in E|].
    destruct Hs as (u' & x' & Eu & Iu & _). by rewrite Eu in E; simplify_eq. }
  assert (requested r = [] -> same_logs_store s u -> log_inv u /\ exists n, all_logs u ≡ₚ all_logs s ++ map (log_of t) (take n (requested r))
    /\ (x = OpResult -> take n (requested r) = requested r)) as Hsame.
  { intros Hr [Hku Hp]. split; [by split|]. exists 0%nat. rewrite Hr. by rewrite app_nil_r. }
  assert (forall o, answered s o = Return (u, x) -> (forall v, o = Return (Some v) -> exists a, v = putAccount s a) -> same_logs_store s u) as Hans.
  { intros [[v|]|] Ev Ho; simplify_eq/=; [|by split]. destruct (Ho _ eq_refl) as [a ->]. by apply putAccount_logs. }
  destruct r; simpl in E.
  13: { clear Hsame. destruct logs as [|l0 l]; simpl in E; simplify_eq.
    { split; [by split|]. exists 0%nat. by rewrite app_nil_r. }
    unfold Server_SaveLogs, putLogs in E. destruct (putLogs_loop (Some t) s [] (l0 :: l)) as [[v y]|] eqn:Ev; [|done]. simpl in E.
    destruct (putLogs_loop_logs t (l0 :: l) s [] v y) as (Hv & n & Hn & Hin); [|done|done|].
    { intros k [a Ha]. by destruct (inv_accounts _ (server_store _ Hi) _ _ Ha) as (_ & _ & ?). }
    simplify_eq. split; [by split|]. exists n. split; [done|]. destruct y; [|done]. intros _. by eapply Hin. }
  all: apply Hsame; [done|].
  all: try (eapply Hans; [exact E|]; intros v; unfold Server_PutContractCode, Server_AddBalance, Server_SubBalance, Server_SetNonce;
    destruct address as [address|]; [|done]; simpl; destruct (getAccount s address); [|done];
    try (destruct code; [|done]); intros [= <-]; by eexists).
  - destruct (Server_GetAccount s address); simplify_eq/=. by split.
  - simplify_eq/=. by apply putAccount_logs.
  - simplify_eq/=. by split.
  - destruct address, key; simplify_eq/=. by split.
  - destruct address, key, value; simplify_eq/=. by apply putValue_logs.
  - simplify_eq/=. by split.
  - destruct (Server_StateCommit s) as [v|] eqn:Ev; simplify_eq/=. unfold Server_StateCommit, commit in Ev.
    case_match; simplify_eq/=. by split.
  - destruct (Server_StateRevert s) as [v|] eqn:Ev; simplify_eq/=. by apply revert_logs.
Qed.

(** Every request to save logs is answered. *)
Definition saves_answered (l : list request) (rs : list response) : Prop :=
  Forall2 (fun r x => requested r <> [] -> x = OpResult) l rs.

Lemma serve_all_logs t l : forall s u rs,
  log_inv s -> Forall request_ok l -> serve_all undef (Some t) now s l = Return (u, rs) ->
  log_inv u /\ exists added, all_logs u ≡ₚ all_logs s ++ map (log_of t) added /\ sublist added (saved l)
    /\ (saves_answered l rs -> added = saved l).
Proof using Type.
  induction l as [|r l IH]; intros s u rs Hi Hok; simpl.
  { intros [= <- <-]. split; [done|]. exists []. by rewrite app_nil_r. }
  apply Forall_cons in Hok as [Hr Hl]. destruct (serve undef (Some t) now s r) as [[v x]|] eqn:E; [|done]. simpl.
  destruct (serve_all undef (Some t) now v l) as [[w ys]|] eqn:Ew; [|done]. simpl. intros [= <- <-].
  destruct (serve_logs t s r v x Hi Hr E) as (Hv & n & Hn & Hall).
  destruct (IH v w ys Hv Hl Ew) as (Hw & added & Ha & Hsub & Hsaved). split; [done|].
  exists (take n (requested r) ++ added). unfold saved. simpl. fold (saved l). split_and!.
  - by rewrite Ha, Hn, map_app, app_assoc.
  - apply sublist_app; [apply sublist_take|done].
  - intros [Hx Hys]%Forall2_cons. rewrite (Hsaved Hys). destruct (requested r) as [|y q] eqn:Er; [by rewrite take_nil|].
    by rewrite (Hall (Hx ltac:(done))).
Qed.

(** ** A call *)

Lemma vm_run_app s l1 l2 :
  vm_run undef now s (l1 ++ l2)
  = (let! x := vm_run undef now s l1 in let! y := vm_run undef now (fst x) l2 in Return (fst y, (snd x ++ snd y)%list)).
Proof using Type.
  revert s. induction l1 as [|e l1 IH]; intros s; simpl; [by destruct (vm_run undef now s l2) as [[]|]|].
  destruct (vm_step undef now s e) as [[u o]|]; simpl; [|done]. rewrite IH.
  destruct (vm_run undef now u l1) as [[v rs]|]; simpl; [|done]. destruct (vm_run undef now v l2) as [[w qs]|]; simpl; [|done].
  by rewrite app_assoc.
Qed.

Lemma vm_run_asked l : forall s,
  vm_run undef now s (map Asked l)
  = (let! x := serve_all undef (execTx s) now (vp_store s) l in Return ({| vp_store := fst x; execTx := execTx s |}, snd x)).
Proof using Type.
  induction l as [|r l IH]; intros [s t]; simpl; [done|]. unfold CurrentExecutingTx. simpl.
  destruct (serve undef t now s r) as [[u x]|]; simpl; [|done]. rewrite IH. simpl.
  by destruct (serve_all undef t now u l) as [[v rs]|].
Qed.

(** During a call the requests are served for its transaction, and none is left. *)
Lemma vm_run_call s m l :
  vm_run undef now s (RunCall_events m l)
  = (let! x := serve_all undef (Some (Txv1_UnmarshalBinary m)) now (vp_store s) l in
     Return ({| vp_store := fst x; execTx := None |}, snd x)).
Proof using Type.
  unfold RunCall_events. simpl. rewrite vm_run_app, vm_run_asked. simpl.
  destruct (serve_all undef _ now (vp_store s) l) as [[u rs]|]; simpl; [|done]. by rewrite app_nil_r.
Qed.

Definition calls_events (calls : list (pb_Txv1 * list request)) : list vm_event :=
  concat (map (fun c => RunCall_events (fst c) (snd c)) calls).

(** Calls one after the other. Whatever the VM asks for during them, if it leaves
    out no sub-message and closes no transaction of the store that is not open, every request is answered, no
    transaction is left as the executed one, no log is lost, and each new log was
    saved by one of the calls and carries the hash of that call's transaction;
    no call adds a log twice. *)
Theorem calls_attribute_logs calls s e :
  log_inv (vp_store s) -> Forall (fun c => Forall request_ok (snd c)) calls ->
  Forall (fun c => Forall (fun r => complete r = true) (snd c)) calls ->
  nesting (length (checkPoints (vp_store s))) (concat (map snd calls)) = Some e ->
  exists s' rs added,
    vm_run undef now s (calls_events calls) = Return (s', rs) /\ log_inv (vp_store s')
    /\ length (checkPoints (vp_store s')) = e
    /\ execTx s' = match calls with [] => execTx s | _ => None end
    /\ Forall2 (fun c new => exists l, new = map (log_of (Txv1_UnmarshalBinary (fst c))) l /\ sublist l (saved (snd c))) calls added
    /\ all_logs (vp_store s') ≡ₚ all_logs (vp_store s) ++ concat added.
Proof using Type.
  intros Hi Hok Hcs. revert s Hi. induction Hok as [|[m l] calls Hl Hok IH]; intros s Hi Hn.
  { exists s, [], []. simpl in Hn. injection Hn as <-. rewrite app_nil_r. by split_and!. }
  apply Forall_cons in Hcs as [Hc Hcs]. specialize (IH Hcs).
  unfold calls_events. simpl in *. fold (calls_events calls). rewrite nesting_app in Hn.
  pose proof (serve_all_complete undef (Some (Txv1_UnmarshalBinary m)) now l (vp_store s) (log_server _ Hi) Hl
    ltac:(done) Hc) as Hs.
  destruct (nesting _ l) as [d|]; [|done]. destruct Hs as (u & rs & Eu & _ & Iu & Du). subst d.
  destruct (serve_all_logs _ l _ _ _ Hi Hl Eu) as (Hu & added & Ha & Hsub & _).
  destruct (IH {| vp_store := u; execTx := None |} Hu Hn) as (s' & rs' & more & E & Hi' & Hd & Hx & Hf & Hp).
  exists s', (rs ++ rs')%list, (map (log_of (Txv1_UnmarshalBinary m)) added :: more).
  assert (vm_run undef now s (RunCall_events m l ++ calls_events calls) = Return (s', (rs ++ rs')%list)) as Er.
  { rewrite vm_run_app, vm_run_call, Eu. simpl. by rewrite E. }
  split_and!; try done.
  - by destruct calls.
  - constructor; [by exists added|done].
  - rewrite Hp. simpl. by rewrite Ha, app_assoc.
Qed.
End Logs.

(** ** The receipt of a call *)

Section Receipts.
Context `{CryptoLib} `{ProtoLib} `{TimestampLib} `{EthLib} `{MapRange}.
Variable RunCall : Storage -> pb_Txv1 -> PinTxHeader -> Storage * (CallResponse + string).
Variable undef : string -> Z.
Variable clock : Z.

(** The call answers after the VM made the requests [l] and got the answers [rs]. *)
Definition serves (store : Storage) (m : pb_Txv1) (header : PinTxHeader) (l : list request) (rs : list response) : Prop :=
  vm_run undef clock {| vp_store := store; execTx := None |} (RunCall_events m l)
  = Return ({| vp_store := fst (RunCall store m header); execTx := None |}, rs).

Definition pin_call_header (p : NodeTxPin) (addr : bytes) (timestamp : Z) : PinTxHeader :=
  {| CoinbaseAccountAddress := addr; h_Timestamp := timestamp; h_TxNumber := to_int32 (CurrentHeight p + 1) |}.

Definition receipt_log (x : pb_Log) : TxExecLog :=
  {| el_ContractAddress := default [] (pb_ContractAddress x); el_Topics := pb_Topics x; el_Data := [] |}.

Lemma GetLogsForTx_all s h :
  GetLogsForTx s h ≡ₚ List.filter (fun l => bool_decide (TransactionHash l = h)) (all_logs s).
Proof using Type. unfold GetLogsForTx, all_logs. by rewrite map_range_perm. Qed.

Lemma filter_hash_none h l : Forall (fun x => TransactionHash x <> h) l ->
  List.filter (fun x => bool_decide (TransactionHash x = h)) l = [].
Proof using Type. induction 1 as [|x l Hx _ IH]; simpl; [done|]. by rewrite bool_decide_eq_false_2. Qed.

Lemma filter_hash_of t h l :
  List.filter (fun x => bool_decide (TransactionHash x = h)) (map (log_of t) l)
  = if decide (default [] (Txv1_Hash t) = h) then map (log_of t) l else [].
Proof using Type.
  destruct (decide _) as [E|E]; (induction l as [|x l IH]; simpl; [done|]).
  - by rewrite bool_decide_eq_true_2, IH.
  - by rewrite bool_decide_eq_false_2, IH.
Qed.

Lemma executeSMCTx_call coinbase now p store t timestamp h m addr s' r :
  GetHash t = Return h -> MarshalBinary t now = Return m -> ParseEthAddress coinbase = inl addr ->
  executeSMCTx RunCall coinbase now p store t timestamp = Return (s', inl r) ->
  s' = fst (RunCall store m (pin_call_header p addr timestamp)) /\ ex_Hash r = hex_EncodeToString h.
Proof using Type.
  intros Eh Em Ea. unfold executeSMCTx, pin_call_header. rewrite Eh, Ea, Em. simpl.
  destruct (RunCall _ _ _) as [s1 [resp|]]; [|done]. 
  destruct (cr_Status resp =? -2); [by destruct (parseVmError _)|].
  destruct (ParseInt64 _); [|done]. destruct (_ || _); [|by intros [= <- <-]].
  destruct (emptyHex _); (destruct (parseVmError _); [|done]); by intros [= <- <-].
Qed.

(** The receipt of an executed transaction has the logs whose hash is the hash of
    the transaction. *)
Lemma receipt_of_call coinbase now p store t timestamp h m addr l rs s' r rc :
  GetHash t = Return h -> MarshalBinary t now = Return m -> ParseEthAddress coinbase = inl addr ->
  log_inv store -> Forall (fun x => TransactionHash x <> h) (all_logs store) ->
  Forall request_ok l -> serves store m (pin_call_header p addr timestamp) l rs -> saves_answered l rs ->
  executeSMCTx RunCall coinbase now p store t timestamp = Return (s', inl r) -> execResultToReceipt s' r = Return rc ->
  rc_Logs rc ≡ₚ if decide (default [] (Txv1_Hash (Txv1_UnmarshalBinary m)) = h) then map receipt_log (saved l) else [].
Proof using Type.
  intros Eh Em Ea Hi Hnew Hl Hs Hrs Hx Hrc.
  destruct (executeSMCTx_call _ _ _ _ _ _ _ _ _ _ _ Eh Em Ea Hx) as [-> Er].
  unfold serves in Hs. rewrite vm_run_call in Hs. simpl in Hs.
  destruct (serve_all undef _ clock store l) as [[u rs']|] eqn:Eu; [|done]. injection Hs as Hu ->.
  destruct (serve_all_logs _ _ _ l _ _ _ Hi Hl Eu) as (_ & added & Hp & _ & Hadd).
  unfold execResultToReceipt in Hrc. rewrite Er, hex_Decode_Encode in Hrc. injection Hrc as <-. simpl.
  rewrite <- Hu, GetLogsForTx_all, Hp, (Hadd Hrs), List.filter_app, filter_hash_none, filter_hash_of by done. simpl.
  destruct (decide _); [|done]. by rewrite map_map.
Qed.

(** C16: The receipt of a call holds its logs. Let a transaction of the network be
    executed on a store that has no log of it yet, and let the VM make any
    requests during the call whose requests to save logs are answered. Then the
    logs of the receipt are exactly those that the VM saved, each once, without
    their data. *)
Theorem receipt_holds_saved_logs coinbase now p store t timestamp h addr l rs s' r rc :
  Txv1_ok t -> Txv1_Hash t = Some h -> ParseEthAddress coinbase = inl addr ->
  log_inv store -> Forall (fun x => TransactionHash x <> h) (all_logs store) ->
  Forall request_ok l -> serves store (Txv1_MarshalBinary t) (pin_call_header p addr timestamp) l rs -> saves_answered l rs ->
  executeSMCTx RunCall coinbase now p store (ATxv1 t) timestamp = Return (s', inl r) ->
  execResultToReceipt s' r = Return rc ->
  rc_Logs rc ≡ₚ map receipt_log (saved l).
Proof using Type.
  intros Hok Eh Ea Hi Hnew Hl Hs Hrs Hx Hrc.
  rewrite (receipt_of_call coinbase now p store (ATxv1 t) timestamp h (Txv1_MarshalBinary t) addr l rs s' r rc); try done.
  - rewrite Txv1_Unmarshal_Marshal, Eh by done. by rewrite decide_True.
  - simpl. unfold Txv1_GetHash. by rewrite Eh.
Qed.

(** The logs of an Ethereum transaction are stored with the hash of its fields as
    a transaction of the network, which holds the time of the call: unless that
    hash is the hash of the Ethereum transaction, its receipt has no logs. *)
Theorem eth_receipt_has_no_logs coinbase now p store t timestamp m addr l rs s' r rc :
  EthTx_MarshalBinary t now = Return m -> ParseEthAddress coinbase = inl addr ->
  default [] (Txv1_Hash (Txv1_UnmarshalBinary m)) <> eth_Hash t ->
  log_inv store -> Forall (fun x => TransactionHash x <> eth_Hash t) (all_logs store) ->
  Forall request_ok l -> serves store m (pin_call_header p addr timestamp) l rs -> saves_answered l rs ->
  executeSMCTx RunCall coinbase now p store (AnEthTx t) timestamp = Return (s', inl r) ->
  execResultToReceipt s' r = Return rc ->
  rc_Logs rc = [].
Proof using Type.
  intros Em Ea Hne Hi Hnew Hl Hs Hrs Hx Hrc. apply Permutation_nil. symmetry.
  rewrite (receipt_of_call coinbase now p store (AnEthTx t) timestamp (eth_Hash t) m addr l rs s' r rc) by done.
  by rewrite decide_False.
Qed.
End Receipts.

(** ** A VM that logs *)

Definition logging_requests : list request :=
  [CreateAccount [xab]; StateCheckpoint; PutContractStorage (Some [xab]) (Some [x01]) (Some [x07]); StateCommit;
   SaveLogs [{| pb_ContractAddress := Some [xab]; pb_Topics := [[x11]]; pb_l_Data := [x22]; pb_Block := 1 |};
             {| pb_ContractAddress := Some [xab]; pb_Topics := []; pb_l_Data := []; pb_Block := 1 |}]].

Definition logging_vm (store : Storage) (m : pb_Txv1) (_ : PinTxHeader) : Storage * (CallResponse + string) :=
  match serve_all (fun _ => 0) (Some (Txv1_UnmarshalBinary m)) 0 store logging_requests with
  | Return (s, _) => (s, inl {| cr_Status := 0; cr_Msg := "0x"; cr_Error := ""; cr_GasUsed := "21000" |})
  | Panic => (store, inr "")
  end.

Definition coinbase_address : string := "0x0000000000000000000000000000000000000001".

Lemma receipt_holds_saved_logs_witness :
  exists s' r rc,
    executeSMCTx logging_vm coinbase_address 0 newNodeTxPin NewStorage (ATxv1 sample_payment) 0 = Return (s', inl r)
    /\ execResultToReceipt s' r = Return rc
    /\ rc_Logs rc ≡ₚ map receipt_log (saved logging_requests).
Proof.
  destruct (executeSMCTx logging_vm coinbase_address 0 newNodeTxPin NewStorage (ATxv1 sample_payment) 0)
    as [[s' [r|]]|] eqn:E; [|vm_compute in E; discriminate E..].
  destruct (execResultToReceipt s' r) as [rc|] eqn:Er.
  2: { vm_compute in E. injection E as <- <-. vm_compute in Er. discriminate Er. }
  exists s', r, rc. split; [done|]. split; [done|].
  apply (receipt_holds_saved_logs logging_vm (fun _ => 0) 0 coinbase_address 0 newNodeTxPin NewStorage sample_payment 0
    (default [] (Txv1_Hash sample_payment)) (replicate 19 x00 ++ [x01]) logging_requests
    [OpResult; OpResult; OpResult; OpResult; OpResult] s' r rc).
  - vm_compute. by repeat split.
  - by vm_compute.
  - by vm_compute.
  - apply log_inv_new.
  - constructor.
  - repeat constructor.
  - unfold serves. by vm_compute.
  - by repeat constructor.
  - done.
  - done.
Defined.

(** Two calls that overlap: the end of one clears the transaction of the other,
    and the next logs of the VM end the process. *)
Example overlapping_calls_panic m1 m2 :
  vm_run (fun _ => 0) 0 {| vp_store := NewStorage; execTx := None |}
    [CallStarts m1; Asked (CreateAccount [xab]); CallStarts m2; CallEnds;
     Asked (SaveLogs [{| pb_ContractAddress := Some [xab]; pb_Topics := []; pb_l_Data := []; pb_Block := 1 |}])] = Panic.
Proof. reflexivity. Qed.
