(* ===== verification/Host.v ===== *)
(** The host of a peer: [prepareHostOptions], [NewHost] and [Terminate] of
    [peer/peer.go], the relay reservation of [peer/reservation.go], and the start
    of the host by [Start] of [run/run.go].

    The library is an argument: whether it makes the host and the services, and
    which addresses it parses, connects to and reserves at.  The model keeps the
    options handed to it and the services that are held. *)
From S2P Require Import Prelude GoLib Storage Discovery Startup StartupProps.
Open Scope string_scope.

(** ** The options *)

Inductive host_option :=
| Identity | Ping | EnableHolePunching | ListenAddr (a : string) | SecurityTls | EnableRelay
| AutoRelay (relays : list string) | BandwidthReporter.

Record host_config := {
  hc_Host : string; hc_PeerPort : Z;        (** [grapeCfg.Peer] *)
  hc_Bandwidth : Z;
  hc_Port : Z; hc_Bootstrap : bool;         (** the command line *)
  hc_Bootstrap_peers : list string
}.

Definition set_Bootstrap_peers (c : host_config) (l : list string) : host_config :=
  {| hc_Host := hc_Host c; hc_PeerPort := hc_PeerPort c; hc_Bandwidth := hc_Bandwidth c; hc_Port := hc_Port c;
     hc_Bootstrap := hc_Bootstrap c; hc_Bootstrap_peers := l |}.

(** What the library and the network answer. *)
Record host_env := {
  he_Bootstrap : list string;               (** [LoadBootstrap] *)
  he_AddrInfo : string -> bool;             (** [AddrInfoFromString] *)
  he_New : bool;
  he_Connect : string -> bool;
  he_Reserve : string -> bool;
  he_Holepunch : bool;
  he_Relay : bool;
  he_Subscribe : bool
}.

Definition listen_port (c : host_config) : Z := if (0 <? hc_Port c)%Z then hc_Port c else hc_PeerPort c.

Definition listen_address (c : host_config) (proto suffix : string) : string :=
  "/ip4/" ++ hc_Host c ++ proto ++ dec_String (listen_port c) ++ suffix.

(** The configuration gets the peers of the bootstrap file when it has none. *)
Definition prepareHostOptions (e : host_env) (c : host_config) : host_config * list host_option :=
  let options := [Identity; Ping; EnableHolePunching;
                  ListenAddr (listen_address c "/udp/" "/quic-v1");
                  ListenAddr (listen_address c "/tcp/" "");
                  ListenAddr (listen_address c "/tcp/" "/ws"); SecurityTls; EnableRelay] in
  let c := match hc_Bootstrap_peers c with [] => set_Bootstrap_peers c (he_Bootstrap e) | _ => c end in
  (c, (options ++ [AutoRelay (List.filter (he_AddrInfo e) (getRelayCandidates (hc_Bootstrap_peers c)))])%list).

(** ** The host *)

Record GrapeHost := {
  gh_host : bool; gh_bandwidth : bool; gh_relay : bool; gh_relayInfo : bool;
  gh_holepunch : bool;                      (** [hpService] *)
  gh_monitor : bool;                        (** the monitor of the event bus runs *)
  gh_reservation : option string
}.

Definition no_host : GrapeHost :=
  {| gh_host := false; gh_bandwidth := false; gh_relay := false; gh_relayInfo := false; gh_holepunch := false;
     gh_monitor := false; gh_reservation := None |}.

Definition makeRelayReservation (e : host_env) (conn_str : string) : bool :=
  he_AddrInfo e conn_str && he_Connect e conn_str && he_Reserve e conn_str.

(** The relays that are tried and the one that took the reservation. *)
Fixpoint reserve_first (e : host_env) (relays : list string) : list string * option string :=
  match relays with
  | [] => ([], None)
  | r :: rest =>
      if makeRelayReservation e r then ([r], Some r)
      else let '(tried, found) := reserve_first e rest in (r :: tried, found)
  end.

(** The host, the options the library got, and whether there was no error. *)
Definition NewHost (e : host_env) (c : host_config) : GrapeHost * list host_option * bool :=
  let '(c, options) := prepareHostOptions e c in
  let bandwidth := (0 <? hc_Bandwidth c)%Z in
  let options := (options ++ if bandwidth then [BandwidthReporter] else [])%list in
  let gh := {| gh_host := false; gh_bandwidth := bandwidth; gh_relay := false; gh_relayInfo := false;
               gh_holepunch := false; gh_monitor := false; gh_reservation := None |} in
  if negb (he_New e) then (gh, options, false)
  else
    let reservation := if hc_Bootstrap c then None else snd (reserve_first e (getRelayCandidates (hc_Bootstrap_peers c))) in
    ({| gh_host := true; gh_bandwidth := bandwidth; gh_relay := hc_Bootstrap c && he_Relay e;
        gh_relayInfo := hc_Bootstrap c; gh_holepunch := he_Holepunch e; gh_monitor := he_Subscribe e;
        gh_reservation := reservation |}, options, true).

(** ** The start and the end *)

(** [Start]: an error of [NewHost] is only printed, and the addresses of the host
    are listed next. *)
Definition start_host (e : host_env) (c : host_config) : outcome GrapeHost :=
  let '(gh, _, _) := NewHost e c in
  if gh_host gh then Return gh else Panic.

Inductive host_close := StopBandwidth | StopMonitor | CloseRelay | CloseHolepunch | CloseConnManager | PurgePeers | CloseHost.

#[export] Instance host_close_eq_dec : EqDecision host_close.
Proof. solve_decision. Defined.

(** The services in the order they are closed. *)
Definition host_Terminate (gh : GrapeHost) : outcome (list host_close) :=
  let closed := ((if gh_bandwidth gh then [StopBandwidth] else [])
                 ++ (if gh_monitor gh then [StopMonitor] else [])
                 ++ (if gh_relay gh then [CloseRelay] else [])
                 ++ (if gh_holepunch gh then [CloseHolepunch] else []))%list in
  if gh_host gh then Return (closed ++ [CloseConnManager; PurgePeers; CloseHost])%list else Panic.

(** ** Theorems *)

(** The peers that relays are taken from. *)
Definition relay_peers (e : host_env) (c : host_config) : list string :=
  match hc_Bootstrap_peers c with [] => he_Bootstrap e | l => l end.

Lemma prepareHostOptions_peers e c :
  hc_Bootstrap_peers (fst (prepareHostOptions e c)) = relay_peers e c
  /\ hc_Bootstrap (fst (prepareHostOptions e c)) = hc_Bootstrap c
  /\ hc_Bandwidth (fst (prepareHostOptions e c)) = hc_Bandwidth c.
Proof. unfold prepareHostOptions, relay_peers. simpl. by destruct (hc_Bootstrap_peers c) eqn:E; rewrite ?E. Qed.

(** What [NewHost] makes when the library gives a host. *)
Lemma NewHost_made e c : he_New e = true ->
  NewHost e c =
  ({| gh_host := true; gh_bandwidth := (0 <? hc_Bandwidth c)%Z; gh_relay := hc_Bootstrap c && he_Relay e;
      gh_relayInfo := hc_Bootstrap c; gh_holepunch := he_Holepunch e; gh_monitor := he_Subscribe e;
      gh_reservation := if hc_Bootstrap c then None else snd (reserve_first e (getRelayCandidates (relay_peers e c))) |},
   (snd (prepareHostOptions e c) ++ (if (0 <? hc_Bandwidth c)%Z then [BandwidthReporter] else []))%list, true).
Proof.
  intros Hn. destruct (prepareHostOptions_peers e c) as (Ep & Eb & Ew). unfold NewHost.
  destruct (prepareHostOptions e c) as [c' options]. simpl in *. by rewrite Hn, Ep, Eb, Ew.
Qed.

Lemma elem_of_close (x y : host_close) (b : bool) : x ∈ (if b then [y] else []) <-> b = true /\ x = y.
Proof. destruct b; [rewrite list_elem_of_singleton|rewrite elem_of_nil]; naive_solver. Qed.

(** The life of a host. Without a host the start of the peer panics, since the
    error is only printed. With one it starts, and at the end each service that
    was started is closed, each once and the host last: the report of the
    bandwidth when it is wanted, the monitor when the host has an event bus, the
    relay of a bootstrap node, the hole punching. *)
Theorem host_lifecycle e c :
  if he_New e then
    exists gh l, start_host e c = Return gh /\ host_Terminate gh = Return (l ++ [CloseHost])%list /\ NoDup l /\
      forall x, x ∈ l <->
        match x with
        | StopBandwidth => (0 < hc_Bandwidth c)%Z
        | StopMonitor => he_Subscribe e = true
        | CloseRelay => hc_Bootstrap c = true /\ he_Relay e = true
        | CloseHolepunch => he_Holepunch e = true
        | CloseConnManager | PurgePeers => True
        | CloseHost => False
        end
  else start_host e c = Panic /\ host_Terminate (fst (fst (NewHost e c))) = Panic.
Proof.
  destruct (he_New e) eqn:Hn.
  - unfold start_host. rewrite NewHost_made by done. cbn [gh_host]. unfold host_Terminate.
    eexists _, _. split; [reflexivity|]. split.
    { f_equal. rewrite (app_assoc _ [CloseConnManager; PurgePeers] [CloseHost]). reflexivity. }
    split.
    + cbn [gh_bandwidth gh_monitor gh_relay gh_holepunch]. destruct (0 <? hc_Bandwidth c)%Z, (he_Subscribe e), (hc_Bootstrap c && he_Relay e), (he_Holepunch e); simpl;
        apply (bool_decide_unpack _); by vm_compute.
    + intros x. rewrite !elem_of_app, !elem_of_close, !elem_of_cons, elem_of_nil. cbn [gh_bandwidth gh_monitor gh_relay gh_holepunch]. rewrite andb_true_iff, Z.ltb_lt.
      destruct x; naive_solver.
  - unfold start_host, NewHost. destruct (prepareHostOptions e c). by rewrite Hn.
Qed.

Lemma reserve_first_spec e relays :
  match snd (reserve_first e relays) with
  | Some r => exists before after, relays = (before ++ r :: after)%list /\ makeRelayReservation e r = true
                /\ Forall (fun x => makeRelayReservation e x = false) before
                /\ fst (reserve_first e relays) = (before ++ [r])%list
  | None => Forall (fun x => makeRelayReservation e x = false) relays /\ fst (reserve_first e relays) = relays
  end.
Proof.
  induction relays as [|r rest IH]; simpl; [done|]. destruct (makeRelayReservation e r) eqn:E.
  - simpl. by exists [], rest.
  - destruct (reserve_first e rest) as [tried [x|]]; simpl in *.
    + destruct IH as (before & after & -> & Hx & Hb & ->). exists (r :: before), after. split_and!; try done. by constructor.
    + destruct IH as [Hf ->]. split; [by constructor|done].
Qed.

(** The reservation at a relay. A bootstrap node makes none. Another node has a
    reservation at the first candidate, the bootstrap peers before the two relays
    of the configuration, that can be parsed, reached and reserves, and none if
    there is no such candidate; that relay is one of the relays of its options. *)
Theorem reservation_first e c gh options :
  he_New e = true -> NewHost e c = (gh, options, true) ->
  let candidates := getRelayCandidates (relay_peers e c) in
  if hc_Bootstrap c then gh_reservation gh = None
  else match gh_reservation gh with
       | Some r =>
           (exists before after, candidates = (before ++ r :: after)%list /\ makeRelayReservation e r = true
              /\ Forall (fun x => makeRelayReservation e x = false) before)
           /\ (exists relays, AutoRelay relays ∈ options /\ r ∈ relays)
           /\ ((r ∈ relay_peers e c /\ r <> "") \/ r = RELAY_SRV_1 \/ r = RELAY_SRV_2)
       | None => forall r, (r ∈ relay_peers e c /\ r <> "") \/ r = RELAY_SRV_1 \/ r = RELAY_SRV_2 ->
                   makeRelayReservation e r = false
       end.
Proof.
  intros Hn. rewrite NewHost_made by done. intros [= <- <-]. simpl. destruct (hc_Bootstrap c); [done|].
  destruct (getRelayCandidates_spec (relay_peers e c)) as (_ & _ & Hin).
  pose proof (reserve_first_spec e (getRelayCandidates (relay_peers e c))) as Hs.
  destruct (snd (reserve_first e _)) as [r|].
  - destruct Hs as (before & after & Hl & Hr & Hb & _).
    assert (r ∈ getRelayCandidates (relay_peers e c)) as Hrin by (rewrite Hl, elem_of_app, elem_of_cons; auto).
    split; [by exists before, after|]. split; [|by apply Hin].
    exists (List.filter (he_AddrInfo e) (getRelayCandidates (relay_peers e c))). split.
    + unfold prepareHostOptions. simpl. destruct (prepareHostOptions_peers e c) as (Ep & _). simpl in Ep. rewrite Ep.
      rewrite !elem_of_cons. tauto.
    + apply list_elem_of_In, filter_In. rewrite <- list_elem_of_In. split; [done|].
      unfold makeRelayReservation in Hr. by apply andb_true_iff in Hr as [[Ha _]%andb_true_iff _].
  - destruct Hs as [Hf _]. intros r Hr%Hin. by eapply Forall_forall in Hf.
Qed.
